(* ===== verification/_CoqProject ===== *)
-Q . S2P
Prelude.v
Trace.v
CString.v
Riscv.v
Kalloc.v
Vm.v
PageTable.v
AddrSpace.v
FreeWalk.v
UserMem.v
Spinlock.v
SpinlockSpec.v
Kernel.v
Sched.v
Sleeplock.v
Bio.v
BioList.v
Bytes.v
BioSpec.v
Log.v
LogSpec.v
Sample.v
LogCrash.v
LogOps.v
BioProps.v
RingBuf.v
Uart.v
Printf.v
Access.v
Console.v
Pipe.v
Fs.v
FsSpec.v
FsFile.v
FsData.v
FsInode.v
FsTrunc.v
FsProps.v
File.v
ProcMem.v
Proc.v
ProcSpec.v
ProcAlloc.v
ProcFork.v
ProcGrow.v
ProcWait.v
ProcProps.v
Args.v
Sysproc.v
Exec.v
Sysfile.v
Virtio.v
VirtioSpec.v
VirtioDriver.v
VirtioSystem.v
VirtioProps.v
Syscall.v
Trap.v
Boot.v
Scheduler.v
ULib.v
UEnv.v
Grep.v
UProgs.v
UProgsProps.v
Umalloc.v
UmallocSpec.v
UmallocProps.v
Sh.v
ShParse.v
ShPrint.v
Mkfs.v
MkfsSpec.v
MkfsProps.v
MkfsCorrect.v
