(* ===== verification/Prelude.v ===== *)
(** * xv6 (CSSE332 lab 0): a verification library

    The program is the teaching operating system xv6 for RISC-V, as handed out for a
    lab: a kernel (kernel/), user programs with a small C library (user/) and the host
    program that makes the first disk image (mkfs/).  Paths are relative to src/.

    ** How C becomes Rocq

    Integers are [Z], cut to their width where C does it ([u8] to [u64], [i16], [i32]).
    A pointer into an array is an index, a pointer to memory its address, and bytes in
    memory and on disk are laid out as the RISC-V does.  A kernel function is a
    function in the monad [M] of this file: it runs with the list of spin locks that the
    thread holds and a state, and returns, panics, gives up the CPU (with the rest of its
    run as a continuation from any state in which it is scheduled again) or runs out
    of fuel.  [K] and [KM] are this monad over physical memory with the page allocator
    ([machine], Kalloc.v) and over all of the kernel's variables ([kernel], Kernel.v).
    Definitions have the names of the C functions; a loop of function f is f_loop or is
    named after what it does, and its doc comment quotes the C text.

    ** Parts of the kernel and their files

    - kernel/string.c: CString.v.  riscv.h, memlayout.h, param.h: Riscv.v.
    - kernel/kalloc.c: Kalloc.v, with the free list threaded through the free pages.
    - kernel/vm.c: Vm.v has the code; PageTable.v describes a page table as a map and
      proves [walk] and [mappages]; AddrSpace.v the growth, shrinking and copying of
      address spaces; FreeWalk.v their end; UserMem.v and Access.v the copies to and
      from user memory.
    - kernel/spinlock.c: Spinlock.v, with several harts that interleave at every access to
      the words of a lock; SpinlockSpec.v shows that their traces are those of atomic
      locks (Trace.v has runs with events and simulations between them).  The other files
      use locks through the rules that [acquire] and [release] of this file state for one
      thread, which are the operations of the atomic locks.
    - sleep, wakeup, kill: Sched.v.  kernel/sleeplock.c: Sleeplock.v.
    - kernel/bio.c: Bio.v; BioList.v (the ring of buffers), BioSpec.v (the cache as a map
      from blocks to contents, the contract that the log uses), BioProps.v.
    - kernel/log.c: Log.v; LogSpec.v (the disk writes of a commit and a recovery),
      LogCrash.v (crashes after any of them), LogOps.v (begin_op, log_write, end_op).
    - kernel/virtio_disk.c: Virtio.v; VirtioSpec.v (the device and the protocol of the
      queue), VirtioDriver.v (each operation of the driver keeps the protocol),
      VirtioSystem.v (processes, device, the rounds of the interrupt handler and code
      outside of the driver interleaved; the simulation by an abstract disk),
      VirtioProps.v (the theorems).
    - kernel/uart.c, printf.c, console.c, pipe.c: Uart.v, Printf.v, Console.v, Pipe.v, on
      the ring buffers of RingBuf.v.
    - kernel/fs.c: Fs.v; FsSpec.v (blocks inside a transaction), FsFile.v (bmap), FsData.v
      (readi, the loop of writei), FsInode.v (inodes on disk, writei), FsTrunc.v
      (bfree, itrunc), FsProps.v (the theorems).
    - kernel/file.c: File.v.  kernel/sysfile.c, sysproc.c, syscall.c, exec.c: Sysfile.v,
      Sysproc.v, Args.v, Syscall.v, Exec.v.
    - kernel/proc.c: Proc.v; ProcMem.v (page tables of processes), ProcSpec.v (which
      process owns which page), ProcAlloc.v, ProcFork.v, ProcGrow.v, ProcWait.v,
      ProcProps.v (the theorems); Scheduler.v.
    - kernel/trap.c, plic.c, main.c, start.c: Trap.v, Boot.v.

    ** Parts outside of the kernel

    - user/ulib.c, printf.c: ULib.v.  A user program is a tree of system calls that
      continues with the kernel's answer.  UEnv.v runs such a tree where one
      descriptor is a file that delivers its bytes in arbitrary pieces.
    - user/grep.c: Grep.v.  user/umalloc.c: Umalloc.v, UmallocSpec.v, UmallocProps.v.
      user/sh.c: Sh.v, ShParse.v, ShPrint.v.  The small programs: UProgs.v,
      UProgsProps.v.
    - mkfs/mkfs.c: Mkfs.v, MkfsSpec.v, MkfsProps.v, MkfsCorrect.v.

    ** What is proved

    - Crash safety: whichever prefix of the writes of a commit reaches the disk, recovery
      leaves the state before or after the transaction, also when it is interrupted
      itself (LogCrash.v); [end_op] of the last operation makes its writes durable, and
      where the reservation of [begin_op] is one block too generous (LogOps.v).
    - The disk driver refines atomic transfers: the calls, returns and states that its
      clients see are those of a disk that performs each call in one step between the two.
      It does not panic or lose a wakeup, its interrupt handler gives every finished buffer
      back, and every call returns, with any number of processes and completions in any
      order (VirtioProps.v).
    - Files: [writei], [readi] and [itrunc] as operations on the contents, with the frame:
      no other inode, file or block changes (FsProps.v).  The image of mkfs
      satisfies what these theorems assume (MkfsCorrect.v).
    - Memory: the page allocator, page tables and address spaces, without leaks; user
      copies across pages; [fork], [wait] and [growproc] with the account of every page
      of every process; malloc and free.
    - Locks: mutual exclusion with interrupts off, refinement to atomic locks, progress.
      Buffers: a [bread] returns the block, the victim is the least recently used.
    - Bytes through pipes and the console in order, line editing; no lost wakeup on a pipe
      unless a writer is killed in the middle of a write, when one is lost indeed.
    - Programs: the matcher of grep decides its language, grep prints the matching lines,
      wc counts, the parser of the shell terminates and inverts a printer.

    ** Fuel

    A loop with a bound in the code has fuel that suffices: the number of pages of the
    range, of table entries, of blocks, of characters left, or of descriptors.  Theorems
    about such loops state that the result is produced.  The parser of the shell has
    [4 * es + 4] units for a line of [es] characters, and [parsecmd_terminates] shows that
    they are enough.  A loop that waits for another thread has no bound: it runs for
    [patience] rounds, an arbitrary number, and the theorems hold for each; those on
    [pipewrite] and the like describe the run up to the point where it sleeps.  That calls
    of the disk driver return needs a patience of one round only, for the steps counted
    there are those after which a process need not wait again.  Loops of
    user programs that read to the end of a file run [rounds] times; the
    theorems ask for as many rounds as there are bytes, or list cells, and give the result.

    ** Parameters

    The addresses that the linker chooses ([Image] in Proc.v), the registers of the disk
    ([Virtio_device] in Virtio.v), whether another hart kills a process in the middle of a
    write to a pipe ([Kills] in Pipe.v), what the kernel answers to a user program, and
    whether [sbrk] succeeds.  Hypotheses on them are premises of the theorems.

    ** Not modelled

    The assembly files (entry.S, swtch.S, trampoline.S, kernelvec.S): a trap or a switch
    is one step.  Weak memory: harts interleave access by access.  Outside of
    Spinlock.v and VirtioSystem.v, code between two points where a thread gives up the CPU
    is one step, as its locks make it; what another hart can do meanwhile because it needs
    none of these locks is a parameter, such as [Kills].  The buffer cache, the log and the
    file system use the disk driver through its contract [disk_rw], one atomic step, and
    not through the code that sleeps: no other thread may use the locked buffer meanwhile,
    and [virtio_refines_disk_rw] shows that the driver implements the contract.  The tests (usertests.c, grind.c, rhtest.c), the
    exercises without a body (arraylist.c, warmup.c), ramdisk.c, which is not built,
    and the build and grading scripts. *)

From stdpp Require Export base numbers list gmap strings.
From Stdlib Require Export ZArith Lia.
From Stdlib Require Import FunctionalExtensionality.

#[global] Open Scope Z_scope.

(** ** Machine integers

    C integers are values of [Z]; the functions below are the conversions the
    C abstract machine applies when a value is stored in an object of the given
    width (RISC-V LP64: [int] 32, [long] and pointers 64 bits, [char]
    unsigned). *)

Definition u8 (x : Z) : Z := x mod 2 ^ 8.
Definition u16 (x : Z) : Z := x mod 2 ^ 16.
Definition u32 (x : Z) : Z := x mod 2 ^ 32.
Definition u64 (x : Z) : Z := x mod 2 ^ 64.
Definition i32 (x : Z) : Z := (x + 2 ^ 31) mod 2 ^ 32 - 2 ^ 31.
Definition i16 (x : Z) : Z := (x + 2 ^ 15) mod 2 ^ 16 - 2 ^ 15.

Lemma u8_range x : 0 ≤ u8 x < 256.
Proof. unfold u8. apply Z.mod_pos_bound. lia. Qed.

Lemma u32_range x : 0 ≤ u32 x < 2 ^ 32.
Proof. unfold u32. apply Z.mod_pos_bound. lia. Qed.

Lemma u64_range x : 0 ≤ u64 x < 2 ^ 64.
Proof. unfold u64. apply Z.mod_pos_bound. lia. Qed.

Lemma u8_small x : 0 ≤ x < 256 → u8 x = x.
Proof. intros. unfold u8. apply Z.mod_small. lia. Qed.

Lemma u32_small x : 0 ≤ x < 2 ^ 32 → u32 x = x.
Proof. intros. unfold u32. by apply Z.mod_small. Qed.

Lemma u64_small x : 0 ≤ x < 2 ^ 64 → u64 x = x.
Proof. intros. unfold u64. by apply Z.mod_small. Qed.

Lemma i32_small x : - 2 ^ 31 ≤ x < 2 ^ 31 → i32 x = x.
Proof. intros. unfold i32. rewrite Z.mod_small; lia. Qed.

Lemma u8_idemp x : u8 (u8 x) = u8 x.
Proof. apply u8_small, u8_range. Qed.

(** ** Spin locks held by the running thread

    One name for each spin lock of the kernel; the lock inside a sleep lock is
    named by the object it protects. *)

Inductive lockid : Type :=
  | L_kmem | L_bcache | L_log | L_itable | L_ftable | L_pid | L_wait
  | L_cons | L_uart_tx | L_ticks | L_pr | L_vdisk
  | L_proc (i : nat) | L_pipe (pa : Z) | L_buf (i : nat) | L_inode (i : nat).

#[global] Instance lockid_eq_dec : EqDecision lockid.
Proof. solve_decision. Defined.

(** ** Outcomes of kernel code

    A kernel function runs with the set of spin locks its thread holds and a
    state.  It either returns a value, or calls [panic], or gives up the CPU in
    [sched], or has exhausted the fuel of a modelled loop.  A thread that gives
    up the CPU leaves a state to the scheduler and continues, with the same
    locks, from the state in which it is scheduled again. *)

Inductive outcome (S A : Type) : Type :=
  | Ok (a : A) (h : list lockid) (s : S)
  | Panic (msg : string)
  | Block (h : list lockid) (s : S) (k : S → outcome S A)
  | NoFuel.
Arguments Ok {S A} a h s.
Arguments Panic {S A} msg.
Arguments Block {S A} h s k.
Arguments NoFuel {S A}.

Definition M (S A : Type) : Type := list lockid → S → outcome S A.

#[global] Instance M_ret S : MRet (M S) := λ A a h s, Ok a h s.
Fixpoint obind {S A B} (f : A → M S B) (o : outcome S A) : outcome S B :=
  match o with
  | Ok a h s => f a h s
  | Panic msg => Panic msg
  | Block h s k => Block h s (λ s', obind f (k s'))
  | NoFuel => NoFuel
  end.
#[global] Instance M_bind S : MBind (M S) := λ A B f m h s, obind f (m h s).

Section MonadOps.
Context {S : Type}.
Definition panic {A} (msg : string) : M S A := λ _ _, Panic msg.
Definition block : M S unit := λ h s, Block h s (λ s', Ok tt h s').
Definition nofuel {A} : M S A := λ _ _, NoFuel.
Definition gets {A} (f : S → A) : M S A := λ h s, Ok (f s) h s.
Definition modify (f : S → S) : M S unit := λ h s, Ok tt h (f s).
Definition when (b : bool) (m : M S unit) : M S unit := if b then m else mret tt.

(** Spin locks as one thread sees them: [initlock] makes the lock free; [acquire]
    waits until the lock
    is free; [holding] guards against taking it twice or giving up a lock that
    is not held.  Spinlock.v models the locks themselves, interrupt nesting
    and the other harts. *)
Definition initlock (lk : lockid) : M S unit := λ h s, Ok tt (filter (λ l, l ≠ lk) h) s.
Definition acquire (lk : lockid) : M S unit := λ h s,
  if bool_decide (lk ∈ h) then Panic "acquire" else Ok tt (lk :: h) s.
Definition release (lk : lockid) : M S unit := λ h s,
  if bool_decide (lk ∈ h) then Ok tt (filter (λ l, l ≠ lk) h) s else Panic "release".
(** The locks held; their number is [mycpu()->noff]. *)
Definition held : M S (list lockid) := λ h s, Ok h h s.
End MonadOps.

(** Loops that wait for another thread or for a device have no bound of their
    own: they are run for at most [patience] rounds and end in [NoFuel] when
    those are used up. *)
Class Patience : Type := patience : nat.

(** Every run ends in a return that satisfies [P] (or waits longer than the
    patience allows), provided that each time the thread gives up the CPU it is
    resumed in a state that satisfies [I]. *)
Fixpoint post {S A} (I : S → Prop) (P : A → list lockid → S → Prop) (o : outcome S A) : Prop :=
  match o with
  | Ok a h s => P a h s
  | Panic _ => False
  | Block _ _ k => ∀ s', I s' → post I P (k s')
  | NoFuel => True
  end.

(** The same with a condition [W] on the states in which the CPU is given up, which
    are those other threads see. *)
Fixpoint runs {S A} (W R : S → Prop) (Q : A → list lockid → S → Prop) (o : outcome S A) : Prop :=
  match o with
  | Ok a h s => Q a h s
  | Panic _ => False
  | Block _ s k => W s ∧ ∀ s', R s' → runs W R Q (k s')
  | NoFuel => True
  end.

(** Run code of a component on the part of a larger state that it owns. *)
Fixpoint ozoom {S T A} (get : S → T) (put : T → S → S) (s : S) (o : outcome T A) : outcome S A :=
  match o with
  | Ok a h t => Ok a h (put t s)
  | Panic msg => Panic msg
  | Block h t k => Block h (put t s) (λ s', ozoom get put s' (k (get s')))
  | NoFuel => NoFuel
  end.
Definition zoom {S T A} (get : S → T) (put : T → S → S) (m : M T A) : M S A := λ h s,
  ozoom get put s (m h (get s)).

Section MonadLemmas.
Context {S A B : Type}.
Implicit Types (m : M S A) (f : A → M S B).

Lemma Ok_inj (a a' : A) h h' (s s' : S) :
  Ok a h s = Ok a' h' s' → a = a' ∧ h = h' ∧ s = s'.
Proof. by intros [= -> -> ->]. Qed.

Lemma bind_Ok_inv m f h s b h2 s2 :
  (m ≫= f) h s = Ok b h2 s2 → ∃ a h1 s1, m h s = Ok a h1 s1 ∧ f a h1 s1 = Ok b h2 s2.
Proof. unfold mbind, M_bind. destruct (m h s); naive_solver. Qed.

Lemma bind_Ok m f h s a h1 s1 : m h s = Ok a h1 s1 → (m ≫= f) h s = f a h1 s1.
Proof. unfold mbind, M_bind. by intros ->. Qed.

Lemma bind_eq m m' f h h' s s' : m h s = m' h' s' → (m ≫= f) h s = (m' ≫= f) h' s'.
Proof. unfold mbind, M_bind. by intros ->. Qed.

Lemma bind_gets {C} (g : S → C) (f : C → M S B) h s : (gets g ≫= f) h s = f (g s) h s.
Proof. done. Qed.

Lemma bind_modify (g : S → S) (f : unit → M S B) h s :
  (modify g ≫= f) h s = f tt h (g s).
Proof. done. Qed.

Lemma bind_ret a f h s : (mret a ≫= f) h s = f a h s.
Proof. done. Qed.

Lemma bind_held (f : list lockid → M S B) h s : (held ≫= f) h s = f h h s.
Proof. done. Qed.

Lemma bind_assoc {C} m f (g : B → M S C) h s :
  ((m ≫= f) ≫= g) h s = (m ≫= λ a, f a ≫= g) h s.
Proof.
  unfold mbind, M_bind. induction (m h s) as [| |h' s' k IH|]; simpl; [done..| |done].
  f_equal. extensionality x. apply IH.
Qed.

Lemma runs_bind (W R : S → Prop) (Q : A → list lockid → S → Prop) (Q' : B → list lockid → S → Prop) m f h s :
  runs W R Q (m h s) → (∀ a h s, Q a h s → runs W R Q' (f a h s)) → runs W R Q' ((m ≫= f) h s).
Proof.
  intros Hm Hf. unfold mbind, M_bind. induction (m h s) as [| |h' s' k IH|]; simpl in *; [by apply Hf|done| |done].
  destruct Hm as [Hw Hm]. split; [done|]. intros s'' HR. by apply IH, Hm.
Qed.

Lemma bind_acquire lk (f : unit → M S B) h s :
  lk ∉ h → (acquire lk ≫= f) h s = f tt (lk :: h) s.
Proof. intros. unfold mbind, M_bind, acquire. by rewrite bool_decide_false. Qed.

Lemma filter_notin (lk : lockid) (h : list lockid) : lk ∉ h → filter (λ l, l ≠ lk) h = h.
Proof.
  induction h as [|l h IH]; intros Hl; [done|]. rewrite filter_cons_True by set_solver.
  f_equal. apply IH. set_solver.
Qed.

Lemma initlock_free lk h (s : S) : lk ∉ h → initlock lk h s = Ok tt h s.
Proof. intros Hl. unfold initlock. by rewrite filter_notin. Qed.

Lemma release_acquired lk h (s : S) :
  lk ∉ h → release lk (lk :: h) s = Ok tt h s.
Proof.
  intros Hl. unfold release. rewrite bool_decide_true by set_solver. f_equal.
  rewrite filter_cons_False by naive_solver. by apply filter_notin.
Qed.

Lemma bind_release lk (f : unit → M S B) h s :
  lk ∉ h → (release lk ≫= f) (lk :: h) s = f tt h s.
Proof. intros. unfold mbind, M_bind. by rewrite release_acquired. Qed.
End MonadLemmas.

(** Step through straight-line code in the goal, locks included. *)
Ltac mstep :=
  repeat first
    [ rewrite bind_assoc | rewrite bind_gets | rewrite bind_modify | rewrite bind_ret
    | rewrite bind_acquire by (assumption || set_solver)
    | rewrite bind_release by (assumption || set_solver)
    | rewrite release_acquired by (assumption || set_solver) ].

(** ** Record fields

    [s <| f := v |>] assigns field [f], [s <| f ::= g |>] applies [g] to it.  A
    record declares its fields once, with an instance of [Eta]. *)

Class Eta (R : Type) := eta : R → R.
Class Field {R T : Type} (proj : R → T) := upd_field : (T → T) → R → R.

Ltac field_update proj :=
  match type of proj with
  | ?R → ?T =>
      let e := constr:(eta : R → R) in
      let e := eval unfold eta in e in
      let e := eval hnf in e in
      let p := eval pattern proj in e in
      match p with ?g proj =>
        let t := constr:(λ f : T → T, g (λ r, f (proj r))) in
        let t := eval cbv beta in t in
        exact t
      end
  end.
#[export] Hint Extern 0 (Field ?proj) => field_update proj : typeclass_instances.

Notation "s <| f ::= g |>" := (upd_field (proj := f) g s)
  (at level 1, left associativity, f constr at level 10, format "s <| f  ::=  g |>").
Notation "s <| f := v |>" := (upd_field (proj := f) (λ _, v) s)
  (at level 1, left associativity, f constr at level 10, format "s <| f  :=  v |>").

(** ** Lists and indices *)

(** Reading an array element: C arrays are lists, [a[i]] with [i] in range. *)
Definition nthZ (l : list Z) (i : Z) : Z := nth (Z.to_nat i) l 0.

Lemma nthZ_lookup l i x : l !! Z.to_nat i = Some x → nthZ l i = x.
Proof. intros. unfold nthZ. by apply nth_lookup_Some. Qed.

Lemma filter_all {A} (P : A → Prop) `{!∀ x, Decision (P x)} (l : list A) :
  Forall P l → filter P l = l.
Proof. induction 1; [done|]. rewrite filter_cons_True by done. by f_equal. Qed.

Lemma alter_alter {A} (f g : A → A) i (l : list A) : alter g i (alter f i l) = alter (λ x, g (f x)) i l.
Proof.
  apply list_eq. intros j. destruct (decide (i = j)) as [<-|]; [|by rewrite !list_lookup_alter_ne].
  rewrite !list_lookup_alter_eq. by destruct (l !! i).
Qed.

Lemma NoDup_perm {A} (l k : list A) : l ≡ₚ k → NoDup l → NoDup k.
Proof. by intros ->. Qed.

Create HintDb xv6.
#[export] Hint Resolve u8_range u32_range u64_range : xv6.
