(* ===== verification/Trace.v ===== *)
(** * Labelled transition systems

    Runs of a system whose steps emit lists of events (no event for an internal step), and
    the simulations that carry the events of one system over to another. *)

From S2P Require Import Prelude.

Section Trace.
Context {S E : Type} (R : S → list E → S → Prop).

(** [trace s l s']: from [s] the system can reach [s'] with the events [l]. *)
Inductive trace : S → list E → S → Prop :=
  | trace_nil s : trace s [] s
  | trace_step s l1 s1 l2 s2 : R s l1 s1 → trace s1 l2 s2 → trace s (l1 ++ l2) s2.

Lemma trace_one s l s' : R s l s' → trace s l s'.
Proof. intros H. rewrite <- (app_nil_r l). eapply trace_step; [exact H|constructor]. Qed.

Lemma trace_app s l1 s1 l2 s2 : trace s l1 s1 → trace s1 l2 s2 → trace s (l1 ++ l2) s2.
Proof.
  induction 1 as [|s l s' l' s'' H _ IH]; intros H2; [done|].
  rewrite <- app_assoc. eapply trace_step; [exact H|]. by apply IH.
Qed.

Lemma trace_snoc s l1 s1 l2 s2 : trace s l1 s1 → R s1 l2 s2 → trace s (l1 ++ l2) s2.
Proof. intros H1 H2. eapply trace_app; [exact H1|]. by apply trace_one. Qed.

(** What every step preserves holds at the end of every trace. *)
Lemma trace_invariant (I : S → Prop) s l s' :
  (∀ s l s', I s → R s l s' → I s') → I s → trace s l s' → I s'.
Proof. intros HI Hs H. induction H as [|s l s1 l' s2 H _ IH]; [done|]. apply IH. by eapply HI. Qed.
End Trace.

#[export] Hint Resolve trace_nil trace_one : core.

(** Forward simulation: the events of the concrete system are events of the abstract one. *)
Lemma forward_simulation {C A E} (RC : C → list E → C → Prop) (RA : A → list E → A → Prop)
    (sim : C → A → Prop) :
  (∀ c a l c', sim c a → RC c l c' → ∃ a', trace RA a l a' ∧ sim c' a') →
  ∀ c l c' a, sim c a → trace RC c l c' → ∃ a', trace RA a l a' ∧ sim c' a'.
Proof.
  intros Hs c l c' a Ha H. revert a Ha. induction H as [c|c l c1 l' c2 H _ IH]; intros a Ha.
  - exists a. auto.
  - destruct (Hs _ _ _ _ Ha H) as (a1 & H1 & Ha1). destruct (IH _ Ha1) as (a2 & H2 & Ha2).
    exists a2. split; [by eapply trace_app|done].
Qed.
