(* ===== verification/CString.v ===== *)
(** * Byte memory and the kernel string routines (kernel/string.c)

    Physical memory is a finite map from addresses to byte values; a missing
    address reads as 0.  [memset] and [memmove] act on memory, because whether
    source and destination overlap matters to them; the character routines
    ([memcmp], [strncmp], [strncpy], [safestrcpy], [strlen]) act on arrays as
    lists, a pointer into an array being the suffix it points to, with an
    implicit NUL behind the last element (string literals). *)

From S2P Require Import Prelude.

Abbreviation mem := (gmap Z Z).

(** ** Loads and stores *)

Definition load8 (m : mem) (a : Z) : Z := u8 (default 0 (m !! a)).
Definition store8 (m : mem) (a v : Z) : mem := <[a := u8 v]> m.

(** Little-endian words of [n] bytes. *)
Fixpoint le_load (m : mem) (a : Z) (n : nat) : Z :=
  match n with
  | O => 0
  | S n => load8 m a + 256 * le_load m (a + 1) n
  end.

Fixpoint le_store (m : mem) (a : Z) (n : nat) (v : Z) : mem :=
  match n with
  | O => m
  | S n => le_store (store8 m a v) (a + 1) n (v / 256)
  end.

Definition load64 (m : mem) (a : Z) : Z := le_load m a 8.
Definition store64 (m : mem) (a v : Z) : mem := le_store m a 8 v.

(** The [n] bytes at [a], and writing a list of bytes at [a]. *)
Fixpoint load_bytes (m : mem) (a : Z) (n : nat) : list Z :=
  match n with
  | O => []
  | S n => load8 m a :: load_bytes m (a + 1) n
  end.

Fixpoint store_bytes (m : mem) (a : Z) (l : list Z) : mem :=
  match l with
  | [] => m
  | c :: l => store_bytes (store8 m a c) (a + 1) l
  end.

Lemma load8_range m a : 0 ≤ load8 m a < 256.
Proof. apply u8_range. Qed.

Lemma load8_store8 m a v b :
  load8 (store8 m a v) b = if decide (a = b) then u8 v else load8 m b.
Proof.
  unfold load8, store8. rewrite lookup_insert.
  case_decide; simpl; [apply u8_idemp|done].
Qed.

Lemma load8_store8_eq m a v : load8 (store8 m a v) a = u8 v.
Proof. by rewrite load8_store8, decide_True. Qed.

Lemma load8_store8_ne m a v b : a ≠ b → load8 (store8 m a v) b = load8 m b.
Proof. intros. by rewrite load8_store8, decide_False. Qed.

Lemma load8_le_store_out n m a v b :
  (b < a ∨ a + Z.of_nat n ≤ b) → load8 (le_store m a n v) b = load8 m b.
Proof.
  revert m a v. induction n as [|n IH]; intros m a v H; simpl; [done|].
  rewrite IH by lia. apply load8_store8_ne. lia.
Qed.

Lemma le_load_ext n m1 m2 a :
  (∀ b, a ≤ b < a + Z.of_nat n → load8 m1 b = load8 m2 b) →
  le_load m1 a n = le_load m2 a n.
Proof.
  revert a. induction n as [|n IH]; intros a H; simpl; [done|].
  rewrite H by lia. rewrite (IH (a + 1)); [done|]. intros. apply H. lia.
Qed.

Lemma le_load_range n m a : 0 ≤ le_load m a n < 2 ^ (8 * Z.of_nat n).
Proof.
  revert a. induction n as [|n IH]; intros a; simpl le_load; [simpl; lia|].
  pose proof (load8_range m a). specialize (IH (a + 1)).
  replace (8 * Z.of_nat (S n)) with (8 + 8 * Z.of_nat n) by lia.
  rewrite Z.pow_add_r by lia. change (2 ^ 8) with 256. nia.
Qed.

Lemma le_load_store n m a v :
  le_load (le_store m a n v) a n = v mod 2 ^ (8 * Z.of_nat n).
Proof.
  revert m a v. induction n as [|n IH]; intros m a v; simpl le_load; simpl le_store.
  { by rewrite Z.mod_1_r. }
  rewrite load8_le_store_out by lia. rewrite load8_store8_eq, IH. unfold u8.
  replace (8 * Z.of_nat (S n)) with (8 + 8 * Z.of_nat n) by lia.
  rewrite Z.pow_add_r by lia. rewrite Z.rem_mul_r by lia.
  change (2 ^ 8) with 256. lia.
Qed.

Lemma load64_range m a : 0 ≤ load64 m a < 2 ^ 64.
Proof. apply (le_load_range 8). Qed.

Lemma load64_store64_eq m a v : load64 (store64 m a v) a = u64 v.
Proof. apply (le_load_store 8). Qed.

Lemma load64_ext m1 m2 a :
  (∀ b, a ≤ b < a + 8 → load8 m1 b = load8 m2 b) → load64 m1 a = load64 m2 a.
Proof. intros. apply le_load_ext. simpl. lia || auto. Qed.

Lemma load8_store64_out m a v b : (b < a ∨ a + 8 ≤ b) → load8 (store64 m a v) b = load8 m b.
Proof. intros. apply load8_le_store_out. lia. Qed.

Lemma load64_store64_ne m a v b :
  (b + 8 ≤ a ∨ a + 8 ≤ b) → load64 (store64 m a v) b = load64 m b.
Proof. intros. apply load64_ext. intros. apply load8_store64_out. lia. Qed.

Lemma le_load_zero n m a :
  (∀ b, a ≤ b < a + Z.of_nat n → load8 m b = 0) → le_load m a n = 0.
Proof.
  revert a. induction n as [|n IH]; intros a H; simpl; [done|].
  rewrite H by lia. rewrite IH; [done|]. intros. apply H. lia.
Qed.

Lemma load64_zero m a : (∀ b, a ≤ b < a + 8 → load8 m b = 0) → load64 m a = 0.
Proof. intros H. apply le_load_zero. exact H. Qed.

Lemma load_bytes_S m a n : load_bytes m a (S n) = load8 m a :: load_bytes m (a + 1) n.
Proof. done. Qed.

Lemma length_load_bytes m a n : length (load_bytes m a n) = n.
Proof. revert a. induction n; intros; simpl; auto. Qed.

Lemma lookup_load_bytes m n a i :
  (i < n)%nat → load_bytes m a n !! i = Some (load8 m (a + Z.of_nat i)).
Proof.
  revert a i. induction n as [|n IH]; intros a i Hi; [lia|].
  destruct i as [|i]; simpl; [do 2 f_equal; lia|].
  rewrite IH by lia. do 2 f_equal. lia.
Qed.

Lemma load_bytes_ext m1 m2 a n :
  (∀ b, a ≤ b < a + Z.of_nat n → load8 m1 b = load8 m2 b) →
  load_bytes m1 a n = load_bytes m2 a n.
Proof.
  revert a. induction n as [|n IH]; intros a H; simpl; [done|].
  f_equal; [apply H; lia|]. apply IH. intros. apply H. lia.
Qed.

Lemma load_bytes_app m a n1 n2 :
  load_bytes m a (n1 + n2) = load_bytes m a n1 ++ load_bytes m (a + Z.of_nat n1) n2.
Proof.
  revert a. induction n1 as [|n IH]; intros a; simpl; [f_equal; lia|].
  f_equal. rewrite IH. do 2 f_equal. lia.
Qed.

Lemma load8_store_bytes m a l b :
  load8 (store_bytes m a l) b =
  if decide (a ≤ b < a + Z.of_nat (length l)) then u8 (nthZ l (b - a)) else load8 m b.
Proof.
  revert m a. induction l as [|c l IH]; intros m a; simpl store_bytes; simpl length.
  { rewrite decide_False by lia. done. }
  rewrite IH, load8_store8. unfold nthZ.
  destruct (decide (a = b)) as [->|].
  { rewrite decide_False, decide_True by lia. by rewrite Z.sub_diag. }
  repeat case_decide; try lia; try done.
  replace (Z.to_nat (b - a)) with (S (Z.to_nat (b - (a + 1)))) by lia. done.
Qed.

Lemma load_store_bytes m a l :
  Forall (λ c, 0 ≤ c < 256) l → load_bytes (store_bytes m a l) a (length l) = l.
Proof.
  intros Hl. apply list_eq_same_length with (length l); [done|apply length_load_bytes|].
  intros i x y Hi Hx Hy. rewrite lookup_load_bytes in Hx by done. injection Hx as <-.
  rewrite load8_store_bytes, decide_True by lia.
  rewrite (nthZ_lookup l _ y) by (by replace (Z.to_nat (a + Z.of_nat i - a)) with i by lia).
  apply u8_small. by eapply (Forall_lookup_1 (λ c, 0 ≤ c < 256)).
Qed.

(** ** memset, memmove, memcpy *)

(** [for(i = 0; i < n; i++) cdst[i] = c;] with [k] iterations left. *)
Fixpoint memset_loop (m : mem) (dst c i : Z) (k : nat) : mem :=
  match k with
  | O => m
  | S k => memset_loop (store8 m (dst + i) c) dst c (i + 1) k
  end.

Definition memset (m : mem) (dst c n : Z) : mem := memset_loop m dst c 0 (Z.to_nat n).

(** [while(n-- > 0) *d++ = *s++;] *)
Fixpoint copy_forward (m : mem) (d s : Z) (n : nat) : mem :=
  match n with
  | O => m
  | S n => copy_forward (store8 m d (load8 m s)) (d + 1) (s + 1) n
  end.

(** [while(n-- > 0) *--d = *--s;] *)
Fixpoint copy_backward (m : mem) (d s : Z) (n : nat) : mem :=
  match n with
  | O => m
  | S n => copy_backward (store8 m (d - 1) (load8 m (s - 1))) (d - 1) (s - 1) n
  end.

Definition memmove (m : mem) (dst src n : Z) : mem :=
  if n =? 0 then m
  else if (src <? dst) && (src + n >? dst)
  then copy_backward m (dst + n) (src + n) (Z.to_nat n)
  else copy_forward m dst src (Z.to_nat n).

Definition memcpy (m : mem) (dst src n : Z) : mem := memmove m dst src n.

Lemma memset_loop_spec k m dst c i b :
  load8 (memset_loop m dst c i k) b =
  if decide (dst + i ≤ b < dst + i + Z.of_nat k) then u8 c else load8 m b.
Proof.
  revert m i. induction k as [|k IH]; intros m i; simpl memset_loop.
  { rewrite decide_False by lia. done. }
  rewrite IH, load8_store8. repeat case_decide; try lia; done.
Qed.

Lemma load8_memset m dst c n b :
  load8 (memset m dst c n) b = if decide (dst ≤ b < dst + n) then u8 c else load8 m b.
Proof.
  unfold memset. rewrite memset_loop_spec. repeat case_decide; try lia; done.
Qed.

Lemma copy_forward_spec n m d s b :
  (d ≤ s ∨ s + Z.of_nat n ≤ d) →
  load8 (copy_forward m d s n) b =
  if decide (d ≤ b < d + Z.of_nat n) then load8 m (s + (b - d)) else load8 m b.
Proof.
  revert m d s. induction n as [|n IH]; intros m d s H; simpl copy_forward.
  { rewrite decide_False by lia. done. }
  rewrite IH by lia. rewrite !load8_store8.
  repeat case_decide; try lia; subst; try (f_equal; lia).
  rewrite u8_small by apply load8_range. f_equal. lia.
Qed.

Lemma copy_backward_spec n m d s b :
  (s ≤ d ∨ d ≤ s - Z.of_nat n) →
  load8 (copy_backward m d s n) b =
  if decide (d - Z.of_nat n ≤ b < d) then load8 m (s + (b - d)) else load8 m b.
Proof.
  revert m d s. induction n as [|n IH]; intros m d s H; simpl copy_backward.
  { rewrite decide_False by lia. done. }
  rewrite IH by lia. rewrite !load8_store8.
  repeat case_decide; try lia; subst; try (f_equal; lia).
  rewrite u8_small by apply load8_range. f_equal. lia.
Qed.

(** [memmove] copies the source as it was before the call, whatever the overlap
    of the two ranges, and touches nothing else. *)
Lemma load8_memmove m dst src n b :
  0 ≤ n →
  load8 (memmove m dst src n) b =
  if decide (dst ≤ b < dst + n) then load8 m (src + (b - dst)) else load8 m b.
Proof.
  intros Hn. unfold memmove.
  destruct (Z.eqb_spec n 0) as [->|]; [by rewrite decide_False by lia|].
  destruct ((src <? dst) && (src + n >? dst)) eqn:E.
  - rewrite copy_backward_spec by lia. rewrite Z2Nat.id by lia.
    repeat case_decide; try lia; try done. f_equal. lia.
  - rewrite copy_forward_spec by lia. rewrite Z2Nat.id by lia. done.
Qed.

Lemma load_bytes_memmove m dst src n :
  load_bytes (memmove m dst src (Z.of_nat n)) dst n = load_bytes m src n.
Proof.
  apply list_eq_same_length with n; [apply length_load_bytes..|].
  intros i x y Hi. rewrite !lookup_load_bytes by done. intros [= <-] [= <-].
  rewrite load8_memmove, decide_True by lia. f_equal. lia.
Qed.

(** ** Character routines *)

(** [*p] *)
Definition deref (p : list Z) : Z := default 0 (head p).

Fixpoint memcmp (s1 s2 : list Z) (n : nat) : Z :=
  match n with
  | O => 0
  | S n => if negb (deref s1 =? deref s2) then deref s1 - deref s2
           else memcmp (tail s1) (tail s2) n
  end.

Fixpoint strncmp (p q : list Z) (n : nat) : Z :=
  match n with
  | O => 0
  | S n => if negb (deref p =? 0) && (deref p =? deref q)
           then strncmp (tail p) (tail q) n
           else u8 (deref p) - u8 (deref q)
  end.

(** [while(n-- > 0) *s++ = 0;] *)
Fixpoint zero_fill (s : list Z) (n : nat) : list Z :=
  match n with
  | O => s
  | S n => 0 :: zero_fill (tail s) n
  end.

(** The array [s] after the call. *)
Fixpoint strncpy (s t : list Z) (n : nat) : list Z :=
  match n with
  | O => s
  | S n => let c := deref t in
           c :: (if c =? 0 then zero_fill (tail s) n else strncpy (tail s) (tail t) n)
  end.

(** [while(--n > 0 && ( *s++ = *t++ ) != 0); *s = 0;] entered with [n = S k]. *)
Fixpoint safestrcpy_loop (s t : list Z) (k : nat) : list Z :=
  match k with
  | O => 0 :: tail s
  | S k => let c := deref t in
           c :: (if c =? 0 then 0 :: tail (tail s) else safestrcpy_loop (tail s) (tail t) k)
  end.

Definition safestrcpy (s t : list Z) (n : Z) : list Z :=
  if n <=? 0 then s else safestrcpy_loop s t (Z.to_nat n - 1).

Fixpoint strlen (s : list Z) : Z :=
  match s with
  | [] => 0
  | c :: s => if c =? 0 then 0 else 1 + strlen s
  end.

(** A C string literal. *)
Definition lit (s : string) : list Z := (λ c, Z.of_nat (Ascii.nat_of_ascii c)) <$> String.list_ascii_of_string s.

(** ** What the character routines compute *)

(** The string an array holds: the bytes before the first NUL. *)
Fixpoint cstring (s : list Z) : list Z :=
  match s with
  | [] => []
  | c :: s => if c =? 0 then [] else c :: cstring s
  end.

Abbreviation bytes l := (Forall (λ c : Z, 0 ≤ c < 256) l).

Lemma strlen_cstring s : strlen s = Z.of_nat (length (cstring s)).
Proof. induction s as [|c s IH]; simpl; [done|]. case_match; simpl; lia. Qed.

Lemma cstring_nonzero s : Forall (λ c, c ≠ 0) (cstring s).
Proof.
  induction s as [|c s IH]; simpl; [constructor|].
  destruct (Z.eqb_spec c 0); by constructor.
Qed.

Lemma cstring_id s : Forall (λ c, c ≠ 0) s → cstring s = s.
Proof.
  induction 1 as [|c s Hc Hs IH]; simpl; [done|].
  destruct (Z.eqb_spec c 0); [done|]. by f_equal.
Qed.

Lemma bytes_tail s : bytes s → bytes (tail s).
Proof. destruct 1; simpl; auto. Qed.

Lemma bytes_deref s : bytes s → 0 ≤ deref s < 256.
Proof. destruct 1; unfold deref; simpl; lia. Qed.

Lemma cstring_take_S s n :
  cstring (take (S n) s) =
  if deref s =? 0 then [] else deref s :: cstring (take n (tail s)).
Proof. by destruct s. Qed.

Lemma strncmp_0_iff n p q :
  bytes p → bytes q →
  strncmp p q n = 0 ↔ cstring (take n p) = cstring (take n q).
Proof.
  revert p q. induction n as [|n IH]; intros p q Hp Hq; [done|].
  simpl strncmp. rewrite !cstring_take_S.
  pose proof (bytes_deref p Hp). pose proof (bytes_deref q Hq).
  rewrite !u8_small by done.
  destruct (Z.eqb_spec (deref p) 0), (Z.eqb_spec (deref q) 0),
    (Z.eqb_spec (deref p) (deref q)) as [E|E]; simpl; try lia.
  - split; [done|lia].
  - split; [lia|done].
  - split; [lia|done].
  - rewrite IH by eauto using bytes_tail. rewrite E. split; [by intros ->|congruence].
  - split; [lia|congruence].
Qed.

Lemma memcmp_0_iff n s1 s2 :
  (n ≤ length s1)%nat → (n ≤ length s2)%nat →
  memcmp s1 s2 n = 0 ↔ take n s1 = take n s2.
Proof.
  revert s1 s2. induction n as [|n IH]; intros s1 s2 H1 H2; [done|].
  destruct s1 as [|a s1], s2 as [|b s2]; simpl in *; try lia.
  unfold deref; simpl. destruct (Z.eqb_spec a b) as [->|]; simpl.
  - rewrite IH by lia. split; [by intros ->|congruence].
  - split; [lia|congruence].
Qed.

Lemma strncpy_spec n s t :
  cstring (take n (strncpy s t n)) = cstring (take n t).
Proof.
  revert s t. induction n as [|n IH]; intros s t; [done|].
  rewrite (cstring_take_S t). simpl.
  destruct (Z.eqb_spec (deref t) 0); [done|]. by rewrite IH.
Qed.

Lemma bytes_zero_fill n s : bytes s → bytes (zero_fill s n).
Proof.
  revert s. induction n as [|n IH]; intros s Hs; simpl; [done|].
  constructor; [lia|]. apply IH. by apply bytes_tail.
Qed.

Lemma bytes_strncpy n s t : bytes s → bytes t → bytes (strncpy s t n).
Proof.
  revert s t. induction n as [|n IH]; intros s t Hs Ht; simpl; [done|].
  constructor; [by apply bytes_deref|].
  case_match; [apply bytes_zero_fill|apply IH]; eauto using bytes_tail.
Qed.

Lemma length_zero_fill n s : (n ≤ length s)%nat → length (zero_fill s n) = length s.
Proof.
  revert s. induction n as [|n IH]; intros [|c s] H; simpl in *; try lia; [done..|].
  rewrite IH; lia.
Qed.

Lemma length_strncpy n s t : (n ≤ length s)%nat → length (strncpy s t n) = length s.
Proof.
  revert s t. induction n as [|n IH]; intros [|c s] t H; simpl in *; try lia; [done..|].
  case_match; [rewrite length_zero_fill|rewrite IH]; lia.
Qed.

Lemma length_safestrcpy_loop k s t :
  (k < length s)%nat → length (safestrcpy_loop s t k) = length s.
Proof.
  revert s t. induction k as [|k IH]; intros [|c s] t H; simpl in *; try lia.
  case_match; simpl; [destruct s; simpl in *; lia|]. rewrite IH; lia.
Qed.

Lemma cstring_safestrcpy_loop k s t :
  cstring (safestrcpy_loop s t k) = cstring (take k t).
Proof.
  revert s t. induction k as [|k IH]; intros s t; [done|].
  rewrite cstring_take_S. simpl. destruct (Z.eqb_spec (deref t) 0); [done|].
  by rewrite IH.
Qed.

(** [safestrcpy] keeps the destination's size, NUL-terminates it within [n]
    bytes and stores the source truncated to [n - 1] characters. *)
Lemma safestrcpy_spec n s t :
  0 < n ≤ Z.of_nat (length s) →
  length (safestrcpy s t n) = length s ∧
  cstring (safestrcpy s t n) = cstring (take (Z.to_nat n - 1) t) ∧
  strlen (safestrcpy s t n) < n.
Proof.
  intros Hn. unfold safestrcpy. rewrite (proj2 (Z.leb_gt n 0)) by lia.
  rewrite length_safestrcpy_loop, strlen_cstring, cstring_safestrcpy_loop by lia.
  split_and!; [done..|].
  assert (∀ l, (length (cstring l) ≤ length l)%nat) as Hc.
  { induction l as [|c l IH]; simpl; [lia|]. case_match; simpl; lia. }
  specialize (Hc (take (Z.to_nat n - 1) t)). rewrite length_take in Hc. lia.
Qed.

(** ** Properties *)

(** C27: [memmove] leaves in the destination the bytes the source had before the
    call, whatever the overlap of the two ranges, and changes no other byte. *)
Theorem memmove_correct m dst src n b :
  0 ≤ n →
  load8 (memmove m dst src n) b =
  if decide (dst ≤ b < dst + n) then load8 m (src + (b - dst)) else load8 m b.
Proof. apply load8_memmove. Qed.

Lemma memmove_correct_witness :
  let m := store_bytes ∅ 100 [1; 2; 3; 4; 5] in
  load_bytes (memmove m 102 100 3) 100 5 = [1; 2; 1; 2; 3] ∧
  load8 (memmove m 102 100 3) 104 =
  if decide (102 ≤ 104 < 102 + 3) then load8 m (100 + (104 - 102)) else load8 m 104.
Proof. split; [vm_compute; done|]. apply (memmove_correct _ 102 100 3 104). lia. Defined.

(** A name stored with [strncpy(dst, name, n)] compares equal under
    [strncmp(..., n)] to exactly the strings that agree with it up to [n]
    characters or the terminating NUL. *)
Theorem strncpy_strncmp_roundtrip n s t q :
  bytes s → bytes t → bytes q →
  strncmp q (strncpy s t n) n = 0 ↔ cstring (take n q) = cstring (take n t).
Proof.
  intros Hs Ht Hq. rewrite strncmp_0_iff; [by rewrite strncpy_spec|done|].
  by apply bytes_strncpy.
Qed.

Lemma strncpy_strncmp_roundtrip_witness :
  strncmp [97; 98; 0; 9] (strncpy [7; 7; 7] [97; 98; 0] 3) 3 = 0 ∧
  (strncmp [97; 0; 0] (strncpy [7; 7; 7] [97; 98; 0] 3) 3 = 0 ↔
   cstring (take 3 [97; 0; 0]) = cstring (take 3 [97; 98; 0])).
Proof.
  split; [done|]. apply (strncpy_strncmp_roundtrip 3); repeat constructor; lia.
Defined.

#[global] Opaque load8 store8 load64 store64 memset memmove load_bytes store_bytes.
