(* ===== verification/Riscv.v ===== *)
(** * The RISC-V view of memory: kernel/riscv.h, kernel/memlayout.h, kernel/param.h

    The page-size, PTE and virtual-address macros at their C widths, with the
    arithmetic reading of the bit operations that the page-table proofs use. *)

From S2P Require Import Prelude.

(** ** kernel/param.h *)

Definition NPROC : Z := 64.
Definition NCPU : Z := 8.
Definition NOFILE : Z := 16.
Definition NFILE : Z := 100.
Definition NINODE : Z := 50.
Definition NDEV : Z := 10.
Definition ROOTDEV : Z := 1.
Definition MAXARG : Z := 32.
Definition MAXOPBLOCKS : Z := 10.
Definition LOGSIZE : Z := MAXOPBLOCKS * 3.
Definition NBUF : Z := MAXOPBLOCKS * 3.
Definition FSSIZE : Z := 2000.
Definition MAXPATH : Z := 128.

(** ** kernel/riscv.h: pages, PTEs, virtual addresses *)

Definition PGSIZE : Z := 4096.
Definition PGSHIFT : Z := 12.

Definition PGROUNDUP (sz : Z) : Z := Z.land (u64 (sz + PGSIZE - 1)) (Z.lnot (PGSIZE - 1)).
Definition PGROUNDDOWN (a : Z) : Z := Z.land a (Z.lnot (PGSIZE - 1)).

Definition PTE_V : Z := Z.shiftl 1 0.
Definition PTE_R : Z := Z.shiftl 1 1.
Definition PTE_W : Z := Z.shiftl 1 2.
Definition PTE_X : Z := Z.shiftl 1 3.
Definition PTE_U : Z := Z.shiftl 1 4.

Definition PA2PTE (pa : Z) : Z := u64 (Z.shiftl (Z.shiftr pa 12) 10).
Definition PTE2PA (pte : Z) : Z := u64 (Z.shiftl (Z.shiftr pte 10) 12).
Definition PTE_FLAGS (pte : Z) : Z := Z.land pte 0x3FF.

Definition PXMASK : Z := 0x1FF.
Definition PXSHIFT (level : Z) : Z := PGSHIFT + 9 * level.
Definition PX (level va : Z) : Z := Z.land (Z.shiftr va (PXSHIFT level)) PXMASK.

Definition MAXVA : Z := Z.shiftl 1 (9 + 9 + 9 + 12 - 1).

(** [MAKE_SATP(pagetable)] *)
Definition SATP_SV39 : Z := Z.shiftl 8 60.
Definition MAKE_SATP (pagetable : Z) : Z := Z.lor SATP_SV39 (Z.shiftr pagetable 12).

(** ** kernel/memlayout.h *)

Definition UART0 : Z := 0x10000000.
Definition UART0_IRQ : Z := 10.
Definition VIRTIO0 : Z := 0x10001000.
Definition VIRTIO0_IRQ : Z := 1.
Definition PLIC : Z := 0x0c000000.
Definition KERNBASE : Z := 0x80000000.
Definition PHYSTOP : Z := KERNBASE + 128 * 1024 * 1024.
Definition TRAMPOLINE : Z := MAXVA - PGSIZE.
Definition KSTACK (p : Z) : Z := TRAMPOLINE - (p + 1) * 2 * PGSIZE.
Definition TRAPFRAME : Z := TRAMPOLINE - PGSIZE.

(** [if(x & flag)] *)
Definition has (x flag : Z) : bool := negb (Z.land x flag =? 0).

(** ** Arithmetic of the macros *)

Lemma lor_low k n f :
  0 ≤ n → 0 ≤ f < 2 ^ n → Z.lor (k * 2 ^ n) f = k * 2 ^ n + f.
Proof.
  intros Hn Hf. symmetry. apply Z.add_nocarry_lor, Z.bits_inj'. intros i Hi.
  rewrite Z.land_spec, Z.testbit_0_l. destruct (Z.lt_ge_cases i n).
  - by rewrite Z.mul_pow2_bits_low.
  - rewrite <- (Z.mod_small f (2 ^ n)) by done.
    rewrite Z.mod_pow2_bits_high by lia. apply andb_false_r.
Qed.

Lemma land_lnot_ones x n : 0 ≤ n → Z.land x (Z.lnot (Z.ones n)) = x / 2 ^ n * 2 ^ n.
Proof.
  intros. rewrite <- Z.ldiff_land, Z.ldiff_ones_r by done.
  by rewrite Z.shiftl_mul_pow2, Z.shiftr_div_pow2.
Qed.

Lemma PGROUNDDOWN_eq a : PGROUNDDOWN a = a / 4096 * 4096.
Proof. apply (land_lnot_ones a 12). lia. Qed.

Lemma PGROUNDUP_eq sz : PGROUNDUP sz = u64 (sz + 4095) / 4096 * 4096.
Proof.
  unfold PGROUNDUP, PGSIZE. replace (sz + 4096 - 1) with (sz + 4095) by lia.
  apply (land_lnot_ones _ 12). lia.
Qed.

Lemma PGROUNDUP_small sz :
  0 ≤ sz ≤ 2 ^ 64 - 4096 → PGROUNDUP sz = (sz + 4095) / 4096 * 4096.
Proof. intros. rewrite PGROUNDUP_eq, u64_small; lia. Qed.

Lemma has_bit x i : 0 ≤ i → has x (Z.shiftl 1 i) = Z.testbit x i.
Proof.
  intros Hi. unfold has. rewrite Z.shiftl_1_l.
  assert (Z.land x (2 ^ i) = Z.b2z (Z.testbit x i) * 2 ^ i) as ->.
  { apply Z.bits_inj'. intros j Hj. rewrite Z.land_spec, Z.pow2_bits_eqb by done.
    destruct (Z.eqb_spec i j) as [->|Hne].
    - rewrite andb_true_r. destruct (Z.testbit x j); [|by rewrite Z.testbit_0_l].
      change (Z.b2z true) with 1. by rewrite Z.mul_1_l, Z.pow2_bits_true.
    - rewrite andb_false_r. destruct (Z.testbit x i); [|by rewrite Z.testbit_0_l].
      change (Z.b2z true) with 1. by rewrite Z.mul_1_l, Z.pow2_bits_false. }
  destruct (Z.testbit x i); [|done]. change (Z.b2z true) with 1.
  pose proof (Z.pow_pos_nonneg 2 i). destruct (Z.eqb_spec (1 * 2 ^ i) 0); [lia|done].
Qed.

(** Physical page addresses a PTE can hold: page aligned, 56 bits. *)
Definition page_addr (pa : Z) : Prop := pa mod 4096 = 0 ∧ 0 < pa < 2 ^ 56.

Lemma PA2PTE_eq pa : 0 ≤ pa < 2 ^ 64 → PA2PTE pa = pa / 4096 * 1024.
Proof.
  intros. unfold PA2PTE. rewrite Z.shiftl_mul_pow2, Z.shiftr_div_pow2 by lia.
  change (2 ^ 12) with 4096. change (2 ^ 10) with 1024. apply u64_small.
  change (2 ^ 64) with 18446744073709551616 in *.
  pose proof (Z.div_pos pa 4096). pose proof (Z.mul_div_le pa 4096). lia.
Qed.

(** The PTE [mappages] builds, as arithmetic. *)
Lemma make_pte_eq pa f :
  page_addr pa → 0 ≤ f < 1024 → Z.lor (PA2PTE pa) f = pa / 4096 * 1024 + f.
Proof.
  intros [Ha Hr] Hf. rewrite PA2PTE_eq by lia. by apply (lor_low _ 10).
Qed.

Lemma PTE2PA_make pa f :
  page_addr pa → 0 ≤ f < 1024 → PTE2PA (Z.lor (PA2PTE pa) f) = pa.
Proof.
  intros Hp Hf. rewrite make_pte_eq by done. destruct Hp as [Ha Hr].
  unfold PTE2PA. rewrite Z.shiftl_mul_pow2, Z.shiftr_div_pow2 by lia.
  change (2 ^ 12) with 4096. change (2 ^ 10) with 1024.
  rewrite Z.add_comm, Z.div_add by lia. rewrite (Z.div_small f) by lia.
  rewrite u64_small; [|change (2 ^ 64) with 18446744073709551616 in *;
    change (2 ^ 56) with 72057594037927936 in *];
  pose proof (Z.div_mod pa 4096); lia.
Qed.

Lemma PTE_FLAGS_make pa f :
  page_addr pa → 0 ≤ f < 1024 → PTE_FLAGS (Z.lor (PA2PTE pa) f) = f.
Proof.
  intros Hp Hf. rewrite make_pte_eq by done. unfold PTE_FLAGS.
  change 1023 with (Z.ones 10). rewrite Z.land_ones by lia. change (2 ^ 10) with 1024.
  rewrite Z.add_comm, Z.mod_add by lia. by apply Z.mod_small.
Qed.

Lemma make_pte_range pa f :
  page_addr pa → 0 ≤ f < 1024 → 0 ≤ Z.lor (PA2PTE pa) f < 2 ^ 64.
Proof.
  intros Hp Hf. rewrite make_pte_eq by done. destruct Hp as [Ha Hr].
  change (2 ^ 64) with 18446744073709551616 in *.
  change (2 ^ 56) with 72057594037927936 in *.
  pose proof (Z.div_mod pa 4096). lia.
Qed.

(** The low ten bits of the PTE are the flags it was built with. *)
Lemma has_make_pte pa f i :
  page_addr pa → 0 ≤ f < 1024 → 0 ≤ i < 10 →
  has (Z.lor (PA2PTE pa) f) (Z.shiftl 1 i) = Z.testbit f i.
Proof.
  intros Hp Hf Hi. rewrite has_bit by lia.
  rewrite <- (PTE_FLAGS_make pa f) at 2 by done. unfold PTE_FLAGS.
  change 1023 with (Z.ones 10). by rewrite Z.land_spec, Z.ones_spec_low, andb_true_r by lia.
Qed.

(** ** Virtual addresses *)

Lemma PX_eq level va :
  0 ≤ level → PX level va = va / 2 ^ (12 + 9 * level) mod 512.
Proof.
  intros. unfold PX, PXSHIFT, PGSHIFT, PXMASK. rewrite Z.shiftr_div_pow2 by lia.
  change 0x1FF with (Z.ones 9). rewrite Z.land_ones by lia. done.
Qed.

Lemma PX_range level va : 0 ≤ level → 0 ≤ PX level va < 512.
Proof. intros. rewrite PX_eq by done. apply Z.mod_pos_bound. lia. Qed.

(** The three page-table indices determine the page a Sv39 address is in. *)
Lemma PX_page va :
  0 ≤ va < 2 ^ 39 →
  va / 4096 = PX 2 va * 262144 + PX 1 va * 512 + PX 0 va.
Proof.
  intros Hva. rewrite !PX_eq by lia.
  change (2 ^ (12 + 9 * 2)) with (4096 * 512 * 512).
  change (2 ^ (12 + 9 * 1)) with (4096 * 512). change (2 ^ (12 + 9 * 0)) with 4096.
  change (2 ^ 39) with 549755813888 in *.
  rewrite <- !Z.div_div by lia.
  set (p := va / 4096). assert (0 ≤ p < 134217728) as Hp.
  { unfold p. split; [apply Z.div_pos; lia|]. apply Z.div_lt_upper_bound; lia. }
  clearbody p. rewrite (Z.mod_small (p / 512 / 512)).
  - pose proof (Z.div_mod p 512). pose proof (Z.div_mod (p / 512) 512). lia.
  - split; [apply Z.div_pos; [apply Z.div_pos|]; lia|].
    apply Z.div_lt_upper_bound; [lia|]. apply Z.div_lt_upper_bound; lia.
Qed.
