(* ===== verification/Kalloc.v ===== *)
(** * The physical page allocator (kernel/kalloc.c)

    State: physical memory and [kmem.freelist].  The list is threaded through
    the free pages themselves ([struct run] at the start of each page), so it is
    read from and written to memory.  [end] is the linker's symbol for the first
    address after the kernel; it is a constant of the state. *)

From S2P Require Import Prelude CString Riscv.

Record machine : Type := Machine {
  m_end : Z;             (* end[], kernel.ld *)
  m_mem : mem;
  m_freelist : Z;        (* kmem.freelist *)
}.

Definition set_mem (m : mem) (s : machine) : machine :=
  Machine (m_end s) m (m_freelist s).
Definition upd_mem (f : mem → mem) (s : machine) : machine := set_mem (f (m_mem s)) s.
Definition set_freelist (r : Z) (s : machine) : machine :=
  Machine (m_end s) (m_mem s) r.

Abbreviation K := (M machine).

(** ** Operations *)

Definition kfree (pa : Z) : K unit :=
  e ← gets m_end;
  if negb (pa mod PGSIZE =? 0) || (pa <? e) || (pa >=? PHYSTOP) then panic "kfree" else
  modify (upd_mem (λ m, memset m pa 1 PGSIZE));;
  acquire L_kmem;;
  next ← gets m_freelist;
  modify (upd_mem (λ m, store64 m pa next));;
  modify (set_freelist pa);;
  release L_kmem.

Definition kalloc : K Z :=
  acquire L_kmem;;
  r ← gets m_freelist;
  when (negb (r =? 0))
    (next ← gets (λ s, load64 (m_mem s) r); modify (set_freelist next));;
  release L_kmem;;
  when (negb (r =? 0)) (modify (upd_mem (λ m, memset m r 5 PGSIZE)));;
  mret r.

(** [for(; p + PGSIZE <= pa_end; p += PGSIZE) kfree(p);] *)
Fixpoint freerange_loop (fuel : nat) (p pa_end : Z) : K unit :=
  if p + PGSIZE <=? pa_end then
    match fuel with
    | O => nofuel
    | S fuel => kfree p;; freerange_loop fuel (p + PGSIZE) pa_end
    end
  else mret tt.

Definition freerange (pa_start pa_end : Z) : K unit :=
  let p := PGROUNDUP pa_start in
  freerange_loop (Z.to_nat ((pa_end - p) / PGSIZE)) p pa_end.

Definition kinit : K unit :=
  initlock L_kmem;;
  e ← gets m_end;
  freerange e PHYSTOP.

(** ** Pages and frames *)

Definition in_page (p a : Z) : Prop := p ≤ a < p + PGSIZE.

(** A page the allocator manages. *)
Definition ram_page (s : machine) (p : Z) : Prop :=
  p mod PGSIZE = 0 ∧ m_end s ≤ p < PHYSTOP ∧ 0 < p.

(** [m2] agrees with [m1] on every byte that is not in [P]. *)
Definition frame (P : Z → Prop) (m1 m2 : mem) : Prop :=
  ∀ a, ¬ P a → load8 m2 a = load8 m1 a.

Lemma frame_refl P m : frame P m m.
Proof. done. Qed.

Lemma frame_trans P m1 m2 m3 : frame P m1 m2 → frame P m2 m3 → frame P m1 m3.
Proof. intros H1 H2 a Ha. rewrite H2 by done. by apply H1. Qed.

Lemma frame_mono (P Q : Z → Prop) m1 m2 :
  frame P m1 m2 → (∀ a, P a → Q a) → frame Q m1 m2.
Proof. intros H HPQ a Ha. apply H. naive_solver. Qed.

Lemma frame_load64 P m1 m2 a :
  frame P m1 m2 → (∀ b, a ≤ b < a + 8 → ¬ P b) → load64 m2 a = load64 m1 a.
Proof. intros H HP. apply load64_ext. intros b Hb. by apply H, HP. Qed.

Lemma in_page_disjoint p q a :
  p mod PGSIZE = 0 → q mod PGSIZE = 0 → p ≠ q → in_page p a → ¬ in_page q a.
Proof.
  unfold in_page, PGSIZE. intros Hp Hq Hne Ha Hb. apply Hne.
  pose proof (Z.div_mod p 4096). pose proof (Z.div_mod q 4096). lia.
Qed.

Lemma frame_store64_page m p i v :
  0 ≤ i < 512 → frame (in_page p) m (store64 m (p + 8 * i) v).
Proof.
  intros Hi a Ha. apply load8_store64_out. unfold in_page, PGSIZE in Ha. lia.
Qed.

Lemma frame_memset_page m p c : frame (in_page p) m (memset m p c PGSIZE).
Proof.
  intros a Ha. rewrite load8_memset. case_decide; [|done]. unfold in_page in Ha. lia.
Qed.

#[export] Hint Resolve frame_refl frame_memset_page : xv6.

(** ** The free list *)

(** [L] is the list of pages linked from [r] through memory. *)
Fixpoint chain (m : mem) (r : Z) (L : list Z) : Prop :=
  match L with
  | [] => r = 0
  | p :: L => r = p ∧ p ≠ 0 ∧ chain m (load64 m p) L
  end.

(** The allocator's invariant: the free list is a chain of distinct managed
    pages, listed by [L]. *)
Definition free_inv (s : machine) (L : list Z) : Prop :=
  chain (m_mem s) (m_freelist s) L ∧ NoDup L ∧ Forall (ram_page s) L.

Lemma chain_frame P m1 m2 r L :
  frame P m1 m2 → (∀ p a, p ∈ L → in_page p a → ¬ P a) → chain m1 r L → chain m2 r L.
Proof.
  intros HF. revert r. induction L as [|p L IH]; intros r HL HC; simpl in *; [done|].
  destruct HC as (-> & Hp & HC). split_and!; [done..|].
  rewrite (frame_load64 P m1 m2); [|done|].
  - apply IH; [set_solver|done].
  - intros b Hb. apply (HL p); [set_solver|]. unfold in_page, PGSIZE. lia.
Qed.

Lemma ram_page_disjoint s p q a :
  ram_page s p → ram_page s q → p ≠ q → in_page p a → ¬ in_page q a.
Proof. intros [Hp _] [Hq _]. by apply in_page_disjoint. Qed.

(** Writing outside the free pages keeps the invariant. *)
Lemma free_inv_frame P s m2 L :
  frame P (m_mem s) m2 → (∀ p a, p ∈ L → in_page p a → ¬ P a) →
  free_inv s L → free_inv (set_mem m2 s) L.
Proof.
  intros HF HL (HC & HN & HR). split_and!; [|done..]. simpl. by eapply chain_frame.
Qed.

(** A machine step that leaves [end] alone and frames memory. *)
Definition steps_in (P : Z → Prop) (s s' : machine) : Prop :=
  m_end s' = m_end s ∧ frame P (m_mem s) (m_mem s').

Lemma steps_in_trans P s1 s2 s3 : steps_in P s1 s2 → steps_in P s2 s3 → steps_in P s1 s3.
Proof. intros [? ?] [? ?]. split; [congruence|by eapply frame_trans]. Qed.

Lemma steps_in_mono (P Q : Z → Prop) s1 s2 :
  steps_in P s1 s2 → (∀ a, P a → Q a) → steps_in Q s1 s2.
Proof. intros [? ?] ?. split; [done|by eapply frame_mono]. Qed.

Lemma steps_in_refl P s : steps_in P s s.
Proof. split; [done|apply frame_refl]. Qed.

Lemma steps_in_upd P s f : frame P (m_mem s) (f (m_mem s)) → steps_in P s (upd_mem f s).
Proof. by split. Qed.

Lemma kalloc_empty h s :
  L_kmem ∉ h → free_inv s [] → kalloc h s = Ok 0 h s.
Proof.
  intros Hh (HC & _). simpl in HC. unfold kalloc. mstep. rewrite HC. simpl.
  unfold when; simpl. mstep. done.
Qed.

Definition kalloc_post (s : machine) (p : Z) : machine :=
  Machine (m_end s) (memset (m_mem s) p 5 PGSIZE) (load64 (m_mem s) p).

Lemma kalloc_run h s p L :
  L_kmem ∉ h → free_inv s (p :: L) → kalloc h s = Ok p h (kalloc_post s p).
Proof.
  intros Hh ((Hr & Hp & _) & _). unfold kalloc. mstep. rewrite Hr.
  destruct (Z.eqb_spec p 0); [done|]. unfold when; simpl.
  mstep. done.
Qed.

Lemma kalloc_post_inv s p L :
  free_inv s (p :: L) →
  free_inv (kalloc_post s p) L ∧ steps_in (in_page p) s (kalloc_post s p).
Proof.
  intros ((Hr & Hp & HC) & HN & HR). apply NoDup_cons in HN as [Hin HN].
  apply Forall_cons in HR as [Hpp HR].
  assert (frame (in_page p) (m_mem s) (memset (m_mem s) p 5 PGSIZE)) as HF by auto with xv6.
  split; [|split; [done|exact HF]]. split_and!; [|done|by eapply Forall_impl].
  simpl. eapply chain_frame; [exact HF| |done].
  intros q a Hq. rewrite Forall_forall in HR.
  apply (ram_page_disjoint s); [|done|set_solver]. apply HR. set_solver.
Qed.

Definition kfree_post (s : machine) (p : Z) : machine :=
  Machine (m_end s) (store64 (memset (m_mem s) p 1 PGSIZE) p (m_freelist s)) p.

Lemma kfree_run h s p :
  L_kmem ∉ h → ram_page s p → kfree p h s = Ok tt h (kfree_post s p).
Proof.
  intros Hh (Ha & Hb & Hc). unfold kfree. mstep.
  rewrite Ha, (proj2 (Z.ltb_ge _ _)) by lia. rewrite Z.geb_leb, (proj2 (Z.leb_gt _ _)) by lia.
  simpl. mstep. done.
Qed.

Lemma kfree_post_inv s p L :
  free_inv s L → ram_page s p → p ∉ L →
  free_inv (kfree_post s p) (p :: L) ∧ steps_in (in_page p) s (kfree_post s p).
Proof.
  intros (HC & HN & HR) Hp Hin.
  assert (frame (in_page p) (m_mem s) (m_mem (kfree_post s p))) as HF.
  { eapply frame_trans; [apply frame_memset_page|].
    pose proof (frame_store64_page (memset (m_mem s) p 1 PGSIZE) p 0 (m_freelist s)) as H.
    rewrite Z.mul_0_r, Z.add_0_r in H. apply H. lia. }
  split; [|by split]. split_and!.
  - simpl. split_and!; [done|by destruct Hp; lia|].
    rewrite load64_store64_eq, u64_small.
    + eapply chain_frame; [exact HF| |done]. intros q a Hq.
      rewrite Forall_forall in HR. apply (ram_page_disjoint s); [|done|set_solver].
      apply HR. set_solver.
    + destruct L as [|q L]; simpl in HC; [lia|]. destruct HC as (-> & _).
      apply Forall_cons in HR as [(_ & ? & ?) _]. unfold PHYSTOP, KERNBASE in *. lia.
  - by constructor.
  - constructor; [done|]. by eapply Forall_impl.
Qed.

(** [kfree] refuses any address that is not a page the allocator manages. *)
Lemma kfree_rejects h s p :
  0 < m_end s → ¬ ram_page s p → kfree p h s = Panic "kfree".
Proof.
  intros He Hp. unfold kfree. mstep.
  destruct (Z.eqb_spec (p mod PGSIZE) 0); [|done].
  destruct (Z.ltb_spec p (m_end s)); [done|].
  rewrite Z.geb_leb. destruct (Z.leb_spec PHYSTOP p); [done|].
  destruct Hp. unfold ram_page. lia.
Qed.

(** ** Booting the allocator *)

Fixpoint pages_from (p : Z) (k : nat) : list Z :=
  match k with
  | O => []
  | S k => p :: pages_from (p + PGSIZE) k
  end.

Lemma elem_of_pages_from q p k :
  p mod PGSIZE = 0 →
  q ∈ pages_from p k ↔ q mod PGSIZE = 0 ∧ p ≤ q ∧ q < p + PGSIZE * Z.of_nat k.
Proof.
  unfold PGSIZE. revert p. induction k as [|k IH]; intros p Hp; simpl pages_from.
  { split; [set_solver|lia]. }
  rewrite elem_of_cons, IH; unfold PGSIZE.
  - split; [intros [->|]; lia|]. intros (Hq & H1 & H2).
    destruct (decide (q = p)); [auto|right]. split_and!; [done| |lia].
    pose proof (Z.div_mod p 4096). pose proof (Z.div_mod q 4096). lia.
  - unfold PGSIZE. rewrite Z.add_mod, Hp by lia. done.
Qed.

Lemma freerange_loop_spec h k p pa_end s L :
  L_kmem ∉ h → free_inv s L → p mod PGSIZE = 0 → m_end s ≤ p → 0 < p →
  p + PGSIZE * Z.of_nat k ≤ pa_end < p + PGSIZE * Z.of_nat k + PGSIZE →
  pa_end ≤ PHYSTOP → Forall (λ q, q < p) L →
  ∃ s', freerange_loop k p pa_end h s = Ok tt h s' ∧
        free_inv s' (reverse (pages_from p k) ++ L) ∧ m_end s' = m_end s.
Proof.
  intros Hh. revert p s L.
  induction k as [|k IH]; intros p s L Hinv Hp He H0 Hk HP HL;
    simpl freerange_loop; simpl pages_from.
  { rewrite (proj2 (Z.leb_gt _ _)) by lia. by exists s. }
  rewrite (proj2 (Z.leb_le _ _)) by (unfold PGSIZE in *; lia).
  assert (ram_page s p) as Hram by (unfold ram_page, PGSIZE in *; lia).
  assert (p ∉ L) as Hin by (intros Hi; rewrite Forall_forall in HL; specialize (HL p Hi); lia).
  destruct (kfree_post_inv s p L Hinv Hram Hin) as [Hinv' [He' _]].
  erewrite bind_Ok by by apply kfree_run.
  destruct (IH (p + PGSIZE) (kfree_post s p) (p :: L)) as (s' & Hrun & Hinv2 & He2).
  - done.
  - unfold PGSIZE in *. rewrite Z.add_mod, Hp by lia. done.
  - unfold PGSIZE. lia.
  - unfold PGSIZE. lia.
  - lia.
  - done.
  - constructor; [unfold PGSIZE; lia|]. eapply Forall_impl; [done|].
    unfold PGSIZE. simpl. lia.
  - exists s'. split_and!; [done| |congruence]. by rewrite reverse_cons, <- app_assoc.
Qed.

(** After [kinit] the free list holds exactly the whole pages between [end] and
    [PHYSTOP], each once. *)
Lemma kinit_spec h s :
  L_kmem ∉ h → 0 < m_end s ≤ PHYSTOP → m_freelist s = 0 →
  ∃ s' L, kinit h s = Ok tt h s' ∧ free_inv s' L ∧ m_end s' = m_end s ∧
    ∀ p, p ∈ L ↔ p mod PGSIZE = 0 ∧ m_end s ≤ p ∧ p + PGSIZE ≤ PHYSTOP.
Proof.
  intros Hh He Hf. unfold kinit. erewrite bind_Ok by by apply initlock_free.
  mstep. unfold freerange.
  set (p := PGROUNDUP (m_end s)). set (k := Z.to_nat ((PHYSTOP - p) / PGSIZE)).
  assert (p = (m_end s + 4095) / 4096 * 4096) as Hp.
  { apply PGROUNDUP_small. unfold PHYSTOP, KERNBASE in He. lia. }
  clearbody p. unfold PHYSTOP, KERNBASE in *.
  assert (m_end s ≤ p < m_end s + 4096 ∧ p mod 4096 = 0) as (Hp1 & Hp2).
  { pose proof (Z.div_mod (m_end s + 4095) 4096). subst p.
    pose proof (Z.mod_pos_bound (m_end s + 4095) 4096).
    rewrite Z.mod_mul by lia. lia. }
  assert (p ≤ 0x80000000 + 128 * 1024 * 1024) as Hp3.
  { pose proof (Z.div_mod p 4096). lia. }
  assert (p + PGSIZE * Z.of_nat k ≤ 0x80000000 + 128 * 1024 * 1024
          < p + PGSIZE * Z.of_nat k + PGSIZE) as Hk.
  { subst k. unfold PGSIZE in *.
    pose proof (Z.div_mod (0x80000000 + 128 * 1024 * 1024 - p) 4096).
    pose proof (Z.mod_pos_bound (0x80000000 + 128 * 1024 * 1024 - p) 4096).
    rewrite Z2Nat.id by (apply Z.div_pos; lia). lia. }
  clearbody k.
  destruct (freerange_loop_spec h k p (0x80000000 + 128 * 1024 * 1024) s [])
    as (s' & Hrun & Hinv & He'); [done| |by unfold PGSIZE| lia..|done|constructor|].
  { split_and!; [done|constructor..]. }
  exists s', (reverse (pages_from p k) ++ []). split_and!; [done..|].
  intros q. rewrite app_nil_r, elem_of_reverse.
  rewrite elem_of_pages_from by done. unfold PGSIZE in *.
  pose proof (Z.div_mod p 4096). pose proof (Z.div_mod q 4096). lia.
Qed.

(** ** A sample machine: four free pages below [PHYSTOP] *)

Definition final {A} (s : machine) (out : outcome machine A) : machine :=
  match out with Ok _ _ s' => s' | _ => s end.

Definition returns {A} (P : A → bool) (out : outcome machine A) : bool :=
  match out with Ok a [] _ => P a | _ => false end.

Lemma returns_final (r : Z) s (out : outcome machine Z) :
  returns (Z.eqb r) out = true → out = Ok r [] (final s out).
Proof. destruct out as [a [|]| | |]; simpl; try done. by intros ->%Z.eqb_eq. Qed.

Definition before_boot (k : Z) : machine := Machine (PHYSTOP - k * PGSIZE) ∅ 0.
Definition booted (k : Z) : machine := final (before_boot k) (kinit [] (before_boot k)).
Definition booted_pages (k : Z) : list Z :=
  (λ i, PHYSTOP - (i + 1) * PGSIZE) <$> seqZ 0 k.

Lemma booted_inv k :
  0 ≤ k ≤ 100 → m_end (booted k) = PHYSTOP - k * PGSIZE →
  chain (m_mem (booted k)) (m_freelist (booted k)) (booted_pages k) → free_inv (booted k) (booted_pages k).
Proof.
  intros Hk He HC. split; [done|split].
  - apply NoDup_fmap_2_strong; [unfold PGSIZE; lia|apply NoDup_seqZ].
  - apply Forall_fmap, Forall_seqZ. intros i Hi. simpl.
    unfold ram_page. rewrite He. change PHYSTOP with (557056 * 4096). unfold PGSIZE. split_and!; [|lia..].
    rewrite <- Z.mul_sub_distr_r. apply Z.mod_mul. lia.
Qed.

Lemma booted_free : free_inv (booted 8) (booted_pages 8).
Proof. apply booted_inv; [done|by vm_compute|]. vm_compute. repeat split; discriminate. Qed.

(** ** Properties *)

(** C19: after [kinit] the free list holds exactly the whole pages between the
    end of the kernel and [PHYSTOP], each of them once. *)
Theorem kinit_frees_ram h s :
  L_kmem ∉ h → 0 < m_end s ≤ PHYSTOP → m_freelist s = 0 →
  ∃ s' L, kinit h s = Ok tt h s' ∧ free_inv s' L ∧ m_end s' = m_end s ∧
    ∀ p, p ∈ L ↔ p mod PGSIZE = 0 ∧ m_end s ≤ p ∧ p + PGSIZE ≤ PHYSTOP.
Proof. apply kinit_spec. Qed.

Lemma kinit_frees_ram_witness :
  ∃ s' L, kinit [] (before_boot 8) = Ok tt [] s' ∧ free_inv s' L ∧
    m_end s' = m_end (before_boot 8) ∧
    ∀ p, p ∈ L ↔ p mod PGSIZE = 0 ∧ m_end (before_boot 8) ≤ p ∧ p + PGSIZE ≤ PHYSTOP.
Proof.
  apply (kinit_frees_ram [] (before_boot 8)); [by apply not_elem_of_nil|done|done].
Defined.

(** [kalloc] on a nonempty free list takes its first page: the page is a
    managed page that is no longer free, the rest stays free, and no byte
    outside the page changes.  On an empty list it returns 0 and changes
    nothing. *)
Theorem kalloc_correct h s L :
  L_kmem ∉ h → free_inv s L →
  match L with
  | [] => kalloc h s = Ok 0 h s
  | p :: L' => ∃ s', kalloc h s = Ok p h s' ∧ free_inv s' L' ∧ ram_page s' p ∧ (p ∉ L') ∧
                 ∀ a, ¬ in_page p a → load8 (m_mem s') a = load8 (m_mem s) a
  end.
Proof.
  intros Hh Hf. destruct L as [|p L]; [by apply kalloc_empty|].
  destruct (kalloc_post_inv s p L Hf) as [Hf' [_ Hst]].
  exists (kalloc_post s p). split; [by eapply kalloc_run|]. split; [done|].
  destruct Hf as (_ & HN & HR). apply NoDup_cons in HN as [? _]. by apply Forall_cons in HR as [? _].
Qed.

Lemma kalloc_correct_witness :
  ∃ s', kalloc [] (booted 8) = Ok (PHYSTOP - PGSIZE) [] s' ∧
    free_inv s' (tail (booted_pages 8)) ∧ ram_page s' (PHYSTOP - PGSIZE) ∧
    (PHYSTOP - PGSIZE ∉ tail (booted_pages 8)) ∧
    ∀ a, ¬ in_page (PHYSTOP - PGSIZE) a → load8 (m_mem s') a = load8 (m_mem (booted 8)) a.
Proof.
  exact (kalloc_correct [] (booted 8) (booted_pages 8) (not_elem_of_nil _) booted_free).
Defined.

(** A page given to [kfree] is the next one [kalloc] returns, and the free
    list is then what it was before. *)
Theorem kfree_kalloc_roundtrip h s L p :
  L_kmem ∉ h → free_inv s L → ram_page s p → p ∉ L →
  ∃ s', (kfree p;; kalloc) h s = Ok p h s' ∧ free_inv s' L ∧
    ∀ a, ¬ in_page p a → load8 (m_mem s') a = load8 (m_mem s) a.
Proof.
  intros Hh Hf Hp HL. destruct (kfree_post_inv s p L Hf Hp HL) as [Hf1 [_ Hst1]].
  destruct (kalloc_post_inv _ p L Hf1) as [Hf2 [_ Hst2]].
  exists (kalloc_post (kfree_post s p) p). split; [|split; [done|]].
  - erewrite bind_Ok by by apply kfree_run. by eapply kalloc_run.
  - intros a Ha. by rewrite Hst2, Hst1.
Qed.

Lemma kfree_kalloc_roundtrip_witness :
  ∃ s', (kfree (PHYSTOP - PGSIZE);; kalloc) [] (kalloc_post (booted 8) (PHYSTOP - PGSIZE))
      = Ok (PHYSTOP - PGSIZE) [] s' ∧ free_inv s' (tail (booted_pages 8)) ∧
    ∀ a, ¬ in_page (PHYSTOP - PGSIZE) a →
      load8 (m_mem s') a = load8 (m_mem (kalloc_post (booted 8) (PHYSTOP - PGSIZE))) a.
Proof.
  destruct (kalloc_post_inv (booted 8) (PHYSTOP - PGSIZE) (tail (booted_pages 8)) booted_free)
    as [Hf _].
  apply (kfree_kalloc_roundtrip [] _ (tail (booted_pages 8))); [by apply not_elem_of_nil|done| |].
  - split; [done|]. change (m_end (kalloc_post (booted 8) (PHYSTOP - PGSIZE))) with (PHYSTOP - 8 * PGSIZE).
    done.
  - pose proof booted_free as (_ & HN & _). by apply NoDup_cons in HN as [? _].
Defined.

(** [kfree] panics on every address that is not the start of a page between
    the end of the kernel and [PHYSTOP]. *)
Theorem kfree_rejects_bad h s p :
  0 < m_end s → ¬ (p mod PGSIZE = 0 ∧ m_end s ≤ p < PHYSTOP) → kfree p h s = Panic "kfree".
Proof.
  intros He Hp. apply kfree_rejects; [done|]. unfold ram_page. naive_solver.
Qed.

Lemma kfree_rejects_bad_witness : kfree (PHYSTOP + 1) [] (booted 8) = Panic "kfree".
Proof.
  apply (kfree_rejects_bad [] (booted 8) (PHYSTOP + 1)); [done|]. intros [_ [_ ?]]. lia.
Defined.
