(* ===== verification/Vm.v ===== *)
(** * Virtual memory (kernel/vm.c, and the page-table parts of kernel/proc.c)

    Page tables live in physical memory as 64-bit PTEs; a [pagetable_t] and a
    [pte_t*] are physical addresses, a null pointer is 0.  Fallible functions
    return what the C function returns (0 and -1, or an address that is 0 on
    failure).  Copies between user and kernel memory take or return the kernel
    side as a list of bytes. *)

From S2P Require Import Prelude CString Riscv Kalloc.

(** [*pte], [*pte = v] and memory updates *)
Definition load_pte (pte : Z) : K Z := gets (λ s, load64 (m_mem s) pte).
Definition store_pte (pte v : Z) : K unit := modify (upd_mem (λ m, store64 m pte v)).
Definition kmemset (p c n : Z) : K unit := modify (upd_mem (λ m, memset m p c n)).

(** [&pagetable[i]] *)
Definition pte_at (pagetable i : Z) : Z := pagetable + 8 * i.

(** ** walk *)

(** [for(int level = 2; level > 0; level--)] from [level] on. *)
Fixpoint walk_loop (level : nat) (pagetable va : Z) (alloc : bool) : K Z :=
  match level with
  | O => mret (pte_at pagetable (PX 0 va))
  | S level' =>
      let pte := pte_at pagetable (PX (Z.of_nat level) va) in
      e ← load_pte pte;
      if has e PTE_V then walk_loop level' (PTE2PA e) va alloc
      else if negb alloc then mret 0
      else
        pt ← kalloc;
        if pt =? 0 then mret 0 else
        kmemset pt 0 PGSIZE;;
        store_pte pte (Z.lor (PA2PTE pt) PTE_V);;
        walk_loop level' pt va alloc
  end.

Definition walk (pagetable va : Z) (alloc : bool) : K Z :=
  if va >=? MAXVA then panic "walk" else walk_loop 2 pagetable va alloc.

Definition walkaddr (pagetable va : Z) : K Z :=
  if va >=? MAXVA then mret 0 else
  pte ← walk pagetable va false;
  if pte =? 0 then mret 0 else
  e ← load_pte pte;
  if negb (has e PTE_V) then mret 0 else
  if negb (has e PTE_U) then mret 0 else
  mret (PTE2PA e).

(** ** mappages *)

Fixpoint mappages_loop (fuel : nat) (pagetable a last pa perm : Z) : K Z :=
  pte ← walk pagetable a true;
  if pte =? 0 then mret (-1) else
  e ← load_pte pte;
  if has e PTE_V then panic "mappages: remap" else
  store_pte pte (Z.lor (Z.lor (PA2PTE pa) perm) PTE_V);;
  if a =? last then mret 0 else
  match fuel with
  | O => nofuel
  | S fuel => mappages_loop fuel pagetable (u64 (a + PGSIZE)) last (u64 (pa + PGSIZE)) perm
  end.

(** The loop runs to [last] or, when [last] is out of reach, until [walk]
    panics at [MAXVA]. *)
Definition mappages_fuel (a last : Z) : nat :=
  Z.to_nat ((Z.min (if a <=? last then last else MAXVA) MAXVA - a) / PGSIZE + 1).

Definition mappages (pagetable va size pa perm : Z) : K Z :=
  if size =? 0 then panic "mappages: size" else
  let a := PGROUNDDOWN va in
  let last := PGROUNDDOWN (u64 (va + size - 1)) in
  mappages_loop (mappages_fuel a last) pagetable a last pa perm.

Definition kvmmap (kpgtbl va pa sz perm : Z) : K unit :=
  r ← mappages kpgtbl va sz pa perm;
  if negb (r =? 0) then panic "kvmmap" else mret tt.

(** ** uvmunmap and the user address space *)

Fixpoint uvmunmap_loop (fuel : nat) (pagetable a bound : Z) (do_free : bool) : K unit :=
  if a <? bound then
    pte ← walk pagetable a false;
    if pte =? 0 then panic "uvmunmap: walk" else
    e ← load_pte pte;
    if negb (has e PTE_V) then panic "uvmunmap: not mapped" else
    if PTE_FLAGS e =? PTE_V then panic "uvmunmap: not a leaf" else
    when do_free (kfree (PTE2PA e));;
    store_pte pte 0;;
    match fuel with
    | O => nofuel
    | S fuel => uvmunmap_loop fuel pagetable (u64 (a + PGSIZE)) bound do_free
    end
  else mret tt.

(** Enough iterations to go from [a] to [bound], or to [MAXVA] where [walk]
    panics. *)
Definition page_fuel (a bound : Z) : nat :=
  Z.to_nat ((Z.min bound MAXVA - a) / PGSIZE + 2).

Definition uvmunmap (pagetable va npages : Z) (do_free : bool) : K unit :=
  if negb (va mod PGSIZE =? 0) then panic "uvmunmap: not aligned" else
  let bound := u64 (va + u64 (npages * PGSIZE)) in
  uvmunmap_loop (page_fuel va bound) pagetable va bound do_free.

Definition uvmcreate : K Z :=
  pagetable ← kalloc;
  if pagetable =? 0 then mret 0 else
  kmemset pagetable 0 PGSIZE;;
  mret pagetable.

(** [src] is the kernel array the first process starts from. *)
Definition uvmfirst (pagetable : Z) (src : list Z) (sz : Z) : K unit :=
  if sz >=? PGSIZE then panic "uvmfirst: more than a page" else
  pg ← kalloc;
  kmemset pg 0 PGSIZE;;
  mappages pagetable 0 PGSIZE pg (Z.lor (Z.lor (Z.lor PTE_W PTE_R) PTE_X) PTE_U);;
  modify (upd_mem (λ m, store_bytes m pg (take (Z.to_nat sz) src))).

Definition uvmdealloc (pagetable oldsz newsz : Z) : K Z :=
  if newsz >=? oldsz then mret oldsz else
  when (PGROUNDUP newsz <? PGROUNDUP oldsz)
    (let npages := i32 ((PGROUNDUP oldsz - PGROUNDUP newsz) / PGSIZE) in
     uvmunmap pagetable (PGROUNDUP newsz) (u64 npages) true);;
  mret newsz.

Fixpoint uvmalloc_loop (fuel : nat) (pagetable a oldsz newsz xperm : Z) : K Z :=
  if a <? newsz then
    pg ← kalloc;
    if pg =? 0 then uvmdealloc pagetable a oldsz;; mret 0 else
    kmemset pg 0 PGSIZE;;
    r ← mappages pagetable a PGSIZE pg (Z.lor (Z.lor PTE_R PTE_U) xperm);
    if negb (r =? 0) then kfree pg;; uvmdealloc pagetable a oldsz;; mret 0 else
    match fuel with
    | O => nofuel
    | S fuel => uvmalloc_loop fuel pagetable (u64 (a + PGSIZE)) oldsz newsz xperm
    end
  else mret newsz.

Definition uvmalloc (pagetable oldsz newsz xperm : Z) : K Z :=
  if newsz <? oldsz then mret oldsz else
  let oldsz := PGROUNDUP oldsz in
  uvmalloc_loop (page_fuel oldsz newsz) pagetable oldsz oldsz newsz xperm.

(** The loop of [freewalk] over the [k] entries from [i]; [rec] is the recursive
    call on a child table. *)
Fixpoint freewalk_entries (rec : Z → K unit) (pagetable : Z) (k : nat) (i : Z) : K unit :=
  match k with
  | O => mret tt
  | S k =>
      e ← load_pte (pte_at pagetable i);
      (if has e PTE_V && (Z.land e (Z.lor (Z.lor PTE_R PTE_W) PTE_X) =? 0) then
         rec (PTE2PA e);;
         store_pte (pte_at pagetable i) 0
       else if has e PTE_V then panic "freewalk: leaf"
       else mret tt);;
      freewalk_entries rec pagetable k (i + 1)
  end.

(** [depth] bounds the recursion: the tables of an Sv39 tree are at most three
    deep. *)
Fixpoint freewalk (depth : nat) (pagetable : Z) : K unit :=
  match depth with
  | O => nofuel
  | S depth => freewalk_entries (freewalk depth) pagetable 512 0;; kfree pagetable
  end.

Definition uvmfree (pagetable sz : Z) : K unit :=
  when (sz >? 0) (uvmunmap pagetable 0 (PGROUNDUP sz / PGSIZE) true);;
  freewalk 3 pagetable.

Fixpoint uvmcopy_loop (fuel : nat) (old new i sz : Z) : K Z :=
  if i <? sz then
    pte ← walk old i false;
    if pte =? 0 then panic "uvmcopy: pte should exist" else
    e ← load_pte pte;
    if negb (has e PTE_V) then panic "uvmcopy: page not present" else
    let pa := PTE2PA e in
    let flags := PTE_FLAGS e in
    pg ← kalloc;
    if pg =? 0 then uvmunmap new 0 (i / PGSIZE) true;; mret (-1) else
    modify (upd_mem (λ m, memmove m pg pa PGSIZE));;
    r ← mappages new i PGSIZE pg flags;
    if negb (r =? 0) then kfree pg;; uvmunmap new 0 (i / PGSIZE) true;; mret (-1) else
    match fuel with
    | O => nofuel
    | S fuel => uvmcopy_loop fuel old new (u64 (i + PGSIZE)) sz
    end
  else mret 0.

Definition uvmcopy (old new sz : Z) : K Z := uvmcopy_loop (page_fuel 0 sz) old new 0 sz.

Definition uvmclear (pagetable va : Z) : K unit :=
  pte ← walk pagetable va false;
  if pte =? 0 then panic "uvmclear" else
  e ← load_pte pte;
  store_pte pte (Z.land e (Z.lnot PTE_U)).

(** ** Copies between user and kernel memory *)

(** At most one iteration per page touched, plus one. *)
Definition copy_fuel (len : Z) : nat := Z.to_nat (len / PGSIZE + 2).

(** [src] is the rest of the kernel buffer, at least [len] bytes. *)
Fixpoint copyout_loop (fuel : nat) (pagetable dstva : Z) (src : list Z) (len : Z) : K Z :=
  if len >? 0 then
    let va0 := PGROUNDDOWN dstva in
    pa0 ← walkaddr pagetable va0;
    if pa0 =? 0 then mret (-1) else
    let n := PGSIZE - (dstva - va0) in
    let n := if n >? len then len else n in
    modify (upd_mem (λ m, store_bytes m (pa0 + (dstva - va0)) (take (Z.to_nat n) src)));;
    match fuel with
    | O => nofuel
    | S fuel =>
        copyout_loop fuel pagetable (u64 (va0 + PGSIZE)) (drop (Z.to_nat n) src) (len - n)
    end
  else mret 0.

Definition copyout (pagetable dstva : Z) (src : list Z) (len : Z) : K Z :=
  copyout_loop (copy_fuel len) pagetable dstva src len.

(** Returns the status and the bytes stored at [dst] so far. *)
Fixpoint copyin_loop (fuel : nat) (pagetable : Z) (dst : list Z) (srcva len : Z)
  : K (Z * list Z) :=
  if len >? 0 then
    let va0 := PGROUNDDOWN srcva in
    pa0 ← walkaddr pagetable va0;
    if pa0 =? 0 then mret (-1, dst) else
    let n := PGSIZE - (srcva - va0) in
    let n := if n >? len then len else n in
    l ← gets (λ s, load_bytes (m_mem s) (pa0 + (srcva - va0)) (Z.to_nat n));
    match fuel with
    | O => nofuel
    | S fuel => copyin_loop fuel pagetable (dst ++ l) (u64 (va0 + PGSIZE)) (len - n)
    end
  else mret (0, dst).

Definition copyin (pagetable srcva len : Z) : K (Z * list Z) :=
  copyin_loop (copy_fuel len) pagetable [] srcva len.

(** The inner loop of [copyinstr]: scan [n] bytes at [p], copying up to and
    including the first NUL; the flag is [got_null]. *)
Fixpoint copyinstr_scan (m : mem) (p : Z) (n : nat) : list Z * bool :=
  match n with
  | O => ([], false)
  | S n =>
      let c := load8 m p in
      if c =? 0 then ([0], true)
      else let '(l, got_null) := copyinstr_scan m (p + 1) n in (c :: l, got_null)
  end.

Fixpoint copyinstr_loop (fuel : nat) (pagetable : Z) (dst : list Z) (srcva max : Z)
  : K (Z * list Z) :=
  if max >? 0 then
    let va0 := PGROUNDDOWN srcva in
    pa0 ← walkaddr pagetable va0;
    if pa0 =? 0 then mret (-1, dst) else
    let n := PGSIZE - (srcva - va0) in
    let n := if n >? max then max else n in
    r ← gets (λ s, copyinstr_scan (m_mem s) (pa0 + (srcva - va0)) (Z.to_nat n));
    let '(l, got_null) := r in
    if got_null : bool then mret (0, dst ++ l) else
    match fuel with
    | O => nofuel
    | S fuel => copyinstr_loop fuel pagetable (dst ++ l) (u64 (va0 + PGSIZE)) (max - n)
    end
  else mret (-1, dst).

Definition copyinstr (pagetable srcva max : Z) : K (Z * list Z) :=
  copyinstr_loop (copy_fuel max) pagetable [] srcva max.

(** ** Page tables of the kernel and of processes

    [etext] and [trampoline] are linker symbols. *)

(** proc.c: a kernel stack for each of the [k] process slots from [p] on. *)
Fixpoint proc_mapstacks_loop (kpgtbl p : Z) (k : nat) : K unit :=
  match k with
  | O => mret tt
  | S k =>
      pa ← kalloc;
      if pa =? 0 then panic "kalloc" else
      kvmmap kpgtbl (KSTACK p) pa PGSIZE (Z.lor PTE_R PTE_W);;
      proc_mapstacks_loop kpgtbl (p + 1) k
  end.

Definition proc_mapstacks (kpgtbl : Z) : K unit :=
  proc_mapstacks_loop kpgtbl 0 (Z.to_nat NPROC).

Definition kvmmake (etext trampoline : Z) : K Z :=
  kpgtbl ← kalloc;
  kmemset kpgtbl 0 PGSIZE;;
  kvmmap kpgtbl UART0 UART0 PGSIZE (Z.lor PTE_R PTE_W);;
  kvmmap kpgtbl VIRTIO0 VIRTIO0 PGSIZE (Z.lor PTE_R PTE_W);;
  kvmmap kpgtbl PLIC PLIC 0x400000 (Z.lor PTE_R PTE_W);;
  kvmmap kpgtbl KERNBASE KERNBASE (etext - KERNBASE) (Z.lor PTE_R PTE_X);;
  kvmmap kpgtbl etext etext (PHYSTOP - etext) (Z.lor PTE_R PTE_W);;
  kvmmap kpgtbl TRAMPOLINE trampoline PGSIZE (Z.lor PTE_R PTE_X);;
  proc_mapstacks kpgtbl;;
  mret kpgtbl.

Definition proc_pagetable (trampoline trapframe : Z) : K Z :=
  pagetable ← uvmcreate;
  if pagetable =? 0 then mret 0 else
  r ← mappages pagetable TRAMPOLINE PGSIZE trampoline (Z.lor PTE_R PTE_X);
  if r <? 0 then uvmfree pagetable 0;; mret 0 else
  r ← mappages pagetable TRAPFRAME PGSIZE trapframe (Z.lor PTE_R PTE_W);
  if r <? 0 then
    uvmunmap pagetable TRAMPOLINE 1 false;;
    uvmfree pagetable 0;;
    mret 0
  else mret pagetable.

Definition proc_freepagetable (pagetable sz : Z) : K unit :=
  uvmunmap pagetable TRAMPOLINE 1 false;;
  uvmunmap pagetable TRAPFRAME 1 false;;
  uvmfree pagetable sz.
