(* ===== verification/PageTable.v ===== *)
(** * Page tables as maps: correctness of kernel/vm.c

    A page table rooted at [root] is described by the map [T] from paths of
    indices to the address of the table page at that path: the empty path is the
    root, [[i2]] a level-1 table, [[i2; i1]] a level-0 table.  [pt_ok] says that
    memory holds that tree; [leaf] is the translation it denotes. *)

From S2P Require Import Prelude CString Riscv Kalloc Vm.

Abbreviation ptree := (gmap (list Z) Z).

Record pt_ok (m : mem) (T : ptree) (root : Z) : Prop := {
  pt_root : T !! [] = Some root;
  pt_addr : ∀ p a, T !! p = Some a → page_addr a ∧ (length p ≤ 2)%nat;
  pt_parent : ∀ p i, is_Some (T !! (p ++ [i])) → is_Some (T !! p) ∧ 0 ≤ i < 512;
  pt_entry : ∀ p a i, T !! p = Some a → (length p < 2)%nat → 0 ≤ i < 512 →
    match T !! (p ++ [i]) with
    | Some b => load64 m (pte_at a i) = Z.lor (PA2PTE b) PTE_V
    | None => has (load64 m (pte_at a i)) PTE_V = false
    end;
  pt_inj : ∀ p q a, T !! p = Some a → T !! q = Some a → p = q;
  pt_low : ∀ i p, is_Some (T !! (i :: p)) → i < 256;   (* only addresses below MAXVA *)
}.

(** The last-level PTE of [va], 0 when there is no last-level table. *)
Definition leaf (m : mem) (T : ptree) (va : Z) : Z :=
  match T !! [PX 2 va; PX 1 va] with
  | Some a => load64 m (pte_at a (PX 0 va))
  | None => 0
  end.

(** The tables are managed pages that are not on the free list [L]. *)
Definition vm_ok (s : machine) (T : ptree) (root : Z) (L : list Z) : Prop :=
  pt_ok (m_mem s) T root ∧ free_inv s L ∧
  ∀ p a, T !! p = Some a → ram_page s a ∧ a ∉ L.

(** The bytes page-table operations may write: table pages and free pages. *)
Definition pt_bytes (T : ptree) (L : list Z) (b : Z) : Prop :=
  (∃ p a, T !! p = Some a ∧ in_page a b) ∨ (∃ q, q ∈ L ∧ in_page q b).

Lemma ram_page_addr s p : ram_page s p → page_addr p.
Proof.
  intros (H1 & H2 & H3). split; [done|]. unfold PHYSTOP, KERNBASE in H2. lia.
Qed.

(** ** Words of a page *)

Lemma load64_zeroed m q j :
  0 ≤ j < 512 → load64 (memset m q 0 PGSIZE) (pte_at q j) = 0.
Proof.
  intros Hj. apply load64_zero. intros b Hb. rewrite load8_memset, decide_True; [done|].
  unfold pte_at, PGSIZE in *. lia.
Qed.

Lemma pte_in_page a i b : 0 ≤ i < 512 → pte_at a i ≤ b < pte_at a i + 8 → in_page a b.
Proof. unfold pte_at, in_page, PGSIZE. lia. Qed.

(** A PTE of one table is not affected by what happens in another page. *)
Lemma load64_other_page m1 m2 a q j :
  frame (in_page q) m1 m2 → a mod PGSIZE = 0 → q mod PGSIZE = 0 → a ≠ q → 0 ≤ j < 512 →
  load64 m2 (pte_at a j) = load64 m1 (pte_at a j).
Proof.
  intros HF Ha Hq Hne Hj. eapply frame_load64; [done|].
  intros b Hb. apply (in_page_disjoint a); try done. by eapply pte_in_page.
Qed.

Lemma load64_store_pte m a i v b j :
  a mod PGSIZE = 0 → b mod PGSIZE = 0 → 0 ≤ i < 512 → 0 ≤ j < 512 → 0 ≤ v < 2 ^ 64 →
  load64 (store64 m (pte_at a i) v) (pte_at b j) =
  if decide (a = b ∧ i = j) then v else load64 m (pte_at b j).
Proof.
  intros Ha Hb Hi Hj Hv. case_decide as Hd.
  - destruct Hd as [-> ->]. rewrite load64_store64_eq. by apply u64_small.
  - destruct (decide (a = b)) as [->|].
    + apply load64_store64_ne. unfold pte_at. lia.
    + eapply load64_other_page; [by apply frame_store64_page|done..].
Qed.

(** ** walk on an existing tree *)

Lemma V_flag : PTE_V = 1. Proof. done. Qed.

Lemma pointer_pte b :
  page_addr b →
  has (Z.lor (PA2PTE b) PTE_V) PTE_V = true ∧ PTE2PA (Z.lor (PA2PTE b) PTE_V) = b.
Proof.
  intros Hb. split; [|apply PTE2PA_make; [done|rewrite V_flag; lia]].
  apply (has_make_pte b PTE_V 0); [done|rewrite V_flag; lia|lia].
Qed.

Lemma walk_step m T root p a i b :
  pt_ok m T root → T !! p = Some a → (length p < 2)%nat → T !! (p ++ [i]) = Some b →
  has (load64 m (pte_at a i)) PTE_V = true ∧ PTE2PA (load64 m (pte_at a i)) = b.
Proof.
  intros Hok Ha Hl Hb. destruct (pt_parent _ _ _ Hok p i) as [_ Hi]; [by rewrite Hb|].
  pose proof (pt_entry _ _ _ Hok p a i Ha Hl Hi) as He. rewrite Hb in He. rewrite He.
  apply pointer_pte. by eapply pt_addr.
Qed.

Lemma walk_stop m T root p a i :
  pt_ok m T root → T !! p = Some a → (length p < 2)%nat → 0 ≤ i < 512 →
  T !! (p ++ [i]) = None → has (load64 m (pte_at a i)) PTE_V = false.
Proof.
  intros Hok Ha Hl Hi Hb. pose proof (pt_entry _ _ _ Hok p a i Ha Hl Hi) as He.
  by rewrite Hb in He.
Qed.

Lemma walk_below_MAXVA root va alloc h s :
  0 ≤ va < MAXVA → walk root va alloc h s = walk_loop 2 root va alloc h s.
Proof.
  intros Hva. unfold walk. by rewrite Z.geb_leb, (proj2 (Z.leb_gt _ _)) by lia.
Qed.

Lemma walk_loop_S level pt va alloc h s :
  walk_loop (S level) pt va alloc h s =
  (let pte := pte_at pt (PX (Z.of_nat (S level)) va) in
   let e := load64 (m_mem s) pte in
   if has e PTE_V then walk_loop level (PTE2PA e) va alloc h s
   else if negb alloc then Ok 0 h s
   else (pt' ← kalloc;
         if pt' =? 0 then mret 0 else
         kmemset pt' 0 PGSIZE;;
         store_pte pte (Z.lor (PA2PTE pt') PTE_V);;
         walk_loop level pt' va alloc) h s).
Proof.
  cbn [walk_loop]. unfold load_pte. rewrite bind_gets. case_match; [done|].
  by destruct alloc.
Qed.

Lemma walk_found s T root va alloc h a :
  pt_ok (m_mem s) T root → 0 ≤ va < MAXVA → T !! [PX 2 va; PX 1 va] = Some a →
  walk root va alloc h s = Ok (pte_at a (PX 0 va)) h s.
Proof.
  intros Hok Hva Ha. rewrite walk_below_MAXVA by done.
  destruct (pt_parent _ _ _ Hok [PX 2 va] (PX 1 va)) as [[b Hb] _]; [by exists a|].
  rewrite walk_loop_S. change (Z.of_nat 2) with 2. cbv zeta.
  destruct (walk_step _ _ _ [] root (PX 2 va) b Hok) as [-> ->];
    [by apply Hok|simpl; lia|done|].
  rewrite walk_loop_S. change (Z.of_nat 1) with 1. cbv zeta.
  by destruct (walk_step _ _ _ [PX 2 va] b (PX 1 va) a Hok Hb) as [-> ->]; [simpl; lia|done|].
Qed.

Lemma walk_missing s T root va h :
  pt_ok (m_mem s) T root → 0 ≤ va < MAXVA → T !! [PX 2 va; PX 1 va] = None →
  walk root va false h s = Ok 0 h s.
Proof.
  intros Hok Hva Ha. rewrite walk_below_MAXVA by done.
  rewrite walk_loop_S. change (Z.of_nat 2) with 2. cbv zeta.
  destruct (T !! [PX 2 va]) as [b|] eqn:Hb.
  - destruct (walk_step _ _ _ [] root (PX 2 va) b Hok) as [-> ->];
      [by apply Hok|simpl; lia|done|].
    rewrite walk_loop_S. change (Z.of_nat 1) with 1. cbv zeta.
    rewrite (walk_stop _ _ _ [PX 2 va] b (PX 1 va) Hok Hb);
      [done|simpl; lia|apply PX_range; lia|done].
  - rewrite (walk_stop _ _ _ [] root (PX 2 va) Hok);
      [done|by apply Hok|simpl; lia|apply PX_range; lia|done].
Qed.

(** [walk] without allocation, in one statement. *)
Lemma walk_read s T root va h :
  pt_ok (m_mem s) T root → 0 ≤ va < MAXVA →
  walk root va false h s =
  Ok (match T !! [PX 2 va; PX 1 va] with
      | Some a => pte_at a (PX 0 va)
      | None => 0
      end) h s.
Proof.
  intros Hok Hva. destruct (T !! _) eqn:Ha; [by eapply walk_found|by eapply walk_missing].
Qed.

(** The physical address a user access to [va] reaches: [walkaddr] is the leaf
    PTE's page when it is valid and user accessible, 0 otherwise. *)
Definition user_pa (e : Z) : Z := if has e PTE_V && has e PTE_U then PTE2PA e else 0.

Lemma pte_at_nonzero T m root p a i :
  pt_ok m T root → T !! p = Some a → 0 ≤ i → (pte_at a i =? 0) = false.
Proof.
  intros Hok Ha Hi. apply Z.eqb_neq. destruct (pt_addr _ _ _ Hok p a Ha) as [[_ ?] _].
  unfold pte_at. lia.
Qed.

Lemma walkaddr_spec s T root va h :
  pt_ok (m_mem s) T root → 0 ≤ va < MAXVA →
  walkaddr root va h s = Ok (user_pa (leaf (m_mem s) T va)) h s.
Proof.
  intros Hok Hva. unfold walkaddr. rewrite Z.geb_leb, (proj2 (Z.leb_gt _ _)) by lia.
  erewrite bind_Ok by by apply walk_read. unfold leaf, user_pa.
  destruct (T !! _) as [a|] eqn:Ha; [|done].
  rewrite (pte_at_nonzero T (m_mem s) root _ a) by (done || apply PX_range; lia).
  unfold load_pte. rewrite bind_gets.
  destruct (has _ PTE_V) eqn:?; [|done]. by destruct (has _ PTE_U).
Qed.

(** ** walk with allocation *)

(** Peel page-local writes off a memory, last write first. *)
Ltac frame_writes :=
  lazymatch goal with
  | |- frame _ ?m ?m => apply frame_refl
  | |- frame _ _ (memset _ _ _ _) =>
      eapply frame_trans; [|eapply frame_mono; [apply frame_memset_page|simpl; tauto]];
      frame_writes
  | |- frame _ _ (store64 _ _ _) =>
      eapply frame_trans; [|eapply frame_mono; [by apply frame_store64_page|simpl; tauto]];
      frame_writes
  end.

(** The state after one level of [walk] has allocated the table [q] below entry
    [i] of the table at [a]. *)
Definition grow (s : machine) (q a i : Z) : machine :=
  Machine (m_end s)
    (store64 (memset (memset (m_mem s) q 5 PGSIZE) q 0 PGSIZE) (pte_at a i)
       (Z.lor (PA2PTE q) PTE_V))
    (load64 (m_mem s) q).

Section Grow.
Context (s : machine) (T : ptree) (root q : Z) (L : list Z) (p : list Z) (a i : Z).
Context (Hok : vm_ok s T root (q :: L)) (Ha : T !! p = Some a)
  (Hl : (length p < 2)%nat) (Hi : 0 ≤ i < 512) (Hnone : T !! (p ++ [i]) = None)
  (Hlow : ∀ j r, p ++ [i] = j :: r → j < 256).

Let m' := m_mem (grow s q a i).

Lemma grow_q : ram_page s q ∧ ∀ p' b, T !! p' = Some b → b ≠ q.
Proof.
  destruct Hok as (_ & (_ & _ & HR) & HT). apply Forall_cons in HR as [Hq _].
  split; [done|]. intros p' b Hb ->. destruct (HT p' q Hb). set_solver.
Qed.

Lemma grow_aligned p' b : T !! p' = Some b → b mod PGSIZE = 0.
Proof. intros Hb. by destruct Hok as (Hpt & _); destruct (pt_addr _ _ _ Hpt p' b Hb) as [[]]. Qed.

Lemma grow_pte_range : 0 ≤ Z.lor (PA2PTE q) PTE_V < 2 ^ 64.
Proof.
  apply make_pte_range; [|rewrite V_flag; lia]. apply (ram_page_addr s), grow_q.
Qed.

Lemma grow_old p' b j :
  T !! p' = Some b → 0 ≤ j < 512 →
  load64 m' (pte_at b j) =
  if decide (a = b ∧ i = j) then Z.lor (PA2PTE q) PTE_V else load64 (m_mem s) (pte_at b j).
Proof.
  intros Hb Hj. unfold m', grow; simpl.
  rewrite load64_store_pte by eauto using grow_aligned, grow_pte_range.
  case_decide; [done|]. destruct grow_q as [[Hq _] Hne].
  rewrite !(load64_other_page _ (memset _ q _ PGSIZE) b q) by
    eauto using grow_aligned, frame_memset_page. done.
Qed.

Lemma grow_new j : 0 ≤ j < 512 → load64 m' (pte_at q j) = 0.
Proof.
  intros Hj. unfold m', grow; simpl. destruct grow_q as [[Hq _] Hne].
  rewrite load64_store_pte by eauto using grow_aligned, grow_pte_range.
  rewrite decide_False; [by apply load64_zeroed|]. intros [? _]. by apply (Hne p a).
Qed.

Lemma grow_frame : frame (λ b, in_page q b ∨ in_page a b) (m_mem s) m'.
Proof.
  unfold m', grow; simpl.
  frame_writes.
Qed.

Lemma grow_pt_ok : pt_ok m' (<[p ++ [i] := q]> T) root.
Proof.
  destruct Hok as (Hpt & _ & HT). destruct grow_q as [Hq Hne]. split.
  - rewrite lookup_insert_ne; [apply Hpt|]. by destruct p.
  - intros p' b. rewrite lookup_insert. case_decide as Hd; [|apply Hpt].
    intros [= <-]. subst p'. split; [by eapply ram_page_addr|]. rewrite length_app. simpl. lia.
  - intros p' j. rewrite lookup_insert. case_decide as Hd.
    + intros _. apply app_inj_tail in Hd as [<- <-]. split; [|done].
      rewrite lookup_insert_ne; [by exists a|]. intros E.
      apply (f_equal length) in E. rewrite length_app in E. simpl in E. lia.
    + intros Hs. destruct (pt_parent _ _ _ Hpt _ _ Hs) as [[b Hb] Hj]. split; [|done].
      rewrite lookup_insert. case_decide; eauto.
  - intros p' b j. rewrite lookup_insert. case_decide as Hd.
    + intros [= <-] Hlen Hj. subst p'. rewrite lookup_insert_ne.
      2:{ intros E. apply (f_equal length) in E. rewrite !length_app in E. simpl in E. lia. }
      rewrite grow_new by done.
      destruct (T !! ((p ++ [i]) ++ [j])) eqn:E; [|done].
      destruct (pt_parent _ _ _ Hpt (p ++ [i]) j) as [[? ?] _]; [by eexists|congruence].
    + intros Hb Hlen Hj. rewrite (grow_old p' b j) by done. rewrite lookup_insert.
      case_decide as Hd2.
      * apply app_inj_tail in Hd2 as [<- <-].
        rewrite decide_True by (split; congruence). done.
      * rewrite decide_False; [by apply Hpt|]. intros [-> ->].
        apply Hd2. by rewrite (pt_inj _ _ _ Hpt p p' b).
  - intros p1 p2 b. rewrite !lookup_insert. repeat case_decide; subst; try done.
    + intros [= <-] H2. by destruct (Hne _ _ H2).
    + intros H1 [= <-]. by destruct (Hne _ _ H1).
    + apply Hpt.
  - intros j r. rewrite lookup_insert. case_decide; [by eauto|apply Hpt].
Qed.

Lemma grow_vm_ok : vm_ok (grow s q a i) (<[p ++ [i] := q]> T) root L.
Proof.
  split_and!; [apply grow_pt_ok| |].
  - destruct Hok as (Hpt & Hf & HT). destruct (kalloc_post_inv s q L Hf) as [Hf' _].
    apply (free_inv_frame (λ b, in_page q b ∨ in_page a b) (kalloc_post s q) m') in Hf'.
    + exact Hf'.
    + unfold m', grow; simpl.
      frame_writes.
    + destruct Hf as (_ & HN & HR). apply NoDup_cons in HN as [HqL _].
      apply Forall_cons in HR as [Hq HR]. rewrite Forall_forall in HR.
      intros r b Hr Hb [Hbq|Hba]; [|destruct (HT p a Ha) as [Hram HaL]].
      * apply (ram_page_disjoint s r q b);
          [apply HR; set_solver|done|set_solver|done|done].
      * apply (ram_page_disjoint s r a b);
          [apply HR; set_solver|done|set_solver|done|done].
  - intros p' b. rewrite lookup_insert. destruct Hok as (_ & (_ & HN & HR) & HT).
    apply NoDup_cons in HN as [HqL _]. apply Forall_cons in HR as [Hq HR].
    case_decide; [by intros [= <-]|]. intros Hb. destruct (HT _ _ Hb). set_solver.
Qed.

Lemma grow_leaf va : leaf m' (<[p ++ [i] := q]> T) va = leaf (m_mem s) T va.
Proof.
  unfold leaf. rewrite lookup_insert. case_decide as Hd.
  - rewrite grow_new by (apply PX_range; lia). by rewrite <- Hd, Hnone.
  - destruct (T !! [PX 2 va; PX 1 va]) as [b|] eqn:Hb; [|done].
    rewrite (grow_old _ b) by (done || apply PX_range; lia).
    rewrite decide_False; [done|]. intros [-> _]. destruct Hok as (Hpt & _).
    assert (p = [PX 2 va; PX 1 va]) as -> by by eapply pt_inj. simpl in Hl. lia.
Qed.
End Grow.

(** [T'] and [L'] come from [T] and [L] by moving pages off the front of the
    free list into the tree. *)
Definition ext (T : ptree) (L : list Z) (T' : ptree) (L' : list Z) : Prop :=
  T ⊆ T' ∧ ∃ used, L = used ++ L' ∧
    (∀ p a, T' !! p = Some a → T !! p = Some a ∨ a ∈ used) ∧
    ∀ a, a ∈ used → ∃ p, T' !! p = Some a.

Lemma ext_refl T L : ext T L T L.
Proof. split; [done|]. exists []. split; [done|]. split; [naive_solver|]. intros a Ha. by apply not_elem_of_nil in Ha. Qed.

Lemma ext_trans T1 L1 T2 L2 T3 L3 :
  ext T1 L1 T2 L2 → ext T2 L2 T3 L3 → ext T1 L1 T3 L3.
Proof.
  intros [HT1 (u1 & -> & H1 & G1)] [HT2 (u2 & -> & H2 & G2)]. split; [by etransitivity|].
  exists (u1 ++ u2). split; [by rewrite app_assoc|]. split.
  - intros p a Ha. destruct (H2 p a Ha) as [Ha'|]; [destruct (H1 p a Ha')|]; set_solver.
  - intros a [Ha|Ha]%elem_of_app; [|by apply G2]. destruct (G1 a Ha) as [p Hp]. exists p. by eapply lookup_weaken.
Qed.

Lemma ext_bytes T L T' L' b : ext T L T' L' → pt_bytes T' L' b → pt_bytes T L b.
Proof.
  intros [_ (u & -> & H & _)] [(p & a & Ha & Hb)|(q & Hq & Hb)].
  - destruct (H p a Ha); [left; eauto|right; exists a; set_solver].
  - right. exists q. set_solver.
Qed.

(** A step that grows the tree, changes no translation and writes only table and
    free pages. *)
Record vm_step (root : Z) (s : machine) (T : ptree) (L : list Z)
    (s' : machine) (T' : ptree) (L' : list Z) : Prop := {
  vs_ok : vm_ok s' T' root L';
  vs_ext : ext T L T' L';
  vs_leaf : ∀ va, leaf (m_mem s') T' va = leaf (m_mem s) T va;
  vs_frame : steps_in (pt_bytes T L) s s';
}.

Lemma vm_step_refl root s T L : vm_ok s T root L → vm_step root s T L s T L.
Proof. intros. split; auto using ext_refl, steps_in_refl. Qed.

Lemma vm_step_trans root s1 T1 L1 s2 T2 L2 s3 T3 L3 :
  vm_step root s1 T1 L1 s2 T2 L2 → vm_step root s2 T2 L2 s3 T3 L3 →
  vm_step root s1 T1 L1 s3 T3 L3.
Proof.
  intros [H1 H2 H3 H4] [G1 G2 G3 G4]. split; [done|by eapply ext_trans|congruence|].
  eapply steps_in_trans; [done|]. eapply steps_in_mono; [done|].
  intros b. by apply ext_bytes.
Qed.

Lemma grow_step root s T q L p a i :
  vm_ok s T root (q :: L) → T !! p = Some a → (length p < 2)%nat → 0 ≤ i < 512 →
  T !! (p ++ [i]) = None → (∀ j r, p ++ [i] = j :: r → j < 256) →
  vm_step root s T (q :: L) (grow s q a i) (<[p ++ [i] := q]> T) L.
Proof.
  intros Hok Ha Hl Hi Hn Hlow. split.
  - by apply grow_vm_ok.
  - split; [by apply insert_subseteq|]. exists [q]. split; [done|]. split.
    + intros p' b. rewrite lookup_insert. case_decide; set_solver.
    + intros b ->%list_elem_of_singleton. exists (p ++ [i]). apply lookup_insert_eq.
  - intros va. by eapply grow_leaf.
  - split; [done|]. eapply frame_mono; [by apply (grow_frame s q a i)|].
    intros b [Hb|Hb]; [right; exists q; set_solver|left; eauto].
Qed.

(** The indices of the tables above level [level] on the way to [va]. *)
Definition idxpath (level : nat) (va : Z) : list Z :=
  match level with
  | O => [PX 2 va; PX 1 va]
  | S O => [PX 2 va]
  | _ => []
  end.

Lemma idxpath_S level va :
  (level < 2)%nat → idxpath (S level) va ++ [PX (Z.of_nat (S level)) va] = idxpath level va.
Proof. destruct level as [|[|]]; intros; [done..|lia]. Qed.

Lemma length_idxpath level va : (level ≤ 2)%nat → length (idxpath level va) = (2 - level)%nat.
Proof. destruct level as [|[|[|]]]; intros; [done..|lia]. Qed.

Lemma idxpath_low level va j r :
  0 ≤ va < MAXVA → idxpath level va = j :: r → j < 256.
Proof.
  intros Hva. assert (PX 2 va < 256); [|by destruct level as [|[|]]; intros [= <- _]].
  rewrite PX_eq by lia. assert (MAXVA = 256 * 2 ^ (12 + 9 * 2)) as HM by done.
  rewrite Z.mod_small; [apply Z.div_lt_upper_bound; lia|].
  split; [apply Z.div_pos; lia|]. apply Z.div_lt_upper_bound; lia.
Qed.

Lemma walk_loop_alloc h va root level a s T L :
  L_kmem ∉ h → 0 ≤ va < MAXVA → (level ≤ 2)%nat →
  vm_ok s T root L → T !! idxpath level va = Some a →
  ∃ r s' T' L', walk_loop level a va true h s = Ok r h s' ∧ vm_step root s T L s' T' L' ∧
    (length L ≤ length L' + level)%nat ∧
    ((r = 0 ∧ (length L < level)%nat ∧ L' = []) ∨
     ∃ b, T' !! idxpath 0 va = Some b ∧ r = pte_at b (PX 0 va)).
Proof.
  intros Hh Hva. revert a s T L. induction level as [|level IH]; intros a s T L Hlev Hok Ha.
  { exists (pte_at a (PX 0 va)), s, T, L. split_and!; [done|by apply vm_step_refl|lia|eauto]. }
  rewrite walk_loop_S. cbv zeta. set (i := PX (Z.of_nat (S level)) va).
  assert (0 ≤ i < 512) as Hi by (apply PX_range; lia).
  assert (length (idxpath (S level) va) < 2)%nat as Hlen by (rewrite length_idxpath; lia).
  destruct (T !! idxpath level va) as [b|] eqn:Hb.
  - destruct (walk_step (m_mem s) T root (idxpath (S level) va) a i b) as [-> ->];
      [by apply Hok|done..|by unfold i; rewrite idxpath_S by lia|].
    destruct (IH b s T L) as (r & s' & T' & L' & Hrun & Hs & Hlen' & Hr); [lia|done..|].
    exists r, s', T', L'. split_and!; [done..|lia|]. destruct Hr as [(? & ? & ?)|]; [left|by right].
    split_and!; [done|lia|done].
  - rewrite (walk_stop (m_mem s) T root (idxpath (S level) va) a i);
      [|by apply Hok|done..|by unfold i; rewrite idxpath_S by lia].
    simpl negb. cbn iota. destruct L as [|q L].
    + exists 0, s, T, []. split_and!;
        [|by apply vm_step_refl|simpl; lia|left; simpl; split_and!; [done|lia|done]].
      erewrite bind_Ok by (apply kalloc_empty; [done|apply Hok]). done.
    + assert (T !! (idxpath (S level) va ++ [i]) = None) as Hn
        by (unfold i; by rewrite idxpath_S by lia).
      pose proof (grow_step root s T q L (idxpath (S level) va) a i Hok Ha Hlen Hi Hn) as Hg.
      specialize (Hg ltac:(unfold i; rewrite idxpath_S by lia; eauto using idxpath_low)).
      destruct (IH q (grow s q a i) (<[idxpath (S level) va ++ [i] := q]> T) L)
        as (r & s' & T' & L' & Hrun & Hs & Hlen' & Hr);
        [lia|apply Hg|unfold i; rewrite idxpath_S by lia; by rewrite lookup_insert_eq|].
      exists r, s', T', L'. split_and!.
      * destruct Hok as (_ & Hf & _). erewrite bind_Ok by (by eapply kalloc_run).
        assert ((q =? 0) = false) as -> by (apply Z.eqb_neq; apply Hf).
        unfold kmemset, store_pte. rewrite !bind_modify. exact Hrun.
      * by eapply vm_step_trans.
      * simpl. lia.
      * destruct Hr as [(? & ? & ?)|]; [left; simpl; split_and!; [done|lia|done]|by right].
Qed.

Lemma walk_alloc h va root s T L :
  L_kmem ∉ h → 0 ≤ va < MAXVA → vm_ok s T root L →
  ∃ r s' T' L', walk root va true h s = Ok r h s' ∧ vm_step root s T L s' T' L' ∧
    (length L ≤ length L' + 2)%nat ∧
    ((r = 0 ∧ (length L < 2)%nat ∧ L' = []) ∨
     ∃ b, T' !! [PX 2 va; PX 1 va] = Some b ∧ r = pte_at b (PX 0 va)).
Proof.
  intros Hh Hva Hok. rewrite walk_below_MAXVA by done.
  destruct (walk_loop_alloc h va root 2 root s T L) as (r & s' & T' & L' & ?); [done..|apply Hok|].
  eauto 10.
Qed.

(** ** Writing a leaf PTE *)

Lemma PX_same_page va va' :
  0 ≤ va < MAXVA → 0 ≤ va' < MAXVA →
  (PX 2 va = PX 2 va' ∧ PX 1 va = PX 1 va' ∧ PX 0 va = PX 0 va') ↔ va / 4096 = va' / 4096.
Proof.
  unfold MAXVA. change (Z.shiftl 1 (9 + 9 + 9 + 12 - 1)) with (2 ^ 38).
  intros Hva Hva'. rewrite (PX_page va), (PX_page va') by lia.
  pose proof (PX_range 0 va). pose proof (PX_range 1 va). pose proof (PX_range 2 va).
  pose proof (PX_range 0 va'). pose proof (PX_range 1 va'). pose proof (PX_range 2 va').
  lia.
Qed.

Section SetLeaf.
Context (s : machine) (T : ptree) (root : Z) (L : list Z) (va b v : Z).
Context (Hok : vm_ok s T root L) (Hva : 0 ≤ va < MAXVA)
  (Hb : T !! [PX 2 va; PX 1 va] = Some b) (Hv : 0 ≤ v < 2 ^ 64).

Let s' := upd_mem (λ m, store64 m (pte_at b (PX 0 va)) v) s.

Lemma set_leaf_load p a i :
  T !! p = Some a → 0 ≤ i < 512 →
  load64 (m_mem s') (pte_at a i) =
  if decide (p = [PX 2 va; PX 1 va] ∧ i = PX 0 va) then v
  else load64 (m_mem s) (pte_at a i).
Proof.
  intros Ha Hi. destruct Hok as (Hpt & _). unfold s'; simpl.
  destruct (pt_addr _ _ _ Hpt p a Ha) as [[Hal _] _].
  destruct (pt_addr _ _ _ Hpt _ b Hb) as [[Hbl _] _].
  rewrite load64_store_pte by (done || apply PX_range; lia).
  destruct (decide (b = a ∧ PX 0 va = i)) as [[-> <-]|H1].
  - rewrite decide_True; [done|]. split; [|done]. by apply (pt_inj _ _ _ Hpt p _ a).
  - rewrite decide_False; [done|]. intros [-> ->]. apply H1. split; congruence.
Qed.

Lemma set_leaf_frame : steps_in (in_page b) s s'.
Proof. split; [done|]. apply frame_store64_page, PX_range. lia. Qed.

Lemma set_leaf_ok : vm_ok s' T root L.
Proof.
  destruct Hok as (Hpt & Hf & HT). split_and!; [|eapply free_inv_frame|done].
  - destruct Hpt as [H1 H2 H3 H4 H5 H6]. split; [done..| |done|done].
    intros p a i Ha Hl Hi. rewrite (set_leaf_load p) by done.
    rewrite decide_False; [by apply H4|]. intros [-> _]. simpl in Hl. lia.
  - apply set_leaf_frame.
  - intros q c Hq Hc. destruct (HT _ _ Hb) as [Hram Hin]. destruct Hf as (_ & _ & HR).
    rewrite Forall_forall in HR. apply (ram_page_disjoint s q b c); [auto..| |done].
    set_solver.
  - done.
Qed.

Lemma set_leaf_leaf va' :
  0 ≤ va' < MAXVA →
  leaf (m_mem s') T va' = if decide (va' / 4096 = va / 4096) then v else leaf (m_mem s) T va'.
Proof.
  intros Hva'. unfold leaf. pose proof (PX_same_page va' va Hva' Hva) as Hp.
  destruct (T !! [PX 2 va'; PX 1 va']) as [a|] eqn:Ha.
  - rewrite (set_leaf_load _ a) by (done || apply PX_range; lia).
    destruct (decide (va' / 4096 = va / 4096)) as [E|E].
    + apply Hp in E as (-> & -> & ->). by rewrite decide_True.
    + rewrite decide_False; [done|]. intros [[= E2 E1] E0]. apply E, Hp. done.
  - rewrite decide_False; [done|]. intros E. apply Hp in E as (E2 & E1 & _).
    rewrite E2, E1 in Ha. congruence.
Qed.
End SetLeaf.

(** ** mappages *)

(** The PTE [mappages] writes. *)
Definition leaf_pte (pa perm : Z) : Z := Z.lor (Z.lor (PA2PTE pa) perm) PTE_V.

Lemma perm_V perm : 0 ≤ perm < 1024 → 0 ≤ Z.lor perm PTE_V < 1024.
Proof.
  intros Hp. split; [apply Z.lor_nonneg; rewrite V_flag; lia|].
  destruct (Z.eq_dec (Z.lor perm PTE_V) 0) as [->|]; [lia|].
  change 1024 with (2 ^ 10). apply Z.log2_lt_pow2.
  - assert (0 ≤ Z.lor perm PTE_V) by (apply Z.lor_nonneg; rewrite V_flag; lia). lia.
  - rewrite Z.log2_lor by (rewrite ?V_flag; lia). apply Z.max_lub_lt; [|done].
    destruct (Z.eq_dec perm 0) as [->|]; [done|]. apply Z.log2_lt_pow2; lia.
Qed.

Lemma leaf_pte_eq pa perm : leaf_pte pa perm = Z.lor (PA2PTE pa) (Z.lor perm PTE_V).
Proof. unfold leaf_pte. by rewrite Z.lor_assoc. Qed.

Lemma leaf_pte_spec pa perm :
  page_addr pa → 0 ≤ perm < 1024 →
  0 ≤ leaf_pte pa perm < 2 ^ 64 ∧ PTE2PA (leaf_pte pa perm) = pa ∧
  PTE_FLAGS (leaf_pte pa perm) = Z.lor perm PTE_V ∧
  (∀ i, 0 ≤ i < 10 → has (leaf_pte pa perm) (Z.shiftl 1 i) = Z.testbit (Z.lor perm PTE_V) i).
Proof.
  intros Hpa Hperm. rewrite leaf_pte_eq. pose proof (perm_V perm Hperm).
  split_and!; [by apply make_pte_range..|by apply PTE2PA_make|by apply PTE_FLAGS_make|].
  intros. by apply has_make_pte.
Qed.

(** [n] pages mapped from [a] to [pa] on top of the translation [f]. *)
Definition mapped (f : Z → Z) (a n pa perm va : Z) : Z :=
  if decide (a ≤ va < a + n * 4096) then leaf_pte (pa + (va - a) / 4096 * 4096) perm else f va.

Lemma mapped_0 f a pa perm va : mapped f a 0 pa perm va = f va.
Proof. unfold mapped. rewrite decide_False by lia. done. Qed.

Lemma mapped_S f a n pa perm va :
  a mod 4096 = 0 → 0 ≤ n →
  mapped (λ va', if decide (va' / 4096 = a / 4096) then leaf_pte pa perm else f va')
    (a + 4096) n (pa + 4096) perm va = mapped f a (n + 1) pa perm va.
Proof.
  intros Ha Hn. unfold mapped. pose proof (Z.div_mod a 4096). pose proof (Z.div_mod va 4096).
  pose proof (Z.mod_pos_bound va 4096).
  replace (va - (a + 4096)) with (va - a + (-1) * 4096) by lia. rewrite Z.div_add by lia.
  repeat case_decide; try lia; try done; [f_equal; lia|].
  rewrite (Z.div_small (va - a)) by lia. f_equal. lia.
Qed.

(** One iteration of the loop: the state after it, and what is left to run. *)
Lemma mappages_iter h root perm fuel a last pa s T L :
  L_kmem ∉ h → 0 ≤ perm < 1024 → vm_ok s T root L → 0 ≤ a < MAXVA → page_addr pa →
  has (leaf (m_mem s) T a) PTE_V = false →
  ∃ s' T' L',
    vm_ok s' T' root L' ∧ ext T L T' L' ∧ steps_in (pt_bytes T L) s s' ∧
    (length L ≤ length L' + 2)%nat ∧
    ((mappages_loop fuel root a last pa perm h s = Ok (-1) h s' ∧
      (∀ va, leaf (m_mem s') T' va = leaf (m_mem s) T va) ∧ L' = [] ∧ (length L < 2)%nat) ∨
     (mappages_loop fuel root a last pa perm h s =
        (if a =? last then mret 0 else
         match fuel with
         | O => nofuel
         | S fuel => mappages_loop fuel root (u64 (a + PGSIZE)) last (u64 (pa + PGSIZE)) perm
         end) h s' ∧
      ∀ va, 0 ≤ va < MAXVA → leaf (m_mem s') T' va =
        if decide (va / 4096 = a / 4096) then leaf_pte pa perm else leaf (m_mem s) T va)).
Proof.
  intros Hh Hperm Hok Ha Hpa Hfree.
  destruct (walk_alloc h a root s T L Hh Ha Hok)
    as (r & s1 & T1 & L1 & Hrun & [Hok1 Hext Hleaf Hst] & Hlen & Hr).
  assert (∀ l, (r =? 0) = l → mappages_loop fuel root a last pa perm h s =
    (if l then mret (-1) else
     e ← load_pte r;
     if has e PTE_V then panic "mappages: remap" else
     store_pte r (leaf_pte pa perm);;
     if a =? last then mret 0 else
     match fuel with
     | O => nofuel
     | S fuel => mappages_loop fuel root (u64 (a + PGSIZE)) last (u64 (pa + PGSIZE)) perm
     end) h s1) as Hloop.
  { intros l <-. destruct fuel; cbn [mappages_loop]; by erewrite bind_Ok by exact Hrun. }
  destruct Hr as [(-> & HL & ->)|(b & Hb & ->)].
  - exists s1, T1, []. split_and!; [done..|]. left. by rewrite (Hloop true).
  - destruct (leaf_pte_spec pa perm Hpa Hperm) as (Hv & _).
    exists (upd_mem (λ m, store64 m (pte_at b (PX 0 a)) (leaf_pte pa perm)) s1), T1, L1.
    split_and!; [by apply set_leaf_ok|done| |done|right; split].
    + eapply steps_in_trans; [done|]. eapply steps_in_mono; [by eapply set_leaf_frame|].
      intros c Hc. eapply ext_bytes; [done|]. left. eauto.
    + rewrite (Hloop false) by (eapply pte_at_nonzero; [apply Hok1|done|apply PX_range; lia]).
      unfold load_pte. rewrite bind_gets.
      assert (load64 (m_mem s1) (pte_at b (PX 0 a)) = leaf (m_mem s) T a) as ->
        by (rewrite <- Hleaf; unfold leaf; by rewrite Hb).
      rewrite Hfree. unfold store_pte. rewrite bind_modify. done.
    + intros va Hva. rewrite <- Hleaf. by eapply set_leaf_leaf.
Qed.

Lemma mappages_loop_spec h root perm :
  L_kmem ∉ h → 0 ≤ perm < 1024 →
  ∀ k fuel a pa s T L,
  (k ≤ fuel)%nat → vm_ok s T root L → a mod 4096 = 0 → 0 ≤ a →
  a + Z.of_nat k * 4096 < MAXVA → page_addr pa → pa + Z.of_nat k * 4096 < 2 ^ 56 →
  (∀ va, a ≤ va < a + (Z.of_nat k + 1) * 4096 → has (leaf (m_mem s) T va) PTE_V = false) →
  ∃ r j s' T' L',
    mappages_loop fuel root a (a + Z.of_nat k * 4096) pa perm h s = Ok r h s' ∧
    vm_ok s' T' root L' ∧ ext T L T' L' ∧ steps_in (pt_bytes T L) s s' ∧
    (∀ va, 0 ≤ va < MAXVA →
       leaf (m_mem s') T' va = mapped (leaf (m_mem s) T) a j pa perm va) ∧
    (r = 0 ∧ j = Z.of_nat k + 1 ∧ (length L ≤ length L' + 2 * (k + 1))%nat ∨
     r = -1 ∧ 0 ≤ j ≤ Z.of_nat k ∧ L' = [] ∧ (length L < 2 * (k + 1))%nat).
Proof.
  intros Hh Hperm k. induction k as [|k IH];
    intros fuel a pa s T L Hfuel Hok Ha H0 Hmax Hpa Hpm Hfree.
  - rewrite Z.mul_0_l, Z.add_0_r in *.
    destruct (mappages_iter h root perm fuel a a pa s T L)
      as (s' & T' & L' & ? & ? & ? & ? & [(Hrun & Hl & -> & ?)|(Hrun & Hl)]);
      [done..|apply Hfree; lia| |].
    + exists (-1), 0, s', T', []. rewrite Hrun. split_and!; [done..| |right; split_and!; [done|lia|lia|done|lia]].
      intros va _. rewrite Hl. by rewrite mapped_0.
    + exists 0, 1, s', T', L'. rewrite Hrun, Z.eqb_refl. split_and!; [done..| |left; split_and!; [done|done|lia]].
      intros va Hva. rewrite (Hl va Hva). rewrite <- (mapped_S _ _ 0) by done. by rewrite mapped_0.
  - assert (MAXVA = 67108864 * 4096) as HM by done.
    assert (a + (Z.of_nat (S k) + 1) * 4096 ≤ MAXVA) as Hmax'
      by (pose proof (Z.div_mod a 4096); lia).
    destruct (mappages_iter h root perm fuel a (a + Z.of_nat (S k) * 4096) pa s T L)
      as (s1 & T1 & L1 & Hok1 & Hext1 & Hst1 & Hlen1 & [(Hrun & Hl & -> & ?)|(Hrun & Hl)]);
      [done..|lia|done|apply Hfree; lia| |].
    { exists (-1), 0, s1, T1, []. rewrite Hrun.
      split_and!; [done..| |right; split_and!; [done|lia|lia|done|lia]].
      intros va _. rewrite Hl. by rewrite mapped_0. }
    rewrite (proj2 (Z.eqb_neq _ _)) in Hrun by lia.
    destruct fuel as [|fuel]; [lia|]. unfold PGSIZE in Hrun.
    destruct Hpa as [Hpa1 Hpa2].
    rewrite !u64_small in Hrun by (change (2 ^ 64) with 18446744073709551616; lia).
    replace (a + Z.of_nat (S k) * 4096) with (a + 4096 + Z.of_nat k * 4096) in * by lia.
    assert (Hal : ∀ x, x mod 4096 = 0 → (x + 4096) mod 4096 = 0).
    { intros x Hx. rewrite Z.add_mod, Hx by lia. done. }
    destruct (IH fuel (a + 4096) (pa + 4096) s1 T1 L1)
      as (r & j & s' & T' & L' & Hrun' & Hok' & Hext' & Hst' & Hl' & Hr);
      [lia|done|auto|lia|lia|split; [auto|lia]|lia| |].
    { intros va Hva. rewrite Hl by lia. rewrite decide_False; [apply Hfree; lia|].
      pose proof (Z.div_mod a 4096). pose proof (Z.div_mod va 4096).
      pose proof (Z.mod_pos_bound va 4096). lia. }
    exists r, (j + 1), s', T', L'. rewrite Hrun.
    split_and!; [done|done|by eapply ext_trans| | |].
    + eapply steps_in_trans; [done|]. eapply steps_in_mono; [done|]. intros c. by apply ext_bytes.
    + intros va Hva. rewrite Hl' by done. rewrite <- mapped_S by (done || lia).
      unfold mapped. case_decide; [done|]. by rewrite Hl.
    + destruct Hr as [(-> & -> & ?)|(-> & ? & -> & ?)]; [left; lia|right; split_and!; [done|lia|lia|done|lia]].
Qed.

(** What a call that maps [n] pages from [a] to [pa] does: on success all are
    mapped; when memory runs out the pages before the failing one stay mapped.
    Every other translation is unchanged either way. *)
Definition map_post (h : list lockid) (root : Z) (s : machine) (T : ptree) (L : list Z)
    (a n pa perm : Z) (out : outcome machine Z) : Prop :=
  ∃ r j s' T' L', out = Ok r h s' ∧
    vm_ok s' T' root L' ∧ ext T L T' L' ∧ steps_in (pt_bytes T L) s s' ∧
    (∀ va, 0 ≤ va < MAXVA →
       leaf (m_mem s') T' va = mapped (leaf (m_mem s) T) a j pa perm va) ∧
    (r = 0 ∧ j = n ∧ Z.of_nat (length L) ≤ Z.of_nat (length L') + 2 * n ∨
     r = -1 ∧ 0 ≤ j < n ∧ L' = [] ∧ Z.of_nat (length L) < 2 * n).

Lemma mappages_spec h root s T L va size pa perm :
  L_kmem ∉ h → vm_ok s T root L → 0 ≤ va → 0 < size → va + size ≤ MAXVA →
  page_addr pa → pa + size + 4096 < 2 ^ 56 → 0 ≤ perm < 1024 →
  (∀ v, va / 4096 ≤ v / 4096 ≤ (va + size - 1) / 4096 →
     has (leaf (m_mem s) T v) PTE_V = false) →
  map_post h root s T L (va / 4096 * 4096)
    ((va + size - 1) / 4096 - va / 4096 + 1) pa perm (mappages root va size pa perm h s).
Proof.
  intros Hh Hok Hva Hsz Hmax Hpa Hpm Hperm Hfree.
  assert (MAXVA = 2 ^ 38) as HM by done.
  unfold mappages. rewrite (proj2 (Z.eqb_neq size 0)) by lia.
  rewrite u64_small by lia. rewrite !PGROUNDDOWN_eq.
  set (p := va / 4096) in *. set (q := (va + size - 1) / 4096) in *.
  assert (0 ≤ p ≤ q) as Hpq by (split; [apply Z.div_pos|apply Z.div_le_mono]; lia).
  pose proof (Z.div_mod va 4096) as Hva1. pose proof (Z.div_mod (va + size - 1) 4096) as Hva2.
  pose proof (Z.mod_pos_bound va 4096). pose proof (Z.mod_pos_bound (va + size - 1) 4096).
  fold p in Hva1. fold q in Hva2.
  destruct (mappages_loop_spec h root perm Hh Hperm (Z.to_nat (q - p))
    (mappages_fuel (p * 4096) (q * 4096)) (p * 4096) pa s T L)
    as (r & j & s' & T' & L' & Hrun & H1 & H2 & H3 & H4 & H5).
  - unfold mappages_fuel. rewrite (proj2 (Z.leb_le _ _)), Z.min_l by lia.
    unfold PGSIZE. rewrite <- Z.mul_sub_distr_r, Z.div_mul by lia. lia.
  - done.
  - by rewrite Z.mod_mul.
  - lia.
  - rewrite Z2Nat.id by lia. lia.
  - done.
  - rewrite Z2Nat.id by lia. lia.
  - intros v Hv. apply Hfree. rewrite Z2Nat.id in Hv by lia.
    pose proof (Z.div_mod v 4096). pose proof (Z.mod_pos_bound v 4096). lia.
  - rewrite Z2Nat.id in Hrun by lia.
    replace (p * 4096 + (q - p) * 4096) with (q * 4096) in Hrun by lia.
    exists r, j, s', T', L'. split_and!; [done..|].
    rewrite Z2Nat.id in H5 by lia.
    destruct H5 as [(-> & -> & ?)|(-> & ? & -> & ?)]; [left; lia|right; split_and!; [done|lia|lia|done|lia]].
Qed.

(** Mapping over a valid PTE panics. *)
Lemma mappages_remap h root s T L va size pa perm :
  L_kmem ∉ h → vm_ok s T root L → 0 ≤ va → 0 < size → va + size ≤ MAXVA →
  has (leaf (m_mem s) T (va / 4096 * 4096)) PTE_V = true →
  mappages root va size pa perm h s = Panic "mappages: remap".
Proof.
  intros Hh Hok Hva Hsz Hmax Hleaf. unfold mappages.
  rewrite (proj2 (Z.eqb_neq size 0)) by lia. rewrite !PGROUNDDOWN_eq.
  set (a := va / 4096 * 4096) in *.
  assert (0 ≤ a < MAXVA) as Ha.
  { pose proof (Z.div_mod va 4096). pose proof (Z.mod_pos_bound va 4096).
    pose proof (Z.div_pos va 4096). lia. }
  unfold leaf in Hleaf. destruct (T !! [PX 2 a; PX 1 a]) as [b|] eqn:Hb; [|done].
  assert (walk root a true h s = Ok (pte_at b (PX 0 a)) h s) as Hw
    by (eapply walk_found; [apply Hok|done..]).
  destruct (mappages_fuel _ _); cbn [mappages_loop]; erewrite bind_Ok by exact Hw;
    rewrite (pte_at_nonzero T (m_mem s) root _ b) by (apply Hok || done || apply PX_range; lia);
    unfold load_pte; rewrite bind_gets; by rewrite Hleaf.
Qed.

(** ** Writes to other pages *)

(** Memory changes outside the table pages change neither the tree nor any
    translation. *)
Lemma pt_frame (P : Z → Prop) m1 m2 T root :
  pt_ok m1 T root → frame P m1 m2 → (∀ p a b, T !! p = Some a → in_page a b → ¬ P b) →
  pt_ok m2 T root ∧ ∀ va, leaf m2 T va = leaf m1 T va.
Proof.
  intros Hpt HF HP.
  assert (∀ p a i, T !! p = Some a → 0 ≤ i < 512 →
    load64 m2 (pte_at a i) = load64 m1 (pte_at a i)) as Hload.
  { intros p a i Ha Hi. eapply frame_load64; [done|]. intros b Hb.
    eapply HP; [done|]. by eapply pte_in_page. }
  split.
  - destruct Hpt as [H1 H2 H3 H4 H5 H6]. split; [done..| |done|done].
    intros p a i Ha Hl Hi. rewrite (Hload p) by done. by apply H4.
  - intros va. unfold leaf. destruct (T !! _) as [a|] eqn:Ha; [|done].
    apply (Hload _ _ _ Ha), PX_range. lia.
Qed.

Lemma vm_ok_frame P s T root L m2 :
  vm_ok s T root L → frame P (m_mem s) m2 → (∀ b, pt_bytes T L b → ¬ P b) →
  vm_ok (set_mem m2 s) T root L ∧ ∀ va, leaf m2 T va = leaf (m_mem s) T va.
Proof.
  intros (Hpt & Hf & HT) HF HP.
  destruct (pt_frame P (m_mem s) m2 T root Hpt HF) as [Hpt' Hl].
  { intros p a b Ha Hb. apply HP. left. eauto. }
  split; [split_and!|]; [done| |done|done].
  eapply free_inv_frame; [done| |done]. intros p a Hp Ha. apply HP. right. eauto.
Qed.

(** ** A fresh page table *)

Definition uvmcreate_post (s : machine) (root : Z) : machine :=
  upd_mem (λ m, memset m root 0 PGSIZE) (kalloc_post s root).

Lemma uvmcreate_run h s root L :
  L_kmem ∉ h → free_inv s (root :: L) → uvmcreate h s = Ok root h (uvmcreate_post s root).
Proof.
  intros Hh Hf. unfold uvmcreate. erewrite bind_Ok by by eapply kalloc_run.
  assert ((root =? 0) = false) as -> by (apply Z.eqb_neq; apply Hf). done.
Qed.

Lemma uvmcreate_ok s root L :
  free_inv s (root :: L) →
  vm_ok (uvmcreate_post s root) {[ [] := root ]} root L ∧
  steps_in (in_page root) s (uvmcreate_post s root).
Proof.
  intros Hf. destruct (kalloc_post_inv s root L Hf) as [Hf' Hst].
  destruct Hf as (_ & HN & HR). apply NoDup_cons in HN as [Hin HN].
  apply Forall_cons in HR as [Hroot HR].
  split; [split_and!|].
  - split.
    + apply lookup_singleton_eq.
    + intros p a [<- <-]%lookup_singleton_Some. split; [by eapply ram_page_addr|simpl; lia].
    + intros p i [a [E _]%lookup_singleton_Some]. by destruct p.
    + intros p a i [<- <-]%lookup_singleton_Some _ Hi.
      rewrite lookup_singleton_ne by done. simpl. by rewrite load64_zeroed.
    + by intros p q a [<- _]%lookup_singleton_Some [<- _]%lookup_singleton_Some.
    + by intros i p [a [? _]%lookup_singleton_Some].
  - eapply free_inv_frame; [apply frame_memset_page| |done].
    intros p a Hp. rewrite Forall_forall in HR.
    apply (ram_page_disjoint s); [by apply HR|done|set_solver].
  - intros p a [_ <-]%lookup_singleton_Some. split; [exact Hroot|done].
  - eapply steps_in_trans; [exact Hst|]. apply steps_in_upd, frame_memset_page.
Qed.

Lemma uvmcreate_leaf m root va : leaf m {[ [] := root ]} va = 0.
Proof. unfold leaf. by rewrite lookup_singleton_ne. Qed.

(** ** Sample page tables *)

Definition sample_root : Z := PHYSTOP - PGSIZE.
Definition sample_fresh : machine := uvmcreate_post (booted 8) sample_root.
Definition sample_mapped : machine :=
  final sample_fresh (mappages sample_root 8192 8192 KERNBASE (Z.lor PTE_R PTE_U) [] sample_fresh).

Lemma sample_fresh_ok :
  vm_ok sample_fresh {[ [] := sample_root ]} sample_root (tail (booted_pages 8)).
Proof. apply uvmcreate_ok. exact booted_free. Qed.

(** ** Properties *)

(** C20: [mappages] maps every page of the range to the next physical page with
    the given permissions and leaves every other translation alone.  It fails
    only when the allocator runs out of pages for tables; the pages before the
    failing one then stay mapped.  It writes only tables and free pages. *)
Theorem mappages_correct h root s T L va size pa perm :
  L_kmem ∉ h → vm_ok s T root L → 0 ≤ va → 0 < size → va + size ≤ MAXVA →
  page_addr pa → pa + size + 4096 < 2 ^ 56 → 0 ≤ perm < 1024 →
  (∀ v, va / 4096 ≤ v / 4096 ≤ (va + size - 1) / 4096 →
     has (leaf (m_mem s) T v) PTE_V = false) →
  map_post h root s T L (va / 4096 * 4096)
    ((va + size - 1) / 4096 - va / 4096 + 1) pa perm (mappages root va size pa perm h s).
Proof. apply mappages_spec. Qed.

Lemma mappages_correct_witness :
  map_post [] sample_root sample_fresh {[ [] := sample_root ]} (tail (booted_pages 8))
    (8192 / 4096 * 4096) ((8192 + 8192 - 1) / 4096 - 8192 / 4096 + 1) KERNBASE (Z.lor PTE_R PTE_U)
    (mappages sample_root 8192 8192 KERNBASE (Z.lor PTE_R PTE_U) [] sample_fresh).
Proof.
  refine (mappages_correct [] sample_root sample_fresh _ _ 8192 8192 KERNBASE _
    (not_elem_of_nil _) sample_fresh_ok _ _ _ _ _ _ _); [done..|].
  intros v _. by rewrite uvmcreate_leaf.
Defined.

(** After a successful [mappages] with user permission, [walkaddr] finds for
    every address of the range the physical page it was mapped to, and answers as
    before for every other page. *)
Theorem mappages_walkaddr h root s T L va size pa perm s' v :
  L_kmem ∉ h → vm_ok s T root L → 0 ≤ va → 0 < size → va + size ≤ MAXVA →
  page_addr pa → pa + size + 4096 < 2 ^ 56 → 0 ≤ perm < 1024 → Z.testbit perm 4 = true →
  (∀ v, va / 4096 ≤ v / 4096 ≤ (va + size - 1) / 4096 →
     has (leaf (m_mem s) T v) PTE_V = false) →
  mappages root va size pa perm h s = Ok 0 h s' → 0 ≤ v < MAXVA →
  walkaddr root v h s' =
  if decide (va / 4096 ≤ v / 4096 ≤ (va + size - 1) / 4096)
  then Ok (pa + (v / 4096 - va / 4096) * 4096) h s'
  else Ok (user_pa (leaf (m_mem s) T v)) h s'.
Proof.
  intros Hh Hok Hva Hsz Hmax Hpa Hpm Hperm HU Hfree Hrun Hv.
  destruct (mappages_spec h root s T L va size pa perm)
    as (r & j & s1 & T' & L' & Hrun' & Hok' & _ & _ & Hl & Hr); try done.
  rewrite Hrun in Hrun'. injection Hrun' as <- <-. destruct Hr as [(_ & -> & _)|[? _]]; [|done].
  erewrite walkaddr_spec by (apply Hok' || done). rewrite Hl by done. unfold mapped.
  pose proof (Z.div_mod v 4096). pose proof (Z.mod_pos_bound v 4096).
  pose proof (Z.div_mod va 4096). pose proof (Z.mod_pos_bound va 4096).
  set (p := va / 4096) in *. set (q := (va + size - 1) / 4096) in *.
  assert (0 ≤ p ≤ q) as Hpq by (split; [apply Z.div_pos|apply Z.div_le_mono]; lia).
  repeat case_decide; try lia; [|done].
  assert ((v - p * 4096) / 4096 = v / 4096 - p) as ->.
  { replace (v - p * 4096) with (v + (- p) * 4096) by lia. rewrite Z.div_add by lia. lia. }
  set (e := leaf_pte _ perm).
  assert (page_addr (pa + (v / 4096 - p) * 4096)) as Hpa'.
  { destruct Hpa as [Hal Hr']. split.
    - unfold PGSIZE in *. rewrite Z.mod_add by lia. done.
    - pose proof (Z.div_mod (va + size - 1) 4096) as Hdm. fold q in Hdm.
      pose proof (Z.mod_pos_bound (va + size - 1) 4096). lia. }
  destruct (leaf_pte_spec _ perm Hpa' Hperm) as (_ & Hpte & _ & Hhas).
  f_equal. unfold user_pa. fold e in Hpte, Hhas. rewrite Hpte.
  change PTE_V with (Z.shiftl 1 0) at 1. change PTE_U with (Z.shiftl 1 4).
  rewrite !Hhas, !Z.lor_spec, HU by lia. change (Z.testbit PTE_V 0) with true.
  by rewrite orb_true_r.
Qed.

Lemma mappages_walkaddr_witness :
  walkaddr sample_root 12288 [] sample_mapped = Ok (KERNBASE + 4096) [] sample_mapped.
Proof.
  refine (mappages_walkaddr [] sample_root sample_fresh _ _ 8192 8192 KERNBASE
    (Z.lor PTE_R PTE_U) sample_mapped 12288 (not_elem_of_nil _) sample_fresh_ok
    _ _ _ _ _ _ _ _ _ _); [done..| | |done].
  - intros v _. by rewrite uvmcreate_leaf.
  - apply returns_final. vm_compute. done.
Defined.

(** [mappages] never overwrites a valid translation: it panics. *)
Theorem mappages_no_remap h root s T L va size pa perm :
  L_kmem ∉ h → vm_ok s T root L → 0 ≤ va → 0 < size → va + size ≤ MAXVA →
  has (leaf (m_mem s) T (va / 4096 * 4096)) PTE_V = true →
  mappages root va size pa perm h s = Panic "mappages: remap".
Proof. apply mappages_remap. Qed.

Lemma mappages_no_remap_witness :
  mappages sample_root 8192 1 KERNBASE PTE_R [] sample_mapped = Panic "mappages: remap".
Proof.
  destruct (mappages_spec [] sample_root sample_fresh _ _ 8192 8192 KERNBASE (Z.lor PTE_R PTE_U)
    (not_elem_of_nil _) sample_fresh_ok)
    as (r & j & s' & T & L & Hrun & Hok & _ & _ & Hl & Hr); [done..| |].
  { intros v _. by rewrite uvmcreate_leaf. }
  assert (mappages sample_root 8192 8192 KERNBASE (Z.lor PTE_R PTE_U) [] sample_fresh
          = Ok 0 [] sample_mapped) as Hrun' by (apply returns_final; vm_compute; done).
  rewrite Hrun' in Hrun. apply Ok_inj in Hrun as (<- & _ & <-). destruct Hr as [(_ & -> & _)|[Hr _]]; [|discriminate Hr].
  clear Hrun'.
  eapply (mappages_no_remap [] sample_root sample_mapped T L);
    [by apply not_elem_of_nil|done..|].
  rewrite Hl by done. clear. vm_compute. done.
Defined.
