(* ===== verification/AddrSpace.v ===== *)
(** * User address spaces (kernel/vm.c): uvmunmap, uvmalloc, uvmdealloc, uvmcopy

    A process owns the pages mapped in the first [n] pages of its address space.
    [space] is the invariant that makes the page-table operations safe: the
    first [n] pages are mapped, to distinct managed pages that are neither free
    nor tables, and nothing is mapped between them and the trapframe. *)

From S2P Require Import Prelude CString Riscv Kalloc Vm PageTable.

(** The physical pages behind [k] virtual pages from [a]. *)
Fixpoint pas (f : Z → Z) (a : Z) (k : nat) : list Z :=
  match k with
  | O => []
  | S k => PTE2PA (f a) :: pas f (a + 4096) k
  end.

Lemma elem_of_pas f a k q :
  q ∈ pas f a k ↔ ∃ i, 0 ≤ i < Z.of_nat k ∧ q = PTE2PA (f (a + i * 4096)).
Proof.
  revert a. induction k as [|k IH]; intros a; simpl.
  { split; [set_solver|]. intros (? & ? & _). lia. }
  rewrite elem_of_cons, IH. split.
  - intros [->|(i & Hi & ->)].
    + exists 0. rewrite Z.mul_0_l, Z.add_0_r. split; [lia|done].
    + exists (i + 1). split; [lia|]. do 2 f_equal. lia.
  - intros (i & Hi & ->). destruct (decide (i = 0)) as [->|].
    + left. by rewrite Z.mul_0_l, Z.add_0_r.
    + right. exists (i - 1). split; [lia|]. do 2 f_equal. lia.
Qed.

Lemma lookup_pas f a k i :
  (i < k)%nat → pas f a k !! i = Some (PTE2PA (f (a + Z.of_nat i * 4096))).
Proof.
  revert a i. induction k as [|k IH]; intros a [|i] Hi; simpl; try lia.
  - by rewrite Z.add_0_r.
  - rewrite IH by lia. do 3 f_equal. lia.
Qed.

Lemma pas_ext f g a k :
  (∀ i, 0 ≤ i < Z.of_nat k → f (a + i * 4096) = g (a + i * 4096)) → pas f a k = pas g a k.
Proof.
  revert a. induction k as [|k IH]; intros a H; simpl; [done|]. f_equal.
  - f_equal. specialize (H 0 ltac:(lia)). by rewrite Z.mul_0_l, Z.add_0_r in H.
  - apply IH. intros i Hi. specialize (H (i + 1) ltac:(lia)).
    by replace (a + 4096 + i * 4096) with (a + (i + 1) * 4096) by lia.
Qed.

Lemma pas_app f a k1 k2 :
  pas f a (k1 + k2) = pas f a k1 ++ pas f (a + Z.of_nat k1 * 4096) k2.
Proof.
  revert a. induction k1 as [|k IH]; intros a; simpl; [f_equal; lia|].
  f_equal. rewrite IH. do 2 f_equal. lia.
Qed.

(** ** The allocator under a page table *)

Lemma kfree_vm s T root L p :
  vm_ok s T root L → ram_page s p → p ∉ L → (∀ q, T !! q ≠ Some p) →
  vm_ok (kfree_post s p) T root (p :: L) ∧
  (∀ va, leaf (m_mem (kfree_post s p)) T va = leaf (m_mem s) T va) ∧
  steps_in (in_page p) s (kfree_post s p).
Proof.
  intros (Hpt & Hf & HT) Hp HL Hq. destruct (kfree_post_inv s p L Hf Hp HL) as [Hf' Hst].
  destruct (pt_frame (in_page p) (m_mem s) (m_mem (kfree_post s p)) T root Hpt)
    as [Hpt' Hl]; [apply Hst| |].
  { intros q a b Ha Hb. apply (ram_page_disjoint s a); [by apply (HT q)|done| |done].
    intros ->. by eapply Hq. }
  split; [split; [done|split; [done|]]|done]. intros q a Ha. destruct (HT q a Ha). split; [done|].
  intros [->|]%elem_of_cons; [by eapply Hq|done].
Qed.

Lemma kalloc_vm s T root L p :
  vm_ok s T root (p :: L) →
  vm_ok (kalloc_post s p) T root L ∧
  (∀ va, leaf (m_mem (kalloc_post s p)) T va = leaf (m_mem s) T va) ∧
  steps_in (in_page p) s (kalloc_post s p) ∧
  ram_page s p ∧ (p ∉ L) ∧ (∀ q, T !! q ≠ Some p).
Proof.
  intros (Hpt & Hf & HT). destruct (kalloc_post_inv s p L Hf) as [Hf' Hst].
  destruct Hf as (_ & HN & HR). apply NoDup_cons in HN as [Hin _].
  apply Forall_cons in HR as [Hp _].
  assert (∀ q, T !! q ≠ Some p) as Hq by (intros q Hq; destruct (HT q p Hq); set_solver).
  destruct (pt_frame (in_page p) (m_mem s) (m_mem (kalloc_post s p)) T root Hpt)
    as [Hpt' Hl]; [apply Hst| |].
  { intros q a b Ha Hb. apply (ram_page_disjoint s a); [by apply (HT q)|done| |done].
    intros ->. by eapply Hq. }
  split; [split; [done|split; [done|]]|done]. intros q a Ha. destruct (HT q a Ha). set_solver.
Qed.

(** The same when the page has been filled in the meantime. *)
Lemma filled_vm s T root L q m2 :
  vm_ok s T root (q :: L) → frame (in_page q) (m_mem s) m2 →
  vm_ok (Machine (m_end s) m2 (load64 (m_mem s) q)) T root L ∧
  ∀ va, leaf m2 T va = leaf (m_mem s) T va.
Proof.
  intros Hvm Hm2. destruct (kalloc_vm s T root L q Hvm) as (_ & _ & _ & Hq & HL & HT).
  destruct Hvm as (Hpt & ((_ & _ & HC) & HN & HR) & HTr).
  apply NoDup_cons in HN as [_ HN]. apply Forall_cons in HR as [_ HR].
  assert (∀ p, ram_page s p → p ≠ q → ∀ b, in_page p b → ¬ in_page q b) as Hdis.
  { intros p Hp Hpq b. by apply (ram_page_disjoint s). }
  destruct (pt_frame (in_page q) (m_mem s) m2 T root Hpt Hm2) as [Hpt2 Hl2].
  { intros p a b Ha. apply Hdis; [by apply (HTr p)|]. intros ->. by eapply HT. }
  split; [|done]. split; [done|]. split.
  - split_and!; [|done|done]. simpl. eapply chain_frame; [exact Hm2| |done].
    intros p b Hp. rewrite Forall_forall in HR. apply Hdis; [by apply HR|]. intros ->. done.
  - intros p a Ha. destruct (HTr p a Ha). split; [done|]. set_solver.
Qed.

(** ** uvmunmap *)

(** What [uvmunmap] may hand back to the allocator. *)
Definition freeable (s : machine) (T : ptree) (L D : list Z) : Prop :=
  NoDup (D ++ L) ∧ Forall (ram_page s) D ∧ ∀ q d, T !! q = Some d → d ∉ D.

Definition table_bytes (T : ptree) (b : Z) : Prop := ∃ p a, T !! p = Some a ∧ in_page a b.
Definition page_bytes (D : list Z) (b : Z) : Prop := ∃ q, q ∈ D ∧ in_page q b.

(** A PTE that [uvmunmap] accepts: valid, and a leaf. *)
Definition is_leaf (e : Z) : Prop := has e PTE_V = true ∧ PTE_FLAGS e ≠ PTE_V.

Definition unmapped_range (f : Z → Z) (a k va : Z) : Z :=
  if decide (a ≤ va < a + k * 4096) then 0 else f va.

Lemma walk_leaf s T root a h :
  pt_ok (m_mem s) T root → 0 ≤ a < MAXVA → has (leaf (m_mem s) T a) PTE_V = true →
  ∃ b, T !! [PX 2 a; PX 1 a] = Some b ∧ leaf (m_mem s) T a = load64 (m_mem s) (pte_at b (PX 0 a)) ∧
    walk root a false h s = Ok (pte_at b (PX 0 a)) h s ∧ (pte_at b (PX 0 a) =? 0) = false.
Proof.
  intros Hok Ha HV. unfold leaf in *. destruct (T !! [PX 2 a; PX 1 a]) as [b|] eqn:Hb; [|done].
  exists b. split_and!; [done..| |].
  - by eapply walk_found.
  - eapply pte_at_nonzero; [done..|]. apply PX_range. lia.
Qed.

Lemma freeable_end s s' T L D : m_end s' = m_end s → freeable s T L D → freeable s' T L D.
Proof.
  intros He (H1 & H2 & H3). split_and!; [done| |done]. eapply Forall_impl; [done|].
  intros q. unfold ram_page. by rewrite He.
Qed.

Lemma freeable_perm s T L D D' : D ≡ₚ D' → freeable s T L D → freeable s T L D'.
Proof.
  intros E (H1 & H2 & H3). split; [by rewrite <- E|]. split; [by rewrite <- E|].
  intros q d Hq. rewrite <- E. by eapply H3.
Qed.

Lemma freeable_cons s T L D p :
  freeable s T L (p :: D) →
  ram_page s p ∧ (p ∉ L) ∧ (∀ q, T !! q ≠ Some p) ∧ freeable (kfree_post s p) T (p :: L) D.
Proof.
  intros (HN & HR & HT). simpl in HN. apply NoDup_cons in HN as [Hin HN].
  apply Forall_cons in HR as [Hp HR]. split; [done|]. split_and!.
  - set_solver.
  - intros q Hq. specialize (HT q p Hq). set_solver.
  - split_and!; [by rewrite <- (Permutation_middle D L p); constructor|done|].
    intros q d Hq. specialize (HT q d Hq). set_solver.
Qed.

(** One iteration: the page is freed if asked for, and its PTE cleared. *)
Lemma uvmunmap_iter h root fuel a bound do_free s T L (p := PTE2PA (leaf (m_mem s) T a)) :
  L_kmem ∉ h → vm_ok s T root L → 0 ≤ a < MAXVA → a < bound → is_leaf (leaf (m_mem s) T a) →
  (do_free = true → ram_page s p ∧ (p ∉ L) ∧ ∀ q, T !! q ≠ Some p) →
  ∃ s', uvmunmap_loop fuel root a bound do_free h s =
      match fuel with
      | O => nofuel
      | S fuel => uvmunmap_loop fuel root (u64 (a + PGSIZE)) bound do_free
      end h s' ∧
    vm_ok s' T root (if do_free then p :: L else L) ∧
    (∀ va, 0 ≤ va < MAXVA → leaf (m_mem s') T va =
       if decide (va / 4096 = a / 4096) then 0 else leaf (m_mem s) T va) ∧
    steps_in (λ b, table_bytes T b ∨ do_free = true ∧ in_page p b) s s'.
Proof.
  intros Hh Hok Ha Hb [HV HF] Hfree.
  destruct (walk_leaf s T root a h (proj1 Hok) Ha HV) as (b & Hb1 & Hl & Hw & Hnz).
  set (s1 := if do_free then kfree_post s p else s).
  assert (vm_ok s1 T root (if do_free then p :: L else L) ∧
    (∀ va, leaf (m_mem s1) T va = leaf (m_mem s) T va) ∧
    steps_in (λ b, table_bytes T b ∨ do_free = true ∧ in_page p b) s s1 ∧
    when do_free (kfree p) h s = Ok tt h s1) as (Hok1 & Hleaf1 & Hst1 & Hrun1).
  { unfold s1. destruct do_free; [|split_and!; auto using steps_in_refl; apply Hok].
    destruct (Hfree eq_refl) as (Hp & HL & Hq).
    destruct (kfree_vm s T root L p Hok Hp HL Hq) as (H1 & H2 & H3).
    split; [done|]. split; [done|]. split; [|by apply kfree_run].
    eapply steps_in_mono; [done|]. auto. }
  exists (upd_mem (λ m, store64 m (pte_at b (PX 0 a)) 0) s1).
  split; [|split; [by apply (set_leaf_ok s1 T root _ a b 0)|split]].
  - destruct fuel; cbn [uvmunmap_loop]; rewrite (proj2 (Z.ltb_lt _ _)) by lia; cbn iota;
      erewrite bind_Ok by exact Hw; rewrite Hnz; unfold load_pte; rewrite bind_gets;
      rewrite <- Hl, HV, (proj2 (Z.eqb_neq _ _)) by done; cbn [negb];
      erewrite bind_Ok by exact Hrun1; unfold store_pte; by rewrite bind_modify.
  - intros va Hva. erewrite set_leaf_leaf by done. by rewrite Hleaf1.
  - eapply steps_in_trans; [exact Hst1|]. eapply steps_in_mono; [by eapply set_leaf_frame|].
    intros c Hc. left. exists [PX 2 a; PX 1 a], b. done.
Qed.

Lemma uvmunmap_loop_spec h root (do_free : bool) :
  L_kmem ∉ h →
  ∀ (k fuel : nat) a (s : machine) (T : ptree) (L : list Z)
    (D := if do_free then pas (leaf (m_mem s) T) a k else []),
  (k ≤ fuel)%nat → vm_ok s T root L → a mod 4096 = 0 → 0 ≤ a →
  a + Z.of_nat k * 4096 ≤ MAXVA →
  (∀ i, 0 ≤ i < Z.of_nat k → is_leaf (leaf (m_mem s) T (a + i * 4096))) →
  freeable s T L D →
  ∃ s', uvmunmap_loop fuel root a (a + Z.of_nat k * 4096) do_free h s = Ok tt h s' ∧
    vm_ok s' T root (reverse D ++ L) ∧
    (∀ va, 0 ≤ va < MAXVA →
       leaf (m_mem s') T va = unmapped_range (leaf (m_mem s) T) a (Z.of_nat k) va) ∧
    steps_in (λ b, table_bytes T b ∨ page_bytes D b) s s'.
Proof.
  intros Hh. assert (MAXVA = 67108864 * 4096) as HM by done.
  induction k as [|k IH]; intros fuel a s T L D Hfuel Hok Ha H0 Hmax Hleaf HD.
  { exists s. assert (D = []) as -> by (unfold D; by destruct do_free). split.
    { destruct fuel; cbn [uvmunmap_loop]; by rewrite (proj2 (Z.ltb_ge _ _)) by lia. }
    split; [done|]. split; [|apply steps_in_refl].
    intros va Hva. unfold unmapped_range. by rewrite decide_False by lia. }
  pose proof (Hleaf 0 ltac:(lia)) as Hl0. rewrite Z.mul_0_l, Z.add_0_r in Hl0.
  destruct (uvmunmap_iter h root fuel a (a + Z.of_nat (S k) * 4096) do_free s T L)
    as (s1 & Hrun1 & Hok1 & Hleaf1 & Hst1); [done|done|lia|lia|done| |].
  { intros ->. unfold D in HD. simpl in HD. by apply freeable_cons in HD as (? & ? & ? & _). }
  set (p := PTE2PA (leaf (m_mem s) T a)) in *.
  set (D1 := if do_free then pas (leaf (m_mem s) T) (a + 4096) k else []).
  assert (Hd : ∀ va, a + 4096 ≤ va → va / 4096 ≠ a / 4096).
  { intros va Hva. pose proof (Z.div_mod va 4096). pose proof (Z.mod_pos_bound va 4096).
    pose proof (Z.div_mod a 4096). lia. }
  assert (D1 = if do_free then pas (leaf (m_mem s1) T) (a + 4096) k else []) as HD1.
  { unfold D1. destruct do_free; [|done]. apply pas_ext. intros i Hi.
    rewrite Hleaf1 by lia. by rewrite decide_False by (apply Hd; lia). }
  destruct fuel as [|fuel]; [lia|].
  destruct (IH fuel (a + 4096) s1 T (if do_free then p :: L else L))
    as (s' & Hrun & Hok' & Hleaf' & Hst'); [lia|done| |lia|lia| | |].
  { rewrite Z.add_mod, Ha by lia. done. }
  { intros i Hi. rewrite Hleaf1 by lia. rewrite decide_False by (apply Hd; lia).
    specialize (Hleaf (i + 1) ltac:(lia)).
    by replace (a + 4096 + i * 4096) with (a + (i + 1) * 4096) by lia. }
  { rewrite <- HD1. eapply (freeable_end s); [apply Hst1|]. unfold D, D1 in *.
    destruct do_free; [|exact HD]. simpl in HD. by apply freeable_cons in HD as (_ & _ & _ & HD). }
  rewrite <- HD1 in *. exists s'. split_and!.
  - rewrite Hrun1. unfold PGSIZE.
    rewrite u64_small by (change (2 ^ 64) with 18446744073709551616; lia).
    rewrite <- Hrun. f_equal. lia.
  - unfold D, D1 in *. destruct do_free; [|done]. simpl. by rewrite reverse_cons, <- app_assoc.
  - intros va Hva. rewrite Hleaf' by done. unfold unmapped_range. rewrite Hleaf1 by done.
    pose proof (Hd va). pose proof (Z.div_mod va 4096). pose proof (Z.mod_pos_bound va 4096).
    pose proof (Z.div_mod a 4096). repeat case_decide; try lia; done.
  - eapply steps_in_trans; (eapply steps_in_mono; [done|]); simpl.
    + intros c [Hc|[-> Hc]]; [by left|right]. exists p. split; [|done]. unfold D. simpl. by left.
    + intros c [Hc|(q & Hq & Hc)]; [by left|right]. exists q. split; [|done].
      unfold D, D1 in *. destruct do_free; [|done]. simpl. by right.
Qed.

Lemma uvmunmap_spec h root s T L va npages (do_free : bool)
    (D := if do_free then pas (leaf (m_mem s) T) va (Z.to_nat npages) else []) :
  L_kmem ∉ h → vm_ok s T root L → va mod 4096 = 0 → 0 ≤ va → 0 ≤ npages →
  va + npages * 4096 ≤ MAXVA →
  (∀ i, 0 ≤ i < npages → is_leaf (leaf (m_mem s) T (va + i * 4096))) →
  freeable s T L D →
  ∃ s', uvmunmap root va npages do_free h s = Ok tt h s' ∧
    vm_ok s' T root (reverse D ++ L) ∧
    (∀ v, 0 ≤ v < MAXVA → leaf (m_mem s') T v = unmapped_range (leaf (m_mem s) T) va npages v) ∧
    steps_in (λ b, table_bytes T b ∨ page_bytes D b) s s'.
Proof.
  intros Hh Hok Hva H0 Hn Hmax Hleaf HD. assert (MAXVA = 67108864 * 4096) as HM by done.
  unfold uvmunmap. change PGSIZE with 4096. rewrite Hva. cbn [negb Z.eqb].
  rewrite !u64_small by (rewrite ?u64_small; change (2 ^ 64) with 18446744073709551616; lia).
  destruct (uvmunmap_loop_spec h root do_free Hh (Z.to_nat npages) (page_fuel va (va + npages * 4096)) va s T L)
    as (s' & Hrun & Hrest); try done; rewrite ?Z2Nat.id by lia; try done.
  - unfold page_fuel. rewrite Z.min_l by lia. change PGSIZE with 4096.
    replace (va + npages * 4096 - va) with (npages * 4096) by lia. rewrite Z.div_mul by lia. lia.
  - rewrite Z2Nat.id in Hrun, Hrest by lia. exists s'. done.
Qed.

(** ** The invariant of an address space *)

Record space (s : machine) (T : ptree) (root : Z) (L : list Z) (n : Z) : Prop := {
  sp_vm : vm_ok s T root L;
  sp_size : 0 ≤ n ≤ TRAPFRAME / 4096;
  sp_leaf : ∀ i, 0 ≤ i < n → is_leaf (leaf (m_mem s) T (i * 4096));
  sp_pages : freeable s T L (pas (leaf (m_mem s) T) 0 (Z.to_nat n));
  sp_above : ∀ va, n * 4096 ≤ va < TRAPFRAME → has (leaf (m_mem s) T va) PTE_V = false;
}.

(** Giving back the last pages. *)
Lemma space_shrink h s T root L n n' (D := pas (leaf (m_mem s) T) (n' * 4096) (Z.to_nat (n - n'))) :
  L_kmem ∉ h → space s T root L n → 0 ≤ n' ≤ n →
  ∃ s', uvmunmap root (n' * 4096) (n - n') true h s = Ok tt h s' ∧
    space s' T root (reverse D ++ L) n' ∧
    (∀ v, 0 ≤ v < MAXVA → v < n' * 4096 ∨ n * 4096 ≤ v → leaf (m_mem s') T v = leaf (m_mem s) T v) ∧
    steps_in (λ b, table_bytes T b ∨ page_bytes D b) s s'.
Proof.
  intros Hh [Hvm Hsz Hleaf HD Hab] Hn.
  assert (TRAPFRAME / 4096 * 4096 = TRAPFRAME ∧ TRAPFRAME < MAXVA) as [HT HM] by done.
  assert (pas (leaf (m_mem s) T) 0 (Z.to_nat n) = pas (leaf (m_mem s) T) 0 (Z.to_nat n') ++ D) as Hsplit.
  { replace (Z.to_nat n) with (Z.to_nat n' + Z.to_nat (n - n'))%nat by lia.
    rewrite pas_app. unfold D. do 2 f_equal. lia. }
  rewrite Hsplit in HD. destruct HD as (HN & HR & HTD).
  apply Forall_app in HR as [HR1 HR2]. rewrite <- app_assoc in HN.
  pose proof HN as (_ & _ & HN')%NoDup_app.
  destruct (uvmunmap_spec h root s T L (n' * 4096) (n - n') true)
    as (s' & Hrun & Hvm' & Hl' & Hst); [done|done|by apply Z.mod_mul|lia..| | |].
  { intros i Hi. rewrite <- Z.mul_add_distr_r. apply Hleaf. lia. }
  { split_and!; [done..|]. intros q d Hq. specialize (HTD q d Hq). set_solver. }
  fold D in Hvm', Hst. exists s'. split; [done|]. split; [|split; [|done]].
  - split; [done|lia|..].
    + intros i Hi. rewrite Hl' by lia. unfold unmapped_range. rewrite decide_False by lia.
      apply Hleaf. lia.
    + rewrite (pas_ext _ (leaf (m_mem s) T)).
      * split_and!.
        -- by rewrite reverse_Permutation.
        -- destruct Hst as [He _]. eapply Forall_impl; [done|]. intros q. unfold ram_page. by rewrite He.
        -- intros q d Hq. specialize (HTD q d Hq). set_solver.
      * intros i Hi. rewrite Hl' by lia. unfold unmapped_range. by rewrite decide_False by lia.
    + intros va Hva. rewrite Hl' by lia. unfold unmapped_range. case_decide; [done|].
      apply Hab. lia.
  - intros v Hv Hor. rewrite Hl' by done. unfold unmapped_range. by rewrite decide_False by lia.
Qed.

Definition npages (sz : Z) : Z := (sz + 4095) / 4096.

Lemma uvmdealloc_spec h s T root L oldsz newsz n'
    (D := pas (leaf (m_mem s) T) (n' * 4096) (Z.to_nat (npages oldsz - n'))) :
  L_kmem ∉ h → space s T root L (npages oldsz) → 0 ≤ oldsz → 0 ≤ newsz →
  n' = npages (Z.min oldsz newsz) →
  ∃ s', uvmdealloc root oldsz newsz h s = Ok (Z.min oldsz newsz) h s' ∧
    space s' T root (reverse D ++ L) n' ∧
    (∀ v, 0 ≤ v < MAXVA → v < n' * 4096 ∨ npages oldsz * 4096 ≤ v →
       leaf (m_mem s') T v = leaf (m_mem s) T v) ∧
    steps_in (λ b, table_bytes T b ∨ page_bytes D b) s s'.
Proof.
  intros Hh Hsp Hold Hnew Hn'. unfold uvmdealloc. rewrite Z.geb_leb.
  destruct (Z.leb_spec oldsz newsz).
  - rewrite Z.min_l in * by lia. subst n'. exists s. unfold D. rewrite Z.sub_diag. simpl.
    split; [done|]. split; [done|]. split; [done|]. apply steps_in_refl.
  - rewrite Z.min_r in * by lia. pose proof (sp_size _ _ _ _ _ Hsp) as Hsz.
    assert (TRAPFRAME / 4096 < 2 ^ 26) as HT by done.
    assert (npages oldsz * 4096 ≤ 2 ^ 38) by lia.
    assert (oldsz ≤ npages oldsz * 4096) as Ho.
    { unfold npages. pose proof (Z.div_mod (oldsz + 4095) 4096).
      pose proof (Z.mod_pos_bound (oldsz + 4095) 4096). lia. }
    assert (0 ≤ n' ≤ npages oldsz) as Hle.
    { subst n'. unfold npages. split; [apply Z.div_pos|apply Z.div_le_mono]; lia. }
    rewrite !PGROUNDUP_small by (change (2 ^ 64) with 18446744073709551616; lia).
    fold (npages oldsz) (npages newsz). rewrite <- Hn'.
    destruct (Z.ltb_spec (n' * 4096) (npages oldsz * 4096)).
    + change PGSIZE with 4096. rewrite <- Z.mul_sub_distr_r, Z.div_mul by lia.
      rewrite i32_small, u64_small by (change (2 ^ 64) with 18446744073709551616; lia).
      destruct (space_shrink h s T root L (npages oldsz) n' Hh Hsp Hle) as (s' & Hrun & Hrest).
      exists s'. split; [|done]. unfold when. by erewrite bind_Ok by exact Hrun.
    + assert (npages oldsz = n') as E by lia. exists s. unfold D. rewrite <- E.
      rewrite !Z.sub_diag. simpl. split; [done|]. split; [done|]. split; [done|]. apply steps_in_refl.
Qed.

(** ** Growing an address space *)

(** Pages taken from the free list [L0]: the data pages [D], and table pages. *)
Definition took (T0 : ptree) (L0 D : list Z) (T : ptree) (L : list Z) : Prop :=
  T0 ⊆ T ∧ ∃ u, L0 ≡ₚ u ++ D ++ L ∧ (∀ p a, T !! p = Some a → T0 !! p = Some a ∨ a ∈ u) ∧
    ∀ a, a ∈ u → ∃ p, T !! p = Some a.

Lemma took_bytes T0 L0 D T L b : took T0 L0 D T L → pt_bytes T L b → pt_bytes T0 L0 b.
Proof.
  intros [_ (u & HL & HT & _)] [(p & a & Ha & Hb)|(q & Hq & Hb)].
  - destruct (HT p a Ha); [left; eauto|right]. exists a. rewrite HL. set_solver.
  - right. exists q. rewrite HL. set_solver.
Qed.

Lemma took_perm T0 L0 D T L D' L' :
  took T0 L0 D T L → D ++ L ≡ₚ D' ++ L' → took T0 L0 D' T L'.
Proof. intros [HT (u & HL & Hu)] HP. split; [done|]. exists u. by rewrite <- HP. Qed.

(** Table pages taken after the data page [q] was. *)
Lemma took_ext_page T0 L0 D T q L T' L' :
  took T0 L0 D T (q :: L) → ext T L T' L' → took T0 L0 (D ++ [q]) T' L'.
Proof.
  intros [Hs (u & HL0 & HTu & Gu)] [Hs' (u' & HL & HTu' & Gu')].
  split; [by etransitivity|]. exists (u ++ u'). split_and!.
  - rewrite HL0, HL, <- !app_assoc. apply Permutation_app_head.
    rewrite (Permutation_app_swap_app u'). apply Permutation_app_head, Permutation_middle.
  - intros p a Ha. rewrite elem_of_app.
    destruct (HTu' p a Ha) as [Ha'|]; [destruct (HTu p a Ha')|]; auto.
  - intros a [Ha|Ha]%elem_of_app; [|by apply Gu'].
    destruct (Gu a Ha) as [p Hp]. exists p. by eapply lookup_weaken.
Qed.

Lemma took_ext_back T0 L0 D T q L T' L' :
  took T0 L0 D T (q :: L) → ext T L T' L' → took T0 L0 D T' (q :: L').
Proof.
  intros Htk Hext. eapply took_perm; [by eapply took_ext_page|]. by rewrite <- app_assoc.
Qed.

(** The address space [s, T, L] of [n] pages has grown from one of [n0] pages:
    the new pages come from the free list, hold the bytes [c] and are mapped
    with the permissions [fl]; nothing else of the old one has changed. *)
Record grown (root : Z) (s0 : machine) (T0 : ptree) (L0 : list Z) (n0 : Z) (fl c : Z → Z)
    (s : machine) (T : ptree) (L : list Z) (n : Z) : Prop := {
  gr_space : space s T root L n;
  gr_took : took T0 L0 (pas (leaf (m_mem s) T) (n0 * 4096) (Z.to_nat (n - n0))) T L;
  gr_old : ∀ va, 0 ≤ va < MAXVA → va < n0 * 4096 ∨ TRAPFRAME ≤ va →
    leaf (m_mem s) T va = leaf (m_mem s0) T0 va;
  gr_flags : ∀ va, n0 * 4096 ≤ va < n * 4096 →
    PTE_FLAGS (leaf (m_mem s) T va) = Z.lor (fl (va / 4096)) PTE_V;
  gr_bytes : ∀ va, n0 * 4096 ≤ va < n * 4096 →
    load8 (m_mem s) (PTE2PA (leaf (m_mem s) T va) + va mod 4096) = c va;
  gr_frame : steps_in (pt_bytes T0 L0) s0 s;
}.


Lemma leaf_same_page m T va va' :
  0 ≤ va < MAXVA → 0 ≤ va' < MAXVA → va / 4096 = va' / 4096 → leaf m T va = leaf m T va'.
Proof.
  intros Hva Hva' E. apply PX_same_page in E as (E2 & E1 & E0); [|done..].
  unfold leaf. by rewrite E2, E1, E0.
Qed.

(** A page of the address space, reached through a virtual address. *)
Lemma space_page s T root L n va :
  space s T root L n → 0 ≤ va < n * 4096 →
  PTE2PA (leaf (m_mem s) T va) ∈ pas (leaf (m_mem s) T) 0 (Z.to_nat n).
Proof.
  intros Hsp Hva. pose proof (sp_size _ _ _ _ _ Hsp) as Hsz.
  assert (TRAPFRAME / 4096 * 4096 < MAXVA) as HM by done.
  pose proof (Z.div_mod va 4096). pose proof (Z.mod_pos_bound va 4096).
  pose proof (Z.div_pos va 4096).
  apply elem_of_pas. exists (va / 4096). split; [lia|]. f_equal.
  apply leaf_same_page; [lia..|]. by rewrite Z.add_0_l, Z.div_mul.
Qed.

(** Data pages are apart from everything page-table code writes. *)
Lemma space_apart s T root L n q b :
  space s T root L n → q ∈ pas (leaf (m_mem s) T) 0 (Z.to_nat n) → in_page q b →
  ¬ pt_bytes T L b.
Proof.
  intros [(_ & (_ & _ & HL) & HT) _ _ (HN & HR & HD) _] Hq Hb.
  rewrite Forall_forall in HL, HR. apply NoDup_app in HN as (_ & HN & _).
  intros [(p & a & Ha & Hc)|(q' & Hq' & Hc)].
  - apply (ram_page_disjoint s q a b); [by apply HR|by apply (HT p)| |done|done].
    intros ->. by apply (HD p a).
  - apply (ram_page_disjoint s q q' b); [by apply HR|by apply HL| |done|done].
    intros ->. by apply (HN q').
Qed.

(** ** Mapping one more page *)

Section GrowPage.
Context (h : list lockid) (root : Z) (s0 : machine) (T0 : ptree) (L0 : list Z) (n0 : Z)
  (fl c : Z → Z) (s : machine) (T : ptree) (q : Z) (L : list Z) (n : Z) (m2 : mem).
Context (Hh : L_kmem ∉ h)
  (Hgr : grown root s0 T0 L0 n0 fl c s T (q :: L) n)
  (Hn : 0 ≤ n0 ≤ n ∧ n < TRAPFRAME / 4096)
  (Hfl : 0 ≤ fl n < 1024) (Hfl0 : Z.lor (fl n) PTE_V ≠ PTE_V)
  (Hm2 : frame (in_page q) (m_mem s) m2)
  (Hbytes : ∀ i, 0 ≤ i < 4096 → load8 m2 (q + i) = c (n * 4096 + i)).

(** The page [q] has been allocated and filled, not yet mapped. *)
Let s2 := Machine (m_end s) m2 (load64 (m_mem s) q).

Lemma grow_max : TRAPFRAME / 4096 * 4096 = TRAPFRAME ∧ TRAPFRAME + 4096 < MAXVA.
Proof. done. Qed.

Lemma grow_fresh :
  ram_page s q ∧ (q ∉ L) ∧ (∀ p, T !! p ≠ Some q) ∧
  (q ∉ pas (leaf (m_mem s) T) 0 (Z.to_nat n)).
Proof.
  destruct (gr_space _ _ _ _ _ _ _ _ _ _ _ Hgr) as [Hvm _ _ (HN & _ & _) _].
  destruct (kalloc_vm s T root L q Hvm) as (_ & _ & _ & ? & ? & ?).
  split; [done|]. split_and!; [done..|]. apply NoDup_app in HN as (_ & HN & _).
  intros Hq. specialize (HN q Hq). set_solver.
Qed.

Lemma grow_filled : vm_ok s2 T root L ∧ ∀ va, leaf m2 T va = leaf (m_mem s) T va.
Proof.
  apply filled_vm; [|done]. by destruct (gr_space _ _ _ _ _ _ _ _ _ _ _ Hgr).
Qed.

Lemma grow_map :
  map_post h root s2 T L (n * 4096) 1 q (fl n) (mappages root (n * 4096) PGSIZE q (fl n) h s2).
Proof.
  destruct grow_filled as [Hvm2 Hl2]. destruct grow_fresh as (Hq & _). destruct grow_max as [HT HM].
  pose proof (ram_page_addr s q Hq) as Hpa.
  assert (MAXVA = 67108864 * 4096) as HM' by done.
  assert ((n * 4096 + PGSIZE - 1) / 4096 = n) as E2.
  { unfold PGSIZE. replace (n * 4096 + 4096 - 1) with (4095 + n * 4096) by lia.
    rewrite Z.div_add by lia. done. }
  pose proof (mappages_spec h root s2 T L (n * 4096) PGSIZE q (fl n)) as H.
  rewrite E2, Z.div_mul in H by lia. replace (n - n + 1) with 1 in H by lia.
  apply H; try done; try lia.
  - unfold PGSIZE. lia.
  - destruct Hq as (_ & Hq & _). unfold PHYSTOP, KERNBASE, PGSIZE in *. lia.
  - intros v Hv. simpl. rewrite Hl2.
    destruct (gr_space _ _ _ _ _ _ _ _ _ _ _ Hgr) as [_ _ _ _ Hab]. apply Hab.
    pose proof (Z.div_mod v 4096). pose proof (Z.mod_pos_bound v 4096). lia.
Qed.

Lemma grow_apart b : in_page q b → ¬ pt_bytes T L b.
Proof.
  destruct grow_fresh as (Hq & HL & HT & _).
  destruct (gr_space _ _ _ _ _ _ _ _ _ _ _ Hgr) as [(_ & (_ & _ & HR) & HTr) _ _ _ _].
  apply Forall_cons in HR as [_ HR]. rewrite Forall_forall in HR.
  intros Hb [(p & a & Ha & Hc)|(p & Hp & Hc)].
  - apply (ram_page_disjoint s q a b); [done|by apply (HTr p)| |done|done].
    intros ->. by eapply HT.
  - apply (ram_page_disjoint s q p b); [done|by apply HR| |done|done]. intros ->. done.
Qed.

Lemma grow_old_bytes s' b p :
  steps_in (pt_bytes T L) s2 s' → p ∈ pas (leaf (m_mem s) T) 0 (Z.to_nat n) → in_page p b →
  load8 (m_mem s') b = load8 (m_mem s) b.
Proof.
  intros [_ Hst] Hp Hb. pose proof (gr_space _ _ _ _ _ _ _ _ _ _ _ Hgr) as Hsp.
  pose proof (space_apart s T root (q :: L) n p b Hsp Hp Hb) as Hno.
  rewrite Hst; simpl.
  - apply Hm2. intros Hc. apply Hno. right. exists q. split; [by left|done].
  - intros [Hc|(p' & Hp' & Hc)]; apply Hno; [by left|right].
    exists p'. split; [by right|done].
Qed.

Lemma grow_step_frame s' : steps_in (pt_bytes T L) s2 s' → steps_in (pt_bytes T0 L0) s0 s'.
Proof.
  intros Hst. destruct Hgr as [_ Htk _ _ _ Hfr].
  eapply steps_in_trans; [exact Hfr|]. eapply (steps_in_trans _ s s2).
  - split; [done|]. eapply frame_mono; [exact Hm2|]. intros b Hb.
    eapply took_bytes; [exact Htk|]. right. exists q. split; [by left|done].
  - eapply steps_in_mono; [exact Hst|]. intros b Hb. eapply took_bytes; [exact Htk|].
    destruct Hb as [Hb|(p & Hp & Hb)]; [by left|right]. exists p. split; [by right|done].
Qed.

(** The new page is owned by the address space, not free and not a table. *)
Lemma grow_freeable s' T' L' :
  ext T L T' L' → steps_in (pt_bytes T L) s2 s' →
  freeable s' T' L' (pas (leaf (m_mem s) T) 0 (Z.to_nat n) ++ [q]).
Proof.
  intros [_ (u & HL & HT' & _)] [He _].
  destruct (gr_space _ _ _ _ _ _ _ _ _ _ _ Hgr) as [_ _ _ (HN & HR & HD) _].
  destruct grow_fresh as (Hq & HqL & HTq & Hqp).
  set (D := pas _ 0 _) in *. subst L. split_and!.
  - rewrite <- app_assoc. simpl. apply NoDup_app in HN as (HN1 & HN2 & HN3).
    apply NoDup_cons in HN3 as [Hq3 HN3]. apply NoDup_app in HN3 as (_ & _ & HN4).
    apply NoDup_app. split_and!; [done| |apply NoDup_cons; set_solver].
    intros x Hx. specialize (HN2 x Hx). set_solver.
  - apply Forall_app. rewrite Forall_singleton.
    split; [eapply Forall_impl; [done|]; intros p|]; unfold ram_page; by rewrite He.
  - intros p d Hp. apply NoDup_app in HN as (_ & HN2 & _).
    destruct (HT' p d Hp) as [Hp'|Hd].
    + specialize (HD p d Hp'). intros [?|Hd%list_elem_of_singleton]%elem_of_app; [done|].
      subst d. by eapply HTq.
    + intros [Hx|Hx%list_elem_of_singleton]%elem_of_app; [|set_solver].
      specialize (HN2 d Hx). set_solver.
Qed.

Lemma grow_ok s' T' L' :
  vm_ok s' T' root L' → ext T L T' L' → steps_in (pt_bytes T L) s2 s' →
  (∀ va, 0 ≤ va < MAXVA → leaf (m_mem s') T' va = mapped (leaf m2 T) (n * 4096) 1 q (fl n) va) →
  grown root s0 T0 L0 n0 fl c s' T' L' (n + 1).
Proof.
  intros Hvm' Hext Hst Hl'. destruct grow_max as [HTM HM]. destruct grow_filled as [_ Hl2].
  destruct grow_fresh as (Hq & _). pose proof (ram_page_addr s q Hq) as Hpa.
  destruct (leaf_pte_spec q (fl n) Hpa Hfl) as (_ & Hpte & Hflags & Hhas).
  assert (∀ va, 0 ≤ va < MAXVA → leaf (m_mem s') T' va =
    if decide (n * 4096 ≤ va < (n + 1) * 4096) then leaf_pte q (fl n)
    else leaf (m_mem s) T va) as Hl.
  { intros va Hva. rewrite Hl' by done. unfold mapped. rewrite Hl2.
    repeat case_decide; try lia; try done. rewrite (Z.div_small (va - n * 4096)) by lia.
    by rewrite Z.mul_0_l, Z.add_0_r. }
  assert (∀ a k, (Z.of_nat k = n - a) → 0 ≤ a →
    pas (leaf (m_mem s') T') (a * 4096) (k + 1) = pas (leaf (m_mem s) T) (a * 4096) k ++ [q]) as Hpas.
  { intros a k Hk Ha. rewrite pas_app. f_equal.
    - apply pas_ext. intros i Hi. rewrite Hl by lia. by rewrite decide_False by lia.
    - simpl. rewrite Hl by lia. by rewrite decide_True, Hpte by lia. }
  destruct Hgr as [Hsp Htk Hold Hfls Hby _].
  split; [split|..]; try lia.
  - done.
  - intros i Hi. rewrite Hl by lia. case_decide.
    + split; [|by rewrite Hflags]. change PTE_V with (Z.shiftl 1 0) at 1. rewrite Hhas by lia.
      by rewrite Z.lor_spec, orb_true_r.
    + apply (sp_leaf _ _ _ _ _ Hsp). lia.
  - replace (Z.to_nat (n + 1)) with (Z.to_nat n + 1)%nat by lia.
    rewrite (Hpas 0) by lia. by apply grow_freeable.
  - intros va Hva. rewrite Hl, decide_False by lia. apply (sp_above _ _ _ _ _ Hsp). lia.
  - replace (Z.to_nat (n + 1 - n0)) with (Z.to_nat (n - n0) + 1)%nat by lia.
    rewrite Hpas by lia. by eapply took_ext_page.
  - intros va Hva Hor. rewrite Hl, decide_False by lia. apply Hold; lia.
  - intros va Hva. rewrite Hl by lia. case_decide.
    + rewrite Hflags. do 2 f_equal. pose proof (Z.div_mod va 4096).
      pose proof (Z.mod_pos_bound va 4096). lia.
    + apply Hfls. lia.
  - intros va Hva. rewrite Hl by lia. pose proof (Z.div_mod va 4096).
    pose proof (Z.mod_pos_bound va 4096). case_decide.
    + rewrite Hpte. rewrite (proj2 Hst).
      * simpl. rewrite Hbytes by lia. f_equal. lia.
      * apply grow_apart. unfold in_page, PGSIZE. lia.
    + rewrite <- Hby by lia. eapply (grow_old_bytes _ _ (PTE2PA (leaf (m_mem s) T va)));
        [done|by eapply space_page; [done|lia]|].
      unfold in_page, PGSIZE. lia.
  - by apply grow_step_frame.
Qed.

(** When there is no memory for the tables, giving the page back restores the
    address space. *)
Lemma grow_fail s' T' L' :
  vm_ok s' T' root L' → ext T L T' L' → steps_in (pt_bytes T L) s2 s' →
  (∀ va, 0 ≤ va < MAXVA → leaf (m_mem s') T' va = leaf m2 T va) →
  kfree q h s' = Ok tt h (kfree_post s' q) ∧
  grown root s0 T0 L0 n0 fl c (kfree_post s' q) T' (q :: L') n.
Proof.
  intros Hvm' Hext Hst Hl'. destruct grow_max as [HTM HM]. destruct grow_filled as [_ Hl2].
  pose proof (grow_freeable s' T' L' Hext Hst) as Hfr.
  apply (freeable_perm _ _ _ _ _ (Permutation_sym (Permutation_cons_append _ q))) in Hfr.
  apply freeable_cons in Hfr as (Hq & HqL & HTq & Hfr).
  destruct (kfree_vm s' T' root L' q Hvm' Hq HqL HTq) as (Hvm'' & Hl'' & Hst'').
  split; [by apply kfree_run|].
  assert (∀ va, 0 ≤ va < MAXVA →
    leaf (m_mem (kfree_post s' q)) T' va = leaf (m_mem s) T va) as Hl.
  { intros va Hva. by rewrite Hl'', Hl', Hl2. }
  assert (∀ a k, 0 ≤ a → (a + Z.of_nat k = n) →
    pas (leaf (m_mem (kfree_post s' q)) T') (a * 4096) k = pas (leaf (m_mem s) T) (a * 4096) k)
    as Hpas.
  { intros a k Ha Hk. apply pas_ext. intros i Hi. apply Hl. lia. }
  pose proof (grow_fresh) as (_ & _ & _ & Hqp).
  assert (∀ p b, p ∈ pas (leaf (m_mem s) T) 0 (Z.to_nat n) → in_page p b →
    load8 (m_mem (kfree_post s' q)) b = load8 (m_mem s) b) as Hld.
  { intros p b Hp Hb. rewrite (proj2 Hst''); [by eapply grow_old_bytes|].
    destruct Hfr as (_ & HR & _). rewrite Forall_forall in HR.
    apply (ram_page_disjoint s' p q b); [by apply HR|done| |done]. intros ->. done. }
  destruct Hgr as [Hsp Htk Hold Hfls Hby _].
  split; [split|..].
  - done.
  - lia.
  - intros i Hi. rewrite Hl by lia. apply (sp_leaf _ _ _ _ _ Hsp). lia.
  - rewrite (Hpas 0) by lia. done.
  - intros va Hva. rewrite Hl by lia. apply (sp_above _ _ _ _ _ Hsp). lia.
  - rewrite Hpas by lia. by eapply took_ext_back.
  - intros va Hva Hor. rewrite Hl by lia. by apply Hold.
  - intros va Hva. rewrite Hl by lia. by apply Hfls.
  - intros va Hva. rewrite Hl, <- Hby by lia.
    eapply (Hld (PTE2PA (leaf (m_mem s) T va))); [by eapply space_page; [done|lia]|].
    pose proof (Z.mod_pos_bound va 4096). unfold in_page, PGSIZE. lia.
  - eapply steps_in_trans; [by apply grow_step_frame|].
    eapply steps_in_mono; [exact Hst''|]. intros b Hb. eapply took_bytes; [exact Htk|].
    right. exists q. split; [by left|done].
Qed.

(** Mapping the page: success, or a clean failure when tables run out. *)
Lemma grow_page :
  ∃ r s' T' L', mappages root (n * 4096) PGSIZE q (fl n) h s2 = Ok r h s' ∧
  ((r = 0 ∧ grown root s0 T0 L0 n0 fl c s' T' L' (n + 1) ∧ (length L ≤ length L' + 2)%nat) ∨
   (r = -1 ∧ (kfree q h s' = Ok tt h (kfree_post s' q) ∧
    grown root s0 T0 L0 n0 fl c (kfree_post s' q) T' (q :: L') n) ∧ (length L < 2)%nat)).
Proof.
  destruct grow_map as (r & j & s' & T' & L' & Hrun & Hvm & Hext & Hst & Hl & Hr).
  exists r, s', T', L'. split; [done|].
  destruct Hr as [(-> & -> & ?)|(-> & Hj & _ & ?)]; [left|right]; (split; [done|]; split; [|lia]).
  - by apply grow_ok.
  - apply grow_fail; [done..|]. intros va Hva. rewrite Hl by done.
    replace j with 0 by lia. apply mapped_0.
Qed.
End GrowPage.

Lemma grown_refl root s T L n fl c :
  space s T root L n → grown root s T L n fl c s T L n.
Proof.
  intros Hsp. split; [done| |done|lia|lia|apply steps_in_refl].
  rewrite Z.sub_diag. split; [done|]. exists []. split; [done|]. split; [auto|].
  intros a Ha. by apply not_elem_of_nil in Ha.
Qed.

(** ** uvmalloc *)

Lemma npages_pages n : 0 ≤ n → npages (n * 4096) = n.
Proof.
  intros Hn. unfold npages. rewrite Z.add_comm, Z.div_add by lia. done.
Qed.

(** Undoing a partial growth. *)
Lemma grown_shrunk root s0 T0 L0 n0 fl c s T L n s'
    (D := pas (leaf (m_mem s) T) (n0 * 4096) (Z.to_nat (n - n0))) :
  grown root s0 T0 L0 n0 fl c s T L n → 0 ≤ n0 ≤ n →
  space s' T root (reverse D ++ L) n0 →
  (∀ v, 0 ≤ v < MAXVA → v < n0 * 4096 ∨ n * 4096 ≤ v → leaf (m_mem s') T v = leaf (m_mem s) T v) →
  steps_in (λ b, table_bytes T b ∨ page_bytes D b) s s' →
  grown root s0 T0 L0 n0 fl c s' T (reverse D ++ L) n0.
Proof.
  intros [Hsp Htk Hold Hfls Hby Hfr] Hn Hsp' Hl Hst. destruct grow_max as [HTM HM].
  pose proof (sp_size _ _ _ _ _ Hsp) as Hsz. split; [done| | |lia|lia|].
  - rewrite Z.sub_diag. destruct Htk as [Hs (u & HL0 & HTu)]. split; [done|]. exists u.
    split; [|done]. rewrite HL0. simpl. fold D. by rewrite (reverse_Permutation D).
  - intros va Hva Hor. rewrite Hl by lia. by apply Hold.
  - eapply steps_in_trans; [exact Hfr|]. eapply steps_in_mono; [exact Hst|].
    intros b [Hb|(q & Hq & Hb)]; [eapply took_bytes; [exact Htk|by left]|].
    right. exists q. split; [|done]. destruct Htk as [_ (u & -> & _)]. set_solver.
Qed.

Lemma grown_rollback h root s0 T0 L0 n0 fl c s T L n :
  L_kmem ∉ h → 0 ≤ n0 ≤ n → grown root s0 T0 L0 n0 fl c s T L n →
  ∃ s' L', uvmdealloc root (n * 4096) (n0 * 4096) h s = Ok (n0 * 4096) h s' ∧
    grown root s0 T0 L0 n0 fl c s' T L' n0.
Proof.
  intros Hh Hn Hgr. pose proof (gr_space _ _ _ _ _ _ _ _ _ _ _ Hgr) as Hsp.
  destruct (uvmdealloc_spec h s T root L (n * 4096) (n0 * 4096) n0)
    as (s' & Hrun & Hsp' & Hl & Hst);
    [done|by rewrite npages_pages by lia|lia|lia|by rewrite Z.min_r, npages_pages by lia|].
  rewrite npages_pages in * by lia. rewrite Z.min_r in Hrun by lia.
  eexists s', _. split; [done|]. by eapply grown_shrunk.
Qed.

Lemma grown_unmap h root s0 T0 L0 n0 fl c s T L n :
  L_kmem ∉ h → 0 ≤ n0 ≤ n → grown root s0 T0 L0 n0 fl c s T L n →
  ∃ s' L', uvmunmap root (n0 * 4096) (n - n0) true h s = Ok tt h s' ∧
    grown root s0 T0 L0 n0 fl c s' T L' n0.
Proof.
  intros Hh Hn Hgr. pose proof (gr_space _ _ _ _ _ _ _ _ _ _ _ Hgr) as Hsp.
  destruct (space_shrink h s T root L n n0 Hh Hsp Hn) as (s' & Hrun & Hsp' & Hl & Hst).
  eexists s', _. split; [done|]. by eapply grown_shrunk.
Qed.

Section Uvmalloc.
Context (h : list lockid) (root : Z) (s0 : machine) (T0 : ptree) (L0 : list Z) (n0 : Z)
  (xperm newsz : Z).
Context (Hh : L_kmem ∉ h) (Hxp : 0 ≤ xperm < 1024) (Hn0 : 0 ≤ n0)
  (Hnew : 0 ≤ newsz ≤ TRAPFRAME).

Let perm : Z := Z.lor (Z.lor PTE_R PTE_U) xperm.
Let grows := grown root s0 T0 L0 n0 (λ _, perm) (λ _, 0).

Lemma uvmalloc_perm : 0 ≤ perm < 1024 ∧ Z.lor perm PTE_V ≠ PTE_V.
Proof.
  split.
  - unfold perm. change (Z.lor PTE_R PTE_U) with 18. split; [apply Z.lor_nonneg; lia|].
    destruct (Z.eq_dec xperm 0) as [->|]; [done|].
    change 1024 with (2 ^ 10). apply Z.log2_lt_pow2.
    + assert (0 ≤ Z.lor 18 xperm) by (apply Z.lor_nonneg; lia).
      assert (Z.lor 18 xperm ≠ 0) by (intros [? ?]%Z.lor_eq_0_iff; done). lia.
    + rewrite Z.log2_lor by lia. apply Z.max_lub_lt; [done|]. apply Z.log2_lt_pow2; lia.
  - intros E. apply (f_equal (λ x, Z.testbit x 1)) in E.
    unfold perm in E. rewrite !Z.lor_spec in E. done.
Qed.

Lemma uvmalloc_loop_spec k : ∀ fuel n s T L,
  (k ≤ fuel)%nat → grows s T L n → n0 ≤ n → npages newsz = n + Z.of_nat k →
  ∃ r s' T' L', uvmalloc_loop fuel root (n * 4096) (n0 * 4096) newsz xperm h s = Ok r h s' ∧
    (r = newsz ∧ grows s' T' L' (npages newsz) ∨ r = 0 ∧ grows s' T' L' n0 ∧ (length L < 3 * k)%nat).
Proof.
  destruct uvmalloc_perm as [Hp1 Hp2]. destruct grow_max as [HTM HM].
  assert (newsz ≤ npages newsz * 4096 < newsz + 4096) as Hnp.
  { unfold npages. pose proof (Z.div_mod (newsz + 4095) 4096).
    pose proof (Z.mod_pos_bound (newsz + 4095) 4096). lia. }
  assert (MAXVA < 18446744073709551616) as HM64 by done.
  induction k as [|k IH]; intros fuel n s T L Hfuel Hgr Hn Hk.
  { exists newsz, s, T, L. split.
    - destruct fuel; cbn [uvmalloc_loop]; by rewrite (proj2 (Z.ltb_ge _ _)) by lia.
    - left. split; [done|]. by replace (npages newsz) with n by lia. }
  destruct fuel as [|fuel]; [lia|]. cbn [uvmalloc_loop].
  rewrite (proj2 (Z.ltb_lt _ _)) by lia. cbn iota.
  pose proof (gr_space _ _ _ _ _ _ _ _ _ _ _ Hgr) as [Hvm Hsz _ _ _].
  destruct L as [|q L].
  { destruct (grown_rollback h root s0 T0 L0 n0 (λ _, perm) (λ _, 0) s T [] n)
      as (s' & L' & Hrun & Hgr'); [done|lia|done|].
    erewrite bind_Ok by (apply kalloc_empty; [done|apply Hvm]). cbn [Z.eqb].
    erewrite bind_Ok by exact Hrun. exists 0, s', T, L'. split; [done|]. right. split_and!; [done|done|cbn; lia]. }
  pose proof Hvm as (_ & Hf & _).
  erewrite bind_Ok by by eapply kalloc_run.
  assert ((q =? 0) = false) as -> by (apply Z.eqb_neq; apply Hf).
  unfold kmemset. rewrite bind_modify.
  destruct (grow_page h root s0 T0 L0 n0 (λ _, perm) (λ _, 0) s T q L n
    (memset (memset (m_mem s) q 5 PGSIZE) q 0 PGSIZE))
    as (r & s1 & T1 & L1 & Hrun & [(-> & Hgr1 & Hlen)|(-> & [Hkf Hgr1] & Hlen)]); [done|done|lia|done|done|..].
  { eapply frame_trans; apply frame_memset_page. }
  { intros i Hi. rewrite load8_memset, decide_True; [done|]. unfold PGSIZE. lia. }
  - erewrite bind_Ok by exact Hrun. cbn [Z.eqb negb].
    destruct (IH fuel (n + 1) s1 T1 L1) as (r & s' & T' & L' & Hrun' & Hr); [lia|done|lia|lia|].
    exists r, s', T', L'. split; [|destruct Hr as [?|(? & ? & ?)]; [by left|right; split_and!; [done|done|cbn; lia]]]. rewrite <- Hrun'. unfold PGSIZE.
    rewrite u64_small by (change (2 ^ 64) with 18446744073709551616; lia). do 2 f_equal. lia.
  - erewrite bind_Ok by exact Hrun. cbn [Z.eqb negb].
    erewrite bind_Ok by exact Hkf.
    destruct (grown_rollback h root s0 T0 L0 n0 (λ _, perm) (λ _, 0) (kfree_post s1 q) T1 (q :: L1) n)
      as (s' & L' & Hrun' & Hgr'); [done|lia|done|].
    erewrite bind_Ok by exact Hrun'. exists 0, s', T1, L'. split; [done|]. right. split_and!; [done|done|cbn; lia].
Qed.
End Uvmalloc.

(** [uvmalloc] grows the address space to [newsz] bytes with zeroed pages, or,
    when memory runs out, returns 0 and leaves it as it was. *)
Lemma uvmalloc_grows h root s T L oldsz newsz xperm
    (grows := grown root s T L (npages oldsz) (λ _, Z.lor (Z.lor PTE_R PTE_U) xperm) (λ _, 0)) :
  L_kmem ∉ h → 0 ≤ xperm < 1024 → space s T root L (npages oldsz) →
  0 ≤ oldsz ≤ newsz → newsz ≤ TRAPFRAME →
  ∃ r s' T' L', uvmalloc root oldsz newsz xperm h s = Ok r h s' ∧
    (r = newsz ∧ grows s' T' L' (npages newsz) ∨
     r = 0 ∧ grows s' T' L' (npages oldsz) ∧ Z.of_nat (length L) < 3 * (npages newsz - npages oldsz)).
Proof.
  intros Hh Hxp Hsp Hold Hnew. assert (TRAPFRAME < 2 ^ 38) as HT by done.
  unfold uvmalloc. rewrite (proj2 (Z.ltb_ge _ _)) by lia.
  rewrite PGROUNDUP_small by (change (2 ^ 64) with 18446744073709551616; lia).
  fold (npages oldsz).
  assert (0 ≤ npages oldsz ≤ npages newsz) as Hle
    by (unfold npages; split; [apply Z.div_pos|apply Z.div_le_mono]; lia).
  destruct (uvmalloc_loop_spec h root s T L (npages oldsz) xperm newsz Hh Hxp ltac:(lia) ltac:(lia)
    (Z.to_nat (npages newsz - npages oldsz)) (page_fuel (npages oldsz * 4096) newsz) (npages oldsz) s T L)
    as (r & s' & T' & L' & E & R); [|by apply grown_refl|lia|lia|].
  2: { exists r, s', T', L'. split; [exact E|]. destruct R as [?|(? & ? & ?)]; [by left|right; split_and!; [done|done|lia]]. }
  unfold page_fuel, npages in *. rewrite Z.min_l by (change MAXVA with (2 ^ 38); lia).
  unfold PGSIZE. pose proof (Z.div_mod (newsz + 4095) 4096). pose proof (Z.mod_pos_bound (newsz + 4095) 4096).
  set (o := (oldsz + 4095) / 4096) in *. clearbody o.
  assert ((newsz + 4095) / 4096 - o ≤ (newsz - o * 4096) / 4096 + 1); [|lia].
  assert (((newsz + 4095) / 4096 - o - 1) ≤ (newsz - o * 4096) / 4096); [|lia].
  apply Z.div_le_lower_bound; lia.
Qed.

(** ** uvmcopy *)

Lemma PTE_FLAGS_range e : 0 ≤ PTE_FLAGS e < 1024.
Proof.
  unfold PTE_FLAGS. change 0x3FF with (Z.ones 10). rewrite Z.land_ones by lia.
  by apply Z.mod_pos_bound.
Qed.

Lemma PTE_FLAGS_V e : has e PTE_V = true → Z.lor (PTE_FLAGS e) PTE_V = PTE_FLAGS e.
Proof.
  intros HV. change PTE_V with (Z.shiftl 1 0) in HV. rewrite has_bit in HV by done.
  apply Z.bits_inj'. intros i Hi. rewrite Z.lor_spec. unfold PTE_FLAGS.
  change PTE_V with (2 ^ 0). rewrite Z.pow2_bits_eqb by done.
  destruct (Z.eqb_spec 0 i) as [<-|]; [|by rewrite orb_false_r].
  by rewrite Z.land_spec, HV.
Qed.

Section Uvmcopy.
(** The parent [old] with tables [To], the child [new] with tables [T0]; they
    share the free list but no page. *)
Context (h : list lockid) (old new : Z) (s0 : machine) (To T0 : ptree) (L0 : list Z) (n : Z).
Context (Hh : L_kmem ∉ h) (Hold : space s0 To old L0 n) (Hnew : space s0 T0 new L0 0)
  (Hapart : ∀ b, table_bytes To b ∨ page_bytes (pas (leaf (m_mem s0) To) 0 (Z.to_nat n)) b →
     ¬ pt_bytes T0 L0 b).

Let fl (i : Z) : Z := PTE_FLAGS (leaf (m_mem s0) To (i * 4096)).
Let c (va : Z) : Z := load8 (m_mem s0) (PTE2PA (leaf (m_mem s0) To va) + va mod 4096).
Let copies := grown new s0 T0 L0 0 fl c.

(** The parent's tables and pages are as they were. *)
Lemma copy_parent s T L k :
  copies s T L k →
  pt_ok (m_mem s) To old ∧ (∀ va, leaf (m_mem s) To va = leaf (m_mem s0) To va) ∧
  ∀ va, 0 ≤ va < n * 4096 →
    load8 (m_mem s) (PTE2PA (leaf (m_mem s0) To va) + va mod 4096) = c va.
Proof.
  intros [_ _ _ _ _ [_ Hfr]].
  destruct (pt_frame (pt_bytes T0 L0) (m_mem s0) (m_mem s) To old) as [Hpt Hl];
    [apply Hold|done| |].
  { intros p a b Ha Hb. apply Hapart. left. by exists p, a. }
  split; [done|]. split; [done|]. intros va Hva. unfold c. apply Hfr, Hapart. right.
  eexists. split; [by eapply space_page|].
  pose proof (Z.mod_pos_bound va 4096). unfold in_page, PGSIZE. lia.
Qed.

(** Copying a parent's page over a fresh one. *)
Lemma copy_page s T q L i (pa := PTE2PA (leaf (m_mem s0) To (i * 4096))) :
  copies s T (q :: L) i → 0 ≤ i < n →
  frame (in_page q) (m_mem s) (memmove (memset (m_mem s) q 5 PGSIZE) q pa PGSIZE) ∧
  ∀ j, 0 ≤ j < 4096 →
    load8 (memmove (memset (m_mem s) q 5 PGSIZE) q pa PGSIZE) (q + j) = c (i * 4096 + j).
Proof.
  intros Hgr Hi. destruct (copy_parent s T (q :: L) i Hgr) as (_ & _ & Hby).
  destruct grow_max as [HTM HM]. pose proof (sp_size _ _ _ _ _ Hold) as Hn. split.
  - eapply frame_trans; [apply frame_memset_page|]. intros b Hb. rewrite load8_memmove by done.
    rewrite decide_False; [done|]. done.
  - intros j Hj. rewrite load8_memmove, decide_True by (unfold PGSIZE; lia).
    replace (pa + (q + j - q)) with (pa + j) by lia.
    assert ((i * 4096 + j) / 4096 = i ∧ (i * 4096 + j) mod 4096 = j) as [Ed Em].
    { rewrite Z.add_comm, Z.div_add, Z.mod_add, Z.div_small, Z.mod_small by lia. lia. }
    assert (leaf (m_mem s0) To (i * 4096 + j) = leaf (m_mem s0) To (i * 4096)) as El.
    { apply leaf_same_page; [lia..|]. by rewrite Ed, Z.div_mul. }
    rewrite (frame_memset_page _ q).
    + rewrite <- Hby by lia. by rewrite El, Em.
    + intros Hb. apply (Hapart (pa + j)).
      * right. exists pa. split; [|unfold in_page, PGSIZE; lia].
        unfold pa. rewrite <- El. eapply space_page; [done|lia].
      * eapply took_bytes; [apply Hgr|]. right. exists q. split; [by left|done].
Qed.

Lemma uvmcopy_loop_spec sz k :
  n = npages sz → 0 ≤ sz → ∀ fuel i s T L,
  (k ≤ fuel)%nat → copies s T L i → 0 ≤ i → n = i + Z.of_nat k →
  ∃ r s' T' L', uvmcopy_loop fuel old new (i * 4096) sz h s = Ok r h s' ∧
    (r = 0 ∧ copies s' T' L' n ∨ r = -1 ∧ copies s' T' L' 0 ∧ (length L < 3 * k)%nat).
Proof.
  intros Hnsz Hsz. destruct grow_max as [HTM HM].
  pose proof (sp_size _ _ _ _ _ Hold) as Hn.
  assert (sz ≤ n * 4096 < sz + 4096) as Hnp.
  { rewrite Hnsz. unfold npages. pose proof (Z.div_mod (sz + 4095) 4096).
    pose proof (Z.mod_pos_bound (sz + 4095) 4096). lia. }
  assert (MAXVA < 18446744073709551616) as HM64 by done.
  induction k as [|k IH]; intros fuel i s T L Hfuel Hgr Hi Hk.
  { exists 0, s, T, L. split.
    - destruct fuel; cbn [uvmcopy_loop]; by rewrite (proj2 (Z.ltb_ge _ _)) by lia.
    - left. split; [done|]. by replace n with i by lia. }
  destruct fuel as [|fuel]; [lia|]. cbn [uvmcopy_loop].
  rewrite (proj2 (Z.ltb_lt _ _)) by lia. cbn iota.
  destruct (copy_parent s T L i Hgr) as (Hpt & Hl & Hby).
  destruct (sp_leaf _ _ _ _ _ Hold i ltac:(lia)) as [HV HF].
  destruct (walk_leaf s To old (i * 4096) h Hpt ltac:(lia)) as (b & _ & Hlb & Hw & Hnz);
    [by rewrite Hl|].
  erewrite bind_Ok by exact Hw. rewrite Hnz. unfold load_pte. rewrite bind_gets.
  rewrite <- Hlb, Hl, HV. cbn [negb]. cbv zeta.
  pose proof (gr_space _ _ _ _ _ _ _ _ _ _ _ Hgr) as [Hvm _ _ _ _].
  destruct L as [|q L].
  { destruct (grown_unmap h new s0 T0 L0 0 fl c s T [] i) as (s' & L' & Hrun & Hgr');
      [done|lia|done|].
    erewrite bind_Ok by (apply kalloc_empty; [done|apply Hvm]). cbn [Z.eqb].
    unfold PGSIZE. rewrite Z.div_mul by lia. rewrite Z.sub_0_r in Hrun.
    erewrite bind_Ok by exact Hrun. exists (-1), s', T, L'. split; [done|]. right. split_and!; [done|done|cbn; lia]. }
  pose proof Hvm as (_ & Hf & _).
  erewrite bind_Ok by by eapply kalloc_run.
  assert ((q =? 0) = false) as -> by (apply Z.eqb_neq; apply Hf). rewrite bind_modify.
  destruct (copy_page s T q L i Hgr ltac:(lia)) as [Hfr Hbytes].
  destruct (grow_page h new s0 T0 L0 0 fl c s T q L i _ Hh Hgr ltac:(lia)
    (PTE_FLAGS_range _) ltac:(by unfold fl; rewrite PTE_FLAGS_V) Hfr Hbytes)
    as (r & s1 & T1 & L1 & Hrun & [(-> & Hgr1 & Hlen)|(-> & [Hkf Hgr1] & Hlen)]).
  - erewrite bind_Ok by exact Hrun. cbn [Z.eqb negb].
    destruct (IH fuel (i + 1) s1 T1 L1) as (r & s' & T' & L' & Hrun' & Hr); [lia|done|lia|lia|].
    exists r, s', T', L'. split; [|destruct Hr as [?|(? & ? & ?)]; [by left|right; split_and!; [done|done|cbn; lia]]]. rewrite <- Hrun'. unfold PGSIZE.
    rewrite u64_small by (change (2 ^ 64) with 18446744073709551616; lia). do 2 f_equal. lia.
  - erewrite bind_Ok by exact Hrun. cbn [Z.eqb negb]. erewrite bind_Ok by exact Hkf.
    destruct (grown_unmap h new s0 T0 L0 0 fl c (kfree_post s1 q) T1 (q :: L1) i)
      as (s' & L' & Hrun' & Hgr'); [done|lia|done|].
    unfold PGSIZE. rewrite Z.div_mul by lia. rewrite Z.sub_0_r in Hrun'.
    erewrite bind_Ok by exact Hrun'. exists (-1), s', T1, L'. split; [done|]. right. split_and!; [done|done|cbn; lia].
Qed.

(** [uvmcopy] gives the child a copy of every page of the parent with the same
    permissions, or fails and leaves the child empty. *)
Lemma uvmcopy_copies sz :
  n = npages sz → 0 ≤ sz →
  ∃ r s' T' L', uvmcopy old new sz h s0 = Ok r h s' ∧
    (r = 0 ∧ copies s' T' L' n ∨ r = -1 ∧ copies s' T' L' 0 ∧ Z.of_nat (length L0) < 3 * n).
Proof.
  intros Hn Hsz. destruct grow_max as [HTM HM].
  pose proof (sp_size _ _ _ _ _ Hold) as Hmax. unfold uvmcopy.
  assert (∀ s' T' L' (r : Z), (r = 0 ∧ copies s' T' L' n ∨ r = -1 ∧ copies s' T' L' 0 ∧ (length L0 < 3 * Z.to_nat n)%nat) →
    r = 0 ∧ copies s' T' L' n ∨ r = -1 ∧ copies s' T' L' 0 ∧ Z.of_nat (length L0) < 3 * n) as Hc.
  { intros ???? [?|(? & ? & ?)]; [by left|right; split_and!; [done|done|lia]]. }
  edestruct (uvmcopy_loop_spec sz (Z.to_nat n) Hn Hsz (page_fuel 0 sz) 0) as (r & s' & T' & L' & E & R);
    [|by apply grown_refl|lia|lia|exists r, s', T', L'; split; [exact E|by apply Hc]].
  pose proof Hn as Hn'. unfold npages in Hn'. unfold page_fuel, PGSIZE.
  pose proof (Z.div_mod (sz + 4095) 4096). pose proof (Z.mod_pos_bound (sz + 4095) 4096).
  rewrite Z.min_l, Z.sub_0_r by lia.
  assert (n - 1 ≤ sz / 4096) by (apply Z.div_le_lower_bound; lia). lia.
Qed.
End Uvmcopy.

(** A mapped page keeps its flags when they are made valid again. *)
Lemma copied_flags s T root L n va :
  space s T root L n → 0 ≤ va < n * 4096 →
  Z.lor (PTE_FLAGS (leaf (m_mem s) T (va / 4096 * 4096))) PTE_V = PTE_FLAGS (leaf (m_mem s) T va).
Proof.
  intros Sp Hva. destruct grow_max as [HTM HM]. pose proof (sp_size _ _ _ _ _ Sp).
  pose proof (Z.div_mod va 4096). pose proof (Z.mod_pos_bound va 4096). pose proof (Z.div_pos va 4096).
  rewrite (leaf_same_page _ T va (va / 4096 * 4096)) by (rewrite ?Z.div_mul; lia).
  apply PTE_FLAGS_V, (sp_leaf _ _ _ _ _ Sp). lia.
Qed.

(** ** Two address spaces *)

Lemma space_fresh s root L :
  free_inv s (root :: L) → space (uvmcreate_post s root) {[ [] := root ]} root L 0.
Proof.
  intros Hf. destruct (uvmcreate_ok s root L Hf) as [Hvm _].
  split; [done|done|lia| |].
  - split_and!; [apply Hvm|constructor|set_solver].
  - intros va _. by rewrite uvmcreate_leaf.
Qed.

(** An address space survives the allocation and initialisation of a page. *)
Lemma space_filled s T root q L n m2 :
  space s T root (q :: L) n → frame (in_page q) (m_mem s) m2 →
  space (Machine (m_end s) m2 (load64 (m_mem s) q)) T root L n ∧
  ∀ va, leaf m2 T va = leaf (m_mem s) T va.
Proof.
  intros [Hvm Hsz Hleaf (HN & HR & HT) Hab] Hm2.
  destruct (filled_vm s T root L q m2 Hvm Hm2) as [Hvm2 Hl]. split; [|done].
  split; simpl; [done|done|intros i Hi; rewrite Hl; by apply Hleaf| |
    intros va Hva; rewrite Hl; by apply Hab].
  rewrite (pas_ext _ (leaf (m_mem s) T)) by (intros; by rewrite Hl).
  split_and!; [|done|done]. rewrite <- Permutation_middle in HN. by apply NoDup_cons in HN as [_ ?].
Qed.

(** The parent's pages are not those of a fresh page table, nor free. *)
Lemma fresh_apart s T root q L n m2 b :
  space s T root (q :: L) n → frame (in_page q) (m_mem s) m2 →
  table_bytes T b ∨ page_bytes (pas (leaf m2 T) 0 (Z.to_nat n)) b →
  ¬ pt_bytes {[ [] := q ]} L b.
Proof.
  intros Hsp Hm2 Hb Hc.
  assert (∃ p, p ∈ q :: L ∧ in_page p b) as (p & Hp & Hpb).
  { destruct Hc as [(r & a & [_ <-]%lookup_singleton_Some & Hb')|(p & Hp & Hb')];
      [exists q|exists p]; split; set_solver. }
  destruct (filled_vm s T root L q m2 (sp_vm _ _ _ _ _ Hsp) Hm2) as [_ Hl].
  destruct Hb as [(r & a & Ha & Hb)|(a & Ha & Hb)].
  - destruct (sp_vm _ _ _ _ _ Hsp) as (_ & (_ & _ & HR) & HT). destruct (HT r a Ha) as [Hra Hin].
    rewrite Forall_forall in HR. apply (ram_page_disjoint s a p b); auto. intros ->. done.
  - rewrite (pas_ext _ (leaf (m_mem s) T)) in Ha by (intros; by rewrite Hl).
    eapply space_apart; [exact Hsp|exact Ha|exact Hb|]. right. eauto.
Qed.

(** [uvmcreate] next to an existing address space. *)
Lemma space_create s T root q L n (s' := uvmcreate_post s q) :
  space s T root (q :: L) n →
  space s' T root L n ∧ space s' {[ [] := q ]} q L 0 ∧
  ∀ b, table_bytes T b ∨ page_bytes (pas (leaf (m_mem s') T) 0 (Z.to_nat n)) b →
    ¬ pt_bytes {[ [] := q ]} L b.
Proof.
  intros Hsp. pose proof (proj1 (proj2 (sp_vm _ _ _ _ _ Hsp))) as Hf.
  destruct (uvmcreate_ok s q L Hf) as [_ [_ Hst]].
  split; [exact (proj1 (space_filled s T root q L n _ Hsp Hst))|].
  split; [exact (space_fresh s q L Hf)|]. intros b. by apply (fresh_apart s T root q L n _ b Hsp).
Qed.

(** ** Samples: a process of two pages, and an empty child next to it *)

Definition sample_user : machine :=
  final sample_fresh (uvmalloc sample_root 0 8192 PTE_W [] sample_fresh).

Lemma sample_user_grown : ∃ T L,
  grown sample_root sample_fresh {[ [] := sample_root ]} (tail (booted_pages 8)) 0
    (λ _, Z.lor (Z.lor PTE_R PTE_U) PTE_W) (λ _, 0) sample_user T L 2.
Proof.
  destruct (uvmalloc_grows [] sample_root sample_fresh {[ [] := sample_root ]}
    (tail (booted_pages 8)) 0 8192 PTE_W (not_elem_of_nil _)) as (r & s' & T & L & Hrun & Hr);
    [done|apply space_fresh, booted_free|done|done|].
  assert (uvmalloc sample_root 0 8192 PTE_W [] sample_fresh = Ok 8192 [] sample_user) as Hrun'
    by (apply returns_final; vm_compute; done).
  rewrite Hrun' in Hrun. apply Ok_inj in Hrun as (<- & _ & <-).
  destruct Hr as [[_ Hr]|[Hr _]]; [|discriminate Hr]. by exists T, L.
Qed.

Lemma sample_user_list : ∃ T q L,
  space sample_user T sample_root (q :: L) 2 ∧ m_freelist sample_user = q.
Proof.
  destruct sample_user_grown as (T & L & Hgr). pose proof (gr_space _ _ _ _ _ _ _ _ _ _ _ Hgr) as Hsp.
  clear Hgr. destruct L as [|q L].
  - destruct (sp_vm _ _ _ _ _ Hsp) as (_ & (HC & _) & _). exfalso. simpl in HC.
    revert HC. clear. vm_compute. discriminate.
  - exists T, q, L. split; [done|]. by destruct (sp_vm _ _ _ _ _ Hsp) as (_ & ((-> & _) & _) & _).
Qed.

(** ** Properties *)

(** C22: [uvmalloc] grows the address space to [newsz] bytes: the new pages come
    from the free list, are zero, and are readable by the user with [xperm]
    added; the old pages and mappings are unchanged.  When memory runs out it
    returns 0, with the address space as it was and every data page back on the
    free list. *)
Theorem uvmalloc_correct h root s T L oldsz newsz xperm
    (grows := grown root s T L (npages oldsz) (λ _, Z.lor (Z.lor PTE_R PTE_U) xperm) (λ _, 0)) :
  L_kmem ∉ h → 0 ≤ xperm < 1024 → space s T root L (npages oldsz) →
  0 ≤ oldsz ≤ newsz → newsz ≤ TRAPFRAME →
  ∃ r s' T' L', uvmalloc root oldsz newsz xperm h s = Ok r h s' ∧
    (r = newsz ∧ grows s' T' L' (npages newsz) ∨
     r = 0 ∧ grows s' T' L' (npages oldsz) ∧ Z.of_nat (length L) < 3 * (npages newsz - npages oldsz)).
Proof. apply uvmalloc_grows. Qed.

Lemma uvmalloc_correct_witness :
  let grows := grown sample_root sample_fresh {[ [] := sample_root ]} (tail (booted_pages 8)) 0
    (λ _, Z.lor (Z.lor PTE_R PTE_U) PTE_W) (λ _, 0) in
  ∃ r s' T' L', uvmalloc sample_root 0 8192 PTE_W [] sample_fresh = Ok r [] s' ∧
    (r = 8192 ∧ grows s' T' L' (npages 8192) ∨ r = 0 ∧ grows s' T' L' 0 ∧ 7 < 3 * (2 - 0)).
Proof.
  refine (uvmalloc_correct [] sample_root sample_fresh _ _ 0 8192 PTE_W
    (not_elem_of_nil _) _ (space_fresh _ _ _ booted_free) _ _); done.
Defined.

(** [uvmdealloc] shrinks the address space to [newsz] bytes (or leaves it
    when [newsz] is not smaller): the pages cut off are returned to the free
    list, every other mapping is unchanged, and only tables and the freed pages
    are written. *)
Theorem uvmdealloc_correct h s T root L oldsz newsz n'
    (D := pas (leaf (m_mem s) T) (n' * 4096) (Z.to_nat (npages oldsz - n'))) :
  L_kmem ∉ h → space s T root L (npages oldsz) → 0 ≤ oldsz → 0 ≤ newsz →
  n' = npages (Z.min oldsz newsz) →
  ∃ s', uvmdealloc root oldsz newsz h s = Ok (Z.min oldsz newsz) h s' ∧
    space s' T root (reverse D ++ L) n' ∧
    (∀ v, 0 ≤ v < MAXVA → v < n' * 4096 ∨ npages oldsz * 4096 ≤ v →
       leaf (m_mem s') T v = leaf (m_mem s) T v) ∧
    steps_in (λ b, table_bytes T b ∨ page_bytes D b) s s'.
Proof. apply uvmdealloc_spec. Qed.

Lemma uvmdealloc_correct_witness : ∃ T L s',
  space sample_user T sample_root L 2 ∧
  uvmdealloc sample_root 8192 100 [] sample_user = Ok 100 [] s' ∧
  space s' T sample_root (reverse (pas (leaf (m_mem sample_user) T) 4096 1) ++ L) 1.
Proof.
  destruct sample_user_list as (T & q & L & Hsp & _).
  destruct (uvmdealloc_correct [] sample_user T sample_root (q :: L) 8192 100 1
    (not_elem_of_nil _) Hsp) as (s' & Hrun & Hsp' & _); [done..|].
  exists T, (q :: L), s'. split; [exact Hsp|]. split; [exact Hrun|exact Hsp'].
Defined.

(** C21: [uvmcopy] gives the child, page by page, the bytes and permissions of
    the parent and leaves the parent as it was.  When memory runs out, which three
    free pages for each page of the parent prevent, it returns -1, with the child
    empty again and all its data pages freed. *)
Theorem uvmcopy_correct h old new s To T0 L n sz :
  L_kmem ∉ h → space s To old L n → space s T0 new L 0 →
  (∀ b, table_bytes To b ∨ page_bytes (pas (leaf (m_mem s) To) 0 (Z.to_nat n)) b →
     ¬ pt_bytes T0 L b) →
  n = npages sz → 0 ≤ sz →
  ∃ r s' T' L', uvmcopy old new sz h s = Ok r h s' ∧
    (r = 0 ∧ space s' T' new L' n ∧
       (∀ va (pa := PTE2PA (leaf (m_mem s) To va)) (pa' := PTE2PA (leaf (m_mem s') T' va)),
          0 ≤ va < n * 4096 →
          PTE_FLAGS (leaf (m_mem s') T' va) = PTE_FLAGS (leaf (m_mem s) To va) ∧
          load8 (m_mem s') (pa' + va mod 4096) = load8 (m_mem s) (pa + va mod 4096)) ∨
     r = -1 ∧ space s' T' new L' 0 ∧ took T0 L [] T' L' ∧ Z.of_nat (length L) < 3 * n) ∧
    ∀ va, leaf (m_mem s') To va = leaf (m_mem s) To va ∧
      (0 ≤ va < n * 4096 → let pa := PTE2PA (leaf (m_mem s) To va) in
       load8 (m_mem s') (pa + va mod 4096) = load8 (m_mem s) (pa + va mod 4096)).
Proof.
  intros Hh Ho Hnew Hap Hn Hsz.
  destruct (uvmcopy_copies h old new s To T0 L n Hh Ho Hnew Hap sz Hn Hsz)
    as (r & s' & T' & L' & Hrun & Hr). exists r, s', T', L'. split; [done|]. split.
  - destruct Hr as [[-> Hc]|(-> & Hc & Hlen)]; [left|right]; (split; [done|]).
    + destruct Hc as [Hsp _ _ Hfl Hby _]. split; [done|]. intros va pa pa' Hva.
      split; [|by apply Hby]. rewrite Hfl by done. by eapply copied_flags.
    + destruct Hc as [Hsp Htk _ _ _ _]. split; [done|]. split; [exact Htk|done].
  - intros va. destruct Hr as [[_ Hc]|(_ & Hc & _)];
      destruct (copy_parent old new s To T0 L n Ho Hap s' T' L' _ Hc) as (_ & Hl & Hb);
      (split; [done|exact (Hb va)]).
Qed.

Lemma uvmcopy_correct_witness : ∃ T q L r s' T' L',
  let s := uvmcreate_post sample_user q in
  space s T sample_root L 2 ∧ space s {[ [] := q ]} q L 0 ∧
  uvmcopy sample_root q 8192 [] s = Ok r [] s' ∧
  (r = 0 ∧ space s' T' q L' 2 ∨ r = -1 ∧ space s' T' q L' 0).
Proof.
  destruct sample_user_list as (T & q & L & Hsp & _).
  destruct (space_create sample_user T sample_root q L 2 Hsp) as (Hsp1 & Hsp2 & Hap).
  destruct (uvmcopy_correct [] sample_root q (uvmcreate_post sample_user q) T {[ [] := q ]} L 2 8192
    (not_elem_of_nil _) Hsp1 Hsp2 Hap) as (r & s' & T' & L' & Hrun & Hr & _); [done|done|].
  exists T, q, L, r, s', T', L'. split; [exact Hsp1|]. split; [exact Hsp2|]. split; [exact Hrun|].
  destruct Hr as [(? & ? & _)|(? & ? & _)]; auto.
Defined.
