(* ===== verification/FreeWalk.v ===== *)
(** * Tearing a page table down (kernel/vm.c: freewalk, uvmfree)

    [tpages] lists the table pages of a tree.  [freewalk] on a tree without leaf
    mappings returns all of them to the allocator, each once. *)

From S2P Require Import Prelude CString Riscv Kalloc Vm PageTable AddrSpace.

(** The pages of the children of a table, entry by entry, from entry [i] on. *)
Definition kids_from (kids : Z → list Z) (i k : Z) : list Z := seqZ i k ≫= kids.
Arguments kids_from : simpl never.

Lemma kids_from_cons kids i k :
  0 < k → kids_from kids i k = kids i ++ kids_from kids (i + 1) (k - 1).
Proof.
  intros Hk. unfold kids_from. rewrite seqZ_cons by done. rewrite bind_cons.
  by rewrite <- Z.add_1_r, <- Z.sub_1_r.
Qed.

Lemma elem_of_kids_from kids i k q :
  q ∈ kids_from kids i k ↔ ∃ j, i ≤ j < i + k ∧ q ∈ kids j.
Proof.
  unfold kids_from. rewrite list_elem_of_bind. setoid_rewrite elem_of_seqZ. naive_solver.
Qed.

(** [P] is the list of the pages of a tree of [d] levels of tables rooted at the
    page [a], read from memory. *)
Fixpoint tree_at (d : nat) (m : mem) (a : Z) (P : list Z) : Prop :=
  match d with
  | O => False
  | S d => ∃ kids : Z → list Z,
      P = a :: kids_from kids 0 512 ∧
      ∀ i, 0 ≤ i < 512 →
        let e := load64 m (pte_at a i) in
        if has e PTE_V
        then Z.land e (Z.lor (Z.lor PTE_R PTE_W) PTE_X) = 0 ∧ tree_at d m (PTE2PA e) (kids i)
        else kids i = []
  end.

(** A tree only depends on its own pages. *)
Lemma tree_at_frame d m1 m2 a P :
  (∀ b, page_bytes P b → load8 m2 b = load8 m1 b) → tree_at d m1 a P → tree_at d m2 a P.
Proof.
  revert a P. induction d as [|d IH]; intros a P HF; simpl; [done|].
  intros (kids & -> & H). exists kids. split; [done|]. intros i Hi.
  assert (load64 m2 (pte_at a i) = load64 m1 (pte_at a i)) as ->.
  { apply load64_ext. intros b Hb. apply HF. exists a. split; [by left|]. by eapply pte_in_page. }
  specialize (H i Hi). cbv zeta in *. destruct (has _ PTE_V); [|done].
  destruct H as [Hrwx Ht]. split; [done|]. apply IH; [|done].
  intros b (q & Hq & Hb). apply HF. exists q. split; [|done]. right.
  apply elem_of_kids_from. exists i. split; [lia|done].
Qed.

(** What [freewalk] and each part of its loop owns: [P] to be freed, [L] free. *)
Definition owns (s : machine) (L P : list Z) : Prop :=
  free_inv s L ∧ NoDup (P ++ L) ∧ Forall (ram_page s) P.

(** The pages [P] are given back to the allocator and only [W] is written. *)
Definition gives_back (h : list lockid) (s : machine) (L P W : list Z)
    (out : outcome machine unit) : Prop :=
  ∃ s' L', out = Ok tt h s' ∧ free_inv s' L' ∧ L' ≡ₚ P ++ L ∧ steps_in (page_bytes W) s s'.

Lemma page_bytes_mono P1 P2 b : P1 ⊆ P2 → page_bytes P1 b → page_bytes P2 b.
Proof. intros H (q & Hq & Hb). exists q. auto. Qed.

Lemma pages_apart s P1 P2 b :
  NoDup (P1 ++ P2) → Forall (ram_page s) P1 → Forall (ram_page s) P2 →
  page_bytes P1 b → ¬ page_bytes P2 b.
Proof.
  rewrite !Forall_forall. intros (_ & HN & _)%NoDup_app H1 H2 (p & Hp & Hb) (q & Hq & Hc).
  apply (ram_page_disjoint s p q b); auto. intros ->. by eapply HN.
Qed.

(** Entry [i] of the table [a] leads to the tree with pages [P]. *)
Definition entry_ok (d : nat) (m : mem) (a i : Z) (P : list Z) : Prop :=
  let e := load64 m (pte_at a i) in
  if has e PTE_V
  then Z.land e (Z.lor (Z.lor PTE_R PTE_W) PTE_X) = 0 ∧ tree_at d m (PTE2PA e) P
  else P = [].

Lemma entry_ok_frame d m1 m2 a i P :
  load64 m2 (pte_at a i) = load64 m1 (pte_at a i) →
  (∀ b, page_bytes P b → load8 m2 b = load8 m1 b) →
  entry_ok d m1 a i P → entry_ok d m2 a i P.
Proof.
  unfold entry_ok. intros -> HF. destruct (has _ PTE_V); [|done].
  intros [? ?]. split; [done|]. by eapply tree_at_frame.
Qed.

Section Entries.
Context (h : list lockid) (d : nat) (a : Z) (kids : Z → list Z).
Context (Hh : L_kmem ∉ h)
  (Hrec : ∀ a' P s L, tree_at d (m_mem s) a' P → owns s L P →
     gives_back h s L P P (freewalk d a' h s)).

(** One entry: its subtree is freed, the entries after it are as they were. *)
Lemma freewalk_entry k i s L :
  0 ≤ i → i + Z.of_nat (S k) = 512 → (∀ j, i ≤ j < 512 → entry_ok d (m_mem s) a j (kids j)) →
  owns s L (a :: kids_from kids i (Z.of_nat (S k))) →
  ∃ s' L', freewalk_entries (freewalk d) a (S k) i h s =
      freewalk_entries (freewalk d) a k (i + 1) h s' ∧
    (∀ j, i + 1 ≤ j < 512 → entry_ok d (m_mem s') a j (kids j)) ∧
    owns s' L' (a :: kids_from kids (i + 1) (Z.of_nat k)) ∧ L' ≡ₚ kids i ++ L ∧
    steps_in (page_bytes (a :: kids i)) s s'.
Proof.
  intros Hi Hk He (Hf & HN & HR). rewrite kids_from_cons in HN, HR by lia.
  replace (Z.of_nat (S k) - 1) with (Z.of_nat k) in * by lia.
  set (R := kids_from kids (i + 1) (Z.of_nat k)) in *.
  apply Forall_cons in HR as [Ha HR]. apply Forall_app in HR as [HRi HRR].
  assert (∀ j, i + 1 ≤ j < 512 → ∀ q, q ∈ kids j → q ∈ R) as HRj.
  { intros j Hj q Hq. apply elem_of_kids_from. exists j. split; [lia|done]. }
  assert (NoDup (R ++ a :: kids i ++ L)) as HNR.
  { eapply NoDup_perm; [|exact HN]. solve_Permutation. }
  pose proof HNR as (_ & HR' & (Ha' & HNi)%NoDup_cons)%NoDup_app.
  cbn [freewalk_entries]. unfold load_pte. rewrite bind_gets.
  pose proof (He i ltac:(lia)) as Hei. unfold entry_ok in Hei. cbv zeta in Hei.
  destruct (has (load64 (m_mem s) (pte_at a i)) PTE_V).
  2:{ rewrite Hei in *. exists s, L. split; [done|].
      split; [intros j Hj; apply He; lia|]. split; [|split; [done|apply steps_in_refl]].
      split; [done|]. split; [|by constructor].
      eapply NoDup_perm; [|exact HNR]. solve_Permutation. }
  destruct Hei as [-> Htree]. cbn [andb Z.eqb].
  destruct (Hrec _ _ s L Htree ltac:(done)) as (s1 & L1 & Hrun & Hf1 & HL1 & Hst1).
  set (s2 := upd_mem (λ m, store64 m (pte_at a i) 0) s1).
  assert (steps_in (page_bytes (a :: kids i)) s s2) as Hst2.
  { eapply (steps_in_trans _ _ s1).
    - eapply steps_in_mono; [exact Hst1|]. intros b. apply page_bytes_mono. set_solver.
    - apply steps_in_upd. eapply frame_mono; [apply frame_store64_page; lia|].
      intros b Hb. exists a. split; [by left|done]. }
  assert (∀ b, page_bytes R b → ¬ page_bytes (a :: kids i) b) as Hap.
  { intros b. apply (pages_apart s); [|done|by constructor].
    rewrite app_comm_cons, app_assoc in HNR. by apply NoDup_app in HNR as (? & _). }
  exists s2, L1. split_and!.
  - rewrite !bind_assoc. erewrite bind_Ok by exact Hrun. done.
  - intros j Hj. eapply entry_ok_frame; [| |by apply He; lia].
    + unfold s2; simpl. rewrite load64_store64_ne by (unfold pte_at; lia).
      eapply frame_load64; [apply Hst1|]. intros b Hb (q & Hq & Hc).
      apply (ram_page_disjoint s a q b); [done|by rewrite Forall_forall in HRi; apply HRi| | |done].
      * intros ->. set_solver.
      * eapply pte_in_page; [|done]. lia.
    + intros b Hb. apply Hst2, Hap. eapply page_bytes_mono; [|done]. intros q. by apply HRj.
  - split; [|split].
    + eapply free_inv_frame; [apply frame_store64_page; lia| |done].
      intros p b Hp. destruct Hf1 as (_ & _ & HR1). rewrite Forall_forall in HR1.
      apply (ram_page_disjoint s1); [by apply HR1| |].
      * destruct Hst1 as [E _]. unfold ram_page. rewrite E. done.
      * intros ->. rewrite HL1 in Hp. set_solver.
    + eapply NoDup_perm; [|exact HNR]. rewrite HL1. solve_Permutation.
    + destruct Hst2 as [E _]. constructor; [|eapply Forall_impl; [done|]; intros q];
        unfold ram_page; by rewrite E.
  - done.
  - done.
Qed.

Lemma freewalk_entries_spec k : ∀ i s L,
  0 ≤ i → i + Z.of_nat k = 512 → (∀ j, i ≤ j < 512 → entry_ok d (m_mem s) a j (kids j)) →
  owns s L (a :: kids_from kids i (Z.of_nat k)) →
  gives_back h s L (kids_from kids i (Z.of_nat k)) (a :: kids_from kids i (Z.of_nat k))
    (freewalk_entries (freewalk d) a k i h s).
Proof.
  induction k as [|k IH]; intros i s L Hi Hk He Ho.
  { exists s, L. split; [done|]. split; [apply Ho|]. split; [done|apply steps_in_refl]. }
  destruct (freewalk_entry k i s L Hi Hk He Ho) as (s1 & L1 & -> & He1 & Ho1 & HL1 & Hst1).
  destruct (IH (i + 1) s1 L1) as (s2 & L2 & Hrun & Hf2 & HL2 & Hst2); [lia|lia|done..|].
  exists s2, L2. split; [done|]. split; [done|].
  rewrite kids_from_cons by lia. replace (Z.of_nat (S k) - 1) with (Z.of_nat k) by lia. split.
  - rewrite HL2, HL1. solve_Permutation.
  - eapply steps_in_trans; (eapply steps_in_mono; [eassumption|]);
      intros b; apply page_bytes_mono; set_solver.
Qed.
End Entries.

Lemma freewalk_tree h d : L_kmem ∉ h → ∀ a P s L,
  tree_at d (m_mem s) a P → owns s L P → gives_back h s L P P (freewalk d a h s).
Proof.
  intros Hh. induction d as [|d IH]; intros a P s L Ht Ho; [done|].
  destruct Ht as (kids & -> & He). cbn [freewalk].
  destruct (freewalk_entries_spec h d a kids Hh IH 512 0 s L)
    as (s1 & L1 & Hrun & Hf1 & HL1 & Hst1); [done|done| |done|].
  { intros j Hj. by apply He. }
  destruct Ho as (_ & HN & HR). apply Forall_cons in HR as [Ha _].
  apply NoDup_cons in HN as [Ha' _].
  assert (ram_page s1 a) as Ha1 by (destruct Hst1 as [E _]; unfold ram_page; by rewrite E).
  assert (a ∉ L1) as HaL1 by (rewrite HL1; done).
  destruct (kfree_post_inv s1 a L1 Hf1 Ha1 HaL1) as [Hf2 Hst2].
  exists (kfree_post s1 a), (a :: L1). split; [|split; [done|split]].
  - erewrite bind_Ok by exact Hrun. by apply kfree_run.
  - rewrite HL1. done.
  - eapply steps_in_trans; [exact Hst1|]. eapply steps_in_mono; [exact Hst2|].
    intros b Hb. exists a. split; [by left|done].
Qed.

(** ** The pages of a page table *)

(** The table pages at and below path [p]. *)
Fixpoint tpages (d : nat) (T : ptree) (p : list Z) : list Z :=
  match d, T !! p with
  | S d, Some a => a :: kids_from (λ i, tpages d T (p ++ [i])) 0 512
  | _, _ => []
  end.

(** No last-level table has a valid entry. *)
Definition no_leaves (m : mem) (T : ptree) : Prop :=
  ∀ p a i, T !! p = Some a → length p = 2%nat → 0 ≤ i < 512 →
    has (load64 m (pte_at a i)) PTE_V = false.

Lemma pointer_rwx b :
  page_addr b → Z.land (Z.lor (PA2PTE b) PTE_V) (Z.lor (Z.lor PTE_R PTE_W) PTE_X) = 0.
Proof.
  intros Hb. apply Z.bits_inj'. intros i Hi. rewrite Z.land_spec, Z.bits_0.
  change (Z.lor (Z.lor PTE_R PTE_W) PTE_X) with 14.
  destruct (decide (i < 10)) as [H10|H10].
  - pose proof (has_make_pte b PTE_V i Hb ltac:(done) ltac:(lia)) as E.
    rewrite has_bit in E by lia. rewrite E.
    assert (i = 0 ∨ i = 1 ∨ i = 2 ∨ i = 3 ∨ i = 4 ∨ i = 5 ∨ i = 6 ∨ i = 7 ∨ i = 8 ∨ i = 9)
      as Hc by lia.
    by repeat destruct Hc as [->|Hc]; [..|subst].
  - rewrite (Z.bits_above_log2 14) by (simpl; lia). by rewrite andb_false_r.
Qed.

Lemma tpages_tree m T root d p a :
  pt_ok m T root → no_leaves m T → T !! p = Some a → (length p + d = 3)%nat →
  tree_at d m a (tpages d T p).
Proof.
  intros Hpt Hnl. revert p a. induction d as [|d IH]; intros p a Ha Hd.
  { destruct (pt_addr _ _ _ Hpt p a Ha). lia. }
  cbn [tpages tree_at]. rewrite Ha. exists (λ i, tpages d T (p ++ [i])). split; [done|].
  intros i Hi. cbv zeta. destruct (decide (length p = 2%nat)) as [E|E].
  - rewrite (Hnl p) by done. destruct d; [done|lia].
  - pose proof (pt_entry _ _ _ Hpt p a i Ha) as He.
    destruct (pt_addr _ _ _ Hpt p a Ha) as [_ Hlen].
    specialize (He ltac:(lia) Hi). destruct (T !! (p ++ [i])) as [b|] eqn:Hb.
    + destruct (pt_addr _ _ _ Hpt _ b Hb) as [Hpb _]. rewrite He.
      destruct (pointer_pte b Hpb) as [-> ->]. split; [by apply pointer_rwx|].
      apply IH; [done|]. rewrite length_app. simpl. lia.
    + rewrite He. destruct d; simpl; [done|by rewrite Hb].
Qed.

(** Every last-level entry translates some virtual address. *)
Lemma leaf_of_entry m T root p a i :
  pt_ok m T root → T !! p = Some a → length p = 2%nat → 0 ≤ i < 512 →
  ∃ va, 0 ≤ va < MAXVA ∧ leaf m T va = load64 m (pte_at a i).
Proof.
  intros Hpt Ha Hlen Hi. destruct p as [|i2 [|i1 [|]]]; try done. clear Hlen.
  destruct (pt_parent _ _ _ Hpt [i2] i1) as [Hs Hi1]; [by eexists|].
  destruct (pt_parent _ _ _ Hpt [] i2) as [_ Hi2]; [done|].
  pose proof (pt_low _ _ _ Hpt i2 [] Hs) as Hlow.
  set (va := ((i2 * 512 + i1) * 512 + i) * 4096).
  assert (MAXVA = 256 * 512 * 512 * 4096) as HM by done.
  assert (0 ≤ va < MAXVA) as Hva by (unfold va; lia).
  exists va. split; [done|]. unfold leaf.
  assert (PX 2 va = i2 ∧ PX 1 va = i1 ∧ PX 0 va = i) as (-> & -> & ->); [|by rewrite Ha].
  rewrite !PX_eq by lia. simpl (12 + _). change (2 ^ 30) with (512 * 512 * 4096).
  change (2 ^ 21) with (512 * 4096). change (2 ^ 12) with 4096.
  pose proof (PX_range 0 va). unfold va. split_and!.
  - symmetry. apply Z.mod_unique with 0; [lia|]. rewrite Z.mul_0_r, Z.add_0_l.
    symmetry. apply Z.div_unique with ((i1 * 512 + i) * 4096); lia.
  - symmetry. apply Z.mod_unique with i2; [lia|].
    symmetry. apply Z.div_unique with (i * 4096); lia.
  - rewrite Z.div_mul by lia. symmetry. apply Z.mod_unique with (i2 * 512 + i1); lia.
Qed.

Lemma no_leaves_of_leaf m T root :
  pt_ok m T root → (∀ va, 0 ≤ va < MAXVA → has (leaf m T va) PTE_V = false) → no_leaves m T.
Proof.
  intros Hpt H p a i Ha Hlen Hi.
  destruct (leaf_of_entry m T root p a i Hpt Ha Hlen Hi) as (va & Hva & <-). by apply H.
Qed.

Lemma pt_prefix m T root p r :
  pt_ok m T root → is_Some (T !! (p ++ r)) → is_Some (T !! p).
Proof.
  intros Hpt. induction r as [|x r IH] using rev_ind; [by rewrite app_nil_r|].
  rewrite app_assoc. intros Hs. by apply IH, (pt_parent _ _ _ Hpt _ x).
Qed.

Lemma elem_of_tpages m T root d p q :
  pt_ok m T root → (length p + d = 3)%nat →
  q ∈ tpages d T p ↔ ∃ r, T !! (p ++ r) = Some q.
Proof.
  intros Hpt. revert p. induction d as [|d IH]; intros p Hd; simpl.
  { split; [set_solver|]. intros (r & Hr). destruct (pt_addr _ _ _ Hpt _ _ Hr) as [_ Hl].
    rewrite length_app in Hl. lia. }
  destruct (T !! p) as [a|] eqn:Ha.
  2:{ split; [set_solver|]. intros (r & Hr).
      destruct (pt_prefix m T root p r) as [? ?]; [done|by eexists|]. congruence. }
  rewrite elem_of_cons, elem_of_kids_from. split.
  - intros [->|(i & Hi & Hq)]; [exists []; by rewrite app_nil_r|].
    apply IH in Hq as (r & Hr); [|rewrite length_app; simpl; lia].
    exists (i :: r). by rewrite <- app_assoc in Hr.
  - intros ([|i r] & Hr); [left; rewrite app_nil_r in Hr; congruence|right].
    rewrite cons_middle, app_assoc in Hr.
    exists i. split; [|apply IH; [rewrite length_app; simpl; lia|eauto]].
    destruct (pt_prefix m T root (p ++ [i]) r) as [b Hb]; [done|by eexists|].
    destruct (pt_parent _ _ _ Hpt p i) as [_ ?]; [by eexists|]. lia.
Qed.

Lemma NoDup_tpages m T root d p :
  pt_ok m T root → (length p + d = 3)%nat → NoDup (tpages d T p).
Proof.
  intros Hpt. revert p. induction d as [|d IH]; intros p Hd; simpl; [constructor|].
  destruct (T !! p) as [a|] eqn:Ha; [|constructor].
  assert (∀ i q, q ∈ tpages d T (p ++ [i]) ↔ ∃ r, T !! ((p ++ [i]) ++ r) = Some q) as Hel.
  { intros i q. apply (elem_of_tpages m T root); [done|]. rewrite length_app. simpl. lia. }
  apply NoDup_cons. split.
  - rewrite elem_of_kids_from. intros (i & _ & (r & Hr)%Hel).
    pose proof (pt_inj _ _ _ Hpt _ _ _ Ha Hr) as E. apply (f_equal length) in E.
    rewrite !length_app in E. simpl in E. lia.
  - apply NoDup_bind; [|intros i _; apply IH; rewrite length_app; simpl; lia|apply NoDup_seqZ].
    intros i j q _ _ (r1 & H1)%Hel (r2 & H2)%Hel.
    pose proof (pt_inj _ _ _ Hpt _ _ _ H1 H2) as E. rewrite <- !app_assoc in E.
    apply app_inv_head in E. by injection E.
Qed.

Arguments tpages : simpl never.

(** ** freewalk and uvmfree *)

(** Every page of the tables is free again, nothing else is touched. *)
Lemma freewalk_frees h s T root L :
  L_kmem ∉ h → vm_ok s T root L → no_leaves (m_mem s) T →
  gives_back h s L (tpages 3 T []) (tpages 3 T []) (freewalk 3 root h s).
Proof.
  intros Hh (Hpt & Hf & HT) Hnl. apply freewalk_tree; [done| |].
  { exact (tpages_tree _ _ _ 3 [] root Hpt Hnl (pt_root _ _ _ Hpt) eq_refl). }
  assert (∀ q, q ∈ tpages 3 T [] → ram_page s q ∧ q ∉ L) as Hq.
  { intros q Hq. apply (elem_of_tpages (m_mem s) T root) in Hq as (p & Hp); [|done..].
    by eapply HT. }
  split; [done|]. split.
  - apply NoDup_app. split; [by eapply NoDup_tpages|]. split; [|apply Hf].
    intros q. apply Hq.
  - apply Forall_forall. intros q. apply Hq.
Qed.

(** [uvmfree] returns the data pages and the table pages of an address space to
    the allocator. *)
Lemma uvmfree_frees h s T root L sz
    (D := pas (leaf (m_mem s) T) 0 (Z.to_nat (npages sz))) :
  L_kmem ∉ h → 0 ≤ sz → space s T root L (npages sz) →
  (∀ va, TRAPFRAME ≤ va < MAXVA → has (leaf (m_mem s) T va) PTE_V = false) →
  gives_back h s L (tpages 3 T [] ++ D) (tpages 3 T [] ++ D) (uvmfree root sz h s).
Proof.
  intros Hh Hsz Hsp Htop. destruct grow_max as [HTM HM].
  pose proof (sp_size _ _ _ _ _ Hsp) as Hn.
  destruct (space_shrink h s T root L (npages sz) 0 Hh Hsp ltac:(lia))
    as (s1 & Hrun1 & Hsp1 & Hl1 & Hst1). rewrite Z.mul_0_l, Z.sub_0_r in *. fold D in Hsp1, Hst1.
  assert (Hrun : when (sz >? 0) (uvmunmap root 0 (PGROUNDUP sz / PGSIZE) true) h s = Ok tt h s1).
  { assert (sz ≤ npages sz * 4096) as Hsz'.
    { unfold npages. pose proof (Z.div_mod (sz + 4095) 4096).
      pose proof (Z.mod_pos_bound (sz + 4095) 4096). lia. }
    rewrite PGROUNDUP_small by (change (2 ^ 64) with 18446744073709551616;
      assert (MAXVA < 18446744073709551616) by done; lia).
    fold (npages sz). unfold PGSIZE. rewrite Z.div_mul by lia.
    rewrite Z.gtb_ltb. destruct (Z.ltb_spec 0 sz) as [|Hz]; [done|].
    replace (npages sz) with 0 in Hrun1 by (replace sz with 0 by lia; done).
    unfold when. rewrite <- Hrun1. done. }
  destruct (freewalk_frees h s1 T root (reverse D ++ L)) as (s2 & L2 & Hrun2 & Hf2 & HL2 & Hst2);
    [done|apply Hsp1| |].
  { eapply no_leaves_of_leaf; [apply Hsp1|]. intros va Hva.
    destruct (decide (va < TRAPFRAME)).
    - apply (sp_above _ _ _ _ _ Hsp1). lia.
    - rewrite Hl1 by lia. apply Htop. lia. }
  exists s2, L2. split; [unfold uvmfree; by erewrite bind_Ok by exact Hrun|]. split; [done|]. split.
  - rewrite HL2, (reverse_Permutation D). solve_Permutation.
  - eapply steps_in_trans; (eapply steps_in_mono; [eassumption|]).
    + intros b [(p & a & Ha & Hb)|Hb]; [|eapply page_bytes_mono; [|done]; intros q Hq; apply elem_of_app; auto].
      exists a. split; [|done]. apply elem_of_app. left.
      eapply (elem_of_tpages (m_mem s) T root 3 []); [apply Hsp|done|eauto].
    + intros b Hb. eapply page_bytes_mono; [|done]. intros q Hq. apply elem_of_app. auto.
Qed.

(** ** Properties *)

(** C25: [uvmfree] leaks nothing: the free list afterwards is the free list
    before, plus every data page below [sz], plus every page of the page table
    (the pages of [T]), each exactly once; nothing else in memory changes. *)
Theorem uvmfree_no_leak h s T root L sz :
  L_kmem ∉ h → 0 ≤ sz → space s T root L (npages sz) →
  (∀ va, TRAPFRAME ≤ va < MAXVA → has (leaf (m_mem s) T va) PTE_V = false) →
  ∃ s' L' P, uvmfree root sz h s = Ok tt h s' ∧ free_inv s' L' ∧
    L' ≡ₚ P ++ pas (leaf (m_mem s) T) 0 (Z.to_nat (npages sz)) ++ L ∧
    (∀ q, q ∈ P ↔ ∃ p, T !! p = Some q) ∧
    ∀ b, (∀ q, q ∈ L' → q ∉ L → ¬ in_page q b) → load8 (m_mem s') b = load8 (m_mem s) b.
Proof.
  intros Hh Hsz Hsp Htop.
  destruct (uvmfree_frees h s T root L sz Hh Hsz Hsp Htop) as (s' & L' & Hrun & Hf & HL & _ & Hst).
  exists s', L', (tpages 3 T []). split; [done|]. split; [done|]. rewrite <- app_assoc in HL.
  split; [done|]. split; [intros q; exact (elem_of_tpages _ T root 3 [] q (proj1 (sp_vm _ _ _ _ _ Hsp)) eq_refl)|].
  intros b Hb. apply Hst. intros (q & Hq & Hqb). apply (Hb q).
  - rewrite HL, app_assoc. apply elem_of_app. by left.
  - destruct Hf as (_ & HN & _). apply (NoDup_perm _ _ HL) in HN. rewrite app_assoc in HN.
    apply NoDup_app in HN as (_ & HN & _). by apply HN.
  - done.
Qed.

Lemma sample_user_top T L :
  grown sample_root sample_fresh {[ [] := sample_root ]} (tail (booted_pages 8)) 0
    (λ _, Z.lor (Z.lor PTE_R PTE_U) PTE_W) (λ _, 0) sample_user T L 2 →
  ∀ va, TRAPFRAME ≤ va < MAXVA → has (leaf (m_mem sample_user) T va) PTE_V = false.
Proof.
  intros Hgr va Hva. assert (0 < TRAPFRAME) as HT by done.
  rewrite (gr_old _ _ _ _ _ _ _ _ _ _ _ Hgr) by lia. by rewrite uvmcreate_leaf.
Qed.

Lemma uvmfree_no_leak_witness : ∃ T L s' L' P,
  space sample_user T sample_root L 2 ∧
  uvmfree sample_root 8192 [] sample_user = Ok tt [] s' ∧ free_inv s' L' ∧
  L' ≡ₚ P ++ pas (leaf (m_mem sample_user) T) 0 2 ++ L.
Proof.
  destruct sample_user_grown as (T & L & Hgr).
  pose proof (gr_space _ _ _ _ _ _ _ _ _ _ _ Hgr) as Hsp.
  destruct (uvmfree_no_leak [] sample_user T sample_root L 8192 (not_elem_of_nil _) ltac:(done) Hsp
    (sample_user_top T L Hgr)) as (s' & L' & P & H1 & H2 & H3 & _).
  exists T, L, s', L', P. split; [exact Hsp|]. split; [exact H1|]. split; [exact H2|exact H3].
Defined.
