(* ===== verification/UserMem.v ===== *)
(** * User memory: copyout, copyin, copyinstr (kernel/vm.c)

    User memory is what a page table lets user code reach: [upa] is the physical
    page behind a virtual address (0 when it is not mapped for the user), [uread]
    the byte a user load would see.  The copy loops are shown to move exactly
    the bytes of the virtual range, across page boundaries, and to stop at the
    first page the user could not access. *)

From S2P Require Import Prelude CString Riscv Kalloc Vm PageTable AddrSpace FreeWalk.

Definition upa (s : machine) (T : ptree) (va : Z) : Z := user_pa (leaf (m_mem s) T va).

(** The bytes of the pages open to the user. *)
Definition open_bytes (s : machine) (T : ptree) (b : Z) : Prop :=
  ∃ va, 0 ≤ va < MAXVA ∧ upa s T va ≠ 0 ∧ in_page (upa s T va) b.

Definition uread (s : machine) (T : ptree) (va : Z) : Z :=
  load8 (m_mem s) (upa s T va + va mod 4096).

(** Data pages are managed pages of their own: not table pages, not free, and
    no two virtual pages share one. *)
Definition us_ok (s : machine) (T : ptree) (root : Z) (L : list Z) : Prop :=
  vm_ok s T root L ∧
  (∀ va, 0 ≤ va < MAXVA → upa s T va ≠ 0 →
     ram_page s (upa s T va) ∧ (upa s T va ∉ L) ∧ (∀ p, T !! p ≠ Some (upa s T va))) ∧
  (∀ va va', 0 ≤ va < MAXVA → 0 ≤ va' < MAXVA → upa s T va ≠ 0 →
     upa s T va = upa s T va' → va / 4096 = va' / 4096).

(** ** Writes outside the tables and the free list *)

Lemma us_ok_frame P s T root L m2 :
  us_ok s T root L → frame P (m_mem s) m2 → (∀ b, pt_bytes T L b → ¬ P b) →
  us_ok (set_mem m2 s) T root L ∧ ∀ va, upa (set_mem m2 s) T va = upa s T va.
Proof.
  intros (Hvm & Hd & Hi) HF HP. destruct (vm_ok_frame P s T root L m2 Hvm HF HP) as [Hvm' Hl].
  assert (∀ va, upa (set_mem m2 s) T va = upa s T va) as Hu
    by (intros va; unfold upa; simpl; by rewrite Hl).
  split; [|done]. split_and!; [done|..].
  - intros va. rewrite Hu. apply Hd.
  - intros va va'. rewrite !Hu. apply Hi.
Qed.

(** A data page is disjoint from everything the page-table code owns. *)
Lemma data_page_bytes s T root L va b :
  us_ok s T root L → 0 ≤ va < MAXVA → upa s T va ≠ 0 →
  pt_bytes T L b → ¬ in_page (upa s T va) b.
Proof.
  intros (Hvm & Hd & _) Hva Hu Hb. destruct (Hd va Hva Hu) as (Hram & HL & HT).
  destruct Hvm as (_ & (_ & _ & HR) & Ht). rewrite Forall_forall in HR.
  destruct Hb as [(p & a & Ha & Hb)|(q & Hq & Hb)]; intros Hc.
  - destruct (Ht p a Ha) as [Hra _].
    apply (ram_page_disjoint s a (upa s T va) b); [done..| |done|done].
    intros ->. by destruct (HT p).
  - apply (ram_page_disjoint s q (upa s T va) b); [by apply HR|done| |done|done].
    intros ->. done.
Qed.

Lemma leaf_page m T va :
  0 ≤ va < MAXVA → leaf m T (va / 4096 * 4096) = leaf m T va.
Proof.
  intros Hva. set (a := va / 4096 * 4096).
  assert (0 ≤ a < MAXVA ∧ a / 4096 = va / 4096) as [Ha Hp].
  { unfold a. rewrite Z.div_mul by lia. pose proof (Z.div_mod va 4096).
    pose proof (Z.mod_pos_bound va 4096). pose proof (Z.div_pos va 4096). lia. }
  apply PX_same_page in Hp as (E2 & E1 & E0); [|done..]. unfold leaf. by rewrite E2, E1, E0.
Qed.

Lemma walkaddr_user s T root L va h :
  vm_ok s T root L → 0 ≤ va →
  walkaddr root (PGROUNDDOWN va) h s =
  Ok (if decide (va < MAXVA) then upa s T va else 0) h s.
Proof.
  intros Hok Hva. rewrite PGROUNDDOWN_eq.
  pose proof (Z.div_mod va 4096). pose proof (Z.mod_pos_bound va 4096).
  pose proof (Z.div_pos va 4096). assert (MAXVA = 67108864 * 4096) as HM by done.
  case_decide.
  - erewrite walkaddr_spec; [|apply Hok|lia]. by rewrite leaf_page by lia.
  - unfold walkaddr. by rewrite Z.geb_leb, (proj2 (Z.leb_le _ _)) by lia.
Qed.

(** ** One page of a copy *)

Section WritePage.
Context (s : machine) (T : ptree) (root : Z) (L : list Z) (va : Z) (l : list Z).
Context (Hok : us_ok s T root L) (Hva : 0 ≤ va < MAXVA) (Hu : upa s T va ≠ 0)
  (Hfit : va mod 4096 + Z.of_nat (length l) ≤ 4096) (Hl : bytes l).

Let s' := upd_mem (λ m, store_bytes m (upa s T va + va mod 4096) l) s.

Lemma write_page_frame : frame (in_page (upa s T va)) (m_mem s) (m_mem s').
Proof.
  intros b Hb. unfold s'; simpl. rewrite load8_store_bytes.
  pose proof (Z.mod_pos_bound va 4096). rewrite decide_False; [done|].
  unfold in_page, PGSIZE in Hb. lia.
Qed.

Lemma write_page_ok : us_ok s' T root L ∧ ∀ v, upa s' T v = upa s T v.
Proof.
  apply (us_ok_frame _ _ _ _ _ _ Hok write_page_frame).
  intros b. by apply (data_page_bytes s T root L va b).
Qed.

Lemma write_page_read v :
  0 ≤ v < MAXVA → upa s T v ≠ 0 →
  uread s' T v =
  if decide (va ≤ v < va + Z.of_nat (length l)) then nthZ l (v - va) else uread s T v.
Proof.
  intros Hv Hvu. unfold uread. rewrite (proj2 write_page_ok). unfold s'; simpl.
  rewrite load8_store_bytes. destruct Hok as (_ & Hd & Hinj).
  pose proof (Z.mod_pos_bound va 4096). pose proof (Z.mod_pos_bound v 4096).
  pose proof (Z.div_mod va 4096). pose proof (Z.div_mod v 4096).
  destruct (decide (v / 4096 = va / 4096)) as [Hp|Hp].
  - assert (upa s T v = upa s T va) as ->.
    { apply PX_same_page in Hp as (E2 & E1 & E0); [|done..].
      unfold upa, leaf. by rewrite E2, E1, E0. }
    repeat case_decide; try lia; try done.
    replace (upa s T va + v mod 4096 - (upa s T va + va mod 4096)) with (v - va) by lia.
    apply u8_small. unfold nthZ. apply Forall_nth; [done|lia].
  - rewrite !decide_False; [done|lia|]. intros Hc.
    apply (ram_page_disjoint s (upa s T v) (upa s T va) (upa s T v + v mod 4096)).
    + by apply Hd.
    + by apply Hd.
    + intros E. by apply Hp, Hinj.
    + unfold in_page, PGSIZE. lia.
    + unfold in_page, PGSIZE. lia.
Qed.
End WritePage.

(** ** copyout *)

(** Pages a range touches: the iterations the copy loops need. *)
Definition touched (va len : Z) : Z := (va + len + 4095) / 4096 - va / 4096.

Lemma touched_fuel va len :
  0 ≤ va → 0 ≤ len → touched va len ≤ Z.of_nat (copy_fuel len).
Proof.
  intros Hva Hlen. unfold touched, copy_fuel, PGSIZE.
  pose proof (Z.div_mod va 4096). pose proof (Z.mod_pos_bound va 4096).
  pose proof (Z.div_mod len 4096). pose proof (Z.mod_pos_bound len 4096).
  pose proof (Z.div_mod (va + len + 4095) 4096).
  pose proof (Z.mod_pos_bound (va + len + 4095) 4096).
  pose proof (Z.div_pos len 4096). lia.
Qed.

(** What one iteration copies, and what is left for the next. *)
Lemma chunk_facts va len (n := Z.min (4096 - va mod 4096) len) :
  0 ≤ va → 0 < len →
  0 < n ≤ len ∧ va mod 4096 + n ≤ 4096 ∧
  (n < len → (va / 4096 * 4096 + 4096 = va + n)) ∧
  touched (va / 4096 * 4096 + 4096) (len - n) ≤ touched va len - 1 ∧ 1 ≤ touched va len.
Proof.
  intros Hva Hlen. unfold n, touched.
  pose proof (Z.div_mod va 4096). pose proof (Z.mod_pos_bound va 4096).
  set (v := va / 4096) in *. clearbody v.
  replace ((v * 4096 + 4096) / 4096) with (v + 1)
    by (replace (v * 4096 + 4096) with ((v + 1) * 4096) by lia; by rewrite Z.div_mul).
  split_and!; [lia..| |].
  - assert ((v * 4096 + 4096 + (len - Z.min (4096 - va mod 4096) len) + 4095) / 4096
            ≤ Z.max (v + 1) ((va + len + 4095) / 4096)).
    { destruct (Z.min_spec (4096 - va mod 4096) len) as [[? ->]|[? ->]].
      - replace (v * 4096 + 4096 + (len - (4096 - va mod 4096)) + 4095) with (va + len + 4095) by lia.
        lia.
      - replace (v * 4096 + 4096 + (len - len) + 4095) with (4095 + (v + 1) * 4096) by lia.
        rewrite Z.div_add by lia. change (4095 / 4096) with 0. lia. }
    assert (v + 1 ≤ (va + len + 4095) / 4096) by (apply Z.div_le_lower_bound; lia). lia.
  - assert (v + 1 ≤ (va + len + 4095) / 4096) by (apply Z.div_le_lower_bound; lia). lia.
Qed.

Lemma min_if n len : (if n >? len then len else n) = Z.min n len.
Proof. rewrite Z.gtb_ltb. destruct (Z.ltb_spec len n); lia. Qed.

Lemma page_offset va : va - PGROUNDDOWN va = va mod 4096.
Proof. rewrite PGROUNDDOWN_eq. pose proof (Z.div_mod va 4096). lia. Qed.

(** The user memory after [k] bytes of [src] have been copied out to [va]. *)
Definition written (s s' : machine) (T : ptree) (va k : Z) (src : list Z) : Prop :=
  ∀ v, 0 ≤ v < MAXVA → upa s T v ≠ 0 →
    uread s' T v = if decide (va ≤ v < va + k) then nthZ src (v - va) else uread s T v.

(** A virtual address the user cannot access. *)
Definition unmapped (s : machine) (T : ptree) (va : Z) : Prop :=
  MAXVA ≤ va ∨ upa s T va = 0.

Lemma upa_page s T va va' :
  0 ≤ va < MAXVA → 0 ≤ va' < MAXVA → va' / 4096 = va / 4096 → upa s T va' = upa s T va.
Proof.
  intros Hva Hva' Hp. apply PX_same_page in Hp as (E2 & E1 & E0); [|done..].
  unfold upa, leaf. by rewrite E2, E1, E0.
Qed.

(** A range of mapped user addresses. *)
Definition accessible (s : machine) (T : ptree) (va len : Z) : Prop :=
  ∀ i, 0 ≤ i < len → va + i < MAXVA ∧ upa s T (va + i) ≠ 0.

Lemma accessible_not_unmapped s T va len i :
  accessible s T va len → 0 ≤ i < len → ¬ unmapped s T (va + i).
Proof. intros Ha Hi. destruct (Ha i Hi). unfold unmapped. lia. Qed.

Lemma accessible_nil s T va : accessible s T va 0.
Proof. intros i Hi. lia. Qed.

(** Access to one byte of a page is access to the rest of it. *)
Lemma accessible_page s T va n :
  0 ≤ va < MAXVA → upa s T va ≠ 0 → va mod 4096 + n ≤ 4096 → accessible s T va n.
Proof.
  intros Hva Hu Hfit i Hi. assert (MAXVA = 67108864 * 4096) as HM by done.
  pose proof (Z.div_mod va 4096). pose proof (Z.div_mod (va + i) 4096).
  pose proof (Z.mod_pos_bound va 4096). pose proof (Z.mod_pos_bound (va + i) 4096).
  assert ((va + i) / 4096 = va / 4096) as Hp by lia.
  split; [lia|]. by rewrite (upa_page s T va (va + i)) by lia.
Qed.

Lemma accessible_app s T va n k :
  accessible s T va n → accessible s T (va + n) k → accessible s T va (n + k).
Proof.
  intros H1 H2 i Hi. destruct (decide (i < n)); [apply H1; lia|].
  replace (va + i) with (va + n + (i - n)) by lia. apply H2. lia.
Qed.

(** The outcome of copying [len] bytes to [va]: the first [k] of them are
    written, all of them to addresses the user can access; either they are all
    there are, or the address after them is the first the user cannot access. *)
Definition copyout_post (h : list lockid) (s : machine) (T : ptree) (root : Z) (L : list Z)
    (va : Z) (src : list Z) (len : Z) (out : outcome machine Z) : Prop :=
  ∃ r k s', out = Ok r h s' ∧ us_ok s' T root L ∧
    (∀ v, upa s' T v = upa s T v) ∧ written s s' T va k src ∧ steps_in (open_bytes s T) s s' ∧
    accessible s T va k ∧
    (r = 0 ∧ k = len ∨ r = -1 ∧ 0 ≤ k < len ∧ unmapped s T (va + k)).

Lemma nthZ_app l1 l2 i :
  0 ≤ i → nthZ (l1 ++ l2) i =
  if decide (i < Z.of_nat (length l1)) then nthZ l1 i else nthZ l2 (i - Z.of_nat (length l1)).
Proof.
  intros Hi. unfold nthZ. case_decide.
  - rewrite app_nth1 by lia. done.
  - rewrite app_nth2 by lia. f_equal. lia.
Qed.

Lemma written_nil s T va src : written s s T va 0 src.
Proof. intros v _ _. rewrite decide_False by lia. done. Qed.

Lemma written_app s s1 s2 T va n k l1 l2 :
  (∀ v, upa s1 T v = upa s T v) → n = Z.of_nat (length l1) → 0 ≤ k →
  written s s1 T va n l1 → written s1 s2 T (va + n) k l2 →
  written s s2 T va (n + k) (l1 ++ l2).
Proof.
  intros Hu -> Hk H1 H2 v Hv Hvu. rewrite (H2 v Hv) by by rewrite Hu. rewrite (H1 v Hv Hvu).
  destruct (decide (va ≤ v < va + (Z.of_nat (length l1) + k))).
  - rewrite nthZ_app by lia. repeat case_decide; try lia; try done. f_equal. lia.
  - rewrite !decide_False by lia. done.
Qed.

Lemma copyout_loop_spec h T root L :
  ∀ fuel va src len s,
  us_ok s T root L → 0 ≤ va → len = Z.of_nat (length src) → bytes src → va + len < 2 ^ 64 →
  touched va len ≤ Z.of_nat fuel →
  copyout_post h s T root L va src len (copyout_loop fuel root va src len h s).
Proof.
  induction fuel as [|fuel IH]; intros va src len s Hok Hva Hlen Hb Hmax Hfuel;
    (destruct (Z.gtb_spec len 0) as [Hpos|Hpos];
     [destruct (chunk_facts va len Hva ltac:(lia)) as (Hn & Hfit & Hnext & Ht & Ht1)|
      exists 0, 0, s; cbn [copyout_loop];
      rewrite Z.gtb_ltb, (proj2 (Z.ltb_ge _ _)) by lia;
      split_and!; auto using written_nil, steps_in_refl, accessible_nil; lia]); [lia|].
  set (n := Z.min (4096 - va mod 4096) len) in *.
  cbn [copyout_loop]. rewrite Z.gtb_ltb, (proj2 (Z.ltb_lt _ _)) by lia. cbv zeta.
  rewrite min_if, page_offset. change PGSIZE with 4096. fold n.
  erewrite bind_Ok by (eapply walkaddr_user; [apply Hok|lia]).
  destruct (decide (va < MAXVA ∧ upa s T va ≠ 0)) as [[Hm Hu]|Hno].
  2:{ exists (-1), 0, s. rewrite Z.add_0_r. split_and!; auto using written_nil, steps_in_refl, accessible_nil.
      - case_decide; [|done]. destruct (Z.eqb_spec (upa s T va) 0); [done|naive_solver].
      - right. split_and!; [lia..|]. unfold unmapped. destruct (decide (va < MAXVA)); [right|lia].
        destruct (decide (upa s T va = 0)); naive_solver. }
  rewrite decide_True, (proj2 (Z.eqb_neq _ _)) by done. rewrite bind_modify.
  set (l := take (Z.to_nat n) src).
  assert (Z.of_nat (length l) = n) as Hl by (unfold l; rewrite length_take; lia).
  assert (bytes l) as Hbl by (unfold l; by apply Forall_take).
  set (s1 := upd_mem (λ m, store_bytes m (upa s T va + va mod 4096) l) s).
  destruct (write_page_ok s T root L va l Hok ltac:(lia) Hu ltac:(lia)) as [Hok1 Hu1].
  fold s1 in Hok1, Hu1.
  assert (written s s1 T va n l) as Hw1.
  { intros v Hv Hvu. unfold s1. erewrite write_page_read by (done || lia). by rewrite Hl. }
  assert (u64 (PGROUNDDOWN va + 4096) = va / 4096 * 4096 + 4096 ∨ len - n = 0) as Hu64.
  { destruct (decide (n < len)) as [Hlt|]; [left|lia].
    rewrite PGROUNDDOWN_eq. rewrite u64_small; [done|]. specialize (Hnext Hlt).
    pose proof (Z.div_pos va 4096). lia. }
  assert (0 ≤ va / 4096) by (apply Z.div_pos; lia).
  destruct (IH (if decide (n < len) then va + n else 0) (drop (Z.to_nat n) src) (len - n) s1)
    as (r & k & s' & Hrun & Hok' & Hu' & Hw' & Hst' & Ha' & Hr).
  - done.
  - case_decide; lia.
  - rewrite length_drop. lia.
  - by apply Forall_drop.
  - case_decide; lia.
  - case_decide as Hlt; [|replace (len - n) with 0 by lia; change (touched 0 0) with 0; lia].
    rewrite <- Hnext by done. lia.
  - exists r, (n + k), s'. split_and!.
    + rewrite <- Hrun. destruct (decide (n < len)) as [Hlt|Hge].
      * destruct Hu64 as [->|?]; [|lia]. by rewrite Hnext.
      * replace (len - n) with 0 by lia. by destruct fuel.
    + done.
    + intros v. by rewrite Hu', Hu1.
    + rewrite <- (take_drop (Z.to_nat n) src). fold l. eapply written_app; [done|lia| |done|].
      { destruct Hr; lia. }
      destruct (decide (n < len)); [done|].
      destruct Hr as [[_ ->]|?]; [|lia]. replace (len - n) with 0 in * by lia.
      intros v Hv Hvu. rewrite (Hw' v Hv Hvu), !decide_False by lia. done.
    + eapply (steps_in_trans _ s s1); [split; [done|eapply frame_mono; [apply (write_page_frame s T va l); lia|]]|].
      * intros b Hb'. exists va. split_and!; [lia..|done|exact Hb'].
      * eapply steps_in_mono; [exact Hst'|]. intros b (v & Hv & Hvu & Hb'). exists v. rewrite <- Hu1. done.
    + apply accessible_app; [apply accessible_page; [lia|done|lia]|]. intros i Hi.
      destruct (decide (n < len)); [|destruct Hr; lia]. rewrite <- Hu1. by apply Ha'.
    + destruct Hr as [[-> ->]|(-> & ? & Hun)]; [left; lia|right; split_and!; [done|lia|lia|]].
      rewrite decide_True in Hun by lia. unfold unmapped in *. rewrite Hu1 in Hun.
      by rewrite Z.add_assoc.
Qed.

Lemma copyout_spec h s T root L va src :
  us_ok s T root L → 0 ≤ va → bytes src → va + Z.of_nat (length src) < 2 ^ 64 →
  copyout_post h s T root L va src (Z.of_nat (length src))
    (copyout root va src (Z.of_nat (length src)) h s).
Proof.
  intros Hok Hva Hb Hmax. apply copyout_loop_spec; [done..|]. apply touched_fuel; lia.
Qed.

(** ** copyin *)

(** The [n] bytes of user memory at [va]. *)
Fixpoint uread_n (s : machine) (T : ptree) (va : Z) (n : nat) : list Z :=
  match n with
  | O => []
  | S n => uread s T va :: uread_n s T (va + 1) n
  end.

Lemma length_uread_n s T va n : length (uread_n s T va n) = n.
Proof. revert va. induction n; intros; simpl; auto. Qed.

Lemma uread_n_app s T va n1 n2 :
  uread_n s T va (n1 + n2) = uread_n s T va n1 ++ uread_n s T (va + Z.of_nat n1) n2.
Proof.
  revert va. induction n1 as [|n IH]; intros va; simpl; [f_equal; lia|].
  f_equal. rewrite IH. do 2 f_equal. lia.
Qed.

(** Within a page, user bytes are the bytes of the physical page. *)
Lemma uread_in_page s T va i :
  0 ≤ va < MAXVA → 0 ≤ i → va mod 4096 + i < 4096 →
  uread s T (va + i) = load8 (m_mem s) (upa s T va + va mod 4096 + i).
Proof.
  intros Hva Hi Hfit. unfold uread. assert (MAXVA = 67108864 * 4096) as HM by done.
  pose proof (Z.div_mod va 4096). pose proof (Z.div_mod (va + i) 4096).
  pose proof (Z.mod_pos_bound va 4096). pose proof (Z.mod_pos_bound (va + i) 4096).
  assert ((va + i) / 4096 = va / 4096) as Hp by lia.
  rewrite (upa_page s T va (va + i)) by lia. f_equal. lia.
Qed.

Lemma load_bytes_uread s T va n :
  0 ≤ va < MAXVA → va mod 4096 + Z.of_nat n ≤ 4096 →
  load_bytes (m_mem s) (upa s T va + va mod 4096) n = uread_n s T va n.
Proof.
  intros Hva Hfit.
  assert (∀ k i, (i + k = n)%nat →
    load_bytes (m_mem s) (upa s T va + va mod 4096 + Z.of_nat i) k
    = uread_n s T (va + Z.of_nat i) k) as H.
  { induction k as [|k IH]; intros i Hi; [done|]. simpl. rewrite load_bytes_S.
    rewrite <- (uread_in_page s T va) by lia. f_equal.
    specialize (IH (S i) ltac:(lia)). rewrite Nat2Z.inj_succ, <- Z.add_1_r in IH.
    by rewrite !Z.add_assoc in IH. }
  specialize (H n 0%nat eq_refl). by rewrite !Z.add_0_r in H.
Qed.

(** How far a read of [len] bytes at [va] gets. *)
Definition reads (s : machine) (T : ptree) (va len r k : Z) : Prop :=
  r = 0 ∧ k = len ∨ r = -1 ∧ 0 ≤ k < len ∧ unmapped s T (va + k).

Definition copyin_post (h : list lockid) (s : machine) (T : ptree) (va len : Z)
    (dst : list Z) (out : outcome machine (Z * list Z)) : Prop :=
  ∃ r k, out = Ok (r, dst ++ uread_n s T va (Z.to_nat k)) h s ∧ reads s T va len r k.

Lemma copyin_loop_spec h s T root L :
  us_ok s T root L →
  ∀ fuel va dst len, 0 ≤ va → 0 ≤ len → va + len < 2 ^ 64 →
  touched va len ≤ Z.of_nat fuel →
  copyin_post h s T va len dst (copyin_loop fuel root dst va len h s).
Proof.
  intros Hok.
  induction fuel as [|fuel IH]; intros va dst len Hva Hlen Hmax Hfuel;
    (destruct (Z.gtb_spec len 0) as [Hpos|Hpos];
     [destruct (chunk_facts va len Hva ltac:(lia)) as (Hn & Hfit & Hnext & Ht & Ht1)|
      exists 0, 0; cbn [copyin_loop];
      rewrite Z.gtb_ltb, (proj2 (Z.ltb_ge _ _)) by lia; simpl; rewrite app_nil_r;
      split; [done|left; lia]]); [lia|].
  set (n := Z.min (4096 - va mod 4096) len) in *.
  cbn [copyin_loop]. rewrite Z.gtb_ltb, (proj2 (Z.ltb_lt _ _)) by lia. cbv zeta.
  rewrite min_if, page_offset. change PGSIZE with 4096. fold n.
  erewrite bind_Ok by (eapply walkaddr_user; [apply Hok|lia]).
  destruct (decide (va < MAXVA ∧ upa s T va ≠ 0)) as [[Hm Hu]|Hno].
  2:{ exists (-1), 0. simpl. rewrite app_nil_r. split.
      - case_decide; [|done]. destruct (Z.eqb_spec (upa s T va) 0); [done|naive_solver].
      - right. rewrite Z.add_0_r. split_and!; [lia..|]. unfold unmapped.
        destruct (decide (va < MAXVA)); [right|lia].
        destruct (decide (upa s T va = 0)); naive_solver. }
  rewrite decide_True, (proj2 (Z.eqb_neq _ _)) by done. rewrite bind_gets.
  rewrite load_bytes_uread by lia.
  destruct (decide (n < len)) as [Hlt|Hge].
  - rewrite PGROUNDDOWN_eq, u64_small by (specialize (Hnext Hlt); pose proof (Z.div_pos va 4096); lia).
    rewrite Hnext in * by done.
    destruct (IH (va + n) (dst ++ uread_n s T va (Z.to_nat n)) (len - n))
      as (r & k & Hrun & Hr); [lia..|].
    exists r, (n + k). rewrite Hrun. split.
    + rewrite <- app_assoc, Z2Nat.inj_add by (destruct Hr as [|]; lia).
      by rewrite uread_n_app, Z2Nat.id by lia.
    + destruct Hr as [[-> ->]|(-> & ? & Hun)]; [left; lia|right; split_and!; [done|lia|lia|]].
      by rewrite Z.add_assoc.
  - replace (len - n) with 0 by lia. exists 0, len. replace n with len by lia.
    split; [by destruct fuel|by left].
Qed.

Lemma copyin_spec h s T root L va len :
  us_ok s T root L → 0 ≤ va → 0 ≤ len → va + len < 2 ^ 64 →
  copyin_post h s T va len [] (copyin root va len h s).
Proof.
  intros Hok Hva Hlen Hmax. eapply copyin_loop_spec; [done..|]. by apply touched_fuel.
Qed.

(** ** copyinstr *)

Lemma copyinstr_scan_spec m n p :
  ∃ k, (k ≤ n)%nat ∧ Forall (λ c, c ≠ 0) (load_bytes m p k) ∧
  ((k = n ∧ copyinstr_scan m p n = (load_bytes m p k, false)) ∨
   ((k < n)%nat ∧ load8 m (p + Z.of_nat k) = 0 ∧
    copyinstr_scan m p n = (load_bytes m p k ++ [0], true))).
Proof.
  revert p. induction n as [|n IH]; intros p; [exists 0%nat; split_and!; auto; constructor|].
  simpl. destruct (Z.eqb_spec (load8 m p) 0) as [E|E].
  - exists 0%nat. rewrite Z.add_0_r. split_and!; [lia|constructor|right; auto with lia].
  - destruct (IH (p + 1)) as (k & Hk & Hnz & H). exists (S k). rewrite load_bytes_S.
    split_and!; [lia|by constructor|].
    destruct H as [[-> ->]|(? & Hz & ->)]; [by left|right; split_and!; [lia| |done]].
    rewrite <- Hz. f_equal. lia.
Qed.

(** The outcome of reading a string at [va]: [k] nonzero bytes the user can
    access, then an accessible NUL before [max] (copied too), or the end of the
    buffer, or the first address the user cannot access. *)
Definition copyinstr_post (h : list lockid) (s : machine) (T : ptree) (va max : Z)
    (dst : list Z) (out : outcome machine (Z * list Z)) : Prop :=
  ∃ k, 0 ≤ k ≤ max ∧ Forall (λ c, c ≠ 0) (uread_n s T va (Z.to_nat k)) ∧
  ((out = Ok (0, dst ++ uread_n s T va (Z.to_nat k) ++ [0]) h s ∧
      k < max ∧ uread s T (va + k) = 0 ∧ accessible s T va (k + 1)) ∨
   (out = Ok (-1, dst ++ uread_n s T va (Z.to_nat k)) h s ∧ accessible s T va k ∧
      (k = max ∨ unmapped s T (va + k)))).

Lemma copyinstr_loop_spec h s T root L :
  us_ok s T root L →
  ∀ fuel va dst max, 0 ≤ va → 0 ≤ max → va + max < 2 ^ 64 →
  touched va max ≤ Z.of_nat fuel →
  copyinstr_post h s T va max dst (copyinstr_loop fuel root dst va max h s).
Proof.
  intros Hok.
  induction fuel as [|fuel IH]; intros va dst max Hva Hlen Hmax Hfuel;
    (destruct (Z.gtb_spec max 0) as [Hpos|Hpos];
     [destruct (chunk_facts va max Hva ltac:(lia)) as (Hn & Hfit & Hnext & Ht & Ht1)|
      exists 0; cbn [copyinstr_loop];
      rewrite Z.gtb_ltb, (proj2 (Z.ltb_ge _ _)) by lia; simpl; rewrite app_nil_r;
      split_and!; [lia..|constructor|right; split_and!; [done|apply accessible_nil|lia]]]); [lia|].
  set (n := Z.min (4096 - va mod 4096) max) in *.
  cbn [copyinstr_loop]. rewrite Z.gtb_ltb, (proj2 (Z.ltb_lt _ _)) by lia. cbv zeta.
  rewrite min_if, page_offset. change PGSIZE with 4096. fold n.
  erewrite bind_Ok by (eapply walkaddr_user; [apply Hok|lia]).
  destruct (decide (va < MAXVA ∧ upa s T va ≠ 0)) as [[Hm Hu]|Hno].
  2:{ exists 0. simpl. rewrite app_nil_r. split_and!; [lia..|constructor|right; split_and!].
      - case_decide; [|done]. destruct (Z.eqb_spec (upa s T va) 0); [done|naive_solver].
      - apply accessible_nil.
      - right. rewrite Z.add_0_r. unfold unmapped.
        destruct (decide (va < MAXVA)); [right|lia].
        destruct (decide (upa s T va = 0)); naive_solver. }
  assert (∀ j, va mod 4096 + j ≤ 4096 → accessible s T va j) as Ha
    by (intros; apply accessible_page; [lia|done..]).
  rewrite decide_True, (proj2 (Z.eqb_neq _ _)) by done. rewrite bind_gets.
  destruct (copyinstr_scan_spec (m_mem s) (Z.to_nat n) (upa s T va + va mod 4096))
    as (j & Hj & Hnz & Hscan).
  rewrite load_bytes_uread in Hnz, Hscan by lia.
  destruct Hscan as [[-> ->]|(Hlt & Hz & ->)].
  2:{ rewrite <- uread_in_page in Hz by lia. exists (Z.of_nat j). rewrite Nat2Z.id.
      split_and!; [lia..|done|left]. split_and!; [done|lia|done|apply Ha; lia]. }
  destruct (decide (n < max)) as [Hlt|Hge].
  - rewrite PGROUNDDOWN_eq, u64_small by (specialize (Hnext Hlt); pose proof (Z.div_pos va 4096); lia).
    rewrite Hnext in * by done.
    destruct (IH (va + n) (dst ++ uread_n s T va (Z.to_nat n)) (max - n))
      as (k & Hk & Hnz' & Hr); [lia..|].
    exists (n + k). rewrite Z2Nat.inj_add, uread_n_app, Z2Nat.id by lia.
    rewrite Z.add_assoc, <- !app_assoc. rewrite <- !app_assoc in Hr. split_and!; [lia..| |].
    + by apply Forall_app.
    + assert (accessible s T va n) as Han by (apply Ha; lia).
      destruct Hr as [(? & ? & ? & ?)|(? & ? & [->|?])]; [left|right..]; split_and!; auto using accessible_app with lia.
      rewrite <- Z.add_assoc. by apply accessible_app.
  - replace (max - n) with 0 by lia. exists max. replace n with max in * by lia.
    split_and!; [lia..|done|right]. split_and!; [by destruct fuel|apply Ha; lia|by left].
Qed.

Lemma copyinstr_spec h s T root L va max :
  us_ok s T root L → 0 ≤ va → 0 ≤ max → va + max < 2 ^ 64 →
  copyinstr_post h s T va max [] (copyinstr root va max h s).
Proof.
  intros Hok Hva Hlen Hmax. eapply copyinstr_loop_spec; [done..|]. by apply touched_fuel.
Qed.

(** ** Reading back what was written *)

Lemma uread_n_written s s' T va src :
  0 ≤ va → accessible s T va (Z.of_nat (length src)) →
  written s s' T va (Z.of_nat (length src)) src →
  uread_n s' T va (length src) = src.
Proof.
  intros Hva Ha Hw.
  assert (∀ l pre, src = pre ++ l →
    uread_n s' T (va + Z.of_nat (length pre)) (length l) = l) as H.
  2:{ specialize (H src [] eq_refl). by rewrite Z.add_0_r in H. }
  induction l as [|x l IH]; intros pre E; [done|]. simpl.
  assert (length src = length pre + S (length l))%nat as Hlen by (subst; by rewrite length_app).
  destruct (Ha (Z.of_nat (length pre)) ltac:(lia)) as [Hm Hu]. f_equal.
  - rewrite Hw by (done || lia). rewrite decide_True by lia.
    replace (va + Z.of_nat (length pre) - va) with (Z.of_nat (length pre)) by lia.
    rewrite E, nthZ_app, decide_False, Z.sub_diag by lia. done.
  - rewrite <- (IH (pre ++ [x])) at 2 by (subst; by rewrite <- app_assoc).
    f_equal. rewrite length_app. simpl. lia.
Qed.

Lemma copyout_accessible h s T root L va src :
  us_ok s T root L → 0 ≤ va → bytes src → va + Z.of_nat (length src) < 2 ^ 64 →
  accessible s T va (Z.of_nat (length src)) →
  ∃ s', copyout root va src (Z.of_nat (length src)) h s = Ok 0 h s' ∧ us_ok s' T root L ∧
    (∀ v, upa s' T v = upa s T v) ∧ written s s' T va (Z.of_nat (length src)) src.
Proof.
  intros Hok Hva Hb Hmax Ha.
  destruct (copyout_spec h s T root L va src Hok Hva Hb Hmax)
    as (r & k & s' & Hrun & Hok' & Hu & Hw & _ & _ & [[-> ->]|(-> & Hk & Hun)]); [by exists s'|].
  exfalso. by eapply accessible_not_unmapped.
Qed.

(** What [copyout] writes to accessible user memory, [copyin] reads back. *)
Lemma copy_roundtrip h s T root L va src :
  us_ok s T root L → 0 ≤ va → bytes src → va + Z.of_nat (length src) < 2 ^ 64 →
  accessible s T va (Z.of_nat (length src)) →
  (copyout root va src (Z.of_nat (length src));;
   copyin root va (Z.of_nat (length src))) h s
  = (copyout root va src (Z.of_nat (length src));; mret (0, src)) h s.
Proof.
  intros Hok Hva Hb Hmax Ha.
  destruct (copyout_accessible h s T root L va src) as (s' & Hrun & Hok' & Hu & Hw); [done..|].
  erewrite !bind_Ok by exact Hrun.
  assert (accessible s' T va (Z.of_nat (length src))) as Ha'.
  { intros i Hi. rewrite Hu. by apply Ha. }
  destruct (copyin_spec h s' T root L va (Z.of_nat (length src)) Hok')
    as (r & k & Hrun' & [[-> ->]|(-> & Hk & Hun)]); [lia..| |].
  - rewrite Hrun', Nat2Z.id. simpl. by rewrite (uread_n_written s s').
  - exfalso. by eapply accessible_not_unmapped.
Qed.

(** ** Address spaces are user memory *)

(** Nothing outside the first [n] pages is open to the user. *)
Lemma space_us_ok s T root L n :
  space s T root L n →
  (∀ va, TRAPFRAME ≤ va < MAXVA → has (leaf (m_mem s) T va) PTE_U = false) →
  us_ok s T root L.
Proof.
  intros Hsp Htop. pose proof (sp_size _ _ _ _ _ Hsp) as Hsz. destruct grow_max as [HTM HM].
  assert (∀ va, 0 ≤ va < MAXVA → upa s T va ≠ 0 →
    va < n * 4096 ∧ upa s T va = PTE2PA (leaf (m_mem s) T va)) as Hin.
  { intros va Hva. unfold upa, user_pa. destruct (has _ PTE_V) eqn:HV; [|done].
    destruct (has _ PTE_U) eqn:HU; [|done]. simpl. intros _. split; [|done].
    destruct (decide (va < n * 4096)); [done|]. exfalso. destruct (decide (va < TRAPFRAME)).
    - rewrite (sp_above _ _ _ _ _ Hsp) in HV by lia. done.
    - rewrite Htop in HU by lia. done. }
  pose proof (sp_pages _ _ _ _ _ Hsp) as (HN & HR & HT).
  split; [apply (sp_vm _ _ _ _ _ Hsp)|]. split.
  - intros va Hva Hu. destruct (Hin va Hva Hu) as [Hlt ->].
    pose proof (space_page s T root L n va Hsp ltac:(lia)) as Hp. rewrite Forall_forall in HR.
    apply NoDup_app in HN as (_ & HN & _). split; [by apply HR|]. split; [by apply HN|].
    intros p Hq. by apply (HT p _ Hq).
  - intros va va' Hva Hva' Hu E. pose proof Hu as Hu'. rewrite E in Hu'.
    destruct (Hin va Hva Hu) as [Hlt E1], (Hin va' Hva' Hu') as [Hlt' E2].
    rewrite E1, E2 in E. apply NoDup_app in HN as (HN & _ & _).
    pose proof (Z.div_mod va 4096). pose proof (Z.mod_pos_bound va 4096).
    pose proof (Z.div_mod va' 4096). pose proof (Z.mod_pos_bound va' 4096).
    pose proof (Z.div_pos va 4096). pose proof (Z.div_pos va' 4096).
    assert (∀ v, 0 ≤ v < n * 4096 → pas (leaf (m_mem s) T) 0 (Z.to_nat n) !! Z.to_nat (v / 4096)
      = Some (PTE2PA (leaf (m_mem s) T v))) as Hlk.
    { intros v Hv. pose proof (Z.div_mod v 4096). pose proof (Z.mod_pos_bound v 4096).
      pose proof (Z.div_pos v 4096). rewrite lookup_pas, Z2Nat.id by lia.
      do 2 f_equal. apply leaf_same_page; [lia..|]. by rewrite Z.add_0_l, Z.div_mul. }
    assert (Z.to_nat (va / 4096) = Z.to_nat (va' / 4096)); [|lia].
    eapply NoDup_lookup; [exact HN|apply Hlk; lia|]. rewrite E. apply Hlk. lia.
Qed.

Lemma sample_user_ok : ∃ T L,
  us_ok sample_user T sample_root L ∧ accessible sample_user T 0 8192.
Proof.
  destruct sample_user_grown as (T & L & Hgr). exists T, L.
  pose proof (gr_space _ _ _ _ _ _ _ _ _ _ _ Hgr) as Hsp. split.
  - eapply space_us_ok; [exact Hsp|]. intros va Hva. assert (0 < TRAPFRAME) as HT by done.
    rewrite (gr_old _ _ _ _ _ _ _ _ _ _ _ Hgr) by lia. by rewrite uvmcreate_leaf.
  - intros i Hi. assert (8192 < MAXVA) as HM by done. rewrite Z.add_0_l. split; [lia|].
    pose proof (gr_flags _ _ _ _ _ _ _ _ _ _ _ Hgr i ltac:(lia)) as Hfl.
    pose proof (space_page _ _ _ _ _ i Hsp ltac:(lia)) as Hp.
    pose proof (sp_pages _ _ _ _ _ Hsp) as (_ & HR & _). rewrite Forall_forall in HR.
    destruct (HR _ Hp) as (_ & _ & Hpos).
    unfold upa, user_pa. set (e := leaf (m_mem sample_user) T i) in *. clearbody e. clear -Hfl Hpos.
    assert (∀ k, 0 ≤ k < 10 → has e (Z.shiftl 1 k) = Z.testbit (PTE_FLAGS e) k) as Hh.
    { intros k Hk. rewrite has_bit by lia. unfold PTE_FLAGS. change 0x3FF with (Z.ones 10).
      by rewrite Z.land_spec, Z.ones_spec_low, andb_true_r by lia. }
    pose proof (Hh 0 ltac:(lia)) as H0. pose proof (Hh 4 ltac:(lia)) as H4.
    change (Z.shiftl 1 0) with PTE_V in H0. change (Z.shiftl 1 4) with PTE_U in H4.
    rewrite H0, H4, Hfl. change (PTE2PA e ≠ 0). lia.
Qed.

(** ** Properties *)

(** C23: [copyout] returns 0 exactly when the user can access every address of
    the range, with the bytes of [src] stored there; otherwise it stops at the
    first address the user cannot access and returns -1, with the bytes before
    it stored.  No other user byte and no mapping changes, across any number of
    pages, and nothing but pages open to the user is written. *)
Theorem copyout_correct h s T root L va src :
  us_ok s T root L → 0 ≤ va → bytes src → va + Z.of_nat (length src) < 2 ^ 64 →
  copyout_post h s T root L va src (Z.of_nat (length src))
    (copyout root va src (Z.of_nat (length src)) h s).
Proof. apply copyout_spec. Qed.

Lemma copyout_correct_witness : ∃ T L,
  copyout_post [] sample_user T sample_root L 4094 [1; 2; 3; 4] 4
    (copyout sample_root 4094 [1; 2; 3; 4] 4 [] sample_user).
Proof.
  destruct sample_user_ok as (T & L & Hok & _). exists T, L.
  refine (copyout_correct [] sample_user T sample_root L 4094 [1; 2; 3; 4] Hok _ _ _);
    [done|repeat constructor; lia|done].
Defined.

(** Bytes copied out to accessible user memory are read back unchanged by
    [copyin], even when they span pages. *)
Theorem copyout_copyin_roundtrip h s T root L va src :
  us_ok s T root L → 0 ≤ va → bytes src → va + Z.of_nat (length src) < 2 ^ 64 →
  accessible s T va (Z.of_nat (length src)) →
  ∃ s', copyout root va src (Z.of_nat (length src)) h s = Ok 0 h s' ∧
    copyin root va (Z.of_nat (length src)) h s' = Ok (0, src) h s'.
Proof.
  intros Hok Hva Hb Hmax Ha. destruct (copyout_accessible h s T root L va src) as (s' & Hrun & _); [done..|].
  exists s'. split; [done|]. pose proof (copy_roundtrip h s T root L va src Hok Hva Hb Hmax Ha) as H.
  erewrite !bind_Ok in H by exact Hrun. exact H.
Qed.

Lemma copyout_copyin_roundtrip_witness :
  ∃ s', copyout sample_root 4094 [1; 2; 3; 4] 4 [] sample_user = Ok 0 [] s' ∧
    copyin sample_root 4094 4 [] s' = Ok (0, [1; 2; 3; 4]) [] s'.
Proof.
  destruct sample_user_ok as (T & L & Hok & Ha).
  refine (copyout_copyin_roundtrip [] sample_user T sample_root L 4094 [1; 2; 3; 4] Hok _ _ _ _);
    [done|repeat constructor; lia|done|].
  intros i Hi. simpl in Hi. destruct (Ha (4094 + i)); [lia|]. rewrite Z.add_0_l in *. done.
Defined.

(** C24: [copyinstr] returns 0 exactly when the user string at [va] ends within
    [max] bytes, all of which the user can access, with the string and its NUL as
    result; otherwise it returns -1, at the end of the buffer or at the first
    address the user cannot access.  It changes no state. *)
Theorem copyinstr_correct h s T root L va max :
  us_ok s T root L → 0 ≤ va → 0 ≤ max → va + max < 2 ^ 64 →
  ∃ k, 0 ≤ k ≤ max ∧ Forall (λ c, c ≠ 0) (uread_n s T va (Z.to_nat k)) ∧
  ((copyinstr root va max h s = Ok (0, uread_n s T va (Z.to_nat k) ++ [0]) h s ∧
      k < max ∧ uread s T (va + k) = 0 ∧ accessible s T va (k + 1)) ∨
   (copyinstr root va max h s = Ok (-1, uread_n s T va (Z.to_nat k)) h s ∧ accessible s T va k ∧
      (k = max ∨ unmapped s T (va + k)))).
Proof. apply copyinstr_spec. Qed.

Lemma copyinstr_correct_witness : ∃ T L, us_ok sample_user T sample_root L ∧
  ∃ k, 0 ≤ k ≤ 64 ∧ Forall (λ c, c ≠ 0) (uread_n sample_user T 8000 (Z.to_nat k)) ∧
  ((copyinstr sample_root 8000 64 [] sample_user =
      Ok (0, uread_n sample_user T 8000 (Z.to_nat k) ++ [0]) [] sample_user ∧
      k < 64 ∧ uread sample_user T (8000 + k) = 0 ∧ accessible sample_user T 8000 (k + 1)) ∨
   (copyinstr sample_root 8000 64 [] sample_user =
      Ok (-1, uread_n sample_user T 8000 (Z.to_nat k)) [] sample_user ∧ accessible sample_user T 8000 k ∧
      (k = 64 ∨ unmapped sample_user T (8000 + k)))).
Proof.
  destruct sample_user_ok as (T & L & Hok & _). exists T, L. split; [exact Hok|].
  exact (copyinstr_correct [] sample_user T sample_root L 8000 64 Hok ltac:(done) ltac:(done) ltac:(done)).
Defined.
