(* ===== verification/Spinlock.v ===== *)
(** * Spin locks on several harts (kernel/spinlock.c)

    Each hart executes [acquire], [release], [push_off] and [pop_off]; every access to the
    shared words [lk->locked] and [lk->cpu] is a step of its own, and harts interleave
    between any two steps.  [push_off] and [pop_off] touch only the hart's own [struct cpu]
    and [sstatus] and are one step each, as is [initlock], which runs before any other hart
    can reach the lock.  The program counter [pc] says which access of which call a hart
    is about to make.  The atomic swap of [__sync_lock_test_and_set] is one step; a hart
    that finds the lock taken stays where it is.  Memory is sequentially consistent, which
    the fences of the code are there for.

    [g_held] and [g_pushes] are history variables: the locks a hart has taken
    with the swap and not yet given back, and its explicit [push_off] calls.  No
    step of the code reads them; [spinlock_mutual_exclusion] says how they show in the
    memory of the locks. *)

From stdpp Require Import functions.
From S2P Require Import Prelude Trace.

Record spinlock : Type := { locked : Z; lk_cpu : option nat (* lk->cpu, 0 is None *) }.
Record cpu : Type := { noff : Z; intena : bool; sie : bool (* sstatus.SIE *) }.

Inductive pc_t : Type :=
  | Run                      (* outside the lock code *)
  | Acq_locked (lk : lockid) (* in acquire, holding() is about to read lk->locked *)
  | Acq_owner (lk : lockid)  (* and lk->cpu *)
  | Acq_swap (lk : lockid)   (* at the test-and-set *)
  | Acq_cpu (lk : lockid)    (* before lk->cpu = mycpu() *)
  | Rel_owner (lk : lockid)  (* in release, holding() has read lk->locked and reads lk->cpu *)
  | Rel_cpu (lk : lockid)    (* before lk->cpu = 0 *)
  | Rel_clear (lk : lockid)  (* before __sync_lock_release *)
  | Rel_pop                  (* before the pop_off() of release *)
  | Panicked (msg : string).

Record smp : Type := {
  s_locks : lockid → spinlock;
  s_cpus : nat → cpu;
  s_pc : nat → pc_t;
  g_held : nat → list lockid;
  g_pushes : nat → nat;
}.

(** What the code outside this file asks a hart to do next. *)
Inductive call : Type :=
  | CInit (lk : lockid) | CAcquire (lk : lockid) | CRelease (lk : lockid)
  | CPushOff | CPopOff | CIntrOn | CIntrOff.

Definition spin_initlock : spinlock := {| locked := 0; lk_cpu := None |}.

(** ** The instructions *)

Definition cpu_push_off (c : cpu) : cpu :=
  {| noff := noff c + 1; intena := if noff c =? 0 then sie c else intena c; sie := false |}.

Definition cpu_pop_off (c : cpu) : cpu + string :=
  if sie c then inr "pop_off - interruptible"
  else if noff c <? 1 then inr "pop_off"
  else inl {| noff := noff c - 1; intena := intena c;
              sie := if (noff c - 1 =? 0) && intena c then true else sie c |}.

(** [holding]: the second operand of [&&] is read only if the first is not 0. *)
Definition reads_locked (l : spinlock) : bool := negb (locked l =? 0).
Definition reads_owner (c : nat) (l : spinlock) : bool := bool_decide (lk_cpu l = Some c).
Definition holding (c : nat) (l : spinlock) : bool := reads_locked l && reads_owner c l.

Definition set_lock (lk : lockid) (l : spinlock) (s : smp) : smp :=
  {| s_locks := <[lk := l]> (s_locks s); s_cpus := s_cpus s; s_pc := s_pc s;
     g_held := g_held s; g_pushes := g_pushes s |}.
Definition set_cpu (c : nat) (x : cpu) (s : smp) : smp :=
  {| s_locks := s_locks s; s_cpus := <[c := x]> (s_cpus s); s_pc := s_pc s;
     g_held := g_held s; g_pushes := g_pushes s |}.
Definition goto (c : nat) (p : pc_t) (s : smp) : smp :=
  {| s_locks := s_locks s; s_cpus := s_cpus s; s_pc := <[c := p]> (s_pc s);
     g_held := g_held s; g_pushes := g_pushes s |}.
Definition set_held (c : nat) (h : list lockid) (s : smp) : smp :=
  {| s_locks := s_locks s; s_cpus := s_cpus s; s_pc := s_pc s;
     g_held := <[c := h]> (g_held s); g_pushes := g_pushes s |}.
Definition set_pushes (c : nat) (n : nat) (s : smp) : smp :=
  {| s_locks := s_locks s; s_cpus := s_cpus s; s_pc := s_pc s;
     g_held := g_held s; g_pushes := <[c := n]> (g_pushes s) |}.

Definition push_off (c : nat) (s : smp) : smp := set_cpu c (cpu_push_off (s_cpus s c)) s.

Definition pop_off (c : nat) (next : pc_t) (s : smp) : smp :=
  match cpu_pop_off (s_cpus s c) with
  | inl x => goto c next (set_cpu c x s)
  | inr msg => goto c (Panicked msg) s
  end.

(** One step of hart [c].  [req] is the call it makes when it is not in the
    middle of one. *)
Definition hart_step (c : nat) (req : call) (s : smp) : smp :=
  match s_pc s c with
  | Run =>
      match req with
      | CInit lk => set_lock lk spin_initlock s
      | CAcquire lk => goto c (Acq_locked lk) (push_off c s)
      | CRelease lk =>
          if reads_locked (s_locks s lk) then goto c (Rel_owner lk) s
          else goto c (Panicked "release") s
      | CPushOff => set_pushes c (S (g_pushes s c)) (push_off c s)
      | CPopOff => set_pushes c (pred (g_pushes s c)) (pop_off c Run s)
      | CIntrOn => let x := s_cpus s c in
          set_cpu c {| noff := noff x; intena := intena x; sie := true |} s
      | CIntrOff => let x := s_cpus s c in
          set_cpu c {| noff := noff x; intena := intena x; sie := false |} s
      end
  | Acq_locked lk =>
      if reads_locked (s_locks s lk) then goto c (Acq_owner lk) s else goto c (Acq_swap lk) s
  | Acq_owner lk =>
      if reads_owner c (s_locks s lk) then goto c (Panicked "acquire") s else goto c (Acq_swap lk) s
  | Acq_swap lk =>
      let l := s_locks s lk in
      if locked l =? 0
      then goto c (Acq_cpu lk)
             (set_held c (lk :: g_held s c) (set_lock lk {| locked := 1; lk_cpu := lk_cpu l |} s))
      else s
  | Acq_cpu lk =>
      goto c Run (set_lock lk {| locked := locked (s_locks s lk); lk_cpu := Some c |} s)
  | Rel_owner lk =>
      if reads_owner c (s_locks s lk) then goto c (Rel_cpu lk) s else goto c (Panicked "release") s
  | Rel_cpu lk =>
      goto c (Rel_clear lk) (set_lock lk {| locked := locked (s_locks s lk); lk_cpu := None |} s)
  | Rel_clear lk =>
      goto c Rel_pop (set_held c (filter (λ l, l ≠ lk) (g_held s c))
        (set_lock lk {| locked := 0; lk_cpu := lk_cpu (s_locks s lk) |} s))
  | Rel_pop => pop_off c Run s
  | Panicked _ => s
  end.

(** The discipline of the kernel's own code: a lock is initialised before it is
    used, [pop_off] matches an earlier [push_off], and interrupts are switched on
    and off directly only outside critical sections. *)
Definition disciplined (c : nat) (req : call) (s : smp) : Prop :=
  match req with
  | CInit lk => ∀ c', lk ∉ g_held s c'
  | CPopOff => (0 < g_pushes s c)%nat
  | CIntrOn | CIntrOff => noff (s_cpus s c) = 0
  | _ => True
  end.

(** What the code outside this file sees of a step of hart [c]. *)
Inductive event : Type :=
  | Called (c : nat) (req : call) | Returned (c : nat) | Died (c : nat) (msg : string).

Definition events (c : nat) (req : call) (s s' : smp) : list event :=
  match s_pc s c with
  | Panicked _ => []
  | p =>
      (match p with Run => [Called c req] | _ => [] end) ++
      match s_pc s' c with Run => [Returned c] | Panicked msg => [Died c msg] | _ => [] end
  end.

Inductive step : smp → list event → smp → Prop :=
  | step_hart c req s : (s_pc s c = Run → disciplined c req s) →
      step s (events c req s (hart_step c req s)) (hart_step c req s).

(** Power on: no lock taken, interrupts off. *)
Definition smp_init : smp :=
  {| s_locks := λ _, spin_initlock;
     s_cpus := λ _, {| noff := 0; intena := false; sie := false |};
     s_pc := λ _, Run; g_held := λ _, []; g_pushes := λ _, 0%nat |}.

Definition reachable (s : smp) : Prop := ∃ l, trace step smp_init l s.

(** ** The invariant *)

(** [noff] in the middle of a call. *)
Definition in_call (p : pc_t) : Z :=
  match p with Acq_locked _ | Acq_owner _ | Acq_swap _ | Rel_pop => 1 | _ => 0 end.

(** The hart holds the lock, and [lk->cpu] does not say so. *)
Definition busy (p : pc_t) (lk : lockid) : Prop := p = Acq_cpu lk ∨ p = Rel_clear lk.

(** What the program point says of a lock. *)
Definition pc_ok (p : pc_t) (h : list lockid) : Prop :=
  match p with
  | Acq_swap lk => lk ∉ h
  | Acq_cpu lk | Rel_cpu lk | Rel_clear lk => lk ∈ h
  | _ => True
  end.

(** The nesting depth counts the locks held and the calls of [push_off]. *)
Definition noff_ok (p : pc_t) (n : Z) (h : list lockid) (k : nat) : Prop :=
  match p with
  | Panicked _ => Z.of_nat (length h + k) ≤ n
  | _ => n = Z.of_nat (length h + k) + in_call p
  end.

Record inv (s : smp) : Prop := {
  inv_owner : ∀ lk c c', lk ∈ g_held s c → lk ∈ g_held s c' → c = c';
  inv_nodup : ∀ c, NoDup (g_held s c);
  inv_locked : ∀ lk, locked (s_locks s lk) = 0 ∧ (∀ c, lk ∉ g_held s c) ∨
                     locked (s_locks s lk) = 1 ∧ ∃ c, lk ∈ g_held s c;
  inv_cpu : ∀ lk c, lk_cpu (s_locks s lk) = Some c ↔ lk ∈ g_held s c ∧ ¬ busy (s_pc s c) lk;
  inv_pc : ∀ c, pc_ok (s_pc s c) (g_held s c);
  inv_noff : ∀ c, noff_ok (s_pc s c) (noff (s_cpus s c)) (g_held s c) (g_pushes s c);
  inv_sie : ∀ c, 0 < noff (s_cpus s c) → sie (s_cpus s c) = false;
}.

Ltac upd :=
  repeat first
    [ rewrite fn_lookup_insert in * | rewrite fn_lookup_insert_ne in * by done
    | match goal with
      | |- context [<[?a := _]> _ ?b] => destruct (decide (a = b)) as [<-|]
      | H : context [<[?a := _]> _ ?b] |- _ => destruct (decide (a = b)) as [<-|]
      end ].

Lemma busy_held s c lk : inv s → busy (s_pc s c) lk → lk ∈ g_held s c.
Proof. intros Hi [E|E]; pose proof (inv_pc _ Hi c) as H; by rewrite E in H. Qed.

(** [holding] reads the truth about its own hart, whatever the others do between its
    two reads. *)
Lemma reads_locked_false c lk s : inv s → reads_locked (s_locks s lk) = false → lk ∉ g_held s c.
Proof.
  intros Hi. unfold reads_locked. destruct (inv_locked _ Hi lk) as [[-> Hno]|[-> _]]; [by intros _|done].
Qed.

Lemma reads_owner_exact c lk s :
  inv s → ¬ busy (s_pc s c) lk → reads_owner c (s_locks s lk) = true ↔ lk ∈ g_held s c.
Proof. intros Hi Hb. unfold reads_owner. rewrite bool_decide_eq_true, (inv_cpu _ Hi). tauto. Qed.

Lemma holding_exact c lk s :
  inv s → ¬ busy (s_pc s c) lk → holding c (s_locks s lk) = true ↔ lk ∈ g_held s c.
Proof.
  intros Hi Hb. unfold holding. rewrite andb_true_iff, reads_owner_exact by done. split; [by intros []|].
  intros Hin. split; [|done]. apply not_false_is_true. intros Hl. by eapply reads_locked_false in Hl.
Qed.

(** Moving a hart between program points that own the same locks. *)
Lemma inv_goto c p s :
  inv s → (∀ lk, ¬ busy (s_pc s c) lk) → (∀ lk, ¬ busy p lk) → pc_ok p (g_held s c) →
  noff_ok p (noff (s_cpus s c)) (g_held s c) (g_pushes s c) →
  inv (goto c p s).
Proof.
  intros [H1 H2 H3 H4 H5 H6 H7] Hq Hp Hk Hn. split; simpl; try done.
  - intros lk c'. rewrite H4. upd; [|done]. specialize (Hp lk). specialize (Hq lk). tauto.
  - intros c'. upd; [done|apply H5].
  - intros c'. upd; [done|]. apply H6.
Qed.

Lemma inv_set_cpu c x s :
  inv s → (0 < noff x → sie x = false) → noff_ok (s_pc s c) (noff x) (g_held s c) (g_pushes s c) →
  inv (set_cpu c x s).
Proof.
  intros [H1 H2 H3 H4 H5 H6 H7] Hx Hn. split; simpl; try done.
  - intros c'. upd; [done|]. apply H6.
  - intros c'. upd; [done|]. apply H7.
Qed.

Lemma push_off_sie x : sie (cpu_push_off x) = false.
Proof. done. Qed.

(** [pop_off] cannot fail in a balanced hart, and keeps interrupts off while
    locks are held. *)
Lemma pop_off_ok x :
  1 ≤ noff x → (0 < noff x → sie x = false) →
  ∃ y, cpu_pop_off x = inl y ∧ noff y = noff x - 1 ∧ (0 < noff y → sie y = false).
Proof.
  intros Hn Hs. unfold cpu_pop_off. rewrite Hs by lia. rewrite (proj2 (Z.ltb_ge _ _)) by lia.
  eexists. split; [done|]. simpl. split; [done|]. intros Hpos.
  by rewrite (proj2 (Z.eqb_neq _ _)) by lia.
Qed.

Lemma inv_acquire c lk s :
  inv s → s_pc s c = Run → inv (goto c (Acq_locked lk) (push_off c s)).
Proof.
  intros Hi Hpc. pose proof (inv_noff _ Hi c) as Hn. rewrite Hpc in Hn. simpl in Hn.
  destruct Hi as [H1 H2 H3 H4 H5 H6 H7]. unfold push_off. split; simpl; try done.
  - intros lk' c'. rewrite H4. upd; [|done]. rewrite Hpc. unfold busy. naive_solver.
  - intros c'. upd; [done|apply H5].
  - intros c'. upd; simpl; [lia|apply H6].
  - intros c'. upd; [done|apply H7].
Qed.

Lemma inv_swap c lk s :
  inv s → s_pc s c = Acq_swap lk → locked (s_locks s lk) = 0 →
  inv (goto c (Acq_cpu lk) (set_held c (lk :: g_held s c)
         (set_lock lk {| locked := 1; lk_cpu := lk_cpu (s_locks s lk) |} s))).
Proof.
  intros [H1 H2 H3 H4 H5 H6 H7] Hpc Hl. destruct (H3 lk) as [[_ Hno]|[? _]]; [|lia].
  split; simpl.
  - intros lk' c1 c2. upd; rewrite ?elem_of_cons; intros Ha Hb; try done.
    + destruct Ha as [->|Ha]; [by destruct (Hno c2)|by apply (H1 lk')].
    + destruct Hb as [->|Hb]; [by destruct (Hno c1)|by apply (H1 lk')].
    + by apply (H1 lk').
  - intros c'. upd; [apply NoDup_cons; auto|apply H2].
  - intros lk'. upd; simpl.
    + right. split; [done|]. exists c. rewrite fn_lookup_insert. by left.
    + destruct (H3 lk') as [[? Hn]|[? [c' Hc']]]; [left|right]; (split; [done|]).
      * intros c'. upd; rewrite ?elem_of_cons; [|by apply Hn]. intros [?|?]; [done|by apply (Hn c)].
      * exists c'. upd; [by right|done].
  - intros lk' c'. upd; simpl; rewrite ?H4, ?elem_of_cons, ?Hpc; unfold busy.
    + split; [intros [? _]; by destruct (Hno c)|]. naive_solver.
    + split; [intros [? _]; by destruct (Hno c')|]. intros [? _]. by destruct (Hno c').
    + naive_solver.
    + done.
  - intros c'. upd; [by left|apply H5].
  - intros c'. specialize (H6 c'). upd; [|done]. rewrite Hpc in H6. simpl in *. lia.
  - intros c'. apply H7.
Qed.

Lemma inv_take c lk s :
  inv s → s_pc s c = Acq_cpu lk →
  inv (goto c Run (set_lock lk {| locked := locked (s_locks s lk); lk_cpu := Some c |} s)).
Proof.
  intros [H1 H2 H3 H4 H5 H6 H7] Hpc.
  assert (lk ∈ g_held s c) as Hin by (specialize (H5 c); by rewrite Hpc in H5).
  split; simpl; try done.
  - intros lk'. upd; apply H3.
  - intros lk' c'. upd; simpl; rewrite ?H4, ?Hpc; unfold busy.
    + naive_solver.
    + split; [naive_solver|]. intros [Hc' _]. by rewrite (H1 lk c c').
    + naive_solver.
    + done.
  - intros c'. upd; [done|apply H5].
  - intros c'. specialize (H6 c'). upd; [|done]. by rewrite Hpc in H6.
Qed.

Lemma inv_release c lk s :
  inv s → s_pc s c = Rel_cpu lk →
  inv (goto c (Rel_clear lk) (set_lock lk {| locked := locked (s_locks s lk); lk_cpu := None |} s)).
Proof.
  intros [H1 H2 H3 H4 H5 H6 H7] Hpc.
  assert (lk ∈ g_held s c) as Hin by (specialize (H5 c); by rewrite Hpc in H5).
  split; simpl; try done.
  - intros lk'. upd; apply H3.
  - intros lk' c'. upd; simpl; rewrite ?H4, ?Hpc; unfold busy.
    + naive_solver.
    + split; [done|]. intros [Hc' _]. destruct (H1 lk c c'); naive_solver.
    + naive_solver.
    + done.
  - intros c'. upd; [done|apply H5].
  - intros c'. specialize (H6 c'). upd; [|done]. by rewrite Hpc in H6.
Qed.

Lemma length_filter_ne (lk : lockid) (h : list lockid) :
  NoDup h → lk ∈ h → length h = S (length (filter (λ l, l ≠ lk) h)).
Proof.
  induction 1 as [|l h Hl Hh IH]; [by intros ?%not_elem_of_nil|].
  rewrite elem_of_cons. destruct (decide (l = lk)) as [->|].
  - intros _. rewrite filter_cons_False by auto. by rewrite filter_notin.
  - intros [?|Hin]; [done|]. rewrite filter_cons_True by done. simpl. f_equal. auto.
Qed.

Lemma inv_unlock c lk s :
  inv s → s_pc s c = Rel_clear lk →
  inv (goto c Rel_pop (set_held c (filter (λ l, l ≠ lk) (g_held s c))
         (set_lock lk {| locked := 0; lk_cpu := lk_cpu (s_locks s lk) |} s))).
Proof.
  intros [H1 H2 H3 H4 H5 H6 H7] Hpc.
  assert (lk ∈ g_held s c) as Hin by (specialize (H5 c); by rewrite Hpc in H5).
  assert (∀ lk', lk' ∈ filter (λ l, l ≠ lk) (g_held s c) ↔ lk' ≠ lk ∧ lk' ∈ g_held s c) as Hf
    by (intros; by rewrite list_elem_of_filter).
  split; simpl.
  - intros lk' c1 c2. upd; rewrite ?Hf; try done; intros; naive_solver.
  - intros c'. upd; [by apply NoDup_filter|apply H2].
  - intros lk'. upd; simpl.
    + left. split; [done|]. intros c'. upd; rewrite ?Hf; [by intros []|]. intros Hc'.
      by apply (H1 lk c) in Hc'.
    + destruct (H3 lk') as [[? Hn]|[? [c' Hc']]]; [left|right]; (split; [done|]).
      * intros c'. upd; rewrite ?Hf; [|by apply Hn]. intros [_ ?]. by apply (Hn c).
      * exists c'. upd; rewrite ?Hf; done.
  - intros lk' c'. upd; simpl; rewrite ?H4, ?Hf, ?Hpc; unfold busy.
    + naive_solver.
    + done.
    + naive_solver.
    + done.
  - intros c'. upd; [done|apply H5].
  - intros c'. specialize (H6 c'). upd; [|done]. rewrite Hpc in H6. simpl in *.
    enough (length (g_held s c) = S (length (filter (λ l, l ≠ lk) (g_held s c)))) by lia.
    by apply length_filter_ne.
  - intros c'. apply H7.
Qed.

Lemma inv_init_lock lk s :
  inv s → (∀ c, lk ∉ g_held s c) → inv (set_lock lk spin_initlock s).
Proof.
  intros [H1 H2 H3 H4 H5 H6 H7] Hno. split; simpl; try done.
  - intros lk'. upd; [by left|apply H3].
  - intros lk' c'. upd; [|apply H4]. split; [done|]. intros [? _]. by destruct (Hno c').
Qed.

Lemma inv_push c s :
  inv s → s_pc s c = Run → inv (set_pushes c (S (g_pushes s c)) (push_off c s)).
Proof.
  intros [H1 H2 H3 H4 H5 H6 H7] Hpc. split; simpl; try done.
  - intros c'. specialize (H6 c'). upd; [|done]. rewrite Hpc in *. simpl in *. lia.
  - intros c'. upd; [done|apply H7].
Qed.

Lemma inv_pop c y s :
  inv s → s_pc s c = Run → noff y = noff (s_cpus s c) - 1 → (0 < noff y → sie y = false) →
  (0 < g_pushes s c)%nat → inv (set_pushes c (pred (g_pushes s c)) (goto c Run (set_cpu c y s))).
Proof.
  intros [H1 H2 H3 H4 H5 H6 H7] Hpc Hn Hs Hp. split; simpl; try done.
  - intros lk c'. rewrite H4. upd; [|done]. by rewrite Hpc.
  - intros c'. upd; [done|apply H5].
  - intros c'. specialize (H6 c'). upd; [|done]. rewrite Hpc in H6. simpl in *. lia.
  - intros c'. upd; [done|apply H7].
Qed.

Lemma inv_leave c y s :
  inv s → s_pc s c = Rel_pop → noff y = noff (s_cpus s c) - 1 → (0 < noff y → sie y = false) →
  inv (goto c Run (set_cpu c y s)).
Proof.
  intros [H1 H2 H3 H4 H5 H6 H7] Hpc Hn Hs. split; simpl; try done.
  - intros lk c'. rewrite H4. upd; [|done]. rewrite Hpc. unfold busy. naive_solver.
  - intros c'. upd; [done|apply H5].
  - intros c'. specialize (H6 c'). upd; [|done]. rewrite Hpc in H6. simpl in *. lia.
  - intros c'. upd; [done|apply H7].
Qed.

(** The [pop_off] of [release] does not panic. *)
Lemma pop_off_run c s : inv s → s_pc s c = Rel_pop → ∃ y,
  pop_off c Run s = goto c Run (set_cpu c y s) ∧ inv (goto c Run (set_cpu c y s)).
Proof.
  intros Hi Hpc. pose proof (inv_noff _ Hi c) as Hn. rewrite Hpc in Hn. simpl in Hn.
  destruct (pop_off_ok (s_cpus s c)) as (y & E & Hy & Hsy); [lia|by apply inv_sie|].
  exists y. unfold pop_off. rewrite E. split; [done|]. by apply inv_leave.
Qed.

Lemma inv_call c req s : inv s → s_pc s c = Run → disciplined c req s → inv (hart_step c req s).
Proof.
  intros Hi Hpc Hd. unfold hart_step. rewrite Hpc. pose proof (inv_noff _ Hi c) as Hn.
  rewrite Hpc in Hn. simpl in Hn. pose proof (inv_sie _ Hi c) as Hs.
  destruct req as [lk|lk|lk| | | |]; simpl in Hd.
  - by apply inv_init_lock.
  - by apply inv_acquire.
  - destruct (reads_locked (s_locks s lk)); apply inv_goto; try done;
      try (rewrite Hpc; by intros ? []); try (by intros ? []); simpl; lia.
  - by apply inv_push.
  - unfold pop_off. destruct (pop_off_ok (s_cpus s c)) as (y & -> & Hy & Hsy); [lia|done|].
    by apply inv_pop.
  - apply inv_set_cpu; [done|simpl; lia|]. by rewrite Hpc.
  - apply inv_set_cpu; [done|done|]. by rewrite Hpc.
Qed.

Lemma inv_hart_step c req s :
  inv s → (s_pc s c = Run → disciplined c req s) → inv (hart_step c req s).
Proof.
  intros Hi Hd. pose proof (inv_noff _ Hi c) as Hn. pose proof (inv_pc _ Hi c) as Hk.
  destruct (s_pc s c) as [|lk|lk|lk|lk|lk|lk|lk| |msg] eqn:Hpc; [apply inv_call; auto|..];
    unfold hart_step; rewrite Hpc; simpl in Hn, Hk.
  - destruct (reads_locked (s_locks s lk)) eqn:Hr; apply inv_goto; try done;
      try (rewrite Hpc; by intros ? []); try (by intros ? []). simpl. by eapply reads_locked_false.
  - pose proof (reads_owner_exact c lk s Hi) as Hr. rewrite Hpc in Hr. specialize (Hr ltac:(by intros [])).
    destruct (reads_owner c (s_locks s lk)); apply inv_goto; try done;
      try (rewrite Hpc; by intros ? []); try (by intros ? []); simpl; [lia|]. by intros ?%Hr.
  - destruct (Z.eqb_spec (locked (s_locks s lk)) 0); [by apply inv_swap|done].
  - by apply inv_take.
  - pose proof (reads_owner_exact c lk s Hi) as Hr. rewrite Hpc in Hr. specialize (Hr ltac:(by intros [])).
    destruct (reads_owner c (s_locks s lk)); apply inv_goto; try done;
      try (rewrite Hpc; by intros ? []); try (by intros ? []); simpl; [by apply Hr|lia].
  - by apply inv_release.
  - by apply inv_unlock.
  - by destruct (pop_off_run c s Hi Hpc) as (y & -> & ?).
  - done.
Qed.

Lemma inv_initial : inv smp_init.
Proof.
  split; simpl; try done.
  - by intros lk c c' ?%not_elem_of_nil.
  - intros c. constructor.
  - intros lk. left. split; [done|]. by intros _ ?%not_elem_of_nil.
  - intros lk c. split; [done|]. by intros [?%not_elem_of_nil _].
Qed.

Lemma inv_step s l s' : inv s → step s l s' → inv s'.
Proof. intros Hi Hst. destruct Hst as [c req s Hd]. by apply inv_hart_step. Qed.

Lemma reachable_inv s : reachable s → inv s.
Proof. intros [l H]. eapply trace_invariant; [apply inv_step|apply inv_initial|exact H]. Qed.

(** ** push_off and pop_off nest *)

Definition cpu_pops (n : nat) (x : cpu) : cpu + string :=
  Nat.iter n (λ r, match r with inl x => cpu_pop_off x | inr msg => inr msg end) (inl x).

Lemma iter_push n x :
  0 ≤ noff x → (0 < noff x → sie x = false) →
  Nat.iter (S n) cpu_push_off x =
  {| noff := noff x + Z.of_nat (S n);
     intena := if noff x =? 0 then sie x else intena x; sie := false |}.
Proof.
  intros Hn Hs. induction n as [|n IH]; [done|].
  change (Nat.iter (S (S n)) cpu_push_off x) with (cpu_push_off (Nat.iter (S n) cpu_push_off x)).
  rewrite IH. unfold cpu_push_off. simpl noff. simpl intena. simpl sie.
  rewrite (proj2 (Z.eqb_neq (_ + Z.of_nat (S n)) 0)) by lia. f_equal. lia.
Qed.

Lemma iter_pop n x :
  sie x = false → Z.of_nat n < noff x →
  cpu_pops n x = inl {| noff := noff x - Z.of_nat n; intena := intena x; sie := false |}.
Proof.
  intros Hs. induction n as [|n IH]; intros Hn.
  { unfold cpu_pops. simpl. destruct x; simpl in *. subst. do 2 f_equal. lia. }
  unfold cpu_pops in *. simpl. rewrite IH by lia. unfold cpu_pop_off. simpl noff. simpl sie.
  rewrite (proj2 (Z.ltb_ge _ _)) by lia. simpl intena. do 2 f_equal; [lia|].
  by rewrite (proj2 (Z.eqb_neq _ _)) by lia.
Qed.

(** ** Properties *)

(** C28: in every state the harts can reach by interleaving the memory accesses of
    the lock code, no two harts hold the same lock; [lk->locked] is 0 exactly when no hart
    holds it; a hart that holds a lock, wherever it is in the lock code, has interrupts
    off, and so has a hart that is about to swap; and [holding] tells exactly whether the
    hart holds the lock. *)
Theorem spinlock_mutual_exclusion s :
  reachable s →
  (∀ lk c c', lk ∈ g_held s c → lk ∈ g_held s c' → c = c') ∧
  (∀ lk, locked (s_locks s lk) = 0 ↔ ∀ c, lk ∉ g_held s c) ∧
  (∀ lk c, lk ∈ g_held s c ∨ s_pc s c = Acq_swap lk → sie (s_cpus s c) = false) ∧
  (∀ lk c, s_pc s c = Run → holding c (s_locks s lk) = true ↔ lk ∈ g_held s c).
Proof.
  intros Hi%reachable_inv. split; [by apply inv_owner|]. split; [|split].
  - intros lk. destruct (inv_locked _ Hi lk) as [[-> Hno]|[-> [c Hc]]]; [done|].
    split; [done|]. intros Hno. by destruct (Hno c).
  - intros lk c Hin. apply inv_sie; [done|]. pose proof (inv_noff _ Hi c) as Hn.
    destruct Hin as [Hin|E]; [|rewrite E in Hn; simpl in Hn; lia].
    destruct (g_held s c) as [|l h]; [by apply not_elem_of_nil in Hin|].
    destruct (s_pc s c); simpl in Hn; lia.
  - intros lk c Hpc. apply holding_exact; [done|]. rewrite Hpc. by intros [].
Qed.

(** The harts take the steps of [l] in this order. *)
Definition hart_steps (l : list (nat * call)) (s : smp) : smp :=
  foldl (λ s cr, hart_step cr.1 cr.2 s) s l.

Fixpoint all_events (l : list (nat * call)) (s : smp) : list event :=
  match l with
  | [] => []
  | (c, req) :: l => let s' := hart_step c req s in events c req s s' ++ all_events l s'
  end.

Fixpoint all_disciplined (l : list (nat * call)) (s : smp) : Prop :=
  match l with
  | [] => True
  | (c, req) :: l => (s_pc s c = Run → disciplined c req s) ∧ all_disciplined l (hart_step c req s)
  end.

Lemma hart_steps_trace l s : all_disciplined l s → trace step s (all_events l s) (hart_steps l s).
Proof.
  revert s. induction l as [|[c req] l IH]; intros s Hd; [constructor|]. destruct Hd as [Hc Hd].
  eapply trace_step; [by apply step_hart|]. by apply IH.
Qed.

(** Hart 1 takes a lock, hart 0 spins on it. *)
Definition sample_schedule : list (nat * call) :=
  [(1, CAcquire L_kmem); (1, CIntrOff); (0, CAcquire L_kmem); (1, CIntrOff); (0, CIntrOff);
   (1, CIntrOff); (0, CIntrOff); (0, CIntrOff)]%nat.
Definition sample_contended : smp := hart_steps sample_schedule smp_init.

Lemma sample_disciplined : all_disciplined sample_schedule smp_init.
Proof. split_and!; vm_compute; done. Qed.

Lemma spinlock_mutual_exclusion_witness :
  L_kmem ∈ g_held sample_contended 1 ∧ s_pc sample_contended 0 = Acq_swap L_kmem ∧
  ((∀ lk c c', lk ∈ g_held sample_contended c → lk ∈ g_held sample_contended c' → c = c') ∧
   (∀ lk, locked (s_locks sample_contended lk) = 0 ↔ ∀ c, lk ∉ g_held sample_contended c) ∧
   (∀ lk c, lk ∈ g_held sample_contended c ∨ s_pc sample_contended c = Acq_swap lk →
      sie (s_cpus sample_contended c) = false) ∧
   (∀ lk c, s_pc sample_contended c = Run →
      holding c (s_locks sample_contended lk) = true ↔ lk ∈ g_held sample_contended c)).
Proof.
  split; [vm_compute; by left|]. split; [vm_compute; reflexivity|].
  apply spinlock_mutual_exclusion. eexists. apply hart_steps_trace, sample_disciplined.
Defined.

(** [n] calls of [push_off] followed by [n] of [pop_off] restore the
    interrupt state and the nesting depth, and interrupts are off in between. *)
Theorem push_pop_nest n x :
  0 ≤ noff x → (0 < noff x → sie x = false) →
  (∀ k, (0 < k)%nat → sie (Nat.iter k cpu_push_off x) = false) ∧
  ∃ y, cpu_pops n (Nat.iter n cpu_push_off x) = inl y ∧ noff y = noff x ∧ sie y = sie x.
Proof.
  intros Hn Hs. split; [intros [|k] Hk; [lia|by rewrite iter_push]|].
  destruct n as [|n]; [by exists x|]. rewrite iter_push by done.
  assert (∀ z, cpu_pops (S n) z = match cpu_pops n z with inl y => cpu_pop_off y | inr m => inr m end)
    as -> by done.
  rewrite iter_pop by (simpl; lia). unfold cpu_pop_off. simpl noff. simpl sie. simpl intena.
  rewrite (proj2 (Z.ltb_ge _ _)) by lia. eexists. split; [done|]. simpl. split; [lia|].
  destruct (Z.eqb_spec (noff x) 0) as [E|E].
  - rewrite (proj2 (Z.eqb_eq _ _)) by lia. simpl. by destruct (sie x).
  - rewrite (proj2 (Z.eqb_neq _ _)) by lia. simpl. symmetry. apply Hs. lia.
Qed.

Lemma push_pop_nest_witness :
  let x := {| noff := 0; intena := false; sie := true |} in
  (∀ k, (0 < k)%nat → sie (Nat.iter k cpu_push_off x) = false) ∧
  ∃ y, cpu_pops 3 (Nat.iter 3 cpu_push_off x) = inl y ∧ noff y = noff x ∧ sie y = sie x.
Proof. apply push_pop_nest; simpl; lia. Defined.
