(* ===== verification/SpinlockSpec.v ===== *)
(** * The contract of spin locks (kernel/spinlock.c)

    The other components are written with [Prelude.acquire] and [Prelude.release], which
    act at once on the list of the locks a thread holds.  Here that is shown to be what
    the harts of Spinlock.v see of each other: a machine in which every call takes effect
    in one step, the one that applies [Prelude.acquire] or [Prelude.release], between its
    invocation and its return, has every trace of calls, returns and panics that the
    interleaved memory accesses have. *)

From Stdlib Require Import FunctionalExtensionality.
From stdpp Require Import functions.
From S2P Require Import Prelude Trace Spinlock.

(** ** The abstract machine *)

(** How far the call of a hart has got. *)
Inductive phase : Type :=
  | Idle
  | Pending (req : call)  (* called, without effect so far *)
  | Done                  (* has taken effect and not returned *)
  | Dead.

Record spec : Type := { a_held : nat → list lockid; a_phase : nat → phase }.

(** The operation of a call on the locks of the calling hart. *)
Definition lock_op (req : call) : M unit unit :=
  match req with
  | CAcquire lk => Prelude.acquire lk
  | CRelease lk => Prelude.release lk
  | _ => mret tt
  end.

(** [acquire] takes effect only when no other hart holds the lock. *)
Definition available (c : nat) (req : call) (A : spec) : Prop :=
  match req with CAcquire lk => ∀ c', c' ≠ c → lk ∉ a_held A c' | _ => True end.

Definition set_phase (c : nat) (p : phase) (A : spec) : spec :=
  {| a_held := a_held A; a_phase := <[c := p]> (a_phase A) |}.

Inductive spec_step : spec → list event → spec → Prop :=
  | spec_call c req A : a_phase A c = Idle → spec_step A [Called c req] (set_phase c (Pending req) A)
  | spec_effect c req h A :
      a_phase A c = Pending req → available c req A → lock_op req (a_held A c) tt = Ok tt h tt →
      spec_step A [] {| a_held := <[c := h]> (a_held A); a_phase := <[c := Done]> (a_phase A) |}
  | spec_return c A : a_phase A c = Done → spec_step A [Returned c] (set_phase c Idle A)
  | spec_panic c req msg A :
      a_phase A c = Pending req → lock_op req (a_held A c) tt = Panic msg →
      spec_step A [Died c msg] (set_phase c Dead A).

Definition spec_init : spec := {| a_held := λ _, []; a_phase := λ _, Idle |}.

(** ** The simulation *)

Definition phase_of (p : pc_t) : phase :=
  match p with
  | Run => Idle
  | Acq_locked lk | Acq_owner lk | Acq_swap lk => Pending (CAcquire lk)
  | Rel_owner lk | Rel_cpu lk | Rel_clear lk => Pending (CRelease lk)
  | Acq_cpu _ | Rel_pop => Done
  | Panicked _ => Dead
  end.

(** The state of the abstract machine behind a state of the harts. *)
Definition abs (s : smp) : spec := {| a_held := g_held s; a_phase := λ c, phase_of (s_pc s c) |}.

Lemma abs_goto c p s : abs (goto c p s) = set_phase c (phase_of p) (abs s).
Proof. unfold abs, set_phase. simpl. f_equal. extensionality c'. by upd. Qed.

Lemma set_phase_id c p A : a_phase A c = p → set_phase c p A = A.
Proof. intros <-. destruct A as [h f]. unfold set_phase. simpl. f_equal. extensionality c'. by upd. Qed.

Lemma set_phase_twice c p q A : set_phase c p (set_phase c q A) = set_phase c p A.
Proof. unfold set_phase. simpl. f_equal. extensionality c'. by upd. Qed.

(** A step inside a call that neither takes effect nor ends it. *)
Lemma abs_silent c p s : phase_of p = phase_of (s_pc s c) → abs (goto c p s) = abs s.
Proof. intros E. rewrite abs_goto, E. by apply set_phase_id. Qed.

(** A call that has no effect on the locks and returns at once. *)
Lemma spec_instant c req A :
  a_phase A c = Idle → lock_op req = mret tt → available c req A →
  trace spec_step A [Called c req; Returned c] A.
Proof.
  intros Hi Hop Hav. eapply (trace_step _ _ [_]); [by apply spec_call|].
  eapply (trace_step _ _ []); [apply (spec_effect c req (a_held A c)); simpl; [by upd| |by rewrite Hop]|].
  { by destruct req. }
  match goal with |- trace _ ?B _ _ => assert (A = set_phase c Idle B) as E end.
  { destruct A as [f g]. unfold set_phase. simpl in *. f_equal; extensionality c'; by upd. }
  eapply eq_ind_r with (P := λ X, trace spec_step _ _ X); [|exact E].
  apply trace_one, spec_return. simpl. by upd.
Qed.

Lemma call_refines c req s :
  inv s → s_pc s c = Run → disciplined c req s →
  trace spec_step (abs s) (events c req s (hart_step c req s)) (abs (hart_step c req s)).
Proof.
  intros Hi Hpc Hd. assert (a_phase (abs s) c = Idle) as Hidle by (simpl; by rewrite Hpc).
  assert (∀ s', s_pc s' c = Run → abs s' = abs s → lock_op req = mret tt → available c req (abs s) →
    trace spec_step (abs s) (events c req s s') (abs s')) as Hnow.
  { intros s' Hs' -> Hop Hav. unfold events. rewrite Hpc, Hs'. by apply spec_instant. }
  unfold hart_step. rewrite Hpc. destruct req as [lk|lk|lk| | | |]; simpl in Hd.
  - by apply Hnow.
  - unfold events. rewrite Hpc. simpl. upd. rewrite abs_goto. apply trace_one. by apply spec_call.
  - destruct (reads_locked (s_locks s lk)) eqn:Hl; unfold events; rewrite Hpc; simpl; upd; rewrite abs_goto.
    + apply trace_one. by apply spec_call.
    + eapply (trace_step _ _ [_]); [by apply spec_call|].
      change (phase_of _) with Dead. rewrite <- (set_phase_twice c Dead (Pending (CRelease lk))). apply trace_one, (spec_panic c (CRelease lk)); simpl; [by upd|].
      unfold Prelude.release. rewrite bool_decide_false; [done|]. by eapply reads_locked_false.
  - by apply Hnow.
  - pose proof (inv_noff _ Hi c) as Hn. rewrite Hpc in Hn. simpl in Hn. unfold pop_off.
    destruct (pop_off_ok (s_cpus s c)) as (y & -> & _); [lia|by apply inv_sie|].
    apply Hnow; [simpl; by upd| |done..]. transitivity (abs (goto c Run s)); [done|]. apply abs_silent. by rewrite Hpc.
  - by apply Hnow.
  - by apply Hnow.
Qed.

(** The points at which a call takes effect: the successful swap, and the store that
    clears [lk->locked]. *)
Lemma swap_refines c lk s :
  inv s → s_pc s c = Acq_swap lk → locked (s_locks s lk) = 0 →
  trace spec_step (abs s) [] (abs (goto c (Acq_cpu lk) (set_held c (lk :: g_held s c)
         (set_lock lk {| locked := 1; lk_cpu := lk_cpu (s_locks s lk) |} s)))).
Proof.
  intros Hi Hpc Hl. destruct (inv_locked _ Hi lk) as [[_ Hno]|[? _]]; [|lia]. rewrite abs_goto.
  apply trace_one, (spec_effect c (CAcquire lk) (lk :: g_held s c) (abs s)); simpl; [by rewrite Hpc|auto|].
  unfold Prelude.acquire. rewrite bool_decide_false; [done|apply Hno].
Qed.

Lemma clear_refines c lk s :
  inv s → s_pc s c = Rel_clear lk →
  trace spec_step (abs s) [] (abs (goto c Rel_pop (set_held c (filter (λ l, l ≠ lk) (g_held s c))
        (set_lock lk {| locked := 0; lk_cpu := lk_cpu (s_locks s lk) |} s)))).
Proof.
  intros Hi Hpc. pose proof (inv_pc _ Hi c) as Hin. rewrite Hpc in Hin. simpl in Hin. rewrite abs_goto.
  apply trace_one, (spec_effect c (CRelease lk) (filter (λ l, l ≠ lk) (g_held s c)) (abs s)); simpl; [by rewrite Hpc|done|].
  unfold Prelude.release. by rewrite bool_decide_true.
Qed.

Lemma panic_refines c req msg s :
  phase_of (s_pc s c) = Pending req → lock_op req (g_held s c) tt = Panic msg →
  trace spec_step (abs s) [Died c msg] (abs (goto c (Panicked msg) s)).
Proof. intros Hp Ho. rewrite abs_goto. apply trace_one. by eapply spec_panic. Qed.

Lemma return_refines c s s' :
  phase_of (s_pc s c) = Done → g_held s' = g_held s → s_pc s' = s_pc s →
  trace spec_step (abs s) [Returned c] (abs (goto c Run s')).
Proof.
  intros Hp Hh Hq. rewrite abs_goto. replace (abs s') with (abs s) by (unfold abs; by rewrite Hh, Hq).
  apply trace_one. by apply spec_return.
Qed.

Lemma hart_step_refines c req s :
  inv s → (s_pc s c = Run → disciplined c req s) →
  trace spec_step (abs s) (events c req s (hart_step c req s)) (abs (hart_step c req s)).
Proof.
  intros Hi Hd. destruct (s_pc s c) as [|lk|lk|lk|lk|lk|lk|lk| |msg] eqn:Hpc; [by apply call_refines; auto|..];
    unfold hart_step, events; rewrite Hpc; cbn [app];
    try (pose proof (reads_owner_exact c lk s Hi) as Hr; rewrite Hpc in Hr).
  - destruct (reads_locked (s_locks s lk)); simpl; upd; rewrite abs_silent by (by rewrite Hpc); constructor.
  - specialize (Hr ltac:(by intros [])). destruct (reads_owner c (s_locks s lk)); simpl; upd.
    + apply (panic_refines c (CAcquire lk)); [by rewrite Hpc|]. simpl. unfold Prelude.acquire.
      rewrite bool_decide_true; [done|]. by apply Hr.
    + rewrite abs_silent by (by rewrite Hpc). constructor.
  - destruct (Z.eqb_spec (locked (s_locks s lk)) 0).
    + simpl; upd. by apply swap_refines.
    + rewrite Hpc. constructor.
  - simpl; upd. apply return_refines; [by rewrite Hpc|done..].
  - specialize (Hr ltac:(by intros [])). destruct (reads_owner c (s_locks s lk)); simpl; upd.
    + rewrite abs_silent by (by rewrite Hpc). constructor.
    + apply (panic_refines c (CRelease lk)); [by rewrite Hpc|]. simpl. unfold Prelude.release.
      rewrite bool_decide_false; [done|]. by intros ?%Hr.
  - simpl; upd. rewrite abs_silent by (simpl; by rewrite Hpc). constructor.
  - simpl; upd. by apply clear_refines.
  - destruct (pop_off_run c s Hi Hpc) as (y & -> & _). simpl; upd.
    apply return_refines; [by rewrite Hpc|done..].
  - constructor.
Qed.

(** ** Progress *)

(** The steps a call has left, if it does not have to wait. *)
Definition steps_left (p : pc_t) : nat :=
  match p with
  | Acq_locked _ | Rel_owner _ => 4
  | Acq_owner _ | Rel_cpu _ => 3
  | Acq_swap _ | Rel_clear _ => 2
  | Acq_cpu _ | Rel_pop => 1
  | Run | Panicked _ => 0
  end.

(** A hart gets nearer to the end of its call with every step, except that it waits for a
    lock that another hart holds. *)
Lemma hart_step_progress c req s :
  inv s → (0 < steps_left (s_pc s c))%nat →
  (steps_left (s_pc (hart_step c req s) c) < steps_left (s_pc s c))%nat ∨
  ∃ lk c', s_pc s c = Acq_swap lk ∧ c' ≠ c ∧ lk ∈ g_held s c'.
Proof.
  intros Hi Hp. destruct (s_pc s c) as [|lk|lk|lk|lk|lk|lk|lk| |msg] eqn:Hpc; simpl in Hp; try lia;
    unfold hart_step; rewrite Hpc.
  - left. destruct (reads_locked (s_locks s lk)); simpl; upd; simpl; lia.
  - left. destruct (reads_owner c (s_locks s lk)); simpl; upd; simpl; lia.
  - destruct (inv_locked _ Hi lk) as [[-> _]|[_ [c' Hc']]]; [left; simpl; upd; simpl; lia|].
    right. exists lk, c'. split_and!; [done| |done]. intros ->.
    pose proof (inv_pc _ Hi c) as Hno. by rewrite Hpc in Hno.
  - left. simpl; upd; simpl; lia.
  - left. destruct (reads_owner c (s_locks s lk)); simpl; upd; simpl; lia.
  - left. simpl; upd; simpl; lia.
  - left. simpl; upd; simpl; lia.
  - left. destruct (pop_off_run c s Hi Hpc) as (y & -> & _). simpl; upd; simpl; lia.
Qed.

(** ** Properties *)

(** C29: the lock operations the other components are written with are what the harts see
    of the code.  For every interleaving of the memory accesses of [acquire], [release],
    [push_off] and [pop_off] there is a run of the abstract machine with the same calls,
    returns and panics in the same order, in which every call takes effect at once,
    between its invocation and its return: [Prelude.acquire] when no other hart has the
    lock, or [Prelude.release]; a hart panics exactly where these do, with their message.
    At the end [lk->locked] is 0 exactly for the locks no hart has, [holding] is right in
    every hart outside of the lock code, and every hart inside of it gets nearer to the
    end of its call with its next step, or is at the swap of a lock that another hart has. *)
Theorem spinlock_refines l s :
  trace step smp_init l s →
  ∃ A, trace spec_step spec_init l A ∧
    (∀ c, a_phase A c = Idle ↔ s_pc s c = Run) ∧
    (∀ lk, locked (s_locks s lk) = 0 ↔ ∀ c, lk ∉ a_held A c) ∧
    (∀ lk c, s_pc s c = Run → holding c (s_locks s lk) = true ↔ lk ∈ a_held A c) ∧
    (∀ c req, (0 < steps_left (s_pc s c))%nat →
       (steps_left (s_pc (hart_step c req s) c) < steps_left (s_pc s c))%nat ∨
       ∃ lk c', s_pc s c = Acq_swap lk ∧ c' ≠ c ∧ lk ∈ a_held A c').
Proof.
  intros H. destruct (forward_simulation step spec_step (λ s A, inv s ∧ A = abs s)) with smp_init l s spec_init
    as (A & HA & Hi & ->); [|split; [apply inv_initial|done]|done|].
  { intros s1 A l1 s2 [Hi ->] Hst. exists (abs s2). split; [|split; [by eapply inv_step|done]].
    destruct Hst as [c req s1 Hd]. by apply hart_step_refines. }
  exists (abs s). split_and!; [done|..].
  - intros c. simpl. by destruct (s_pc s c).
  - intros lk. simpl. destruct (inv_locked _ Hi lk) as [[-> Hno]|[-> [c Hc]]]; [done|].
    split; [done|]. intros Hno. by destruct (Hno c).
  - intros lk c Hpc. apply holding_exact; [done|]. rewrite Hpc. by intros [].
  - intros c req. by apply hart_step_progress.
Qed.

Lemma spinlock_refines_witness :
  ∃ A, trace spec_step spec_init [Called 1 (CAcquire L_kmem); Called 0 (CAcquire L_kmem); Returned 1] A ∧
    (∀ c, a_phase A c = Idle ↔ s_pc sample_contended c = Run) ∧
    (∀ lk, locked (s_locks sample_contended lk) = 0 ↔ ∀ c, lk ∉ a_held A c) ∧
    (∀ lk c, s_pc sample_contended c = Run →
       holding c (s_locks sample_contended lk) = true ↔ lk ∈ a_held A c) ∧
    (∀ c req, (0 < steps_left (s_pc sample_contended c))%nat →
       (steps_left (s_pc (hart_step c req sample_contended) c) < steps_left (s_pc sample_contended c))%nat ∨
       ∃ lk c', s_pc sample_contended c = Acq_swap lk ∧ c' ≠ c ∧ lk ∈ a_held A c').
Proof.
  refine (spinlock_refines _ sample_contended _).
  exact (hart_steps_trace sample_schedule smp_init sample_disciplined).
Defined.
