(* ===== verification/Kernel.v ===== *)
(** * The state of the kernel

    The structures of kernel/proc.h, file.h, fs.h, buf.h, sleeplock.h, pipe.c,
    log.c and console.c, and one record with all of the kernel's global
    variables.  A pointer into a static table is the index of the slot (the null
    pointer is [None]); a pointer to an allocated page is its physical address.
    The page of a trapframe or of a pipe is owned through [kalloc]; what the C
    code stores in it is kept as a typed value next to physical memory. *)

From S2P Require Import Prelude CString Riscv Kalloc.

(** ** Wait channels: the addresses passed to sleep() and wakeup() *)

Inductive chan : Type :=
  | Ch_proc (i : nat)        (* a struct proc, in wait() *)
  | Ch_nread (pa : Z)        (* &pi->nread *)
  | Ch_nwrite (pa : Z)       (* &pi->nwrite *)
  | Ch_buf (i : nat)         (* the sleeplock of a buffer *)
  | Ch_inode (i : nat)       (* the sleeplock of an inode *)
  | Ch_log                   (* &log *)
  | Ch_ticks                 (* &ticks *)
  | Ch_cons                  (* &cons.r *)
  | Ch_uart                  (* &uart_tx_r *)
  | Ch_desc                  (* &disk.free[0] *)
  | Ch_disk (i : nat).       (* a struct buf, in virtio_disk_rw() *)

#[global] Instance chan_eq_dec : EqDecision chan.
Proof. solve_decision. Defined.

(** ** Sleep locks, buffers, the log *)

Record sleeplock : Type := Sleeplock { sl_locked : bool; sl_pid : Z }.
#[export] Instance eta_sleeplock : Eta sleeplock := λ r, Sleeplock (sl_locked r) (sl_pid r).

Record buf : Type := Buf {
  b_valid : bool;      (* has data been read from disk? *)
  b_dev : Z;
  b_blockno : Z;
  b_lock : sleeplock;
  b_refcnt : Z;
  b_prev : nat;
  b_next : nat;
  b_data : list Z;
  b_disk : bool;       (* does disk "own" buf? *)
}.
#[export] Instance eta_buf : Eta buf := λ r,
  Buf (b_valid r) (b_dev r) (b_blockno r) (b_lock r) (b_refcnt r) (b_prev r) (b_next r) (b_data r) (b_disk r).

Record logheader : Type := Logheader { lh_n : Z; lh_block : list Z }.
#[export] Instance eta_logheader : Eta logheader := λ r, Logheader (lh_n r) (lh_block r).

Record log_t : Type := Log {
  l_start : Z;
  l_size : Z;
  l_outstanding : Z;   (* how many FS sys calls are executing *)
  l_committing : bool; (* in commit(), please wait *)
  l_dev : Z;
  l_lh : logheader;
}.
#[export] Instance eta_log : Eta log_t := λ r,
  Log (l_start r) (l_size r) (l_outstanding r) (l_committing r) (l_dev r) (l_lh r).

(** ** File system *)

Record superblock : Type := Superblock {
  sb_magic : Z; sb_size : Z; sb_nblocks : Z; sb_ninodes : Z;
  sb_nlog : Z; sb_logstart : Z; sb_inodestart : Z; sb_bmapstart : Z;
}.

Record inode : Type := Inode {
  i_dev : Z;
  i_inum : Z;
  i_ref : Z;
  i_lock : sleeplock;
  i_valid : bool;
  i_type : Z;
  i_major : Z;
  i_minor : Z;
  i_nlink : Z;
  i_size : Z;
  i_addrs : list Z;    (* NDIRECT + 1 *)
}.
#[export] Instance eta_inode : Eta inode := λ r,
  Inode (i_dev r) (i_inum r) (i_ref r) (i_lock r) (i_valid r) (i_type r) (i_major r)
    (i_minor r) (i_nlink r) (i_size r) (i_addrs r).

(** The disk: its blocks, and as a history variable every write the device has
    completed, oldest first.  No code reads the history; crash states are those
    in which only a prefix of it has reached the disk. *)
Record disk_t : Type := Disk { d_blocks : gmap Z (list Z); d_hist : list (Z * list Z) }.
#[export] Instance eta_disk : Eta disk_t := λ r, Disk (d_blocks r) (d_hist r).

(** ** Files and pipes *)

Inductive ftype : Type := FD_NONE | FD_PIPE | FD_INODE | FD_DEVICE.
#[global] Instance ftype_eq_dec : EqDecision ftype.
Proof. solve_decision. Defined.

Record file : Type := File {
  f_type : ftype;
  f_ref : Z;
  f_readable : bool;
  f_writable : bool;
  f_pipe : Z;
  f_ip : nat;
  f_off : Z;
  f_major : Z;
}.
#[export] Instance eta_file : Eta file := λ r,
  File (f_type r) (f_ref r) (f_readable r) (f_writable r) (f_pipe r) (f_ip r) (f_off r) (f_major r).

Record pipe : Type := Pipe {
  p_data : list Z;     (* PIPESIZE bytes *)
  p_nread : Z;         (* number of bytes read, uint *)
  p_nwrite : Z;        (* number of bytes written, uint *)
  p_readopen : bool;
  p_writeopen : bool;
}.
#[export] Instance eta_pipe : Eta pipe := λ r,
  Pipe (p_data r) (p_nread r) (p_nwrite r) (p_readopen r) (p_writeopen r).

(** ** Processes *)

(** [tf_regs] are the 31 user registers, in the order of the structure: ra, sp,
    gp, tp, t0-t2, s0-s1, a0-a7, s2-s11, t3-t6. *)
Record trapframe : Type := Trapframe {
  tf_kernel_satp : Z;
  tf_kernel_sp : Z;
  tf_kernel_trap : Z;
  tf_epc : Z;
  tf_kernel_hartid : Z;
  tf_regs : list Z;
}.
#[export] Instance eta_trapframe : Eta trapframe := λ r,
  Trapframe (tf_kernel_satp r) (tf_kernel_sp r) (tf_kernel_trap r) (tf_epc r)
    (tf_kernel_hartid r) (tf_regs r).

Definition R_sp : nat := 1.
Definition R_a (i : nat) : nat := 9 + i.
Definition tf_reg (r : nat) (tf : trapframe) : Z := nth r (tf_regs tf) 0.
Definition set_reg (r : nat) (v : Z) (tf : trapframe) : trapframe := tf <| tf_regs ::= <[r := v]> |>.

(** Where a saved context resumes: in the scheduler or in [sched], or at
    [forkret] for a process that has never run. *)
Inductive resume : Type := In_sched | In_forkret.

Record context : Type := Context { c_ra : resume; c_sp : Z }.

Inductive procstate : Type := UNUSED | USED | SLEEPING | RUNNABLE | RUNNING | ZOMBIE.
#[global] Instance procstate_eq_dec : EqDecision procstate.
Proof. solve_decision. Defined.

Record proc : Type := Proc {
  p_state : procstate;
  p_chan : option chan;
  p_killed : bool;
  p_xstate : Z;
  p_pid : Z;
  p_parent : option nat;
  p_kstack : Z;
  p_sz : Z;
  p_pagetable : Z;
  p_trapframe : Z;
  p_context : context;
  p_ofile : list (option nat);   (* NOFILE *)
  p_cwd : option nat;
  p_name : list Z;               (* 16 bytes *)
}.
#[export] Instance eta_proc : Eta proc := λ r,
  Proc (p_state r) (p_chan r) (p_killed r) (p_xstate r) (p_pid r) (p_parent r) (p_kstack r)
    (p_sz r) (p_pagetable r) (p_trapframe r) (p_context r) (p_ofile r) (p_cwd r) (p_name r).

(** ** Console and serial port *)

Record cons_t : Type := Cons {
  cons_buf : list Z;   (* INPUT_BUF_SIZE bytes *)
  cons_r : Z;          (* read index, uint *)
  cons_w : Z;          (* write index *)
  cons_e : Z;          (* edit index *)
}.
#[export] Instance eta_cons : Eta cons_t := λ r, Cons (cons_buf r) (cons_r r) (cons_w r) (cons_e r).

(** The driver's buffer and the 16550 device: [u_busy] is its transmit holding
    register being full, [u_out] what has been given to it for sending, [u_in] the
    input waiting in it, the rest its control registers. *)
Record uart_t : Type := Uart {
  u_tx_buf : list Z;   (* uart_tx_buf, UART_TX_BUF_SIZE bytes *)
  u_tx_w : Z;          (* uart_tx_w *)
  u_tx_r : Z;          (* uart_tx_r *)
  u_busy : bool;
  u_out : list Z;
  u_in : list Z;
  u_ier : Z;           (* interrupt enable *)
  u_fcr : Z;           (* FIFO control *)
  u_lcr : Z;           (* line control *)
  u_dll : Z;           (* divisor latch, low and high byte *)
  u_dlm : Z;
}.
#[export] Instance eta_uart : Eta uart_t := λ r,
  Uart (u_tx_buf r) (u_tx_w r) (u_tx_r r) (u_busy r) (u_out r) (u_in r) (u_ier r) (u_fcr r) (u_lcr r)
    (u_dll r) (u_dlm r).

(** An entry of devsw[]: the functions installed for a device. *)
Inductive devsw_t : Type := Dev_none | Dev_console.

(** ** The virtio disk: the queue shared with the device, and the driver's variables *)

(** What a DMA descriptor points to. *)
Inductive dma : Type :=
  | Dma_null
  | Dma_op (i : nat)         (* disk.ops[i] *)
  | Dma_data (b : nat)       (* the data of a buffer *)
  | Dma_status (i : nat).    (* disk.info[i].status *)

Record virtq_desc : Type := Desc { vq_addr : dma; vq_len : Z; vq_flags : Z; vq_next : Z }.
#[export] Instance eta_desc : Eta virtq_desc := λ r, Desc (vq_addr r) (vq_len r) (vq_flags r) (vq_next r).

Record virtio_blk_req : Type := Blkreq { rq_type : Z; rq_reserved : Z; rq_sector : Z }.

(** The device's own state: [vd_seen] is its position in the ring of available requests,
    [vd_pending] the heads of the requests it has fetched and not completed. *)
Record vdisk : Type := Vdisk {
  vd_desc : list virtq_desc;       (* desc[NUM] *)
  vd_avail_idx : Z;                (* avail->idx *)
  vd_avail_ring : list Z;          (* avail->ring[NUM] *)
  vd_used_idx_dev : Z;             (* used->idx *)
  vd_used_ring : list Z;           (* the ids in used->ring[NUM] *)
  vd_free : list bool;             (* free[NUM] *)
  vd_used_idx : Z;                 (* used_idx *)
  vd_info_b : list (option nat);   (* info[NUM].b *)
  vd_info_status : list Z;         (* info[NUM].status *)
  vd_ops : list virtio_blk_req;    (* ops[NUM] *)
  vd_seen : Z;
  vd_pending : list nat;
  vd_regs : gmap Z Z;              (* the registers of the device *)
}.
#[export] Instance eta_vdisk : Eta vdisk := λ r,
  Vdisk (vd_desc r) (vd_avail_idx r) (vd_avail_ring r) (vd_used_idx_dev r) (vd_used_ring r) (vd_free r)
    (vd_used_idx r) (vd_info_b r) (vd_info_status r) (vd_ops r) (vd_seen r) (vd_pending r) (vd_regs r).

(** ** The registers of the hart, and the interrupt controller *)

Record csrs : Type := Csrs {
  sstatus : Z; stvec : Z; sepc : Z; scause : Z; stval : Z; satp : Z; sip : Z; tp : Z;
}.
#[export] Instance eta_csrs : Eta csrs := λ r,
  Csrs (sstatus r) (stvec r) (sepc r) (scause r) (stval r) (satp r) (sip r) (tp r).

(** The PLIC: what has been stored in its registers, the interrupts it will answer the
    next claims with, and those that have been claimed and not completed. *)
Record plic_t : Type := Plic { pl_regs : gmap Z Z; pl_pending : list Z; pl_claimed : list Z }.
#[export] Instance eta_plic : Eta plic_t := λ r, Plic (pl_regs r) (pl_pending r) (pl_claimed r).

(** ** The kernel *)

Record kernel : Type := Kernel {
  k_mach : machine;               (* physical memory, kmem *)
  k_tframes : gmap Z trapframe;   (* contents of trapframe pages *)
  k_procs : list proc;            (* proc[NPROC] *)
  k_cur : option nat;             (* mycpu()->proc *)
  k_nextpid : Z;
  k_initproc : option nat;
  k_ticks : Z;
  k_disk : disk_t;
  k_bcache : list buf;            (* bcache.buf[NBUF], then bcache.head *)
  k_log : log_t;
  k_sb : superblock;
  k_itable : list inode;          (* itable.inode[NINODE] *)
  k_ftable : list file;           (* ftable.file[NFILE] *)
  k_pipes : gmap Z pipe;          (* contents of pipe pages *)
  k_cons : cons_t;
  k_uart : uart_t;
  k_prlocking : bool;             (* pr.locking *)
  k_devsw : list devsw_t;         (* devsw[NDEV] *)
  k_first : bool;                 (* first, in forkret() *)
  k_kpagetable : Z;               (* kernel_pagetable *)
  k_vdisk : vdisk;                (* disk, in virtio_disk.c *)
  k_csr : csrs;
  k_plic : plic_t;
}.
#[export] Instance eta_kernel : Eta kernel := λ r,
  Kernel (k_mach r) (k_tframes r) (k_procs r) (k_cur r) (k_nextpid r) (k_initproc r) (k_ticks r)
    (k_disk r) (k_bcache r) (k_log r) (k_sb r) (k_itable r) (k_ftable r) (k_pipes r) (k_cons r)
    (k_uart r) (k_prlocking r) (k_devsw r) (k_first r) (k_kpagetable r)
    (k_vdisk r) (k_csr r) (k_plic r).

Abbreviation KM := (M kernel).

(** Memory-management code inside the kernel. *)
Definition in_mem {A} (m : K A) : KM A := zoom k_mach (λ x s, s <| k_mach := x |>) m.

Lemma in_mem_Ok {A} (m : K A) h s a h' x :
  m h (k_mach s) = Ok a h' x → in_mem m h s = Ok a h' (s <| k_mach := x |>).
Proof. intros E. unfold in_mem, zoom. by rewrite E. Qed.
