(* ===== verification/Sched.v ===== *)
(** * Sleeping, waking and killing (kernel/proc.c)

    The part of proc.c that the other components call: the current process,
    [sleep] and [wakeup], [kill] and [killed], and the copies to and from either
    address space.

    [sched] gives up the CPU: the run stops at [Block] with the state the
    scheduler sees, and continues from the state in which the process is
    scheduled again.  The interrupt-enable bit that [sched] checks and saves is
    part of the lock model of Spinlock.v. *)

From Stdlib Require Import FunctionalExtensionality.
From S2P Require Import Prelude CString Riscv Kalloc Vm Kernel.

(** ** The current process and fields of processes *)

Definition myproc : KM (option nat) := gets k_cur.

(** [myproc()->...]: dereferencing the null pointer faults in the kernel. *)
Definition curproc : KM nat :=
  p ← myproc;
  match p with Some i => mret i | None => panic "kerneltrap" end.

Definition dummy_proc : proc :=
  Proc UNUSED None false 0 0 None 0 0 0 0 (Context In_sched 0) [] None [].

Definition proc_at (i : nat) (s : kernel) : proc := default dummy_proc (k_procs s !! i).
Definition getproc (i : nat) : KM proc := gets (proc_at i).
Definition updproc (i : nat) (f : proc → proc) : KM unit :=
  modify (λ s, s <| k_procs ::= alter f i |>).

(** ** sched and yield *)

Definition sched : KM unit :=
  p ← curproc;
  h ← held;
  if negb (bool_decide (L_proc p ∈ h)) then panic "sched p->lock" else
  if negb (length h =? 1)%nat then panic "sched locks" else
  x ← getproc p;
  if bool_decide (p_state x = RUNNING) then panic "sched running" else
  block.

Definition yield : KM unit :=
  p ← curproc;
  acquire (L_proc p);;
  updproc p (λ x, x <| p_state := RUNNABLE |>);;
  sched;;
  release (L_proc p).

(** ** sleep and wakeup *)

(** The end of [sleep], after the process [p] has been woken up. *)
Definition sleep_return (p : nat) (lk : lockid) : KM unit :=
  updproc p (λ x, x <| p_chan := None |>);;
  release (L_proc p);;
  acquire lk.

Definition sleep (ch : chan) (lk : lockid) : KM unit :=
  p ← curproc;
  acquire (L_proc p);;
  release lk;;
  updproc p (λ x, x <| p_chan := Some ch |>);;
  updproc p (λ x, x <| p_state := SLEEPING |>);;
  sched;;
  sleep_return p lk.

Fixpoint wakeup_loop (ch : option chan) (ps : list nat) : KM unit :=
  match ps with
  | [] => mret tt
  | i :: ps =>
      me ← myproc;
      when (negb (bool_decide (Some i = me)))
        (acquire (L_proc i);;
         p ← getproc i;
         when (bool_decide (p_state p = SLEEPING ∧ p_chan p = ch))
           (updproc i (λ x, x <| p_state := RUNNABLE |>));;
         release (L_proc i));;
      wakeup_loop ch ps
  end.

Definition wakeup (ch : chan) : KM unit := wakeup_loop (Some ch) (seq 0 (Z.to_nat NPROC)).

(** ** kill *)

Fixpoint kill_loop (pid : Z) (ps : list nat) : KM Z :=
  match ps with
  | [] => mret (-1)
  | i :: ps =>
      acquire (L_proc i);;
      p ← getproc i;
      if p_pid p =? pid then
        updproc i (λ x, x <| p_killed := true |>);;
        when (bool_decide (p_state p = SLEEPING))
          (updproc i (λ x, x <| p_state := RUNNABLE |>));;
        release (L_proc i);;
        mret 0
      else
        release (L_proc i);;
        kill_loop pid ps
  end.

Definition kill (pid : Z) : KM Z := kill_loop pid (seq 0 (Z.to_nat NPROC)).

Definition setkilled (i : nat) : KM unit :=
  acquire (L_proc i);;
  updproc i (λ x, x <| p_killed := true |>);;
  release (L_proc i).

Definition killed (i : nat) : KM bool :=
  acquire (L_proc i);;
  p ← getproc i;
  release (L_proc i);;
  mret (p_killed p).

(** ** Copies to and from either address space

    A destination is a user address, or kernel memory: a physical address, or a
    local variable of the caller, to which the bytes are returned. *)

Inductive dst_t : Type := Dst_user (va : Z) | Dst_phys (pa : Z) | Dst_local.
Inductive src_t : Type := Src_user (va : Z) | Src_local (bs : list Z).

Definition dst_add (d : dst_t) (n : Z) : dst_t :=
  match d with
  | Dst_user va => Dst_user (u64 (va + n))
  | Dst_phys pa => Dst_phys (u64 (pa + n))
  | Dst_local => Dst_local
  end.

Definition src_add (d : src_t) (n : Z) : src_t :=
  match d with
  | Src_user va => Src_user (u64 (va + n))
  | Src_local bs => Src_local (drop (Z.to_nat n) bs)
  end.

Definition either_copyout (dst : dst_t) (src : list Z) : KM Z :=
  p ← curproc;
  x ← getproc p;
  match dst with
  | Dst_user va => in_mem (copyout (p_pagetable x) va src (Z.of_nat (length src)))
  | Dst_phys pa => in_mem (modify (upd_mem (λ m, store_bytes m pa src)));; mret 0
  | Dst_local => mret 0
  end.

Definition either_copyin (src : src_t) (len : Z) : KM (Z * list Z) :=
  p ← curproc;
  x ← getproc p;
  match src with
  | Src_user va => in_mem (copyin (p_pagetable x) va len)
  | Src_local bs => mret (0, take (Z.to_nat len) bs)
  end.

(** ** What these operations do *)

(** No process lock is held by the caller, except perhaps its own. *)
Definition no_proc_locks (me : option nat) (h : list lockid) : Prop :=
  ∀ i, me ≠ Some i → L_proc i ∉ h.

Lemma kernel_procs_id (s : kernel) l : k_procs s = l → s <| k_procs := l |> = s.
Proof. intros <-. by destruct s. Qed.

Lemma bind_myproc {A} (f : option nat → KM A) h s : (myproc ≫= f) h s = f (k_cur s) h s.
Proof. done. Qed.

Lemma bind_curproc {A} (f : nat → KM A) h s i :
  k_cur s = Some i → (curproc ≫= f) h s = f i h s.
Proof. intros E. unfold curproc. rewrite bind_assoc, bind_myproc, E. done. Qed.

Lemma bind_getproc {A} i (f : proc → KM A) h s : (getproc i ≫= f) h s = f (proc_at i s) h s.
Proof. done. Qed.

Lemma bind_updproc {A} i g (f : unit → KM A) h s :
  (updproc i g ≫= f) h s = f tt h (s <| k_procs ::= alter g i |>).
Proof. done. Qed.

Lemma proc_at_alter i j f s :
  (i < length (k_procs s))%nat →
  proc_at j (s <| k_procs ::= alter f i |>) =
  if decide (i = j) then f (proc_at j s) else proc_at j s.
Proof.
  intros Hi. unfold proc_at. simpl. case_decide as E.
  - subst j. rewrite list_lookup_alter_eq.
    destruct (lookup_lt_is_Some_2 _ _ Hi) as [p ->]. done.
  - by rewrite list_lookup_alter_ne.
Qed.

(** The effect of [wakeup] on the process in slot [i]. *)
Definition wake (me : option nat) (ch : chan) (i : nat) (p : proc) : proc :=
  if decide (Some i ≠ me ∧ p_state p = SLEEPING ∧ p_chan p = Some ch)
  then p <| p_state := RUNNABLE |> else p.

Lemma procs_ext (f g : list proc → list proc) (s : kernel) :
  f (k_procs s) = g (k_procs s) → s <| k_procs ::= f |> = s <| k_procs ::= g |>.
Proof. intros E. unfold upd_field. by rewrite E. Qed.

Lemma procs_alter_ext f g i (s : kernel) :
  (∀ x, k_procs s !! i = Some x → f x = g x) →
  s <| k_procs ::= alter f i |> = s <| k_procs ::= alter g i |>.
Proof.
  intros H. apply procs_ext, list_eq. intros j.
  destruct (decide (i = j)) as [<-|]; [|by rewrite !list_lookup_alter_ne].
  rewrite !list_lookup_alter_eq. destruct (k_procs s !! i) eqn:E; simpl; [|done].
  by rewrite H.
Qed.

Lemma procs_alter_id f i (s : kernel) :
  (∀ x, k_procs s !! i = Some x → f x = x) → s <| k_procs ::= alter f i |> = s.
Proof.
  intros H. rewrite (procs_alter_ext f id) by done.
  apply (kernel_procs_id s). symmetry. by apply list_alter_id.
Qed.

Lemma wakeup_iter ch i ps h s :
  no_proc_locks (k_cur s) h →
  wakeup_loop (Some ch) (i :: ps) h s =
  wakeup_loop (Some ch) ps h (s <| k_procs ::= alter (wake (k_cur s) ch i) i |>).
Proof.
  intros Hh. cbn [wakeup_loop]. rewrite bind_myproc.
  case_bool_decide as Hme; cbn [negb]; unfold when at 1; cbn iota.
  - rewrite bind_ret, procs_alter_id; [done|]. intros x _. unfold wake.
    rewrite decide_False; [done|]. naive_solver.
  - assert (L_proc i ∉ h) as Hi by (apply Hh; congruence).
    rewrite !bind_assoc, bind_acquire by done. rewrite bind_assoc, bind_getproc.
    rewrite (procs_alter_ext (wake (k_cur s) ch i)
      (λ x, if bool_decide (p_state (proc_at i s) = SLEEPING ∧ p_chan (proc_at i s) = Some ch)
            then x <| p_state := RUNNABLE |> else x)).
    + case_bool_decide as Hsl; unfold when, updproc; mstep; [done|].
      by rewrite procs_alter_id.
    + intros x Hx. unfold proc_at, wake. rewrite Hx. simpl.
      case_bool_decide; [by rewrite decide_True|]. rewrite decide_False; [done|]. naive_solver.
Qed.

Lemma wakeup_loop_run ch h n a s :
  no_proc_locks (k_cur s) h →
  wakeup_loop (Some ch) (seq a n) h s = Ok tt h (s <| k_procs ::= imap (λ i p,
    if decide (a ≤ i < a + n)%nat then wake (k_cur s) ch i p else p) |>).
Proof.
  revert a s. induction n as [|n IH]; intros a s Hh.
  - simpl. unfold mret, M_ret. f_equal. symmetry. apply kernel_procs_id.
    apply list_eq. intros j. rewrite list_lookup_imap. destruct (k_procs s !! j); simpl; [|done].
    by rewrite decide_False by lia.
  - cbn [seq]. rewrite wakeup_iter by done. rewrite IH by done. f_equal.
    refine (procs_ext (λ l, imap _ (alter _ _ l)) (imap _) s _).
    apply list_eq. intros j. rewrite !list_lookup_imap.
    destruct (decide (a = j)) as [<-|].
    + rewrite list_lookup_alter_eq. destruct (k_procs s !! a); simpl; [|done].
      by rewrite decide_False, decide_True by lia.
    + rewrite list_lookup_alter_ne by done. destruct (k_procs s !! j); simpl; [|done].
      repeat case_decide; try lia; done.
Qed.

(** [wakeup] makes runnable exactly the other processes asleep on the channel. *)
Lemma wakeup_run ch h s :
  no_proc_locks (k_cur s) h → length (k_procs s) = Z.to_nat NPROC →
  wakeup ch h s = Ok tt h (s <| k_procs ::= imap (wake (k_cur s) ch) |>).
Proof.
  intros Hh Hl. unfold wakeup. rewrite wakeup_loop_run by done. f_equal. apply procs_ext.
  apply list_eq. intros j. rewrite !list_lookup_imap.
  destruct (k_procs s !! j) eqn:Hj; simpl; [|done].
  apply lookup_lt_Some in Hj. by rewrite decide_True by lia.
Qed.

Lemma proc_at_wakeup ch j s :
  proc_at j (s <| k_procs ::= imap (wake (k_cur s) ch) |>) =
  match k_procs s !! j with Some p => wake (k_cur s) ch j p | None => dummy_proc end.
Proof. unfold proc_at. simpl. rewrite list_lookup_imap. by destruct (k_procs s !! j). Qed.

(** [sleep] with only [lk] held: the caller ends up asleep on the channel, [lk]
    is free, and only the lock of the process is held across the switch. *)
Definition asleep (ch : chan) (i : nat) (s : kernel) : kernel :=
  s <| k_procs ::= alter (λ x, x <| p_chan := Some ch |>) i |>
    <| k_procs ::= alter (λ x, x <| p_state := SLEEPING |>) i |>.

Lemma sleep_run ch lk h s i :
  k_cur s = Some i → (i < length (k_procs s))%nat → h = [lk] → lk ≠ L_proc i →
  sleep ch lk h s = Block [L_proc i] (asleep ch i s) (sleep_return i lk [L_proc i]).
Proof.
  intros Hc Hi -> Hne. unfold sleep. rewrite (bind_curproc _ _ _ i Hc).
  rewrite bind_acquire by set_solver.
  erewrite (bind_Ok (release lk)).
  2:{ unfold release. rewrite bool_decide_true by set_solver. done. }
  rewrite filter_cons_True, filter_cons_False, filter_nil by naive_solver.
  unfold updproc. rewrite !bind_modify. fold (asleep ch i s). unfold sched.
  rewrite bind_assoc, (bind_curproc _ _ _ i) by done. rewrite bind_assoc, bind_held.
  rewrite bool_decide_true by set_solver. cbn [negb length Nat.eqb]. rewrite bind_assoc, bind_getproc.
  replace (p_state (proc_at i (asleep ch i s))) with SLEEPING; [done|].
  unfold asleep. rewrite proc_at_alter, decide_True; [done..|]. simpl. by rewrite length_alter.
Qed.

(** The state in which [sleep] returns to a caller resumed in [s]. *)
Definition awoken (i : nat) (s : kernel) : kernel :=
  s <| k_procs ::= alter (λ x, x <| p_chan := None |>) i |>.

Lemma sleep_return_run i lk s :
  lk ≠ L_proc i → sleep_return i lk [L_proc i] s = Ok tt [lk] (awoken i s).
Proof.
  intros Hlk. unfold sleep_return, updproc. rewrite bind_modify.
  rewrite bind_release by apply not_elem_of_nil. unfold acquire.
  by rewrite bool_decide_false by apply not_elem_of_nil.
Qed.

Lemma sleep_bind {A} ch lk s i (k : unit → KM A) :
  k_cur s = Some i → (i < length (k_procs s))%nat → lk ≠ L_proc i →
  (sleep ch lk ≫= k) [lk] s = Block [L_proc i] (asleep ch i s) (λ s', k tt [lk] (awoken i s')).
Proof.
  intros Hc Hi Hlk. unfold mbind, M_bind. rewrite (sleep_run ch lk [lk] s i) by done. simpl.
  f_equal. extensionality s'. by rewrite sleep_return_run.
Qed.

Lemma killed_run i h s :
  L_proc i ∉ h → killed i h s = Ok (p_killed (proc_at i s)) h s.
Proof. intros Hi. unfold killed. rewrite bind_acquire by done. rewrite bind_getproc. by mstep. Qed.
