(* ===== verification/Sleeplock.v ===== *)
(** * Sleep locks (kernel/sleeplock.c)

    A sleep lock is part of a buffer or of an inode; [slref] says where: the spin
    lock that protects it, its address as a wait channel, and the field itself. *)

From S2P Require Import Prelude CString Riscv Kalloc Kernel Sched.

Record slref : Type := {
  sl_lk : lockid;
  sl_ch : chan;
  sl_get : kernel → sleeplock;
  sl_set : sleeplock → kernel → kernel;
}.

Definition initsleeplock (r : slref) : KM unit :=
  initlock (sl_lk r);;
  modify (sl_set r (Sleeplock false 0)).

(** [while (lk->locked) sleep(lk, &lk->lk);] *)
Fixpoint acquiresleep_loop (n : nat) (r : slref) : KM unit :=
  l ← gets (sl_get r);
  if sl_locked l then
    match n with
    | O => nofuel
    | S n => sleep (sl_ch r) (sl_lk r);; acquiresleep_loop n r
    end
  else mret tt.

Definition acquiresleep `{Patience} (r : slref) : KM unit :=
  acquire (sl_lk r);;
  acquiresleep_loop patience r;;
  p ← curproc;
  x ← getproc p;
  modify (sl_set r (Sleeplock true (p_pid x)));;
  release (sl_lk r).

Definition releasesleep (r : slref) : KM unit :=
  acquire (sl_lk r);;
  modify (sl_set r (Sleeplock false 0));;
  wakeup (sl_ch r);;
  release (sl_lk r).

Definition holdingsleep (r : slref) : KM bool :=
  acquire (sl_lk r);;
  l ← gets (sl_get r);
  p ← curproc;
  x ← getproc p;
  release (sl_lk r);;
  mret (sl_locked l && (sl_pid l =? p_pid x)).

(** ** What they do, without contention *)

(** The context of a call: a current process, a full process table, and none of
    the locks the call takes. *)
Record thread_ok (h : list lockid) (s : kernel) (me : nat) : Prop := {
  th_cur : k_cur s = Some me;
  th_procs : length (k_procs s) = Z.to_nat NPROC;
  th_me : (me < Z.to_nat NPROC)%nat;
  th_locks : ∀ i, L_proc i ∉ h;
}.

Definition mypid (s : kernel) (me : nat) : Z := p_pid (proc_at me s).

Section Sleeplock.
Context (r : slref) (h : list lockid) (s : kernel) (me : nat).
Context (Hth : thread_ok h s me) (Hlk : sl_lk r ∉ h) (Hnp : ∀ i, sl_lk r ≠ L_proc i).
(** The field of the lock is apart from the process table. *)
Context (Hproc : ∀ l, k_procs (sl_set r l s) = k_procs s ∧ k_cur (sl_set r l s) = k_cur s).

Lemma acquiresleep_free `{Patience} :
  sl_locked (sl_get r s) = false →
  acquiresleep r h s = Ok tt h (sl_set r (Sleeplock true (mypid s me)) s).
Proof.
  intros Hl. unfold acquiresleep. mstep.
  erewrite bind_Ok; [|destruct patience; cbn [acquiresleep_loop]; rewrite bind_gets, Hl; reflexivity].
  rewrite (bind_curproc _ _ _ me) by apply Hth. rewrite bind_getproc. mstep. done.
Qed.

Lemma holdingsleep_run :
  holdingsleep r h s =
  Ok (sl_locked (sl_get r s) && (sl_pid (sl_get r s) =? mypid s me)) h s.
Proof.
  unfold holdingsleep. mstep. rewrite (bind_curproc _ _ _ me) by apply Hth.
  rewrite bind_getproc. by mstep.
Qed.

Lemma releasesleep_run (s' := sl_set r (Sleeplock false 0) s) :
  releasesleep r h s = Ok tt h (s' <| k_procs ::= imap (wake (k_cur s) (sl_ch r)) |>).
Proof.
  unfold releasesleep. mstep. destruct (Hproc (Sleeplock false 0)) as [Hp Hc].
  erewrite bind_Ok.
  2:{ apply wakeup_run.
      - intros i _. rewrite elem_of_cons. intros [E|E]; [by apply (Hnp i)|by apply (th_locks _ _ _ Hth i)].
      - rewrite Hp. apply Hth. }
  mstep. unfold s'. by rewrite Hc.
Qed.
End Sleeplock.
