(* ===== verification/Bio.v ===== *)
(** * The buffer cache (kernel/bio.c)

    [k_bcache] holds the [NBUF] buffers and, as one more element, the list head;
    [prev] and [next] are indices.  The driver is used through its contract
    [disk_rw]: the effect of a call of [virtio_disk_rw] as one atomic step.  The code of
    the driver gives up the CPU while the device works; VirtioProps.v shows that what its
    clients see is nevertheless this step, taken between call and return, as long as
    no other call uses the buffer or its block, which the sleep lock of the buffer ensures. *)

From S2P Require Import Prelude CString Riscv Kalloc Kernel Sched Sleeplock.

Definition BSIZE : Z := 1024.

(** &bcache.head *)
Definition HEAD : nat := Z.to_nat NBUF.

Definition dummy_buf : buf := Buf false 0 0 (Sleeplock false 0) 0 HEAD HEAD [] false.

Definition buf_at (i : nat) (s : kernel) : buf := default dummy_buf (k_bcache s !! i).
Definition getbuf (i : nat) : KM buf := gets (buf_at i).
Definition updbuf (i : nat) (f : buf → buf) : KM unit :=
  modify (λ s, s <| k_bcache ::= alter f i |>).

(** &b->lock *)
Definition buf_sl (i : nat) : slref := {|
  sl_lk := L_buf i; sl_ch := Ch_buf i;
  sl_get := λ s, b_lock (buf_at i s);
  sl_set := λ l s, s <| k_bcache ::= alter (λ b, b <| b_lock := l |>) i |>;
|}.

(** ** The disk *)

Definition zero_block : list Z := replicate (Z.to_nat BSIZE) 0.
Definition d_read (d : disk_t) (b : Z) : list Z := default zero_block (d_blocks d !! b).
Definition d_write (b : Z) (v : list Z) (d : disk_t) : disk_t :=
  d <| d_blocks ::= <[b := v]> |> <| d_hist ::= λ l, l ++ [(b, v)] |>.

(** The contract of [virtio_disk_rw]. *)
Definition disk_rw (i : nat) (write : bool) : KM unit :=
  b ← getbuf i;
  if write then modify (λ s, s <| k_disk ::= d_write (b_blockno b) (b_data b) |>)
  else
    d ← gets k_disk;
    updbuf i (λ x, x <| b_data := d_read d (b_blockno b) |>).

(** ** Operations *)

(** One step of the loop of [binit] for buffer [i]. *)
Definition binit_one (i : nat) : KM unit :=
  hd ← getbuf HEAD;
  updbuf i (λ b, b <| b_next := b_next hd |> <| b_prev := HEAD |>);;
  initsleeplock (buf_sl i);;
  updbuf (b_next hd) (λ b, b <| b_prev := i |>);;
  updbuf HEAD (λ b, b <| b_next := i |>).

Fixpoint binit_loop (bs : list nat) : KM unit :=
  match bs with
  | [] => mret tt
  | i :: bs => binit_one i;; binit_loop bs
  end.

Definition binit : KM unit :=
  initlock L_bcache;;
  updbuf HEAD (λ b, b <| b_prev := HEAD |>);;
  updbuf HEAD (λ b, b <| b_next := HEAD |>);;
  binit_loop (seq 0 (Z.to_nat NBUF)).

(** [for(b = ...; b != &bcache.head; b = b->next)] looking for a cached block,
    and the same along [prev] for an unused buffer.  A list of [NBUF] buffers
    needs at most that many steps. *)
Fixpoint find_cached (fuel : nat) (bs : list buf) (dev blockno : Z) (i : nat) : option nat :=
  match fuel with
  | O => None
  | S fuel =>
      if (i =? HEAD)%nat then None else
      let b := default dummy_buf (bs !! i) in
      if (b_dev b =? dev) && (b_blockno b =? blockno) then Some i
      else find_cached fuel bs dev blockno (b_next b)
  end.

Fixpoint find_unused (fuel : nat) (bs : list buf) (i : nat) : option nat :=
  match fuel with
  | O => None
  | S fuel =>
      if (i =? HEAD)%nat then None else
      let b := default dummy_buf (bs !! i) in
      if b_refcnt b =? 0 then Some i else find_unused fuel bs (b_prev b)
  end.

Definition bget `{Patience} (dev blockno : Z) : KM nat :=
  acquire L_bcache;;
  hd ← getbuf HEAD;
  r ← gets (λ s, find_cached (S HEAD) (k_bcache s) dev blockno (b_next hd));
  match r with
  | Some i =>
      updbuf i (λ b, b <| b_refcnt ::= λ n, u32 (n + 1) |>);;
      release L_bcache;;
      acquiresleep (buf_sl i);;
      mret i
  | None =>
      r ← gets (λ s, find_unused (S HEAD) (k_bcache s) (b_prev hd));
      match r with
      | Some i =>
          updbuf i (λ b, b <| b_dev := dev |> <| b_blockno := blockno |>
                           <| b_valid := false |> <| b_refcnt := 1 |>);;
          release L_bcache;;
          acquiresleep (buf_sl i);;
          mret i
      | None => panic "bget: no buffers"
      end
  end.

Definition bread `{Patience} (dev blockno : Z) : KM nat :=
  i ← bget dev blockno;
  b ← getbuf i;
  when (negb (b_valid b))
    (disk_rw i false;; updbuf i (λ b, b <| b_valid := true |>));;
  mret i.

Definition bwrite (i : nat) : KM unit :=
  r ← holdingsleep (buf_sl i);
  if negb r then panic "bwrite" else
  disk_rw i true.

Definition brelse (i : nat) : KM unit :=
  r ← holdingsleep (buf_sl i);
  if negb r then panic "brelse" else
  releasesleep (buf_sl i);;
  acquire L_bcache;;
  updbuf i (λ b, b <| b_refcnt ::= λ n, u32 (n - 1) |>);;
  b ← getbuf i;
  when (b_refcnt b =? 0)
    (updbuf (b_next b) (λ x, x <| b_prev := b_prev b |>);;
     b ← getbuf i;
     updbuf (b_prev b) (λ x, x <| b_next := b_next b |>);;
     hd ← getbuf HEAD;
     updbuf i (λ x, x <| b_next := b_next hd |>);;
     updbuf i (λ x, x <| b_prev := HEAD |>);;
     hd ← getbuf HEAD;
     updbuf (b_next hd) (λ x, x <| b_prev := i |>);;
     updbuf HEAD (λ x, x <| b_next := i |>));;
  release L_bcache.

Definition bpin (i : nat) : KM unit :=
  acquire L_bcache;;
  updbuf i (λ b, b <| b_refcnt ::= λ n, u32 (n + 1) |>);;
  release L_bcache.

Definition bunpin (i : nat) : KM unit :=
  acquire L_bcache;;
  updbuf i (λ b, b <| b_refcnt ::= λ n, u32 (n - 1) |>);;
  release L_bcache.
