(* ===== verification/BioList.v ===== *)
(** * The list of buffers as a ring (kernel/bio.c)

    [prev] and [next] thread the buffers and the list head into a ring.  [seg]
    says that following [next] from [x] visits [o] and ends at [y], and that
    [prev] leads back.  The pointer assignments of [brelse] and [binit] are shown
    to be removal from and insertion at the front of the list [o]. *)

From stdpp Require Import functions.
From S2P Require Import Prelude CString Riscv Kalloc Kernel Sched Sleeplock Bio.

Fixpoint seg (nx pv : nat → nat) (x : nat) (o : list nat) (y : nat) : Prop :=
  match o with
  | [] => nx x = y ∧ pv y = x
  | z :: o => nx x = z ∧ pv z = x ∧ seg nx pv z o y
  end.

Lemma seg_frame nx pv nx' pv' x o y :
  (∀ a, a ∈ x :: o → nx' a = nx a) → (∀ a, a ∈ o ++ [y] → pv' a = pv a) →
  seg nx pv x o y → seg nx' pv' x o y.
Proof.
  revert x. induction o as [|z o IH]; intros x Hn Hp; simpl.
  - rewrite Hn, Hp by set_solver. done.
  - rewrite Hn, Hp by set_solver. intros (? & ? & ?). split_and!; [done..|].
    apply IH; [set_solver..|done].
Qed.

Lemma seg_app nx pv x o1 b o2 y :
  seg nx pv x (o1 ++ b :: o2) y ↔ seg nx pv x o1 b ∧ seg nx pv b o2 y.
Proof. revert x. induction o1 as [|z o1 IH]; intros x; simpl; [tauto|]. rewrite IH. tauto. Qed.

(** The neighbours of [b] in a segment. *)
Lemma seg_pv nx pv x o b : seg nx pv x o b → pv b ∈ x :: o.
Proof.
  revert x. induction o as [|z o IH]; intros x; simpl.
  - intros [_ ->]. set_solver.
  - intros (_ & _ & H). apply IH in H. set_solver.
Qed.

Lemma seg_nx nx pv b o y : seg nx pv b o y → nx b ∈ o ++ [y].
Proof. destruct o; simpl; [intros [-> _]|intros (-> & _)]; set_solver. Qed.

(** [b->next->prev = b->prev; b->prev->next = b->next;] *)
Lemma seg_unlink nx pv x o1 b o2 y :
  NoDup (o1 ++ b :: o2) → x ∉ o1 ++ b :: o2 → y ∉ o1 ++ b :: o2 →
  seg nx pv x (o1 ++ b :: o2) y →
  seg (<[pv b := nx b]> nx) (<[nx b := pv b]> pv) x (o1 ++ o2) y.
Proof.
  revert x. induction o1 as [|w o1 IH]; intros x HN Hx Hy Hs; simpl in *.
  - destruct Hs as (E1 & E2 & Hs). apply NoDup_cons in HN as [Hb HN].
    destruct o2 as [|z o2]; simpl in *.
    + destruct Hs as [E3 E4]. rewrite E2, E3, !fn_lookup_insert. done.
    + destruct Hs as (E3 & E4 & Hs). rewrite E2, E3, !fn_lookup_insert. split_and!; [done..|].
      apply NoDup_cons in HN as [Hz HN]. eapply seg_frame; [| |exact Hs].
      * intros a Ha. rewrite fn_lookup_insert_ne; [done|]. intros ->. set_solver.
      * intros a Ha. rewrite fn_lookup_insert_ne; [done|]. intros ->. set_solver.
  - destruct Hs as (E1 & E2 & Hs). apply NoDup_cons in HN as [Hw HN].
    pose proof (proj1 (seg_app _ _ _ _ _ _ _) Hs) as [Hs1 Hs2].
    pose proof (seg_pv _ _ _ _ _ Hs1) as Hpv. pose proof (seg_nx _ _ _ _ _ Hs2) as Hnx.
    split_and!.
    + rewrite fn_lookup_insert_ne; [done|]. intros E. rewrite E in Hpv. set_solver.
    + rewrite fn_lookup_insert_ne; [done|]. intros E. rewrite E in Hnx. set_solver.
    + apply IH; [done|set_solver..|done].
Qed.

(** [b->next = x->next; b->prev = x; x->next->prev = b; x->next = b;] *)
Lemma seg_insert nx pv x o b y :
  NoDup o → b ∉ x :: o → b ≠ y → x ∉ o → y ∉ o →
  seg nx pv x o y →
  seg (<[x := b]> (<[b := nx x]> nx)) (<[nx x := b]> (<[b := x]> pv)) x (b :: o) y.
Proof.
  intros HN Hb Hby Hx Hy Hs. assert (b ≠ x) as Hbx by set_solver. simpl.
  pose proof (seg_nx _ _ _ _ _ Hs) as Hnx.
  assert (nx x ≠ b) as Hnb by set_solver.
  rewrite fn_lookup_insert, (fn_lookup_insert_ne (<[b:=x]> pv)), fn_lookup_insert by done.
  split_and!; [done..|]. destruct o as [|z o]; simpl in *.
  - destruct Hs as [E1 E2]. rewrite fn_lookup_insert_ne, fn_lookup_insert by done.
    by rewrite E1, fn_lookup_insert.
  - destruct Hs as (E1 & E2 & Hs). apply NoDup_cons in HN as [Hz HN].
    rewrite E1, fn_lookup_insert, fn_lookup_insert_ne, fn_lookup_insert by done.
    split_and!; [done..|]. eapply seg_frame; [| |exact Hs].
    + intros a Ha. rewrite !fn_lookup_insert_ne; [done|..]; intros ->; set_solver.
    + intros a Ha. rewrite !fn_lookup_insert_ne; [done|..]; intros ->; set_solver.
Qed.

Lemma seg_reverse nx pv x o y : seg nx pv x o y → seg pv nx y (reverse o) x.
Proof.
  revert x. induction o as [|z o IH]; intros x; simpl; [tauto|].
  intros (E1 & E2 & Hs). rewrite reverse_cons. apply seg_app. split; [by apply IH|].
  simpl. done.
Qed.

(** ** The ring of the cache *)

Definition bat (bs : list buf) (i : nat) : buf := default dummy_buf (bs !! i).
Definition nxf (bs : list buf) (i : nat) : nat := b_next (bat bs i).
Definition pvf (bs : list buf) (i : nat) : nat := b_prev (bat bs i).

(** [o] lists the buffers from most to least recently used. *)
Record ring (bs : list buf) (o : list nat) : Prop := {
  ring_len : length bs = S HEAD;
  ring_seg : seg (nxf bs) (pvf bs) HEAD o HEAD;
  ring_perm : o ≡ₚ seq 0 HEAD;
}.

Lemma ring_elem bs o i : ring bs o → i ∈ o ↔ (i < HEAD)%nat.
Proof. intros [_ _ Hp]. rewrite Hp, elem_of_seq. lia. Qed.

Lemma ring_nodup bs o : ring bs o → NoDup o ∧ (HEAD ∉ o) ∧ length o = HEAD.
Proof.
  intros H. pose proof (ring_elem bs o HEAD H) as He. destruct H as [_ _ Hp].
  split_and!.
  - rewrite Hp. apply NoDup_seq.
  - rewrite He. lia.
  - by rewrite Hp, length_seq.
Qed.

Lemma find_cached_spec bs o x fuel dev blockno :
  seg (nxf bs) (pvf bs) x o HEAD → HEAD ∉ o → (length o < fuel)%nat →
  find_cached fuel bs dev blockno (nxf bs x) =
  head (filter (λ i, b_dev (bat bs i) = dev ∧ b_blockno (bat bs i) = blockno) o).
Proof.
  revert x fuel. induction o as [|z o IH]; intros x [|fuel] Hs Hh Hf; simpl in *; try lia.
  - destruct Hs as [-> _]. by rewrite Nat.eqb_refl.
  - destruct Hs as (-> & _ & Hs). rewrite (proj2 (Nat.eqb_neq z HEAD)) by set_solver.
    fold (bat bs z). rewrite filter_cons.
    destruct (Z.eqb_spec (b_dev (bat bs z)) dev), (Z.eqb_spec (b_blockno (bat bs z)) blockno);
      simpl; [by rewrite decide_True|..]; (rewrite decide_False by naive_solver);
      apply IH; try done; set_solver || lia.
Qed.

Lemma find_unused_spec bs o x fuel :
  seg (pvf bs) (nxf bs) x o HEAD → HEAD ∉ o → (length o < fuel)%nat →
  find_unused fuel bs (pvf bs x) = head (filter (λ i, b_refcnt (bat bs i) = 0) o).
Proof.
  revert x fuel. induction o as [|z o IH]; intros x [|fuel] Hs Hh Hf; simpl in *; try lia.
  - destruct Hs as [-> _]. by rewrite Nat.eqb_refl.
  - destruct Hs as (-> & _ & Hs). rewrite (proj2 (Nat.eqb_neq z HEAD)) by set_solver.
    fold (bat bs z). rewrite filter_cons.
    destruct (Z.eqb_spec (b_refcnt (bat bs z)) 0); [by rewrite decide_True|].
    rewrite decide_False by done. apply IH; [done|set_solver|lia].
Qed.

(** ** Assignments to buffers *)

Lemma bat_alter f i j bs :
  (i < length bs)%nat → bat (alter f i bs) j = if decide (i = j) then f (bat bs j) else bat bs j.
Proof.
  intros Hi. unfold bat. case_decide as E.
  - subst j. rewrite list_lookup_alter_eq. by destruct (lookup_lt_is_Some_2 _ _ Hi) as [x ->].
  - by rewrite list_lookup_alter_ne.
Qed.

Lemma ring_ext bs bs' o :
  length bs' = length bs → (∀ i, nxf bs' i = nxf bs i) → (∀ i, pvf bs' i = pvf bs i) →
  ring bs o → ring bs' o.
Proof.
  intros Hl Hn Hp [H1 H2 H3]. split; [congruence| |done].
  eapply seg_frame; [| |exact H2]; auto.
Qed.

(** Everything of a buffer but its place in the list. *)
Definition core (b : buf) : buf := b <| b_prev := 0%nat |> <| b_next := 0%nat |>.
Definition cores (bs : list buf) : list buf := core <$> bs.

(** Moving buffer [i] to the front of the list: the pointer part of [brelse]. *)
Definition relink (i : nat) (bs : list buf) : list buf :=
  let b := bat bs i in
  let bs := alter (λ x, x <| b_prev := b_prev b |>) (b_next b) bs in
  let b := bat bs i in
  let bs := alter (λ x, x <| b_next := b_next b |>) (b_prev b) bs in
  let hd := bat bs HEAD in
  let bs := alter (λ x, x <| b_next := b_next hd |>) i bs in
  let bs := alter (λ x, x <| b_prev := HEAD |>) i bs in
  let hd := bat bs HEAD in
  let bs := alter (λ x, x <| b_prev := i |>) (b_next hd) bs in
  alter (λ x, x <| b_next := i |>) HEAD bs.

Lemma cores_alter f i bs :
  (∀ x, core (f x) = core x) → cores (alter f i bs) = cores bs.
Proof.
  intros H. unfold cores. apply list_eq. intros j. rewrite !list_lookup_fmap.
  destruct (decide (i = j)) as [<-|]; [|by rewrite list_lookup_alter_ne].
  rewrite list_lookup_alter_eq. destruct (bs !! i); simpl; [|done]. by rewrite H.
Qed.

Lemma cores_relink i bs : cores (relink i bs) = cores bs.
Proof. unfold relink. by rewrite !cores_alter. Qed.

Section SetPointers.
Context (bs : list buf) (i v : nat) (Hi : (i < length bs)%nat).

Lemma nxf_set_next j : nxf (alter (λ x, x <| b_next := v |>) i bs) j = (<[i := v]> (nxf bs)) j.
Proof.
  unfold nxf. rewrite bat_alter by done. case_decide as E.
  - subst j. by rewrite fn_lookup_insert.
  - by rewrite fn_lookup_insert_ne.
Qed.

Lemma pvf_set_next j : pvf (alter (λ x, x <| b_next := v |>) i bs) j = pvf bs j.
Proof. unfold pvf. rewrite bat_alter by done. by case_decide. Qed.

Lemma pvf_set_prev j : pvf (alter (λ x, x <| b_prev := v |>) i bs) j = (<[i := v]> (pvf bs)) j.
Proof.
  unfold pvf. rewrite bat_alter by done. case_decide as E.
  - subst j. by rewrite fn_lookup_insert.
  - by rewrite fn_lookup_insert_ne.
Qed.

Lemma nxf_set_prev j : nxf (alter (λ x, x <| b_prev := v |>) i bs) j = nxf bs j.
Proof. unfold nxf. rewrite bat_alter by done. by case_decide. Qed.
End SetPointers.

(** [i->next->prev = i->prev; i->prev->next = i->next;] *)
Definition unlink (i : nat) (bs : list buf) : list buf :=
  let b := bat bs i in
  let bs := alter (λ x, x <| b_prev := b_prev b |>) (b_next b) bs in
  let b := bat bs i in
  alter (λ x, x <| b_next := b_next b |>) (b_prev b) bs.

(** [i->next = head.next; i->prev = &head; head.next->prev = i; head.next = i;] *)
Definition link_front (i : nat) (bs : list buf) : list buf :=
  let hd := bat bs HEAD in
  let bs := alter (λ x, x <| b_next := b_next hd |>) i bs in
  let bs := alter (λ x, x <| b_prev := HEAD |>) i bs in
  let hd := bat bs HEAD in
  let bs := alter (λ x, x <| b_prev := i |>) (b_next hd) bs in
  alter (λ x, x <| b_next := i |>) HEAD bs.

Lemma relink_eq i bs : relink i bs = link_front i (unlink i bs).
Proof. done. Qed.

Lemma seg_bound bs x o :
  seg (nxf bs) (pvf bs) x o HEAD → (∀ a, a ∈ o → (a < S HEAD)%nat) → (x < S HEAD)%nat →
  ∀ a, a ∈ x :: o → (nxf bs a < S HEAD)%nat.
Proof.
  revert x. induction o as [|z o IH]; intros x Hs Ho Hx a; simpl in Hs.
  - intros ->%list_elem_of_singleton. destruct Hs as [-> _]. lia.
  - destruct Hs as (E & _ & Hs). rewrite elem_of_cons. intros [->|Ha].
    + rewrite E. apply Ho. by left.
    + eapply IH; [exact Hs| | |exact Ha]; [intros; apply Ho; by right|apply Ho; by left].
Qed.

Lemma unlink_seg bs o1 i o2 :
  length bs = S HEAD → NoDup (o1 ++ i :: o2) → (HEAD ∉ o1 ++ i :: o2) →
  (∀ a, a ∈ o1 ++ i :: o2 → (a < S HEAD)%nat) →
  seg (nxf bs) (pvf bs) HEAD (o1 ++ i :: o2) HEAD →
  seg (nxf (unlink i bs)) (pvf (unlink i bs)) HEAD (o1 ++ o2) HEAD ∧ length (unlink i bs) = S HEAD.
Proof.
  intros Hlen HN Hh Hb Hs. pose proof (proj1 (seg_app _ _ _ _ _ _ _) Hs) as [Hs1 Hs2].
  pose proof (seg_pv _ _ _ _ _ Hs1) as Hpv. pose proof (seg_nx _ _ _ _ _ Hs2) as Hnx.
  assert (nxf bs i < S HEAD)%nat as Hn.
  { apply elem_of_app in Hnx as [?| ->%list_elem_of_singleton]; [apply Hb; set_solver|lia]. }
  assert (pvf bs i < S HEAD)%nat as Hp.
  { apply elem_of_cons in Hpv as [-> |?]; [lia|apply Hb; set_solver]. }
  assert (nxf bs i ≠ i) as Hni.
  { intros E. rewrite E in Hnx. apply NoDup_app in HN as (_ & _ & [HN3 _]%NoDup_cons). set_solver. }
  unfold unlink. fold (nxf bs i) (pvf bs i).
  set (bs1 := alter (λ x, x <| b_prev := pvf bs i |>) (nxf bs i) bs).
  fold (nxf bs1 i) (pvf bs1 i).
  assert (nxf bs1 i = nxf bs i ∧ pvf bs1 i = pvf bs i) as [-> ->].
  { unfold bs1. rewrite nxf_set_prev, pvf_set_prev by lia. by rewrite fn_lookup_insert_ne. }
  assert (length bs1 = S HEAD) as Hlen1 by (unfold bs1; by rewrite length_alter).
  split; [|by rewrite length_alter].
  eapply seg_frame; [| |apply (seg_unlink (nxf bs) (pvf bs) HEAD o1 i o2 HEAD); done].
  - intros a _. rewrite nxf_set_next by lia. unfold insert, fn_insert. case_decide; [done|].
    unfold bs1. by rewrite nxf_set_prev by lia.
  - intros a _. rewrite pvf_set_next by lia. unfold bs1. by rewrite pvf_set_prev by lia.
Qed.

Lemma link_front_seg bs o i :
  length bs = S HEAD → NoDup o → (HEAD ∉ o) → (i ∉ o) → (i < HEAD)%nat →
  (∀ a, a ∈ o → (a < S HEAD)%nat) →
  seg (nxf bs) (pvf bs) HEAD o HEAD →
  seg (nxf (link_front i bs)) (pvf (link_front i bs)) HEAD (i :: o) HEAD ∧
  length (link_front i bs) = S HEAD.
Proof.
  intros Hlen HN Hh Hio Hi Hb Hs.
  assert (nxf bs HEAD < S HEAD)%nat as Hn by (eapply seg_bound; [done..|lia|by left]).
  unfold link_front. fold (nxf bs HEAD).
  set (bs1 := alter (λ x, x <| b_next := nxf bs HEAD |>) i bs).
  set (bs2 := alter (λ x, x <| b_prev := HEAD |>) i bs1).
  fold (nxf bs2 HEAD).
  assert (length bs1 = S HEAD ∧ length bs2 = S HEAD) as [Hl1 Hl2]
    by (unfold bs2, bs1; by rewrite !length_alter).
  assert (nxf bs2 HEAD = nxf bs HEAD) as ->.
  { unfold bs2, bs1. rewrite nxf_set_prev, nxf_set_next by (rewrite ?length_alter; lia).
    rewrite fn_lookup_insert_ne; [done|lia]. }
  split; [|by rewrite !length_alter].
  eapply seg_frame; [| |apply (seg_insert (nxf bs) (pvf bs) HEAD o i HEAD); try done; [set_solver by lia|lia]].
  - intros a _. rewrite nxf_set_next by (rewrite !length_alter; lia).
    unfold insert, fn_insert. case_decide; [done|].
    rewrite nxf_set_prev by lia. unfold bs2. rewrite nxf_set_prev by lia. unfold bs1.
    rewrite nxf_set_next by lia. done.
  - intros a _. rewrite pvf_set_next by (rewrite !length_alter; lia).
    rewrite pvf_set_prev by lia. unfold insert, fn_insert. case_decide; [done|].
    unfold bs2. rewrite pvf_set_prev by lia. unfold insert, fn_insert. case_decide; [done|].
    unfold bs1. by rewrite pvf_set_next by lia.
Qed.

(** [brelse] moves the buffer to the front. *)
Lemma relink_ring bs o i :
  ring bs o → (i < HEAD)%nat → ring (relink i bs) (i :: filter (λ j, j ≠ i) o).
Proof.
  intros Hr Hi. destruct (ring_nodup bs o Hr) as (HN & Hh & _).
  pose proof (proj2 (ring_elem bs o i Hr) Hi) as Hin.
  assert (∀ a, a ∈ o → (a < S HEAD)%nat) as Hb by (intros a Ha; apply (ring_elem bs o a Hr) in Ha; lia).
  destruct Hr as [Hlen Hs Hp]. apply list_elem_of_split in Hin as (o1 & o2 & ->).
  assert (filter (λ j, j ≠ i) (o1 ++ i :: o2) = o1 ++ o2) as ->.
  { apply NoDup_app in HN as (_ & HN2 & [HN3 _]%NoDup_cons).
    rewrite filter_app, filter_cons_False by auto. f_equal.
    - apply filter_all. apply Forall_forall. intros x Hx ->. apply (HN2 i Hx). by left.
    - apply filter_all. apply Forall_forall. by intros x Hx ->. }
  rewrite relink_eq. destruct (unlink_seg bs o1 i o2) as [Hs1 Hl1]; [done..|].
  destruct (link_front_seg (unlink i bs) (o1 ++ o2) i) as [Hs2 Hl2]; [done| | | |done| |done|].
  - apply NoDup_app in HN as (? & HN2 & [? ?]%NoDup_cons). apply NoDup_app.
    split_and!; [done| |done]. intros x Hx. specialize (HN2 x Hx). set_solver.
  - set_solver.
  - apply NoDup_app in HN as (? & HN2 & [? ?]%NoDup_cons).
    intros [Hx|?]%elem_of_app; [|done]. specialize (HN2 i Hx). set_solver.
  - intros a Ha. apply Hb. set_solver.
  - split; [done..|]. rewrite <- Hp. by rewrite Permutation_middle.
Qed.
