(* ===== verification/Bytes.v ===== *)
(** * Structures in byte arrays

    Disk blocks and files hold C structures with little-endian integers.  [get]
    and [put] are the accesses of an integer of [n] bytes at an offset of a byte
    array, [splice] the copy of a byte string into one. *)

From S2P Require Import Prelude.

Definition byte (b : Z) : Prop := 0 ≤ b < 256.

Fixpoint le_bytes (n : nat) (v : Z) : list Z :=
  match n with
  | O => []
  | S n => v mod 256 :: le_bytes n (v / 256)
  end.

Fixpoint le_val (l : list Z) : Z :=
  match l with
  | [] => 0
  | b :: l => b + 256 * le_val l
  end.

(** Overwrite [l] with [new] from offset [off]. *)
Definition splice (off : nat) (new l : list Z) : list Z :=
  take off l ++ new ++ drop (off + length new) l.

Definition get (n off : nat) (l : list Z) : Z := le_val (take n (drop off l)).
Definition put (n off : nat) (v : Z) (l : list Z) : list Z := splice off (le_bytes n v) l.

Lemma length_le_bytes n v : length (le_bytes n v) = n.
Proof. revert v. induction n; intros; simpl; congruence. Qed.

Lemma le_bytes_byte n v : Forall byte (le_bytes n v).
Proof.
  revert v. induction n; intros v; constructor; [|done]. apply Z.mod_pos_bound. lia.
Qed.

Lemma pow_256_S n : 2 ^ (8 * Z.of_nat (S n)) = 256 * 2 ^ (8 * Z.of_nat n).
Proof. replace (8 * Z.of_nat (S n)) with (8 + 8 * Z.of_nat n) by lia. by rewrite Z.pow_add_r by lia. Qed.

Lemma le_val_bytes n v : le_val (le_bytes n v) = v mod 2 ^ (8 * Z.of_nat n).
Proof.
  revert v. induction n as [|n IH]; intros v.
  - simpl. by rewrite Z.mod_1_r.
  - rewrite pow_256_S, Z.rem_mul_r by lia. cbn [le_bytes le_val]. by rewrite IH.
Qed.

Lemma le_bytes_val l : Forall byte l → le_bytes (length l) (le_val l) = l.
Proof.
  induction 1 as [|b l Hb Hl IH]; [done|]. unfold byte in Hb. simpl.
  rewrite (Z.mul_comm 256), Z.mod_add, Z.div_add, Z.mod_small, Z.div_small by lia.
  f_equal. exact IH.
Qed.

Lemma le_val_range l : Forall byte l → 0 ≤ le_val l < 2 ^ (8 * Z.of_nat (length l)).
Proof.
  induction 1 as [|b l Hb Hl IH]; [simpl; lia|]. cbn [length le_val]. rewrite pow_256_S.
  unfold byte in Hb. lia.
Qed.

Section Splice.
Implicit Types (l new : list Z) (off : nat).

Lemma length_splice off new l :
  (off + length new ≤ length l)%nat → length (splice off new l) = length l.
Proof. intros H. unfold splice. rewrite !length_app, length_take, length_drop. lia. Qed.

Lemma splice_byte off new l : Forall byte l → Forall byte new → Forall byte (splice off new l).
Proof.
  intros. unfold splice. apply Forall_app. split; [by apply Forall_take|].
  apply Forall_app. split; [done|by apply Forall_drop].
Qed.

(** Reading back what was written. *)
Lemma take_drop_splice off new l :
  (off + length new ≤ length l)%nat → take (length new) (drop off (splice off new l)) = new.
Proof.
  intros H. unfold splice.
  rewrite drop_app_length' by (rewrite length_take; lia).
  by rewrite take_app_length.
Qed.

Lemma lookup_splice off new l i :
  (off + length new ≤ length l)%nat →
  splice off new l !! i =
  if decide (off ≤ i < off + length new)%nat then new !! (i - off)%nat else l !! i.
Proof.
  intros H. unfold splice. destruct (decide (i < off)%nat).
  - rewrite decide_False by lia. rewrite lookup_app_l by (rewrite length_take; lia).
    by rewrite lookup_take_lt.
  - rewrite lookup_app_r by (rewrite length_take; lia). rewrite length_take, Nat.min_l by lia.
    case_decide.
    + by rewrite lookup_app_l by lia.
    + rewrite lookup_app_r by lia. rewrite lookup_drop. f_equal. lia.
Qed.

(** Reading elsewhere. *)
Lemma take_drop_splice_ne n a off new l :
  (off + length new ≤ length l)%nat → (a + n ≤ off ∨ off + length new ≤ a)%nat →
  take n (drop a (splice off new l)) = take n (drop a l).
Proof.
  intros H Hd. apply list_eq. intros i. destruct (decide (i < n)%nat).
  - rewrite !lookup_take_lt, !lookup_drop, lookup_splice by lia. by rewrite decide_False by lia.
  - by rewrite !lookup_take_ge by lia.
Qed.
End Splice.

Lemma length_put n off v l : (off + n ≤ length l)%nat → length (put n off v l) = length l.
Proof. intros. unfold put. apply length_splice. by rewrite length_le_bytes. Qed.

Lemma put_byte n off v l : Forall byte l → Forall byte (put n off v l).
Proof. intros. apply splice_byte; [done|apply le_bytes_byte]. Qed.

Lemma get_put n off v l :
  (off + n ≤ length l)%nat → get n off (put n off v l) = v mod 2 ^ (8 * Z.of_nat n).
Proof.
  intros H. unfold get, put. rewrite <- (length_le_bytes n v) at 1.
  rewrite take_drop_splice by (by rewrite length_le_bytes). apply le_val_bytes.
Qed.

Lemma get_put_ne n m a off v l :
  (off + m ≤ length l)%nat → (a + n ≤ off ∨ off + m ≤ a)%nat →
  get n a (put m off v l) = get n a l.
Proof.
  intros H Hd. unfold get, put. by rewrite take_drop_splice_ne by (by rewrite length_le_bytes).
Qed.

(** Integers as C reads them from memory. *)
Definition get32 (off : Z) (l : list Z) : Z := get 4 (Z.to_nat off) l.
Definition put32 (off v : Z) (l : list Z) : list Z := put 4 (Z.to_nat off) v l.
Definition get16 (off : Z) (l : list Z) : Z := get 2 (Z.to_nat off) l.
Definition put16 (off v : Z) (l : list Z) : list Z := put 2 (Z.to_nat off) v l.

Lemma get32_put32 off v l :
  0 ≤ off → off + 4 ≤ Z.of_nat (length l) → get32 off (put32 off v l) = u32 v.
Proof. intros. unfold get32, put32. rewrite get_put by lia. done. Qed.

Lemma get32_put32_ne a off v l :
  0 ≤ off → 0 ≤ a → off + 4 ≤ Z.of_nat (length l) → a + 4 ≤ off ∨ off + 4 ≤ a →
  get32 a (put32 off v l) = get32 a l.
Proof. intros. unfold get32, put32. rewrite get_put_ne by lia. done. Qed.

Lemma length_put32 off v l :
  0 ≤ off → off + 4 ≤ Z.of_nat (length l) → length (put32 off v l) = length l.
Proof. intros. unfold put32. apply length_put. lia. Qed.

Lemma length_put16 off v l :
  0 ≤ off → off + 2 ≤ Z.of_nat (length l) → length (put16 off v l) = length l.
Proof. intros. unfold put16. apply length_put. lia. Qed.

Lemma i32_u32 x : - 2 ^ 31 ≤ x < 2 ^ 31 → i32 (u32 x) = x.
Proof.
  intros. unfold i32, u32. destruct (decide (0 ≤ x)).
  - rewrite (Z.mod_small x) by lia. rewrite Z.mod_small; lia.
  - rewrite <- (Z.mod_unique x (2 ^ 32) (-1) (x + 2 ^ 32)) by lia.
    rewrite <- (Z.mod_unique (x + 2 ^ 32 + 2 ^ 31) (2 ^ 32) 1 (x + 2 ^ 31)) by lia. lia.
Qed.
