(* ===== verification/BioSpec.v ===== *)
(** * What the buffer cache promises (kernel/bio.c)

    To its clients the cache is a map from block numbers of the root device to
    block contents ([lread]), together with the number of references to each
    block ([refs]) and the blocks that are locked ([lkd]).  The lemmas of this file
    give the effect of every operation on this view, and show that the cache
    keeps at most one buffer per block, keeps its list well formed, and recycles
    a buffer only when the disk has its contents. *)

From S2P Require Import Prelude CString Riscv Kalloc Kernel Sched Sleeplock Bio BioList.

(** ** The view of the cache *)

Definition is_blk (b : Z) (x : buf) : Prop := b_dev x = ROOTDEV ∧ b_blockno x = b.
#[global] Instance is_blk_dec b x : Decision (is_blk b x).
Proof. unfold is_blk. apply _. Defined.

(** The buffer that caches block [b], with its index. *)
Definition bsel (bs : list buf) (b : Z) : option (nat * buf) := list_find (is_blk b) (take HEAD bs).

Definition refs (bs : list buf) (b : Z) : Z :=
  match bsel bs b with Some (_, x) => b_refcnt x | None => 0 end.
Definition lkd (bs : list buf) (b : Z) : bool :=
  match bsel bs b with Some (_, x) => sl_locked (b_lock x) | None => false end.
Definition lread (bs : list buf) (d : disk_t) (b : Z) : list Z :=
  match bsel bs b with
  | Some (_, x) => if b_valid x then b_data x else d_read d b
  | None => d_read d b
  end.

(** ** The invariant *)

Record buf_ok (d : disk_t) (x : buf) : Prop := {
  bo_refcnt : 0 ≤ b_refcnt x < 2 ^ 32;
  bo_locked : sl_locked (b_lock x) = true → 0 < b_refcnt x;
  bo_other : b_dev x ≠ ROOTDEV → b_refcnt x = 0;
  bo_clean : b_refcnt x = 0 → b_dev x = ROOTDEV → b_valid x = true →
             b_data x = d_read d (b_blockno x);
  bo_data : b_valid x = true → length (b_data x) = Z.to_nat BSIZE;
}.

(** At most one buffer per block. *)
Definition uniq (bs : list buf) : Prop :=
  ∀ i j x y b, (i < HEAD)%nat → (j < HEAD)%nat → bs !! i = Some x → bs !! j = Some y →
  is_blk b x → is_blk b y → i = j.

Record cache_inv (bs : list buf) (d : disk_t) : Prop := {
  ci_ring : ∃ o, ring bs o;
  ci_uniq : uniq bs;
  ci_buf : ∀ i x, (i < HEAD)%nat → bs !! i = Some x → buf_ok d x;
  ci_disk : ∀ b, length (d_read d b) = Z.to_nat BSIZE;
}.

Lemma cache_len bs d : cache_inv bs d → length bs = S HEAD.
Proof. intros [[o [H _ _]] _ _ _]. done. Qed.

Lemma bsel_inv bs b i x : bsel bs b = Some (i, x) → (i < HEAD)%nat ∧ bs !! i = Some x ∧ is_blk b x.
Proof.
  unfold bsel. intros (Hi & Hb & _)%list_find_Some.
  apply lookup_take_Some in Hi as [Hi ?]. done.
Qed.

Lemma bsel_iff bs b i x :
  uniq bs → bsel bs b = Some (i, x) ↔ (i < HEAD)%nat ∧ bs !! i = Some x ∧ is_blk b x.
Proof.
  intros Hu. split; [apply bsel_inv|]. intros (Hi & Hx & Hb). unfold bsel.
  apply list_find_Some. split_and!; [by rewrite lookup_take_lt|done|].
  intros j y Hj Hlt Hy. apply lookup_take_Some in Hj as [Hj Hjl].
  pose proof (Hu i j x y b Hi Hjl Hx Hj Hb Hy). lia.
Qed.

Lemma bsel_None bs b i x :
  uniq bs → bsel bs b = None → (i < HEAD)%nat → bs !! i = Some x → ¬ is_blk b x.
Proof. intros Hu Hn Hi Hx Hb. by rewrite (proj2 (bsel_iff bs b i x Hu)) in Hn. Qed.

Section View.
Context (bs : list buf) (d : disk_t) (Hinv : cache_inv bs d).

Lemma bsel_Some b i x : (i < HEAD)%nat → bs !! i = Some x → is_blk b x → bsel bs b = Some (i, x).
Proof. intros. apply bsel_iff; [apply Hinv|done]. Qed.

(** [bget]'s first loop. *)
Lemma find_cached_bsel b :
  find_cached (S HEAD) bs ROOTDEV b (nxf bs HEAD) = fst <$> bsel bs b.
Proof.
  destruct (ci_ring _ _ Hinv) as [o Ho]. destruct (ring_nodup _ _ Ho) as (HN & Hh & Hl).
  rewrite (find_cached_spec bs o HEAD); [|apply Ho|done|lia].
  destruct (head _) as [i|] eqn:Hhd.
  - apply head_Some_elem_of, list_elem_of_filter in Hhd as [Hb Hi].
    apply (ring_elem _ _ _ Ho) in Hi.
    destruct (lookup_lt_is_Some_2 bs i) as [x Hx]; [rewrite (cache_len _ _ Hinv); lia|].
    unfold bat in Hb. rewrite Hx in Hb. by rewrite (bsel_Some b i x).
  - destruct (bsel bs b) as [[i x]|] eqn:Hs; [|done]. exfalso.
    apply bsel_inv in Hs as (Hi & Hx & Hb). apply head_None in Hhd.
    apply (not_elem_of_nil i). rewrite <- Hhd. apply list_elem_of_filter.
    split; [unfold bat; by rewrite Hx|]. by apply (ring_elem _ _ _ Ho).
Qed.

(** [bget]'s second loop finds a buffer unless all of them are in use. *)
Lemma find_unused_ex U :
  (∀ b, refs bs b ≠ 0 → b ∈ U) → (length U < HEAD)%nat →
  ∃ i x, find_unused (S HEAD) bs (pvf bs HEAD) = Some i ∧ (i < HEAD)%nat ∧ bs !! i = Some x ∧
         b_refcnt x = 0.
Proof.
  intros HU Hlen. destruct (ci_ring _ _ Hinv) as [o Ho]. destruct (ring_nodup _ _ Ho) as (HN & Hh & Hl).
  rewrite (find_unused_spec bs (reverse o) HEAD); [|by apply seg_reverse, Ho|by rewrite elem_of_reverse|rewrite length_reverse; lia].
  destruct (head _) as [i|] eqn:Hhd.
  - apply head_Some_elem_of, list_elem_of_filter in Hhd as [Hb Hi].
    rewrite elem_of_reverse in Hi. apply (ring_elem _ _ _ Ho) in Hi.
    destruct (lookup_lt_is_Some_2 bs i) as [x Hx]; [rewrite (cache_len _ _ Hinv); lia|].
    unfold bat in Hb. rewrite Hx in Hb. by exists i, x.
  - exfalso. apply head_None in Hhd.
    assert (length (seq 0 HEAD) ≤ length U)%nat as Hc; [|rewrite length_seq in Hc; lia].
    rewrite <- (length_fmap (λ i, b_blockno (bat bs i)) (seq 0 HEAD)).
    assert (∀ i, (i < HEAD)%nat → ∃ x, bs !! i = Some x ∧ b_refcnt x ≠ 0 ∧ is_blk (b_blockno x) x) as Hall.
    { intros i Hi. destruct (lookup_lt_is_Some_2 bs i) as [x Hx]; [rewrite (cache_len _ _ Hinv); lia|].
      assert (b_refcnt x ≠ 0) as Hr.
      { intros E. apply (not_elem_of_nil i). rewrite <- Hhd. apply list_elem_of_filter.
        split; [unfold bat; by rewrite Hx|]. apply elem_of_reverse. by apply (ring_elem _ _ _ Ho). }
      exists x. split_and!; [done..|]. split; [|done].
      destruct (decide (b_dev x = ROOTDEV)); [done|].
      by apply (bo_other _ _ (ci_buf _ _ Hinv i x Hi Hx)) in n. }
    apply submseteq_length, NoDup_submseteq.
    + apply NoDup_fmap_2_strong; [|apply NoDup_seq]. intros i j Hi Hj E.
      apply elem_of_seq in Hi, Hj.
      destruct (Hall i) as (x & Hx & _ & Hbx); [lia|]. destruct (Hall j) as (y & Hy & _ & Hby); [lia|].
      unfold bat in E. rewrite Hx, Hy in E. simpl in E. rewrite E in Hbx.
      eapply (ci_uniq _ _ Hinv i j x y (b_blockno y)); try done; lia.
    + intros b Hb. apply list_elem_of_fmap in Hb as (i & -> & Hi). apply elem_of_seq in Hi.
      destruct (Hall i) as (x & Hx & Hr & Hbx); [lia|]. apply HU. unfold bat. rewrite Hx. simpl.
      unfold refs. rewrite (bsel_Some _ i x) by (done || lia). done.
Qed.
End View.

(** ** Changing one buffer *)

(** Buffer [i] is given (or keeps) block [b]. *)
Lemma alter_bsel bs f i x b :
  uniq bs → (i < HEAD)%nat → bs !! i = Some x → is_blk b (f x) →
  bsel bs b = None ∨ is_blk b x →
  uniq (alter f i bs) ∧
  ∀ b', bsel (alter f i bs) b' =
    if decide (b' = b) then Some (i, f x) else
    if decide (is_blk b' x) then None else bsel bs b'.
Proof.
  intros Hu Hi Hx Hb Hor.
  assert (alter f i bs !! i = Some (f x)) as Hfx by (by rewrite list_lookup_alter_eq, Hx).
  assert (∀ j y, (j < HEAD)%nat → bs !! j = Some y → j ≠ i → ¬ is_blk b y) as Hother.
  { intros j y Hj Hy Hne Hby. destruct Hor as [Hn|Hbx]; [by apply (bsel_None bs b j y)|].
    apply Hne. by apply (Hu j i y x b). }
  assert (uniq (alter f i bs)) as Hu'.
  { intros j k y z b' Hj Hk Hy Hz Hby Hbz.
    destruct (decide (j = i)) as [->|Hji], (decide (k = i)) as [->|Hki]; [done|..|by
      rewrite list_lookup_alter_ne in Hy, Hz by done; apply (Hu j k y z b')].
    - rewrite Hfx in Hy. injection Hy as <-. rewrite list_lookup_alter_ne in Hz by done.
      exfalso. apply (Hother k z Hk Hz Hki). unfold is_blk in *. naive_solver.
    - rewrite Hfx in Hz. injection Hz as <-. rewrite list_lookup_alter_ne in Hy by done.
      exfalso. apply (Hother j y Hj Hy Hji). unfold is_blk in *. naive_solver. }
  split; [done|]. intros b'. repeat case_decide; [subst b'; by apply bsel_iff|..].
  - destruct (bsel _ b') as [[j y]|] eqn:E; [|done]. exfalso. apply bsel_inv in E as (Hj & Hy & Hby).
    destruct (decide (j = i)) as [->|Hji].
    + rewrite Hfx in Hy. injection Hy as <-. unfold is_blk in *. naive_solver.
    + rewrite list_lookup_alter_ne in Hy by done. apply Hji. by apply (Hu j i y x b').
  - apply option_eq. intros [j y]. rewrite !bsel_iff by done.
    destruct (decide (j = i)) as [->|Hji]; [|by rewrite list_lookup_alter_ne].
    rewrite Hfx, Hx. unfold is_blk in *. naive_solver.
Qed.

(** A change that keeps the list pointers keeps the ring. *)
Lemma alter_ring bs f i o :
  (∀ x, b_next (f x) = b_next x ∧ b_prev (f x) = b_prev x) → (i < HEAD)%nat →
  ring bs o → ring (alter f i bs) o.
Proof.
  intros Hf Hi Ho. eapply ring_ext; [..|exact Ho]; [by rewrite length_alter|..];
    intros j; unfold nxf, pvf; rewrite bat_alter by (rewrite (ring_len _ _ Ho); lia);
    case_decide; [apply Hf|done|apply Hf|done].
Qed.

Lemma alter_inv bs d f i x b :
  cache_inv bs d → (i < HEAD)%nat → bs !! i = Some x → is_blk b (f x) →
  bsel bs b = None ∨ is_blk b x →
  (∀ x, b_next (f x) = b_next x ∧ b_prev (f x) = b_prev x) → buf_ok d (f x) →
  cache_inv (alter f i bs) d.
Proof.
  intros [[o Ho] Hu Hb Hd] Hi Hx Hbl Hor Hp Hok.
  destruct (alter_bsel bs f i x b) as [Hu' _]; [done..|]. split; [|done| |done].
  - exists o. by apply alter_ring.
  - intros j y Hj Hy. destruct (decide (j = i)) as [->|Hne].
    + rewrite list_lookup_alter_eq, Hx in Hy. by injection Hy as <-.
    + rewrite list_lookup_alter_ne in Hy by done. by apply (Hb j y).
Qed.

(** ** Moving a buffer in the list *)

Lemma bsel_cores bs b : bsel (cores bs) b = prod_map id core <$> bsel bs b.
Proof.
  unfold bsel, cores. rewrite <- fmap_take, list_find_fmap. done.
Qed.

Lemma view_cores bs bs' d b :
  cores bs = cores bs' →
  refs bs' b = refs bs b ∧ lkd bs' b = lkd bs b ∧ lread bs' d b = lread bs d b.
Proof.
  intros E. assert (prod_map id core <$> bsel bs b = prod_map id core <$> bsel bs' b) as Hs
    by (by rewrite <- !bsel_cores, E).
  unfold refs, lkd, lread. destruct (bsel bs b) as [[i x]|], (bsel bs' b) as [[j y]|]; try done.
  simpl in Hs. injection Hs as -> H1 H2 H3 H4 H5 H6. by rewrite H1, H4, H5, H6.
Qed.

Lemma lookup_cores bs bs' i x :
  cores bs = cores bs' → bs' !! i = Some x → ∃ y, bs !! i = Some y ∧ core y = core x.
Proof.
  intros E Hx. assert (core <$> bs !! i = core <$> bs' !! i) as Hl.
  { pose proof (f_equal (λ l, l !! i) E) as Hl. unfold cores in Hl. simpl in Hl. by rewrite !list_lookup_fmap in Hl. }
  rewrite Hx in Hl. destruct (bs !! i) as [y|]; [|done]. exists y. split; [done|]. by apply (inj Some) in Hl.
Qed.

Lemma cache_cores bs bs' d :
  cores bs = cores bs' → (∃ o, ring bs' o) → cache_inv bs d → cache_inv bs' d.
Proof.
  intros E Ho [_ Hu Hb Hd]. split; [done|..|done].
  - intros i j x y b Hi Hj Hx Hy Hbx Hby.
    apply (lookup_cores _ _ _ _ E) in Hx as (x' & Hx & Ex), Hy as (y' & Hy & Ey).
    injection Ex as _ ? ? _ _ _. injection Ey as _ ? ? _ _ _. destruct Hbx, Hby.
    apply (Hu i j x' y' b); try done; split; congruence.
  - intros i x Hi Hx. apply (lookup_cores _ _ _ _ E) in Hx as (x' & Hx & Ex).
    injection Ex as E1 E2 E3 E4 E5 E6. destruct (Hb i x' Hi Hx) as [B1 B2 B3 B4 B5].
    rewrite E1, E2, E3, ?E4, ?E5, ?E6 in *. done.
Qed.

(** ** Operations on the view *)

(** What clients see of a block. *)
Record bstat : Type := Bstat { st_refs : Z; st_lkd : bool; st_data : list Z }.
Definition vat (s : kernel) (b : Z) : bstat :=
  Bstat (refs (k_bcache s) b) (lkd (k_bcache s) b) (lread (k_bcache s) (k_disk s) b).

(** Only block [b] changes, to [y]. *)
Definition vupd (s s' : kernel) (b : Z) (y : bstat) : Prop :=
  ∀ b', vat s' b' = if decide (b' = b) then y else vat s b'.

(** The processes other than [me] may have been woken up. *)
Definition awake (me : nat) (ps ps' : list proc) : Prop :=
  Forall2 (λ '(i, p) p', p' = p ∨ (i ≠ me ∧ p_state p = SLEEPING ∧ p' = p <| p_state := RUNNABLE |>))
    (imap pair ps) ps'.

(** A change of the cache, the disk and of sleeping processes only. *)
Record bframe (me : nat) (s s' : kernel) : Prop := {
  bf_eq : s' = s <| k_procs := k_procs s' |> <| k_bcache := k_bcache s' |> <| k_disk := k_disk s' |>;
  bf_awake : awake me (k_procs s) (k_procs s');
}.

(** A caller of the cache. *)
Record bctx (h : list lockid) (s : kernel) (me : nat) : Prop := {
  bc_thread : thread_ok h s me;
  bc_inv : cache_inv (k_bcache s) (k_disk s);
  bc_lock : L_bcache ∉ h;
  bc_buf : ∀ i, L_buf i ∉ h;
}.

(** Buffer [i] is locked by [me] and has the contents of block [b]. *)
Record holds (s : kernel) (me : nat) (i : nat) (b : Z) : Prop := {
  ho_idx : (i < HEAD)%nat;
  ho_blk : is_blk b (buf_at i s);
  ho_valid : b_valid (buf_at i s) = true;
  ho_lock : b_lock (buf_at i s) = Sleeplock true (mypid s me);
}.

Lemma awake_refl me ps : awake me ps ps.
Proof.
  apply Forall2_same_length_lookup_2; [by rewrite length_imap|].
  intros i [j p] p' Hi Hp. rewrite list_lookup_imap, Hp in Hi. simpl in Hi. injection Hi as <- <-. by left.
Qed.

Lemma awake_lookup me ps ps' i p :
  awake me ps ps' → ps !! i = Some p →
  ∃ p', ps' !! i = Some p' ∧
        (p' = p ∨ (i ≠ me ∧ p_state p = SLEEPING ∧ p' = p <| p_state := RUNNABLE |>)).
Proof.
  intros Ha Hp. eapply Forall2_lookup_l in Ha as (p' & Hp' & H);
    [|by rewrite list_lookup_imap, Hp]. by exists p'.
Qed.

Lemma awake_len me ps ps' : awake me ps ps' → length ps' = length ps.
Proof. intros Ha%Forall2_length. by rewrite length_imap in Ha. Qed.

Lemma awake_trans me ps1 ps2 ps3 : awake me ps1 ps2 → awake me ps2 ps3 → awake me ps1 ps3.
Proof.
  intros H1 H2. apply Forall2_same_length_lookup_2.
  { by rewrite length_imap, (awake_len _ _ _ H2), (awake_len _ _ _ H1). }
  intros i [j p] p' Hi Hp. rewrite list_lookup_imap in Hi.
  destruct (ps1 !! i) as [q|] eqn:Hq; [|done]. simpl in Hi. injection Hi as <- <-.
  destruct (awake_lookup _ _ _ _ _ H1 Hq) as (q2 & Hq2 & C1).
  destruct (awake_lookup _ _ _ _ _ H2 Hq2) as (q3 & Hq3 & C2).
  rewrite Hp in Hq3. injection Hq3 as <-.
  destruct C1 as [->|(? & ? & ->)]; [done|]. right. split_and!; [done..|].
  destruct C2 as [->|(_ & C & _)]; done.
Qed.

Lemma awake_wake me ch ps : awake me ps (imap (wake (Some me) ch) ps).
Proof.
  apply Forall2_same_length_lookup_2; [by rewrite !length_imap|].
  intros i [j p] p' Hi Hp. rewrite list_lookup_imap in Hi. rewrite list_lookup_imap in Hp.
  destruct (ps !! i) as [q|]; [|done]. simpl in *. injection Hi as <- <-. injection Hp as <-.
  unfold wake. case_decide as E; [|by left]. destruct E as (? & ? & _).
  right. split_and!; [congruence|done..].
Qed.

Lemma bframe_refl me s : bframe me s s.
Proof. split; [by destruct s|apply awake_refl]. Qed.

Lemma bframe_trans me s1 s2 s3 : bframe me s1 s2 → bframe me s2 s3 → bframe me s1 s3.
Proof.
  intros [E1 A1] [E2 A2]. split; [|by eapply awake_trans].
  rewrite E2, E1. by destruct s1.
Qed.

Lemma awake_me me ps ps' : awake me ps ps' → ps' !! me = ps !! me.
Proof.
  intros Ha. destruct (ps !! me) as [p|] eqn:Hp.
  - destruct (awake_lookup _ _ _ _ _ Ha Hp) as (p' & -> & [->|[? _]]); done.
  - apply lookup_ge_None. apply lookup_ge_None in Hp. by rewrite (awake_len _ _ _ Ha).
Qed.

Lemma bframe_me me s s' : bframe me s s' → proc_at me s' = proc_at me s.
Proof. intros [_ A]. unfold proc_at. by rewrite (awake_me _ _ _ A). Qed.

Lemma bframe_pid me s s' : bframe me s s' → mypid s' me = mypid s me.
Proof. intros F. unfold mypid. by rewrite (bframe_me _ _ _ F). Qed.

Lemma bframe_thread h me s s' : bframe me s s' → thread_ok h s me → thread_ok h s' me.
Proof.
  intros [E A] [H1 H2 H3 H4]. split; [by rewrite E| |done..].
  by rewrite (awake_len _ _ _ A).
Qed.

Lemma bframe_bctx h me s s' :
  bframe me s s' → cache_inv (k_bcache s') (k_disk s') → bctx h s me → bctx h s' me.
Proof. intros F Hi [T _ ? ?]. split; [by eapply bframe_thread|done..]. Qed.

Lemma bframe_cache me s bs : bframe me s (s <| k_bcache := bs |>).
Proof. split; [by destruct s|apply awake_refl]. Qed.

(** ** One assignment to a buffer *)

Definition bst (d : disk_t) (x : buf) : bstat :=
  Bstat (b_refcnt x) (sl_locked (b_lock x)) (if b_valid x then b_data x else d_read d (b_blockno x)).

Lemma vat_bsel s b i x : bsel (k_bcache s) b = Some (i, x) → vat s b = bst (k_disk s) x.
Proof.
  intros E. unfold vat, refs, lkd, lread, bst. rewrite E.
  apply bsel_inv in E as (_ & _ & _ & ->). done.
Qed.

Lemma vat_None s b : bsel (k_bcache s) b = None → vat s b = Bstat 0 false (d_read (k_disk s) b).
Proof. intros E. unfold vat, refs, lkd, lread. by rewrite E. Qed.

Lemma vupd_trans s1 s2 s3 b y z : vupd s1 s2 b y → vupd s2 s3 b z → vupd s1 s3 b z.
Proof. intros H1 H2 b'. rewrite H2, H1. by case_decide. Qed.

(** A step of the cache: the caller can go on, only block [b] changes in the view,
    to [y], and the buffers the caller has locked for other blocks stay as they
    are. *)
Record bstep (h : list lockid) (me : nat) (s s' : kernel) (b : Z) (y : bstat) : Prop := {
  bs_ctx : bctx h s' me;
  bs_frame : bframe me s s';
  bs_vupd : vupd s s' b y;
  bs_holds : ∀ j b2, b2 ≠ b → holds s me j b2 → holds s' me j b2;
}.

Lemma bstep_trans h me s1 s2 s3 b y z :
  bstep h me s1 s2 b y → bstep h me s2 s3 b z → bstep h me s1 s3 b z.
Proof.
  intros [C1 F1 V1 H1] [C2 F2 V2 H2]. split; [done|by eapply bframe_trans|by eapply vupd_trans|auto].
Qed.

Lemma bstep_refl h me s b : bctx h s me → bstep h me s s b (vat s b).
Proof.
  intros C. split; [done|apply bframe_refl| |done]. intros b'. by case_decide; subst.
Qed.

Lemma bstep_eq h me s s' b y z : bstep h me s s' b y → y = z → bstep h me s s' b z.
Proof. by intros ? ->. Qed.

Definition keeps_place (f : buf → buf) : Prop :=
  ∀ x, b_next (f x) = b_next x ∧ b_prev (f x) = b_prev x.

Lemma getbuf_lookup s i x : k_bcache s !! i = Some x → buf_at i s = x.
Proof. intros E. unfold buf_at. by rewrite E. Qed.

(** Buffer [i], which has block [b] or is recycled for it, is changed by [f]. *)
Lemma alter_step h s me f i x b :
  bctx h s me → (i < HEAD)%nat → k_bcache s !! i = Some x → is_blk b (f x) →
  (bsel (k_bcache s) b = None ∧ b_refcnt x = 0) ∨ is_blk b x →
  keeps_place f → buf_ok (k_disk s) (f x) →
  let s' := s <| k_bcache ::= alter f i |> in
  bstep h me s s' b (bst (k_disk s) (f x)) ∧ k_bcache s' !! i = Some (f x).
Proof.
  intros C Hi Hx Hb Hor Hk Hok s'.
  assert (bsel (k_bcache s) b = None ∨ is_blk b x) as Hor' by naive_solver.
  pose proof (bc_inv _ _ _ C) as Hinv.
  assert (bframe me s s') as Hf by (split; [by destruct s|apply awake_refl]).
  destruct (alter_bsel (k_bcache s) f i x b) as [_ Hsel]; [apply Hinv|done..|].
  split; [|simpl; by rewrite list_lookup_alter_eq, Hx]. split; [|done|..].
  - eapply bframe_bctx; [done| |done]. simpl. by apply (alter_inv _ _ f i x b).
  - intros b'. destruct (decide (b' = b)) as [->|Hne].
    + rewrite (vat_bsel s' b i (f x)); [done|]. simpl. by rewrite Hsel, decide_True.
    + specialize (Hsel b'). rewrite decide_False in Hsel by done. case_decide as Hbx.
      * rewrite (vat_None s') by done. simpl.
        assert (b_refcnt x = 0) as Hr by (destruct Hor as [[_ ?]|[_ ?]]; [done|destruct Hbx; congruence]).
        rewrite (vat_bsel s b' i x) by (apply bsel_iff; [apply Hinv|done]).
        destruct (ci_buf _ _ Hinv i x Hi Hx) as [_ B2 _ B4 _]. destruct Hbx as [E1 <-]. unfold bst.
        destruct (sl_locked _); [exfalso; lia || (pose proof (B2 eq_refl); lia)|].
        rewrite Hr. destruct (b_valid x) eqn:Ev; [|done]. by rewrite (B4 Hr E1).
      * unfold vat, refs, lkd, lread. simpl. by rewrite Hsel.
  - intros j b2 Hb2 [H1 H2 H3 H4].
    destruct (decide (j = i)) as [->|Hji].
    + exfalso. rewrite (getbuf_lookup _ _ _ Hx) in H2, H4. destruct Hor as [[_ Hr]|[_ E]].
      * pose proof (bo_locked _ _ (ci_buf _ _ Hinv i x Hi Hx)) as Hlk. rewrite H4 in Hlk.
        pose proof (Hlk eq_refl). lia.
      * apply Hb2. rewrite <- E. symmetry. apply H2.
    + split; [done|..]; unfold buf_at, mypid; simpl; by rewrite list_lookup_alter_ne by done.
Qed.

Lemma bind_getbuf {A} i (f : buf → KM A) h s : (getbuf i ≫= f) h s = f (buf_at i s) h s.
Proof. done. Qed.

Lemma bind_updbuf {A} i g (f : unit → KM A) h s :
  (updbuf i g ≫= f) h s = f tt h (s <| k_bcache ::= alter g i |>).
Proof. done. Qed.

(** The block is in use, hence cached, or not all buffers are in use. *)
Definition room (s : kernel) (b : Z) : Prop :=
  st_refs (vat s b) ≠ 0 ∨
  ∃ U, (∀ b', st_refs (vat s b') ≠ 0 → b' ∈ U) ∧ (length U < HEAD)%nat.

Section Bread.
Context `{Patience} (h : list lockid) (s : kernel) (me : nat) (C : bctx h s me) (b : Z).
Context (Hfree : st_lkd (vat s b) = false) (Hcnt : st_refs (vat s b) + 1 < 2 ^ 32).
Context (Hroom : room s b).

(** The lock of an unlocked buffer is taken. *)
Lemma lock_buf s1 i x :
  bctx h s1 me →
  (i < HEAD)%nat → k_bcache s1 !! i = Some x → is_blk b x → sl_locked (b_lock x) = false → 0 < b_refcnt x →
  ∃ s2, acquiresleep (buf_sl i) h s1 = Ok tt h s2 ∧ k_disk s2 = k_disk s1 ∧
    k_bcache s2 !! i = Some (x <| b_lock := Sleeplock true (mypid s1 me) |>) ∧
    bstep h me s1 s2 b (Bstat (b_refcnt x) true (st_data (bst (k_disk s1) x))).
Proof.
  intros C1 Hi Hx Hb Hl Hr. eexists. split.
  { apply (acquiresleep_free (buf_sl i) h s1 me); [apply C1|apply (bc_buf _ _ _ C1)|].
    simpl. by rewrite (getbuf_lookup _ _ _ Hx). }
  destruct (alter_step h s1 me (λ y, y <| b_lock := Sleeplock true (mypid s1 me) |>) i x b)
    as (S2 & Hl2); [done..|by right|done| |done].
  destruct (ci_buf _ _ (bc_inv _ _ _ C1) i x Hi Hx). split; done.
Qed.

Lemma bget_hit i x :
  bsel (k_bcache s) b = Some (i, x) →
  ∃ s', bget ROOTDEV b h s = Ok i h s' ∧ k_disk s' = k_disk s ∧
    k_bcache s' !! i = Some (x <| b_refcnt := b_refcnt x + 1 |> <| b_lock := Sleeplock true (mypid s me) |>) ∧
    bstep h me s s' b (Bstat (b_refcnt x + 1) true (st_data (bst (k_disk s) x))).
Proof.
  intros Hs. pose proof (vat_bsel _ _ _ _ Hs) as Ev. rewrite Ev in Hfree, Hcnt. simpl in Hfree, Hcnt.
  pose proof (bsel_inv _ _ _ _ Hs) as (Hi & Hx & Hb).
  destruct (ci_buf _ _ (bc_inv _ _ _ C) i x Hi Hx) as [B1 B2 B3 B4 B5].
  destruct (alter_step h s me (λ y, y <| b_refcnt ::= λ n, u32 (n + 1) |>) i x b)
    as (S1 & Hl1); [done..|by right|done| |].
  { split; simpl; try done; rewrite ?u32_small by lia; try lia. intros Hd. by destruct Hb. }
  assert (x <| b_refcnt ::= λ n, u32 (n + 1) |> = x <| b_refcnt := b_refcnt x + 1 |>) as Ex
    by (unfold upd_field; by rewrite u32_small by lia).
  rewrite Ex in Hl1, S1. set (s1 := s <| k_bcache ::= _ |>) in *.
  destruct (lock_buf s1 i (x <| b_refcnt := b_refcnt x + 1 |>)) as (s2 & E2 & Hd2 & Hl2 & S2);
    [apply S1|done..|simpl; lia|].
  exists s2. split_and!; [|done| |].
  - unfold bget. rewrite bind_acquire by apply C. rewrite bind_getbuf, bind_gets.
    change (b_next (buf_at HEAD s)) with (nxf (k_bcache s) HEAD).
    rewrite (find_cached_bsel _ _ (bc_inv _ _ _ C)), Hs. cbn [fmap option_fmap option_map fst].
    rewrite bind_updbuf. fold s1. rewrite bind_release by apply C.
    erewrite bind_Ok by exact E2. done.
  - rewrite Hl2. by rewrite (bframe_pid _ _ _ (bs_frame _ _ _ _ _ _ S1)).
  - eapply bstep_trans; [exact S1|exact S2].
Qed.

Lemma bget_miss :
  bsel (k_bcache s) b = None →
  ∃ i x s', bget ROOTDEV b h s = Ok i h s' ∧ (i < HEAD)%nat ∧ k_disk s' = k_disk s ∧
    k_bcache s' !! i = Some x ∧ is_blk b x ∧ b_valid x = false ∧
    b_lock x = Sleeplock true (mypid s me) ∧ b_refcnt x = 1 ∧
    bstep h me s s' b (Bstat 1 true (d_read (k_disk s) b)).
Proof.
  intros Hs. pose proof (bc_inv _ _ _ C) as Hinv.
  destruct Hroom as [Hrf|(U & HU & Hlen)]; [by rewrite (vat_None _ _ Hs) in Hrf|].
  destruct (find_unused_ex _ _ Hinv U) as (i & x & Hfu & Hi & Hx & Hr); [done..|].
  pose proof (ci_buf _ _ Hinv i x Hi Hx) as [B1 B2 B3 B4 B5].
  assert (sl_locked (b_lock x) = false) as Hul by (destruct (sl_locked _); [pose proof (B2 eq_refl); lia|done]).
  destruct (alter_step h s me (λ y, y <| b_dev := ROOTDEV |> <| b_blockno := b |>
      <| b_valid := false |> <| b_refcnt := 1 |>) i x b) as (S1 & Hl1); [done..|by left|done| |].
  { split; simpl; try done; lia. }
  set (s1 := s <| k_bcache ::= _ |>) in *.
  edestruct (lock_buf s1 i) as (s2 & E2 & Hd2 & Hl2 & S2); [apply S1|done|exact Hl1|done..|].
  eexists i, _, s2. split_and!; [|done|done|exact Hl2|done|done| |done|].
  - unfold bget. rewrite bind_acquire by apply C. rewrite bind_getbuf, bind_gets.
    change (b_next (buf_at HEAD s)) with (nxf (k_bcache s) HEAD).
    rewrite (find_cached_bsel _ _ Hinv), Hs. cbn [fmap option_fmap option_map]. rewrite bind_gets.
    change (b_prev (buf_at HEAD s)) with (pvf (k_bcache s) HEAD). rewrite Hfu.
    rewrite bind_updbuf. fold s1. rewrite bind_release by apply C.
    erewrite bind_Ok by exact E2. done.
  - simpl. by rewrite (bframe_pid _ _ _ (bs_frame _ _ _ _ _ _ S1)).
  - eapply bstep_trans; [exact S1|exact S2].
Qed.

Lemma holds_of s' i x :
  (i < HEAD)%nat → k_bcache s' !! i = Some x → is_blk b x → b_valid x = true →
  b_lock x = Sleeplock true (mypid s' me) → holds s' me i b.
Proof. intros Hi Hx Hb Hv Hl. by split; rewrite ?(getbuf_lookup _ _ _ Hx). Qed.

(** The read from disk that makes a locked buffer valid. *)
Lemma fill_buf s1 i x :
  bctx h s1 me → (i < HEAD)%nat → k_bcache s1 !! i = Some x → is_blk b x → b_valid x = false →
  b_lock x = Sleeplock true (mypid s1 me) → 0 < b_refcnt x →
  ∃ s2, (disk_rw i false;; updbuf i (λ y, y <| b_valid := true |>)) h s1 = Ok tt h s2 ∧
    k_disk s2 = k_disk s1 ∧ holds s2 me i b ∧
    bstep h me s1 s2 b (Bstat (b_refcnt x) true (d_read (k_disk s1) b)).
Proof.
  intros C1 Hi Hx Hb Hv Hl Hr. set (v := d_read (k_disk s1) b).
  destruct (ci_buf _ _ (bc_inv _ _ _ C1) i x Hi Hx) as [B1 B2 B3 B4 B5].
  destruct (alter_step h s1 me (λ y, y <| b_data := v |>) i x b) as (S2 & Hl2); [done..|by right|done| |].
  { split; simpl; try done; congruence. }
  set (s2 := s1 <| k_bcache ::= _ |>) in *.
  destruct (alter_step h s2 me (λ y, y <| b_valid := true |>) i (x <| b_data := v |>) b)
    as (S3 & Hl3); [apply S2|done..|by right|done| |].
  { split; simpl; try done; [lia|]. intros _. apply (ci_disk _ _ (bc_inv _ _ _ C1)). }
  exists (s2 <| k_bcache ::= alter (λ y, y <| b_valid := true |>) i |>). split_and!; [|done| |].
  - unfold disk_rw. rewrite bind_assoc, bind_getbuf, (getbuf_lookup _ _ _ Hx), bind_assoc, bind_gets.
    destruct Hb as [_ ->]. done.
  - eapply holds_of; [done|exact Hl3|done|done|]. simpl. by rewrite Hl.
  - eapply bstep_eq; [eapply bstep_trans; [exact S2|exact S3]|]. unfold bst. simpl. by rewrite Hl.
Qed.

(** [bread] returns a locked buffer with the contents of the block. *)
Lemma bread_ok :
  ∃ i s', bread ROOTDEV b h s = Ok i h s' ∧ k_disk s' = k_disk s ∧ holds s' me i b ∧
    bstep h me s s' b (Bstat (st_refs (vat s b) + 1) true (st_data (vat s b))).
Proof.
  assert (∃ i x s1, bget ROOTDEV b h s = Ok i h s1 ∧ (i < HEAD)%nat ∧
    k_disk s1 = k_disk s ∧ k_bcache s1 !! i = Some x ∧ is_blk b x ∧
    b_lock x = Sleeplock true (mypid s me) ∧ 0 < b_refcnt x ∧
    (b_valid x = false → st_data (vat s b) = d_read (k_disk s) b) ∧ b_refcnt x = st_refs (vat s b) + 1 ∧
    bstep h me s s1 b (Bstat (st_refs (vat s b) + 1) true (st_data (vat s b))))
    as (i & x & s1 & E & Hi & Hd1 & Hl1 & Hb & Hlk & Hr & Hv & Hrc & S1).
  { destruct (bsel (k_bcache s) b) as [[i x]|] eqn:Hs.
    - destruct (bget_hit i x Hs) as (s1 & E & Hd1 & Hl1 & S1).
      pose proof (bsel_inv _ _ _ _ Hs) as (Hi & Hx & Hb). rewrite (vat_bsel _ _ _ _ Hs).
      pose proof (bo_refcnt _ _ (ci_buf _ _ (bc_inv _ _ _ C) i x Hi Hx)).
      eexists i, _, s1. split_and!; [done..|exact Hl1|done|done|simpl; lia| |done|done].
      simpl. intros ->. by destruct Hb as [_ ->].
    - destruct (bget_miss Hs) as (i & x & s1 & E & Hi & Hd1 & Hl1 & Hb & Hv & Hlk & Hr & S1).
      rewrite (vat_None _ _ Hs). exists i, x, s1. split_and!; try done; lia. }
  rewrite <- (bframe_pid _ _ _ (bs_frame _ _ _ _ _ _ S1)) in Hlk.
  assert (bread ROOTDEV b h s = (when (negb (b_valid x))
    (disk_rw i false;; updbuf i (λ y, y <| b_valid := true |>));; mret i) h s1) as Ebr.
  { unfold bread. erewrite bind_Ok by exact E. by rewrite bind_getbuf, (getbuf_lookup _ _ _ Hl1). }
  destruct (b_valid x) eqn:Hval.
  - exists i, s1. split_and!; [done..|by eapply holds_of|done].
  - destruct (fill_buf s1 i x) as (s2 & E2 & Hd2 & Ho & S2); [apply S1|done..|].
    exists i, s2. split_and!; [|congruence|done|].
    + rewrite Ebr. cbn [negb when]. erewrite bind_Ok by exact E2. done.
    + rewrite (Hv eq_refl), <- Hrc, <- Hd1. eapply bstep_trans; [exact S1|exact S2].
Qed.
End Bread.

(** ** Operations of the holder of a buffer *)

Section Holder.
Context (h : list lockid) (s : kernel) (me i : nat) (b : Z).
Context (C : bctx h s me) (Ho : holds s me i b).

Lemma holds_lookup : ∃ x, k_bcache s !! i = Some x ∧ is_blk b x ∧ b_valid x = true ∧
  b_lock x = Sleeplock true (mypid s me) ∧ vat s b = Bstat (b_refcnt x) true (b_data x) ∧
  0 < b_refcnt x < 2 ^ 32 ∧ length (b_data x) = Z.to_nat BSIZE.
Proof.
  destruct Ho as [Hi Hb Hv Hl].
  destruct (lookup_lt_is_Some_2 (k_bcache s) i) as [x Hx].
  { rewrite (cache_len _ _ (bc_inv _ _ _ C)). lia. }
  rewrite (getbuf_lookup _ _ _ Hx) in Hb, Hv, Hl. exists x.
  destruct (ci_buf _ _ (bc_inv _ _ _ C) i x Hi Hx) as [B1 B2 _ _ B5].
  rewrite Hl in B2. pose proof (B2 eq_refl). split_and!; try done; [|lia..|auto].
  rewrite (vat_bsel s b i x) by (apply bsel_iff; [apply C|done]).
  unfold bst. by rewrite Hv, Hl.
Qed.

(** A change of the data or of the reference count. *)
Lemma change_ok f :
  (∀ x, b_dev (f x) = b_dev x ∧ b_blockno (f x) = b_blockno x ∧ b_lock (f x) = b_lock x ∧
        b_valid (f x) = b_valid x) → keeps_place f →
  (∀ x, vat s b = Bstat (b_refcnt x) true (b_data x) →
        0 < b_refcnt (f x) < 2 ^ 32 ∧ length (b_data (f x)) = Z.to_nat BSIZE) →
  let s' := s <| k_bcache ::= alter f i |> in
  (∃ x, vat s b = Bstat (b_refcnt x) true (b_data x) ∧
    bstep h me s s' b (Bstat (b_refcnt (f x)) true (b_data (f x)))) ∧ holds s' me i b.
Proof.
  intros Hf Hk Hx' s'. destruct holds_lookup as (x & Hx & Hb & Hv & Hl & Ev & Hr & Hlen).
  destruct (Hf x) as (F1 & F2 & F3 & F4). destruct (Hx' x Ev) as [Hr' Hlen'].
  assert (is_blk b (f x)) as Hbf by (unfold is_blk; by rewrite F1, F2).
  destruct (alter_step h s me f i x b) as [S1 Hl1]; [done|apply Ho|done|done|by right|done| |].
  { split; [lia|intros _; lia|rewrite F1; by destruct Hb|lia|auto]. }
  split.
  - exists x. split; [done|]. eapply bstep_eq; [exact S1|]. unfold bst. by rewrite F4, F3, Hv, Hl.
  - split; [apply Ho|..]; rewrite (getbuf_lookup s' i _ Hl1); [done|congruence|].
    by rewrite F3, Hl.
Qed.

Lemma set_data_ok g :
  length (g (st_data (vat s b))) = Z.to_nat BSIZE →
  let s' := s <| k_bcache ::= alter (λ x, x <| b_data ::= g |>) i |> in
  bstep h me s s' b (Bstat (st_refs (vat s b)) true (g (st_data (vat s b)))) ∧ holds s' me i b.
Proof.
  intros Hlen s'. destruct (change_ok (λ x, x <| b_data ::= g |>)) as [(x & Ev & S) H]; [done..| |].
  - intros x Ev. rewrite Ev in Hlen. destruct holds_lookup as (y & _ & _ & _ & _ & Ev' & Hr & _).
    rewrite Ev in Ev'. injection Ev' as E1 _. simpl. by rewrite E1.
  - split; [|done]. rewrite Ev. done.
Qed.

Lemma bpin_ok :
  st_refs (vat s b) + 1 < 2 ^ 32 →
  ∃ s', bpin i h s = Ok tt h s' ∧ k_disk s' = k_disk s ∧ holds s' me i b ∧
  bstep h me s s' b (Bstat (st_refs (vat s b) + 1) true (st_data (vat s b))).
Proof.
  intros Hc. destruct holds_lookup as (y & _ & _ & _ & _ & Ey & Hr & Hlen).
  destruct (change_ok (λ x, x <| b_refcnt ::= λ n, u32 (n + 1) |>)) as [(x & Ev & S) H]; [done..| |].
  - intros x Ev. rewrite Ev in Ey, Hc. injection Ey as E1 E2. simpl in *.
    rewrite u32_small by lia. rewrite E2. split; [lia|done].
  - eexists. split_and!; [|..|exact H|].
    + unfold bpin. rewrite bind_acquire by apply C. rewrite bind_updbuf. by rewrite release_acquired by apply C.
    + done.
    + rewrite Ev in *. simpl in *. rewrite u32_small in S by (injection Ey as ? ?; lia). done.
Qed.

Lemma bunpin_ok :
  1 < st_refs (vat s b) →
  ∃ s', bunpin i h s = Ok tt h s' ∧ k_disk s' = k_disk s ∧ holds s' me i b ∧
  bstep h me s s' b (Bstat (st_refs (vat s b) - 1) true (st_data (vat s b))).
Proof.
  intros Hc. destruct holds_lookup as (y & _ & _ & _ & _ & Ey & Hr & Hlen).
  destruct (change_ok (λ x, x <| b_refcnt ::= λ n, u32 (n - 1) |>)) as [(x & Ev & S) H]; [done..| |].
  - intros x Ev. rewrite Ev in Ey, Hc. injection Ey as E1 E2. simpl in *.
    rewrite u32_small by lia. rewrite E2. split; [lia|done].
  - eexists. split_and!; [|..|exact H|].
    + unfold bunpin. rewrite bind_acquire by apply C. rewrite bind_updbuf. by rewrite release_acquired by apply C.
    + done.
    + rewrite Ev in *. simpl in *. rewrite u32_small in S by (injection Ey as ? ?; lia). done.
Qed.

Lemma holding_run : holdingsleep (buf_sl i) h s = Ok true h s.
Proof.
  rewrite (holdingsleep_run (buf_sl i) h s me); [|apply C|apply (bc_buf _ _ _ C)].
  simpl. rewrite (ho_lock _ _ _ _ Ho). simpl. by rewrite Z.eqb_refl.
Qed.
End Holder.

(** ** The other operations *)

Lemma bstep_procs h s me b ps :
  bctx h s me → awake me (k_procs s) ps → bstep h me s (s <| k_procs := ps |>) b (vat s b).
Proof.
  intros C A. assert (bframe me s (s <| k_procs := ps |>)) as F by (split; [by destruct s|done]).
  split; [by eapply bframe_bctx; [| |done]; [|apply C]|done|..].
  - intros b'. case_decide; [by subst|done].
  - intros j b2 _ [? ? ? Hl]. split; [done..|]. by rewrite (bframe_pid _ _ _ F).
Qed.

(** The pointer assignments of [brelse]. *)
Lemma bstep_relink h s me b i :
  bctx h s me → (i < HEAD)%nat → bstep h me s (s <| k_bcache ::= relink i |>) b (vat s b).
Proof.
  intros C Hi. pose proof (cores_relink i (k_bcache s)) as Ec. symmetry in Ec.
  assert (bframe me s (s <| k_bcache ::= relink i |>)) as F by (split; [by destruct s|apply awake_refl]).
  split; [|done|..].
  - eapply bframe_bctx; [done| |done]. simpl. eapply cache_cores; [exact Ec| |apply C].
    destruct (ci_ring _ _ (bc_inv _ _ _ C)) as [o Hr]. eexists. by apply relink_ring.
  - intros b'. unfold vat. simpl. destruct (view_cores _ _ (k_disk s) b' Ec) as (-> & -> & ->).
    by case_decide; subst.
  - intros j b2 _ [Hj Hb Hv Hl]. unfold buf_at in *. simpl.
    destruct (lookup_lt_is_Some_2 (relink i (k_bcache s)) j) as [x Hx].
    { pose proof (f_equal length Ec) as El. unfold cores in El. rewrite !length_fmap in El.
      rewrite <- El, (cache_len _ _ (bc_inv _ _ _ C)). lia. }
    destruct (lookup_cores _ _ _ _ Ec Hx) as (y & Hy & Ey). rewrite Hy in Hb, Hv, Hl.
    injection Ey as E1 E2 E3 E4 E5 E6. destruct Hb.
    split; [done|..]; unfold buf_at, is_blk; simpl; rewrite Hx; simpl in *;
      [split; congruence|congruence|]. rewrite <- E4, Hl. done.
Qed.

Section Release.
Context (h : list lockid) (s : kernel) (me i : nat) (b : Z).
Context (C : bctx h s me) (Ho : holds s me i b).

Lemma bwrite_ok (s' := s <| k_disk ::= d_write b (st_data (vat s b)) |>) :
  bwrite i h s = Ok tt h s' ∧ holds s' me i b ∧ bstep h me s s' b (vat s b).
Proof.
  destruct (holds_lookup h s me i b C Ho) as (x & Hx & Hb & Hv & Hl & Ev & Hr & Hlen).
  split_and!.
  - unfold bwrite. erewrite bind_Ok by (by apply (holding_run h s me i b)). cbn [negb].
    unfold disk_rw. rewrite bind_getbuf, (getbuf_lookup _ _ _ Hx). unfold s'. rewrite Ev.
    destruct Hb as [_ ->]. done.
  - by destruct Ho.
  - assert (bframe me s s') as F by (split; [by destruct s|apply awake_refl]).
    assert (∀ b', d_read (k_disk s') b' = if decide (b' = b) then st_data (vat s b) else d_read (k_disk s) b') as Hd.
    { intros b'. unfold d_read. simpl. case_decide; [subst; by rewrite lookup_insert_eq|].
      by rewrite lookup_insert_ne. }
    split; [|done|..].
    + eapply bframe_bctx; [done| |done]. destruct (bc_inv _ _ _ C) as [Hri Hu Hbuf Hdk].
      split; [done|done| |].
      * intros j y Hj Hy. destruct (Hbuf j y Hj Hy) as [B1 B2 B3 B4 B5]. split; [done..| |done].
        intros R1 R2 R3. rewrite Hd. rewrite decide_False; [auto|]. intros E.
        assert (j = i) as ->; [|change (k_bcache s' !! i) with (k_bcache s !! i) in Hy; rewrite Hx in Hy; injection Hy as <-; lia].
        apply (Hu j i y x b); try done. apply Ho.
      * intros b'. rewrite Hd. case_decide; [|done]. by rewrite Ev.
    + intros b'. case_decide as E; [subst b'|].
      * rewrite Ev. rewrite (vat_bsel s' b i x) by (apply bsel_iff; [apply C|split; [apply Ho|done]]).
        unfold bst. by rewrite Hv, Hl.
      * unfold vat. f_equal. unfold lread. change (k_bcache s') with (k_bcache s).
        destruct (bsel _ _) as [[j y]|]; rewrite Hd, decide_False by done; done.
    + by intros j b2 _ [].
Qed.

(** The release of the buffer's lock, with the wakeup. *)
Lemma unlock_buf x :
  k_bcache s !! i = Some x →
  ∃ s', releasesleep (buf_sl i) h s = Ok tt h s' ∧ k_disk s' = k_disk s ∧
    k_bcache s' = alter (λ x, x <| b_lock := Sleeplock false 0 |>) i (k_bcache s) ∧
    bstep h me s s' b (Bstat (st_refs (vat s b)) false (st_data (vat s b))).
Proof.
  intros Hx. destruct (holds_lookup h s me i b C Ho) as (y & Hy & Hb & Hv & Hl & Ev & Hr & Hlen).
  rewrite Hx in Hy. injection Hy as <-.
  destruct (alter_step h s me (λ x, x <| b_lock := Sleeplock false 0 |>) i x b) as [S1 Hl1];
    [done|apply Ho|done|done|by right|done| |].
  { destruct (ci_buf _ _ (bc_inv _ _ _ C) i x (ho_idx _ _ _ _ Ho) Hx). by split. }
  set (s1 := s <| k_bcache ::= _ |>) in *.
  eexists. split; [|split; [|split]].
  - apply (releasesleep_run (buf_sl i) h s me); [apply C|apply (bc_buf _ _ _ C)|done|done].
  - done.
  - done.
  - eapply bstep_trans; [exact S1|]. pose proof (th_cur _ _ _ (bc_thread _ _ _ C)) as Hc.
    eapply bstep_eq.
    + rewrite Hc. apply (bstep_procs h s1 me b (imap (wake (Some me) (Ch_buf i)) (k_procs s1)));
        [apply S1|apply awake_wake].
    + rewrite (bs_vupd _ _ _ _ _ _ S1), decide_True by done. rewrite Ev. unfold bst. simpl. by rewrite Hv.
Qed.

(** [brelse] gives the buffer up; the last reference can only be given up when
    the disk has the contents. *)
Lemma brelse_full :
  (st_refs (vat s b) = 1 → st_data (vat s b) = d_read (k_disk s) b) →
  ∃ s', brelse i h s = Ok tt h s' ∧ k_disk s' = k_disk s ∧
    bstep h me s s' b (Bstat (st_refs (vat s b) - 1) false (st_data (vat s b))) ∧
    ∀ o, ring (k_bcache s) o →
      ring (k_bcache s') (if st_refs (vat s b) =? 1 then i :: filter (λ j, j ≠ i) o else o).
Proof.
  intros Hclean. destruct (holds_lookup h s me i b C Ho) as (x & Hx & Hb & Hv & Hl & Ev & Hr & Hlen).
  destruct (unlock_buf x Hx) as (s1 & E1 & Hd1 & Eb1 & S1).
  assert (k_bcache s1 !! i = Some (x <| b_lock := Sleeplock false 0 |>)) as Hl1
    by (by rewrite Eb1, list_lookup_alter_eq, Hx).
  destruct (ci_buf _ _ (bc_inv _ _ _ C) i x (ho_idx _ _ _ _ Ho) Hx) as [B1 B2 B3 B4 B5].
  set (x1 := x <| b_lock := Sleeplock false 0 |>) in *.
  assert (u32 (b_refcnt x1 - 1) = b_refcnt x - 1) as Eu by (simpl; apply u32_small; lia).
  rewrite Ev in Hclean, S1. rewrite Ev. simpl in *.
  destruct (alter_step h s1 me (λ x, x <| b_refcnt ::= λ n, u32 (n - 1) |>) i x1 b) as [S2 Hl2];
    [apply S1|apply Ho|done|done|by right|done| |].
  { split; simpl; rewrite ?Eu; try done; [lia|by destruct Hb|].
    intros R1 R2 R3. destruct Hb as [_ ->]. rewrite Hd1. apply Hclean. lia. }
  set (s2 := s1 <| k_bcache ::= _ |>) in *.
  assert (bstep h me s s2 b (Bstat (b_refcnt x - 1) false (b_data x))) as S12.
  { eapply bstep_trans; [exact S1|]. eapply bstep_eq; [exact S2|]. unfold bst. simpl. by rewrite Eu, Hv. }
  assert (brelse i h s = (when (b_refcnt x - 1 =? 0) (modify (λ s, s <| k_bcache ::= relink i |>));;
    release L_bcache) (L_bcache :: h) s2) as Er.
  { unfold brelse. erewrite bind_Ok by (by apply (holding_run h s me i b)). cbn [negb].
    erewrite bind_Ok by exact E1. rewrite bind_acquire by apply C. rewrite bind_updbuf. fold s2.
    rewrite bind_getbuf, (getbuf_lookup _ _ _ Hl2). cbn [b_refcnt upd_field]. simpl (b_refcnt _).
    rewrite Eu. destruct (b_refcnt x - 1 =? 0); [|done].
    unfold when. rewrite <- (getbuf_lookup s2 i _ Hl2). done. }
  assert (∀ o, ring (k_bcache s) o → ring (k_bcache s2) o) as Hring.
  { intros o Hro. unfold s2. simpl. rewrite Eb1.
    do 2 (apply alter_ring; [done|apply Ho|]). done. }
  replace (b_refcnt x =? 1) with (b_refcnt x - 1 =? 0) by lia.
  destruct (b_refcnt x - 1 =? 0).
  - exists (s2 <| k_bcache ::= relink i |>). split_and!; [|done| |].
    + rewrite Er. cbn [when]. rewrite bind_modify. apply release_acquired, C.
    + eapply bstep_trans; [exact S12|]. eapply bstep_eq; [apply bstep_relink; [apply S12|apply Ho]|].
      by rewrite (bs_vupd _ _ _ _ _ _ S12), decide_True.
    + intros o Hro. apply relink_ring; [by apply Hring|apply Ho].
  - exists s2. split_and!; [|done..]. rewrite Er. cbn [when]. rewrite bind_ret. apply release_acquired, C.
Qed.

Lemma brelse_ok :
  (st_refs (vat s b) = 1 → st_data (vat s b) = d_read (k_disk s) b) →
  ∃ s', brelse i h s = Ok tt h s' ∧ k_disk s' = k_disk s ∧
    bstep h me s s' b (Bstat (st_refs (vat s b) - 1) false (st_data (vat s b))).
Proof. intros Hc. destruct (brelse_full Hc) as (s' & E & D & S & _). by exists s'. Qed.
End Release.

(** Blocks that are not in use have the contents of the disk. *)
Lemma vat_clean h s me b :
  bctx h s me → st_refs (vat s b) = 0 →
  st_lkd (vat s b) = false ∧ st_data (vat s b) = d_read (k_disk s) b.
Proof.
  intros C. destruct (bsel (k_bcache s) b) as [[i x]|] eqn:Hs; [|by rewrite (vat_None _ _ Hs)].
  rewrite (vat_bsel _ _ _ _ Hs). apply bsel_inv in Hs as (Hi & Hx & Hb).
  destruct (ci_buf _ _ (bc_inv _ _ _ C) i x Hi Hx) as [B1 B2 B3 B4 B5]. destruct Hb as [Hd <-].
  simpl. intros Hr. split.
  - destruct (sl_locked _); [|done]. specialize (B2 eq_refl). lia.
  - destruct (b_valid x) eqn:E; [|done]. by apply B4.
Qed.

#[global] Opaque vat.
