(* ===== verification/Log.v ===== *)
(** * The write-ahead log (kernel/log.c)

    The log records the blocks a group of file-system calls has modified.
    Modified blocks stay pinned in the buffer cache until [commit] has written
    them to the log area, written the header (the commit point), and installed
    them at their home locations.

    The on-disk header is a [struct logheader] at the start of block [log.start]:
    the count at offset 0, block number [i] at offset 4 + 4 * i. *)

From S2P Require Import Prelude CString Riscv Kalloc Kernel Sched Sleeplock Bytes Bio.

Definition updlog (f : log_t → log_t) : KM unit := modify (λ s, s <| k_log ::= f |>).
Definition log_n (s : kernel) : Z := lh_n (l_lh (k_log s)).
Definition log_block (s : kernel) (i : Z) : Z := nthZ (lh_block (l_lh (k_log s))) i.

(** An access outside of [log.lh.block] is undefined in C. *)
Definition out_of_bounds {A} : KM A := panic "access out of bounds".

(** sizeof(struct logheader) *)
Definition sizeof_logheader : Z := 4 + 4 * LOGSIZE.

Section Log.
Context `{Patience}.

(** [for (tail = 0; tail < log.lh.n; tail++)]; at most [LOGSIZE] rounds. *)
Fixpoint install_trans_loop (fuel : nat) (recovering : bool) (tail : Z) : KM unit :=
  l ← gets k_log;
  if tail <? lh_n (l_lh l) then
    match fuel with
    | O => nofuel
    | S fuel =>
        lbuf ← bread (l_dev l) (u32 (l_start l + tail + 1));
        dbuf ← bread (l_dev l) (u32 (nthZ (lh_block (l_lh l)) tail));
        b ← getbuf lbuf;
        updbuf dbuf (λ x, x <| b_data := b_data b |>);;
        bwrite dbuf;;
        when (negb recovering) (bunpin dbuf);;
        brelse lbuf;;
        brelse dbuf;;
        install_trans_loop fuel recovering (tail + 1)
    end
  else mret tt.

Definition install_trans (recovering : bool) : KM unit :=
  install_trans_loop (Z.to_nat LOGSIZE) recovering 0.

(** [for (i = 0; i < log.lh.n; i++) log.lh.block[i] = lh->block[i];] *)
Fixpoint read_blocks (ks : list nat) (data bl : list Z) : list Z :=
  match ks with
  | [] => bl
  | k :: ks => read_blocks ks data (<[k := i32 (get32 (4 + 4 * Z.of_nat k) data)]> bl)
  end.

Definition read_head : KM unit :=
  l ← gets k_log;
  i ← bread (l_dev l) (u32 (l_start l));
  b ← getbuf i;
  updlog (λ l, l <| l_lh ::= λ lh, lh <| lh_n := i32 (get32 0 (b_data b)) |> |>);;
  n ← gets log_n;
  if LOGSIZE <? n then out_of_bounds else
  updlog (λ l, l <| l_lh ::= λ lh, lh <| lh_block ::= read_blocks (seq 0 (Z.to_nat n)) (b_data b) |> |>);;
  brelse i.

(** [for (i = 0; i < log.lh.n; i++) hb->block[i] = log.lh.block[i];] *)
Fixpoint write_blocks (ks : list nat) (bl data : list Z) : list Z :=
  match ks with
  | [] => data
  | k :: ks => write_blocks ks bl (put32 (4 + 4 * Z.of_nat k) (nthZ bl (Z.of_nat k)) data)
  end.

Definition write_head : KM unit :=
  l ← gets k_log;
  i ← bread (l_dev l) (u32 (l_start l));
  updbuf i (λ x, x <| b_data ::= put32 0 (lh_n (l_lh l)) |>);;
  updbuf i (λ x, x <| b_data ::= write_blocks (seq 0 (Z.to_nat (lh_n (l_lh l)))) (lh_block (l_lh l)) |>);;
  bwrite i;;
  brelse i.

Definition recover_from_log : KM unit :=
  read_head;;
  install_trans true;;
  updlog (λ l, l <| l_lh ::= λ lh, lh <| lh_n := 0 |> |>);;
  write_head.

Definition initlog (dev : Z) (sb : superblock) : KM unit :=
  if BSIZE <=? sizeof_logheader then panic "initlog: too big logheader" else
  initlock L_log;;
  updlog (λ l, l <| l_start := i32 (sb_logstart sb) |>);;
  updlog (λ l, l <| l_size := i32 (sb_nlog sb) |>);;
  updlog (λ l, l <| l_dev := dev |>);;
  recover_from_log.

(** [while(1)] of [begin_op]. *)
Fixpoint begin_op_loop (n : nat) : KM unit :=
  l ← gets k_log;
  if l_committing l || (LOGSIZE <? lh_n (l_lh l) + (l_outstanding l + 1) * MAXOPBLOCKS) then
    match n with
    | O => nofuel
    | S n => sleep Ch_log L_log;; begin_op_loop n
    end
  else
    updlog (λ l, l <| l_outstanding ::= λ n, i32 (n + 1) |>);;
    release L_log.

Definition begin_op : KM unit :=
  acquire L_log;;
  begin_op_loop patience.

Fixpoint write_log_loop (fuel : nat) (tail : Z) : KM unit :=
  l ← gets k_log;
  if tail <? lh_n (l_lh l) then
    match fuel with
    | O => nofuel
    | S fuel =>
        to ← bread (l_dev l) (u32 (l_start l + tail + 1));
        from ← bread (l_dev l) (u32 (nthZ (lh_block (l_lh l)) tail));
        b ← getbuf from;
        updbuf to (λ x, x <| b_data := b_data b |>);;
        bwrite to;;
        brelse from;;
        brelse to;;
        write_log_loop fuel (tail + 1)
    end
  else mret tt.

Definition write_log : KM unit := write_log_loop (Z.to_nat LOGSIZE) 0.

Definition commit : KM unit :=
  n ← gets log_n;
  when (0 <? n)
    (write_log;;
     write_head;;
     install_trans false;;
     updlog (λ l, l <| l_lh ::= λ lh, lh <| lh_n := 0 |> |>);;
     write_head).

Definition end_op : KM unit :=
  acquire L_log;;
  updlog (λ l, l <| l_outstanding ::= λ n, i32 (n - 1) |>);;
  l ← gets k_log;
  if l_committing l then panic "log.committing" else
  do_commit ←
    (if l_outstanding l =? 0 then
       updlog (λ l, l <| l_committing := true |>);; mret true
     else wakeup Ch_log;; mret false);
  release L_log;;
  when do_commit
    (commit;;
     acquire L_log;;
     updlog (λ l, l <| l_committing := false |>);;
     wakeup Ch_log;;
     release L_log).

(** The index of [blockno] in the log, or the number of blocks if it is not there. *)
Fixpoint find_logged (fuel : nat) (l : logheader) (blockno i : Z) : Z :=
  match fuel with
  | O => i
  | S fuel =>
      if i <? lh_n l then
        if u32 (nthZ (lh_block l) i) =? blockno then i else find_logged fuel l blockno (i + 1)
      else i
  end.

Definition log_write (b : nat) : KM unit :=
  acquire L_log;;
  l ← gets k_log;
  if (LOGSIZE <=? lh_n (l_lh l)) || (l_size l - 1 <=? lh_n (l_lh l))
  then panic "too big a transaction" else
  if l_outstanding l <? 1 then panic "log_write outside of trans" else
  x ← getbuf b;
  let i := find_logged (Z.to_nat LOGSIZE) (l_lh l) (b_blockno x) 0 in
  updlog (λ l, l <| l_lh ::= λ lh, lh <| lh_block ::= <[Z.to_nat i := i32 (b_blockno x)]> |> |>);;
  when (i =? lh_n (l_lh l))
    (bpin b;;
     updlog (λ l, l <| l_lh ::= λ lh, lh <| lh_n ::= λ n, i32 (n + 1) |> |>));;
  release L_log.
End Log.
