(* ===== verification/LogSpec.v ===== *)
(** * What the log does (kernel/log.c)

    The operations of the log on the view of the cache that BioSpec.v gives: the
    disk writes of a commit and of a recovery, in order, and the contents of
    every block afterwards.  Crash safety is a statement about the prefixes of
    these lists of writes. *)

From stdpp Require Import functions.
From S2P Require Import Prelude CString Riscv Kalloc Kernel Sched Sleeplock Bytes Bio BioList BioSpec Log.

(** ** Sequences of disk writes *)

Definition writes (ws : list (Z * list Z)) (d : disk_t) : disk_t :=
  foldl (λ d w, d_write w.1 w.2 d) d ws.
Definition cws (ws : list (Z * list Z)) (c : Z → list Z) : Z → list Z :=
  foldl (λ c w, <[w.1 := w.2]> c) c ws.

Lemma d_read_write b v d b' :
  d_read (d_write b v d) b' = if decide (b' = b) then v else d_read d b'.
Proof.
  unfold d_read, d_write. simpl. case_decide as E; [subst; by rewrite lookup_insert_eq|].
  by rewrite lookup_insert_ne.
Qed.

Lemma cws_ext ws c c' b : (∀ b, c b = c' b) → cws ws c b = cws ws c' b.
Proof.
  revert c c'. induction ws as [|w ws IH]; intros c c' Hc; [apply Hc|].
  simpl. apply IH. intros b'. unfold insert, fn_insert. by case_decide.
Qed.

Lemma cws_notin ws c b : b ∉ ws.*1 → cws ws c b = c b.
Proof.
  revert c. induction ws as [|[b' v] ws IH]; intros c Hb; [done|]. simpl in *.
  apply not_elem_of_cons in Hb as [Hne Hb]. rewrite IH by done. by rewrite fn_lookup_insert_ne.
Qed.

Lemma cws_in ws c b v : NoDup ws.*1 → (b, v) ∈ ws → cws ws c b = v.
Proof.
  revert c. induction ws as [|[b' v'] ws IH]; intros c HN Hin; simpl in *.
  - by apply not_elem_of_nil in Hin.
  - apply NoDup_cons in HN as [Hn HN]. apply elem_of_cons in Hin as [[= -> ->]|Hin]; [|by apply IH].
    rewrite cws_notin by done. by rewrite fn_lookup_insert.
Qed.

Lemma d_read_writes ws d b : d_read (writes ws d) b = cws ws (d_read d) b.
Proof.
  revert d. induction ws as [|[b' v] ws IH]; intros d; [done|]. simpl. rewrite IH.
  apply cws_ext. intros b2. rewrite d_read_write. unfold insert, fn_insert.
  repeat case_decide; congruence.
Qed.

Lemma writes_app ws1 ws2 d : writes (ws1 ++ ws2) d = writes ws2 (writes ws1 d).
Proof. apply foldl_app. Qed.

Lemma cws_app ws1 ws2 c : cws (ws1 ++ ws2) c = cws ws2 (cws ws1 c).
Proof. apply foldl_app. Qed.

(** ** The cache between operations *)

(** No buffer is locked; block [b] has [R b] references and contents [c b]. *)
Definition cfg (s : kernel) (R : Z → Z) (c : Z → list Z) : Prop :=
  ∀ b, vat s b = Bstat (R b) false (c b).

Lemma cfg_ext s R R' c c' : (∀ b, R b = R' b) → (∀ b, c b = c' b) → cfg s R c → cfg s R' c'.
Proof. intros HR Hc G b. by rewrite G, HR, Hc. Qed.

Lemma bframe_log me s s' : bframe me s s' → k_log s' = k_log s.
Proof. intros F. by rewrite (bf_eq _ _ _ F). Qed.

Lemma updbuf_twice {A} i f g (k : unit → KM A) h s :
  (updbuf i f;; updbuf i g ≫= k) h s = (updbuf i (λ x, g (f x)) ≫= k) h s.
Proof.
  rewrite !bind_updbuf. f_equal. unfold upd_field. simpl. f_equal.
  apply alter_alter.
Qed.

(** Read the view through the steps of the context. *)
Ltac view :=
  repeat match goal with
  | S : bstep _ _ _ ?s' _ _ |- context [vat ?s' _] => rewrite (bs_vupd _ _ _ _ _ _ S)
  | G : cfg ?s _ _ |- context [vat ?s _] => rewrite (G _)
  end;
  repeat case_decide; subst; try done; simpl; try solve [f_equal; (lia || congruence)].

(** Compose the frames of the steps of the context. *)
Ltac frames :=
  match goal with
  | |- bframe _ ?s ?s => apply bframe_refl
  | S : bstep _ _ _ ?s' _ _ |- bframe _ _ ?s' =>
      eapply bframe_trans; [|exact (bs_frame _ _ _ _ _ _ S)]; frames
  end.

(** ** Blocks in the log *)

(** [L] can be the list of logged blocks: at most one header and [LOGSIZE] - 1
    blocks fit in the log area, and no block of the log area is logged. *)
Record log_list (start size : Z) (L : list Z) : Prop := {
  ll_nodup : NoDup L;
  ll_len : Z.of_nat (length L) ≤ size - 1;
  ll_area : 0 ≤ start ∧ size ≤ LOGSIZE ∧ start + size < 2 ^ 31;
  ll_blocks : ∀ b, b ∈ L → 0 ≤ b < 2 ^ 31 ∧ (b < start ∨ start + size ≤ b);
}.

(** The in-memory log lists the blocks [L]. *)
Record log_at (s : kernel) (start size : Z) (L : list Z) : Prop := {
  la_start : l_start (k_log s) = start;
  la_size : l_size (k_log s) = size;
  la_dev : l_dev (k_log s) = ROOTDEV;
  la_n : lh_n (l_lh (k_log s)) = Z.of_nat (length L);
  la_len : length (lh_block (l_lh (k_log s))) = Z.to_nat LOGSIZE;
  la_blocks : ∀ k b, L !! k = Some b → lh_block (l_lh (k_log s)) !! k = Some b;
}.

Lemma log_at_frame me s s' start size L :
  bframe me s s' → log_at s start size L → log_at s' start size L.
Proof. intros F [H1 H2 H3 H4 H5 H6]. split; by rewrite (bframe_log _ _ _ F). Qed.

(** The writes of [write_log] and [install_trans] from block [a] of the log area on. *)
Fixpoint logw (c : Z → list Z) (a : Z) (L : list Z) : list (Z * list Z) :=
  match L with
  | [] => []
  | b :: L => (a, c b) :: logw c (a + 1) L
  end.
Fixpoint instw (c : Z → list Z) (a : Z) (L : list Z) : list (Z * list Z) :=
  match L with
  | [] => []
  | b :: L => (b, c a) :: instw c (a + 1) L
  end.

(** The blocks listed by a header. *)
Definition hdr_list (data : list Z) : list Z :=
  (λ k, i32 (get32 (4 + 4 * Z.of_nat k) data)) <$> seq 0 (Z.to_nat (i32 (get32 0 data))).

Lemma length_read_blocks ks data bl : length (read_blocks ks data bl) = length bl.
Proof. revert bl. induction ks; intros bl; simpl; [done|]. by rewrite IHks, length_insert. Qed.

Lemma lookup_read_blocks ks data bl k :
  k ∈ ks → (k < length bl)%nat →
  read_blocks ks data bl !! k = Some (i32 (get32 (4 + 4 * Z.of_nat k) data)).
Proof.
  revert bl. induction ks as [|j ks IH] using rev_ind; intros bl Hk Hl; [by apply not_elem_of_nil in Hk|].
  assert (∀ ks1 bl, read_blocks (ks1 ++ [j]) data bl =
    <[j := i32 (get32 (4 + 4 * Z.of_nat j) data)]> (read_blocks ks1 data bl)) as ->.
  { clear. induction ks1; intros bl; simpl; [done|]. apply IHks1. }
  destruct (decide (j = k)) as [->|Hne].
  - apply list_lookup_insert_eq. by rewrite length_read_blocks.
  - rewrite list_lookup_insert_ne by done. apply IH; [|done].
    apply elem_of_app in Hk as [?| ->%list_elem_of_singleton]; done.
Qed.

(** One reference for each pinned block. *)
Definition pins (L : list Z) (b : Z) : Z := if decide (b ∈ L) then 1 else 0.

Lemma logw_ext c c' a L : (∀ b, b ∈ L → c b = c' b) → logw c a L = logw c' a L.
Proof.
  revert a. induction L as [|b L IH]; intros a Hc; [done|]. simpl. rewrite Hc by (by left).
  f_equal. apply IH. intros; apply Hc; by right.
Qed.

Lemma instw_ext c c' a L :
  (∀ j, a ≤ j < a + Z.of_nat (length L) → c j = c' j) → instw c a L = instw c' a L.
Proof.
  revert a. induction L as [|b L IH]; intros a Hc; [done|]. simpl in *. rewrite Hc by lia.
  f_equal. apply IH. intros; apply Hc; lia.
Qed.

Lemma logw_fst c a L b : b ∈ (logw c a L).*1 ↔ a ≤ b < a + Z.of_nat (length L).
Proof.
  revert a. induction L as [|x L IH]; intros a; simpl.
  - rewrite elem_of_nil. lia.
  - rewrite elem_of_cons, IH. lia.
Qed.

Lemma instw_fst c a L : (instw c a L).*1 = L.
Proof. revert a. induction L as [|x L IH]; intros a; simpl; [done|]. by rewrite IH. Qed.

(** What is installed is what was logged. *)
Definition homew (c : Z → list Z) (L : list Z) : list (Z * list Z) := (λ b, (b, c b)) <$> L.

Lemma instw_home c c1 a L :
  (∀ x v, (x, v) ∈ logw c a L → c1 x = v) → instw c1 a L = homew c L.
Proof.
  revert a. induction L as [|b L IH]; intros a Hc; [done|]. simpl in *. rewrite (Hc a (c b)) by (by left).
  unfold homew. simpl. f_equal. apply IH. intros x v Hx. apply Hc. by right.
Qed.

Lemma logw_nodup c a L : NoDup (logw c a L).*1.
Proof.
  revert a. induction L as [|b L IH]; intros a; simpl; constructor; [|done].
  rewrite logw_fst. lia.
Qed.

Lemma homew_fst c L : (homew c L).*1 = L.
Proof. unfold homew. rewrite <- list_fmap_compose. apply list_fmap_id. Qed.

Lemma in_use_pins L : ∀ b, pins L b ≠ 0 → b ∈ L.
Proof. intros b. unfold pins. by case_decide. Qed.

Lemma log_at_nth s start size L1 b L2 :
  log_at s start size (L1 ++ b :: L2) → 0 ≤ b < 2 ^ 31 →
  u32 (nthZ (lh_block (l_lh (k_log s))) (Z.of_nat (length L1))) = b.
Proof.
  intros La Hb. rewrite (nthZ_lookup _ _ b); [apply u32_small; lia|]. rewrite Nat2Z.id.
  apply (la_blocks _ _ _ _ La). by rewrite list_lookup_middle.
Qed.

(** A change of the log, the cache, the disk and of sleeping processes. *)
Record lframe (me : nat) (s s' : kernel) : Prop := {
  lf_eq : s' = s <| k_procs := k_procs s' |> <| k_bcache := k_bcache s' |>
                 <| k_disk := k_disk s' |> <| k_log := k_log s' |>;
  lf_awake : awake me (k_procs s) (k_procs s');
}.

Lemma bframe_lframe me s s' : bframe me s s' → lframe me s s'.
Proof. intros [E A]. split; [|done]. rewrite E. by destruct s. Qed.

Lemma lframe_trans me s1 s2 s3 : lframe me s1 s2 → lframe me s2 s3 → lframe me s1 s3.
Proof.
  intros [E1 A1] [E2 A2]. split; [|by eapply awake_trans]. rewrite E2, E1. by destruct s1.
Qed.

Lemma lframe_log me s f : lframe me s (s <| k_log ::= f |>).
Proof. split; [by destruct s|apply awake_refl]. Qed.

(** Assignments to the log do not touch the cache. *)
Lemma bctx_log h me s f : bctx h s me → bctx h (s <| k_log ::= f |>) me.
Proof. intros [[? ? ? ?] ? ? ?]. by split. Qed.

Lemma cfg_log s f R c : cfg s R c → cfg (s <| k_log ::= f |>) R c.
Proof. intros G b. exact (G b). Qed.

Section LogSpec.
Context `{Patience} (h : list lockid) (me : nat).

(** One round of [write_log]: block [lb] of the log gets the contents of [d]. *)
Lemma log_block_copied s R c lb d U :
  bctx h s me → cfg s R c → lb ≠ d → R lb = 0 → R d = 1 →
  (∀ b, R b ≠ 0 → b ∈ U) → (length U < HEAD)%nat →
  ∃ s', (∀ k : KM unit,
         (to ← bread ROOTDEV lb;
          from ← bread ROOTDEV d;
          b ← getbuf from;
          updbuf to (λ x, x <| b_data := b_data b |>);;
          bwrite to;; brelse from;; brelse to;; k) h s = k h s') ∧
    bctx h s' me ∧ bframe me s s' ∧ k_disk s' = d_write lb (c d) (k_disk s) ∧
    cfg s' R (<[lb := c d]> c).
Proof.
  intros C G Hne Hlb Hd HU Hlen.
  destruct (bread_ok h s me C lb) as (i1 & s1 & E1 & D1 & H1 & S1).
  { by rewrite (G lb). } { rewrite (G lb). simpl. lia. }
  { right. exists U. split; [|done]. intros b'. rewrite (G b'). exact (HU b'). }
  destruct (bread_ok h s1 me (bs_ctx _ _ _ _ _ _ S1) d) as (i2 & s2 & E2 & D2 & H2 & S2).
  { view. } { view; lia. } { left. view; lia. }
  assert (vat s2 d = Bstat 2 true (c d)) as V2 by (view; by rewrite Hd).
  pose proof (bs_holds _ _ _ _ _ _ S2 i1 lb Hne H1) as H1'.
  destruct (holds_lookup h s2 me i2 d (bs_ctx _ _ _ _ _ _ S2) H2) as (x & Hx & _ & _ & _ & Ev & _ & Hl).
  rewrite V2 in Ev. injection Ev as _ Ex.
  destruct (set_data_ok h s2 me i1 lb (bs_ctx _ _ _ _ _ _ S2) H1' (λ _, b_data x) Hl) as [S3 H3].
  set (s3 := s2 <| k_bcache ::= _ |>) in *.
  destruct (bwrite_ok h s3 me i1 lb (bs_ctx _ _ _ _ _ _ S3) H3) as (E4 & H4 & S4).
  set (s4 := s3 <| k_disk ::= _ |>) in *.
  assert (st_data (vat s3 lb) = c d) as V3 by (view; congruence).
  destruct (brelse_ok h s4 me i2 d (bs_ctx _ _ _ _ _ _ S4)) as (s5 & E5 & D5 & S5).
  { apply (bs_holds _ _ _ _ _ _ S4); [done|]. by apply (bs_holds _ _ _ _ _ _ S3). }
  { view; by rewrite Hd. }
  destruct (brelse_ok h s5 me i1 lb (bs_ctx _ _ _ _ _ _ S5)) as (s6 & E6 & D6 & S6).
  { by apply (bs_holds _ _ _ _ _ _ S5). }
  { intros _. rewrite D5. simpl. rewrite d_read_write, decide_True by done. view. }
  exists s6. split_and!.
  - intros k. erewrite bind_Ok by exact E1. erewrite bind_Ok by exact E2. rewrite bind_getbuf.
    rewrite (getbuf_lookup _ _ _ Hx), bind_updbuf. fold s3. erewrite bind_Ok by exact E4.
    erewrite bind_Ok by exact E5. by erewrite bind_Ok by exact E6.
  - apply S6.
  - frames.
  - rewrite D6, D5. simpl. rewrite D2, D1. by rewrite V3.
  - intros b'. unfold insert, fn_insert. view.
Qed.

(** One round of [install_trans]: block [d] gets the contents of block [lb] of the log. *)
Lemma block_installed s R c lb d (recovering : bool) U :
  bctx h s me → cfg s R c → lb ≠ d → R lb = 0 → R d = (if recovering then 0 else 1) →
  (∀ b, R b ≠ 0 → b ∈ U) → (length U + (if recovering then 1 else 0) < HEAD)%nat →
  ∃ s', (∀ k : KM unit,
         (lbuf ← bread ROOTDEV lb;
          dbuf ← bread ROOTDEV d;
          b ← getbuf lbuf;
          updbuf dbuf (λ x, x <| b_data := b_data b |>);;
          bwrite dbuf;; when (negb recovering) (bunpin dbuf);;
          brelse lbuf;; brelse dbuf;; k) h s = k h s') ∧
    bctx h s' me ∧ bframe me s s' ∧ k_disk s' = d_write d (c lb) (k_disk s) ∧
    cfg s' (<[d := 0]> R) (<[d := c lb]> c).
Proof.
  intros C G Hne Hlb Hd HU Hlen.
  destruct (vat_clean h s me lb C) as [_ Hcl]; [by rewrite (G lb)|]. rewrite (G lb) in Hcl. simpl in Hcl.
  destruct (bread_ok h s me C lb) as (i1 & s1 & E1 & D1 & H1 & S1).
  { by rewrite (G lb). } { rewrite (G lb). simpl. lia. }
  { right. exists U. split; [|lia]. intros b'. rewrite (G b'). exact (HU b'). }
  destruct (bread_ok h s1 me (bs_ctx _ _ _ _ _ _ S1) d) as (i2 & s2 & E2 & D2 & H2 & S2).
  { view. } { view; destruct recovering; lia. }
  { destruct recovering; [right|left; view; lia]. exists (lb :: U). split; [|simpl; lia].
    intros b'. view; [by left|right; by apply HU]. }
  pose proof (bs_holds _ _ _ _ _ _ S2 i1 lb Hne H1) as H1'.
  destruct (holds_lookup h s2 me i1 lb (bs_ctx _ _ _ _ _ _ S2) H1') as (x & Hx & _ & _ & _ & Ev & _ & Hl).
  assert (b_data x = c lb) as Ex by (apply (f_equal st_data) in Ev; revert Ev; view).
  destruct (set_data_ok h s2 me i2 d (bs_ctx _ _ _ _ _ _ S2) H2 (λ _, b_data x) Hl) as [S3 H3].
  set (s3 := s2 <| k_bcache ::= _ |>) in *.
  destruct (bwrite_ok h s3 me i2 d (bs_ctx _ _ _ _ _ _ S3) H3) as (E4 & H4 & S4).
  set (s4 := s3 <| k_disk ::= _ |>) in *.
  assert (st_data (vat s3 d) = c lb) as V3 by (view; congruence).
  assert (∃ s5, when (negb recovering) (bunpin i2) h s4 = Ok tt h s5 ∧ k_disk s5 = k_disk s4 ∧
    holds s5 me i2 d ∧ bstep h me s4 s5 d (Bstat 1 true (c lb))) as (s5 & E5 & D5 & H5 & S5).
  { destruct recovering; cbn [negb when].
    - exists s4. split_and!; [done..|]. eapply bstep_eq; [apply bstep_refl, S4|]. view.
    - destruct (bunpin_ok h s4 me i2 d (bs_ctx _ _ _ _ _ _ S4) H4) as (s5 & ? & ? & ? & S5); [view; lia|].
      exists s5. split_and!; [done..|]. eapply bstep_eq; [exact S5|]. view. }
  destruct (brelse_ok h s5 me i1 lb (bs_ctx _ _ _ _ _ _ S5)) as (s6 & E6 & D6 & S6).
  { apply (bs_holds _ _ _ _ _ _ S5); [done|]. apply (bs_holds _ _ _ _ _ _ S4); [done|].
    by apply (bs_holds _ _ _ _ _ _ S3). }
  { intros _. rewrite D5. simpl. rewrite d_read_write, decide_False, D2, D1 by done. view. }
  destruct (brelse_ok h s6 me i2 d (bs_ctx _ _ _ _ _ _ S6)) as (s7 & E7 & D7 & S7).
  { by apply (bs_holds _ _ _ _ _ _ S6). }
  { intros _. rewrite D6, D5. simpl. rewrite d_read_write, decide_True, V3 by done. view. }
  exists s7. split_and!.
  - intros k. erewrite bind_Ok by exact E1. erewrite bind_Ok by exact E2. rewrite bind_getbuf.
    rewrite (getbuf_lookup _ _ _ Hx), bind_updbuf. fold s3. erewrite bind_Ok by exact E4.
    erewrite bind_Ok by exact E5. erewrite bind_Ok by exact E6. by erewrite bind_Ok by exact E7.
  - apply S7.
  - frames.
  - rewrite D7, D6, D5. simpl. rewrite D2, D1. by rewrite V3.
  - intros b'. unfold insert, fn_insert. view.
Qed.

(** Rewriting the header block in place. *)
Lemma block_rewritten s R c b g U :
  bctx h s me → cfg s R c → R b = 0 → length (g (c b)) = Z.to_nat BSIZE →
  (∀ b, R b ≠ 0 → b ∈ U) → (length U < HEAD)%nat →
  ∃ s' s1 i, bread ROOTDEV b h s = Ok i h s1 ∧
    (updbuf i (λ x, x <| b_data ::= g |>);; bwrite i;; brelse i) h s1 = Ok tt h s' ∧
    bctx h s' me ∧ bframe me s s1 ∧ bframe me s s' ∧ k_disk s' = d_write b (g (c b)) (k_disk s) ∧
    cfg s' R (<[b := g (c b)]> c).
Proof.
  intros C G Hb Hg HU Hlen.
  destruct (bread_ok h s me C b) as (i & s1 & E1 & D1 & H1 & S1).
  { by rewrite (G b). } { rewrite (G b). simpl. lia. }
  { right. exists U. split; [|done]. intros b'. rewrite (G b'). exact (HU b'). }
  assert (st_data (vat s1 b) = c b) as V1 by view.
  destruct (set_data_ok h s1 me i b (bs_ctx _ _ _ _ _ _ S1) H1 g) as [S2 H2]; [by rewrite V1|].
  set (s2 := s1 <| k_bcache ::= _ |>) in *.
  destruct (bwrite_ok h s2 me i b (bs_ctx _ _ _ _ _ _ S2) H2) as (E3 & H3 & S3).
  set (s3 := s2 <| k_disk ::= _ |>) in *.
  assert (st_data (vat s2 b) = g (c b)) as V2 by (view; congruence).
  destruct (brelse_ok h s3 me i b (bs_ctx _ _ _ _ _ _ S3)) as (s4 & E4 & D4 & S4); [done| |].
  { intros _. simpl. rewrite d_read_write, decide_True by done. view. }
  exists s4, s1, i. split_and!; [done| |apply S4|frames|frames| |].
  - rewrite bind_updbuf. fold s2. by erewrite bind_Ok by exact E3.
  - rewrite D4. simpl. by rewrite D1, V2.
  - intros b'. unfold insert, fn_insert. view.
Qed.

Lemma write_log_run start size L2 : ∀ L1 L fuel s c,
  L = L1 ++ L2 → log_list start size L → (length L2 ≤ fuel)%nat →
  bctx h s me → cfg s (pins L) c → log_at s start size L →
  ∃ s', write_log_loop fuel (Z.of_nat (length L1)) h s = Ok tt h s' ∧
    bctx h s' me ∧ bframe me s s' ∧
    k_disk s' = writes (logw c (start + Z.of_nat (length L1) + 1) L2) (k_disk s) ∧
    cfg s' (pins L) (cws (logw c (start + Z.of_nat (length L1) + 1) L2) c).
Proof.
  induction L2 as [|b L2 IH]; intros L1 L fuel s c -> Ll Hf C G La.
  - exists s. rewrite app_nil_r in *. split_and!; [|done|apply bframe_refl|done|done].
    destruct fuel; cbn [write_log_loop]; rewrite bind_gets, (la_n _ _ _ _ La), Z.ltb_irrefl; done.
  - destruct fuel as [|fuel]; [simpl in Hf; lia|].
    destruct Ll as [HN Hlen [Ha1 [Ha2 Ha3]] Hbl]. rewrite length_app in Hlen. simpl in Hlen.
    destruct (Hbl b) as [Hb1 Hb2]; [apply elem_of_app; right; by left|].
    set (lb := start + Z.of_nat (length L1) + 1).
    assert (lb ∉ L1 ++ b :: L2) as Hlb by (intros Hin; apply Hbl in Hin; unfold lb in Hin; lia).
    destruct (log_block_copied s (pins (L1 ++ b :: L2)) c lb b (L1 ++ b :: L2))
      as (s1 & E1 & C1 & F1 & D1 & G1); [done|done| | | |apply in_use_pins| |].
    { intros <-. apply Hlb. apply elem_of_app; right; by left. }
    { unfold pins. by rewrite decide_False. }
    { unfold pins. rewrite decide_True; [done|]. apply elem_of_app; right; by left. }
    { rewrite length_app. simpl. unfold HEAD. change NBUF with LOGSIZE. lia. }
    destruct (IH (L1 ++ [b]) (L1 ++ b :: L2) fuel s1 (<[lb := c b]> c)) as (s2 & E2 & C2 & F2 & D2 & G2);
      [by rewrite <- app_assoc|by split; [|rewrite length_app; simpl| |]|simpl in Hf; lia|done|done| |].
    { by eapply log_at_frame. }
    replace (Z.of_nat (length (L1 ++ [b]))) with (Z.of_nat (length L1) + 1) in * by (rewrite length_app; simpl; lia).
    replace (start + (Z.of_nat (length L1) + 1) + 1) with (lb + 1) in * by (unfold lb; lia).
    assert (logw (<[lb := c b]> c) (lb + 1) L2 = logw c (lb + 1) L2) as El.
    { apply logw_ext. intros b' Hb'. rewrite fn_lookup_insert_ne; [done|]. intros <-.
      apply Hlb. apply elem_of_app; right; by right. }
    rewrite El in *. exists s2. split_and!; [|done|by eapply bframe_trans|by rewrite D2, D1|done].
    cbn [write_log_loop]. rewrite bind_gets, (la_n _ _ _ _ La), (la_dev _ _ _ _ La), (la_start _ _ _ _ La).
    rewrite (proj2 (Z.ltb_lt (Z.of_nat (length L1)) _)) by (rewrite length_app; simpl; lia).
    rewrite (log_at_nth s start size L1 b L2) by done. fold lb. rewrite (u32_small lb) by (unfold lb; lia).
    by rewrite E1.
Qed.

(** The references left when [L2] remains to be installed. *)
Definition left_pins (recovering : bool) (L2 : list Z) : Z → Z :=
  pins (if recovering then [] else L2).

Lemma left_pins_cons recovering b L2 b' :
  b ∉ L2 → (<[b := 0]> (left_pins recovering (b :: L2))) b' = left_pins recovering L2 b'.
Proof.
  intros Hb. unfold insert, fn_insert, left_pins, pins. destruct recovering; repeat case_decide; set_solver.
Qed.

Lemma install_trans_run recovering start size L2 : ∀ L1 L fuel s c,
  L = L1 ++ L2 → log_list start size L → (length L2 ≤ fuel)%nat →
  bctx h s me → cfg s (left_pins recovering L2) c → log_at s start size L →
  ∃ s', install_trans_loop fuel recovering (Z.of_nat (length L1)) h s = Ok tt h s' ∧
    bctx h s' me ∧ bframe me s s' ∧
    k_disk s' = writes (instw c (start + Z.of_nat (length L1) + 1) L2) (k_disk s) ∧
    cfg s' (λ _, 0) (cws (instw c (start + Z.of_nat (length L1) + 1) L2) c).
Proof.
  induction L2 as [|b L2 IH]; intros L1 L fuel s c -> Ll Hf C G La.
  - exists s. rewrite app_nil_r in *. split_and!; [|done|apply bframe_refl|done|].
    + destruct fuel; cbn [install_trans_loop]; rewrite bind_gets, (la_n _ _ _ _ La), Z.ltb_irrefl; done.
    + eapply cfg_ext; [|done|exact G]. intros b. unfold left_pins, pins.
      destruct recovering; by rewrite decide_False by set_solver.
  - destruct fuel as [|fuel]; [simpl in Hf; lia|].
    destruct Ll as [HN Hlen [Ha1 [Ha2 Ha3]] Hbl]. rewrite length_app in Hlen. simpl in Hlen.
    destruct (Hbl b) as [Hb1 Hb2]; [apply elem_of_app; right; by left|].
    set (lb := start + Z.of_nat (length L1) + 1).
    assert (lb ∉ L1 ++ b :: L2) as Hlb by (intros Hin; apply Hbl in Hin; unfold lb in Hin; lia).
    assert (b ∉ L2) as HbL by (apply NoDup_app in HN as (_ & _ & [? _]%NoDup_cons); done).
    destruct (block_installed s (left_pins recovering (b :: L2)) c lb b recovering
      (if recovering then [] else b :: L2)) as (s1 & E1 & C1 & F1 & D1 & G1); [done|done|..].
    { intros <-. apply Hlb. apply elem_of_app; right; by left. }
    { unfold left_pins, pins. destruct recovering; rewrite decide_False; set_solver. }
    { unfold left_pins, pins. destruct recovering; [by rewrite decide_False by set_solver|].
      rewrite decide_True; [done|]. by left. }
    { unfold left_pins. apply in_use_pins. }
    { unfold HEAD. change NBUF with LOGSIZE. unfold LOGSIZE, MAXOPBLOCKS in *.
      destruct recovering; simpl; lia. }
    destruct (IH (L1 ++ [b]) (L1 ++ b :: L2) fuel s1 (<[b := c lb]> c)) as (s2 & E2 & C2 & F2 & D2 & G2);
      [by rewrite <- app_assoc|by split; [|rewrite length_app; simpl| |]|simpl in Hf; lia|done| | |].
    { eapply cfg_ext; [|done|exact G1]. intros b'. by apply left_pins_cons. }
    { by eapply log_at_frame. }
    replace (Z.of_nat (length (L1 ++ [b]))) with (Z.of_nat (length L1) + 1) in * by (rewrite length_app; simpl; lia).
    replace (start + (Z.of_nat (length L1) + 1) + 1) with (lb + 1) in * by (unfold lb; lia).
    assert (instw (<[b := c lb]> c) (lb + 1) L2 = instw c (lb + 1) L2) as El.
    { apply instw_ext. intros j Hj. rewrite fn_lookup_insert_ne; [done|]. unfold lb in Hj. lia. }
    rewrite El in *. exists s2. split_and!; [|done|by eapply bframe_trans|by rewrite D2, D1|done].
    cbn [install_trans_loop]. rewrite bind_gets, (la_n _ _ _ _ La), (la_dev _ _ _ _ La), (la_start _ _ _ _ La).
    rewrite (proj2 (Z.ltb_lt (Z.of_nat (length L1)) _)) by (rewrite length_app; simpl; lia).
    rewrite (log_at_nth s start size L1 b L2) by done. fold lb. rewrite (u32_small lb) by (unfold lb; lia).
    by rewrite E1.
Qed.

(** The header block with the list [bl] of [n] blocks. *)
Definition hdr (n : Z) (bl data : list Z) : list Z :=
  write_blocks (seq 0 (Z.to_nat n)) bl (put32 0 n data).

Lemma length_write_blocks ks bl data :
  Forall (λ k, 4 + 4 * Z.of_nat k + 4 ≤ Z.of_nat (length data)) ks →
  length (write_blocks ks bl data) = length data.
Proof.
  revert data. induction ks as [|k ks IH]; intros data Hk; [done|]. simpl.
  apply Forall_cons in Hk as [Hk1 Hk]. rewrite IH; rewrite length_put32 by lia; done.
Qed.

Lemma length_hdr n bl data :
  0 ≤ n ≤ LOGSIZE → length data = Z.to_nat BSIZE → length (hdr n bl data) = Z.to_nat BSIZE.
Proof.
  intros Hn Hd. unfold hdr. rewrite length_write_blocks; rewrite length_put32 by (rewrite ?Hd; unfold BSIZE; lia); [done|].
  apply Forall_forall. intros k Hk%elem_of_seq. rewrite Hd. unfold LOGSIZE, MAXOPBLOCKS, BSIZE in *. lia.
Qed.

Lemma write_head_run start size L R c s U :
  bctx h s me → cfg s R c → log_at s start size L → R start = 0 → 0 ≤ start < 2 ^ 32 →
  Z.of_nat (length L) ≤ LOGSIZE → (∀ b, R b ≠ 0 → b ∈ U) → (length U < HEAD)%nat →
  let v := hdr (Z.of_nat (length L)) (lh_block (l_lh (k_log s))) (c start) in
  ∃ s', write_head h s = Ok tt h s' ∧ bctx h s' me ∧ bframe me s s' ∧
    k_disk s' = writes [(start, v)] (k_disk s) ∧ cfg s' R (cws [(start, v)] c).
Proof.
  intros C G La Hst Hr HL HU Hlen v.
  assert (length (c start) = Z.to_nat BSIZE) as Hcl.
  { destruct (vat_clean h s me start C) as [_ E]; [by rewrite (G start)|].
    rewrite (G start) in E. simpl in E. rewrite E. apply (ci_disk _ _ (bc_inv _ _ _ C)). }
  destruct (block_rewritten s R c start (hdr (Z.of_nat (length L)) (lh_block (l_lh (k_log s)))) U)
    as (s' & s1 & i & E1 & E2 & C' & F1 & F' & D' & G'); [done..| |done|done|].
  { apply length_hdr; [lia|done]. }
  exists s'. split_and!; [|done..]. unfold write_head. rewrite bind_gets.
  rewrite (la_dev _ _ _ _ La), (la_start _ _ _ _ La), (la_n _ _ _ _ La), u32_small by lia.
  erewrite bind_Ok by exact E1. rewrite updbuf_twice. exact E2.
Qed.

(** The disk writes of a commit: the blocks to the log, the header, the blocks to
    their home locations, the empty header. *)
Definition commit_header (s : kernel) (L : list Z) (v : list Z) : list Z :=
  hdr (Z.of_nat (length L)) (lh_block (l_lh (k_log s))) v.
Definition commitw (s : kernel) (start : Z) (L : list Z) (c : Z → list Z) : list (Z * list Z) :=
  let h1 := commit_header s L (c start) in
  logw c (start + 1) L ++ [(start, h1)] ++ homew c L ++ [(start, commit_header s [] h1)].

Lemma updlog_clear s start size L :
  log_at s start size L →
  log_at (s <| k_log ::= λ l, l <| l_lh ::= λ lh, lh <| lh_n := 0 |> |> |>) start size [].
Proof. intros [H1 H2 H3 H4 H5 H6]. by split. Qed.

Lemma commit_run s start size L c :
  log_list start size L → L ≠ [] → bctx h s me → cfg s (pins L) c → log_at s start size L →
  ∃ s', commit h s = Ok tt h s' ∧ bctx h s' me ∧ lframe me s s' ∧
    k_disk s' = writes (commitw s start L c) (k_disk s) ∧
    cfg s' (λ _, 0) (cws (commitw s start L c) c) ∧ log_at s' start size [] ∧
    k_log s' = (k_log s) <| l_lh ::= λ lh, lh <| lh_n := 0 |> |>.
Proof.
  intros Ll HL C G La. pose proof Ll as [HN Hlen [Ha1 [Ha2 Ha3]] Hbl].
  assert (start ∉ L) as Hst by (intros Hin; apply Hbl in Hin; lia).
  assert ((length L ≤ Z.to_nat LOGSIZE)%nat ∧ (length L < HEAD)%nat) as [Hf1 Hf2]
    by (unfold HEAD; change NBUF with LOGSIZE; lia).
  set (h1 := commit_header s L (c start)).
  (* write_log *)
  destruct (write_log_run start size L [] L (Z.to_nat LOGSIZE) s c) as (s1 & E1 & C1 & F1 & D1 & G1); [done..|].
  change (Z.of_nat (length [])) with 0 in E1, D1, G1. replace (start + 0 + 1) with (start + 1) in * by lia.
  pose proof (log_at_frame _ _ _ _ _ _ F1 La) as La1.
  set (c1 := cws (logw c (start + 1) L) c) in *.
  assert (c1 start = c start) as Hc1 by (unfold c1; apply cws_notin; rewrite logw_fst; lia).
  (* write_head *)
  destruct (write_head_run start size L (pins L) c1 s1 L) as (s2 & E2 & C2 & F2 & D2 & G2);
    [done..|unfold pins; by rewrite decide_False|lia|lia|apply in_use_pins|done|].
  pose proof (log_at_frame _ _ _ _ _ _ F2 La1) as La2.
  rewrite Hc1, (bframe_log _ _ _ F1) in D2, G2. fold (commit_header s L (c start)) h1 in D2, G2.
  (* install_trans *)
  set (c2 := cws [(start, h1)] c1) in *.
  destruct (install_trans_run false start size L [] L (Z.to_nat LOGSIZE) s2 c2)
    as (s3 & E3 & C3 & F3 & D3 & G3); [done..|].
  change (Z.of_nat (length [])) with 0 in E3, D3, G3. replace (start + 0 + 1) with (start + 1) in * by lia.
  assert (instw c2 (start + 1) L = homew c L) as Ei.
  { apply instw_home. intros x v Hx. unfold c2. rewrite cws_notin.
    - apply cws_in; [apply logw_nodup|done].
    - simpl. intros ->%list_elem_of_singleton. apply (list_elem_of_fmap_2 fst), logw_fst in Hx. simpl in Hx. lia. }
  rewrite Ei in *. set (c3 := cws (homew c L) c2) in *.
  pose proof (log_at_frame _ _ _ _ _ _ F3 La2) as La3.
  (* log.lh.n = 0; write_head *)
  set (s4 := s3 <| k_log ::= λ l, l <| l_lh ::= λ lh, lh <| lh_n := 0 |> |> |>).
  assert (c3 start = h1) as Hc3.
  { unfold c3. rewrite cws_notin by (by rewrite homew_fst). unfold c2. simpl. by rewrite fn_lookup_insert. }
  destruct (write_head_run start size [] (λ _, 0) c3 s4 []) as (s5 & E5 & C5 & F5 & D5 & G5);
    [by apply bctx_log|by apply cfg_log|by eapply updlog_clear|done|lia|done|done|by vm_compute; lia|].
  assert (k_log s4 = (k_log s) <| l_lh ::= λ lh, lh <| lh_n := 0 |> |>) as Elog.
  { unfold s4. simpl. by rewrite (bframe_log _ _ _ F3), (bframe_log _ _ _ F2), (bframe_log _ _ _ F1). }
  rewrite Hc3, Elog in D5, G5. change (hdr _ _ h1) with (commit_header s [] h1) in D5, G5.
  exists s5. split_and!; [|done|..].
  - unfold commit. rewrite bind_gets. unfold log_n. rewrite (la_n _ _ _ _ La).
    rewrite (proj2 (Z.ltb_lt _ _)) by (destruct L; [done|simpl; lia]). cbn [when].
    erewrite bind_Ok by exact E1. erewrite bind_Ok by exact E2. erewrite bind_Ok by exact E3.
    unfold updlog. rewrite bind_modify. exact E5.
  - eapply lframe_trans; [|by apply bframe_lframe]. eapply lframe_trans; [|apply lframe_log].
    apply bframe_lframe. by eapply bframe_trans; [|exact F3]; eapply bframe_trans.
  - rewrite D5. change (k_disk s4) with (k_disk s3). rewrite D3, D2, D1. unfold commitw.
    fold h1. by rewrite !writes_app.
  - eapply cfg_ext; [done| |exact G5]. intros b. unfold commitw. fold h1. rewrite !cws_app. done.
  - eapply log_at_frame; [exact F5|]. by eapply updlog_clear.
  - by rewrite (bframe_log _ _ _ F5).
Qed.

(** The log has been located on disk, and the header lists [L]. *)
Record log_found (s : kernel) (start size : Z) (data L : list Z) : Prop := {
  lf_start : l_start (k_log s) = start;
  lf_size : l_size (k_log s) = size;
  lf_dev : l_dev (k_log s) = ROOTDEV;
  lf_len : length (lh_block (l_lh (k_log s))) = Z.to_nat LOGSIZE;
  lf_n : 0 ≤ i32 (get32 0 data);
  lf_list : hdr_list data = L;
}.

Lemma read_head_run s start size L c :
  log_list start size L → bctx h s me → cfg s (λ _, 0) c → log_found s start size (c start) L →
  ∃ s', read_head h s = Ok tt h s' ∧ bctx h s' me ∧ lframe me s s' ∧ k_disk s' = k_disk s ∧
    cfg s' (λ _, 0) c ∧ log_at s' start size L.
Proof.
  intros [HN Hlen [Ha1 [Ha2 Ha3]] Hbl] C G [F1 F2 F3 F4 F5 F6].
  set (n := i32 (get32 0 (c start))) in *.
  assert (length L = Z.to_nat n) as HnL by (rewrite <- F6; unfold hdr_list; by rewrite length_fmap, length_seq).
  destruct (bread_ok h s me C start) as (i & s1 & E1 & D1 & H1 & S1).
  { by rewrite (G start). } { rewrite (G start). simpl. lia. }
  { right. exists []. split; [intros b'; by rewrite (G b')|by vm_compute; lia]. }
  destruct (holds_lookup h s1 me i start (bs_ctx _ _ _ _ _ _ S1) H1) as (x & Hx & _ & _ & _ & Ev & _).
  assert (b_data x = c start) as Ex by (apply (f_equal st_data) in Ev; revert Ev; view).
  pose proof (bframe_log _ _ _ (bs_frame _ _ _ _ _ _ S1)) as El.
  set (f := λ l : log_t, (l <| l_lh ::= λ lh, lh <| lh_n := n |> |>)
     <| l_lh ::= λ lh, lh <| lh_block ::= read_blocks (seq 0 (Z.to_nat n)) (c start) |> |>).
  set (s2 := s1 <| k_log ::= f |>).
  assert (bctx h s2 me) as C2 by (apply bctx_log, S1).
  assert (holds s2 me i start) as H2 by (by destruct H1).
  assert (∀ b, vat s2 b = vat s1 b) as V2 by done.
  destruct (brelse_ok h s2 me i start C2 H2) as (s3 & E3 & D3 & S3).
  { intros _. rewrite V2. change (k_disk s2) with (k_disk s1). rewrite D1.
    destruct (vat_clean h s me start C) as [_ Hcl]; [by rewrite (G start)|].
    rewrite <- Hcl. view. }
  exists s3. split_and!.
  - unfold read_head. rewrite bind_gets, F3, F1, u32_small by lia. erewrite bind_Ok by exact E1.
    rewrite bind_getbuf, (getbuf_lookup _ _ _ Hx), Ex. unfold updlog. rewrite bind_modify, bind_gets.
    unfold log_n. simpl (lh_n _). fold n. rewrite (proj2 (Z.ltb_ge LOGSIZE n)) by lia.
    rewrite bind_modify. exact E3.
  - apply S3.
  - eapply lframe_trans; [apply bframe_lframe, S1|]. eapply lframe_trans; [apply lframe_log|].
    apply bframe_lframe, S3.
  - by rewrite D3.
  - intros b. rewrite (bs_vupd _ _ _ _ _ _ S3), !V2. view.
  - eapply log_at_frame; [apply S3|]. split; unfold s2, f; simpl; rewrite ?El; try done.
    + by rewrite HnL, Z2Nat.id.
    + by rewrite length_read_blocks.
    + intros k b Hk. rewrite lookup_read_blocks.
      * rewrite <- F6 in Hk. unfold hdr_list in Hk. fold n in Hk.
        apply list_lookup_fmap_Some in Hk as (k' & -> & [-> _]%lookup_seq). done.
      * apply lookup_lt_Some in Hk. apply elem_of_seq. lia.
      * apply lookup_lt_Some in Hk. rewrite F4. lia.
Qed.

(** The disk writes of a recovery. *)
Definition recoverw (start : Z) (c : Z → list Z) : list (Z * list Z) :=
  instw c (start + 1) (hdr_list (c start)) ++ [(start, hdr 0 [] (c start))].

Lemma recover_run s start size L c :
  log_list start size L → bctx h s me → cfg s (λ _, 0) c → log_found s start size (c start) L →
  ∃ s', recover_from_log h s = Ok tt h s' ∧ bctx h s' me ∧ lframe me s s' ∧
    k_disk s' = writes (recoverw start c) (k_disk s) ∧
    cfg s' (λ _, 0) (cws (recoverw start c) c) ∧ log_at s' start size [].
Proof.
  intros Ll C G Lf. pose proof Ll as [HN Hlen [Ha1 [Ha2 Ha3]] Hbl].
  assert (start ∉ L) as Hst by (intros Hin; apply Hbl in Hin; lia).
  destruct (read_head_run s start size L c) as (s1 & E1 & C1 & F1 & D1 & G1 & La1); [done..|].
  destruct (install_trans_run true start size L [] L (Z.to_nat LOGSIZE) s1 c)
    as (s2 & E2 & C2 & F2 & D2 & G2); [done|done|lia|done| |done|].
  { eapply cfg_ext; [|done|exact G1]. intros b. unfold left_pins, pins. by rewrite decide_False by set_solver. }
  change (Z.of_nat (length [])) with 0 in E2, D2, G2. replace (start + 0 + 1) with (start + 1) in * by lia.
  set (c2 := cws (instw c (start + 1) L) c) in *.
  pose proof (log_at_frame _ _ _ _ _ _ F2 La1) as La2.
  set (s3 := s2 <| k_log ::= λ l, l <| l_lh ::= λ lh, lh <| lh_n := 0 |> |> |>).
  assert (c2 start = c start) as Hc2 by (unfold c2; apply cws_notin; by rewrite instw_fst).
  destruct (write_head_run start size [] (λ _, 0) c2 s3 []) as (s4 & E4 & C4 & F4 & D4 & G4);
    [by apply bctx_log|by apply cfg_log|by eapply updlog_clear|done|lia|done|done|by vm_compute; lia|].
  rewrite Hc2 in D4, G4. exists s4. split_and!; [|done|..].
  - unfold recover_from_log. erewrite bind_Ok by exact E1. erewrite bind_Ok by exact E2.
    unfold updlog. rewrite bind_modify. exact E4.
  - eapply lframe_trans; [exact F1|]. eapply lframe_trans; [apply bframe_lframe, F2|].
    eapply lframe_trans; [apply lframe_log|]. apply bframe_lframe, F4.
  - rewrite D4. change (k_disk s3) with (k_disk s2). rewrite D2, D1. unfold recoverw.
    rewrite (lf_list _ _ _ _ _ Lf), writes_app. done.
  - unfold recoverw. rewrite (lf_list _ _ _ _ _ Lf), cws_app. exact G4.
  - eapply log_at_frame; [exact F4|]. by eapply updlog_clear.
Qed.
End LogSpec.
