(* ===== verification/Sample.v ===== *)
(** * Concrete kernels

    Executable checks of the invariants of BioSpec.v, and the kernel whose static
    variables are zero.  They give the concrete states at which the theorems on
    the buffer cache, the log and the file system are applied. *)

From S2P Require Import Prelude CString Riscv Kalloc Kernel Sched Sleeplock Bytes Bio BioList BioSpec.

(** ** Checking the cache *)

(** The buffers met by following [next] [n] times. *)
Fixpoint walk_next (n : nat) (bs : list buf) (i : nat) : list nat :=
  match n with
  | O => []
  | S n => let j := nxf bs i in j :: walk_next n bs j
  end.

Fixpoint segb (bs : list buf) (x : nat) (o : list nat) (y : nat) : bool :=
  match o with
  | [] => (nxf bs x =? y)%nat && (pvf bs y =? x)%nat
  | z :: o => (nxf bs x =? z)%nat && (pvf bs z =? x)%nat && segb bs z o y
  end.

Lemma segb_sound bs x o y : segb bs x o y = true → seg (nxf bs) (pvf bs) x o y.
Proof.
  revert x. induction o as [|z o IH]; intros x; simpl.
  - intros [?%Nat.eqb_eq ?%Nat.eqb_eq]%andb_prop. done.
  - intros [[?%Nat.eqb_eq ?%Nat.eqb_eq]%andb_prop ?%IH]%andb_prop. done.
Qed.

Definition buf_check (d : disk_t) (x : buf) : bool :=
  (0 <=? b_refcnt x) && (b_refcnt x <? 2 ^ 32) &&
  (negb (sl_locked (b_lock x)) || (0 <? b_refcnt x)) &&
  ((b_dev x =? ROOTDEV) || (b_refcnt x =? 0)) &&
  (negb (b_refcnt x =? 0) || negb (b_dev x =? ROOTDEV) || negb (b_valid x) ||
     bool_decide (b_data x = d_read d (b_blockno x))) &&
  (negb (b_valid x) || (length (b_data x) =? Z.to_nat BSIZE)%nat).

Lemma buf_check_sound d x : buf_check d x = true → buf_ok d x.
Proof.
  unfold buf_check. rewrite !andb_true_iff. intros (((((H1 & H2) & H3) & H4) & H5) & H6).
  split.
  - lia.
  - intros E. rewrite E in H3. simpl in H3. lia.
  - intros E. apply orb_true_iff in H4 as [H4|H4]; lia.
  - intros E1 E2 E3. rewrite E1, E2, E3 in H5. simpl in H5. by apply bool_decide_eq_true in H5.
  - intros E. rewrite E in H6. simpl in H6. by apply Nat.eqb_eq in H6.
Qed.

(** The blocks of the root device in the buffers. *)
Definition cached_blocks (bs : list buf) : list Z :=
  b_blockno <$> filter (λ x, b_dev x = ROOTDEV) (take HEAD bs).

Definition bufs_check (bs : list buf) (d : disk_t) : bool :=
  let o := walk_next HEAD bs HEAD in
  (length bs =? S HEAD)%nat && segb bs HEAD o HEAD && bool_decide (o ≡ₚ seq 0 HEAD) &&
  bool_decide (NoDup (cached_blocks bs)) && forallb (buf_check d) (take HEAD bs).

Definition disk_check (d : disk_t) : bool :=
  forallb (λ v, length v =? Z.to_nat BSIZE)%nat (map_to_list (d_blocks d)).*2.

Lemma disk_check_sound d :
  disk_check d = true →
  ∀ b, length (d_read d b) = Z.to_nat BSIZE.
Proof.
  unfold disk_check. rewrite forallb_forall. intros H b. unfold d_read. destruct (d_blocks d !! b) as [v|] eqn:E.
  - change (length v = Z.to_nat BSIZE). apply Nat.eqb_eq, H, list_elem_of_In, list_elem_of_fmap. exists (b, v). split; [done|].
    by apply elem_of_map_to_list.
  - apply length_replicate.
Qed.

Lemma uniq_check_sound bs : NoDup (cached_blocks bs) → uniq bs.
Proof.
  unfold cached_blocks, uniq. intros HN i j x y b Hi Hj Hx Hy Hbx Hby.
  rewrite <- (lookup_take_lt bs HEAD) in Hx, Hy by done. revert i j Hi Hj Hx Hy HN.
  induction (take HEAD bs) as [|z l IH]; intros i j Hi Hj Hx Hy HN; [done|].
  assert (∀ k w, l !! k = Some w → is_blk b w → is_blk b z →
    ¬ NoDup (b_blockno <$> filter (λ x, b_dev x = ROOTDEV) (z :: l))) as Hdup.
  { intros k w Hk [Hw1 Hw2] [Hz1 Hz2]. rewrite filter_cons_True by done. simpl.
    intros [Hn _]%NoDup_cons. apply Hn. rewrite Hz2, <- Hw2. apply list_elem_of_fmap. exists w.
    split; [done|]. apply list_elem_of_filter. split; [done|]. by eapply list_elem_of_lookup_2. }
  destruct i as [|i], j as [|j]; simpl in *; [done|..].
  - injection Hx as ->. by destruct (Hdup j y).
  - injection Hy as ->. by destruct (Hdup i x).
  - f_equal. apply (IH i j); try lia; try done. rewrite filter_cons in HN. case_decide; [|done].
    simpl in HN. by apply NoDup_cons in HN as [_ ?].
Qed.

Lemma bufs_check_sound bs d :
  bufs_check bs d = true → (∀ b, length (d_read d b) = Z.to_nat BSIZE) →
  cache_inv bs d ∧ ring bs (walk_next HEAD bs HEAD).
Proof.
  unfold bufs_check. rewrite !andb_true_iff. intros ((((H1 & H2) & H3) & H4) & H5) Hd.
  apply bool_decide_eq_true in H3, H4.
  assert (ring bs (walk_next HEAD bs HEAD)) as Hr
    by (split; [by apply Nat.eqb_eq|by apply segb_sound|done]).
  split; [|done]. split; [by eexists|by apply uniq_check_sound| |done].
  intros i x Hi Hx. rewrite forallb_forall in H5. apply buf_check_sound, H5, list_elem_of_In.
  apply (list_elem_of_lookup_2 _ i). by rewrite lookup_take_lt.
Qed.

(** ** The zeroed kernel *)

Definition zero_buf : buf := Buf false 0 0 (Sleeplock false 0) 0 0 0 zero_block false.
Definition zero_bcache : list buf := replicate (S HEAD) zero_buf.
Definition zero_log : log_t := Log 0 0 0 false 0 (Logheader 0 (replicate (Z.to_nat LOGSIZE) 0)).
Definition zero_sb : superblock := Superblock 0 0 0 0 0 0 0 0.
Definition zero_inode : inode := Inode 0 0 0 (Sleeplock false 0) false 0 0 0 0 0 (replicate 13 0).
Definition zero_file : file := File FD_NONE 0 false false 0 0 0 0.
Definition zero_proc : proc :=
  Proc UNUSED None false 0 0 None 0 0 0 0 (Context In_sched 0) (replicate (Z.to_nat NOFILE) None) None
    (replicate 16 0).

Definition zero_vdisk : vdisk :=
  Vdisk (replicate 8 (Desc Dma_null 0 0 0)) 0 (replicate 8 0) 0 (replicate 8 0) (replicate 8 false) 0
    (replicate 8 None) (replicate 8 0) (replicate 8 (Blkreq 0 0 0)) 0 [] ∅.

Definition zero_kernel (m : machine) (d : disk_t) : kernel :=
  Kernel m ∅ (replicate (Z.to_nat NPROC) zero_proc) None 1 None 0 d zero_bcache zero_log zero_sb
    (replicate (Z.to_nat NINODE) zero_inode) (replicate (Z.to_nat NFILE) zero_file) ∅
    (Cons (replicate 128 0) 0 0 0) (Uart (replicate 32 0) 0 0 false [] [] 0 0 0 0 0)
    true (replicate (Z.to_nat NDEV) Dev_none) true 0 zero_vdisk (Csrs 0 0 0 0 0 0 0 0) (Plic ∅ [] []).

(** A kernel that runs process 0, with pid 1, on a given disk; [binit] has run. *)
Definition kfinal {A} (s : kernel) (o : outcome kernel A) : kernel :=
  match o with Ok _ _ s' => s' | _ => s end.

Definition running (m : machine) (d : disk_t) : kernel :=
  let s := (zero_kernel m d) <| k_cur := Some 0%nat |>
     <| k_procs ::= alter (λ p, p <| p_state := RUNNING |> <| p_pid := 1 |>) 0%nat |> in
  kfinal s (binit [] s).

Lemma bctx_check s me :
  k_cur s = Some me → length (k_procs s) = Z.to_nat NPROC → (me < Z.to_nat NPROC)%nat →
  bufs_check (k_bcache s) (k_disk s) = true → disk_check (k_disk s) = true → bctx [] s me.
Proof.
  intros Hc Hp Hm Hk Hd. split; [split; try done| | |]; intros; try apply not_elem_of_nil.
  apply bufs_check_sound; [done|by apply disk_check_sound].
Qed.
