(* ===== verification/LogCrash.v ===== *)
(** * Crash safety of the log (kernel/log.c)

    A crash loses the memory of the machine and keeps some prefix of the writes
    that were sent to the disk.  [commitw] and [recoverw] (LogSpec.v) are the
    writes of a commit and of a recovery; this file shows what a recovery makes
    of the disk after every prefix of them. *)

From stdpp Require Import functions.
From Stdlib Require Import FunctionalExtensionality.
From S2P Require Import Prelude CString Riscv Kalloc Kernel Sched Sleeplock Bytes Bio BioList BioSpec Log LogSpec Sample.

(** ** Prefixes of writes *)

Lemma prefix_app_cases {A} (p a b : list A) :
  p `prefix_of` a ++ b → p `prefix_of` a ∨ ∃ q, p = a ++ q ∧ q `prefix_of` b.
Proof.
  revert p. induction a as [|x a IH]; intros p Hp; simpl in *; [right; by exists p|].
  destruct p as [|y p]; [left; apply prefix_nil|].
  apply prefix_cons_inv_1 in Hp as Hxy. subst y. apply prefix_cons_inv_2 in Hp.
  destruct (IH p Hp) as [Hl|(q & -> & Hq)]; [left; by apply prefix_cons|right; by exists q].
Qed.

Lemma cws_prefix_notin p ws c b : p `prefix_of` ws → b ∉ ws.*1 → cws p c b = c b.
Proof.
  intros [q ->] Hb. apply cws_notin. rewrite fmap_app in Hb. set_solver.
Qed.

(** A later full set of writes hides an earlier partial one. *)
Lemma cws_over p ws c b :
  NoDup ws.*1 → p `prefix_of` ws → cws ws (cws p c) b = cws ws c b.
Proof.
  intros HN Hp. destruct (decide (b ∈ ws.*1)) as [Hb|Hb].
  - apply list_elem_of_fmap in Hb as ([b' v] & -> & Hin). by rewrite !(cws_in ws _ b' v).
  - rewrite !(cws_notin ws) by done. by apply (cws_prefix_notin p ws).
Qed.

(** ** The header *)

Lemma get32_write_blocks ks bl data off :
  0 ≤ off → Forall (λ k, 4 + 4 * Z.of_nat k + 4 ≤ Z.of_nat (length data)) ks →
  Forall (λ k, off + 4 ≤ 4 + 4 * Z.of_nat k ∨ 4 + 4 * Z.of_nat k + 4 ≤ off) ks →
  get32 off (write_blocks ks bl data) = get32 off data.
Proof.
  revert data. induction ks as [|k ks IH]; intros data Ho H1 H2; [done|].
  apply Forall_cons in H1 as [H1 H1'], H2 as [H2 H2']. simpl.
  rewrite IH; [|done|rewrite length_put32 by lia; done|done]. apply get32_put32_ne; lia.
Qed.

Lemma get32_write_blocks_in ks bl data k :
  NoDup ks → k ∈ ks → Forall (λ k, 4 + 4 * Z.of_nat k + 4 ≤ Z.of_nat (length data)) ks →
  get32 (4 + 4 * Z.of_nat k) (write_blocks ks bl data) = u32 (nthZ bl (Z.of_nat k)).
Proof.
  revert data. induction ks as [|j ks IH]; intros data HN Hk H1; [by apply not_elem_of_nil in Hk|].
  apply Forall_cons in H1 as [H1 H1']. apply NoDup_cons in HN as [Hj HN]. simpl.
  apply elem_of_cons in Hk as [->|Hk].
  - rewrite get32_write_blocks.
    + apply get32_put32; lia.
    + lia.
    + by rewrite length_put32 by lia.
    + apply Forall_forall. intros i Hi. assert (i ≠ j) by (intros ->; done). lia.
  - apply IH; [done|done|]. by rewrite length_put32 by lia.
Qed.

(** Reading back a header that was written. *)
Lemma hdr_roundtrip bl data L :
  length data = Z.to_nat BSIZE → Z.of_nat (length L) ≤ LOGSIZE →
  (∀ k b, L !! k = Some b → bl !! k = Some b ∧ 0 ≤ b < 2 ^ 31) →
  i32 (get32 0 (hdr (Z.of_nat (length L)) bl data)) = Z.of_nat (length L) ∧
  hdr_list (hdr (Z.of_nat (length L)) bl data) = L.
Proof.
  intros Hd HL Hbl. set (n := Z.of_nat (length L)) in *.
  assert (length (put32 0 n data) = Z.to_nat BSIZE) as Hp by (rewrite length_put32; rewrite ?Hd; unfold BSIZE; lia).
  assert (Forall (λ k, 4 + 4 * Z.of_nat k + 4 ≤ Z.of_nat (length (put32 0 n data))) (seq 0 (Z.to_nat n))) as Hk.
  { apply Forall_forall. intros k Hk%elem_of_seq. rewrite Hp. unfold LOGSIZE, MAXOPBLOCKS, BSIZE in *. lia. }
  assert (i32 (get32 0 (hdr n bl data)) = n) as Hn.
  { unfold hdr. rewrite get32_write_blocks; [|lia|done|apply Forall_forall; intros; lia].
    rewrite get32_put32 by (rewrite ?Hd; unfold BSIZE; lia). apply i32_u32.
    unfold LOGSIZE, MAXOPBLOCKS in *. lia. }
  split; [done|]. unfold hdr_list. rewrite Hn. apply list_eq. intros k. rewrite list_lookup_fmap.
  destruct (decide (k < length L)%nat) as [Hlt|Hge].
  - rewrite lookup_seq_lt by lia. simpl. destruct (lookup_lt_is_Some_2 L k Hlt) as [b Hb]. rewrite Hb.
    destruct (Hbl k b Hb) as [Hb2 Hr]. f_equal. unfold hdr.
    rewrite get32_write_blocks_in; [|apply NoDup_seq|apply elem_of_seq; lia|done].
    rewrite (nthZ_lookup _ _ b) by (by rewrite Nat2Z.id). apply i32_u32. lia.
  - rewrite lookup_seq_ge, lookup_ge_None_2 by lia. done.
Qed.

Lemma hdr_empty bl data :
  length data = Z.to_nat BSIZE → i32 (get32 0 (hdr 0 bl data)) = 0 ∧ hdr_list (hdr 0 bl data) = [].
Proof. intros Hd. by apply (hdr_roundtrip bl data []). Qed.

(** ** What recovery makes of a disk *)

Definition outside (start size b : Z) : Prop := b < start ∨ start + size ≤ b.

(** The contents of the disk after recovery. *)
Definition recovered (start : Z) (c : Z → list Z) : Z → list Z := cws (recoverw start c) c.

Lemma recovered_eq start c b :
  b ≠ start → recovered start c b = cws (instw c (start + 1) (hdr_list (c start))) c b.
Proof.
  intros Hb. unfold recovered, recoverw. rewrite cws_app. apply cws_notin. simpl. set_solver.
Qed.

Lemma recovered_empty start c b : b ≠ start → hdr_list (c start) = [] → recovered start c b = c b.
Proof. intros Hb E. by rewrite recovered_eq, E by done. Qed.

(** The crash states of a recovery recover to the same contents. *)
Lemma recovery_prefix start size L c p b :
  log_list start size L → hdr_list (c start) = L → length (c start) = Z.to_nat BSIZE →
  p `prefix_of` recoverw start c → b ≠ start →
  recovered start (cws p c) b = recovered start c b.
Proof.
  intros [HN Hlen [Ha1 [Ha2 Ha3]] Hbl] HL Hd Hp Hb.
  assert (start ∉ L) as Hst by (intros Hin; apply Hbl in Hin; lia).
  unfold recoverw in Hp. rewrite HL in Hp.
  assert (∀ q a, q `prefix_of` instw c (start + 1) L → start ≤ a < start + size → cws q c a = c a) as Hlog.
  { intros q a Hq Ha. eapply cws_prefix_notin; [exact Hq|]. rewrite instw_fst. intros Hin.
    apply Hbl in Hin. lia. }
  rewrite (recovered_eq start c b), HL by done.
  apply prefix_app_cases in Hp as [Hp|(q & -> & Hq)].
  - rewrite recovered_eq by done. rewrite (Hlog p start), HL by (done || lia).
    rewrite (instw_ext (cws p c) c) by (intros j Hj; apply Hlog; [done|lia]).
    apply cws_over; [by rewrite instw_fst|done].
  - destruct q as [|w q].
    + rewrite app_nil_r, recovered_eq by done. rewrite (Hlog _ start), HL by (done || lia).
      rewrite (instw_ext (cws _ c) c) by (intros j Hj; apply Hlog; [done|lia]).
      apply cws_over; [by rewrite instw_fst|done].
    + apply prefix_cons_inv_1 in Hq as Hw. apply prefix_cons_inv_2 in Hq.
      apply prefix_nil_inv in Hq. subst w q. rewrite cws_app.
      rewrite recovered_empty; [|done|].
      * apply cws_notin. simpl. set_solver.
      * simpl. rewrite fn_lookup_insert. by apply hdr_empty.
Qed.

Lemma prefix_cons_cases {A} (p : list A) x b :
  p `prefix_of` x :: b → p = [] ∨ ∃ q, p = x :: q ∧ q `prefix_of` b.
Proof.
  intros Hp. destruct p as [|y p]; [by left|]. right. apply prefix_cons_inv_1 in Hp as Hy. subst y.
  exists p. split; [done|]. by eapply prefix_cons_inv_2.
Qed.

Section CommitPrefix.
Context (s : kernel) (start size : Z) (L : list Z) (c c0 : Z → list Z).
Context (Ll : log_list start size L) (La : log_at s start size L) (HL : L ≠ []).
(** Blocks that are not logged are as on disk; the log on disk is empty. *)
Context (Hcl : ∀ b, b ∉ L → c b = c0 b) (Hempty : hdr_list (c0 start) = []).
Context (Hd : length (c0 start) = Z.to_nat BSIZE).

Local Abbreviation h1 := (commit_header s L (c start)).
Local Abbreviation W1 := (logw c (start + 1) L).

Lemma area_pos : 0 < size ∧ start ∉ L.
Proof.
  destruct Ll as [_ Hlen _ Hbl]. split; [destruct L; [done|simpl in Hlen; lia]|].
  intros Hin%Hbl. destruct L; [done|]. simpl in Hlen. lia.
Qed.

Lemma W1_area a : a ∈ W1.*1 → start < a < start + size.
Proof. intros Ha%logw_fst. pose proof (ll_len _ _ _ Ll). lia. Qed.

Lemma h1_list : i32 (get32 0 h1) = Z.of_nat (length L) ∧ hdr_list h1 = L.
Proof.
  destruct area_pos as [_ Hst]. apply hdr_roundtrip; [by rewrite Hcl| |].
  - pose proof (ll_len _ _ _ Ll). pose proof (ll_area _ _ _ Ll). lia.
  - intros k b Hk. split; [by apply (la_blocks _ _ _ _ La)|].
    apply (ll_blocks _ _ _ Ll). by eapply list_elem_of_lookup_2.
Qed.

(** After the header, and before it is erased. *)
Lemma installing_prefix q b :
  q `prefix_of` homew c L → outside start size b →
  recovered start (cws (W1 ++ (start, h1) :: q) c0) b = c b.
Proof.
  intros Hq Hb. destruct area_pos as [Hsz Hst]. destruct Ll as [HN Hlen _ Hbl].
  assert (∀ a, a ∈ q.*1 → a ∈ L) as HqL.
  { intros a Ha. destruct Hq as [r Hr]. rewrite <- (homew_fst c L), Hr, fmap_app. set_solver. }
  set (c1 := cws (W1 ++ (start, h1) :: q) c0).
  assert (c1 start = h1) as Hc1.
  { unfold c1. rewrite cws_app. simpl. rewrite cws_notin by (intros Hin%HqL; done).
    by rewrite fn_lookup_insert. }
  rewrite recovered_eq by (unfold outside in Hb; lia). rewrite Hc1, (proj2 h1_list).
  rewrite (instw_home c).
  - destruct (decide (b ∈ L)) as [HbL|HbL].
    + apply cws_in; [by rewrite homew_fst|]. unfold homew. apply list_elem_of_fmap. by exists b.
    + rewrite cws_notin by (by rewrite homew_fst). unfold c1. rewrite (Hcl b) by done. apply cws_notin.
      rewrite fmap_app, elem_of_app. simpl. rewrite elem_of_cons.
      unfold outside in Hb. intros [Hin%W1_area|[->|Hin%HqL]]; [lia|lia|done].
  - intros x v Hx. assert (x ∈ W1.*1) as Hx1 by (apply list_elem_of_fmap; by exists (x, v)).
    apply W1_area in Hx1. unfold c1. rewrite cws_app. simpl. rewrite cws_notin.
    + rewrite fn_lookup_insert_ne by lia. apply cws_in; [apply logw_nodup|done].
    + intros Hin%HqL%Hbl. lia.
Qed.

(** The crash states of a commit recover to the old contents before the header
    is written and to the new contents from then on. *)
Lemma commit_prefix p b :
  p `prefix_of` commitw s start L c → outside start size b →
  recovered start (cws p c0) b = if bool_decide (start ∈ p.*1) then c b else c0 b.
Proof.
  intros Hp Hb. destruct area_pos as [Hsz Hst].
  assert (b ≠ start) as Hbs by (unfold outside in Hb; lia).
  assert (p `prefix_of` W1 ∨ ∃ q, p = W1 ++ (start, h1) :: q ∧
    q `prefix_of` homew c L ++ [(start, commit_header s [] h1)]) as [Hq|(q & -> & Hq)].
  { apply prefix_app_cases in Hp as [Hp|(q & -> & Hq)]; [by left|].
    apply prefix_cons_cases in Hq as [->|(q' & -> & Hq)]; [left; by rewrite app_nil_r|right; by exists q']. }
  - assert (∀ a, a ∈ p.*1 → start < a < start + size) as Hpa.
    { destruct Hq as [r Hr]. intros a Ha. apply W1_area. rewrite Hr, fmap_app. set_solver. }
    rewrite bool_decide_false by (intros Hin%Hpa; lia).
    rewrite recovered_empty; [|done|]; rewrite cws_notin; try done; intros Hin%Hpa; [|lia].
    unfold outside in Hb. lia.
  - rewrite bool_decide_true by (rewrite fmap_app; set_solver).
    apply prefix_app_cases in Hq as [Hq|(q' & -> & Hq)]; [by apply installing_prefix|].
    apply prefix_cons_cases in Hq as [->|(q2 & -> & ->%prefix_nil_inv)];
      [rewrite app_nil_r; by apply installing_prefix|].
    rewrite recovered_empty; [|done|].
    + rewrite app_comm_cons, app_assoc, cws_app. simpl. rewrite fn_lookup_insert_ne by done.
      rewrite cws_app. simpl. destruct (decide (b ∈ L)) as [HbL|HbL].
      * apply cws_in; [rewrite homew_fst; apply Ll|]. unfold homew. apply list_elem_of_fmap. by exists b.
      * rewrite cws_notin by (by rewrite homew_fst). rewrite fn_lookup_insert_ne by done.
        rewrite (Hcl b) by done. apply cws_notin. intros Hin%W1_area. unfold outside in Hb. lia.
    + rewrite app_comm_cons, app_assoc, cws_app. simpl. rewrite fn_lookup_insert.
      apply hdr_empty. apply length_hdr; [|by rewrite Hcl].
      pose proof (ll_len _ _ _ Ll). pose proof (ll_area _ _ _ Ll). lia.
Qed.

(** The header found after a crash lists a set of blocks that can be installed. *)
Lemma commit_prefix_header p :
  p `prefix_of` commitw s start L c → i32 (get32 0 (c0 start)) = 0 →
  0 ≤ i32 (get32 0 (cws p c0 start)) ∧ log_list start size (hdr_list (cws p c0 start)).
Proof.
  intros Hp H0. destruct area_pos as [Hsz Hst].
  assert (log_list start size []) as Hnil.
  { split; [constructor|simpl; lia|apply Ll|]. intros b Hb. by apply not_elem_of_nil in Hb. }
  assert (∀ q, q `prefix_of` homew c L → start ∉ q.*1) as HqL.
  { intros q [r Hr] Hin. apply Hst. rewrite <- (homew_fst c L), Hr, fmap_app. set_solver. }
  assert (∀ q, q `prefix_of` homew c L → cws (W1 ++ (start, h1) :: q) c0 start = h1) as Hq1.
  { intros q Hq. rewrite cws_app. simpl. rewrite cws_notin by (by apply HqL). by rewrite fn_lookup_insert. }
  assert (0 ≤ i32 (get32 0 h1) ∧ log_list start size (hdr_list h1)) as Hh1.
  { destruct h1_list as [-> ->]. split; [lia|done]. }
  apply prefix_app_cases in Hp as [[r Hr]|(q & -> & Hq)].
  { rewrite cws_notin; [by rewrite H0, Hempty|]. intros Hin.
    assert (start ∈ W1.*1) as Hin' by (rewrite Hr, fmap_app; set_solver). apply W1_area in Hin'. lia. }
  apply prefix_cons_cases in Hq as [->|(q' & -> & Hq)].
  { rewrite app_nil_r, cws_notin; [by rewrite H0, Hempty|]. intros Hin%W1_area. lia. }
  apply prefix_app_cases in Hq as [Hq|(q2 & -> & Hq)]; [by rewrite Hq1|].
  apply prefix_cons_cases in Hq as [->|(q3 & -> & ->%prefix_nil_inv)];
    [rewrite app_nil_r; by rewrite Hq1|].
  rewrite app_comm_cons, app_assoc, cws_app. simpl. rewrite fn_lookup_insert.
  destruct (hdr_empty (lh_block (l_lh (k_log s))) h1) as [E1 E2].
  { apply length_hdr; [|by rewrite Hcl]. pose proof (ll_len _ _ _ Ll). pose proof (ll_area _ _ _ Ll). lia. }
  change (commit_header s [] h1) with (hdr 0 (lh_block (l_lh (k_log s))) h1). by rewrite E1, E2.
Qed.
End CommitPrefix.

(** ** Recovery at boot *)

(** A thread after a reboot: no block is in use, and the log has not been read. *)
Record cold (h : list lockid) (s : kernel) (me : nat) : Prop := {
  co_ctx : bctx h s me;
  co_refs : ∀ b, st_refs (vat s b) = 0;
  co_log : length (lh_block (l_lh (k_log s))) = Z.to_nat LOGSIZE;
  co_lock : L_log ∉ h;
}.

Lemma cold_cfg h s me : cold h s me → cfg s (λ _, 0) (d_read (k_disk s)).
Proof.
  intros [C Hr _ _] b. destruct (vat_clean h s me b C (Hr b)) as [Hl Hd].
  rewrite <- Hd, <- Hl. rewrite <- (Hr b) at 1. by destruct (vat s b).
Qed.

Lemma initlog_run `{Patience} h s me sb start size :
  cold h s me → sb_logstart sb = start → sb_nlog sb = size →
  let c := d_read (k_disk s) in
  0 ≤ i32 (get32 0 (c start)) → log_list start size (hdr_list (c start)) → 0 ≤ size →
  ∃ s', initlog ROOTDEV sb h s = Ok tt h s' ∧ bctx h s' me ∧ lframe me s s' ∧
    k_disk s' = writes (recoverw start c) (k_disk s) ∧
    cfg s' (λ _, 0) (recovered start c) ∧ log_at s' start size [].
Proof.
  intros Hc Est Esz c H0 Ll Hsz. pose proof (cold_cfg _ _ _ Hc) as G. destruct Hc as [C Hr Hlen Hlk].
  pose proof (ll_area _ _ _ Ll) as (Ha1 & Ha2 & Ha3).
  set (f := λ l : log_t, l <| l_start := i32 (sb_logstart sb) |> <| l_size := i32 (sb_nlog sb) |> <| l_dev := ROOTDEV |>).
  destruct (recover_run h me (s <| k_log ::= f |>) start size (hdr_list (c start)) c)
    as (s' & E & C' & F' & D' & G' & La'); [done|by apply bctx_log|by apply cfg_log| |].
  { split; simpl; rewrite ?Est, ?Esz, ?i32_small by lia; done. }
  exists s'. split_and!; [|done| |done..].
  - unfold initlog. change (BSIZE <=? sizeof_logheader) with false. cbv iota.
    erewrite bind_Ok by (by apply initlock_free). unfold updlog. rewrite !bind_modify. exact E.
  - eapply lframe_trans; [apply lframe_log|exact F'].
Qed.

Lemma recovery_prefix_header start size L c p :
  log_list start size L → hdr_list (c start) = L → 0 ≤ i32 (get32 0 (c start)) → 0 < size →
  length (c start) = Z.to_nat BSIZE → p `prefix_of` recoverw start c →
  0 ≤ i32 (get32 0 (cws p c start)) ∧ log_list start size (hdr_list (cws p c start)).
Proof.
  intros Ll HL H0 Hsz Hd Hp. destruct Ll as [HN Hlen Ha Hbl].
  assert (start ∉ L) as Hst by (intros Hin%Hbl; lia).
  assert (∀ q, q `prefix_of` instw c (start + 1) L → cws q c start = c start) as Hq.
  { intros q Hq. eapply cws_prefix_notin; [exact Hq|]. by rewrite instw_fst. }
  unfold recoverw in Hp. rewrite HL in Hp. apply prefix_app_cases in Hp as [Hp|(q & -> & Hp)].
  - rewrite Hq, HL by done. done.
  - apply prefix_cons_cases in Hp as [->|(q' & -> & ->%prefix_nil_inv)].
    + rewrite app_nil_r, Hq, HL by done. done.
    + rewrite cws_app. simpl. rewrite fn_lookup_insert.
      destruct (hdr_empty [] (c start) Hd) as [-> ->]. split; [done|].
      split; [constructor|simpl; lia|done|]. intros b Hb. by apply not_elem_of_nil in Hb.
Qed.

Lemma d_read_writes_fun ws d : d_read (writes ws d) = cws ws (d_read d).
Proof. extensionality b. apply d_read_writes. Qed.

(** ** A sample transaction *)

(** The references in use are checked on the buffers. *)
Definition pins_check (bs : list buf) (L : list Z) : bool :=
  forallb (λ x, negb (sl_locked (b_lock x)) &&
                (negb (b_dev x =? ROOTDEV) || (b_refcnt x =? pins L (b_blockno x)))) (take HEAD bs) &&
  forallb (λ b, bool_decide (b ∈ cached_blocks bs)) L.

Lemma pins_check_sound s L :
  pins_check (k_bcache s) L = true → cfg s (pins L) (λ b, st_data (vat s b)).
Proof.
  unfold pins_check. rewrite andb_true_iff, !forallb_forall. intros [Hb HL] b.
  destruct (bsel (k_bcache s) b) as [[i x]|] eqn:Hs.
  - rewrite (vat_bsel _ _ _ _ Hs). apply bsel_inv in Hs as (Hi & Hx & [Hd Hn]).
    assert (In x (take HEAD (k_bcache s))) as Hin.
    { apply list_elem_of_In, (list_elem_of_lookup_2 _ i). by rewrite lookup_take_lt. }
    apply Hb in Hin. rewrite Hd, Hn in Hin. apply andb_true_iff in Hin as [Hl%negb_true_iff Hr].
    simpl in Hr. apply Z.eqb_eq in Hr. unfold bst. simpl. by rewrite Hl, Hr.
  - rewrite (vat_None _ _ Hs). simpl. f_equal. unfold pins. rewrite decide_False; [done|].
    intros Hin%list_elem_of_In%HL. apply bool_decide_eq_true in Hin.
    apply list_elem_of_fmap in Hin as (x & -> & [Hd Hx]%list_elem_of_filter).
    apply list_elem_of_lookup in Hx as [i Hx].
    unfold bsel in Hs. apply list_find_None in Hs. rewrite Forall_forall in Hs.
    apply (Hs x); [by eapply list_elem_of_lookup_2|done].
Qed.

#[local] Instance no_patience : Patience := 0%nat.

Definition sample_fs_sb : superblock := Superblock 0x10203040 2000 1954 200 30 2 32 45.

(** Modify block [b] in the current transaction. *)
Definition touch (b v : Z) : KM unit :=
  i ← bread ROOTDEV b;
  updbuf i (λ x, x <| b_data := replicate (Z.to_nat BSIZE) v |>);;
  log_write i;;
  brelse i.

Definition sample_boot (d : disk_t) : kernel := running (Machine PHYSTOP ∅ 0) d.
Definition sample_empty : kernel := sample_boot (Disk ∅ []).
Definition sample_tx_run : outcome kernel unit :=
  (initlog ROOTDEV sample_fs_sb;; begin_op;; touch 50 7;; touch 60 9) [] sample_empty.
Definition sample_tx : kernel := kfinal sample_empty sample_tx_run.

Lemma sample_tx_ok :
  bctx [] sample_tx 0 ∧ cfg sample_tx (pins [50; 60]) (λ b, st_data (vat sample_tx b)) ∧
  log_at sample_tx 2 30 [50; 60] ∧ log_list 2 30 [50; 60].
Proof.
  split; [apply bctx_check; vm_compute; reflexivity || lia|].
  split; [apply pins_check_sound; vm_compute; reflexivity|]. split.
  - split; try (vm_compute; reflexivity). intros [|[|k]] b Hb; [..|by destruct k];
      injection Hb as <-; vm_compute; reflexivity.
  - split; [|simpl; lia|unfold LOGSIZE, MAXOPBLOCKS; lia|].
    + apply (proj1 (bool_decide_eq_true _)). by vm_compute.
    + intros b [->|[-> |?%not_elem_of_nil]%elem_of_cons]%elem_of_cons; [lia|lia|done].
Qed.

(** When [commit] has returned, the disk has the committed contents. *)
Lemma commit_reads `{Patience} h me s start size L b :
  bctx h s me → cfg s (pins L) (λ b, st_data (vat s b)) → log_at s start size L →
  log_list start size L → L ≠ [] → get32 0 (d_read (k_disk s) start) = 0 → outside start size b →
  ∃ s', commit h s = Ok tt h s' ∧
    k_disk s' = writes (commitw s start L (λ b, st_data (vat s b))) (k_disk s) ∧
    d_read (k_disk s') b = st_data (vat s b).
Proof.
  intros C G La Ll HL H0 Hb. set (c := λ b, st_data (vat s b)) in *. set (c0 := d_read (k_disk s)) in *.
  destruct (commit_run h me s start size L c) as (s' & E & C' & F' & D' & G' & La' & _); [done..|].
  assert (∀ b, b ∉ L → c b = c0 b) as Hcl.
  { intros b' Hb'. apply (vat_clean h s me b' C). rewrite (G b'). simpl. unfold pins. by rewrite decide_False. }
  assert (hdr_list (c0 start) = []) as Hem by (unfold hdr_list; by rewrite H0).
  assert (length (c0 start) = Z.to_nat BSIZE) as Hd0 by apply (ci_disk _ _ (bc_inv _ _ _ C)).
  assert (0 < size ∧ start ∉ L) as [Hsz Hst] by (eapply area_pos; done).
  exists s'. split_and!; [done..|]. change (st_data (vat s b)) with (c b). rewrite D', d_read_writes.
  pose proof (commit_prefix s start size L c c0 Ll La HL Hcl Hem Hd0 (commitw s start L c) b (reflexivity _) Hb) as Hp.
  rewrite bool_decide_true in Hp; [|unfold commitw; rewrite !fmap_app; set_solver].
  rewrite <- Hp. symmetry. fold c0. apply recovered_empty; [unfold outside in Hb; lia|].
  unfold commitw. rewrite app_assoc, !cws_app. simpl. rewrite fn_lookup_insert. apply hdr_empty.
  apply length_hdr; [|by rewrite Hcl].
  pose proof (ll_len _ _ _ Ll). pose proof (ll_area _ _ _ Ll). lia.
Qed.

(** ** Properties *)

(** C1: a commit is atomic with respect to crashes.  [commit] returns, and whatever
    prefix of its disk writes has reached the disk when the machine crashes, the
    recovery that [initlog] runs at the next boot restores every block outside of
    the log area to its contents before the transaction if the header had not
    been written yet, and to its contents at the commit if it had. *)
Theorem commit_crash_atomic `{Patience} h s me start size L sb :
  bctx h s me → cfg s (pins L) (λ b, st_data (vat s b)) → log_at s start size L →
  log_list start size L → L ≠ [] → get32 0 (d_read (k_disk s) start) = 0 →
  sb_logstart sb = start → sb_nlog sb = size →
  ∃ W s', commit h s = Ok tt h s' ∧ k_disk s' = writes W (k_disk s) ∧
    (∀ b, outside start size b → d_read (k_disk s') b = st_data (vat s b)) ∧
    ∀ p, p `prefix_of` W → ∀ h0 s0 me0, cold h0 s0 me0 → k_disk s0 = writes p (k_disk s) →
      ∃ s1, initlog ROOTDEV sb h0 s0 = Ok tt h0 s1 ∧
        ∀ b, outside start size b →
          st_data (vat s1 b) =
            if bool_decide (start ∈ p.*1) then st_data (vat s b) else d_read (k_disk s) b.
Proof.
  intros C G La Ll HL H0 Est Esz. set (c := λ b, st_data (vat s b)) in *. set (c0 := d_read (k_disk s)) in *.
  destruct (commit_run h me s start size L c) as (s' & E & C' & F' & D' & G' & La' & _); [done..|].
  assert (∀ b, b ∉ L → c b = c0 b) as Hcl.
  { intros b Hb. apply (vat_clean h s me b C). rewrite (G b). simpl. unfold pins. by rewrite decide_False. }
  assert (hdr_list (c0 start) = []) as Hem by (unfold hdr_list; by rewrite H0).
  assert (length (c0 start) = Z.to_nat BSIZE) as Hd0 by apply (ci_disk _ _ (bc_inv _ _ _ C)).
  assert (0 < size ∧ start ∉ L) as [Hsz Hst] by (eapply area_pos; done).
  exists (commitw s start L c), s'. split_and!; [done..| |].
  - intros b Hb. destruct (commit_reads h me s start size L b) as (s2 & _ & D2 & <-); [done..|].
    by rewrite D', D2.
  - intros p Hp h0 s0 me0 Hco Hds.
    destruct (commit_prefix_header s start size L c c0 Ll La HL Hcl Hem Hd0 p Hp) as [Hn Hl]; [by rewrite H0|].
    destruct (initlog_run h0 s0 me0 sb start size Hco Est Esz) as (s1 & E1 & C1 & _ & _ & G1 & _);
      rewrite ?Hds, ?d_read_writes_fun; try done; [lia|].
    exists s1. split; [done|]. intros b Hb. rewrite (G1 b), Hds, d_read_writes_fun. simpl.
    by apply (commit_prefix s start size L c c0).
Qed.

Lemma commit_crash_atomic_witness :
  ∃ W s', commit [] sample_tx = Ok tt [] s' ∧ k_disk s' = writes W (k_disk sample_tx) ∧
    (∀ b, outside 2 30 b → d_read (k_disk s') b = st_data (vat sample_tx b)) ∧
    ∀ p, p `prefix_of` W → ∀ h0 s0 me0, cold h0 s0 me0 → k_disk s0 = writes p (k_disk sample_tx) →
      ∃ s1, initlog ROOTDEV sample_fs_sb h0 s0 = Ok tt h0 s1 ∧
        ∀ b, outside 2 30 b →
          st_data (vat s1 b) =
            if bool_decide (2 ∈ p.*1) then st_data (vat sample_tx b) else d_read (k_disk sample_tx) b.
Proof.
  destruct sample_tx_ok as (H1 & H2 & H3 & H4).
  refine (commit_crash_atomic [] sample_tx 0 2 30 [50; 60] sample_fs_sb H1 H2 H3 H4 _ _ eq_refl eq_refl).
  - discriminate.
  - vm_compute. reflexivity.
Defined.

(** C2: recovery can itself be interrupted.  Whatever prefix of the disk writes of
    a recovery has reached the disk, running the recovery again after the next
    boot gives every block outside of the log area the contents that the first
    recovery would have given it. *)
Theorem recovery_idempotent `{Patience} h s me start size sb :
  cold h s me → sb_logstart sb = start → sb_nlog sb = size → 0 < size →
  let c := d_read (k_disk s) in
  0 ≤ i32 (get32 0 (c start)) → log_list start size (hdr_list (c start)) →
  ∃ W s', initlog ROOTDEV sb h s = Ok tt h s' ∧ k_disk s' = writes W (k_disk s) ∧
    ∀ p, p `prefix_of` W → ∀ h0 s0 me0, cold h0 s0 me0 → k_disk s0 = writes p (k_disk s) →
      ∃ s1, initlog ROOTDEV sb h0 s0 = Ok tt h0 s1 ∧
        ∀ b, outside start size b → st_data (vat s1 b) = st_data (vat s' b).
Proof.
  intros Hco Est Esz Hsz c H0 Ll.
  assert (length (c start) = Z.to_nat BSIZE) as Hd by apply (ci_disk _ _ (bc_inv _ _ _ (co_ctx _ _ _ Hco))).
  destruct (initlog_run h s me sb start size Hco Est Esz H0 Ll) as (s' & E & _ & _ & D & G & _); [lia|].
  exists (recoverw start c), s'. split_and!; [done..|]. intros p Hp h0 s0 me0 Hco0 Hds.
  destruct (recovery_prefix_header start size (hdr_list (c start)) c p) as [Hn Hl]; [done..|].
  destruct (initlog_run h0 s0 me0 sb start size Hco0 Est Esz) as (s1 & E1 & _ & _ & _ & G1 & _);
    rewrite ?Hds, ?d_read_writes_fun; try done; [lia|].
  exists s1. split; [done|]. intros b Hb. rewrite (G1 b), (G b), Hds, d_read_writes_fun. simpl.
  eapply recovery_prefix; [exact Ll|done..|]. unfold outside in Hb. lia.
Qed.

(** A boot after a crash just after the header of the sample transaction was
    written. *)
Definition sample_crashed : kernel :=
  let d := k_disk sample_tx in
  let W := commitw sample_tx 2 [50; 60] (lread (k_bcache sample_tx) d) in
  sample_boot (writes (take 3 W) d).

Lemma cold_check s :
  bctx [] s 0 → forallb (λ x, b_refcnt x =? 0) (take HEAD (k_bcache s)) = true →
  length (lh_block (l_lh (k_log s))) = Z.to_nat LOGSIZE → cold [] s 0.
Proof.
  intros C Hr Hl. split; [done| |done|apply not_elem_of_nil]. intros b.
  destruct (bsel (k_bcache s) b) as [[i x]|] eqn:Hs; [|by rewrite (vat_None _ _ Hs)].
  rewrite (vat_bsel _ _ _ _ Hs). apply bsel_inv in Hs as (Hi & Hx & _). simpl.
  rewrite forallb_forall in Hr. apply Z.eqb_eq, Hr, list_elem_of_In, (list_elem_of_lookup_2 _ i).
  by rewrite lookup_take_lt.
Qed.

Lemma recovery_idempotent_witness :
  hdr_list (d_read (k_disk sample_crashed) 2) = [50; 60] ∧
  ∃ W s', initlog ROOTDEV sample_fs_sb [] sample_crashed = Ok tt [] s' ∧
    k_disk s' = writes W (k_disk sample_crashed) ∧
    ∀ p, p `prefix_of` W → ∀ h0 s0 me0, cold h0 s0 me0 → k_disk s0 = writes p (k_disk sample_crashed) →
      ∃ s1, initlog ROOTDEV sample_fs_sb h0 s0 = Ok tt h0 s1 ∧
        ∀ b, outside 2 30 b → st_data (vat s1 b) = st_data (vat s' b).
Proof.
  assert (hdr_list (d_read (k_disk sample_crashed) 2) = [50; 60]) as E by (vm_compute; reflexivity).
  split; [exact E|].
  refine (recovery_idempotent [] sample_crashed 0 2 30 sample_fs_sb _ eq_refl eq_refl _ _ _).
  - apply cold_check; [apply bctx_check; vm_compute; reflexivity || lia|vm_compute; reflexivity..].
  - lia.
  - vm_compute. discriminate.
  - rewrite E. apply sample_tx_ok.
Defined.
