(* ===== verification/LogOps.v ===== *)
(** * Operations of a transaction (kernel/log.c)

    [begin_op], [log_write] and [end_op] as the file system uses them: reserving
    space, recording a modified block, and committing when the last operation
    ends. *)

From S2P Require Import Prelude CString Riscv Kalloc Kernel Sched Sleeplock Bytes Bio BioList BioSpec Log LogSpec Sample LogCrash.

Lemma bind_updlog {A} f (k : unit → KM A) h s :
  (updlog f ≫= k) h s = k tt h (s <| k_log ::= f |>).
Proof. done. Qed.

(** ** log_write *)

Lemma find_logged_spec lh b L2 : ∀ L1 L fuel,
  L = L1 ++ L2 → lh_n lh = Z.of_nat (length L) →
  (∀ k x, L !! k = Some x → lh_block lh !! k = Some x ∧ 0 ≤ x < 2 ^ 31) →
  (length L2 ≤ fuel)%nat → b ∉ L1 →
  find_logged fuel lh b (Z.of_nat (length L1)) =
  match list_find (eq b) L with Some (k, _) => Z.of_nat k | None => Z.of_nat (length L) end.
Proof.
  induction L2 as [|x L2 IH]; intros L1 L fuel -> Hn Hbl Hf Hb.
  - rewrite app_nil_r in *.
    assert (list_find (eq b) L1 = None) as ->.
    { apply list_find_None, Forall_forall. by intros x Hx <-. }
    destruct fuel; simpl; [done|]. by rewrite Hn, Z.ltb_irrefl.
  - destruct fuel as [|fuel]; [simpl in Hf; lia|]. cbn [find_logged].
    assert ((L1 ++ x :: L2) !! length L1 = Some x) as Hx by (by apply list_lookup_middle).
    destruct (Hbl _ _ Hx) as [Hx1 Hx2].
    rewrite Hn, (proj2 (Z.ltb_lt _ _)) by (rewrite length_app; simpl; lia).
    rewrite (nthZ_lookup _ _ x) by (by rewrite Nat2Z.id). rewrite u32_small by lia.
    destruct (Z.eqb_spec x b) as [->|Hne].
    + assert (list_find (eq b) (L1 ++ b :: L2) = Some (length L1, b)) as ->; [|done].
      apply list_find_Some. split_and!; [done..|]. intros j y Hj Hlt <-.
      rewrite lookup_app_l in Hj by done. apply Hb. by eapply list_elem_of_lookup_2.
    + replace (Z.of_nat (length L1) + 1) with (Z.of_nat (length (L1 ++ [x]))) by (rewrite length_app; simpl; lia).
      apply IH; [by rewrite <- app_assoc|done|done|simpl in Hf; lia|].
      rewrite elem_of_app, list_elem_of_singleton. intros [?|?]; done.
Qed.

(** The list of logged blocks after [b] has been logged. *)
Definition logged (b : Z) (L : list Z) : list Z := if decide (b ∈ L) then L else L ++ [b].

Lemma logged_nodup b L : NoDup L → NoDup (logged b L).
Proof.
  intros HN. unfold logged. case_decide; [done|]. apply NoDup_app. split_and!; [done| |apply NoDup_singleton].
  intros x Hx ->%list_elem_of_singleton. done.
Qed.

Lemma elem_of_logged b L x : x ∈ logged b L ↔ x = b ∨ x ∈ L.
Proof. unfold logged. case_decide; set_solver. Qed.

Section LogOps.
Context `{Patience} (h : list lockid) (me : nat).

Lemma log_write_ok s i b start size L :
  bctx h s me → L_log ∉ h → holds s me i b → log_at s start size L → log_list start size L →
  0 ≤ b < 2 ^ 31 → Z.of_nat (length L) < size - 1 → 1 ≤ l_outstanding (k_log s) →
  st_refs (vat s b) + 1 < 2 ^ 32 →
  ∃ s', log_write i h s = Ok tt h s' ∧ bctx h s' me ∧ lframe me s s' ∧ k_disk s' = k_disk s ∧
    holds s' me i b ∧ (∀ j b2, b2 ≠ b → holds s me j b2 → holds s' me j b2) ∧
    log_at s' start size (logged b L) ∧ l_outstanding (k_log s') = l_outstanding (k_log s) ∧
    l_committing (k_log s') = l_committing (k_log s) ∧
    vupd s s' b (Bstat (st_refs (vat s b) + (if decide (b ∈ L) then 0 else 1)) true (st_data (vat s b))).
Proof.
  intros C Hlk Ho La Ll Hb Hroom Hout Hrc.
  destruct (holds_lookup h s me i b C Ho) as (x & Hx & [_ Hbx] & _ & _ & Ev & _).
  pose proof (ll_area _ _ _ Ll) as (Ha1 & Ha2 & Ha3).
  assert (∀ k x, L !! k = Some x → lh_block (l_lh (k_log s)) !! k = Some x ∧ 0 ≤ x < 2 ^ 31) as Hbl.
  { intros k y Hy. split; [by apply (la_blocks _ _ _ _ La)|].
    apply (ll_blocks _ _ _ Ll). by eapply list_elem_of_lookup_2. }
  pose proof (find_logged_spec (l_lh (k_log s)) b L [] L (Z.to_nat LOGSIZE) eq_refl (la_n _ _ _ _ La) Hbl) as Hfind.
  change (Z.of_nat (length [])) with 0 in Hfind. specialize (Hfind ltac:(lia) (not_elem_of_nil b)).
  set (k := find_logged (Z.to_nat LOGSIZE) (l_lh (k_log s)) b 0) in Hfind.
  set (s1 := s <| k_log ::= λ l, l <| l_lh ::= λ lh, lh <| lh_block ::= <[Z.to_nat k := b]> |> |> |>).
  assert (log_write i h s = (when (k =? Z.of_nat (length L))
    (bpin i;; updlog (λ l, l <| l_lh ::= λ lh, lh <| lh_n ::= λ n, i32 (n + 1) |> |>));;
    release L_log) (L_log :: h) s1) as ->.
  { unfold log_write. rewrite bind_acquire by done. rewrite bind_gets.
    rewrite (la_n _ _ _ _ La), (la_size _ _ _ _ La).
    rewrite (proj2 (Z.leb_gt LOGSIZE _)), (proj2 (Z.leb_gt (size - 1) _)) by lia. cbn [orb].
    rewrite (proj2 (Z.ltb_ge _ 1)) by lia. rewrite bind_getbuf, (getbuf_lookup _ _ _ Hx), Hbx.
    cbv zeta. rewrite bind_updlog. rewrite (i32_small b) by lia. done. }
  assert (bctx h s1 me) as C1 by (by apply bctx_log).
  assert (holds s1 me i b) as Ho1 by (by destruct Ho).
  destruct (list_find (eq b) L) as [[k' y]|] eqn:Ef.
  - (* absorbed *)
    apply list_find_Some in Ef as (Hk & <- & _).
    assert (b ∈ L) as HbL by (by eapply list_elem_of_lookup_2).
    exists s1. pose proof (lookup_lt_Some _ _ _ Hk) as Hlt.
    rewrite Hfind, (proj2 (Z.eqb_neq _ _)) by lia. cbn [when]. rewrite bind_ret.
    rewrite release_acquired by done. unfold logged. rewrite !decide_True by done.
    split_and!; [done|done|apply lframe_log|done|done| | |done|done|].
    + intros j b2 _ [? ? ? ?]. done.
    + destruct La as [L1 L2 L3 L4 L5 L6]. split; simpl; try done.
      * by rewrite length_insert.
      * intros j z Hz. destruct (decide (j = k')) as [->|Hne].
        -- rewrite Hfind, Nat2Z.id. rewrite Hk in Hz. injection Hz as <-.
           apply list_lookup_insert_eq. rewrite L5. lia.
        -- rewrite Hfind, Nat2Z.id, list_lookup_insert_ne by done. by apply L6.
    + intros b'. case_decide; [|done]. subst b'. rewrite Z.add_0_r. change (vat s1 b) with (vat s b). by rewrite Ev.
  - (* a new block *)
    apply list_find_None in Ef.
    assert (b ∉ L) as HbL. { intros Hin. rewrite Forall_forall in Ef. by apply (Ef b). }
    rewrite Hfind, Z.eqb_refl. cbn [when].
    assert (bctx (L_log :: h) s1 me) as C1'.
    { destruct C1 as [[? ? ? ?] ? ? ?]. split; [split|..]; try done; set_solver. }
    destruct (bpin_ok (L_log :: h) s1 me i b C1' Ho1) as (s2 & E2 & D2 & H2 & S2); [done|].
    set (s3 := s2 <| k_log ::= λ l, l <| l_lh ::= λ lh, lh <| lh_n ::= λ n, i32 (n + 1) |> |> |>).
    assert (bctx h s2 me) as C2.
    { eapply bframe_bctx; [apply S2|apply (bc_inv _ _ _ (bs_ctx _ _ _ _ _ _ S2))|done]. }
    pose proof (bframe_log _ _ _ (bs_frame _ _ _ _ _ _ S2)) as El2.
    exists s3. unfold logged. rewrite !decide_False by done.
    split_and!.
    + rewrite bind_assoc. erewrite bind_Ok by exact E2. rewrite bind_updlog.
      by apply release_acquired.
    + by apply bctx_log.
    + eapply lframe_trans; [apply lframe_log|]. eapply lframe_trans; [apply bframe_lframe, S2|apply lframe_log].
    + done.
    + by destruct H2.
    + intros j b2 Hne Hj. assert (holds s2 me j b2) as [? ? ? ?]; [|done].
      apply (bs_holds _ _ _ _ _ _ S2); [done|]. by destruct Hj.
    + destruct La as [L1 L2 L3 L4 L5 L6]. split; unfold s3; simpl; rewrite ?El2; simpl; try done.
      * rewrite L4, i32_small by (unfold LOGSIZE, MAXOPBLOCKS in *; lia). rewrite length_app. simpl. lia.
      * by rewrite length_insert.
      * intros j z Hz. rewrite Hfind, Nat2Z.id. destruct (decide (j = length L)) as [->|Hne].
        -- rewrite list_lookup_middle in Hz by done. injection Hz as <-. apply list_lookup_insert_eq. lia.
        -- apply lookup_lt_Some in Hz as Hlt. rewrite length_app in Hlt. simpl in Hlt.
           rewrite lookup_app_l in Hz by lia. rewrite list_lookup_insert_ne by done. by apply L6.
    + unfold s3. simpl. by rewrite El2.
    + unfold s3. simpl. by rewrite El2.
    + intros b'. change (vat s3 b') with (vat s2 b'). rewrite (bs_vupd _ _ _ _ _ _ S2). done.
Qed.

(** ** begin_op *)

(** What holds whenever the thread is on the CPU: it is the current process, and
    the counters of the log are not negative. *)
Definition log_rely (s : kernel) : Prop :=
  k_cur s = Some me ∧ (me < length (k_procs s))%nat ∧ 0 ≤ log_n s ∧ 0 ≤ l_outstanding (k_log s).

(** Space for the blocks of every operation under way. *)
Definition reserved (s : kernel) : Prop :=
  l_committing (k_log s) = false ∧ 1 ≤ l_outstanding (k_log s) ∧
  log_n s + l_outstanding (k_log s) * MAXOPBLOCKS ≤ LOGSIZE.

Lemma begin_op_loop_post n s :
  log_rely s → post log_rely (λ _ h' s', h' = [] ∧ reserved s') (begin_op_loop n [L_log] s).
Proof.
  revert s. induction n as [|n IH]; intros s (Hc & Hm & Hn & Ho); cbn [begin_op_loop]; rewrite bind_gets;
    fold (log_n s);
    (destruct (l_committing (k_log s)) eqn:Ec; cbn [orb];
      [|destruct (Z.ltb_spec LOGSIZE (log_n s + (l_outstanding (k_log s) + 1) * MAXOPBLOCKS))]);
    try done.
  1, 4: rewrite bind_updlog, release_acquired by apply not_elem_of_nil; simpl; split; [done|];
    unfold reserved, log_n in *; simpl; unfold LOGSIZE, MAXOPBLOCKS in *; rewrite i32_small by lia;
    split; [done|lia].
  all: rewrite (sleep_bind _ _ _ me) by done; simpl; intros s' (Hc' & Hm' & Hn' & Ho');
    apply IH; split_and!; [done| |done|done]; simpl; by rewrite length_alter.
Qed.

(** With room it returns at once. *)
Lemma begin_op_now s :
  l_committing (k_log s) = false → log_n s + (l_outstanding (k_log s) + 1) * MAXOPBLOCKS ≤ LOGSIZE →
  begin_op [] s = Ok tt [] (s <| k_log ::= λ l, l <| l_outstanding ::= λ n, i32 (n + 1) |> |>).
Proof.
  intros Hc Hn. unfold begin_op. rewrite bind_acquire by apply not_elem_of_nil.
  destruct patience; cbn [begin_op_loop]; rewrite bind_gets, Hc; cbn [orb];
    fold (log_n s); rewrite (proj2 (Z.ltb_ge _ _)) by lia;
    rewrite bind_updlog; apply release_acquired, not_elem_of_nil.
Qed.

(** ** end_op *)

Lemma wakeup_ctx h' s ch :
  bctx h' s me → ∃ s', wakeup ch h' s = Ok tt h' s' ∧ bctx h' s' me ∧ lframe me s s' ∧
    k_disk s' = k_disk s ∧ k_log s' = k_log s ∧ ∀ b, vat s' b = vat s b.
Proof.
  intros C. pose proof (bc_thread _ _ _ C) as T. eexists. split.
  { apply wakeup_run; [intros i _; apply (th_locks _ _ _ T)|apply T]. }
  rewrite (th_cur _ _ _ T). pose proof (awake_wake me ch (k_procs s)) as A.
  pose proof (bstep_procs h' s me 0 _ C A) as S. split_and!; [apply S| |done..].
  split; [by destruct s|exact A].
Qed.

(** The last operation to end commits: its blocks are on disk when it returns. *)
Lemma end_op_commits s start size L :
  bctx h s me → L_log ∉ h → cfg s (pins L) (λ b, st_data (vat s b)) → log_at s start size L →
  log_list start size L → L ≠ [] →
  l_outstanding (k_log s) = 1 → l_committing (k_log s) = false →
  ∃ s', end_op h s = Ok tt h s' ∧ bctx h s' me ∧ lframe me s s' ∧ log_at s' start size [] ∧
    l_outstanding (k_log s') = 0 ∧ l_committing (k_log s') = false ∧
    k_disk s' = writes (commitw s start L (λ b, st_data (vat s b))) (k_disk s) ∧
    cfg s' (λ _, 0) (cws (commitw s start L (λ b, st_data (vat s b))) (λ b, st_data (vat s b))).
Proof.
  intros C Hlk G La Ll HL Ho Hc. set (c := λ b, st_data (vat s b)) in *.
  set (f := λ l : log_t, (l <| l_outstanding ::= λ n, i32 (n - 1) |>) <| l_committing := true |>).
  set (s1 := s <| k_log ::= f |>).
  assert (log_at s1 start size L) as La1 by (destruct La; by split).
  destruct (commit_run h me s1 start size L c) as (s2 & E2 & C2 & F2 & D2 & G2 & La2 & Lg2);
    [done|done|by apply bctx_log|done|done|].
  set (s3 := s2 <| k_log ::= λ l, l <| l_committing := false |> |>).
  assert (bctx (L_log :: h) s3 me) as C3.
  { destruct C2 as [[? ? ? ?] ? ? ?]. split; [split|..]; try done; set_solver. }
  destruct (wakeup_ctx _ _ Ch_log C3) as (s4 & E4 & C4 & F4 & D4 & Lg4 & V4).
  exists s4. split_and!.
  - unfold end_op. rewrite bind_acquire by done. rewrite bind_updlog, bind_gets. simpl (l_committing _).
    rewrite Hc. simpl (l_outstanding _). rewrite Ho. change (i32 (1 - 1) =? 0) with true. cbv iota.
    rewrite bind_assoc, bind_updlog, bind_ret. rewrite bind_release by done. cbn [when].
    change (s <| k_log ::= _ |> <| k_log ::= _ |>) with s1. erewrite bind_Ok by exact E2.
    rewrite bind_acquire by done. rewrite bind_updlog. fold s3. erewrite bind_Ok by exact E4.
    by apply release_acquired.
  - destruct C4 as [[? ? ? Hl] ? ? ?]. split; [split|..]; try done; [intros i Hi; apply (Hl i); by right|..]; set_solver.
  - eapply lframe_trans; [apply lframe_log|]. eapply lframe_trans; [exact F2|].
    eapply lframe_trans; [apply lframe_log|exact F4].
  - destruct La2 as [L1 L2 L3 L4 L5 L6]. split; by rewrite Lg4.
  - rewrite Lg4. simpl. rewrite Lg2. simpl. by rewrite Ho.
  - by rewrite Lg4.
  - rewrite D4. change (k_disk s3) with (k_disk s2). rewrite D2. done.
  - intros b. rewrite V4. exact (G2 b).
Qed.
End LogOps.

(** ** Properties *)

#[local] Instance no_patience : Patience := 0%nat.

(** [begin_op] never panics and returns only once there is room: whatever the
    other threads do while it sleeps, when it returns no commit is under way and
    the log has room for [MAXOPBLOCKS] blocks of every operation under way, its
    own included.  With room at the start it returns at once. *)
Theorem begin_op_reserves `{Patience} me s :
  log_rely me s →
  post (log_rely me) (λ _ h' s', h' = [] ∧ reserved s') (begin_op [] s) ∧
  (l_committing (k_log s) = false →
   log_n s + (l_outstanding (k_log s) + 1) * MAXOPBLOCKS ≤ LOGSIZE →
   begin_op [] s = Ok tt [] (s <| k_log ::= λ l, l <| l_outstanding ::= λ n, i32 (n + 1) |> |>)).
Proof.
  intros Hr. split; [by apply begin_op_loop_post|]. apply begin_op_now.
Qed.

Lemma begin_op_reserves_witness :
  let s := sample_tx in
  post (log_rely 0) (λ _ h' s', h' = [] ∧ reserved s') (begin_op [] s) ∧
  (l_committing (k_log s) = false →
   log_n s + (l_outstanding (k_log s) + 1) * MAXOPBLOCKS ≤ LOGSIZE →
   begin_op [] s = Ok tt [] (s <| k_log ::= λ l, l <| l_outstanding ::= λ n, i32 (n + 1) |> |>)).
Proof.
  cbv zeta. apply (begin_op_reserves 0 sample_tx).
  split; [vm_compute; reflexivity|]. split; [apply Nat.ltb_lt; vm_compute; reflexivity|].
  split; vm_compute; discriminate.
Defined.

(** C32: [log_write] records the block of a locked buffer in the transaction, once
    however often it is written (log absorption), pins it in the cache the first
    time, and leaves the contents of every block and the disk as they are. *)
Theorem log_write_correct h me s i b start size L :
  bctx h s me → L_log ∉ h → holds s me i b → log_at s start size L → log_list start size L →
  0 ≤ b < 2 ^ 31 → Z.of_nat (length L) < size - 1 → 1 ≤ l_outstanding (k_log s) →
  st_refs (vat s b) + 1 < 2 ^ 32 →
  ∃ s', log_write i h s = Ok tt h s' ∧ bctx h s' me ∧ k_disk s' = k_disk s ∧ holds s' me i b ∧
    log_at s' start size (logged b L) ∧
    vupd s s' b (Bstat (st_refs (vat s b) + (if decide (b ∈ L) then 0 else 1)) true (st_data (vat s b))).
Proof.
  intros H1 H2 H3 H4 H5 H6 H7 H8 H9.
  destruct (log_write_ok h me s i b start size L) as (s' & E & C & _ & D & Ho & _ & La & _ & _ & V); [done..|].
  by exists s'.
Qed.

(** Block 50 of the sample transaction, read again and about to be logged. *)
Definition sample_locked_run : outcome kernel nat := bread ROOTDEV 50 [] sample_tx.
Definition sample_locked : kernel := kfinal sample_tx sample_locked_run.
Definition sample_locked_i : nat := match sample_locked_run with Ok i _ _ => i | _ => O end.

Lemma log_write_correct_witness :
  holds sample_locked 0 sample_locked_i 50 ∧
  ∃ s', log_write sample_locked_i [] sample_locked = Ok tt [] s' ∧ bctx [] s' 0 ∧
    k_disk s' = k_disk sample_locked ∧ holds s' 0 sample_locked_i 50 ∧
    log_at s' 2 30 (logged 50 [50; 60]) ∧
    vupd sample_locked s' 50 (Bstat (st_refs (vat sample_locked 50) + (if decide (50 ∈ [50; 60]) then 0 else 1))
      true (st_data (vat sample_locked 50))).
Proof.
  assert (holds sample_locked 0 sample_locked_i 50) as Ho.
  { split; [apply Nat.ltb_lt; vm_compute; reflexivity|split; vm_compute; reflexivity|vm_compute; reflexivity..]. }
  split; [exact Ho|].
  refine (log_write_correct [] 0 sample_locked sample_locked_i 50 2 30 [50; 60] _ _ Ho _ _ _ _ _ _).
  - apply bctx_check; vm_compute; reflexivity || lia.
  - apply not_elem_of_nil.
  - split; try (vm_compute; reflexivity). intros [|[|k]] b Hb; [..|by destruct k];
      injection Hb as <-; vm_compute; reflexivity.
  - apply sample_tx_ok.
  - lia.
  - simpl. lia.
  - vm_compute. discriminate.
  - vm_compute. reflexivity.
Defined.

(** C3: the last operation to end makes the transaction durable: when [end_op]
    returns, every block outside of the log area is on disk with its logical
    contents, the log is empty, and new operations can begin. *)
Theorem end_op_durable `{Patience} h me s start size L :
  bctx h s me → L_log ∉ h → cfg s (pins L) (λ b, st_data (vat s b)) → log_at s start size L →
  log_list start size L → L ≠ [] → get32 0 (d_read (k_disk s) start) = 0 →
  l_outstanding (k_log s) = 1 → l_committing (k_log s) = false →
  ∃ s', end_op h s = Ok tt h s' ∧ log_at s' start size [] ∧
    l_outstanding (k_log s') = 0 ∧ l_committing (k_log s') = false ∧
    ∀ b, outside start size b →
      d_read (k_disk s') b = st_data (vat s b) ∧ vat s' b = Bstat 0 false (st_data (vat s b)).
Proof.
  intros C Hlk G La Ll HL H0 Ho Hc.
  destruct (end_op_commits h me s start size L) as (s' & E & C' & _ & La' & O' & Cm' & D' & G'); [done..|].
  exists s'. split_and!; [done..|]. intros b Hb.
  assert (d_read (k_disk s') b = st_data (vat s b)) as Hd.
  { destruct (commit_reads h me s start size L b) as (s2 & _ & D2 & Hb2); [done..|].
    by rewrite <- Hb2, D', D2. }
  split; [done|]. destruct (vat_clean h s' me b C') as [_ Hv]; [by rewrite (G' b)|].
  rewrite Hd in Hv. rewrite (G' b) in Hv |- *. simpl in Hv. by rewrite Hv.
Qed.

Lemma end_op_durable_witness :
  ∃ s', end_op [] sample_tx = Ok tt [] s' ∧ log_at s' 2 30 [] ∧
    l_outstanding (k_log s') = 0 ∧ l_committing (k_log s') = false ∧
    ∀ b, outside 2 30 b →
      d_read (k_disk s') b = st_data (vat sample_tx b) ∧
      vat s' b = Bstat 0 false (st_data (vat sample_tx b)).
Proof.
  destruct sample_tx_ok as (H1 & H2 & H3 & H4).
  refine (end_op_durable [] 0 sample_tx 2 30 [50; 60] H1 _ H2 H3 H4 _ _ _ _).
  - apply not_elem_of_nil.
  - discriminate.
  - vm_compute. reflexivity.
  - vm_compute. reflexivity.
  - vm_compute. reflexivity.
Defined.

(** ** How much fits into the log *)

(** File system operations log the blocks [bs] one after the other.  Between two calls of
    [log_write] anything happens that leaves the log alone: other threads run, buffers are
    read, locked and given back. *)
Inductive logging : kernel → list Z → kernel → Prop :=
  | logging_nil s s' : k_log s' = k_log s → logging s [] s'
  | logging_cons me h s s1 i b s2 bs s' :
      k_log s1 = k_log s → bctx h s1 me → L_log ∉ h → holds s1 me i b → st_refs (vat s1 b) + 1 < 2 ^ 32 →
      log_write i h s1 = Ok tt h s2 → logging s2 bs s' → logging s (b :: bs) s'.

(** A full log refuses every block, also one that it has already. *)
Lemma log_write_full h s i start size L :
  L_log ∉ h → log_at s start size L → Z.of_nat (length L) = size - 1 →
  log_write i h s = Panic "too big a transaction".
Proof.
  intros Hh La Hl. unfold log_write. rewrite bind_acquire by done. rewrite bind_gets.
  rewrite (la_n _ _ _ _ La), (la_size _ _ _ _ La), (proj2 (Z.leb_le (size - 1) _)) by lia.
  by rewrite orb_true_r.
Qed.

Lemma log_at_same s s' start size L : k_log s' = k_log s → log_at s start size L → log_at s' start size L.
Proof. intros E [? ? ? ? ? ?]. split; by rewrite E. Qed.

Lemma log_list_snoc start size L b :
  log_list start size L → b ∉ L → Z.of_nat (length L) < size - 1 →
  0 ≤ b < 2 ^ 31 → b < start ∨ start + size ≤ b → log_list start size (L ++ [b]).
Proof.
  intros [H1 H2 H3 H4] Hb Hl Hr Ho. split; [|rewrite length_app; simpl; lia|done|].
  - apply NoDup_app. split_and!; [done| |apply NoDup_singleton]. by intros x Hx ->%list_elem_of_singleton.
  - intros x [Hx|<-%list_elem_of_singleton]%elem_of_app; [by apply H4|done].
Qed.

(** The log lists the blocks in the order in which they were logged. *)
Lemma logging_log_at start size s bs s' L :
  logging s bs s' → log_at s start size L → log_list start size L → 1 ≤ l_outstanding (k_log s) → NoDup (L ++ bs) →
  Forall (λ b, 0 ≤ b < 2 ^ 31 ∧ (b < start ∨ start + size ≤ b)) bs →
  log_at s' start size (L ++ bs) ∧ log_list start size (L ++ bs) ∧ 1 ≤ l_outstanding (k_log s').
Proof.
  intros H. revert L. induction H as [s s' E|me h s s1 i b s2 bs s' E C Hh Ho Hr Ew H IH]; intros L La Ll Hout HN HF.
  - rewrite app_nil_r in *. split_and!; [by eapply log_at_same|done|by rewrite E].
  - apply Forall_cons in HF as [[Hb Hbo] HF]. apply (log_at_same _ _ _ _ _ E) in La. rewrite <- E in Hout.
    assert (b ∉ L) as HbL. { apply NoDup_app in HN as (_ & HN & _). intros Hin. apply (HN b Hin). by left. }
    destruct (decide (Z.of_nat (length L) = size - 1)) as [Hl|Hl]; [by rewrite (log_write_full h s1 i start size L) in Ew|].
    pose proof (ll_len _ _ _ Ll) as Hl2.
    destruct (log_write_ok h me s1 i b start size L) as (s2' & Ew' & _ & _ & _ & _ & _ & La2 & Eo & _); [done..|lia|lia|done|done|].
    rewrite Ew in Ew'. injection Ew' as <-. unfold logged in La2. rewrite decide_False in La2 by done.
    rewrite cons_middle, app_assoc in HN |- *. apply IH; [done| |by rewrite Eo|done|done].
    apply log_list_snoc; [done..|lia|done|done].
Qed.

(** Three operations are admitted to an idle log, whatever its size. *)
Lemma begin_op_three `{Patience} s :
  log_n s = 0 → l_outstanding (k_log s) = 0 → l_committing (k_log s) = false →
  let s3 := s <| k_log ::= λ l, l <| l_outstanding := 3 |> |> in
  (begin_op;; begin_op;; begin_op) [] s = Ok tt [] s3 ∧ reserved s3.
Proof.
  intros Hn Ho Hc. split.
  - erewrite bind_Ok by (apply begin_op_now; [done|rewrite Hn, Ho; done]).
    erewrite bind_Ok by (apply begin_op_now; [done|cbn; rewrite Ho; unfold log_n in *; cbn; by rewrite Hn]).
    rewrite begin_op_now; [|done|cbn; rewrite Ho; unfold log_n in *; cbn; by rewrite Hn]. f_equal.
    change (s <| k_log ::= λ l, l <| l_outstanding := i32 (i32 (i32 (l_outstanding (k_log s) + 1) + 1) + 1) |> |>
      = s <| k_log ::= λ l, l <| l_outstanding := 3 |> |>). by rewrite Ho.
  - split; [done|]. unfold log_n in *. cbn. rewrite Hn. done.
Qed.

(** C33: [begin_op] promises one block more than [log_write] accepts.  An idle log of
    whatever size [size] (mkfs makes it [LOGSIZE]) admits three operations, with
    [MAXOPBLOCKS] blocks reserved for each, 30 in all.  When they have logged [size - 1]
    different blocks, which is less than what they have reserved, every further [log_write]
    panics; before that none does. *)
Theorem reserved_log_overflows `{Patience} s start size :
  log_at s start size [] → log_list start size [] →
  l_outstanding (k_log s) = 0 → l_committing (k_log s) = false →
  ∃ s3, (begin_op;; begin_op;; begin_op) [] s = Ok tt [] s3 ∧ reserved s3 ∧ l_outstanding (k_log s3) = 3 ∧
    size - 1 < 3 * MAXOPBLOCKS ∧
    ∀ bs s', NoDup bs → Forall (λ b, 0 ≤ b < 2 ^ 31 ∧ (b < start ∨ start + size ≤ b)) bs → logging s3 bs s' →
      (Z.of_nat (length bs) = size - 1 → ∀ h i, L_log ∉ h → log_write i h s' = Panic "too big a transaction") ∧
      (Z.of_nat (length bs) < size - 1 → ∀ h me i b, bctx h s' me → L_log ∉ h → holds s' me i b →
         0 ≤ b < 2 ^ 31 → st_refs (vat s' b) + 1 < 2 ^ 32 → ∃ s2, log_write i h s' = Ok tt h s2).
Proof.
  intros La Ll Ho Hc. destruct (begin_op_three s) as [E R]; [apply (la_n _ _ _ _ La)|done..|].
  eexists. split; [exact E|]. split; [exact R|]. split; [done|].
  pose proof (ll_area _ _ _ Ll) as (_ & Hsz & _). split; [unfold LOGSIZE, MAXOPBLOCKS in *; lia|].
  intros bs s' HN HF HL.
  destruct (logging_log_at start size _ bs s' [] HL) as (La' & Ll' & Ho'); [by destruct La|done|done|done|done|].
  split; [intros Hl h i Hh; by eapply log_write_full|]. intros Hl h me i b C Hh Hb Hr Hrc.
  destruct (log_write_ok h me s' i b start size bs) as (s2 & E2 & _); [done..|]. by exists s2.
Qed.

(** The log after [initlog], empty. *)
Definition sample_log : kernel := kfinal sample_empty (initlog ROOTDEV sample_fs_sb [] sample_empty).

Lemma reserved_log_overflows_witness :
  ∃ s3, (begin_op;; begin_op;; begin_op) [] sample_log = Ok tt [] s3 ∧ reserved s3 ∧ l_outstanding (k_log s3) = 3 ∧
    30 - 1 < 3 * MAXOPBLOCKS ∧
    ∀ bs s', NoDup bs → Forall (λ b, 0 ≤ b < 2 ^ 31 ∧ (b < 2 ∨ 2 + 30 ≤ b)) bs → logging s3 bs s' →
      (Z.of_nat (length bs) = 30 - 1 → ∀ h i, L_log ∉ h → log_write i h s' = Panic "too big a transaction") ∧
      (Z.of_nat (length bs) < 30 - 1 → ∀ h me i b, bctx h s' me → L_log ∉ h → holds s' me i b →
         0 ≤ b < 2 ^ 31 → st_refs (vat s' b) + 1 < 2 ^ 32 → ∃ s2, log_write i h s' = Ok tt h s2).
Proof.
  apply (reserved_log_overflows sample_log 2 30).
  - split; try (vm_compute; reflexivity). by intros k b Hb.
  - split; [constructor|simpl; lia|unfold LOGSIZE, MAXOPBLOCKS; lia|by intros b Hb%not_elem_of_nil].
  - vm_compute. reflexivity.
  - vm_compute. reflexivity.
Defined.

(** Touch [n] blocks from block [b] on. *)
Fixpoint touch_all (n : nat) (b : Z) : KM unit :=
  match n with
  | O => mret tt
  | S n => touch b 1;; touch_all n (b + 1)
  end.

(** With 30 blocks it comes to that: 29 can be read, changed, logged and given back, and
    the thirtieth ends in the panic. *)
Lemma thirty_blocks_panic :
  let m := begin_op;; begin_op;; begin_op in
  (∃ s, (m;; touch_all 29 100) [] sample_log = Ok tt [] s) ∧
  (m;; touch_all (Z.to_nat (3 * MAXOPBLOCKS)) 100) [] sample_log = Panic "too big a transaction".
Proof.
  cbv zeta. split; [|vm_compute; reflexivity].
  exists (kfinal sample_log ((begin_op;; begin_op;; begin_op;; touch_all 29 100) [] sample_log)). vm_compute. reflexivity.
Qed.
