(* ===== verification/BioProps.v ===== *)
(** * Properties of the buffer cache (kernel/bio.c) *)

From S2P Require Import Prelude CString Riscv Kalloc Kernel Sched Sleeplock Bytes Bio BioList BioSpec Sample.

(** [binit] touches the buffers only. *)
Definition binit_bufs : list buf :=
  k_bcache (kfinal (zero_kernel (Machine 0 ∅ 0) (Disk ∅ [])) (binit [] (zero_kernel (Machine 0 ∅ 0) (Disk ∅ [])))).

Lemma binit_run s :
  k_bcache s = zero_bcache → binit [] s = Ok tt [] (s <| k_bcache := binit_bufs |>).
Proof. intros E. destruct s. simpl in E. subst. vm_compute. reflexivity. Qed.

(** The least recently used buffer that is not in use. *)
Definition lru (bs : list buf) (o : list nat) : option nat :=
  head (filter (λ i, b_refcnt (bat bs i) = 0) (reverse o)).

Lemma find_unused_lru bs o : ring bs o → find_unused (S HEAD) bs (pvf bs HEAD) = lru bs o.
Proof.
  intros Ho. destruct (ring_nodup _ _ Ho) as (HN & Hh & Hl).
  apply (find_unused_spec bs (reverse o) HEAD); [by apply seg_reverse, Ho|by rewrite elem_of_reverse|].
  rewrite length_reverse. lia.
Qed.

(** A block that is not cached takes over the least recently used buffer. *)
Lemma bget_victim `{Patience} h s me o b i h' s' :
  bctx h s me → ring (k_bcache s) o → bsel (k_bcache s) b = None →
  bget ROOTDEV b h s = Ok i h' s' → lru (k_bcache s) o = Some i.
Proof.
  intros C Ho Hs. unfold bget. rewrite bind_acquire by apply C. rewrite bind_getbuf, bind_gets.
  change (b_next (buf_at HEAD s)) with (nxf (k_bcache s) HEAD).
  rewrite (find_cached_bsel _ _ (bc_inv _ _ _ C)), Hs. cbn [fmap option_fmap option_map]. rewrite bind_gets.
  change (b_prev (buf_at HEAD s)) with (pvf (k_bcache s) HEAD). rewrite (find_unused_lru _ o Ho).
  destruct (lru _ _) as [j|]; [|done]. rewrite bind_updbuf, bind_release by apply C.
  intros (? & ? & ? & _ & E)%bind_Ok_inv. by apply Ok_inj in E as (-> & _).
Qed.

Lemma bget_no_buffers `{Patience} h s me o b :
  bctx h s me → ring (k_bcache s) o → bsel (k_bcache s) b = None → lru (k_bcache s) o = None →
  bread ROOTDEV b h s = Panic "bget: no buffers".
Proof.
  intros C Ho Hs Hl. unfold bread, bget. rewrite bind_assoc, bind_acquire by apply C.
  rewrite bind_assoc, bind_getbuf, bind_assoc, bind_gets.
  change (b_next (buf_at HEAD s)) with (nxf (k_bcache s) HEAD).
  rewrite (find_cached_bsel _ _ (bc_inv _ _ _ C)), Hs. cbn [fmap option_fmap option_map].
  rewrite bind_assoc, bind_gets.
  change (b_prev (buf_at HEAD s)) with (pvf (k_bcache s) HEAD). by rewrite (find_unused_lru _ o Ho), Hl.
Qed.

(** A buffer that is not in use leaves room. *)
Lemma lru_room h s me o i :
  bctx h s me → ring (k_bcache s) o → lru (k_bcache s) o = Some i →
  ∃ U, (∀ b', st_refs (vat s b') ≠ 0 → b' ∈ U) ∧ (length U < HEAD)%nat.
Proof.
  intros C Ho Hl. exists (b_blockno <$> filter (λ x, b_refcnt x ≠ 0) (take HEAD (k_bcache s))). split.
  - intros b' Hr. destruct (bsel (k_bcache s) b') as [[j x]|] eqn:Hs; [|by rewrite (vat_None _ _ Hs) in Hr].
    rewrite (vat_bsel _ _ _ _ Hs) in Hr. apply bsel_inv in Hs as (Hj & Hx & [_ <-]).
    apply list_elem_of_fmap. exists x. split; [done|]. apply list_elem_of_filter. split; [done|].
    apply (list_elem_of_lookup_2 _ j). by rewrite lookup_take_lt.
  - apply head_Some_elem_of, list_elem_of_filter in Hl as [Hr Hi].
    rewrite elem_of_reverse in Hi. apply (ring_elem _ _ _ Ho) in Hi.
    pose proof (ring_len _ _ Ho) as Hlen.
    destruct (lookup_lt_is_Some_2 (k_bcache s) i) as [x Hx]; [lia|]. unfold bat in Hr. rewrite Hx in Hr.
    rewrite length_fmap. apply Nat.lt_le_trans with (length (take HEAD (k_bcache s))).
    + apply (length_filter_lt _ _ x); [|auto]. apply (list_elem_of_lookup_2 _ i). by rewrite lookup_take_lt.
    + rewrite length_take. lia.
Qed.

(** ** Properties *)

(** [binit] turns the zeroed buffers into an empty cache: the list is a ring
    through all [NBUF] buffers, and every block reads as it is on disk. *)
Theorem binit_correct s :
  k_bcache s = zero_bcache → (∀ b, length (d_read (k_disk s) b) = Z.to_nat BSIZE) →
  ∃ s', binit [] s = Ok tt [] s' ∧ s' = s <| k_bcache := k_bcache s' |> ∧
    cache_inv (k_bcache s') (k_disk s') ∧ ring (k_bcache s') (reverse (seq 0 (Z.to_nat NBUF))) ∧
    ∀ b, vat s' b = Bstat 0 false (d_read (k_disk s) b).
Proof.
  intros Hz Hd. pose proof (binit_run s Hz) as E.
  assert (bufs_check binit_bufs (k_disk s) = true) as Hc by (vm_compute; reflexivity).
  destruct (bufs_check_sound _ _ Hc Hd) as [Hi Hr]. clear Hc.
  assert (walk_next HEAD binit_bufs HEAD = reverse (seq 0 (Z.to_nat NBUF))) as Ew by (vm_compute; reflexivity).
  rewrite Ew in Hr.
  assert (forallb (λ x, b_dev x =? 0) (take HEAD binit_bufs) = true) as Hf by (vm_compute; reflexivity).
  revert E Hi Hr Hf. clear Ew. generalize binit_bufs. intros bs E Hi Hr Hf.
  exists (s <| k_bcache := bs |>). split_and!; [done..|]. intros b.
  rewrite vat_None; [done|]. apply list_find_None, Forall_forall.
  intros x Hx%list_elem_of_In [Hdev _].
  rewrite forallb_forall in Hf. apply Hf, Z.eqb_eq in Hx. by rewrite Hx in Hdev.
Qed.

Lemma binit_correct_witness :
  let s := zero_kernel (Machine 0 ∅ 0) (Disk ∅ []) in
  ∃ s', binit [] s = Ok tt [] s' ∧ s' = s <| k_bcache := k_bcache s' |> ∧
    cache_inv (k_bcache s') (k_disk s') ∧ ring (k_bcache s') (reverse (seq 0 (Z.to_nat NBUF))) ∧
    ∀ b, vat s' b = Bstat 0 false (d_read (k_disk s) b).
Proof.
  cbv zeta. apply (binit_correct (zero_kernel (Machine 0 ∅ 0) (Disk ∅ []))).
  - reflexivity.
  - apply disk_check_sound. vm_compute. reflexivity.
Defined.

(** C30: [bread] of a block that no other thread has locked returns its buffer,
    locked by the caller, with the contents of the block: those of the cache if
    the block is cached and valid, and those of the disk otherwise.  The view of
    every other block is unchanged, whatever buffer was recycled, and so is the
    disk. *)
Theorem bread_correct `{Patience} h s me b :
  bctx h s me → st_lkd (vat s b) = false → st_refs (vat s b) + 1 < 2 ^ 32 → room s b →
  ∃ i s', bread ROOTDEV b h s = Ok i h s' ∧ k_disk s' = k_disk s ∧
    holds s' me i b ∧ b_data (buf_at i s') = st_data (vat s b) ∧ bctx h s' me ∧
    vupd s s' b (Bstat (st_refs (vat s b) + 1) true (st_data (vat s b))).
Proof.
  intros C Hl Hr Hroom. destruct (bread_ok h s me C b Hl Hr Hroom) as (i & s' & E & D & Ho & S).
  exists i, s'. split_and!; [done..| |apply S|apply S].
  destruct (holds_lookup h s' me i b (bs_ctx _ _ _ _ _ _ S) Ho) as (x & Hx & _ & _ & _ & Ev & _).
  rewrite (getbuf_lookup _ _ _ Hx). rewrite (bs_vupd _ _ _ _ _ _ S), decide_True in Ev by done.
  by injection Ev.
Qed.

#[local] Instance no_patience : Patience := 0%nat.

(** A disk with one block written, a running process and an empty cache. *)
Definition sample_cold : kernel :=
  running (Machine 0 ∅ 0) (Disk {[33 := replicate (Z.to_nat BSIZE) 5]} []).

Lemma sample_cold_ctx : bctx [] sample_cold 0.
Proof. apply bctx_check; vm_compute; reflexivity || lia. Qed.

Lemma sample_cold_view b : vat sample_cold b = Bstat 0 false (d_read (k_disk sample_cold) b).
Proof.
  apply vat_None, list_find_None, Forall_forall. intros x Hx%list_elem_of_In [Hdev _].
  assert (forallb (λ x, b_dev x =? 0) (take HEAD (k_bcache sample_cold)) = true) as Hf
    by (vm_compute; reflexivity).
  rewrite forallb_forall in Hf. apply Hf, Z.eqb_eq in Hx. rewrite Hx in Hdev. discriminate Hdev.
Qed.

Lemma bread_correct_witness :
  st_data (vat sample_cold 33) = replicate (Z.to_nat BSIZE) 5 ∧
  ∃ i s', bread ROOTDEV 33 [] sample_cold = Ok i [] s' ∧ k_disk s' = k_disk sample_cold ∧
    holds s' 0 i 33 ∧ b_data (buf_at i s') = st_data (vat sample_cold 33) ∧ bctx [] s' 0 ∧
    vupd sample_cold s' 33 (Bstat (st_refs (vat sample_cold 33) + 1) true (st_data (vat sample_cold 33))).
Proof.
  split; [vm_compute; reflexivity|].
  refine (bread_correct [] sample_cold 0 33 sample_cold_ctx _ _ _).
  - vm_compute. reflexivity.
  - vm_compute. reflexivity.
  - right. exists []. split; [|vm_compute; lia]. intros b' Hb. rewrite sample_cold_view in Hb. by destruct Hb.
Defined.

(** C31: replacement is least-recently-used.  A block that is not cached takes the
    buffer that was released longest ago among those not in use, and [bread]
    panics when there is none; giving up the last reference to a buffer moves it
    to the most-recently-used end. *)
Theorem cache_lru `{Patience} h s me o b :
  bctx h s me → ring (k_bcache s) o → st_refs (vat s b) + 1 < 2 ^ 32 →
  (bsel (k_bcache s) b = None →
   match lru (k_bcache s) o with
   | Some i => ∃ s', bread ROOTDEV b h s = Ok i h s'
   | None => bread ROOTDEV b h s = Panic "bget: no buffers"
   end) ∧
  (∀ i, holds s me i b → st_refs (vat s b) = 1 → st_data (vat s b) = d_read (k_disk s) b →
   ∃ s', brelse i h s = Ok tt h s' ∧ ring (k_bcache s') (i :: filter (λ j, j ≠ i) o)).
Proof.
  intros C Ho Hr. split.
  - intros Hs. destruct (lru (k_bcache s) o) as [i|] eqn:Hl; [|by apply (bget_no_buffers h s me o)].
    destruct (bread_ok h s me C b) as (j & s' & E & _); [by rewrite (vat_None _ _ Hs)|done| |].
    { right. by apply (lru_room h s me o i). }
    exists s'. unfold bread in E. pose proof E as (j' & h1 & s1 & Eg & E2)%bind_Ok_inv.
    pose proof (bget_victim h s me o b j' h1 s1 C Ho Hs Eg) as Hv. rewrite Hl in Hv. injection Hv as <-.
    apply bind_Ok_inv in E2 as (x & h2 & s2 & _ & E2). apply bind_Ok_inv in E2 as (? & h3 & s3 & _ & E3).
    apply Ok_inj in E3 as (-> & _). done.
  - intros i Hi E1 Hc. destruct (brelse_full h s me i b C Hi (λ _, Hc)) as (s' & E & _ & _ & Hring).
    exists s'. split; [done|]. specialize (Hring o Ho). by rewrite E1 in Hring.
Qed.

(** The buffer of block 33, just read. *)
Definition sample_read : kernel := kfinal sample_cold (bread ROOTDEV 33 [] sample_cold).
Definition sample_read_order : list nat := walk_next HEAD (k_bcache sample_read) HEAD.

Lemma cache_lru_witness :
  lru (k_bcache sample_read) sample_read_order = Some 1%nat ∧
  (bsel (k_bcache sample_read) 34 = None →
   match lru (k_bcache sample_read) sample_read_order with
   | Some i => ∃ s', bread ROOTDEV 34 [] sample_read = Ok i [] s'
   | None => bread ROOTDEV 34 [] sample_read = Panic "bget: no buffers"
   end) ∧
  (∀ i, holds sample_read 0 i 34 → st_refs (vat sample_read 34) = 1 →
   st_data (vat sample_read 34) = d_read (k_disk sample_read) 34 →
   ∃ s', brelse i [] sample_read = Ok tt [] s' ∧
     ring (k_bcache s') (i :: filter (λ j, j ≠ i) sample_read_order)).
Proof.
  split; [vm_compute; reflexivity|].
  assert (bctx [] sample_read 0) as H1 by (apply bctx_check; vm_compute; reflexivity || lia).
  assert (ring (k_bcache sample_read) sample_read_order) as H2.
  { apply (bufs_check_sound _ (k_disk sample_read)); [vm_compute; reflexivity|].
    apply disk_check_sound. vm_compute. reflexivity. }
  assert (st_refs (vat sample_read 34) + 1 < 2 ^ 32) as H3 by (vm_compute; reflexivity).
  pose proof (cache_lru [] sample_read 0 sample_read_order 34 H1 H2 H3) as P. exact P.
Defined.
