(* ===== verification/RingBuf.v ===== *)
(** * Ring buffers with free-running counters

    The pipe, the serial port and the console keep bytes in an array of [size]
    elements with a read and a write counter that wrap around modulo [M]; byte
    [k] of the stream is stored at [k % size].  [rb] is the list of the buffered
    bytes; storing a byte and advancing the write counter appends to it, advancing
    the read counter removes its head. *)

From S2P Require Import Prelude.

Definition rb_len (M r w : Z) : Z := (w - r) mod M.
Definition rb (size M r w : Z) (buf : list Z) : list Z :=
  (λ j, nthZ buf ((r + Z.of_nat j) mod size)) <$> seq 0 (Z.to_nat (rb_len M r w)).

Section Ring.
Context (size M : Z) (Hsize : 0 < size < M) (HM : (size | M)).

Lemma mod_mod_size x : (x mod M) mod size = x mod size.
Proof.
  destruct HM as [q Hq]. rewrite (Z.div_mod x M) at 2 by lia. rewrite Hq at 2.
  replace (q * size * (x / M) + x mod M) with (x mod M + (q * (x / M)) * size) by ring.
  by rewrite Z.mod_add by lia.
Qed.

Lemma rb_len_range r w : 0 ≤ rb_len M r w < M.
Proof. apply Z.mod_pos_bound. lia. Qed.

Lemma length_rb r w buf : Z.of_nat (length (rb size M r w buf)) = rb_len M r w.
Proof. unfold rb. rewrite length_fmap, length_seq. pose proof (rb_len_range r w). lia. Qed.

(** The tests of the code. *)
Lemma rb_empty r w : 0 ≤ r < M → 0 ≤ w < M → (r =? w) = (rb_len M r w =? 0).
Proof.
  intros Hr Hw. unfold rb_len. destruct (Z.eqb_spec r w) as [->|Hne].
  - by rewrite Z.sub_diag, Zmod_0_l.
  - symmetry. apply Z.eqb_neq. destruct (decide (r ≤ w)).
    + rewrite Z.mod_small; lia.
    + rewrite <- (Z.mod_unique (w - r) M (-1) (w - r + M)); lia.
Qed.

Lemma rb_full r w :
  0 ≤ w < M → (w =? (r + size) mod M) = (rb_len M r w =? size).
Proof.
  intros Hw. unfold rb_len. destruct (Z.eqb_spec w ((r + size) mod M)) as [E|Hne].
  - symmetry. apply Z.eqb_eq. rewrite E, Zminus_mod_idemp_l.
    replace (r + size - r) with size by lia. apply Z.mod_small. lia.
  - symmetry. apply Z.eqb_neq. intros E. apply Hne. rewrite <- E.
    rewrite Zplus_mod_idemp_r. replace (r + (w - r)) with w by lia. by rewrite Z.mod_small.
Qed.

Lemma rb_len_push r w : rb_len M r w < M - 1 → rb_len M r ((w + 1) mod M) = rb_len M r w + 1.
Proof.
  intros Hl. unfold rb_len in *. rewrite Zminus_mod_idemp_l.
  replace (w + 1 - r) with ((w - r) + 1) by lia. rewrite <- Zplus_mod_idemp_l.
  apply Z.mod_small. pose proof (Z.mod_pos_bound (w - r) M). lia.
Qed.

Lemma rb_len_pop r w : 0 < rb_len M r w → rb_len M ((r + 1) mod M) w = rb_len M r w - 1.
Proof.
  intros Hl. unfold rb_len in *. rewrite Zminus_mod_idemp_r.
  replace (w - (r + 1)) with ((w - r) - 1) by lia. rewrite <- Zminus_mod_idemp_l.
  apply Z.mod_small. pose proof (Z.mod_pos_bound (w - r) M). lia.
Qed.

(** Distinct positions of a buffer that is not full are distinct elements. *)
Lemma rb_index r w (j : nat) :
  Z.of_nat j < rb_len M r w → rb_len M r w < size → (r + Z.of_nat j) mod size ≠ w mod size.
Proof.
  intros Hj Hl E. unfold rb_len in *.
  assert ((w - (r + Z.of_nat j)) mod size = 0) as E2.
  { rewrite Zminus_mod, E, Z.sub_diag. apply Zmod_0_l. }
  assert (((w - r) mod M - Z.of_nat j) mod size = 0) as E3.
  { rewrite <- E2. rewrite Zminus_mod, mod_mod_size, <- Zminus_mod. f_equal. lia. }
  rewrite Z.mod_small in E3 by lia. lia.
Qed.

Lemma rb_push r w c buf :
  Z.of_nat (length buf) = size → rb_len M r w < size →
  rb size M r ((w + 1) mod M) (<[Z.to_nat (w mod size) := c]> buf) = rb size M r w buf ++ [c].
Proof.
  intros Hb Hl. pose proof (rb_len_range r w) as Hn. pose proof (Z.mod_pos_bound w size).
  unfold rb. rewrite rb_len_push by lia. rewrite Z2Nat.inj_add by lia. rewrite seq_app, fmap_app. f_equal.
  - apply list_fmap_ext. intros k j Hj. apply lookup_seq in Hj as [-> Hk]. simpl.
    pose proof (rb_index r w k ltac:(lia) Hl) as Hne. pose proof (Z.mod_pos_bound (r + Z.of_nat k) size).
    unfold nthZ. rewrite !nth_lookup. rewrite list_lookup_insert_ne; [done|]. lia.
  - simpl. f_equal. rewrite Z2Nat.id by lia.
    assert ((r + rb_len M r w) mod size = w mod size) as ->.
    { unfold rb_len. rewrite <- mod_mod_size, Zplus_mod_idemp_r, mod_mod_size. f_equal. lia. }
    apply nthZ_lookup. apply list_lookup_insert_eq. lia.
Qed.

Lemma rb_pop r w buf :
  0 < rb_len M r w →
  rb size M r w buf = nthZ buf (r mod size) :: rb size M ((r + 1) mod M) w buf.
Proof.
  intros Hl. unfold rb. rewrite rb_len_pop by lia.
  replace (Z.to_nat (rb_len M r w)) with (S (Z.to_nat (rb_len M r w - 1))) by lia.
  cbn [seq fmap list_fmap]. f_equal; [by rewrite Z.add_0_r|].
  rewrite <- fmap_S_seq, <- list_fmap_compose. apply list_fmap_ext. intros k j Hj. simpl.
  f_equal. rewrite <- (Zplus_mod_idemp_l ((r + 1) mod M)), mod_mod_size, Zplus_mod_idemp_l. f_equal. lia.
Qed.

(** A third counter between or after the two. *)
Lemma rb_len_add r w e :
  rb_len M r w + rb_len M w e < M → rb_len M r e = rb_len M r w + rb_len M w e.
Proof.
  intros Hl. unfold rb_len in *. replace (e - r) with ((w - r) + (e - w)) by lia.
  rewrite Zplus_mod. apply Z.mod_small. pose proof (Z.mod_pos_bound (w - r) M).
  pose proof (Z.mod_pos_bound (e - w) M). lia.
Qed.

Lemma rb_insert_other r w e c buf :
  rb_len M r w + rb_len M w e < size →
  rb size M r w (<[Z.to_nat (e mod size) := c]> buf) = rb size M r w buf.
Proof.
  intros Hl. pose proof (rb_len_range w e). pose proof (rb_len_range r w).
  unfold rb. apply list_fmap_ext. intros k j Hj. apply lookup_seq in Hj as [-> Hk]. simpl.
  pose proof (rb_len_add r w e ltac:(lia)) as Ha.
  pose proof (rb_index r e k ltac:(lia) ltac:(lia)) as Hne.
  pose proof (Z.mod_pos_bound (r + Z.of_nat k) size). pose proof (Z.mod_pos_bound e size).
  unfold nthZ. rewrite !nth_lookup. rewrite list_lookup_insert_ne; [done|]. lia.
Qed.

Lemma rb_app r w e buf :
  rb_len M r w + rb_len M w e < M →
  rb size M r e buf = rb size M r w buf ++ rb size M w e buf.
Proof.
  intros Hl. pose proof (rb_len_range w e). pose proof (rb_len_range r w).
  unfold rb. rewrite (rb_len_add r w e) by done. rewrite Z2Nat.inj_add by lia. rewrite seq_app, fmap_app. f_equal.
  rewrite Nat.add_0_l, <- (Nat.add_0_r (Z.to_nat (rb_len M r w))), <- fmap_add_seq, <- list_fmap_compose.
  apply list_fmap_ext. intros k j _. simpl. f_equal. rewrite Nat2Z.inj_add, Z2Nat.id by lia.
  unfold rb_len. rewrite <- mod_mod_size.
  replace (r + ((w - r) mod M + Z.of_nat j)) with ((r + Z.of_nat j) + (w - r) mod M) by lia.
  rewrite Zplus_mod_idemp_r, mod_mod_size. f_equal. lia.
Qed.

Lemma rb_len_unpush r w : 0 < rb_len M r w → rb_len M r ((w - 1) mod M) = rb_len M r w - 1.
Proof.
  intros Hl. unfold rb_len in *. rewrite Zminus_mod_idemp_l.
  replace (w - 1 - r) with ((w - r) - 1) by lia. rewrite <- Zminus_mod_idemp_l.
  apply Z.mod_small. pose proof (Z.mod_pos_bound (w - r) M). lia.
Qed.

Lemma rb_unpush r w buf :
  0 < rb_len M r w →
  rb size M r w buf = rb size M r ((w - 1) mod M) buf ++ [nthZ buf ((w - 1) mod M mod size)].
Proof.
  intros Hl. unfold rb. rewrite rb_len_unpush by done.
  replace (Z.to_nat (rb_len M r w)) with (Z.to_nat (rb_len M r w - 1) + 1)%nat by lia.
  rewrite seq_app, fmap_app. f_equal. simpl. do 2 f_equal. rewrite Z2Nat.id by lia.
  unfold rb_len. rewrite mod_mod_size. replace (r + ((w - r) mod M - 1)) with ((r - 1) + (w - r) mod M) by lia.
  rewrite <- mod_mod_size, Zplus_mod_idemp_r, mod_mod_size. f_equal. lia.
Qed.
End Ring.
