(* ===== verification/Uart.v ===== *)
(** * The serial port driver (kernel/uart.c)

    The device accepts one byte at a time in its transmit holding register and is
    busy until it has sent it.  The driver keeps bytes waiting to be sent in a
    ring buffer: [uartputc] adds to it and sleeps while it is full, [uartstart],
    called by [uartputc] and by the interrupt handler, moves bytes to the device.

    [panicked] is only set by [panic], after which no modelled code runs. *)

From S2P Require Import Prelude CString Riscv Kalloc Kernel Sched Bio Sample RingBuf.

(** ** The device *)

Definition RHR : Z := 0.
Definition THR : Z := 0.
Definition IER : Z := 1.
Definition IER_RX_ENABLE : Z := Z.shiftl 1 0.
Definition IER_TX_ENABLE : Z := Z.shiftl 1 1.
Definition FCR : Z := 2.
Definition FCR_FIFO_ENABLE : Z := Z.shiftl 1 0.
Definition FCR_FIFO_CLEAR : Z := Z.shiftl 3 1.
Definition LCR : Z := 3.
Definition LCR_EIGHT_BITS : Z := Z.shiftl 3 0.
Definition LCR_BAUD_LATCH : Z := Z.shiftl 1 7.
Definition LSR : Z := 5.
Definition LSR_RX_READY : Z := Z.shiftl 1 0.
Definition LSR_TX_IDLE : Z := Z.shiftl 1 5.
Definition UART_TX_BUF_SIZE : Z := 32.

(** Reading the line status, and taking a byte from the receive register. *)
Definition read_lsr (u : uart_t) : Z :=
  Z.lor (match u_in u with [] => 0 | _ => LSR_RX_READY end) (if u_busy u then 0 else LSR_TX_IDLE).
Definition read_rhr (u : uart_t) : Z * uart_t := (default 0 (head (u_in u)), u <| u_in ::= tail |>).

Definition WriteReg (reg v : Z) (u : uart_t) : uart_t :=
  let latch := has (u_lcr u) LCR_BAUD_LATCH in
  if reg =? 0 then
    if latch then u <| u_dll := v |> else u <| u_out ::= λ l, l ++ [u8 v] |> <| u_busy := true |>
  else if reg =? 1 then if latch then u <| u_dlm := v |> else u <| u_ier := v |>
  else if reg =? 2 then u <| u_fcr := v |>
  else if reg =? 3 then u <| u_lcr := v |>
  else u.

(** The device has sent the byte. *)
Definition uart_sent (u : uart_t) : uart_t := u <| u_busy := false |>.

Definition upduart (f : uart_t → uart_t) : KM unit := modify (λ s, s <| k_uart ::= f |>).

(** ** The driver *)

Definition uartinit : KM unit :=
  upduart (WriteReg IER 0);;
  upduart (WriteReg LCR LCR_BAUD_LATCH);;
  upduart (WriteReg 0 0x03);;
  upduart (WriteReg 1 0x00);;
  upduart (WriteReg LCR LCR_EIGHT_BITS);;
  upduart (WriteReg FCR (Z.lor FCR_FIFO_ENABLE FCR_FIFO_CLEAR));;
  upduart (WriteReg IER (Z.lor IER_TX_ENABLE IER_RX_ENABLE));;
  initlock L_uart_tx.

(** [while(1)]: every round that does not return advances [uart_tx_r], so the
    number of buffered bytes bounds the rounds. *)
Fixpoint uartstart_loop (fuel : nat) : KM unit :=
  u ← gets k_uart;
  if u_tx_w u =? u_tx_r u then mret tt else
  if negb (has (read_lsr u) LSR_TX_IDLE) then mret tt else
  match fuel with
  | O => nofuel
  | S fuel =>
      let c := nthZ (u_tx_buf u) (u_tx_r u mod UART_TX_BUF_SIZE) in
      upduart (λ u, u <| u_tx_r ::= λ r, u64 (r + 1) |>);;
      wakeup Ch_uart;;
      upduart (WriteReg THR c);;
      uartstart_loop fuel
  end.

Definition uartstart : KM unit := uartstart_loop (Z.to_nat UART_TX_BUF_SIZE).

(** [while(uart_tx_w == uart_tx_r + UART_TX_BUF_SIZE) sleep(&uart_tx_r, &uart_tx_lock);] *)
Fixpoint uartputc_wait (n : nat) : KM unit :=
  u ← gets k_uart;
  if u_tx_w u =? u64 (u_tx_r u + UART_TX_BUF_SIZE) then
    match n with
    | O => nofuel
    | S n => sleep Ch_uart L_uart_tx;; uartputc_wait n
    end
  else mret tt.

Definition uartputc `{Patience} (c : Z) : KM unit :=
  acquire L_uart_tx;;
  uartputc_wait patience;;
  upduart (λ u, u <| u_tx_buf ::= <[Z.to_nat (u_tx_w u mod UART_TX_BUF_SIZE) := u8 c]> |>);;
  upduart (λ u, u <| u_tx_w ::= λ w, u64 (w + 1) |>);;
  uartstart;;
  release L_uart_tx.

(** The polling loop ends when the device has sent its byte. *)
Definition uartputc_sync (c : Z) : KM unit :=
  upduart uart_sent;;
  upduart (WriteReg THR c).

Definition uartgetc : KM Z :=
  u ← gets k_uart;
  if negb (Z.land (read_lsr u) 0x01 =? 0) then
    upduart (λ u, snd (read_rhr u));;
    mret (fst (read_rhr u))
  else mret (-1).

(** ** The stream of bytes *)

Definition pending (u : uart_t) : list Z := rb UART_TX_BUF_SIZE (2 ^ 64) (u_tx_r u) (u_tx_w u) (u_tx_buf u).

(** Everything given to the driver, sent or not. *)
Definition stream (u : uart_t) : list Z := u_out u ++ pending u.

Record uart_ok (u : uart_t) : Prop := {
  uo_buf : Z.of_nat (length (u_tx_buf u)) = UART_TX_BUF_SIZE;
  uo_w : 0 ≤ u_tx_w u < 2 ^ 64;
  uo_r : 0 ≤ u_tx_r u < 2 ^ 64;
  uo_len : rb_len (2 ^ 64) (u_tx_r u) (u_tx_w u) ≤ UART_TX_BUF_SIZE;
  uo_byte : Forall (λ c, 0 ≤ c < 256) (u_tx_buf u);
  uo_latch : has (u_lcr u) LCR_BAUD_LATCH = false;
}.

Lemma uart_sizes : 0 < UART_TX_BUF_SIZE < 2 ^ 64 ∧ (UART_TX_BUF_SIZE | 2 ^ 64).
Proof. split; [unfold UART_TX_BUF_SIZE; lia|]. exists (2 ^ 59). reflexivity. Qed.

Lemma lsr_idle u : has (read_lsr u) LSR_TX_IDLE = negb (u_busy u).
Proof. unfold read_lsr. by destruct (u_in u), (u_busy u). Qed.

Lemma uart_empty u : uart_ok u → (u_tx_w u =? u_tx_r u) = (rb_len (2 ^ 64) (u_tx_r u) (u_tx_w u) =? 0).
Proof.
  intros [_ Hw Hr _ _ _]. rewrite Z.eqb_sym. by apply rb_empty.
Qed.

Lemma bind_upduart {A} f (k : unit → KM A) h s :
  (upduart f ≫= k) h s = k tt h (s <| k_uart ::= f |>).
Proof. done. Qed.

(** A change of the serial port and of sleeping processes only. *)
Record uframe (me : option nat) (s s' : kernel) : Prop := {
  uf_eq : s' = s <| k_procs := k_procs s' |> <| k_uart := k_uart s' |>;
  uf_len : length (k_procs s') = length (k_procs s);
}.

(** The caller can call [wakeup]. *)
Definition can_wake (h : list lockid) (s : kernel) : Prop :=
  no_proc_locks (k_cur s) h ∧ length (k_procs s) = Z.to_nat NPROC.

Lemma uart_step h s :
  can_wake h s → uart_ok (k_uart s) → u_busy (k_uart s) = false →
  u_tx_w (k_uart s) ≠ u_tx_r (k_uart s) →
  ∃ s', (∀ n, uartstart_loop (S n) h s = uartstart_loop n h s') ∧ uframe (k_cur s) s s' ∧
    uart_ok (k_uart s') ∧ stream (k_uart s') = stream (k_uart s) ∧ u_busy (k_uart s') = true.
Proof.
  intros [Hp Hl] Hok Hb Hne. destruct uart_sizes as [Hs Hd].
  set (c := nthZ (u_tx_buf (k_uart s)) (u_tx_r (k_uart s) mod UART_TX_BUF_SIZE)).
  set (s1 := s <| k_uart ::= λ u, u <| u_tx_r ::= λ r, u64 (r + 1) |> |>).
  set (s2 := s1 <| k_procs ::= imap (wake (k_cur s1) Ch_uart) |>).
  set (s3 := s2 <| k_uart ::= WriteReg THR c |>).
  pose proof (uart_empty _ Hok) as He. rewrite (proj2 (Z.eqb_neq _ _) Hne) in He. symmetry in He.
  apply Z.eqb_neq in He. destruct Hok as [O1 O2 O3 O4 O5 O6].
  pose proof (rb_len_range UART_TX_BUF_SIZE (2 ^ 64) Hs (u_tx_r (k_uart s)) (u_tx_w (k_uart s))) as Hrange.
  assert (0 ≤ c < 256) as Hc.
  { unfold c, nthZ. rewrite nth_lookup. rewrite Forall_forall in O5.
    destruct (_ !! _) as [x|] eqn:E; simpl; [|lia]. apply O5. by eapply list_elem_of_lookup_2. }
  assert (k_uart s3 = (k_uart s) <| u_tx_r := u64 (u_tx_r (k_uart s) + 1) |>
    <| u_out := u_out (k_uart s) ++ [u8 c] |> <| u_busy := true |>) as E3.
  { unfold s3, s2, s1. unfold WriteReg. simpl. rewrite O6. done. }
  exists s3. split_and!.
  - intros n. cbn [uartstart_loop]. rewrite bind_gets, (proj2 (Z.eqb_neq _ _) Hne), lsr_idle, Hb. cbn [negb].
    cbv zeta. fold c. rewrite bind_upduart. fold s1.
    erewrite bind_Ok by (by apply wakeup_run). fold s2. by rewrite bind_upduart.
  - split; [by destruct s|]. unfold s3, s2, s1. simpl. by rewrite length_imap.
  - rewrite E3. split; simpl; try done.
    + apply u64_range.
    + unfold u64. rewrite (rb_len_pop UART_TX_BUF_SIZE) by (done || lia). lia.
  - rewrite E3. unfold stream, pending. simpl. unfold u64.
    rewrite (rb_pop UART_TX_BUF_SIZE (2 ^ 64) Hs Hd (u_tx_r (k_uart s))) by lia.
    fold c. by rewrite <- app_assoc, u8_small.
  - by rewrite E3.
Qed.

(** [uartstart] sends what it can: afterwards the buffer is empty or the device is
    busy, and no byte is lost, duplicated or reordered. *)
Lemma uartstart_run h s :
  can_wake h s → uart_ok (k_uart s) →
  ∃ s', uartstart h s = Ok tt h s' ∧ uframe (k_cur s) s s' ∧ uart_ok (k_uart s') ∧
    stream (k_uart s') = stream (k_uart s) ∧
    (pending (k_uart s') = [] ∨ u_busy (k_uart s') = true).
Proof.
  intros Hw Hok. unfold uartstart. change (Z.to_nat UART_TX_BUF_SIZE) with (S (S 30)).
  destruct (decide (u_tx_w (k_uart s) = u_tx_r (k_uart s))) as [E|Hne].
  - exists s. split_and!; [|split; [by destruct s|done]|done|done|].
    + cbn [uartstart_loop]. rewrite bind_gets. by rewrite (proj2 (Z.eqb_eq _ _) E).
    + left. unfold pending, rb, rb_len. by rewrite E, Z.sub_diag.
  - destruct (u_busy (k_uart s)) eqn:Hb.
    + exists s. split_and!; [|split; [by destruct s|done]|done|done|by right].
      cbn [uartstart_loop]. rewrite bind_gets, (proj2 (Z.eqb_neq _ _) Hne), lsr_idle, Hb. done.
    + destruct (uart_step h s Hw Hok Hb Hne) as (s' & E & F & O & S & B).
      exists s'. split_and!; [|done|done|done|by right]. rewrite E. cbn [uartstart_loop].
      rewrite bind_gets. case_match; [done|]. by rewrite lsr_idle, B.
Qed.

(** ** Properties *)

(** Output through the serial port is first in, first out.  With room in the
    buffer [uartputc] appends its byte to the stream of bytes given to the driver
    and leaves the device busy or the buffer empty; with a full buffer it sleeps,
    and when it is woken up it behaves as if it had been called in the state in
    which it is resumed. *)
Theorem uartputc_fifo n c s me :
  k_cur s = Some me → (me < Z.to_nat NPROC)%nat → length (k_procs s) = Z.to_nat NPROC →
  uart_ok (k_uart s) →
  if rb_len (2 ^ 64) (u_tx_r (k_uart s)) (u_tx_w (k_uart s)) =? UART_TX_BUF_SIZE then
    @uartputc (S n) c [] s =
    Block [L_proc me] (asleep Ch_uart me s) (λ s', @uartputc n c [] (awoken me s'))
  else
    ∃ s', @uartputc n c [] s = Ok tt [] s' ∧ uart_ok (k_uart s') ∧
      stream (k_uart s') = stream (k_uart s) ++ [u8 c] ∧
      (pending (k_uart s') = [] ∨ u_busy (k_uart s') = true).
Proof.
  intros Hc Hm Hl Hok. destruct uart_sizes as [Hs Hd].
  assert ((u_tx_w (k_uart s) =? u64 (u_tx_r (k_uart s) + UART_TX_BUF_SIZE)) =
    (rb_len (2 ^ 64) (u_tx_r (k_uart s)) (u_tx_w (k_uart s)) =? UART_TX_BUF_SIZE)) as Hfull
    by (apply rb_full; [done|apply Hok]).
  destruct (Z.eqb_spec (rb_len (2 ^ 64) (u_tx_r (k_uart s)) (u_tx_w (k_uart s))) UART_TX_BUF_SIZE) as [E|E].
  - unfold uartputc at 1. rewrite bind_acquire by apply not_elem_of_nil.
    unfold patience. cbn [uartputc_wait]. rewrite bind_assoc, bind_gets, Hfull, bind_assoc.
    rewrite (sleep_bind _ _ _ me) by (done || lia). by f_equal.
  - set (s1 := s <| k_uart ::= λ u, u <| u_tx_buf ::= <[Z.to_nat (u_tx_w u mod UART_TX_BUF_SIZE) := u8 c]> |> |>
      <| k_uart ::= λ u, u <| u_tx_w ::= λ w, u64 (w + 1) |> |>).
    assert (stream (k_uart s1) = stream (k_uart s) ++ [u8 c]) as Hst.
    { unfold stream, pending, s1. simpl. rewrite <- app_assoc. f_equal. unfold u64.
      apply rb_push; [done|done|apply Hok|]. pose proof (uo_len _ Hok). lia. }
    assert (uart_ok (k_uart s1)) as Hok1.
    { destruct Hok as [O1 O2 O3 O4 O5 O6]. unfold s1. split; simpl; try done.
      - by rewrite length_insert.
      - apply u64_range.
      - unfold u64. rewrite (rb_len_push UART_TX_BUF_SIZE) by (unfold UART_TX_BUF_SIZE in *; lia). lia.
      - apply Forall_insert; [done|apply u8_range]. }
    destruct (uartstart_run [L_uart_tx] s1) as (s2 & E2 & F2 & O2 & S2 & P2); [|done|].
    { split; [|done]. intros i _ [?|?%not_elem_of_nil]%elem_of_cons; done. }
    exists s2. split_and!; [|done|congruence|done].
    unfold uartputc. rewrite bind_acquire by apply not_elem_of_nil.
    assert (uartputc_wait n [L_uart_tx] s = Ok tt [L_uart_tx] s) as Ew
      by (destruct n; cbn [uartputc_wait]; by rewrite bind_gets, Hfull).
    unfold patience. erewrite bind_Ok by exact Ew.
    rewrite !bind_upduart. fold s1. erewrite bind_Ok by exact E2. apply release_acquired, not_elem_of_nil.
Qed.

(** A booted kernel in which a byte has been printed: the device is busy and 31
    more bytes wait. *)
Definition sample_uart : kernel :=
  let s := running (Machine 0 ∅ 0) (Disk ∅ []) in
  s <| k_uart := Uart (replicate 32 65) 31 0 true [64] [] 3 7 3 3 0 |>.

Lemma uartputc_fifo_witness :
  rb_len (2 ^ 64) (u_tx_r (k_uart sample_uart)) (u_tx_w (k_uart sample_uart)) = 31 ∧
  ∃ s', @uartputc 0%nat 66 [] sample_uart = Ok tt [] s' ∧ uart_ok (k_uart s') ∧
    stream (k_uart s') = stream (k_uart sample_uart) ++ [u8 66] ∧
    (pending (k_uart s') = [] ∨ u_busy (k_uart s') = true).
Proof.
  split; [vm_compute; reflexivity|].
  assert (uart_ok (k_uart sample_uart)) as Hok.
  { split; simpl; try (split; lia || reflexivity); try reflexivity; [vm_compute; discriminate|].
    repeat (constructor; [lia|]). constructor. }
  pose proof (uartputc_fifo 0 66 sample_uart 0 eq_refl) as P.
  specialize (P ltac:(apply Nat.ltb_lt; vm_compute; reflexivity) ltac:(vm_compute; reflexivity) Hok).
  exact P.
Defined.
