(* ===== verification/Printf.v ===== *)
(** * Formatted output to the console (kernel/printf.c, consputc of console.c)

    Characters are byte values.  The arguments of [printf] after the format are a
    list; taking an argument of another type, or past the end of the list, is
    undefined in C.  [panic] is the outcome [Panic] of Prelude.v: it does not
    return, and the text it prints is the message of the outcome. *)

From S2P Require Import Prelude CString Riscv Kalloc Kernel Sched Bytes Sample RingBuf Uart.

Definition BACKSPACE : Z := 0x100.

Definition consputc (c : Z) : KM unit :=
  if c =? BACKSPACE then uartputc_sync 8;; uartputc_sync 32;; uartputc_sync 8
  else uartputc_sync c.

Fixpoint consputs (l : list Z) : KM unit :=
  match l with
  | [] => mret tt
  | c :: l => consputc c;; consputs l
  end.

(** digits[] *)
Definition digit (d : Z) : Z := if d <? 10 then 48 + d else 97 + (d - 10).

(** [do { buf[i++] = digits[x % base]; } while((x /= base) != 0);], least
    significant digit first.  A [uint] has at most 32 digits. *)
Fixpoint printint_loop (fuel : nat) (x base : Z) : list Z :=
  match fuel with
  | O => []
  | S fuel =>
      digit (x mod base) ::
      (if x / base =? 0 then [] else printint_loop fuel (x / base) base)
  end.

Definition printint (xx base : Z) (sign : bool) : KM unit :=
  let neg := sign && (xx <? 0) in
  let x := if neg then u32 (- xx) else u32 xx in
  let buf := printint_loop 32 x base ++ (if neg then [45] else []) in
  consputs (reverse buf).

(** [for (i = 0; i < 16; i++, x <<= 4) consputc(digits[x >> 60]);] *)
Fixpoint printptr_loop (n : nat) (x : Z) : KM unit :=
  match n with
  | O => mret tt
  | S n => consputc (digit (Z.shiftr x 60));; printptr_loop n (u64 (Z.shiftl x 4))
  end.

Definition printptr (x : Z) : KM unit :=
  consputc 48;; consputc 120;; printptr_loop 16 x.

Inductive parg : Type := PInt (x : Z) | PPtr (x : Z) | PStr (s : option (list Z)).

Definition bad_va_arg {A} : KM A := panic "va_arg".

(** The loop over the format; [fmt] is the rest of it, without the final NUL. *)
Fixpoint printf_loop (fmt : list Z) (ap : list parg) : KM unit :=
  match fmt with
  | [] => mret tt
  | c :: fmt =>
      if negb (c =? 37) then consputc c;; printf_loop fmt ap else
      match fmt with
      | [] => mret tt
      | c :: fmt =>
          if c =? 100 then      (* 'd' *)
            match ap with
            | PInt x :: ap => printint x 10 true;; printf_loop fmt ap
            | _ => bad_va_arg
            end
          else if c =? 120 then (* 'x' *)
            match ap with
            | PInt x :: ap => printint x 16 true;; printf_loop fmt ap
            | _ => bad_va_arg
            end
          else if c =? 112 then (* 'p' *)
            match ap with
            | PPtr x :: ap => printptr x;; printf_loop fmt ap
            | _ => bad_va_arg
            end
          else if c =? 115 then (* 's' *)
            match ap with
            | PStr s :: ap =>
                consputs (default [40; 110; 117; 108; 108; 41] (cstring <$> s));; printf_loop fmt ap
            | _ => bad_va_arg
            end
          else if c =? 37 then consputc 37;; printf_loop fmt ap
          else consputc 37;; consputc c;; printf_loop fmt ap
      end
  end.

Definition printf (fmt : list Z) (ap : list parg) : KM unit :=
  locking ← gets k_prlocking;
  when locking (acquire L_pr);;
  printf_loop (cstring fmt) ap;;
  when locking (release L_pr).

Definition printfinit : KM unit :=
  initlock L_pr;;
  modify (λ s, s <| k_prlocking := true |>).

(** ** What is printed *)

(** The console after the bytes [l] have been printed. *)
Definition emit (l : list Z) (s : kernel) : kernel :=
  match l with
  | [] => s
  | _ => s <| k_uart ::= λ u, u <| u_busy := true |> <| u_out ::= λ o, o ++ l |> |>
  end.

Definition console_ready (s : kernel) : Prop := has (u_lcr (k_uart s)) LCR_BAUD_LATCH = false.

Lemma emit_app l1 l2 s : emit l2 (emit l1 s) = emit (l1 ++ l2) s.
Proof.
  destruct l1 as [|c l1]; [done|]. destruct l2 as [|d l2]; [by rewrite app_nil_r|].
  unfold emit, upd_field. simpl. by rewrite <- app_assoc.
Qed.

Lemma emit_ready l s : console_ready s → console_ready (emit l s).
Proof. by destruct l. Qed.

Lemma uartputc_sync_run c h s :
  console_ready s → 0 ≤ c < 256 → uartputc_sync c h s = Ok tt h (emit [c] s).
Proof.
  intros Hr Hc. unfold uartputc_sync. rewrite bind_upduart. unfold upduart, modify, emit.
  f_equal. unfold WriteReg, upd_field. simpl. unfold console_ready in Hr. rewrite Hr. simpl.
  by rewrite u8_small.
Qed.

Lemma consputc_run c h s :
  console_ready s → 0 ≤ c < 256 → consputc c h s = Ok tt h (emit [c] s).
Proof.
  intros Hr Hc. unfold consputc. rewrite (proj2 (Z.eqb_neq _ _)) by (unfold BACKSPACE; lia).
  by apply uartputc_sync_run.
Qed.

Lemma consputs_run l h s :
  console_ready s → Forall (λ c, 0 ≤ c < 256) l → consputs l h s = Ok tt h (emit l s).
Proof.
  revert s. induction l as [|c l IH]; intros s Hr Hl; [done|]. apply Forall_cons in Hl as [Hc Hl].
  cbn [consputs]. erewrite bind_Ok by (by apply consputc_run).
  rewrite IH by (done || by apply (emit_ready [c])). by rewrite (emit_app [c]).
Qed.

(** Reading numbers back. *)
Definition digit_val (c : Z) : Z := if c <? 97 then c - 48 else c - 87.
Definition num_val (base : Z) (l : list Z) : Z := foldl (λ a c, base * a + digit_val c) 0 l.
Definition int_val (base : Z) (l : list Z) : Z :=
  match l with
  | c :: l' => if c =? 45 then - num_val base l' else num_val base l
  | [] => 0
  end.

Lemma digit_val_digit d : 0 ≤ d < 16 → digit_val (digit d) = d ∧ 48 ≤ digit d < 103.
Proof.
  intros Hd. unfold digit, digit_val. destruct (Z.ltb_spec d 10); case_match; lia.
Qed.

Lemma printint_loop_spec base fuel : 2 ≤ base ≤ 16 → ∀ x, 0 ≤ x < base ^ Z.of_nat fuel → (0 < fuel)%nat →
  let l := printint_loop fuel x base in
  num_val base (reverse l) = x ∧ Forall (λ c, 48 ≤ c < 103) l ∧ l ≠ [] ∧ (length l ≤ fuel)%nat ∧
  (x = 0 → l = [48]) ∧ (x ≠ 0 → last l ≠ Some 48).
Proof.
  intros Hb. induction fuel as [|fuel IH]; intros x Hx Hf; [lia|]. cbn [printint_loop].
  pose proof (Z.mod_pos_bound x base ltac:(lia)) as Hm.
  destruct (digit_val_digit (x mod base)) as [Hv Hd]; [lia|].
  destruct (Z.eqb_spec (x / base) 0) as [E|E].
  - assert (x < base) as Hlt by (apply Z.div_small_iff in E; lia). rewrite Z.mod_small in * by lia.
    split_and!; [|by constructor|done|simpl; lia|by intros ->|].
    + unfold num_val. simpl. lia.
    + intros Hx0 [= E2]. unfold digit in E2. case_match; lia.
  - assert (0 ≤ x / base < base ^ Z.of_nat fuel) as Hq.
    { split; [apply Z.div_pos; lia|]. apply Z.div_lt_upper_bound; [lia|].
      rewrite Nat2Z.inj_succ, Z.pow_succ_r in Hx by lia. lia. }
    destruct fuel as [|fuel]; [simpl in Hq; lia|].
    destruct (IH (x / base) Hq ltac:(lia)) as (IV & IF & IN & IL & _ & IZ).
    set (l := printint_loop (S fuel) (x / base) base) in *. split_and!.
    + rewrite reverse_cons. unfold num_val. rewrite foldl_app. fold (num_val base (reverse l)). rewrite IV.
      cbn [foldl]. rewrite Hv. pose proof (Z.div_mod x base ltac:(lia)). lia.
    + by constructor.
    + done.
    + clearbody l. rewrite length_cons. clear -IL. lia.
    + intros ->. by rewrite Zdiv_0_l in E.
    + intros _. rewrite last_cons. specialize (IZ E). destruct (last l) eqn:El; [done|].
      by apply last_None in El.
Qed.

Lemma emit_cons_app c l s : emit l (emit [c] s) = emit (c :: l) s.
Proof. exact (emit_app [c] l s). Qed.

(** The text [printint] writes for [xx]. *)
Definition int_text (xx base : Z) : list Z :=
  (if xx <? 0 then [45] else []) ++ reverse (printint_loop 32 (Z.abs xx) base).

Lemma int_text_digits xx base :
  2 ≤ base ≤ 16 → - 2 ^ 31 ≤ xx < 2 ^ 31 →
  let l := printint_loop 32 (Z.abs xx) base in
  num_val base (reverse l) = Z.abs xx ∧ Forall (λ c, 48 ≤ c < 103) l ∧ l ≠ [] ∧ (length l ≤ 32)%nat ∧
  (xx = 0 → l = [48]) ∧ (xx ≠ 0 → last l ≠ Some 48).
Proof.
  intros Hb Hx l. destruct (printint_loop_spec base 32 Hb (Z.abs xx)) as (?&?&?&?&H0&H1).
  - split; [lia|]. apply Z.lt_le_trans with (2 ^ 32); [lia|]. apply Z.pow_le_mono_l. lia.
  - lia.
  - split_and!; try done.
    + intros ->. by apply H0.
    + intros Hn. apply H1. lia.
Qed.

Lemma printint_run xx base h s :
  2 ≤ base ≤ 16 → - 2 ^ 31 ≤ xx < 2 ^ 31 → console_ready s →
  printint xx base true h s = Ok tt h (emit (int_text xx base) s).
Proof.
  intros Hb Hx Hr. destruct (int_text_digits xx base Hb Hx) as (_&HF&_). unfold printint, int_text.
  assert ((if true && (xx <? 0) then u32 (- xx) else u32 xx) = Z.abs xx) as ->.
  { simpl. destruct (Z.ltb_spec xx 0); rewrite u32_small; lia. }
  cbv zeta. rewrite reverse_app. simpl andb.
  replace (reverse (if xx <? 0 then [45] else [])) with (if xx <? 0 then [45] else []) by by case_match.
  apply consputs_run; [done|]. apply Forall_app. split; [case_match; repeat constructor; lia|].
  apply Forall_reverse. eapply Forall_impl; [exact HF|]. simpl. lia.
Qed.

Lemma printint_loop_fuel base fuel k : 2 ≤ base → ∀ x, 0 ≤ x < base ^ Z.of_nat fuel → (0 < fuel)%nat →
  printint_loop (fuel + k) x base = printint_loop fuel x base.
Proof.
  intros Hb. induction fuel as [|fuel IH]; intros x Hx Hf; [lia|]. cbn [Nat.add printint_loop].
  f_equal. destruct (Z.eqb_spec (x / base) 0) as [E|E]; [done|].
  assert (0 ≤ x / base < base ^ Z.of_nat fuel) as Hq.
  { split; [apply Z.div_pos; lia|]. apply Z.div_lt_upper_bound; [lia|].
    rewrite Nat2Z.inj_succ, Z.pow_succ_r in Hx by lia. lia. }
  destruct fuel as [|fuel]; [simpl in Hq; lia|]. apply IH; [done|lia].
Qed.

Lemma length_int_text xx base :
  base = 10 ∨ base = 16 → - 2 ^ 31 ≤ xx < 2 ^ 31 → (length (int_text xx base) ≤ 11)%nat.
Proof.
  intros Hb Hx. assert (0 ≤ Z.abs xx < base ^ Z.of_nat 10) as Hr.
  { split; [lia|]. destruct Hb as [-> | ->]; simpl; lia. }
  destruct (printint_loop_spec base 10 ltac:(lia) (Z.abs xx) Hr ltac:(lia)) as (_&_&_&HL&_).
  unfold int_text. change 32%nat with (10 + 22)%nat. rewrite printint_loop_fuel by (done || lia).
  rewrite length_app, length_reverse. revert HL. generalize (printint_loop 10 (Z.abs xx) base).
  intros l HL. case_match; simpl; lia.
Qed.

(** [printint] prints every [int] in base 10 or 16 as text that reads back as
    the number: an optional sign and at least one digit, with no leading zero
    unless the number is zero.  This includes the smallest [int], whose negation
    is not an [int], and nothing is printed past the 16 bytes of [buf]. *)
Theorem printint_round_trip (xx base : Z) (h : list lockid) (s : kernel) :
  base = 10 ∨ base = 16 → - 2 ^ 31 ≤ xx < 2 ^ 31 → console_ready s →
  ∃ l, printint xx base true h s = Ok tt h (emit l s) ∧ int_val base l = xx ∧
    (length l ≤ 16)%nat ∧ (xx ≠ 0 → head l ≠ Some 48 ∧ l ≠ [45]) ∧ (xx = 0 → l = [48]).
Proof.
  intros Hb Hx Hr. assert (2 ≤ base ≤ 16) as Hb' by lia. exists (int_text xx base).
  split; [by apply printint_run|].
  pose proof (length_int_text xx base Hb Hx) as HL.
  destruct (int_text_digits xx base Hb' Hx) as (HV&HF&HN&_&H0&H1).
  assert (head (reverse (printint_loop 32 (Z.abs xx) base)) = last (printint_loop 32 (Z.abs xx) base)) as HH.
  { by rewrite <- last_reverse, reverse_involutive. }
  unfold int_text in *. set (l := printint_loop 32 (Z.abs xx) base) in *. clearbody l.
  split_and!; [|lia| |].
  - destruct (Z.ltb_spec xx 0); simpl; [lia|]. destruct (reverse l) as [|c l'] eqn:El.
    + unfold num_val in HV. simpl in *. lia.
    + assert (c ∈ l) as Hc by (apply elem_of_reverse; rewrite El; left).
      rewrite Forall_forall in HF. specialize (HF c Hc). simpl in HF. unfold int_val.
      rewrite (proj2 (Z.eqb_neq c 45)) by lia. lia.
  - intros Hn. destruct (Z.ltb_spec xx 0); simpl.
    + split; [done|]. intros [= E]. apply (f_equal reverse) in E. rewrite reverse_involutive in E. done.
    + rewrite HH. split; [by apply H1|]. intros E. rewrite E in HV.
      unfold num_val in HV. cbn [foldl] in HV. change (digit_val 45) with (-3) in HV. lia.
  - intros Hn. rewrite H0 by done. by rewrite Hn.
Qed.

Definition sample_console : kernel := zero_kernel (Machine 0 ∅ 0) (Disk ∅ []).

Lemma printint_round_trip_witness :
  ∃ l, printint (- 2 ^ 31) 10 true [] sample_console = Ok tt [] (emit l sample_console) ∧
    int_val 10 l = - 2 ^ 31 ∧ (length l ≤ 16)%nat ∧ (- 2 ^ 31 ≠ 0 → head l ≠ Some 48 ∧ l ≠ [45]) ∧
    (- 2 ^ 31 = 0 → l = [48]).
Proof.
  assert (console_ready sample_console) as Hr by (vm_compute; reflexivity).
  pose proof (printint_round_trip (- 2 ^ 31) 10 [] sample_console (or_introl eq_refl) ltac:(lia) Hr) as P. exact P.
Defined.
