(* ===== verification/Access.v ===== *)
(** * Copies to and from user memory always return

    Whatever the page table and the address a process passes, [copyin], [copyout]
    and [copyinstr] return: they neither panic nor loop, and they leave the
    locks alone.  This is what the rest of the kernel relies on when it copies
    from an address it got from a process (UserMem.v says what is copied when
    the address space is well formed). *)

From S2P Require Import Prelude CString Riscv Kalloc Vm Kernel Sched.

Lemma walk_loop_total level : ∀ pt va h m, ∃ r, walk_loop level pt va false h m = Ok r h m.
Proof.
  induction level as [|level IH]; intros pt va h m; cbn [walk_loop]; [by eexists|].
  unfold load_pte. cbv zeta. rewrite bind_gets. case_match; [apply IH|]. by eexists.
Qed.

Lemma walkaddr_total pt va h m : ∃ r, walkaddr pt va h m = Ok r h m.
Proof.
  unfold walkaddr. rewrite Z.geb_leb. destruct (Z.leb_spec MAXVA va); [by eexists|].
  destruct (walk_loop_total 2 pt va h m) as [r Hr].
  assert (walk pt va false h m = Ok r h m) as Hw.
  { unfold walk. rewrite Z.geb_leb. by rewrite (proj2 (Z.leb_gt _ _)). }
  erewrite bind_Ok by exact Hw. case_match; [by eexists|]. unfold load_pte. rewrite bind_gets.
  repeat case_match; by eexists.
Qed.

(** The bytes a round of the copy loops moves, and the progress it makes. *)
Lemma copy_step fuel va len (n := PGSIZE - (va - PGROUNDDOWN va)) (n' := if n >? len then len else n) :
  0 < len → len ≤ Z.of_nat fuel * PGSIZE - (va - PGROUNDDOWN va) →
  0 < n' ≤ len ∧ (n' = len ∨
    len - n' ≤ Z.of_nat (Nat.pred fuel) * PGSIZE -
      (u64 (PGROUNDDOWN va + PGSIZE) - PGROUNDDOWN (u64 (PGROUNDDOWN va + PGSIZE)))) ∧ (0 < fuel)%nat.
Proof.
  intros Hl Hf. unfold n', n. rewrite !PGROUNDDOWN_eq in *. unfold PGSIZE in *.
  pose proof (Z.mod_pos_bound va 4096). pose proof (Z.div_mod va 4096).
  destruct fuel as [|fuel]; [lia|]. rewrite Z.gtb_ltb. split; [case_match; lia|]. split; [|lia].
  destruct (Z.ltb_spec len (4096 - (va - va / 4096 * 4096))); [by left|]. right.
  assert (u64 (va / 4096 * 4096 + 4096) / 4096 * 4096 = u64 (va / 4096 * 4096 + 4096)) as ->.
  { unfold u64. assert ((va / 4096 * 4096 + 4096) mod 2 ^ 64 mod 4096 = 0) as E.
    { rewrite Z.mod_mod_divide by (by exists (2 ^ 52)).
      replace (va / 4096 * 4096 + 4096) with ((va / 4096 + 1) * 4096) by lia. apply Z_mod_mult. }
    pose proof (Z.div_mod ((va / 4096 * 4096 + 4096) mod 2 ^ 64) 4096). lia. }
  simpl Nat.pred. lia.
Qed.

Lemma copy_fuel_enough len va : 0 ≤ len → len ≤ Z.of_nat (copy_fuel len) * PGSIZE - (va - PGROUNDDOWN va).
Proof.
  intros Hl. unfold copy_fuel. rewrite PGROUNDDOWN_eq. unfold PGSIZE.
  pose proof (Z.mod_pos_bound va 4096). pose proof (Z.div_mod va 4096).
  pose proof (Z.div_pos len 4096). pose proof (Z.div_mod len 4096). pose proof (Z.mod_pos_bound len 4096). lia.
Qed.

(** Enough fuel for what is left, if anything is left. *)
Definition fuel_ok (fuel : nat) (va len : Z) : Prop :=
  0 < len → len ≤ Z.of_nat fuel * PGSIZE - (va - PGROUNDDOWN va).

Lemma fuel_step fuel va len (n := PGSIZE - (va - PGROUNDDOWN va)) (n' := if n >? len then len else n) :
  0 < len → fuel_ok fuel va len →
  ∃ f, fuel = S f ∧ 0 < n' ≤ len ∧ fuel_ok f (u64 (PGROUNDDOWN va + PGSIZE)) (len - n').
Proof.
  intros Hl Hf. destruct (copy_step fuel va len Hl (Hf Hl)) as (Hn & Hr & Hp).
  destruct fuel as [|f]; [lia|]. exists f. split_and!; [done|apply Hn..|].
  intros H0. destruct Hr as [Hr|Hr]; [|exact Hr]. unfold n', n in *. lia.
Qed.

Ltac returns := do 2 eexists; split; [reflexivity|auto].

Section Total.
Context (pt : Z) (h : list lockid).

Lemma copyout_loop_total fuel : ∀ va src len m, fuel_ok fuel va len →
  ∃ r m', copyout_loop fuel pt va src len h m = Ok r h m' ∧ (r = 0 ∨ r = -1).
Proof.
  induction fuel as [fuel IH] using lt_wf_ind. intros va src len m Hf.
  destruct (Z.ltb_spec 0 len) as [Hl|Hl].
  - destruct (fuel_step _ _ _ Hl Hf) as (f & -> & Hn & Hf').
    cbn [copyout_loop]. rewrite Z.gtb_ltb, (proj2 (Z.ltb_lt 0 len)) by done.
    destruct (walkaddr_total pt (PGROUNDDOWN va) h m) as [r Hr]. cbv zeta.
    erewrite bind_Ok by exact Hr. destruct (r =? 0); [returns|]. rewrite bind_modify. apply IH; [lia|done].
  - destruct fuel; cbn [copyout_loop]; rewrite Z.gtb_ltb, (proj2 (Z.ltb_ge 0 len)) by done; returns.
Qed.

Lemma copyin_loop_total fuel : ∀ va dst len m, fuel_ok fuel va len →
  ∃ r l, copyin_loop fuel pt dst va len h m = Ok (r, dst ++ l) h m ∧
    (r = 0 ∧ Z.of_nat (length l) = Z.max 0 len ∨ r = -1 ∧ Z.of_nat (length l) < len).
Proof.
  induction fuel as [fuel IH] using lt_wf_ind. intros va dst len m Hf.
  destruct (Z.ltb_spec 0 len) as [Hl|Hl].
  - destruct (fuel_step _ _ _ Hl Hf) as (f & -> & Hn & Hf').
    cbn [copyin_loop]. rewrite Z.gtb_ltb, (proj2 (Z.ltb_lt 0 len)) by done.
    destruct (walkaddr_total pt (PGROUNDDOWN va) h m) as [r Hr]. cbv zeta.
    erewrite bind_Ok by exact Hr. destruct (r =? 0).
    { eexists (-1), []. rewrite app_nil_r. split; [done|]. right. simpl. lia. }
    rewrite bind_gets. set (l1 := load_bytes _ _ _).
    assert (length l1 = Z.to_nat (if PGSIZE - (va - PGROUNDDOWN va) >? len then len else PGSIZE - (va - PGROUNDDOWN va))) as Hl1
      by apply length_load_bytes.
    destruct (IH f ltac:(lia) _ (dst ++ l1) _ m Hf') as (r' & l & E & HR).
    exists r', (l1 ++ l). rewrite app_assoc. split; [exact E|]. rewrite length_app. clearbody l1. lia.
  - exists 0, []. rewrite app_nil_r. split; [|left; simpl; lia].
    destruct fuel; cbn [copyin_loop]; by rewrite Z.gtb_ltb, (proj2 (Z.ltb_ge 0 len)).
Qed.

Lemma copyinstr_loop_total fuel : ∀ va dst len m, fuel_ok fuel va len →
  ∃ r l, copyinstr_loop fuel pt dst va len h m = Ok (r, l) h m ∧ (r = 0 ∨ r = -1).
Proof.
  induction fuel as [fuel IH] using lt_wf_ind. intros va dst len m Hf.
  destruct (Z.ltb_spec 0 len) as [Hl|Hl].
  - destruct (fuel_step _ _ _ Hl Hf) as (f & -> & Hn & Hf').
    cbn [copyinstr_loop]. rewrite Z.gtb_ltb, (proj2 (Z.ltb_lt 0 len)) by done.
    destruct (walkaddr_total pt (PGROUNDDOWN va) h m) as [r Hr]. cbv zeta.
    erewrite bind_Ok by exact Hr. destruct (r =? 0); [returns|].
    rewrite bind_gets. destruct (copyinstr_scan _ _ _) as [l b]. destruct b; [returns|]. apply IH; [lia|done].
  - destruct fuel; cbn [copyinstr_loop]; rewrite Z.gtb_ltb, (proj2 (Z.ltb_ge 0 len)) by done; returns.
Qed.

Lemma fuel_ok_copy va len : fuel_ok (copy_fuel len) va len.
Proof. intros Hl. apply copy_fuel_enough. lia. Qed.

Lemma copyout_total va src len m :
  ∃ r m', copyout pt va src len h m = Ok r h m' ∧ (r = 0 ∨ r = -1).
Proof. apply copyout_loop_total, fuel_ok_copy. Qed.

Lemma copyin_total va len m :
  ∃ r l, copyin pt va len h m = Ok (r, l) h m ∧
    (r = 0 ∧ Z.of_nat (length l) = Z.max 0 len ∨ r = -1 ∧ Z.of_nat (length l) < len).
Proof. apply (copyin_loop_total _ _ []), fuel_ok_copy. Qed.

Lemma copyinstr_total va max m :
  ∃ r l, copyinstr pt va max h m = Ok (r, l) h m ∧ (r = 0 ∨ r = -1).
Proof. apply copyinstr_loop_total, fuel_ok_copy. Qed.
End Total.
