(* ===== verification/Console.v ===== *)
(** * The console (kernel/console.c, uartintr of uart.c, procdump of proc.c)

    Input arrives one character at a time from the serial port's interrupt and is
    edited until a line is complete; [consoleread] takes complete lines.  The
    buffer is a ring with three counters: the bytes between [r] and [w] are
    committed, those between [w] and [e] are being edited.

    The abstract console of the second half keeps the two as lists and is what the
    code is shown to implement. *)

From Stdlib Require Import FunctionalExtensionality.
From S2P Require Import Prelude CString Riscv Kalloc Vm Kernel Sched Bytes Sample RingBuf Uart Printf.

Definition INPUT_BUF_SIZE : Z := 128.
Definition C (x : Z) : Z := x - 64.
Definition CONSOLE : nat := 1.

Definition updcons (f : cons_t → cons_t) : KM unit := modify (λ s, s <| k_cons ::= f |>).

(** ** Writing and reading *)

(** The loop of [consolewrite], from its [i]th round on. *)
Fixpoint consolewrite_loop `{Patience} (k : nat) (src : src_t) (i : Z) : KM Z :=
  match k with
  | O => mret i
  | S k =>
      '(r, bs) ← either_copyin (src_add src i) 1;
      if r =? -1 then mret i else
      uartputc (nthZ bs 0);;
      consolewrite_loop k src (i + 1)
  end.

Definition consolewrite `{Patience} (src : src_t) (n : Z) : KM Z :=
  consolewrite_loop (Z.to_nat n) src 0.

(** [while(cons.r == cons.w)]: false when the process has been killed. *)
Fixpoint consoleread_wait (w : nat) : KM bool :=
  c ← gets k_cons;
  if cons_r c =? cons_w c then
    me ← curproc;
    k ← killed me;
    if k : bool then mret false else
    match w with
    | O => nofuel
    | S w => sleep Ch_cons L_cons;; consoleread_wait w
    end
  else mret true.

(** [while(n > 0)], with [k] bytes still wanted: [None] when the process has been
    killed, and otherwise the number of bytes left to read. *)
Fixpoint consoleread_loop `{Patience} (k : nat) (dst : dst_t) (target : Z) : KM (option Z) :=
  match k with
  | O => mret (Some 0)
  | S k' =>
      ok ← consoleread_wait patience;
      if negb ok then mret None else
      cs ← gets k_cons;
      let c := nthZ (cons_buf cs) (cons_r cs mod INPUT_BUF_SIZE) in
      updcons (λ x, x <| cons_r ::= λ r, u32 (r + 1) |>);;
      if c =? C 68 then
        when (Z.of_nat k <? target) (updcons (λ x, x <| cons_r ::= λ r, u32 (r - 1) |>));;
        mret (Some (Z.of_nat k))
      else
        e ← either_copyout dst [c];
        if e =? -1 then mret (Some (Z.of_nat k)) else
        if c =? 10 then mret (Some (Z.of_nat k'))
        else consoleread_loop k' (dst_add dst 1) target
  end.

Definition consoleread `{Patience} (dst : dst_t) (n : Z) : KM Z :=
  let target := u32 n in
  acquire L_cons;;
  left ← (if 0 <? n then consoleread_loop (Z.to_nat n) dst target else mret (Some n));
  match left with
  | None => release L_cons;; mret (-1)
  | Some n => release L_cons;; mret (i32 (target - n))
  end.

(** ** Process listing *)

Definition state_name (st : procstate) : string :=
  match st with
  | UNUSED => "unused" | USED => "used" | SLEEPING => "sleep "
  | RUNNABLE => "runble" | RUNNING => "run   " | ZOMBIE => "zombie"
  end.

Fixpoint procdump_loop (ps : list nat) : KM unit :=
  match ps with
  | [] => mret tt
  | i :: ps =>
      p ← getproc i;
      when (negb (bool_decide (p_state p = UNUSED)))
        (printf (lit "%d %s %s") [PInt (p_pid p); PStr (Some (lit (state_name (p_state p)))); PStr (Some (p_name p))];;
         printf [10] []);;
      procdump_loop ps
  end.

Definition procdump : KM unit :=
  printf [10] [];;
  procdump_loop (seq 0 (Z.to_nat NPROC)).

(** ** Input *)

(** [while(cons.e != cons.w && cons.buf[(cons.e-1) % INPUT_BUF_SIZE] != '\n')]: the
    number of bytes being edited bounds the rounds. *)
Fixpoint kill_line (fuel : nat) : KM unit :=
  c ← gets k_cons;
  if (cons_e c =? cons_w c) || (nthZ (cons_buf c) (u32 (cons_e c - 1) mod INPUT_BUF_SIZE) =? 10)
  then mret tt else
  match fuel with
  | O => nofuel
  | S fuel =>
      updcons (λ x, x <| cons_e ::= λ e, u32 (e - 1) |>);;
      consputc BACKSPACE;;
      kill_line fuel
  end.

Definition consoleintr (c : Z) : KM unit :=
  acquire L_cons;;
  (if c =? C 80 then procdump
   else if c =? C 85 then kill_line (Z.to_nat INPUT_BUF_SIZE)
   else if (c =? C 72) || (c =? 127) then
     cs ← gets k_cons;
     when (negb (cons_e cs =? cons_w cs))
       (updcons (λ x, x <| cons_e ::= λ e, u32 (e - 1) |>);; consputc BACKSPACE)
   else
     cs ← gets k_cons;
     when (negb (c =? 0) && (u32 (cons_e cs - cons_r cs) <? INPUT_BUF_SIZE))
       (let c := if c =? 13 then 10 else c in
        consputc c;;
        updcons (λ x, x <| cons_buf ::= <[Z.to_nat (cons_e x mod INPUT_BUF_SIZE) := u8 c]> |>);;
        updcons (λ x, x <| cons_e ::= λ e, u32 (e + 1) |>);;
        cs ← gets k_cons;
        when ((c =? 10) || (c =? C 68) || (u32 (cons_e cs - cons_r cs) =? INPUT_BUF_SIZE))
          (updcons (λ x, x <| cons_w := cons_e x |>);;
           wakeup Ch_cons)));;
  release L_cons.

(** [while(1)]: each round takes a byte out of the device. *)
Fixpoint uartintr_loop (fuel : nat) : KM unit :=
  c ← uartgetc;
  if c =? -1 then mret tt else
  match fuel with
  | O => nofuel
  | S fuel => consoleintr c;; uartintr_loop fuel
  end.

Definition uartintr : KM unit :=
  u ← gets k_uart;
  uartintr_loop (length (u_in u));;
  acquire L_uart_tx;;
  uartstart;;
  release L_uart_tx.

Definition consoleinit : KM unit :=
  initlock L_cons;;
  uartinit;;
  modify (λ s, s <| k_devsw ::= <[CONSOLE := Dev_console]> |>).

(** ** The abstract console *)

(** Complete lines waiting to be read, and the line being edited. *)
Record acons : Type := ACons { a_lines : list Z; a_edit : list Z }.

Definition cons_abs (c : cons_t) : acons :=
  ACons (rb INPUT_BUF_SIZE (2 ^ 32) (cons_r c) (cons_w c) (cons_buf c))
        (rb INPUT_BUF_SIZE (2 ^ 32) (cons_w c) (cons_e c) (cons_buf c)).

Definition rubout (n : nat) : list Z := mjoin (replicate n [8; 32; 8]).

(** A key: the new console, what is echoed, and whether readers are woken up. *)
Definition key (c : Z) (a : acons) : acons * list Z * bool :=
  let '(ACons lines edit) := a in
  if c =? C 85 then (ACons lines [], rubout (length edit), false)
  else if (c =? C 72) || (c =? 127) then
    match edit with
    | [] => (a, [], false)
    | _ => (ACons lines (removelast edit), rubout 1, false)
    end
  else if (c =? 0) || (INPUT_BUF_SIZE <=? Z.of_nat (length lines + length edit)) then (a, [], false)
  else
    let c := if c =? 13 then 10 else c in
    if (c =? 10) || (c =? C 68) || (Z.of_nat (length lines + length edit) + 1 =? INPUT_BUF_SIZE)
    then (ACons (lines ++ edit ++ [c]) [], [c], true)
    else (ACons lines (edit ++ [c]), [c], false).

Definition clen (r w : Z) : Z := rb_len (2 ^ 32) r w.

Record cons_ok (c : cons_t) : Prop := {
  co_buf : Z.of_nat (length (cons_buf c)) = INPUT_BUF_SIZE;
  co_r : 0 ≤ cons_r c < 2 ^ 32;
  co_w : 0 ≤ cons_w c < 2 ^ 32;
  co_e : 0 ≤ cons_e c < 2 ^ 32;
  co_len : clen (cons_r c) (cons_w c) + clen (cons_w c) (cons_e c) ≤ INPUT_BUF_SIZE;
  co_edit : 10 ∉ a_edit (cons_abs c);
  co_byte : Forall (λ x, 0 ≤ x < 256) (cons_buf c);
}.

Lemma cons_sizes : 0 < INPUT_BUF_SIZE < 2 ^ 32 ∧ (INPUT_BUF_SIZE | 2 ^ 32).
Proof. split; [unfold INPUT_BUF_SIZE; lia|]. exists (2 ^ 25). reflexivity. Qed.

Lemma clen_range r w : 0 ≤ clen r w < 2 ^ 32.
Proof. apply (rb_len_range INPUT_BUF_SIZE), cons_sizes. Qed.

Lemma cons_len c :
  cons_ok c → u32 (cons_e c - cons_r c) = clen (cons_r c) (cons_w c) + clen (cons_w c) (cons_e c).
Proof.
  intros H. destruct cons_sizes as [Hs Hd]. apply (rb_len_add INPUT_BUF_SIZE _ Hs). pose proof (co_len _ H).
  unfold clen, INPUT_BUF_SIZE in *. lia.
Qed.

Lemma length_lines c : Z.of_nat (length (a_lines (cons_abs c))) = clen (cons_r c) (cons_w c).
Proof. apply length_rb, cons_sizes. Qed.
Lemma length_edit c : Z.of_nat (length (a_edit (cons_abs c))) = clen (cons_w c) (cons_e c).
Proof. apply length_rb, cons_sizes. Qed.

(** Moving the edit counter back removes the last byte. *)
Definition erase1 (c : cons_t) : cons_t := c <| cons_e ::= λ e, u32 (e - 1) |>.

Lemma cons_erase c :
  cons_ok c → cons_e c ≠ cons_w c →
  cons_ok (erase1 c) ∧ clen (cons_w c) (cons_e (erase1 c)) = clen (cons_w c) (cons_e c) - 1 ∧
  a_edit (cons_abs c) = a_edit (cons_abs (erase1 c)) ++
    [nthZ (cons_buf c) (u32 (cons_e c - 1) mod INPUT_BUF_SIZE)] ∧
  a_lines (cons_abs (erase1 c)) = a_lines (cons_abs c).
Proof.
  intros [K1 K2 K3 K4 K5 K6 K7] Hne. destruct cons_sizes as [Hs Hd].
  pose proof (rb_empty (2 ^ 32) (cons_w c) (cons_e c) ltac:(lia) ltac:(lia)) as He.
  rewrite (proj2 (Z.eqb_neq (cons_w c) _)) in He by done. symmetry in He. apply Z.eqb_neq in He.
  pose proof (clen_range (cons_w c) (cons_e c)) as Hr. unfold clen in Hr.
  pose proof (rb_unpush INPUT_BUF_SIZE (2 ^ 32) Hs Hd (cons_w c) (cons_e c) (cons_buf c) ltac:(lia)) as Hu.
  pose proof (rb_len_unpush INPUT_BUF_SIZE (2 ^ 32) Hs (cons_w c) (cons_e c) ltac:(lia)) as Hl.
  split_and!; [|exact Hl|exact Hu|done].
  unfold erase1. split; simpl; try done.
  - apply u32_range.
  - unfold clen, u32 in *. rewrite Hl. lia.
  - simpl in K6. rewrite Hu in K6. unfold u32. set_solver.
Qed.

(** Storing a byte. *)
Definition store1 (x : Z) (c : cons_t) : cons_t :=
  c <| cons_buf ::= <[Z.to_nat (cons_e c mod INPUT_BUF_SIZE) := x]> |> <| cons_e ::= λ e, u32 (e + 1) |>.

Lemma cons_store x c :
  cons_ok c → 0 ≤ x < 256 → clen (cons_r c) (cons_w c) + clen (cons_w c) (cons_e c) < INPUT_BUF_SIZE →
  clen (cons_w c) (cons_e (store1 x c)) = clen (cons_w c) (cons_e c) + 1 ∧
  cons_abs (store1 x c) = ACons (a_lines (cons_abs c)) (a_edit (cons_abs c) ++ [x]) ∧
  (x ≠ 10 → cons_ok (store1 x c)) ∧
  cons_ok ((store1 x c) <| cons_w := cons_e (store1 x c) |>) ∧
  cons_abs ((store1 x c) <| cons_w := cons_e (store1 x c) |>) =
    ACons (a_lines (cons_abs c) ++ a_edit (cons_abs c) ++ [x]) [].
Proof.
  intros [K1 K2 K3 K4 K5 K6 K7] Hx Hlt. destruct cons_sizes as [Hs Hd].
  pose proof (clen_range (cons_w c) (cons_e c)) as Hr. pose proof (clen_range (cons_r c) (cons_w c)) as Hr2.
  pose proof (rb_len_push INPUT_BUF_SIZE (2 ^ 32) Hs (cons_w c) (cons_e c)
    ltac:(unfold clen, INPUT_BUF_SIZE in *; lia)) as Hl.
  pose proof (rb_push INPUT_BUF_SIZE (2 ^ 32) Hs Hd (cons_w c) (cons_e c) x (cons_buf c) K1
    ltac:(unfold clen in *; lia)) as Hp.
  pose proof (rb_insert_other INPUT_BUF_SIZE (2 ^ 32) Hs Hd (cons_r c) (cons_w c) (cons_e c) x (cons_buf c)
    ltac:(unfold clen in *; lia)) as Ho.
  assert (cons_abs (store1 x c) = ACons (a_lines (cons_abs c)) (a_edit (cons_abs c) ++ [x])) as Ha.
  { unfold cons_abs, store1. simpl. unfold u32. by rewrite Hp, Ho. }
  assert (clen (cons_w c) (cons_e (store1 x c)) = clen (cons_w c) (cons_e c) + 1) as Hl' by exact Hl.
  assert (Z.of_nat (length (cons_buf (store1 x c))) = INPUT_BUF_SIZE) as Hb by (simpl; by rewrite length_insert).
  assert (Forall (λ x, 0 ≤ x < 256) (cons_buf (store1 x c))) as Hf by (simpl; by apply Forall_insert).
  assert (0 ≤ cons_e (store1 x c) < 2 ^ 32) as He by apply u32_range.
  assert (clen (cons_r c) (cons_e (store1 x c)) = clen (cons_r c) (cons_w c) + clen (cons_w c) (cons_e c) + 1) as Hre.
  { unfold clen in *. rewrite (rb_len_add INPUT_BUF_SIZE (2 ^ 32) Hs _ (cons_w c)), Hl' by (unfold INPUT_BUF_SIZE in *; lia). lia. }
  assert (clen (cons_e (store1 x c)) (cons_e (store1 x c)) = 0) as Hz by (unfold clen, rb_len; by rewrite Z.sub_diag).
  split_and!; [done|done| | |].
  - intros Hx10. split; try done.
    + simpl cons_r. simpl cons_w. rewrite Hl'. lia.
    + rewrite Ha. simpl. set_solver.
  - split; try done.
    + simpl cons_r. simpl cons_w. simpl cons_e. simpl cons_e in Hre, Hz. rewrite Hre, Hz. lia.
    + simpl. unfold rb, rb_len. rewrite Z.sub_diag. apply not_elem_of_nil.
  - unfold cons_abs at 1. simpl cons_r. simpl cons_w. simpl cons_buf. simpl cons_e. f_equal.
    + rewrite (rb_app INPUT_BUF_SIZE (2 ^ 32) Hs Hd _ (cons_w c)).
      * unfold u32. by rewrite Hp, Ho.
      * unfold u32. rewrite Hl. unfold clen, INPUT_BUF_SIZE in *. lia.
    + unfold rb, rb_len. by rewrite Z.sub_diag.
Qed.

(** ** The interrupt handler implements the abstract console *)

(** The console changed to [c] after echoing [l]. *)
Definition edited (c : cons_t) (l : list Z) (s : kernel) : kernel := (emit l s) <| k_cons := c |>.

Lemma edited_edited c1 l1 c2 l2 s : edited c2 l2 (edited c1 l1 s) = edited c2 (l1 ++ l2) s.
Proof. unfold edited. rewrite <- emit_app. by destruct l2. Qed.

Lemma edited_ready c l s : console_ready s → console_ready (edited c l s).
Proof. by destruct l. Qed.

Lemma edited_nil s : edited (k_cons s) [] s = s.
Proof. by destruct s. Qed.

Lemma consputc_backspace h s :
  console_ready s → consputc BACKSPACE h s = Ok tt h (emit (rubout 1) s).
Proof.
  intros Hr. unfold consputc. rewrite Z.eqb_refl.
  erewrite bind_Ok by (apply uartputc_sync_run; [done|lia]).
  erewrite bind_Ok by (apply uartputc_sync_run; [by apply (emit_ready [8])|lia]).
  rewrite uartputc_sync_run by (first [lia | by apply (emit_ready [32]), (emit_ready [8])]).
  by rewrite !emit_app.
Qed.

Lemma bind_updcons {A} f (k : unit → KM A) h s :
  (updcons f ≫= k) h s = k tt h (s <| k_cons ::= f |>).
Proof. done. Qed.

Lemma erase_run {A} (k : unit → KM A) h s :
  console_ready s →
  (updcons (λ x, x <| cons_e ::= λ e, u32 (e - 1) |>) ≫= λ _, consputc BACKSPACE ≫= k) h s =
  k tt h (edited (erase1 (k_cons s)) (rubout 1) s).
Proof.
  intros Hr. rewrite bind_updcons. erewrite bind_Ok by (by apply consputc_backspace). done.
Qed.

Lemma kill_line_run n : ∀ fuel h s,
  (n ≤ fuel)%nat → cons_ok (k_cons s) → console_ready s → length (a_edit (cons_abs (k_cons s))) = n →
  ∃ c, kill_line fuel h s = Ok tt h (edited c (rubout n) s) ∧ cons_ok c ∧
    cons_abs c = ACons (a_lines (cons_abs (k_cons s))) [].
Proof.
  induction n as [|n IH]; intros fuel h s Hf Hok Hr Hn.
  - assert ((cons_e (k_cons s) =? cons_w (k_cons s)) = true) as He.
    { rewrite Z.eqb_sym, (rb_empty (2 ^ 32)) by apply Hok. pose proof (length_edit (k_cons s)) as Hl.
      rewrite Hn in Hl. unfold clen in Hl. by rewrite <- Hl. }
    exists (k_cons s). split_and!; [|done|].
    + change (rubout 0) with (@nil Z). rewrite edited_nil. destruct fuel; cbn [kill_line]; by rewrite bind_gets, He.
    + apply nil_length_inv in Hn. destruct (cons_abs (k_cons s)). simpl in *. by subst.
  - destruct fuel as [|fuel]; [lia|].
    assert (cons_e (k_cons s) ≠ cons_w (k_cons s)) as Hne.
    { intros E. pose proof (length_edit (k_cons s)) as Hl. unfold clen, rb_len in Hl.
      rewrite E, Z.sub_diag, Zmod_0_l in Hl. lia. }
    destruct (cons_erase _ Hok Hne) as (Ho & _ & Ha & Hli).
    destruct (IH fuel h (edited (erase1 (k_cons s)) (rubout 1) s)) as (c & E & Oc & Ac).
    + lia.
    + done.
    + by apply edited_ready.
    + apply (f_equal length) in Ha. rewrite length_app in Ha. simpl length in *. lia.
    + exists c. split_and!; [|done|rewrite Ac; f_equal; exact Hli].
      cbn [kill_line]. rewrite bind_gets, (proj2 (Z.eqb_neq _ _) Hne).
      rewrite (proj2 (Z.eqb_neq (nthZ _ _) 10)).
      * cbn [orb]. rewrite erase_run by done. rewrite E. by rewrite edited_edited.
      * intros E10. pose proof (co_edit _ Hok) as H10. rewrite Ha, E10 in H10. set_solver.
Qed.

Definition woken (b : bool) (s : kernel) : kernel :=
  if b then s <| k_procs ::= imap (wake (k_cur s) Ch_cons) |> else s.

(** The default case: the character is stored, unless the buffer is full. *)
Lemma store_run (c : Z) h s (x := if c =? 13 then 10 else c) :
  0 ≤ c < 256 → cons_ok (k_cons s) → console_ready s → can_wake h s →
  Z.of_nat (length (a_lines (cons_abs (k_cons s))) + length (a_edit (cons_abs (k_cons s)))) < INPUT_BUF_SIZE →
  (consputc x;;
   updcons (λ x', x' <| cons_buf ::= <[Z.to_nat (cons_e x' mod INPUT_BUF_SIZE) := u8 x]> |>);;
   updcons (λ x, x <| cons_e ::= λ e, u32 (e + 1) |>);;
   cs ← gets k_cons;
   when ((x =? 10) || (x =? C 68) || (u32 (cons_e cs - cons_r cs) =? INPUT_BUF_SIZE))
     (updcons (λ x, x <| cons_w := cons_e x |>);; wakeup Ch_cons)) h s =
  let c1 := store1 x (k_cons s) in
  let full := Z.of_nat (length (a_lines (cons_abs (k_cons s))) + length (a_edit (cons_abs (k_cons s)))) + 1 =? INPUT_BUF_SIZE in
  if (x =? 10) || (x =? C 68) || full
  then Ok tt h (woken true (edited (c1 <| cons_w := cons_e c1 |>) [x] s))
  else Ok tt h (edited c1 [x] s).
Proof.
  intros Hc Hok Hr [Hw Hp] Hlt. assert (0 ≤ x < 256) as Hx by (unfold x; case_match; lia).
  pose proof (length_lines (k_cons s)) as HL. pose proof (length_edit (k_cons s)) as HE.
  destruct (cons_store x (k_cons s)) as (Hl & _); [done|done|lia|].
  erewrite bind_Ok by (apply consputc_run; [done|lia]). rewrite !bind_updcons, bind_gets.
  rewrite (u8_small x) by done. change (k_cons (emit [x] s)) with (k_cons s).
  set (c1 := store1 x (k_cons s)) in *.
  match goal with |- context [when _ _ h ?s'] => change s' with (edited c1 [x] s) end.
  change (k_cons (edited c1 [x] s)) with c1. change (cons_r c1) with (cons_r (k_cons s)) in *.
  assert (u32 (cons_e c1 - cons_r (k_cons s)) =
    Z.of_nat (length (a_lines (cons_abs (k_cons s))) + length (a_edit (cons_abs (k_cons s)))) + 1) as ->.
  { destruct cons_sizes as [Hs _]. unfold clen in *.
    change (rb_len (2 ^ 32) (cons_r (k_cons s)) (cons_e c1) = Z.of_nat (length (a_lines (cons_abs (k_cons s))) + length (a_edit (cons_abs (k_cons s)))) + 1).
    rewrite (rb_len_add INPUT_BUF_SIZE (2 ^ 32) Hs _ (cons_w (k_cons s))), Hl by (unfold INPUT_BUF_SIZE in *; lia). lia. }
  cbv zeta. case_match; unfold when; [|done].
  rewrite bind_updcons. by rewrite wakeup_run.
Qed.

Lemma bracket {A} lk (m : KM A) (k : A → KM unit) h s a s' :
  lk ∉ h → m (lk :: h) s = Ok a (lk :: h) s' → (∀ a, k a = release lk) →
  (acquire lk ≫= λ _, m ≫= k) h s = Ok tt h s'.
Proof.
  intros Hl E Hk. rewrite bind_acquire by done. erewrite bind_Ok by exact E. rewrite Hk.
  by apply release_acquired.
Qed.

Lemma can_wake_cons lk h s : can_wake h s → (∀ i, lk ≠ L_proc i) → can_wake (lk :: h) s.
Proof.
  intros [Hw Hp] Hl. split; [|done]. intros i Hi [E|E]%elem_of_cons; [by apply (Hl i)|by apply (Hw i Hi)].
Qed.

Lemma backspace_run h s :
  cons_ok (k_cons s) → console_ready s →
  ∃ cs l, (cs ← gets k_cons;
    when (negb (cons_e cs =? cons_w cs))
      (updcons (λ x, x <| cons_e ::= λ e, u32 (e - 1) |>);; consputc BACKSPACE)) h s =
    Ok tt h (edited cs l s) ∧ cons_ok cs ∧
    match a_edit (cons_abs (k_cons s)) with
    | [] => cons_abs cs = cons_abs (k_cons s) ∧ l = []
    | e => cons_abs cs = ACons (a_lines (cons_abs (k_cons s))) (removelast e) ∧ l = rubout 1
    end.
Proof.
  intros Hok Hr. rewrite bind_gets.
  destruct (Z.eqb_spec (cons_e (k_cons s)) (cons_w (k_cons s))) as [E|Hne].
  - exists (k_cons s), []. split_and!; [by rewrite edited_nil|done|].
    replace (a_edit (cons_abs (k_cons s))) with (@nil Z); [done|]. symmetry. apply nil_length_inv.
    pose proof (length_edit (k_cons s)) as HE. unfold clen, rb_len in HE.
    rewrite E, Z.sub_diag, Zmod_0_l in HE. lia.
  - destruct (cons_erase _ Hok Hne) as (Ho & _ & Ha & Hli).
    exists (erase1 (k_cons s)), (rubout 1). split_and!; [|done|].
    + cbn [negb]. unfold when. rewrite bind_updcons. by rewrite consputc_backspace.
    + rewrite Ha. destruct (a_edit (cons_abs (erase1 (k_cons s))) ++ _) as [|z zs] eqn:Ez; [by apply app_nil in Ez as [_ ?]|].
      rewrite <- Ez, removelast_last. split; [|done]. rewrite <- Hli.
      by destruct (cons_abs (erase1 (k_cons s))).
Qed.

(** A stored character implements the default case of [key]. *)
Lemma store_abs x c (full : bool) :
  cons_ok c → 0 ≤ x < 256 →
  Z.of_nat (length (a_lines (cons_abs c)) + length (a_edit (cons_abs c))) < INPUT_BUF_SIZE →
  if (x =? 10) || (x =? C 68) || full
  then let c' := (store1 x c) <| cons_w := cons_e (store1 x c) |> in
    cons_ok c' ∧ cons_abs c' = ACons (a_lines (cons_abs c) ++ a_edit (cons_abs c) ++ [x]) []
  else cons_ok (store1 x c) ∧ cons_abs (store1 x c) = ACons (a_lines (cons_abs c)) (a_edit (cons_abs c) ++ [x]).
Proof.
  intros Hok Hx Hlt. pose proof (length_lines c). pose proof (length_edit c).
  destruct (cons_store x c) as (_ & A1 & O1 & O2 & A2); [done|done|lia|].
  destruct (Z.eqb_spec x 10); [done|]. rewrite orb_false_l.
  destruct ((x =? C 68) || full); [done|]. split; [by apply O1|done].
Qed.

(** C37: the interrupt handler of the console implements the abstract console.  For
    every character but ^P, whatever the values of the three wrapping counters,
    it never panics, keeps the buffer well formed, changes the complete lines and
    the line being edited as [key] says, echoes what [key] says, and wakes the
    readers exactly when a line has been completed. *)
Theorem consoleintr_refines (c : Z) (h : list lockid) (s : kernel) :
  c ≠ C 80 → 0 ≤ c < 256 → cons_ok (k_cons s) → console_ready s →
  L_cons ∉ h → can_wake h s →
  let '(a, echo, w) := key c (cons_abs (k_cons s)) in
  ∃ cs, consoleintr c h s = Ok tt h (woken w (edited cs echo s)) ∧ cons_ok cs ∧ cons_abs cs = a.
Proof.
  intros HP Hc Hok Hr Hlk Hw. pose proof (can_wake_cons L_cons h s Hw ltac:(done)) as Hw'.
  unfold key, consoleintr. rewrite (proj2 (Z.eqb_neq c _) HP).
  pose proof (length_lines (k_cons s)) as HL. pose proof (length_edit (k_cons s)) as HE.
  pose proof (cons_len _ Hok) as HT. pose proof (co_len _ Hok) as HM.
  destruct (cons_abs (k_cons s)) as [lines edit] eqn:Ea. simpl in HL, HE.
  destruct (c =? C 85).
  { destruct (kill_line_run (length edit) (Z.to_nat INPUT_BUF_SIZE) (L_cons :: h) s) as (cs & E & Ok & A).
    - pose proof (clen_range (cons_r (k_cons s)) (cons_w (k_cons s))). lia.
    - done.
    - done.
    - by rewrite Ea.
    - exists cs. split_and!; [|done|by rewrite A, Ea]. by eapply bracket. }
  destruct ((c =? C 72) || (c =? 127)).
  { destruct (backspace_run (L_cons :: h) s Hok Hr) as (cs & l & E & Ok & A).
    rewrite Ea in A. simpl in A. destruct edit; destruct A as [A ->]; exists cs;
      (split_and!; [by eapply bracket|done|done]). }
  rewrite bind_acquire by done. rewrite bind_assoc, bind_gets, HT.
  assert (release L_cons (L_cons :: h) s = Ok tt h (edited (k_cons s) [] s)) as Hnone
    by (rewrite edited_nil; by apply release_acquired).
  destruct (Z.eqb_spec c 0) as [->|H0]; cbn [negb andb orb]; [by exists (k_cons s)|].
  destruct (Z.leb_spec INPUT_BUF_SIZE (Z.of_nat (length lines + length edit))) as [Hf|Hlt].
  { rewrite (proj2 (Z.ltb_ge _ INPUT_BUF_SIZE)) by lia. by exists (k_cons s). }
  rewrite (proj2 (Z.ltb_lt _ INPUT_BUF_SIZE)) by lia. unfold when at 1.
  pose proof (store_run c (L_cons :: h) s Hc Hok Hr Hw') as Hrun.
  pose proof (store_abs (if c =? 13 then 10 else c) (k_cons s)
    (Z.of_nat (length lines + length edit) + 1 =? INPUT_BUF_SIZE) Hok) as Habs.
  rewrite Ea in Hrun, Habs. specialize (Hrun Hlt). specialize (Habs ltac:(case_match; lia) Hlt).
  cbv zeta in *. set (x := if c =? 13 then 10 else c) in *. simpl a_lines in *. simpl a_edit in *.
  destruct ((x =? 10) || (x =? C 68) || (Z.of_nat (length lines + length edit) + 1 =? INPUT_BUF_SIZE));
    destruct Habs as [O A]; eexists; (split_and!; [|exact O|exact A]);
    (erewrite bind_Ok by exact Hrun; by apply release_acquired).
Qed.

Definition sample_cons : kernel :=
  let s := running (Machine 0 ∅ 0) (Disk ∅ []) in
  s <| k_cons := Cons (replicate 126 0 ++ [97; 98]) (2 ^ 32 - 2) (2 ^ 32 - 2) 0 |>.

(** "ab" has been typed and the edit counter has wrapped; return completes the line. *)
Lemma consoleintr_refines_witness :
  cons_abs (k_cons sample_cons) = ACons [] [97; 98] ∧
  ∃ cs, consoleintr 13 [] sample_cons = Ok tt [] (woken true (edited cs [10] sample_cons)) ∧ cons_ok cs ∧
    cons_abs cs = ACons [97; 98; 10] [].
Proof.
  assert (cons_abs (k_cons sample_cons) = ACons [] [97; 98]) as Ha by (vm_compute; reflexivity).
  split; [exact Ha|].
  assert (cons_ok (k_cons sample_cons)) as Hok.
  { split; try (vm_compute; split; congruence); try (vm_compute; congruence).
    - rewrite Ha. simpl. intros H. repeat (apply elem_of_cons in H as [H|H]; [discriminate|]).
      by apply not_elem_of_nil in H.
    - repeat (constructor; [lia|]). constructor. }
  assert (can_wake [] sample_cons) as Hw.
  { split; [intros i _; apply not_elem_of_nil|vm_compute; reflexivity]. }
  assert (console_ready sample_cons) as Hr by (vm_compute; reflexivity).
  pose proof (consoleintr_refines 13 [] sample_cons ltac:(discriminate) ltac:(lia) Hok Hr
    ltac:(apply not_elem_of_nil) Hw) as P. rewrite Ha in P. exact P.
Defined.

(** ** Reading lines *)

(** What a read of at most [k] bytes takes from the complete lines: up to the end of
    the first line, or up to an end-of-file mark, which is consumed only when it
    comes first.  [None]: the read has to wait for more input. *)
Fixpoint deliver (k : nat) (first : bool) (lines : list Z) : option (list Z * list Z) :=
  match k, lines with
  | O, _ => Some ([], lines)
  | S _, [] => None
  | S k, c :: rest =>
      if c =? C 68 then Some ([], if first then rest else lines)
      else if c =? 10 then Some ([c], rest)
      else match deliver k false rest with
           | Some (bs, rest) => Some (c :: bs, rest)
           | None => None
           end
  end.

(** Copying bytes one at a time to a destination changes physical memory from [m]
    to [m']. *)
Definition put_byte (pt : Z) (dst : dst_t) (c : Z) (h : list lockid) (m m' : machine) : Prop :=
  match dst with
  | Dst_user va => copyout pt va [c] 1 h m = Ok 0 h m'
  | Dst_phys pa => m' = upd_mem (λ x, store_bytes x pa [c]) m
  | Dst_local => m' = m
  end.
Fixpoint put_bytes (pt : Z) (dst : dst_t) (bs : list Z) (h : list lockid) (m m' : machine) : Prop :=
  match bs with
  | [] => m' = m
  | c :: bs => ∃ m1, put_byte pt dst c h m m1 ∧ put_bytes pt (dst_add dst 1) bs h m1 m'
  end.

Lemma kernel_mach_id (s : kernel) : s <| k_mach := k_mach s |> = s.
Proof. by destruct s. Qed.

Lemma either_copyout_run dst c h s me m' :
  k_cur s = Some me → put_byte (p_pagetable (proc_at me s)) dst c h (k_mach s) m' →
  either_copyout dst [c] h s = Ok 0 h (s <| k_mach := m' |>).
Proof.
  intros Hc Hp. unfold either_copyout. rewrite (bind_curproc _ _ _ me) by done. rewrite bind_getproc.
  destruct dst as [va|pa|]; simpl in Hp.
  - by apply in_mem_Ok.
  - subst m'. done.
  - subst m'. by rewrite kernel_mach_id.
Qed.

Definition take1 (c : cons_t) : cons_t := c <| cons_r ::= λ r, u32 (r + 1) |>.

Lemma cons_take c x rest :
  cons_ok c → a_lines (cons_abs c) = x :: rest →
  cons_r c ≠ cons_w c ∧ nthZ (cons_buf c) (cons_r c mod INPUT_BUF_SIZE) = x ∧ cons_ok (take1 c) ∧
  cons_abs (take1 c) = ACons rest (a_edit (cons_abs c)) ∧
  (take1 c) <| cons_r ::= λ r, u32 (r - 1) |> = c.
Proof.
  intros [K1 K2 K3 K4 K5 K6 K7] Hl. destruct cons_sizes as [Hs Hd].
  pose proof (length_lines c) as HL. rewrite Hl in HL. simpl length in HL.
  assert (0 < rb_len (2 ^ 32) (cons_r c) (cons_w c)) as Hpos by (unfold clen in HL; lia).
  pose proof (rb_pop INPUT_BUF_SIZE (2 ^ 32) Hs Hd (cons_r c) (cons_w c) (cons_buf c) Hpos) as Hp.
  pose proof (rb_len_pop INPUT_BUF_SIZE (2 ^ 32) Hs (cons_r c) (cons_w c) Hpos) as Hlp.
  assert (rb INPUT_BUF_SIZE (2 ^ 32) (cons_r c) (cons_w c) (cons_buf c) = x :: rest) as Hl' by exact Hl.
  rewrite Hl' in Hp. injection Hp as Hx Hrest. split_and!.
  - intros E. unfold rb_len in Hpos. rewrite E, Z.sub_diag, Zmod_0_l in Hpos. lia.
  - done.
  - unfold take1. split; simpl; try done; [apply u32_range|]. unfold clen, u32 in *. rewrite Hlp. lia.
  - unfold cons_abs, take1. simpl. unfold u32. by rewrite <- Hrest.
  - unfold take1. destruct c as [buf r w e]. unfold upd_field. simpl in *. f_equal. unfold u32.
    rewrite Zminus_mod_idemp_l. rewrite Z.mod_small; lia.
Qed.

Lemma consoleread_ready n h s c rest :
  cons_ok (k_cons s) → a_lines (cons_abs (k_cons s)) = c :: rest → consoleread_wait n h s = Ok true h s.
Proof.
  intros Hok Hl. destruct (cons_take _ _ _ Hok Hl) as (Hne & _).
  destruct n; cbn [consoleread_wait]; rewrite bind_gets; by rewrite (proj2 (Z.eqb_neq _ _) Hne).
Qed.

Lemma consoleread_loop_run n me k : ∀ dst target s bs rest m',
  k_cur s = Some me → cons_ok (k_cons s) → Z.of_nat k ≤ target →
  deliver k (Z.of_nat k =? target) (a_lines (cons_abs (k_cons s))) = Some (bs, rest) →
  put_bytes (p_pagetable (proc_at me s)) dst bs [L_cons] (k_mach s) m' →
  ∃ cs, @consoleread_loop n k dst target [L_cons] s =
    Ok (Some (Z.of_nat k - Z.of_nat (length bs))) [L_cons] (s <| k_mach := m' |> <| k_cons := cs |>) ∧
    cons_ok cs ∧ cons_abs cs = ACons rest (a_edit (cons_abs (k_cons s))).
Proof.
  induction k as [|k IH]; intros dst target s bs rest m' Hc Hok Ht Hd Hp.
  - injection Hd as <- <-. simpl in Hp. subst m'. exists (k_cons s). split_and!; [by destruct s|done|reflexivity].
  - cbn [deliver] in Hd. destruct (a_lines (cons_abs (k_cons s))) as [|c lines] eqn:El; [done|].
    destruct (cons_take _ _ _ Hok El) as (_ & Hx & Hok1 & Ha1 & Hback).
    cbn [consoleread_loop]. unfold patience. erewrite bind_Ok by (by eapply consoleread_ready). cbn [negb].
    rewrite bind_gets. cbv zeta. rewrite Hx, bind_updcons.
    set (s1 := s <| k_cons ::= λ x, x <| cons_r ::= λ r, u32 (r + 1) |> |>).
    assert (k_cons s1 = take1 (k_cons s)) as Hs1 by done.
    destruct (c =? C 68).
    { destruct (Z.eqb_spec (Z.of_nat (S k)) target) as [E|E]; injection Hd as <- <-; simpl in Hp; subst m';
        rewrite Z.sub_0_r.
      - exists (take1 (k_cons s)). split_and!; [|done|done].
        rewrite (proj2 (Z.ltb_ge _ target)) by lia. by destruct s.
      - exists (k_cons s). split_and!; [|done|by rewrite <- El].
        rewrite (proj2 (Z.ltb_lt _ target)) by lia. unfold when. rewrite bind_updcons.
        unfold mret, M_ret. f_equal. destruct s. unfold s1, upd_field in *. simpl in *. by rewrite Hback. }
    destruct (c =? 10).
    { injection Hd as <- <-. destruct Hp as (m1 & Hp & Hm). simpl in Hm. subst m1.
      exists (take1 (k_cons s)). split_and!; [|done|done].
      erewrite bind_Ok by (by apply (either_copyout_run _ _ _ s1 me)). simpl length.
      replace (Z.of_nat (S k) - Z.of_nat 1) with (Z.of_nat k) by lia. done. }
    destruct (deliver k false lines) as [[bs' rest']|] eqn:Ed; [|done]. injection Hd as <- <-.
    destruct Hp as (m1 & Hp & Hm).
    destruct (IH (dst_add dst 1) target (s1 <| k_mach := m1 |>) bs' rest' m') as (cs & E & O & A).
    + done.
    + done.
    + lia.
    + rewrite (proj2 (Z.eqb_neq _ _)) by lia. change (k_cons (s1 <| k_mach := m1 |>)) with (take1 (k_cons s)).
      by rewrite Ha1.
    + done.
    + exists cs. split_and!; [|done|]. 
      * erewrite bind_Ok by (by apply (either_copyout_run _ _ _ s1 me)). cbn [Z.eqb].
        rewrite E. simpl length. replace (Z.of_nat (S k) - Z.of_nat (S (length bs'))) with (Z.of_nat k - Z.of_nat (length bs')) by lia.
        done.
      * rewrite A. change (k_cons (s1 <| k_mach := m1 |>)) with (take1 (k_cons s)). by rewrite Ha1.
Qed.

(** The outcome [o] delivers the next line of the console of [s]. *)
Definition reads_line (me : nat) (dst : dst_t) (n : Z) (s : kernel) (o : outcome kernel Z) : Prop :=
  ∀ bs rest m',
    deliver (Z.to_nat n) true (a_lines (cons_abs (k_cons s))) = Some (bs, rest) →
    put_bytes (p_pagetable (proc_at me s)) dst bs [L_cons] (k_mach s) m' →
    ∃ cs, o = Ok (Z.of_nat (length bs)) [] (s <| k_mach := m' |> <| k_cons := cs |>) ∧
      cons_ok cs ∧ cons_abs cs = ACons rest (a_edit (cons_abs (k_cons s))).

Lemma length_deliver k : ∀ f l bs rest, deliver k f l = Some (bs, rest) → (length bs ≤ k)%nat.
Proof.
  induction k as [|k IH]; intros f l bs rest H; cbn [deliver] in H; [by injection H as <- <-|].
  destruct l as [|c l]; [done|]. repeat case_match; simplify_eq; simpl; try lia.
  match goal with H : deliver _ _ _ = _ |- _ => apply IH in H end. lia.
Qed.

Lemma consoleread_end w dst n s me :
  k_cur s = Some me → cons_ok (k_cons s) → 0 < n < 2 ^ 31 →
  reads_line me dst n s
    ((left ← @consoleread_loop w (Z.to_nat n) dst (u32 n);
      match left with
      | None => release L_cons;; mret (-1)
      | Some n' => release L_cons;; mret (i32 (u32 n - n'))
      end) [L_cons] s).
Proof.
  intros Hc Hok Hn bs rest m' Hd Hp. rewrite u32_small by lia.
  destruct (consoleread_loop_run w me (Z.to_nat n) dst n s bs rest m') as (cs & E & O & A); [done|done|lia| |done|].
  { rewrite Z2Nat.id, Z.eqb_refl by lia. done. }
  exists cs. split_and!; [|done|done]. erewrite bind_Ok by exact E. cbv iota.
  rewrite bind_release by apply not_elem_of_nil. apply length_deliver in Hd.
  rewrite Z2Nat.id by lia. replace (n - (n - Z.of_nat (length bs))) with (Z.of_nat (length bs)) by lia.
  by rewrite i32_small by lia.
Qed.

(** C38: a read of the console takes the next line.  It returns the bytes up to and
    including the end of the first complete line (at most [n]), copied in order
    to the destination, and removes exactly those from the buffer; an
    end-of-file mark ends the read and is left for the next one unless the read
    would return nothing.  With no complete line, a killed process gets -1 and
    another sleeps, and delivers the line that is there when it is woken up. *)
Theorem consoleread_line (w : nat) (dst : dst_t) (n : Z) (s : kernel) (me : nat) :
  k_cur s = Some me → (me < length (k_procs s))%nat → cons_ok (k_cons s) → 0 < n < 2 ^ 31 →
  reads_line me dst n s (@consoleread w dst n [] s) ∧
  (a_lines (cons_abs (k_cons s)) = [] →
   if p_killed (proc_at me s) then @consoleread w dst n [] s = Ok (-1) [] s
   else ∃ k, @consoleread (S w) dst n [] s = Block [L_proc me] (asleep Ch_cons me s) k ∧
     ∀ s', k_cur s' = Some me → cons_ok (k_cons s') → a_lines (cons_abs (k_cons s')) ≠ [] →
       reads_line me dst n (awoken me s') (k s')).
Proof.
  intros Hc Hm Hok Hn. split.
  { unfold consoleread. rewrite bind_acquire by apply not_elem_of_nil.
    rewrite (proj2 (Z.ltb_lt 0 n)) by lia. by apply consoleread_end. }
  intros Hl. assert ((cons_r (k_cons s) =? cons_w (k_cons s)) = true) as He.
  { rewrite (rb_empty (2 ^ 32)) by apply Hok. pose proof (length_lines (k_cons s)) as HL.
    rewrite Hl in HL. unfold clen in HL. by rewrite <- HL. }
  destruct (Z.to_nat n) as [|k] eqn:Ek; [lia|].
  assert (∀ w, consoleread_wait w [L_cons] s =
    (if p_killed (proc_at me s) then mret false else
     match w with O => nofuel | S w => sleep Ch_cons L_cons;; consoleread_wait w end) [L_cons] s) as Hwait.
  { intros w'. destruct w'; cbn [consoleread_wait]; rewrite bind_gets, He, (bind_curproc _ _ _ me) by done;
      (erewrite bind_Ok; [|apply killed_run; set_solver]; done). }
  unfold consoleread. rewrite !bind_acquire by apply not_elem_of_nil.
  rewrite (proj2 (Z.ltb_lt 0 n)) by lia. rewrite Ek. cbn [consoleread_loop]. unfold patience.
  destruct (p_killed (proc_at me s)) eqn:Hk.
  - rewrite bind_assoc. erewrite bind_Ok by exact (Hwait w). cbn [negb]. rewrite bind_ret. cbv iota.
    by rewrite bind_release by apply not_elem_of_nil.
  - rewrite bind_assoc. erewrite (bind_eq _ (sleep Ch_cons L_cons;; consoleread_wait w)) by exact (Hwait (S w)).
    rewrite bind_assoc, (sleep_bind _ _ _ me) by done. eexists. split; [reflexivity|].
    intros s' Hc' Hok' Hl'. cbv beta. destruct (a_lines (cons_abs (k_cons s'))) as [|c rest] eqn:El; [done|].
    pose proof (consoleread_end (S w) dst n (awoken me s') me Hc' Hok' Hn) as Hend.
    rewrite Ek in Hend. cbn [consoleread_loop] in Hend. unfold patience in Hend. rewrite bind_assoc in Hend.
    erewrite bind_Ok in Hend by (by eapply (consoleread_ready _ _ (awoken me s'))).
    erewrite bind_Ok by (by eapply (consoleread_ready _ _ (awoken me s'))). exact Hend.
Qed.

(** The same console after the return key: the read gives the three bytes. *)
Definition sample_line : kernel :=
  sample_cons <| k_cons := Cons (10 :: replicate 125 0 ++ [97; 98]) (2 ^ 32 - 2) 1 1 |>.

Lemma consoleread_line_witness :
  a_lines (cons_abs (k_cons sample_line)) = [97; 98; 10] ∧
  ∃ m' cs, @consoleread 0%nat (Dst_phys 4096) 100 [] sample_line =
    Ok 3 [] (sample_line <| k_mach := m' |> <| k_cons := cs |>) ∧
    cons_ok cs ∧ cons_abs cs = ACons [] [].
Proof.
  assert (cons_abs (k_cons sample_line) = ACons [97; 98; 10] []) as Ha by (vm_compute; reflexivity).
  split; [by rewrite Ha|].
  assert (cons_ok (k_cons sample_line)) as Hok.
  { split; try (vm_compute; split; congruence); try (vm_compute; congruence).
    - rewrite Ha. apply not_elem_of_nil.
    - repeat (constructor; [lia|]). constructor. }
  pose proof (consoleread_line 0 (Dst_phys 4096) 100 sample_line 0 eq_refl
    ltac:(apply Nat.ltb_lt; vm_compute; reflexivity) Hok ltac:(lia)) as [P _].
  assert (∃ m', put_bytes (p_pagetable (proc_at 0 sample_line)) (Dst_phys 4096) [97; 98; 10] [L_cons]
    (k_mach sample_line) m') as [m' Hm].
  { eexists. do 3 (eexists; split; [reflexivity|]). reflexivity. }
  exists m'. specialize (P [97; 98; 10] [] m' ltac:(rewrite Ha; reflexivity) Hm). rewrite Ha in P. exact P.
Defined.
