(* ===== verification/Pipe.v ===== *)
(** * Pipes (kernel/pipe.c, without pipealloc, which is in File.v)

    A pipe is a page of memory with a ring buffer of PIPESIZE bytes; [nread] and
    [nwrite] count all bytes modulo 2^32.  Readers sleep on the address of [nread],
    writers on that of [nwrite].  The proofs give the three sides of the contract:
    bytes come out in the order they went in, the error and end-of-file cases,
    and no process stays asleep on a pipe it could use, unless a writer is killed in the
    middle of a write. *)

From Stdlib Require Import FunctionalExtensionality.
From S2P Require Import Prelude CString Riscv Kalloc Vm Kernel Sched Bytes Sample RingBuf Uart Printf Console Access.

Definition PIPESIZE : Z := 512.

Definition zero_pipe : pipe := Pipe (replicate (Z.to_nat PIPESIZE) 0) 0 0 false false.
Definition pipe_at (pa : Z) (s : kernel) : pipe := default zero_pipe (k_pipes s !! pa).
Definition getpipe (pa : Z) : KM pipe := gets (pipe_at pa).
Definition updpipe (pa : Z) (f : pipe → pipe) : KM unit := modify (λ s, s <| k_pipes ::= alter f pa |>).

Definition pipeclose (pa : Z) (writable : bool) : KM unit :=
  acquire (L_pipe pa);;
  (if writable then
     updpipe pa (λ x, x <| p_writeopen := false |>);;
     wakeup (Ch_nread pa)
   else
     updpipe pa (λ x, x <| p_readopen := false |>);;
     wakeup (Ch_nwrite pa));;
  pi ← getpipe pa;
  if negb (p_readopen pi) && negb (p_writeopen pi) then
    release (L_pipe pa);;
    in_mem (kfree pa);;
    modify (λ s, s <| k_pipes ::= delete pa |>)
  else release (L_pipe pa).

(** The rounds of [while(i < n)] that find the pipe full: false when the read end
    is closed or the process has been killed, true when there is room.  Between two of
    them the process sleeps, and is resumed in any state. *)
Fixpoint pipewrite_wait (w : nat) (pa : Z) (pr : nat) : KM bool :=
  pi ← getpipe pa;
  k ← (if negb (p_readopen pi) then mret true else killed pr);
  if k : bool then mret false else
  if p_nwrite pi =? u32 (p_nread pi + PIPESIZE) then
    wakeup (Ch_nread pa);;
    match w with
    | O => nofuel
    | S w => sleep (Ch_nwrite pa) (L_pipe pa);; pipewrite_wait w pa pr
    end
  else mret true.

(** The lock of the pipe does not keep another hart from killing the process, for [kill]
    takes only the lock of the process.  [kill_at i] tells whether one does so between the
    store of byte [i - 1] (or the beginning of the loop) and the test of [killed] for byte
    [i]; it is a parameter, as the state in which a sleeping process is resumed is. *)
Class Kills : Type := kill_at : Z → bool.
Definition killed_by_other `{Kills} (pr : nat) (i : Z) : KM unit := when (kill_at i) (setkilled pr).

(** [while(i < n)], with [k] bytes to go: [None] is the return of -1. *)
Fixpoint pipewrite_loop `{Patience} `{Kills} (k : nat) (pa : Z) (pr : nat) (addr i : Z) : KM (option Z) :=
  match k with
  | O => mret (Some i)
  | S k =>
      killed_by_other pr i;;
      ok ← pipewrite_wait patience pa pr;
      if negb ok then mret None else
      x ← getproc pr;
      '(r, bs) ← in_mem (copyin (p_pagetable x) (u64 (addr + i)) 1);
      if r =? -1 then mret (Some i) else
      updpipe pa (λ x, x <| p_data ::= <[Z.to_nat (p_nwrite x mod PIPESIZE) := nthZ bs 0]> |>);;
      updpipe pa (λ x, x <| p_nwrite ::= λ n, u32 (n + 1) |>);;
      pipewrite_loop k pa pr addr (i + 1)
  end.

Definition pipewrite `{Patience} `{Kills} (pa addr n : Z) : KM Z :=
  pr ← curproc;
  acquire (L_pipe pa);;
  i ← pipewrite_loop (Z.to_nat n) pa pr addr 0;
  match i with
  | None => release (L_pipe pa);; mret (-1)
  | Some i => wakeup (Ch_nread pa);; release (L_pipe pa);; mret i
  end.

(** [while(pi->nread == pi->nwrite && pi->writeopen)]: false when killed. *)
Fixpoint piperead_wait (w : nat) (pa : Z) (pr : nat) : KM bool :=
  pi ← getpipe pa;
  if (p_nread pi =? p_nwrite pi) && p_writeopen pi then
    k ← killed pr;
    if k : bool then mret false else
    match w with
    | O => nofuel
    | S w => sleep (Ch_nread pa) (L_pipe pa);; piperead_wait w pa pr
    end
  else mret true.

(** [for(i = 0; i < n; i++)], with [k] rounds to go. *)
Fixpoint piperead_loop (k : nat) (pa : Z) (pr : nat) (addr i : Z) : KM Z :=
  match k with
  | O => mret i
  | S k =>
      pi ← getpipe pa;
      if p_nread pi =? p_nwrite pi then mret i else
      let ch := nthZ (p_data pi) (p_nread pi mod PIPESIZE) in
      updpipe pa (λ x, x <| p_nread ::= λ n, u32 (n + 1) |>);;
      x ← getproc pr;
      r ← in_mem (copyout (p_pagetable x) (u64 (addr + i)) [ch] 1);
      if r =? -1 then mret i else piperead_loop k pa pr addr (i + 1)
  end.

Definition piperead `{Patience} (pa addr n : Z) : KM Z :=
  pr ← curproc;
  acquire (L_pipe pa);;
  ok ← piperead_wait patience pa pr;
  if negb ok then release (L_pipe pa);; mret (-1) else
  i ← piperead_loop (Z.to_nat n) pa pr addr 0;
  wakeup (Ch_nwrite pa);;
  release (L_pipe pa);;
  mret i.

(** ** The bytes in a pipe *)

Definition contents (p : pipe) : list Z := rb PIPESIZE (2 ^ 32) (p_nread p) (p_nwrite p) (p_data p).

Record pipe_ok (p : pipe) : Prop := {
  po_data : Z.of_nat (length (p_data p)) = PIPESIZE;
  po_r : 0 ≤ p_nread p < 2 ^ 32;
  po_w : 0 ≤ p_nwrite p < 2 ^ 32;
  po_len : Z.of_nat (length (contents p)) ≤ PIPESIZE;
}.

Lemma pipe_sizes : 0 < PIPESIZE < 2 ^ 32 ∧ (PIPESIZE | 2 ^ 32).
Proof. split; [unfold PIPESIZE; lia|]. exists (2 ^ 23). reflexivity. Qed.

Lemma length_contents p : Z.of_nat (length (contents p)) = rb_len (2 ^ 32) (p_nread p) (p_nwrite p).
Proof. apply length_rb, pipe_sizes. Qed.

Lemma pipe_full p :
  pipe_ok p → (p_nwrite p =? u32 (p_nread p + PIPESIZE)) = (Z.of_nat (length (contents p)) =? PIPESIZE).
Proof. intros H. rewrite length_contents. apply rb_full; [apply pipe_sizes|apply H]. Qed.

Lemma pipe_empty p :
  pipe_ok p → (p_nread p =? p_nwrite p) = (Z.of_nat (length (contents p)) =? 0).
Proof. intros H. rewrite length_contents. apply rb_empty; apply H. Qed.

Definition push (b : Z) (p : pipe) : pipe :=
  p <| p_data ::= <[Z.to_nat (p_nwrite p mod PIPESIZE) := b]> |> <| p_nwrite ::= λ n, u32 (n + 1) |>.
Definition pop (p : pipe) : pipe := p <| p_nread ::= λ n, u32 (n + 1) |>.

Lemma contents_push b p :
  pipe_ok p → Z.of_nat (length (contents p)) < PIPESIZE →
  contents (push b p) = contents p ++ [b] ∧ pipe_ok (push b p).
Proof.
  intros [H1 H2 H3 H4] Hl. destruct pipe_sizes as [Hs Hd]. rewrite length_contents in Hl.
  assert (contents (push b p) = contents p ++ [b]) as E.
  { unfold contents, push. simpl. unfold u32. by apply rb_push. }
  split; [done|]. split.
  - simpl. by rewrite length_insert.
  - done.
  - simpl. apply u32_range.
  - rewrite E, length_app. simpl. rewrite Nat2Z.inj_add, length_contents. lia.
Qed.

Lemma contents_pop p :
  pipe_ok p → contents p ≠ [] →
  contents p = nthZ (p_data p) (p_nread p mod PIPESIZE) :: contents (pop p) ∧ pipe_ok (pop p).
Proof.
  intros [H1 H2 H3 H4] Hl. destruct pipe_sizes as [Hs Hd].
  assert (0 < rb_len (2 ^ 32) (p_nread p) (p_nwrite p)) as Hpos.
  { rewrite <- length_contents. destruct (contents p); [done|]. simpl. lia. }
  assert (contents p = nthZ (p_data p) (p_nread p mod PIPESIZE) :: contents (pop p)) as E.
  { unfold contents, pop. simpl. unfold u32. by apply rb_pop. }
  split; [done|]. split; simpl; try done.
  - apply u32_range.
  - rewrite E in H4. simpl in H4. lia.
Qed.

(** ** Nobody sleeps on a pipe it could use *)

(** Process [p] waits on the channel. *)
Definition waits (ch : chan) (p : proc) : Prop := p_state p = SLEEPING ∧ p_chan p = Some ch.

Definition no_waiter (ch : chan) (s : kernel) : Prop := ∀ i p, k_procs s !! i = Some p → ¬ waits ch p.

(** Writers sleep only while the pipe is full and somebody can read it, readers
    only while it is empty and somebody can write to it. *)
Definition writers_quiet (pa : Z) (s : kernel) : Prop :=
  no_waiter (Ch_nwrite pa) s ∨
  (Z.of_nat (length (contents (pipe_at pa s))) = PIPESIZE ∧ p_readopen (pipe_at pa s) = true).
Definition readers_quiet (pa : Z) (s : kernel) : Prop :=
  no_waiter (Ch_nread pa) s ∨
  (contents (pipe_at pa s) = [] ∧ p_writeopen (pipe_at pa s) = true).

Record pipe_inv (pa : Z) (s : kernel) : Prop := {
  pi_some : is_Some (k_pipes s !! pa);
  pi_ok : pipe_ok (pipe_at pa s);
  pi_writers : writers_quiet pa s;
  pi_readers : readers_quiet pa s;
}.

(** The current process, which is not asleep. *)
Record on_cpu (me : nat) (s : kernel) : Prop := {
  oc_cur : k_cur s = Some me;
  oc_len : length (k_procs s) = Z.to_nat NPROC;
  oc_me : (me < Z.to_nat NPROC)%nat;
  oc_run : p_state (proc_at me s) ≠ SLEEPING;
}.

Lemma pipe_at_alter pa f s :
  is_Some (k_pipes s !! pa) → pipe_at pa (s <| k_pipes ::= alter f pa |>) = f (pipe_at pa s).
Proof. intros [p Hp]. unfold pipe_at. simpl. rewrite lookup_alter_eq, Hp. done. Qed.

Lemma no_waiter_wake ch ch' s me (s' := s <| k_procs ::= imap (wake (Some me) ch) |>) :
  on_cpu me s → no_waiter ch' s ∨ ch' = ch → no_waiter ch' s'.
Proof.
  intros Ho Hc i p Hp [Hsl Hch]. unfold s' in Hp. simpl in Hp. rewrite list_lookup_imap in Hp.
  destruct (k_procs s !! i) as [q|] eqn:Hq; [|done]. injection Hp as <-. unfold wake in *.
  case_decide as Hd; [done|]. destruct Hc as [Hc| ->]; [by apply (Hc i q Hq)|].
  apply Hd. split; [|done]. intros [= ->]. apply (oc_run _ _ Ho). unfold proc_at. by rewrite Hq.
Qed.

Lemma on_cpu_wake ch s me : on_cpu me s → on_cpu me (s <| k_procs ::= imap (wake (Some me) ch) |>).
Proof.
  intros [Hc Hl Hm Hr]. split; [done| |done|]; [by simpl; rewrite length_imap|].
  unfold proc_at in *. simpl. rewrite list_lookup_imap. destruct (k_procs s !! me) as [p|]; [|done].
  simpl in *. unfold wake. by case_decide.
Qed.

Lemma on_cpu_awoken s me : on_cpu me s → on_cpu me (awoken me s).
Proof.
  intros [Hc Hl Hm Hr]. split; [done| |done|]; [by simpl; rewrite length_alter|].
  unfold awoken. rewrite proc_at_alter by lia. by case_decide.
Qed.

(** Going to sleep adds one waiter; being resumed adds none. *)
Lemma no_waiter_asleep ch ch' me s : no_waiter ch' s → ch ≠ ch' → no_waiter ch' (asleep ch me s).
Proof.
  intros Hn Hne i p Hp [Hsl Hch]. unfold asleep in Hp. simpl in Hp. rewrite alter_alter in Hp.
  destruct (decide (me = i)) as [->|Hmi].
  - rewrite list_lookup_alter_eq in Hp. destruct (k_procs s !! i); [|done]. by simplify_eq/=.
  - rewrite list_lookup_alter_ne in Hp by done. by apply (Hn i p).
Qed.

Lemma no_waiter_awoken ch me s : no_waiter ch s → no_waiter ch (awoken me s).
Proof.
  intros Hn i p Hp [Hsl Hch]. unfold awoken in Hp. simpl in Hp.
  destruct (decide (me = i)) as [->|Hmi].
  - rewrite list_lookup_alter_eq in Hp. destruct (k_procs s !! i); [|done]. by simplify_eq/=.
  - rewrite list_lookup_alter_ne in Hp by done. by apply (Hn i p).
Qed.

Lemma pipe_inv_awoken pa me s : pipe_inv pa s → pipe_inv pa (awoken me s).
Proof.
  intros [H1 H2 H3 H4]. split; [done|done| |].
  - destruct H3 as [H3|H3]; [left; by apply no_waiter_awoken|by right].
  - destruct H4 as [H4|H4]; [left; by apply no_waiter_awoken|by right].
Qed.

(** The state a process with the lock of the pipe can run in: after it has added
    bytes readers may not have been told, but then nothing makes it give up. *)
Definition writing (pa : Z) (me : nat) (s : kernel) : Prop :=
  is_Some (k_pipes s !! pa) ∧ pipe_ok (pipe_at pa s) ∧ writers_quiet pa s ∧ on_cpu me s ∧
  (readers_quiet pa s ∨ p_readopen (pipe_at pa s) = true ∧ p_killed (proc_at me s) = false).

Definition pipe_ctx (pa : Z) (me : nat) (s : kernel) : Prop := pipe_inv pa s ∧ on_cpu me s.

(** The state after another hart had the occasion to kill process [me]. *)
Definition struck `{Kills} (i : Z) (me : nat) (s : kernel) : kernel :=
  if kill_at i then s <| k_procs ::= alter (λ x, x <| p_killed := true |>) me |> else s.

Lemma killed_by_other_run `{Kills} i me h s :
  L_proc me ∉ h → killed_by_other me i h s = Ok tt h (struck i me s).
Proof.
  intros Hh. unfold killed_by_other, struck. destruct (kill_at i); [|done]. cbn [when]. unfold setkilled, updproc.
  rewrite bind_acquire by done. rewrite bind_modify. by rewrite release_acquired.
Qed.

Lemma not_pipe_lock i pa : L_proc i ∉ [L_pipe pa].
Proof. by intros ?%list_elem_of_singleton. Qed.

Section Struck.
Context {Kl : Kills} (i : Z) (me : nat).

Lemma struck_spared s : kill_at i = false → struck i me s = s.
Proof. unfold struck. by intros ->. Qed.

Lemma struck_pipes s : k_pipes (struck i me s) = k_pipes s.
Proof. unfold struck. by destruct (kill_at i). Qed.

Lemma struck_pipe_at pa s : pipe_at pa (struck i me s) = pipe_at pa s.
Proof. unfold pipe_at. by rewrite struck_pipes. Qed.

Lemma struck_killed s :
  (me < length (k_procs s))%nat → p_killed (proc_at me (struck i me s)) = kill_at i || p_killed (proc_at me s).
Proof.
  intros Hm. unfold struck. destruct (kill_at i); [|done]. rewrite proc_at_alter, decide_True by done. done.
Qed.

(** Who sleeps, and on what, stays as it is. *)
Lemma struck_proc q x s : k_procs (struck i me s) !! q = Some x →
  ∃ y, k_procs s !! q = Some y ∧ p_state x = p_state y ∧ p_chan x = p_chan y.
Proof.
  unfold struck. destruct (kill_at i); [|by exists x]. cbn. destruct (decide (me = q)) as [<-|].
  - rewrite list_lookup_alter_eq. intros (y & -> & ->)%fmap_Some. by exists y.
  - rewrite list_lookup_alter_ne by done. by exists x.
Qed.

Lemma no_waiter_struck ch s : no_waiter ch s → no_waiter ch (struck i me s).
Proof.
  intros Hn q x Hx [Hsl Hch]. destruct (struck_proc q x s Hx) as (y & Hy & E1 & E2).
  apply (Hn q y Hy). split; congruence.
Qed.

Lemma on_cpu_struck s : on_cpu me s → on_cpu me (struck i me s).
Proof.
  intros [Hc Hl Hm Hr]. unfold struck. destruct (kill_at i); [|done]. split; [done| |done|].
  - cbn. by rewrite length_alter.
  - rewrite proc_at_alter, decide_True by (done || lia). done.
Qed.

Lemma writing_struck pa s :
  writing pa me s → (kill_at i = true → readers_quiet pa s) → writing pa me (struck i me s).
Proof.
  intros (Hs & Hok & Hw & Ho & Hr) Hk. destruct (kill_at i) eqn:E; [|by rewrite struck_spared].
  unfold writing, writers_quiet, readers_quiet. rewrite struck_pipes, struck_pipe_at.
  split_and!; [done|done| |by apply on_cpu_struck|left].
  - destruct Hw as [Hw|Hw]; [left; by apply no_waiter_struck|by right].
  - destruct (Hk eq_refl) as [Hq|Hq]; [left; by apply no_waiter_struck|by right].
Qed.
End Struck.

Section Wakeups.
Context (pa : Z) (me : nat).
Abbreviation prun := (runs (pipe_inv pa) (pipe_ctx pa me)).

Lemma wake_run ch s :
  on_cpu me s → wakeup ch [L_pipe pa] s = Ok tt [L_pipe pa] (s <| k_procs ::= imap (wake (Some me) ch) |>).
Proof.
  intros Ho. rewrite <- (oc_cur _ _ Ho). apply wakeup_run; [|apply Ho].
  intros i _ [?|?%not_elem_of_nil]%elem_of_cons; done.
Qed.

Lemma writable_check s :
  (if negb (p_readopen (pipe_at pa s)) then mret true else killed me) [L_pipe pa] s =
  Ok (negb (p_readopen (pipe_at pa s)) || p_killed (proc_at me s)) [L_pipe pa] s.
Proof. destruct (p_readopen (pipe_at pa s)); [|done]. apply killed_run. set_solver. Qed.

(** A full pipe: the readers are told before the writer sleeps. *)
Lemma full_sleep_inv s (s1 := s <| k_procs ::= imap (wake (Some me) (Ch_nread pa)) |>) :
  writing pa me s → Z.of_nat (length (contents (pipe_at pa s))) = PIPESIZE →
  p_readopen (pipe_at pa s) = true → pipe_inv pa (asleep (Ch_nwrite pa) me s1).
Proof.
  intros (Hs & Hok & Hw & Ho & _) Hf Hopen. split; [done|done|by right|].
  left. apply no_waiter_asleep; [|done]. apply no_waiter_wake; [done|by right].
Qed.

Lemma pipe_ctx_writing s : pipe_ctx pa me s → writing pa me (awoken me s).
Proof.
  intros [Hi Ho]. destruct (pipe_inv_awoken pa me s Hi). split_and!; try done; [by apply on_cpu_awoken|by left].
Qed.

Lemma pipewrite_wait_runs w : ∀ s, writing pa me s →
  prun (λ ok h s', h = [L_pipe pa] ∧ writing pa me s' ∧
    if ok : bool then Z.of_nat (length (contents (pipe_at pa s'))) < PIPESIZE ∧
      p_readopen (pipe_at pa s') = true ∧ p_killed (proc_at me s') = false
    else readers_quiet pa s') (pipewrite_wait w pa me [L_pipe pa] s).
Proof.
  induction w as [|w IH]; intros s Hwr; pose proof Hwr as (Hs & Hok & Hw & Ho & Hr);
    cbn [pipewrite_wait]; unfold getpipe; rewrite bind_gets; erewrite bind_Ok by apply writable_check;
    (destruct (negb (p_readopen (pipe_at pa s)) || p_killed (proc_at me s)) eqn:Hg;
      [split_and!; [done|done|]; destruct Hr as [Hr|[Hr1 Hr2]]; [done|by rewrite Hr1, Hr2 in Hg]|]);
    apply orb_false_iff in Hg as [Hopen%negb_false_iff Hk]; rewrite pipe_full by done;
    (destruct (Z.eqb_spec (Z.of_nat (length (contents (pipe_at pa s)))) PIPESIZE) as [Hf|Hf];
      [|by split_and!; try done; pose proof (po_len _ Hok); lia]);
    erewrite bind_Ok by (by apply wake_run); [done|].
  rewrite (sleep_bind _ _ _ me) by (done || (simpl; rewrite ?length_imap, (oc_len _ _ Ho); apply Ho) || apply Ho).
  split; [by apply full_sleep_inv|]. intros s' Hs'. by apply IH, pipe_ctx_writing.
Qed.

Lemma updpipe2 {A} f g (k : unit → KM A) h s :
  (updpipe pa f ≫= λ _, updpipe pa g ≫= k) h s = k tt h (s <| k_pipes ::= alter (λ x, g (f x)) pa |>).
Proof.
  unfold updpipe. rewrite !bind_modify. f_equal. unfold upd_field. f_equal. simpl.
  apply map_eq. intros i. destruct (decide (pa = i)) as [<-|].
  - rewrite !lookup_alter_eq. by destruct (k_pipes s !! pa).
  - by rewrite !lookup_alter_ne.
Qed.

(** Nothing that waits on [nwrite] can be there while there is room. *)
Lemma writers_gone s : writers_quiet pa s → Z.of_nat (length (contents (pipe_at pa s))) < PIPESIZE →
  no_waiter (Ch_nwrite pa) s.
Proof. intros [H|[H _]] Hl; [done|lia]. Qed.

Lemma writing_push b s :
  writing pa me s → Z.of_nat (length (contents (pipe_at pa s))) < PIPESIZE →
  p_readopen (pipe_at pa s) = true → p_killed (proc_at me s) = false →
  writing pa me (s <| k_pipes ::= alter (push b) pa |>).
Proof.
  intros (Hs & Hok & Hw & Ho & _) Hl Hopen Hk. destruct (contents_push b _ Hok Hl) as [_ Hok'].
  unfold writing. rewrite pipe_at_alter by done. split_and!; [|done| |by destruct Ho|by right].
  - simpl. rewrite lookup_alter_eq. by apply fmap_is_Some.
  - left. exact (writers_gone s Hw Hl).
Qed.

Lemma pipewrite_loop_runs `{Patience} `{Kills} k : (∀ i, 0 < i → kill_at i = false) → ∀ addr i s, 0 ≤ i →
  writing pa me s → (i = 0 → readers_quiet pa s) →
  prun (λ r h s', h = [L_pipe pa] ∧ writing pa me s' ∧ (r = None → readers_quiet pa s'))
    (pipewrite_loop k pa me addr i [L_pipe pa] s).
Proof.
  intros Hkill. induction k as [|k IH]; intros addr i s Hi Hs Hz; cbn [pipewrite_loop]; [done|].
  erewrite bind_Ok by (apply killed_by_other_run, not_pipe_lock). eapply runs_bind.
  { apply pipewrite_wait_runs, writing_struck; [done|]. intros Hk. apply Hz.
    destruct (decide (i = 0)); [done|]. rewrite Hkill in Hk by lia. done. }
  intros ok h s' (-> & Hs' & Hq).
  destruct ok; cbn [negb]; [|done]. destruct Hq as (Hl & Hopen & Hk). rewrite bind_getproc.
  destruct (copyin_total (p_pagetable (proc_at me s')) [L_pipe pa] (u64 (addr + i)) 1 (k_mach s')) as (r & bs & E & _).
  erewrite bind_Ok by (by apply in_mem_Ok). cbv beta iota. replace (s' <| k_mach := k_mach s' |>) with s' by by destruct s'.
  destruct (r =? -1); [done|]. rewrite updpipe2. apply IH; [lia|by apply (writing_push (nthZ bs 0))|lia].
Qed.

Lemma pipe_inv_wake ch s :
  on_cpu me s → is_Some (k_pipes s !! pa) → pipe_ok (pipe_at pa s) →
  writers_quiet pa s ∨ ch = Ch_nwrite pa → readers_quiet pa s ∨ ch = Ch_nread pa →
  pipe_inv pa (s <| k_procs ::= imap (wake (Some me) ch) |>).
Proof.
  intros Ho Hs Hok Hw Hr. split; [done|done| |].
  - destruct Hw as [[Hw|Hw]| ->]; [left|by right|left]; (apply no_waiter_wake; [done|]); [by left|by right].
  - destruct Hr as [[Hr|Hr]| ->]; [left|by right|left]; (apply no_waiter_wake; [done|]); [by left|by right].
Qed.

Lemma pipewrite_runs `{Patience} `{Kills} addr n s : (∀ i, 0 < i → kill_at i = false) → pipe_ctx pa me s →
  prun (λ _ h s', h = [] ∧ pipe_inv pa s') (pipewrite pa addr n [] s).
Proof.
  intros Hkill [Hi Ho]. unfold pipewrite. rewrite (bind_curproc _ _ _ me) by apply Ho.
  rewrite bind_acquire by apply not_elem_of_nil. eapply runs_bind.
  { destruct Hi. apply pipewrite_loop_runs; [done|done| |done]. split_and!; try done. by left. }
  intros [i|] h s' (-> & (Hs & Hok & Hw & Ho' & _) & Hr).
  - erewrite bind_Ok by (by apply wake_run). rewrite bind_release by apply not_elem_of_nil.
    split; [done|]. apply pipe_inv_wake; try done; [by left|by right].
  - rewrite bind_release by apply not_elem_of_nil. split; [done|]. split; try done. by apply Hr.
Qed.

(** Reading. *)
Definition reading (s : kernel) : Prop :=
  is_Some (k_pipes s !! pa) ∧ pipe_ok (pipe_at pa s) ∧ readers_quiet pa s ∧ on_cpu me s.

Lemma piperead_wait_runs w : ∀ s, pipe_ctx pa me s →
  prun (λ ok h s', h = [L_pipe pa] ∧ pipe_ctx pa me s') (piperead_wait w pa me [L_pipe pa] s).
Proof.
  induction w as [|w IH]; intros s [Hi Ho]; pose proof Hi as [Hs Hok Hw Hr];
    cbn [piperead_wait]; unfold getpipe; rewrite bind_gets, pipe_empty by done;
    (destruct ((Z.of_nat (length (contents (pipe_at pa s))) =? 0) && p_writeopen (pipe_at pa s)) eqn:Hg; [|done]);
    (erewrite bind_Ok; [|apply killed_run; set_solver]); (destruct (p_killed (proc_at me s)); [done|]); [done|].
  rewrite (sleep_bind _ _ _ me) by (done || (rewrite (oc_len _ _ Ho); apply Ho) || apply Ho).
  apply andb_true_iff in Hg as [He%Z.eqb_eq Hopen].
  assert (contents (pipe_at pa s) = []) as Hnil by (apply nil_length_inv; lia).
  split.
  - split; [done|done| |by right]. left. apply no_waiter_asleep; [|done].
    apply writers_gone; [done|]. rewrite He. unfold PIPESIZE. lia.
  - intros s' [Hi' Ho']. apply IH. split; [by apply pipe_inv_awoken|by apply on_cpu_awoken].
Qed.

Lemma reading_pop s :
  reading s → contents (pipe_at pa s) ≠ [] → reading (s <| k_pipes ::= alter pop pa |>).
Proof.
  intros (Hs & Hok & Hr & Ho) Hne. destruct (contents_pop _ Hok Hne) as [_ Hok'].
  unfold reading. rewrite pipe_at_alter by done. split_and!; [|done| |by destruct Ho].
  - simpl. rewrite lookup_alter_eq. by apply fmap_is_Some.
  - left. destruct Hr as [Hr|[Hr _]]; [exact Hr|done].
Qed.

Lemma reading_mach m s : reading s → reading (s <| k_mach := m |>).
Proof. intros (Hs & Hok & Hr & Ho). split_and!; try done. by destruct Ho. Qed.

Lemma piperead_loop_runs k : ∀ addr i s, reading s →
  prun (λ _ h s', h = [L_pipe pa] ∧ reading s') (piperead_loop k pa me addr i [L_pipe pa] s).
Proof.
  induction k as [|k IH]; intros addr i s Hs; cbn [piperead_loop]; [done|].
  unfold getpipe. rewrite bind_gets. rewrite pipe_empty by apply Hs.
  destruct (Z.eqb_spec (Z.of_nat (length (contents (pipe_at pa s)))) 0) as [He|Hne]; [done|].
  assert (reading (s <| k_pipes ::= alter pop pa |>)) as Hs'.
  { apply reading_pop; [done|]. intros E. by rewrite E in Hne. }
  cbv zeta. unfold updpipe. rewrite bind_modify, bind_getproc.
  destruct (copyout_total (p_pagetable (proc_at me (s <| k_pipes ::= alter pop pa |>))) [L_pipe pa] (u64 (addr + i))
    [nthZ (p_data (pipe_at pa s)) (p_nread (pipe_at pa s) mod PIPESIZE)] 1 (k_mach s)) as (r & m' & E & _).
  erewrite bind_Ok by (apply (in_mem_Ok _ _ (s <| k_pipes ::= alter pop pa |>)); exact E).
  destruct (r =? -1); [split; [done|]|apply IH]; by apply reading_mach.
Qed.

Lemma piperead_runs `{Patience} addr n s : pipe_ctx pa me s →
  prun (λ _ h s', h = [] ∧ pipe_inv pa s') (piperead pa addr n [] s).
Proof.
  intros [Hi Ho]. unfold piperead. rewrite (bind_curproc _ _ _ me) by apply Ho.
  rewrite bind_acquire by apply not_elem_of_nil. eapply runs_bind; [by apply piperead_wait_runs|].
  intros ok h s1 (-> & Hi1 & Ho1). destruct ok; cbn [negb].
  - eapply runs_bind; [apply piperead_loop_runs; by destruct Hi1|].
    intros i h s2 (-> & Hs2 & Hok2 & Hr2 & Ho2).
    erewrite bind_Ok by (by apply wake_run). rewrite bind_release by apply not_elem_of_nil.
    split; [done|]. apply pipe_inv_wake; try done; [by right|by left].
  - rewrite bind_release by apply not_elem_of_nil. done.
Qed.

(** Closing one end while the other is open tells the other side. *)
Lemma pipeclose_run (writable : bool) s :
  pipe_ctx pa me s →
  (if writable then p_readopen (pipe_at pa s) else p_writeopen (pipe_at pa s)) = true →
  ∃ s', pipeclose pa writable [] s = Ok tt [] s' ∧ pipe_inv pa s' ∧
    contents (pipe_at pa s') = contents (pipe_at pa s) ∧
    (if writable then p_writeopen (pipe_at pa s') else p_readopen (pipe_at pa s')) = false.
Proof.
  intros [[Hs Hok Hw Hr] Ho] Hother. unfold pipeclose. rewrite bind_acquire by apply not_elem_of_nil.
  set (f := λ x : pipe, if writable then x <| p_writeopen := false |> else x <| p_readopen := false |>).
  set (s1 := s <| k_pipes ::= alter f pa |>). set (ch := if writable then Ch_nread pa else Ch_nwrite pa).
  assert (pipe_at pa s1 = f (pipe_at pa s)) as E1 by by apply pipe_at_alter.
  assert (on_cpu me s1) as Ho1 by by destruct Ho.
  erewrite (bind_Ok _ _ _ _ tt [L_pipe pa] (s1 <| k_procs ::= imap (wake (Some me) ch) |>)).
  2:{ unfold s1, ch, f, updpipe. destruct writable; rewrite bind_modify; by rewrite wake_run. }
  unfold getpipe. rewrite bind_gets. change (pipe_at pa (s1 <| k_procs ::= imap (wake (Some me) ch) |>)) with (pipe_at pa s1).
  exists (s1 <| k_procs ::= imap (wake (Some me) ch) |>). split_and!.
  - rewrite E1. unfold f. destruct writable; simpl; rewrite Hother, ?andb_false_r;
      apply release_acquired, not_elem_of_nil.
  - apply pipe_inv_wake; try done.
    + unfold s1. simpl. rewrite lookup_alter_eq. by apply fmap_is_Some.
    + rewrite E1. unfold f. destruct Hok. by destruct writable.
    + unfold ch, writers_quiet. rewrite E1. unfold f. destruct writable; [left; exact Hw|by right].
    + unfold ch, readers_quiet. rewrite E1. unfold f. destruct writable; [by right|left; exact Hr].
  - change (pipe_at pa (s1 <| k_procs ::= imap (wake (Some me) ch) |>)) with (pipe_at pa s1). rewrite E1.
    unfold f. by destruct writable.
  - change (pipe_at pa (s1 <| k_procs ::= imap (wake (Some me) ch) |>)) with (pipe_at pa s1). rewrite E1.
    unfold f. by destruct writable.
Qed.
End Wakeups.

(** ** First in, first out *)

Definition pushes (bs : list Z) (p : pipe) : pipe := foldl (λ p b, push b p) p bs.
Definition pops (n : nat) (p : pipe) : pipe := Nat.iter n pop p.

Lemma contents_pushes bs : ∀ p, pipe_ok p → Z.of_nat (length (contents p) + length bs) ≤ PIPESIZE →
  contents (pushes bs p) = contents p ++ bs ∧ pipe_ok (pushes bs p).
Proof.
  induction bs as [|b bs IH]; intros p Hok Hl; simpl in *; [by rewrite app_nil_r|].
  destruct (contents_push b p Hok ltac:(lia)) as [E Hok']. destruct (IH (push b p) Hok') as [E2 Hok2].
  - rewrite E, length_app. simpl. lia.
  - rewrite E2, E, <- app_assoc. done.
Qed.

Lemma pushes_readopen bs : ∀ p, p_readopen (pushes bs p) = p_readopen p.
Proof. induction bs as [|x bs IH]; intros p; [done|]. simpl. by rewrite IH. Qed.

Lemma contents_pops n : ∀ p, pipe_ok p → (n ≤ length (contents p))%nat →
  contents (pops n p) = drop n (contents p) ∧ pipe_ok (pops n p).
Proof.
  induction n as [|n IH]; intros p Hok Hl; [by rewrite drop_0|].
  destruct (IH p Hok ltac:(lia)) as [E Hok1]. destruct (contents_pop (pops n p) Hok1) as [E2 Hok2].
  - rewrite E. intros Hn%(f_equal length). rewrite length_drop in Hn. simpl in Hn. lia.
  - change (pops (S n) p) with (pop (pops n p)). split; [|done].
    rewrite E in E2. apply (f_equal tail) in E2. simpl in E2. rewrite <- E2.
    rewrite <- (Nat.add_1_r n). by rewrite <- drop_drop.
Qed.

Definition with_pipe (pa : Z) (s : kernel) (f : pipe → pipe) : kernel := s <| k_pipes ::= alter f pa |>.

Lemma with_pipe_id pa s : with_pipe pa s id = s.
Proof.
  unfold with_pipe. destruct s as [? ? ? ? ? ? ? ? ? ? ? ? ? pipes]. unfold upd_field. simpl. f_equal.
  apply map_eq. intros i. destruct (decide (pa = i)) as [<-|]; [rewrite lookup_alter_eq|by rewrite lookup_alter_ne].
  by destruct (pipes !! pa).
Qed.

Section Fifo.
Context (pa : Z) (me : nat) (s : kernel).
Context (Ho : on_cpu me s) (Hs : is_Some (k_pipes s !! pa)) (Hok : pipe_ok (pipe_at pa s)).
Let pt := p_pagetable (proc_at me s).

(** The bytes [bs] of the process from [addr + i] on. *)
Definition user_bytes (m : machine) (t addr i : Z) (bs : list Z) : Prop :=
  ∀ j b, bs !! j = Some b → copyin t (u64 (addr + (i + Z.of_nat j))) 1 [L_pipe pa] m = Ok (0, [b]) [L_pipe pa] m.

Abbreviation with_pipe := (with_pipe pa s).

Lemma with_pipe_at f : pipe_at pa (with_pipe f) = f (pipe_at pa s).
Proof. by apply pipe_at_alter. Qed.

Lemma with_pipe_alter f g : (with_pipe f) <| k_pipes ::= alter g pa |> = with_pipe (λ x, g (f x)).
Proof.
  unfold with_pipe, upd_field. simpl. f_equal. apply map_eq. intros i. destruct (decide (pa = i)) as [<-|].
  - rewrite !lookup_alter_eq. by destruct (k_pipes s !! pa).
  - by rewrite !lookup_alter_ne.
Qed.

(** With room for them, the loop stores the next bytes and goes on. *)
Lemma pipewrite_fill (w : Patience) {Kl : Kills} b2 : ∀ k addr b1,
  (∀ i, Z.of_nat (length b1) ≤ i < Z.of_nat (length (b1 ++ b2)) → kill_at i = false) →
  p_readopen (pipe_at pa s) = true → p_killed (proc_at me s) = false →
  user_bytes (k_mach s) pt addr (Z.of_nat (length b1)) b2 →
  Z.of_nat (length (contents (pipe_at pa s)) + length (b1 ++ b2)) ≤ PIPESIZE →
  pipewrite_loop (length b2 + k) pa me addr (Z.of_nat (length b1)) [L_pipe pa] (with_pipe (pushes b1)) =
  pipewrite_loop k pa me addr (Z.of_nat (length (b1 ++ b2))) [L_pipe pa] (with_pipe (pushes (b1 ++ b2))).
Proof.
  induction b2 as [|b b2 IH]; intros k addr b1 Hkill Hopen Hk Hub Hl; [by rewrite app_nil_r|].
  rewrite length_app in Hl, Hkill. simpl length in Hl, Hkill.
  destruct (contents_pushes b1 (pipe_at pa s) Hok ltac:(lia)) as [Ec Hok1].
  cbn [length Nat.add pipewrite_loop].
  assert (pipewrite_wait w pa me [L_pipe pa] (with_pipe (pushes b1)) = Ok true [L_pipe pa] (with_pipe (pushes b1))) as Hwait.
  { destruct w; cbn [pipewrite_wait]; unfold getpipe; rewrite bind_gets;
      (erewrite bind_Ok by apply writable_check); rewrite with_pipe_at, pushes_readopen, Hopen;
      change (proc_at me (with_pipe (pushes b1))) with (proc_at me s); rewrite Hk; cbn [negb orb];
      rewrite pipe_full by done; (rewrite (proj2 (Z.eqb_neq _ PIPESIZE)); [done|]); rewrite Ec, length_app; lia. }
  erewrite bind_Ok by (apply killed_by_other_run, not_pipe_lock). rewrite struck_spared by (apply Hkill; lia).
  unfold patience. erewrite bind_Ok by exact Hwait. cbn [negb]. rewrite bind_getproc.
  change (proc_at me (with_pipe (pushes b1))) with (proc_at me s).
  pose proof (Hub 0%nat b eq_refl) as Hb. rewrite Z.add_0_r in Hb.
  erewrite bind_Ok by (apply (in_mem_Ok _ _ (with_pipe (pushes b1))); exact Hb).
  cbv beta iota. cbn [Z.eqb]. rewrite updpipe2.
  change (k_mach s) with (k_mach (with_pipe (pushes b1))). rewrite kernel_mach_id.
  rewrite with_pipe_alter.
  specialize (IH k addr (b1 ++ [b])). rewrite length_app, <- app_assoc in IH. simpl length in IH. simpl app in IH.
  replace (Z.of_nat (length b1) + 1) with (Z.of_nat (length b1 + 1)) by lia.
  etransitivity; [|apply IH].
  - f_equal. f_equal. extensionality x. unfold pushes. by rewrite foldl_app.
  - intros i. rewrite length_app. simpl length. intros Hi. apply Hkill. lia.
  - done.
  - done.
  - intros j c Hj. replace (Z.of_nat (length b1 + 1) + Z.of_nat j) with (Z.of_nat (length b1) + Z.of_nat (S j)) by lia.
    by apply Hub.
  - rewrite !length_app. simpl length. lia.
Qed.

(** Copying the bytes out one at a time from [addr + i] on takes physical memory
    from [m] to [m']. *)
Fixpoint bytes_out (t addr i : Z) (bs : list Z) (m m' : machine) : Prop :=
  match bs with
  | [] => m' = m
  | b :: bs => ∃ m1, copyout t (u64 (addr + i)) [b] 1 [L_pipe pa] m = Ok 0 [L_pipe pa] m1 ∧
      bytes_out t addr (i + 1) bs m1 m'
  end.

Lemma pops_S n p : pops (S n) p = pops n (pop p).
Proof. induction n as [|n IH]; [done|]. change (pop (pops (S n) p) = pop (pops n (pop p))). by rewrite IH. Qed.

Lemma piperead_drain bs : ∀ k n addr i m m',
  (n + length bs ≤ length (contents (pipe_at pa s)))%nat →
  bs = take k (drop n (contents (pipe_at pa s))) → bytes_out pt addr i bs m m' →
  piperead_loop k pa me addr i [L_pipe pa] ((with_pipe (pops n)) <| k_mach := m |>) =
  Ok (i + Z.of_nat (length bs)) [L_pipe pa] ((with_pipe (pops (n + length bs))) <| k_mach := m' |>).
Proof.
  induction bs as [|b bs IH]; intros k n addr i m m' Hl Hbs Hout; simpl in Hl, Hout;
    (destruct (contents_pops n (pipe_at pa s) Hok ltac:(lia)) as [Ec Hok1]).
  - subst m'. simpl length. rewrite Nat.add_0_r, Z.add_0_r. destruct k as [|k]; [done|].
    cbn [piperead_loop]. unfold getpipe. rewrite bind_gets.
    change (pipe_at pa ((with_pipe (pops n)) <| k_mach := m |>)) with (pipe_at pa (with_pipe (pops n))).
    rewrite with_pipe_at, pipe_empty by done. rewrite Ec.
    destruct (drop n (contents (pipe_at pa s))); [done|]. by simpl in Hbs.
  - destruct k as [|k]; [done|]. destruct (drop n (contents (pipe_at pa s))) as [|b' l] eqn:Ed; [done|].
    simpl in Hbs. injection Hbs as <- Hbs. destruct Hout as (m1 & E1 & Hout).
    assert (contents (pops n (pipe_at pa s)) ≠ []) as Hne by by rewrite Ec.
    destruct (contents_pop _ Hok1 Hne) as [Ep Hok2]. rewrite Ec in Ep. injection Ep as Hb Hrest.
    cbn [piperead_loop]. unfold getpipe. rewrite bind_gets.
    change (pipe_at pa ((with_pipe (pops n)) <| k_mach := m |>)) with (pipe_at pa (with_pipe (pops n))).
    rewrite with_pipe_at, pipe_empty, Ec by done. cbn [length]. rewrite (proj2 (Z.eqb_neq _ 0)) by lia.
    cbv zeta. rewrite <- Hb. unfold updpipe. rewrite bind_modify, bind_getproc.
    change (λ x : pipe, x <| p_nread ::= λ n0, u32 (n0 + 1) |>) with pop.
    assert (((with_pipe (pops n)) <| k_mach := m |>) <| k_pipes ::= alter pop pa |> =
      (with_pipe (pops (S n))) <| k_mach := m |>) as Hst.
    { change (((with_pipe (pops n)) <| k_pipes ::= alter pop pa |>) <| k_mach := m |> = (with_pipe (pops (S n))) <| k_mach := m |>).
      by rewrite with_pipe_alter. }
    rewrite Hst. erewrite bind_Ok by (apply (in_mem_Ok _ _ ((with_pipe (pops (S n))) <| k_mach := m |>)); exact E1).
    cbn [Z.eqb]. etransitivity; [apply (IH k (S n) addr (i + 1) m1 m')|].
    + lia.
    + rewrite Hbs. f_equal. rewrite <- Nat.add_1_r, <- drop_drop, Ed. done.
    + done.
    + replace (i + 1 + Z.of_nat (length bs)) with (i + Z.of_nat (length (b :: bs))) by (simpl length; lia).
      by replace (S n + length bs)%nat with (n + length (b :: bs))%nat by (simpl length; lia).
Qed.
End Fifo.

(** ** Properties *)

(** C34: no process stays asleep on a pipe it could use.  Suppose that writers sleep
    only on a full pipe that can still be read and readers only on an empty pipe
    that can still be written.  Then this is so again whenever [pipewrite] or
    [piperead] gives up the CPU, however often it sleeps and whatever happened
    meanwhile, and when it returns; neither panics, for any user address; and
    closing one end, while the other is open, keeps it.  For [pipewrite] there is one
    exception, which [pipewrite_killed_strands] below shows to be a real one: no other
    hart kills the writer after it has stored a byte of this write. *)
Theorem pipe_no_lost_wakeup (w : nat) {Kl : Kills} (pa addr n : Z) (me : nat) (s : kernel) :
  pipe_ctx pa me s →
  let returns := runs (pipe_inv pa) (pipe_ctx pa me) (λ (_ : Z) h s', h = [] ∧ pipe_inv pa s') in
  ((∀ i, 0 < i → kill_at i = false) → returns (@pipewrite w Kl pa addr n [] s)) ∧
  returns (@piperead w pa addr n [] s) ∧
  ∀ writable : bool, (if writable then p_readopen (pipe_at pa s) else p_writeopen (pipe_at pa s)) = true →
    ∃ s', pipeclose pa writable [] s = Ok tt [] s' ∧ pipe_inv pa s'.
Proof.
  intros Hc returns. split_and!; [intros Hk; by apply pipewrite_runs|by apply piperead_runs|].
  intros writable Ho. destruct (pipeclose_run pa me writable s Hc Ho) as (s' & E & Hi & _). by exists s'.
Qed.

Lemma bind_pipewrite_full w {Kl : Kills} me pa k addr i s :
  on_cpu me s → is_Some (k_pipes s !! pa) → pipe_ok (pipe_at pa s) → p_readopen (pipe_at pa s) = true →
  p_killed (proc_at me s) = false → kill_at i = false → Z.of_nat (length (contents (pipe_at pa s))) = PIPESIZE →
  ∀ (K : option Z → KM Z), ∃ c, (@pipewrite_loop (S w) Kl (S k) pa me addr i ≫= K) [L_pipe pa] s =
    Block [L_proc me] (asleep (Ch_nwrite pa) me (s <| k_procs ::= imap (wake (Some me) (Ch_nread pa)) |>)) c.
Proof.
  intros Ho Hs Hok Hopen Hk Hi Hf K. cbn [pipewrite_loop]. rewrite bind_assoc.
  erewrite bind_Ok by (apply killed_by_other_run, not_pipe_lock). rewrite struck_spared by done.
  rewrite bind_assoc. unfold patience at 1.
  cbn [pipewrite_wait]. unfold getpipe. rewrite bind_assoc, bind_gets, bind_assoc.
  erewrite bind_Ok by apply writable_check. rewrite Hopen, Hk. cbn [negb orb].
  rewrite pipe_full, Hf, Z.eqb_refl by done. rewrite bind_assoc. erewrite bind_Ok by (by apply wake_run).
  rewrite bind_assoc, (sleep_bind _ _ _ me); [by eexists|apply Ho| |done].
  simpl. rewrite length_imap, (oc_len _ _ Ho). apply Ho.
Qed.

Lemma pipewrite_refused w {Kl : Kills} pa me k addr i s :
  on_cpu me s → negb (p_readopen (pipe_at pa s)) || (kill_at i || p_killed (proc_at me s)) = true →
  @pipewrite_loop w Kl (S k) pa me addr i [L_pipe pa] s = Ok None [L_pipe pa] (struck i me s).
Proof.
  intros Ho Hg. cbn [pipewrite_loop]. erewrite bind_Ok by (apply killed_by_other_run, not_pipe_lock).
  rewrite (bind_Ok _ _ _ _ false [L_pipe pa] (struck i me s)); [done|].
  unfold patience. destruct w; cbn [pipewrite_wait]; unfold getpipe; rewrite bind_gets;
    (erewrite bind_Ok by apply writable_check);
    (rewrite struck_killed by (rewrite (oc_len _ _ Ho); apply Ho)); by rewrite struck_pipe_at, Hg.
Qed.

(** The first [j] bytes, if they fit and nobody kills the writer, are stored first. *)
Lemma pipewrite_prefix w {Kl : Kills} pa addr bs me s j :
  is_Some (k_pipes s !! pa) → pipe_ok (pipe_at pa s) →
  user_bytes pa (k_mach s) (p_pagetable (proc_at me s)) addr 0 bs →
  p_readopen (pipe_at pa s) = true → p_killed (proc_at me s) = false →
  Z.of_nat (length (contents (pipe_at pa s)) + j) ≤ PIPESIZE →
  (∀ i, 0 ≤ i < Z.of_nat (length (take j bs)) → kill_at i = false) →
  @pipewrite_loop w Kl (length bs) pa me addr 0 [L_pipe pa] s =
  @pipewrite_loop w Kl (length (drop j bs)) pa me addr (Z.of_nat (length (take j bs))) [L_pipe pa]
    (with_pipe pa s (pushes (take j bs))).
Proof.
  intros Hs Hok Hub Hopen Hk Hl Hkill.
  pose proof (pipewrite_fill pa me s Hs Hok w (take j bs) (length (drop j bs)) addr [] Hkill Hopen Hk) as Hfill.
  simpl app in Hfill. change (with_pipe pa s (pushes [])) with (with_pipe pa s id) in Hfill.
  rewrite with_pipe_id in Hfill. rewrite <- (take_drop j bs) at 1. rewrite length_app. apply Hfill.
  - intros i b Hi. apply lookup_take_Some in Hi as [Hi _]. by apply Hub.
  - rewrite length_take. lia.
Qed.

Section Write.
Context (w : nat) {Kl : Kills} (pa addr : Z) (bs : list Z) (me : nat) (s : kernel).
Context (Ho : on_cpu me s) (Hs : is_Some (k_pipes s !! pa)) (Hok : pipe_ok (pipe_at pa s)).
Context (Hub : user_bytes pa (k_mach s) (p_pagetable (proc_at me s)) addr 0 bs).
Let room := Z.to_nat (PIPESIZE - Z.of_nat (length (contents (pipe_at pa s)))).

Lemma pipewrite_unfold p : @pipewrite p Kl pa addr (Z.of_nat (length bs)) [] s =
  (i ← @pipewrite_loop p Kl (length bs) pa me addr 0;
   match i with
   | None => release (L_pipe pa);; mret (-1)
   | Some i => wakeup (Ch_nread pa);; release (L_pipe pa);; mret i
   end) [L_pipe pa] s.
Proof.
  unfold pipewrite. rewrite (bind_curproc _ _ _ me) by apply Ho.
  rewrite bind_acquire by apply not_elem_of_nil. by rewrite Nat2Z.id.
Qed.

Lemma room_fits j : (j ≤ room)%nat → Z.of_nat (length (contents (pipe_at pa s)) + j) ≤ PIPESIZE.
Proof. intros Hj. pose proof (po_len _ Hok). unfold room in Hj. lia. Qed.

Lemma pushed_contents j : (j ≤ room)%nat →
  contents (pipe_at pa (with_pipe pa s (pushes (take j bs)))) = contents (pipe_at pa s) ++ take j bs ∧
  pipe_ok (pipe_at pa (with_pipe pa s (pushes (take j bs)))).
Proof.
  intros Hj%room_fits. rewrite (with_pipe_at pa s Hs). apply contents_pushes; [done|]. rewrite length_take. lia.
Qed.

Lemma on_cpu_with_pipe f : on_cpu me (with_pipe pa s f).
Proof. by destruct Ho. Qed.

(** The first kill comes when [j] bytes are stored. *)
Lemma pipewrite_killed j :
  p_readopen (pipe_at pa s) = true → p_killed (proc_at me s) = false → (j ≤ room)%nat → (j < length bs)%nat →
  kill_at (Z.of_nat j) = true → (∀ i, 0 ≤ i < Z.of_nat j → kill_at i = false) →
  @pipewrite w Kl pa addr (Z.of_nat (length bs)) [] s =
  Ok (-1) [] (struck (Z.of_nat j) me (with_pipe pa s (pushes (take j bs)))).
Proof.
  intros Hopen Hk Hj Hlt Hat Hbefore. rewrite pipewrite_unfold.
  assert (length (take j bs) = j) as Ej by (rewrite length_take; lia).
  erewrite (bind_eq (@pipewrite_loop w _ _ _ _ _ _)); [|apply (pipewrite_prefix w pa addr bs me s j); try done].
  2: by apply room_fits.
  2: by rewrite Ej.
  rewrite Ej, length_drop. replace (length bs - j)%nat with (S (length bs - j - 1)) by lia.
  erewrite bind_Ok by (apply pipewrite_refused; [apply on_cpu_with_pipe|by rewrite Hat, orb_true_r]).
  cbv iota. by rewrite bind_release by apply not_elem_of_nil.
Qed.

Lemma pipewrite_spared (n := Z.of_nat (length bs)) (s' := with_pipe pa s (pushes (take room bs)))
    (woken := s' <| k_procs ::= imap (wake (Some me) (Ch_nread pa)) |>) :
  p_readopen (pipe_at pa s) = true → p_killed (proc_at me s) = false →
  (∀ i, 0 ≤ i ≤ Z.of_nat room → i < n → kill_at i = false) →
  if n <=? Z.of_nat room then @pipewrite w Kl pa addr n [] s = Ok n [] woken
  else ∃ k, @pipewrite (S w) Kl pa addr n [] s = Block [L_proc me] (asleep (Ch_nwrite pa) me woken) k.
Proof.
  intros Hopen Hk Hkill. destruct (pushed_contents room) as [Ec Hok']; [done|]. fold s' in Ec, Hok'.
  assert (∀ p, @pipewrite_loop p Kl (length bs) pa me addr 0 [L_pipe pa] s =
    @pipewrite_loop p Kl (length (drop room bs)) pa me addr (Z.of_nat (length (take room bs))) [L_pipe pa] s') as Hpre.
  { intros p. apply pipewrite_prefix; try done; [by apply room_fits|]. intros i. rewrite length_take.
    intros Hi. apply Hkill; unfold n; lia. }
  unfold n. rewrite !pipewrite_unfold. pose proof (po_len _ Hok) as Hlen.
  destruct (Z.leb_spec (Z.of_nat (length bs)) (Z.of_nat room)) as [Hle|Hgt].
  - erewrite (bind_eq (@pipewrite_loop w _ _ _ _ _ _)) by exact (Hpre w).
    rewrite drop_ge, take_ge by lia. cbn [length pipewrite_loop]. rewrite bind_ret.
    erewrite bind_Ok; [|apply wake_run, on_cpu_with_pipe]. by rewrite bind_release by apply not_elem_of_nil.
  - erewrite (bind_eq (@pipewrite_loop (S w) _ _ _ _ _ _)) by exact (Hpre (S w)).
    rewrite length_drop. replace (length bs - room)%nat with (S (length bs - room - 1)) by lia.
    apply bind_pipewrite_full; [apply on_cpu_with_pipe| |done| |done|apply Hkill; rewrite ?length_take; unfold n; lia|].
    + unfold s', with_pipe. simpl. rewrite lookup_alter_eq. by apply fmap_is_Some.
    + unfold s'. rewrite with_pipe_at by done. by rewrite pushes_readopen.
    + rewrite Ec, length_app, length_take. unfold room. lia.
Qed.
End Write.

(** C35: writing to a pipe appends to it.  While the read end is open and the process
    has not been killed, the bytes go to the end of the pipe in order: all of
    them when there is room, and the readers are woken up; otherwise as many as
    fit, after which the writer wakes the readers and sleeps.  With the read
    end closed, or killed, a write of at least one byte fails and changes
    nothing.  If another hart kills the writer when it has stored [j] bytes, these stay in
    the pipe and the write fails, without a wakeup of the readers. *)
Theorem pipewrite_fifo (w : nat) {Kl : Kills} (pa addr : Z) (bs : list Z) (me : nat) (s : kernel) :
  on_cpu me s → is_Some (k_pipes s !! pa) → pipe_ok (pipe_at pa s) → bs ≠ [] →
  user_bytes pa (k_mach s) (p_pagetable (proc_at me s)) addr 0 bs →
  let n := Z.of_nat (length bs) in
  let room := Z.to_nat (PIPESIZE - Z.of_nat (length (contents (pipe_at pa s)))) in
  let s' := with_pipe pa s (pushes (take room bs)) in
  let woken := s' <| k_procs ::= imap (wake (Some me) (Ch_nread pa)) |> in
  if negb (p_readopen (pipe_at pa s)) || p_killed (proc_at me s)
  then @pipewrite w Kl pa addr n [] s = Ok (-1) [] (struck 0 me s)
  else
    contents (pipe_at pa s') = contents (pipe_at pa s) ++ take room bs ∧ pipe_ok (pipe_at pa s') ∧
    ((∀ i, 0 ≤ i ≤ Z.of_nat room → i < n → kill_at i = false) →
     if n <=? Z.of_nat room then @pipewrite w Kl pa addr n [] s = Ok n [] woken
     else ∃ k, @pipewrite (S w) Kl pa addr n [] s = Block [L_proc me] (asleep (Ch_nwrite pa) me woken) k) ∧
    ∀ j : nat, (j ≤ room)%nat → (j < length bs)%nat → kill_at (Z.of_nat j) = true →
      (∀ i, 0 ≤ i < Z.of_nat j → kill_at i = false) →
      let s1 := with_pipe pa s (pushes (take j bs)) in
      contents (pipe_at pa s1) = contents (pipe_at pa s) ++ take j bs ∧
      @pipewrite w Kl pa addr n [] s = Ok (-1) [] (struck (Z.of_nat j) me s1).
Proof.
  intros Ho Hs Hok Hne Hub n room s' woken.
  destruct (negb (p_readopen (pipe_at pa s)) || p_killed (proc_at me s)) eqn:Hg.
  { unfold n. rewrite (pipewrite_unfold pa addr bs me s Ho). destruct bs as [|b bs]; [done|].
    erewrite bind_Ok by (apply pipewrite_refused; [done|];
      apply orb_true_iff in Hg as [->| ->]; by rewrite ?orb_true_r). cbv iota.
    by rewrite bind_release by apply not_elem_of_nil. }
  apply orb_false_iff in Hg as [Hopen%negb_false_iff Hk].
  destruct (pushed_contents pa bs s Hs Hok room) as [Ec Hok']; [done|]. split_and!; [done|done|by apply pipewrite_spared|].
  intros j Hj Hlt Hat Hbefore s1. split; [by apply pushed_contents|]. by apply pipewrite_killed.
Qed.

(** A writer that is killed in the middle leaves readers asleep on a pipe with bytes. *)
Lemma pipewrite_killed_strands (w : nat) {Kl : Kills} (pa addr : Z) (bs : list Z) (me q j : nat) x (s : kernel) :
  on_cpu me s → is_Some (k_pipes s !! pa) → pipe_ok (pipe_at pa s) →
  user_bytes pa (k_mach s) (p_pagetable (proc_at me s)) addr 0 bs →
  p_readopen (pipe_at pa s) = true → p_killed (proc_at me s) = false → contents (pipe_at pa s) = [] →
  q ≠ me → k_procs s !! q = Some x → waits (Ch_nread pa) x →
  (0 < j < length bs)%nat → (length bs ≤ Z.to_nat PIPESIZE)%nat →
  kill_at (Z.of_nat j) = true → (∀ i, 0 ≤ i < Z.of_nat j → kill_at i = false) →
  ∃ s', @pipewrite w Kl pa addr (Z.of_nat (length bs)) [] s = Ok (-1) [] s' ∧
    contents (pipe_at pa s') = take j bs ∧ take j bs ≠ [] ∧ k_procs s' !! q = Some x ∧ ¬ readers_quiet pa s'.
Proof.
  intros Ho Hs Hok Hub Hopen Hk He Hq Hx Hw Hj Hlen Hat Hbefore.
  assert (j ≤ Z.to_nat (PIPESIZE - Z.of_nat (length (contents (pipe_at pa s)))))%nat as Hroom by (rewrite He; simpl; lia).
  destruct (pushed_contents pa bs s Hs Hok j Hroom) as [Ec _]. rewrite He in Ec. simpl in Ec.
  assert (take j bs ≠ []) as Hne. { destruct bs, j; simpl in *; lia || done. }
  eexists. split; [exact (pipewrite_killed w pa addr bs me s Ho Hs Hok Hub j Hopen Hk Hroom ltac:(lia) Hat Hbefore)|]. unfold readers_quiet. rewrite struck_pipe_at, Ec.
  assert (k_procs (struck (Z.of_nat j) me (with_pipe pa s (pushes (take j bs)))) !! q = Some x) as Hx'.
  { unfold struck. rewrite Hat. cbn. by rewrite list_lookup_alter_ne. }
  split_and!; [done|done|done|]. intros [Hn|[? _]]; [by apply (Hn q x)|done].
Qed.

Lemma piperead_ready w pa me s :
  pipe_ok (pipe_at pa s) → contents (pipe_at pa s) ≠ [] ∨ p_writeopen (pipe_at pa s) = false →
  piperead_wait w pa me [L_pipe pa] s = Ok true [L_pipe pa] s.
Proof.
  intros Hok Hg. assert ((p_nread (pipe_at pa s) =? p_nwrite (pipe_at pa s)) && p_writeopen (pipe_at pa s) = false) as E.
  { rewrite pipe_empty by done. destruct Hg as [Hg| ->]; [|apply andb_false_r].
    destruct (contents (pipe_at pa s)); [done|]. done. }
  destruct w; cbn [piperead_wait]; unfold getpipe; by rewrite bind_gets, E.
Qed.

(** C36: reading from a pipe takes the oldest bytes.  A read returns as many bytes as
    asked for or as there are, copied in order to the process, removes exactly
    those from the front of the pipe and wakes the writers; it returns 0, the end
    of file, only from an empty pipe without writers.  On an empty pipe with
    writers a killed process gets -1 and any other sleeps. *)
Theorem piperead_fifo (w : nat) (pa addr n : Z) (me : nat) (s : kernel) (m' : machine) :
  on_cpu me s → is_Some (k_pipes s !! pa) → pipe_ok (pipe_at pa s) → 0 < n →
  let old := contents (pipe_at pa s) in
  let bs := take (Z.to_nat n) old in
  bytes_out pa (p_pagetable (proc_at me s)) addr 0 bs (k_mach s) m' →
  if bool_decide (old = []) && p_writeopen (pipe_at pa s) then
    if p_killed (proc_at me s) then @piperead w pa addr n [] s = Ok (-1) [] s
    else ∃ k, @piperead (S w) pa addr n [] s = Block [L_proc me] (asleep (Ch_nread pa) me s) k
  else
    let s' := (with_pipe pa s (pops (length bs))) <| k_mach := m' |> in
    contents (pipe_at pa s') = drop (Z.to_nat n) old ∧ pipe_ok (pipe_at pa s') ∧
    @piperead w pa addr n [] s =
    Ok (Z.min n (Z.of_nat (length old))) [] (s' <| k_procs ::= imap (wake (Some me) (Ch_nwrite pa)) |>).
Proof.
  intros Ho Hs Hok Hn old bs Hout. unfold piperead. rewrite !(bind_curproc _ _ _ me) by apply Ho.
  rewrite !bind_acquire by apply not_elem_of_nil. unfold patience.
  destruct (bool_decide (old = []) && p_writeopen (pipe_at pa s)) eqn:Hg.
  - apply andb_true_iff in Hg as [He%bool_decide_eq_true Hopen].
    assert ((p_nread (pipe_at pa s) =? p_nwrite (pipe_at pa s)) && p_writeopen (pipe_at pa s) = true) as E.
    { rewrite pipe_empty by done. unfold old in He. by rewrite He, Hopen. }
    assert (killed me [L_pipe pa] s = Ok (p_killed (proc_at me s)) [L_pipe pa] s) as Ek
      by (apply killed_run; set_solver).
    destruct (p_killed (proc_at me s)) eqn:Hk.
    + assert (piperead_wait w pa me [L_pipe pa] s = Ok false [L_pipe pa] s) as Ew.
      { destruct w; cbn [piperead_wait]; unfold getpipe; rewrite bind_gets, E; by erewrite bind_Ok by exact Ek. }
      erewrite bind_Ok by exact Ew. cbn [negb]. by rewrite bind_release by apply not_elem_of_nil.
    + cbn [piperead_wait]. unfold getpipe. rewrite bind_assoc, bind_gets, E, bind_assoc.
      erewrite bind_Ok by exact Ek. cbv iota. rewrite bind_assoc, (sleep_bind _ _ _ me); [by eexists|apply Ho| |done].
      rewrite (oc_len _ _ Ho). apply Ho.
  - set (s' := (with_pipe pa s (pops (length bs))) <| k_mach := m' |>). cbv zeta.
    assert (length bs = Z.to_nat (Z.min n (Z.of_nat (length old)))) as Hlb by (unfold bs; rewrite length_take; lia).
    destruct (contents_pops (length bs) (pipe_at pa s) Hok) as [Ec Hok']; [fold old; lia|].
    assert (pipe_at pa s' = pops (length bs) (pipe_at pa s)) as Ep by by apply with_pipe_at.
    rewrite Ep. split_and!; [|done|].
    { rewrite Ec. fold old. destruct (decide (n ≤ Z.of_nat (length old))).
      - f_equal. lia.
      - rewrite !drop_ge by lia. done. }
    rewrite (bind_Ok _ _ _ _ true [L_pipe pa] s).
    2:{ apply piperead_ready; [done|]. apply andb_false_iff in Hg as [Hg|Hg]; [left|by right].
        by apply bool_decide_eq_false in Hg. }
    cbn [negb]. pose proof (piperead_drain pa me s Hs Hok bs (Z.to_nat n) 0 addr 0 (k_mach s) m') as Hd.
    change (with_pipe pa s (pops 0)) with (with_pipe pa s id) in Hd. rewrite with_pipe_id, kernel_mach_id in Hd.
    erewrite bind_Ok by (apply Hd; [fold old; simpl; lia|done|done]). fold s'.
    erewrite bind_Ok by (apply wake_run; by destruct Ho). rewrite bind_release by apply not_elem_of_nil.
    unfold mret, M_ret. f_equal. lia.
Qed.

(** When the copy to the process fails, [piperead] has already removed the byte from
    the pipe: the read returns 0, as at the end of file, and the byte is lost. *)
Lemma piperead_fault_loses_byte w pa addr n me s b rest m' :
  on_cpu me s → is_Some (k_pipes s !! pa) → pipe_ok (pipe_at pa s) → 0 < n →
  contents (pipe_at pa s) = b :: rest →
  copyout (p_pagetable (proc_at me s)) (u64 (addr + 0)) [b] 1 [L_pipe pa] (k_mach s) = Ok (-1) [L_pipe pa] m' →
  ∃ s', @piperead w pa addr n [] s = Ok 0 [] s' ∧ contents (pipe_at pa s') = rest.
Proof.
  intros Ho Hs Hok Hn Hc Hout. destruct (contents_pop _ Hok) as [Ep _]; [by rewrite Hc|].
  rewrite Hc in Ep. injection Ep as Hb Hrest. unfold piperead. rewrite (bind_curproc _ _ _ me) by apply Ho.
  rewrite bind_acquire by apply not_elem_of_nil. unfold patience.
  rewrite (bind_Ok _ _ _ _ true [L_pipe pa] s) by (apply piperead_ready; [done|left; by rewrite Hc]).
  cbn [negb]. destruct (Z.to_nat n) as [|k] eqn:Ek; [lia|]. cbn [piperead_loop]. unfold getpipe.
  rewrite bind_assoc, bind_gets, pipe_empty, Hc by done. cbn [length]. rewrite (proj2 (Z.eqb_neq _ 0)) by lia.
  cbv zeta. rewrite <- Hb. unfold updpipe. rewrite bind_assoc, bind_modify, bind_assoc, bind_getproc, bind_assoc.
  change (λ x : pipe, x <| p_nread ::= λ n0, u32 (n0 + 1) |>) with pop. fold (with_pipe pa s pop).
  erewrite bind_Ok by (apply (in_mem_Ok _ _ (with_pipe pa s pop)); exact Hout). cbn [Z.eqb Pos.eqb]. rewrite bind_ret.
  erewrite bind_Ok by (apply wake_run; by destruct Ho). rewrite bind_release by apply not_elem_of_nil.
  eexists. split; [reflexivity|]. rewrite Hrest. f_equal. by apply (with_pipe_at pa s).
Qed.

(** ** A concrete pipe: 510 bytes, with counters that have wrapped around, and a
    process with one page of memory at address 0. *)

Definition tiny_root : Z := 0x87000000.
Definition tiny_machine : machine :=
  let link pa flags m a := store64 m a (Z.lor (PA2PTE pa) flags) in
  let m := link 0x87001000 PTE_V ∅ tiny_root in
  let m := link 0x87002000 PTE_V m 0x87001000 in
  let m := link 0x87003000 (Z.lor PTE_V (Z.lor PTE_U (Z.lor PTE_R PTE_W))) m 0x87002000 in
  Machine 0x80010000 (store_bytes m 0x87003000 [1; 2; 3; 4]) 0.

Definition sample_pa : Z := 0x87004000.
Definition sample_pipe : kernel :=
  let s := running tiny_machine (Disk ∅ []) in
  s <| k_procs ::= alter (λ p, p <| p_pagetable := tiny_root |>) 0%nat |>
    <| k_pipes := {[ sample_pa := Pipe (replicate 512 7) (2 ^ 32 - 2) 508 true true ]} |>.

Lemma sample_pipe_on_cpu : on_cpu 0 sample_pipe.
Proof. split; try (vm_compute; reflexivity); [vm_compute; lia|vm_compute; discriminate]. Qed.

Lemma sample_pipe_some : is_Some (k_pipes sample_pipe !! sample_pa).
Proof. eexists. reflexivity. Qed.

Lemma sample_pipe_ok : pipe_ok (pipe_at sample_pa sample_pipe).
Proof. split; try (vm_compute; split; congruence); vm_compute; congruence. Qed.

Lemma sample_pipe_idle ch : no_waiter ch sample_pipe.
Proof.
  assert (forallb (λ p, negb (bool_decide (p_state p = SLEEPING))) (k_procs sample_pipe) = true) as H
    by (vm_compute; reflexivity).
  rewrite forallb_forall in H. intros i p Hp [Hs _]. apply list_elem_of_lookup_2, list_elem_of_In, H in Hp.
  rewrite bool_decide_true in Hp by done. done.
Qed.

Lemma pipe_no_lost_wakeup_witness :
  runs (pipe_inv sample_pa) (pipe_ctx sample_pa 0) (λ (_ : Z) h s', h = [] ∧ pipe_inv sample_pa s')
    (@pipewrite 7%nat (λ i, i =? 0) sample_pa 0 4 [] sample_pipe).
Proof.
  assert (pipe_ctx sample_pa 0 sample_pipe) as Hc.
  { split; [|exact sample_pipe_on_cpu].
    split; [exact sample_pipe_some|exact sample_pipe_ok|left; apply sample_pipe_idle..]. }
  pose proof (pipe_no_lost_wakeup (Kl := λ i, i =? 0) 7 sample_pa 0 4 0 sample_pipe Hc) as P. cbv zeta in P.
  destruct P as [P _]. apply P. intros i Hi. apply Z.eqb_neq. lia.
Defined.

(** Of four bytes two fit; then the writer sleeps. *)
Lemma pipewrite_fifo_witness :
  ∃ s' k, contents (pipe_at sample_pa s') = replicate 510 7 ++ [1; 2] ∧
    @pipewrite 1%nat (λ i, i =? 3) sample_pa 0 4 [] sample_pipe =
    Block [L_proc 0] (asleep (Ch_nwrite sample_pa) 0 (s' <| k_procs ::= imap (wake (Some 0%nat) (Ch_nread sample_pa)) |>)) k.
Proof.
  assert (user_bytes sample_pa (k_mach sample_pipe) (p_pagetable (proc_at 0 sample_pipe)) 0 0 [1; 2; 3; 4]) as Hub.
  { intros j b Hj. do 4 (destruct j as [|j]; [injection Hj as <-; vm_compute; reflexivity|]). done. }
  pose proof (pipewrite_fifo (Kl := λ i, i =? 3) 0 sample_pa 0 [1; 2; 3; 4] 0 sample_pipe sample_pipe_on_cpu sample_pipe_some
    sample_pipe_ok ltac:(discriminate) Hub) as P. cbv zeta in P.
  assert (negb (p_readopen (pipe_at sample_pa sample_pipe)) || p_killed (proc_at 0 sample_pipe) = false) as E1
    by (vm_compute; reflexivity). rewrite E1 in P.
  assert (contents (pipe_at sample_pa sample_pipe) = replicate 510 7) as E2 by (vm_compute; reflexivity).
  rewrite E2 in P. rewrite length_replicate in P. destruct P as (Pc & _ & Pb & _).
  change (Z.to_nat (PIPESIZE - Z.of_nat 510)) with 2%nat in *. cbn [take length] in Pc, Pb.
  specialize (Pb ltac:(intros i Hi _; apply Z.eqb_neq; lia)).
  change (Z.of_nat 4 <=? Z.of_nat 2) with false in Pb. cbv iota in Pb. destruct Pb as [k Pb].
  eexists. exists k. split; [exact Pc|exact Pb].
Defined.

Lemma piperead_fifo_witness :
  ∃ s', contents (pipe_at sample_pa s') = replicate 507 7 ∧
    @piperead 0%nat sample_pa 0 3 [] sample_pipe =
    Ok 3 [] (s' <| k_procs ::= imap (wake (Some 0%nat) (Ch_nwrite sample_pa)) |>).
Proof.
  assert (contents (pipe_at sample_pa sample_pipe) = replicate 510 7) as E2 by (vm_compute; reflexivity).
  assert (∃ m', bytes_out sample_pa (p_pagetable (proc_at 0 sample_pipe)) 0 0
    (take (Z.to_nat 3) (contents (pipe_at sample_pa sample_pipe))) (k_mach sample_pipe) m') as [m' Hm].
  { rewrite E2. change (take (Z.to_nat 3) (replicate 510 7)) with [7; 7; 7].
    eexists. do 3 (eexists; split; [vm_compute; reflexivity|]). reflexivity. }
  pose proof (piperead_fifo 0 sample_pa 0 3 0 sample_pipe m' sample_pipe_on_cpu sample_pipe_some
    sample_pipe_ok ltac:(lia) Hm) as P. cbv zeta in P. rewrite E2 in P.
  rewrite bool_decide_false in P by discriminate. cbn [andb] in P. rewrite length_replicate in P.
  destruct P as (Pc & _ & Pr). eexists. split; [exact Pc|exact Pr].
Defined.
