(* ===== verification/Fs.v ===== *)
(** * The file system (kernel/fs.c)

    Blocks, inodes, directories and paths, on top of the log and the buffer cache.
    A [struct inode *] is the index of the entry of the inode table.  On-disk
    inodes and directory entries are bytes of blocks:

      struct dinode (64 bytes): type, major, minor, nlink at 0, 2, 4, 6 (short),
        size at 8, addrs at 12 (uint)
      struct dirent (16 bytes): inum at 0 (ushort), name at 2

    Paths and names are C strings: lists of bytes, read up to the first NUL. *)

From S2P Require Import Prelude CString Riscv Kalloc Kernel Sched Sleeplock Bytes Bio Log Uart Printf.

Definition ROOTINO : Z := 1.
Definition FSMAGIC : Z := 0x10203040.
Definition NDIRECT : Z := 12.
Definition NINDIRECT : Z := BSIZE / 4.
Definition MAXFILE : Z := NDIRECT + NINDIRECT.
Definition sizeof_dinode : Z := 64.
Definition IPB : Z := BSIZE / sizeof_dinode.
Definition IBLOCK (i : Z) (sb : superblock) : Z := u32 (i / IPB + sb_inodestart sb).
Definition BPB : Z := BSIZE * 8.
Definition BBLOCK (b : Z) (sb : superblock) : Z := u32 (b / BPB + sb_bmapstart sb).
Definition DIRSIZ : Z := 14.
Definition sizeof_dirent : Z := 16.
Definition T_DIR : Z := 1.
Definition T_FILE : Z := 2.
Definition T_DEVICE : Z := 3.

Definition upddata (i : nat) (f : list Z → list Z) : KM unit := updbuf i (λ b, b <| b_data ::= f |>).

(** ** Superblock *)

Definition sb_of_bytes (l : list Z) : superblock :=
  Superblock (get32 0 l) (get32 4 l) (get32 8 l) (get32 12 l) (get32 16 l) (get32 20 l) (get32 24 l) (get32 28 l).

Section Fs.
Context `{Patience}.

Definition readsb (dev : Z) : KM unit :=
  bp ← bread dev 1;
  b ← getbuf bp;
  modify (λ s, s <| k_sb := sb_of_bytes (b_data b) |>);;
  brelse bp.

Definition fsinit (dev : Z) : KM unit :=
  readsb dev;;
  sb ← gets k_sb;
  if negb (sb_magic sb =? FSMAGIC) then panic "invalid file system" else
  initlog dev sb.

Definition bzero (dev bno : Z) : KM unit :=
  bp ← bread dev bno;
  upddata bp (λ _, replicate (Z.to_nat BSIZE) 0);;
  log_write bp;;
  brelse bp.

(** ** Block bitmap *)

(** [bp->data[bi/8] & (1 << (bi % 8))], and setting and clearing the bit. *)
Definition bit_mask (bi : Z) : Z := Z.shiftl 1 (bi mod 8).
Definition bit_at (data : list Z) (bi : Z) : bool := negb (Z.land (nthZ data (bi / 8)) (bit_mask bi) =? 0).
Definition set_bit (bi : Z) (data : list Z) : list Z :=
  alter (λ x, u8 (Z.lor x (bit_mask bi))) (Z.to_nat (bi / 8)) data.
Definition clear_bit (bi : Z) (data : list Z) : list Z :=
  alter (λ x, u8 (Z.land x (Z.lnot (bit_mask bi)))) (Z.to_nat (bi / 8)) data.

(** [for(bi = 0; bi < BPB && b + bi < sb.size; bi++)]: the first free block. *)
Fixpoint find_free (fuel : nat) (data : list Z) (size b bi : Z) : option Z :=
  match fuel with
  | O => None
  | S fuel =>
      if (bi <? BPB) && (b + bi <? size) then
        if negb (bit_at data bi) then Some bi else find_free fuel data size b (bi + 1)
      else None
  end.

(** [for(b = 0; b < sb.size; b += BPB)]: one round per bitmap block. *)
Fixpoint balloc_loop (fuel : nat) (dev b : Z) : KM Z :=
  sb ← gets k_sb;
  if b <? sb_size sb then
    match fuel with
    | O => nofuel
    | S fuel =>
        bp ← bread dev (BBLOCK b sb);
        x ← getbuf bp;
        match find_free (Z.to_nat BPB) (b_data x) (sb_size sb) b 0 with
        | Some bi =>
            upddata bp (set_bit bi);;
            log_write bp;;
            brelse bp;;
            bzero dev (b + bi);;
            mret (b + bi)
        | None =>
            brelse bp;;
            balloc_loop fuel dev (b + BPB)
        end
    end
  else
    printf (lit "balloc: out of blocks" ++ [10]) [];;
    mret 0.

Definition balloc (dev : Z) : KM Z :=
  sb ← gets k_sb;
  balloc_loop (Z.to_nat (sb_size sb / BPB + 1)) dev 0.

Definition bfree (dev b : Z) : KM unit :=
  sb ← gets k_sb;
  bp ← bread dev (BBLOCK b sb);
  let bi := b mod BPB in
  x ← getbuf bp;
  if negb (bit_at (b_data x) bi) then panic "freeing free block" else
  upddata bp (clear_bit bi);;
  log_write bp;;
  brelse bp.

(** ** Inodes *)

Definition dummy_inode : inode := Inode 0 0 0 (Sleeplock false 0) false 0 0 0 0 0 [].
Definition inode_at (i : nat) (s : kernel) : inode := default dummy_inode (k_itable s !! i).
Definition getinode (i : nat) : KM inode := gets (inode_at i).
Definition updinode (i : nat) (f : inode → inode) : KM unit := modify (λ s, s <| k_itable ::= alter f i |>).

(** &ip->lock *)
Definition inode_sl (i : nat) : slref := {|
  sl_lk := L_inode i; sl_ch := Ch_inode i;
  sl_get := λ s, i_lock (inode_at i s);
  sl_set := λ l s, s <| k_itable ::= alter (λ x, x <| i_lock := l |>) i |>;
|}.

Fixpoint iinit_loop (js : list nat) : KM unit :=
  match js with
  | [] => mret tt
  | i :: js => initsleeplock (inode_sl i);; iinit_loop js
  end.
Definition iinit : KM unit := initlock L_itable;; iinit_loop (seq 0 (Z.to_nat NINODE)).

(** [(struct dinode* )bp->data + inum%IPB], and copying the fields. *)
Definition dinode_off (inum : Z) : Z := sizeof_dinode * (inum mod IPB).

Definition load_dinode (off : Z) (data : list Z) (ip : inode) : inode :=
  ip <| i_type := i16 (get16 off data) |> <| i_major := i16 (get16 (off + 2) data) |>
     <| i_minor := i16 (get16 (off + 4) data) |> <| i_nlink := i16 (get16 (off + 6) data) |>
     <| i_size := get32 (off + 8) data |>
     <| i_addrs := (λ k, get32 (off + 12 + 4 * Z.of_nat k) data) <$> seq 0 (Z.to_nat (NDIRECT + 1)) |>.

Fixpoint store_addrs (off : Z) (l : list Z) (data : list Z) : list Z :=
  match l with
  | [] => data
  | a :: l => store_addrs (off + 4) l (put32 off a data)
  end.

Definition store_dinode (off : Z) (ip : inode) (data : list Z) : list Z :=
  let data := put16 off (i_type ip) data in
  let data := put16 (off + 2) (i_major ip) data in
  let data := put16 (off + 4) (i_minor ip) data in
  let data := put16 (off + 6) (i_nlink ip) data in
  let data := put32 (off + 8) (i_size ip) data in
  store_addrs (off + 12) (i_addrs ip) data.

Definition iupdate (ip : nat) : KM unit :=
  x ← getinode ip;
  sb ← gets k_sb;
  bp ← bread (i_dev x) (IBLOCK (i_inum x) sb);
  upddata bp (store_dinode (dinode_off (i_inum x)) x);;
  log_write bp;;
  brelse bp.

(** The scan of the table: the entry of the inode, or the first free entry. *)
Fixpoint iget_scan (js : list nat) (t : list inode) (dev inum : Z) (empty : option nat)
  : nat + option nat :=
  match js with
  | [] => inr empty
  | i :: js =>
      let x := default dummy_inode (t !! i) in
      if (0 <? i_ref x) && (i_dev x =? dev) && (i_inum x =? inum) then inl i
      else iget_scan js t dev inum
        (match empty with None => if i_ref x =? 0 then Some i else None | Some _ => empty end)
  end.

Definition iget (dev inum : Z) : KM nat :=
  acquire L_itable;;
  t ← gets k_itable;
  match iget_scan (seq 0 (Z.to_nat NINODE)) t dev inum None with
  | inl i =>
      updinode i (λ x, x <| i_ref ::= λ n, i32 (n + 1) |>);;
      release L_itable;;
      mret i
  | inr None => panic "iget: no inodes"
  | inr (Some i) =>
      updinode i (λ x, x <| i_dev := dev |> <| i_inum := inum |> <| i_ref := 1 |> <| i_valid := false |>);;
      release L_itable;;
      mret i
  end.

(** [for(inum = 1; inum < sb.ninodes; inum++)] *)
Fixpoint ialloc_loop (fuel : nat) (dev type inum : Z) : KM (option nat) :=
  sb ← gets k_sb;
  if inum <? sb_ninodes sb then
    match fuel with
    | O => nofuel
    | S fuel =>
        bp ← bread dev (IBLOCK inum sb);
        x ← getbuf bp;
        let off := dinode_off inum in
        if i16 (get16 off (b_data x)) =? 0 then
          upddata bp (splice (Z.to_nat off) (replicate (Z.to_nat sizeof_dinode) 0));;
          upddata bp (put16 off type);;
          log_write bp;;
          brelse bp;;
          i ← iget dev inum;
          mret (Some i)
        else
          brelse bp;;
          ialloc_loop fuel dev type (inum + 1)
    end
  else
    printf (lit "ialloc: no inodes" ++ [10]) [];;
    mret None.

Definition ialloc (dev type : Z) : KM (option nat) :=
  sb ← gets k_sb;
  ialloc_loop (Z.to_nat (sb_ninodes sb)) dev type 1.

Definition idup (ip : nat) : KM nat :=
  acquire L_itable;;
  updinode ip (λ x, x <| i_ref ::= λ n, i32 (n + 1) |>);;
  release L_itable;;
  mret ip.

Definition ilock (ip : nat) : KM unit :=
  x ← getinode ip;
  if i_ref x <? 1 then panic "ilock" else
  acquiresleep (inode_sl ip);;
  x ← getinode ip;
  when (negb (i_valid x))
    (sb ← gets k_sb;
     bp ← bread (i_dev x) (IBLOCK (i_inum x) sb);
     b ← getbuf bp;
     updinode ip (load_dinode (dinode_off (i_inum x)) (b_data b));;
     brelse bp;;
     updinode ip (λ x, x <| i_valid := true |>);;
     x ← getinode ip;
     if i_type x =? 0 then panic "ilock: no type" else mret tt).

Definition iunlock (ip : nat) : KM unit :=
  r ← holdingsleep (inode_sl ip);
  x ← getinode ip;
  if negb r || (i_ref x <? 1) then panic "iunlock" else
  releasesleep (inode_sl ip).

(** ** Inode content *)

(** The end of [bmap]: entry [bn] of the indirect block [addr]. *)
Definition bmap_indirect (dev addr bn : Z) : KM Z :=
  bp ← bread dev addr;
  b ← getbuf bp;
  let addr := get32 (4 * bn) (b_data b) in
  addr ←
    (if addr =? 0 then
       addr ← balloc dev;
       when (negb (addr =? 0)) (upddata bp (put32 (4 * bn) addr);; log_write bp);;
       mret addr
     else mret addr);
  brelse bp;;
  mret addr.

Definition bmap (ip : nat) (bn : Z) : KM Z :=
  x ← getinode ip;
  if bn <? NDIRECT then
    let addr := nthZ (i_addrs x) bn in
    if addr =? 0 then
      addr ← balloc (i_dev x);
      if addr =? 0 then mret 0 else
      updinode ip (λ x, x <| i_addrs ::= <[Z.to_nat bn := addr]> |>);;
      mret addr
    else mret addr
  else
  let bn := bn - NDIRECT in
  if bn <? NINDIRECT then
    addr ←
      (let addr := nthZ (i_addrs x) NDIRECT in
       if addr =? 0 then
         addr ← balloc (i_dev x);
         when (negb (addr =? 0)) (updinode ip (λ x, x <| i_addrs ::= <[Z.to_nat NDIRECT := addr]> |>));;
         mret addr
       else mret addr);
    if addr =? 0 then mret 0 else
    bmap_indirect (i_dev x) addr bn
  else panic "bmap: out of range".

(** [for(i = 0; i < NDIRECT; i++)] *)
Fixpoint itrunc_direct (ks : list nat) (ip : nat) : KM unit :=
  match ks with
  | [] => mret tt
  | k :: ks =>
      x ← getinode ip;
      when (negb (nthZ (i_addrs x) (Z.of_nat k) =? 0))
        (bfree (i_dev x) (nthZ (i_addrs x) (Z.of_nat k));;
         updinode ip (λ x, x <| i_addrs ::= <[k := 0]> |>));;
      itrunc_direct ks ip
  end.

(** [for(j = 0; j < NINDIRECT; j++) if(a[j]) bfree(ip->dev, a[j]);] *)
Fixpoint itrunc_indirect (ks : list nat) (dev : Z) (bp : nat) : KM unit :=
  match ks with
  | [] => mret tt
  | k :: ks =>
      b ← getbuf bp;
      let a := get32 (4 * Z.of_nat k) (b_data b) in
      when (negb (a =? 0)) (bfree dev a);;
      itrunc_indirect ks dev bp
  end.

Definition itrunc (ip : nat) : KM unit :=
  itrunc_direct (seq 0 (Z.to_nat NDIRECT)) ip;;
  x ← getinode ip;
  let a := nthZ (i_addrs x) NDIRECT in
  when (negb (a =? 0))
    (bp ← bread (i_dev x) a;
     itrunc_indirect (seq 0 (Z.to_nat NINDIRECT)) (i_dev x) bp;;
     brelse bp;;
     bfree (i_dev x) a;;
     updinode ip (λ x, x <| i_addrs ::= <[Z.to_nat NDIRECT := 0]> |>));;
  updinode ip (λ x, x <| i_size := 0 |>);;
  iupdate ip.

Definition iput (ip : nat) : KM unit :=
  acquire L_itable;;
  x ← getinode ip;
  when ((i_ref x =? 1) && i_valid x && (i_nlink x =? 0))
    (acquiresleep (inode_sl ip);;
     release L_itable;;
     itrunc ip;;
     updinode ip (λ x, x <| i_type := 0 |>);;
     iupdate ip;;
     updinode ip (λ x, x <| i_valid := false |>);;
     releasesleep (inode_sl ip);;
     acquire L_itable);;
  updinode ip (λ x, x <| i_ref ::= λ n, i32 (n - 1) |>);;
  release L_itable.

Definition iunlockput (ip : nat) : KM unit := iunlock ip;; iput ip.

Record stat : Type := Stat { st_dev : Z; st_ino : Z; st_type : Z; st_nlink : Z; st_size : Z }.

Definition stati (ip : nat) : KM stat :=
  x ← getinode ip;
  mret (Stat (i32 (i_dev x)) (i_inum x) (i_type x) (i_nlink x) (i_size x)).

(** The rounds of the copy loops: one per block, and the first and the last may be
    partial. *)
Definition block_fuel (n : Z) : nat := Z.to_nat (n / BSIZE + 2).

(** [for(tot=0; tot<n; tot+=m, off+=m, dst+=m)] of [readi]; the bytes copied so far
    are returned with the result. *)
Fixpoint readi_loop (fuel : nat) (ip : nat) (dst : dst_t) (off n tot : Z) (acc : list Z) : KM (Z * list Z) :=
  if tot <? n then
    match fuel with
    | O => nofuel
    | S fuel =>
        addr ← bmap ip (off / BSIZE);
        if addr =? 0 then mret (i32 tot, acc) else
        x ← getinode ip;
        bp ← bread (i_dev x) addr;
        let m := Z.min (n - tot) (BSIZE - off mod BSIZE) in
        b ← getbuf bp;
        let bs := take (Z.to_nat m) (drop (Z.to_nat (off mod BSIZE)) (b_data b)) in
        r ← either_copyout dst bs;
        if r =? -1 then brelse bp;; mret (-1, acc) else
        brelse bp;;
        readi_loop fuel ip (dst_add dst m) (off + m) n (tot + m) (acc ++ bs)
    end
  else mret (i32 tot, acc).

Definition readi (ip : nat) (dst : dst_t) (off n : Z) : KM (Z * list Z) :=
  x ← getinode ip;
  if (i_size x <? off) || (u32 (off + n) <? off) then mret (0, []) else
  let n := if i_size x <? u32 (off + n) then i_size x - off else n in
  readi_loop (block_fuel n) ip dst off n 0 [].

(** The loop of [writei]; returns [tot] and the final [off]. *)
Fixpoint writei_loop (fuel : nat) (ip : nat) (src : src_t) (off n tot : Z) : KM (Z * Z) :=
  if tot <? n then
    match fuel with
    | O => nofuel
    | S fuel =>
        addr ← bmap ip (off / BSIZE);
        if addr =? 0 then mret (tot, off) else
        x ← getinode ip;
        bp ← bread (i_dev x) addr;
        let m := Z.min (n - tot) (BSIZE - off mod BSIZE) in
        '(r, bs) ← either_copyin src m;
        upddata bp (splice (Z.to_nat (off mod BSIZE)) bs);;
        if r =? -1 then brelse bp;; mret (tot, off) else
        log_write bp;;
        brelse bp;;
        writei_loop fuel ip (src_add src m) (off + m) n (tot + m)
    end
  else mret (tot, off).

Definition writei (ip : nat) (src : src_t) (off n : Z) : KM Z :=
  x ← getinode ip;
  if (i_size x <? off) || (u32 (off + n) <? off) then mret (-1) else
  if MAXFILE * BSIZE <? u32 (off + n) then mret (-1) else
  '(tot, off) ← writei_loop (block_fuel n) ip src off n 0;
  x ← getinode ip;
  when (i_size x <? off) (updinode ip (λ x, x <| i_size := off |>));;
  iupdate ip;;
  mret (i32 tot).

(** ** Directories *)

Definition namecmp (s t : list Z) : Z := strncmp s t (Z.to_nat DIRSIZ).

Definition de_inum (de : list Z) : Z := get16 0 de.
Definition de_name (de : list Z) : list Z := drop 2 de.

(** [for(off = 0; off < dp->size; off += sizeof(de))]: the inode found, and its
    offset, which the callers that pass a pointer [poff] use. *)
Fixpoint dirlookup_loop (fuel : nat) (dp : nat) (name : list Z) (off : Z) : KM (option (nat * Z)) :=
  x ← getinode dp;
  if off <? i_size x then
    match fuel with
    | O => nofuel
    | S fuel =>
        '(r, de) ← readi dp Dst_local off sizeof_dirent;
        if negb (r =? sizeof_dirent) then panic "dirlookup read" else
        if de_inum de =? 0 then dirlookup_loop fuel dp name (off + sizeof_dirent) else
        if namecmp name (de_name de) =? 0 then
          i ← iget (i_dev x) (de_inum de);
          mret (Some (i, off))
        else dirlookup_loop fuel dp name (off + sizeof_dirent)
    end
  else mret None.

Definition dirlookup (dp : nat) (name : list Z) : KM (option (nat * Z)) :=
  x ← getinode dp;
  if negb (i_type x =? T_DIR) then panic "dirlookup not DIR" else
  dirlookup_loop (Z.to_nat (i_size x / sizeof_dirent + 1)) dp name 0.

(** The offset of the first empty entry, or the size. *)
Fixpoint dirlink_loop (fuel : nat) (dp : nat) (off : Z) : KM Z :=
  x ← getinode dp;
  if off <? i_size x then
    match fuel with
    | O => nofuel
    | S fuel =>
        '(r, de) ← readi dp Dst_local off sizeof_dirent;
        if negb (r =? sizeof_dirent) then panic "dirlink read" else
        if de_inum de =? 0 then mret off else dirlink_loop fuel dp (off + sizeof_dirent)
    end
  else mret off.

Definition dirlink (dp : nat) (name : list Z) (inum : Z) : KM Z :=
  r ← dirlookup dp name;
  match r with
  | Some (ip, _) => iput ip;; mret (-1)
  | None =>
      x ← getinode dp;
      off ← dirlink_loop (Z.to_nat (i_size x / sizeof_dirent + 1)) dp 0;
      let de := le_bytes 2 (u16 inum) ++ strncpy (replicate (Z.to_nat DIRSIZ) 0) name (Z.to_nat DIRSIZ) in
      r ← writei dp (Src_local de) off sizeof_dirent;
      if negb (r =? sizeof_dirent) then mret (-1) else mret 0
  end.

(** ** Paths *)

(** [while( *path == '/') path++;], and the scan to the next slash. *)
Fixpoint skip_slashes (path : list Z) : list Z :=
  match path with
  | c :: path' => if c =? 47 then skip_slashes path' else path
  | [] => []
  end.

(** The bytes up to the next slash or NUL, and the rest. *)
Fixpoint path_elem (path : list Z) : list Z * list Z :=
  match path with
  | c :: path' =>
      if (c =? 47) || (c =? 0) then ([], path)
      else let '(e, rest) := path_elem path' in (c :: e, rest)
  | [] => ([], [])
  end.

(** The rest of the path and the contents of [name], or [None] for a null result. *)
Definition skipelem (path name : list Z) : option (list Z * list Z) :=
  let path := skip_slashes path in
  if deref path =? 0 then None else
  let '(s, path) := path_elem path in
  let name :=
    if DIRSIZ <=? Z.of_nat (length s) then splice 0 (take (Z.to_nat DIRSIZ) s) name
    else splice 0 (s ++ [0]) name in
  Some (skip_slashes path, name).

(** [while((path = skipelem(path, name)) != 0)]; every round shortens the path.  The
    result carries [name], the buffer of the caller. *)
Fixpoint namex_loop (fuel : nat) (ip : nat) (path : list Z) (nameiparent : bool) (name : list Z)
  : KM (option nat * list Z) :=
  match skipelem path name with
  | None =>
      if nameiparent then iput ip;; mret (None, name) else mret (Some ip, name)
  | Some (path, name) =>
      match fuel with
      | O => nofuel
      | S fuel =>
          ilock ip;;
          x ← getinode ip;
          if negb (i_type x =? T_DIR) then iunlockput ip;; mret (None, name) else
          if nameiparent && (deref path =? 0) then iunlock ip;; mret (Some ip, name) else
          next ← dirlookup ip name;
          match next with
          | None => iunlockput ip;; mret (None, name)
          | Some (next, _) =>
              iunlockput ip;;
              namex_loop fuel next path nameiparent name
          end
      end
  end.

Definition namex (path : list Z) (nameiparent : bool) (name : list Z) : KM (option nat * list Z) :=
  ip ←
    (if deref path =? 47 then iget ROOTDEV ROOTINO
     else
       me ← curproc;
       p ← getproc me;
       match p_cwd p with
       | Some cwd => idup cwd
       | None => panic "kerneltrap"
       end);
  namex_loop (length path) ip path nameiparent name.

(** The local buffer [char name[DIRSIZ]] of [namei] and of the callers. *)
Definition namei (path : list Z) : KM (option nat) :=
  '(r, _) ← namex path false (replicate (Z.to_nat DIRSIZ) 0);
  mret r.

Definition nameiparent (path : list Z) : KM (option nat * list Z) :=
  namex path true (replicate (Z.to_nat DIRSIZ) 0).
End Fs.
