(* ===== verification/FsSpec.v ===== *)
(** * Blocks in a transaction (kernel/fs.c)

    File-system code runs between [begin_op] and [end_op].  It sees the disk as a
    function [c] from block numbers to contents: [bread] gives the contents of a
    block, changing a locked buffer and calling [log_write] changes them, and
    [brelse] gives the buffer back.  [tx] is this view, with the list of the blocks
    logged so far and of the buffers held; the file system's proofs are about [c].

    On top of it: the block allocator and the map from file blocks to disk blocks. *)

From stdpp Require Import functions.
From S2P Require Import Prelude CString Riscv Kalloc Kernel Sched Sleeplock Bytes Bio BioList BioSpec Log.
From S2P Require Import LogSpec LogOps Uart Printf Fs.

(** Every block has the size of a block. *)
Lemma vat_len h s me b : bctx h s me → length (st_data (vat s b)) = Z.to_nat BSIZE.
Proof.
  intros C. destruct (bsel (k_bcache s) b) as [[i x]|] eqn:Hs.
  - rewrite (vat_bsel _ _ _ _ Hs). apply bsel_inv in Hs as (Hi & Hx & _).
    destruct (ci_buf _ _ (bc_inv _ _ _ C) i x Hi Hx) as [_ _ _ _ B5]. simpl.
    destruct (b_valid x); [by apply B5|apply (ci_disk _ _ (bc_inv _ _ _ C))].
  - rewrite (vat_None _ _ Hs). apply (ci_disk _ _ (bc_inv _ _ _ C)).
Qed.

Lemma NoDup_snd_inj {A B} (l : list (A * B)) i j b : NoDup l.*2 → (i, b) ∈ l → (j, b) ∈ l → i = j.
Proof.
  induction l as [|[k b'] l IH]; intros HN Hi Hj; [by apply not_elem_of_nil in Hi|].
  simpl in HN. apply NoDup_cons in HN as [Hn HN].
  apply elem_of_cons in Hi as [[= -> ->]|Hi], Hj as [Hj|Hj]; try congruence.
  - exfalso. apply Hn, list_elem_of_fmap. by exists (j, b').
  - injection Hj as -> ->. exfalso. apply Hn, list_elem_of_fmap. by exists (i, b').
  - by apply IH.
Qed.

Lemma bind_upddata {A} i g (k : unit → KM A) h s :
  (upddata i g ≫= k) h s = k tt h (s <| k_bcache ::= alter (λ x, x <| b_data ::= g |>) i |>).
Proof. done. Qed.

(** Compose the frames of the context. *)
Ltac lframes :=
  match goal with
  | F : lframe _ _ ?s' |- lframe _ _ ?s' => first [exact F | eapply lframe_trans; [|exact F]; lframes]
  end.

(** ** Bits of the free map *)

Lemma bit_at_testbit data bi : 0 ≤ bi → bit_at data bi = Z.testbit (nthZ data (bi / 8)) (bi mod 8).
Proof.
  intros Hbi. unfold bit_at, bit_mask. pose proof (Z.mod_pos_bound bi 8 ltac:(lia)) as Hm.
  set (x := nthZ data (bi / 8)). set (k := bi mod 8) in *. clearbody x k.
  assert (Z.land x (Z.shiftl 1 k) = if Z.testbit x k then Z.shiftl 1 k else 0) as ->.
  { apply Z.bits_inj'. intros j Hj. rewrite Z.land_spec, Z.shiftl_spec by lia.
    destruct (decide (j = k)) as [->|Hne].
    - rewrite Z.sub_diag. destruct (Z.testbit x k); [|by rewrite Z.bits_0].
      by rewrite Z.shiftl_spec, Z.sub_diag by lia.
    - assert (Z.testbit 1 (j - k) = false) as E1.
      { destruct (decide (j < k)); [by apply Z.testbit_neg_r; lia|].
        change 1 with (2 ^ 0). apply Z.pow2_bits_false. lia. }
      rewrite E1, andb_false_r. destruct (Z.testbit x k); [|by rewrite Z.bits_0].
      by rewrite Z.shiftl_spec, E1 by lia. }
  destruct (Z.testbit x k); [|done]. rewrite Z.shiftl_1_l. pose proof (Z.pow_pos_nonneg 2 k).
  rewrite (proj2 (Z.eqb_neq _ 0)) by lia. done.
Qed.

Lemma testbit_u8 x k : 0 ≤ k < 8 → Z.testbit (u8 x) k = Z.testbit x k.
Proof. intros. unfold u8. by rewrite Z.mod_pow2_bits_low by lia. Qed.

Lemma testbit_mask bi k : 0 ≤ k < 8 → 0 ≤ bi → Z.testbit (bit_mask bi) k = bool_decide (k = bi mod 8).
Proof.
  intros Hk Hbi. unfold bit_mask. rewrite Z.shiftl_1_l. pose proof (Z.mod_pos_bound bi 8 ltac:(lia)).
  case_bool_decide as E; [subst; by apply Z.pow2_bits_true; lia|]. by apply Z.pow2_bits_false; lia.
Qed.

Lemma nthZ_alter f i j l :
  0 ≤ i → 0 ≤ j → j < Z.of_nat (length l) →
  nthZ (alter f (Z.to_nat i) l) j = if decide (j = i) then f (nthZ l j) else nthZ l j.
Proof.
  intros Hi Hj Hl. unfold nthZ. rewrite !nth_lookup. case_decide as E.
  - subst. rewrite list_lookup_alter_eq. destruct (lookup_lt_is_Some_2 l (Z.to_nat i)) as [x ->]; [lia|done].
  - by rewrite list_lookup_alter_ne by lia.
Qed.

Section Bits.
Context (data : list Z) (Hd : length data = Z.to_nat BSIZE) (bi bj : Z) (Hi : 0 ≤ bi < BPB) (Hj : 0 ≤ bj < BPB).

Lemma same_bit : bi = bj ↔ bi / 8 = bj / 8 ∧ bi mod 8 = bj mod 8.
Proof. pose proof (Z.div_mod bi 8). pose proof (Z.div_mod bj 8). naive_solver lia. Qed.

Lemma div8 : 0 ≤ bi / 8 < Z.of_nat (length data) ∧ 0 ≤ bj / 8 < Z.of_nat (length data).
Proof.
  rewrite Hd. unfold BPB, BSIZE in *.
  split; (split; [apply Z.div_pos; lia|]); (rewrite Z2Nat.id by lia; apply Z.div_lt_upper_bound; lia).
Qed.

Lemma bit_set : bit_at (set_bit bi data) bj = bool_decide (bj = bi) || bit_at data bj.
Proof.
  destruct div8 as [Di Dj]. pose proof (Z.mod_pos_bound bj 8 ltac:(lia)).
  rewrite !bit_at_testbit by lia. unfold set_bit. rewrite nthZ_alter by lia.
  case_decide as E.
  - rewrite testbit_u8, Z.lor_spec, testbit_mask by lia. rewrite orb_comm. f_equal.
    apply bool_decide_ext. pose proof same_bit. naive_solver.
  - rewrite bool_decide_false; [done|]. pose proof same_bit. naive_solver.
Qed.

Lemma bit_clear : bit_at (clear_bit bi data) bj = negb (bool_decide (bj = bi)) && bit_at data bj.
Proof.
  destruct div8 as [Di Dj]. pose proof (Z.mod_pos_bound bj 8 ltac:(lia)).
  rewrite !bit_at_testbit by lia. unfold clear_bit. rewrite nthZ_alter by lia.
  case_decide as E.
  - rewrite testbit_u8, Z.land_spec, Z.lnot_spec, testbit_mask by lia. rewrite andb_comm. f_equal. f_equal.
    apply bool_decide_ext. pose proof same_bit. naive_solver.
  - rewrite bool_decide_false; [done|]. pose proof same_bit. naive_solver.
Qed.
End Bits.

(** The inner loop of [balloc]. *)
Lemma find_free_spec data size b fuel : ∀ bi, BPB ≤ bi + Z.of_nat fuel →
  match find_free fuel data size b bi with
  | Some r => bi ≤ r < BPB ∧ b + r < size ∧ bit_at data r = false ∧ (∀ j, bi ≤ j < r → bit_at data j = true)
  | None => ∀ j, bi ≤ j < BPB → b + j < size → bit_at data j = true
  end.
Proof.
  induction fuel as [|fuel IH]; intros bi Hf; cbn [find_free]; [intros; lia|].
  destruct (Z.ltb_spec bi BPB), (Z.ltb_spec (b + bi) size); cbn [andb]; try (intros; lia).
  destruct (bit_at data bi) eqn:Eb; cbn [negb].
  - specialize (IH (bi + 1) ltac:(lia)). destruct (find_free fuel data size b (bi + 1)) as [r|].
    + destruct IH as (H1 & H2 & H3 & H4). split_and!; [lia|lia|done|done|].
      intros j Hj. destruct (decide (j = bi)) as [->|]; [done|]. apply H4. lia.
    + intros j Hj Hs. destruct (decide (j = bi)) as [->|]; [done|]. apply IH; lia.
  - split_and!; [lia|lia|done|done|]. intros j Hj. lia.
Qed.

Lemma logged_len b L : (length L ≤ length (logged b L) ≤ S (length L))%nat.
Proof. unfold logged. case_decide; [lia|]. rewrite length_app. simpl. lia. Qed.

Section Tx.
Context {Pat : Patience} (h : list lockid) (me : nat) (start size : Z).

Record tx (s : kernel) (L : list Z) (H : list (nat * Z)) (c : Z → list Z) : Prop := {
  tx_ctx : bctx h s me;
  tx_lk : L_log ∉ h;
  tx_log : log_at s start size L;
  tx_list : log_list start size L;
  tx_out : 1 ≤ l_outstanding (k_log s);
  tx_view : ∀ b, vat s b = Bstat (pins L b + if decide (b ∈ H.*2) then 1 else 0) (bool_decide (b ∈ H.*2)) (c b);
  tx_clean : ∀ b, b ∉ L → c b = d_read (k_disk s) b;
  tx_holds : ∀ i b, (i, b) ∈ H → holds s me i b;
  tx_nodup : NoDup H.*2;
}.

(** A block outside of the log area. *)
Definition loggable (b : Z) : Prop := 0 ≤ b < 2 ^ 31 ∧ (b < start ∨ start + size ≤ b).

Lemma tx_len s L H c b : tx s L H c → length (c b) = Z.to_nat BSIZE.
Proof.
  intros T. pose proof (vat_len h s me b (tx_ctx _ _ _ _ T)) as V. by rewrite (tx_view _ _ _ _ T b) in V.
Qed.

Lemma tx_data s L H c i b : tx s L H c → (i, b) ∈ H → b_data (buf_at i s) = c b.
Proof.
  intros T Hi. destruct (holds_lookup h s me i b (tx_ctx _ _ _ _ T) (tx_holds _ _ _ _ T i b Hi))
    as (x & Hx & _ & _ & _ & Ev & _).
  rewrite (tx_view _ _ _ _ T b) in Ev. injection Ev as _ _ ->. by rewrite (getbuf_lookup _ _ _ Hx).
Qed.

Lemma tx_bread s L H c b :
  tx s L H c → b ∉ H.*2 → (length L + length H < HEAD)%nat →
  ∃ i s', bread ROOTDEV b h s = Ok i h s' ∧ tx s' L ((i, b) :: H) c ∧ lframe me s s'.
Proof.
  intros [C Hlk La Ll Ho V Cl Hh HN] Hb Hl. pose proof (V b) as Vb.
  rewrite decide_False, bool_decide_false, Z.add_0_r in Vb by done.
  destruct (bread_ok h s me C b) as (i & s' & E & D & Hi & S).
  - by rewrite Vb.
  - rewrite Vb. simpl. unfold pins. case_decide; lia.
  - right. exists (L ++ H.*2). split.
    + intros b' Hb'. rewrite V in Hb'. simpl in Hb'. unfold pins in Hb'. apply elem_of_app.
      repeat case_decide; auto. lia.
    + rewrite length_app, length_fmap. done.
  - exists i, s'. split_and!; [done| |apply bframe_lframe, S]. split.
    + apply S.
    + done.
    + eapply log_at_frame; [apply S|done].
    + done.
    + by rewrite (bframe_log _ _ _ (bs_frame _ _ _ _ _ _ S)).
    + intros b'. rewrite (bs_vupd _ _ _ _ _ _ S), Vb. simpl. destruct (decide (b' = b)) as [->|Hne].
      * rewrite decide_True, bool_decide_true by (by left). done.
      * rewrite V. f_equal; [f_equal|].
        -- repeat case_decide; set_solver.
        -- apply bool_decide_ext. set_solver.
    + intros b'. rewrite D. apply Cl.
    + intros j b' [[= -> ->]|Hj]%elem_of_cons; [done|]. apply S; [|by apply Hh]. intros ->. apply Hb.
      apply list_elem_of_fmap. by exists (j, b).
    + simpl. by apply NoDup_cons.
Qed.

Lemma tx_brelse s L H c i b :
  tx s L ((i, b) :: H) c → ∃ s', brelse i h s = Ok tt h s' ∧ tx s' L H c ∧ lframe me s s'.
Proof.
  intros [C Hlk La Ll Ho V Cl Hh HN]. simpl in HN. apply NoDup_cons in HN as [Hb HN]. pose proof (V b) as Vb.
  rewrite decide_True, bool_decide_true in Vb by (by left).
  destruct (brelse_ok h s me i b C (Hh i b ltac:(by left))) as (s' & E & D & S).
  { rewrite Vb. simpl. intros Hr. apply Cl. intros HbL. unfold pins in Hr. rewrite decide_True in Hr by done. lia. }
  exists s'. split_and!; [done| |apply bframe_lframe, S]. split.
  + apply S.
  + done.
  + eapply log_at_frame; [apply S|done].
  + done.
  + by rewrite (bframe_log _ _ _ (bs_frame _ _ _ _ _ _ S)).
  + intros b'. rewrite (bs_vupd _ _ _ _ _ _ S), Vb. simpl. destruct (decide (b' = b)) as [->|Hne].
    * rewrite decide_False, bool_decide_false by done. f_equal. lia.
    * rewrite V. f_equal; [f_equal|].
      -- repeat case_decide; set_solver.
      -- apply bool_decide_ext. set_solver.
  + intros b'. rewrite D. apply Cl.
  + intros j b' Hj. apply S; [|apply Hh; by right]. intros ->. apply Hb.
    apply list_elem_of_fmap. by exists (j, b).
  + done.
Qed.

(** Changing a held buffer and logging it. *)
Lemma tx_write s L H c i b g :
  tx s L H c → (i, b) ∈ H → loggable b → length (g (c b)) = Z.to_nat BSIZE →
  Z.of_nat (length L) < size - 1 →
  ∃ s1 s', upddata i g h s = Ok tt h s1 ∧ log_write i h s1 = Ok tt h s' ∧
    tx s' (logged b L) H (<[b := g (c b)]> c) ∧ lframe me s s'.
Proof.
  intros T Hi [Hb1 Hb2] Hg Hl. pose proof T as [C Hlk La Ll Ho V Cl Hh HN].
  assert (b ∈ H.*2) as HbH by (apply list_elem_of_fmap; by exists (i, b)).
  pose proof (V b) as Vb. rewrite decide_True, bool_decide_true in Vb by done.
  destruct (set_data_ok h s me i b C (Hh i b Hi) g) as [S Hi1]; [by rewrite Vb|]. cbv zeta in S, Hi1.
  set (s1 := s <| k_bcache ::= alter (λ x, x <| b_data ::= g |>) i |>) in *. rewrite Vb in S. simpl in S.
  pose proof (bs_vupd _ _ _ _ _ _ S b) as V1. rewrite decide_True in V1 by done.
  destruct (log_write_ok h me s1 i b start size L) as (s2 & E2 & C2 & F2 & D2 & Hi2 & Hh2 & La2 & Lo2 & Lc2 & V2).
  - apply S.
  - done.
  - done.
  - eapply log_at_frame; [apply S|done].
  - done.
  - done.
  - done.
  - done.
  - rewrite V1. simpl. unfold pins. case_decide; lia.
  - exists s1, s2. split_and!.
    + done.
    + done.
    + split; try done.
      * destruct Ll as [L1 L2 L3 L4]. split; [by apply logged_nodup| |done|].
        -- unfold logged. case_decide; [done|]. rewrite length_app. simpl. lia.
        -- intros x [->|Hx]%elem_of_logged; [done|by apply L4].
      * by rewrite Lo2.
      * intros b'. rewrite V2, V1. simpl. destruct (decide (b' = b)) as [->|Hne].
        -- rewrite !(decide_True (P := b ∈ H.*2)), bool_decide_true, fn_lookup_insert by done.
           f_equal. unfold pins. rewrite (decide_True (P := b ∈ logged b L)) by (apply elem_of_logged; by left).
           case_decide; lia.
        -- rewrite (bs_vupd _ _ _ _ _ _ S), decide_False by done. rewrite V, fn_lookup_insert_ne by done.
           f_equal. f_equal. unfold pins. apply decide_ext. rewrite elem_of_logged. naive_solver.
      * intros b' Hb'. rewrite elem_of_logged in Hb'. rewrite fn_lookup_insert_ne by naive_solver.
        rewrite D2. apply Cl. naive_solver.
      * intros j b' Hj. destruct (decide (b' = b)) as [->|Hne].
        -- by rewrite (NoDup_snd_inj H j i b).
        -- apply Hh2; [done|]. apply S; [done|]. by apply Hh.
    + eapply lframe_trans; [apply bframe_lframe, S|done].
Qed.

(** ** The layout of the disk *)

Definition nmeta (sb : superblock) : Z := sb_bmapstart sb + sb_size sb / BPB + 1.

(** The log, the inodes, the free map and the data, in this order. *)
Record geom (sb : superblock) : Prop := {
  g_log : 0 ≤ start ∧ 0 ≤ size ≤ LOGSIZE ∧ start + size ≤ sb_inodestart sb;
  g_inodes : 0 ≤ sb_ninodes sb ∧ sb_inodestart sb + sb_ninodes sb / IPB + 1 ≤ sb_bmapstart sb;
  g_data : nmeta sb ≤ sb_size sb < 2 ^ 31;
}.

(** The bit of block [b]. *)
Definition bbit (c : Z → list Z) (sb : superblock) (b : Z) : bool := bit_at (c (BBLOCK b sb)) (b mod BPB).

Lemma BPB_pos : 0 < BPB.
Proof. unfold BPB, BSIZE. lia. Qed.

Section Alloc.
Context (sb : superblock) (G : geom sb).

Lemma bblock_eq b : 0 ≤ b < sb_size sb →
  BBLOCK b sb = b / BPB + sb_bmapstart sb ∧ sb_bmapstart sb ≤ BBLOCK b sb < nmeta sb ∧ loggable (BBLOCK b sb).
Proof.
  intros Hb. destruct G as [G1 G2 G3]. pose proof BPB_pos. unfold nmeta in *.
  pose proof (Z.div_pos b BPB). pose proof (Z.div_le_mono b (sb_size sb) BPB).
  assert (0 ≤ sb_ninodes sb / IPB) by (apply Z.div_pos; [lia|reflexivity]).
  assert (BBLOCK b sb = b / BPB + sb_bmapstart sb) as ->.
  { unfold BBLOCK. apply u32_small. lia. }
  unfold loggable. lia.
Qed.

Lemma same_block x b : x / BPB = b / BPB → x mod BPB = b mod BPB → x = b.
Proof.
  intros Ed Em. pose proof BPB_pos. transitivity (BPB * (x / BPB) + x mod BPB); [apply Z.div_mod; lia|].
  rewrite Ed, Em. symmetry. apply Z.div_mod. lia.
Qed.

(** Setting the bit of [b] changes the bit of [b] only. *)
Lemma bbit_set c b x :
  (∀ b, length (c b) = Z.to_nat BSIZE) → 0 ≤ b < sb_size sb → 0 ≤ x < sb_size sb →
  bbit (<[BBLOCK b sb := set_bit (b mod BPB) (c (BBLOCK b sb))]> c) sb x = bool_decide (x = b) || bbit c sb x.
Proof.
  intros Hc Hb Hx. unfold bbit. pose proof BPB_pos. destruct (bblock_eq b Hb) as (Eb & _), (bblock_eq x Hx) as (Ex & _).
  destruct (decide (BBLOCK x sb = BBLOCK b sb)) as [E|E].
  - rewrite E, fn_lookup_insert. rewrite bit_set by (apply Hc || apply Z.mod_pos_bound; lia). f_equal.
    apply bool_decide_ext. split; [|by intros ->]. apply same_block. lia.
  - rewrite fn_lookup_insert_ne by done. rewrite bool_decide_false by (by intros ->). done.
Qed.

Lemma bbit_clear c b x :
  (∀ b, length (c b) = Z.to_nat BSIZE) → 0 ≤ b < sb_size sb → 0 ≤ x < sb_size sb →
  bbit (<[BBLOCK b sb := clear_bit (b mod BPB) (c (BBLOCK b sb))]> c) sb x = negb (bool_decide (x = b)) && bbit c sb x.
Proof.
  intros Hc Hb Hx. unfold bbit. pose proof BPB_pos. destruct (bblock_eq b Hb) as (Eb & _), (bblock_eq x Hx) as (Ex & _).
  destruct (decide (BBLOCK x sb = BBLOCK b sb)) as [E|E].
  - rewrite E, fn_lookup_insert. rewrite bit_clear by (apply Hc || apply Z.mod_pos_bound; lia). f_equal. f_equal.
    apply bool_decide_ext. split; [|by intros ->]. apply same_block. lia.
  - rewrite fn_lookup_insert_ne by done. rewrite bool_decide_false by (by intros ->). done.
Qed.

(** [b] is the first free block from [a] on. *)
Definition first_free (c : Z → list Z) (a b : Z) : Prop :=
  a ≤ b < sb_size sb ∧ bbit c sb b = false ∧ ∀ x, a ≤ x < b → bbit c sb x = true.

Lemma bzero_ok s L H c b :
  tx s L H c → b ∉ H.*2 → (length L + length H < HEAD)%nat → loggable b → Z.of_nat (length L) < size - 1 →
  ∃ s', bzero ROOTDEV b h s = Ok tt h s' ∧ tx s' (logged b L) H (<[b := zero_block]> c) ∧ lframe me s s'.
Proof.
  intros T Hb Hr Hl Hs. unfold bzero. destruct (tx_bread s L H c b T Hb Hr) as (i & s1 & E1 & T1 & F1).
  destruct (tx_write s1 L ((i, b) :: H) c i b (λ _, zero_block) T1) as (s2 & s3 & E2 & E3 & T3 & F3);
    [by left|done|apply length_replicate|done|].
  destruct (tx_brelse s3 _ _ _ _ _ T3) as (s4 & E4 & T4 & F4).
  exists s4. split_and!; [|exact T4|lframes].
  erewrite bind_Ok by exact E1. erewrite bind_Ok by exact E2. by erewrite bind_Ok by exact E3.
Qed.

(** [balloc] finds the first free block, marks it as used and clears it. *)
Lemma balloc_loop_ok fuel : ∀ s L H c a b,
  tx s L H c → k_sb s = sb → Z.of_nat (length (logged (BBLOCK b sb) L)) < size - 1 →
  (length (logged (BBLOCK b sb) L) + length H < HEAD)%nat →
  0 ≤ a → a mod BPB = 0 → sb_size sb ≤ a + Z.of_nat fuel * BPB →
  first_free c a b → (∀ x, x ∈ H.*2 → nmeta sb ≤ x ∧ x ≠ b) → nmeta sb ≤ b →
  ∃ s', balloc_loop fuel ROOTDEV a h s = Ok b h s' ∧
    tx s' (logged b (logged (BBLOCK b sb) L)) H
      (<[b := zero_block]> (<[BBLOCK b sb := set_bit (b mod BPB) (c (BBLOCK b sb))]> c)) ∧
    lframe me s s'.
Proof.
  induction fuel as [|fuel IH]; intros s L H c a b T Hsb Hlen Hroom Ha Ham Hf (Hb & Hbit & Hfirst) HH Hmb.
  { lia. }
  pose proof BPB_pos. pose proof (logged_len (BBLOCK b sb) L) as Hll.
  destruct (bblock_eq a ltac:(lia)) as (Ea & Ra & La).
  assert (∀ bi, 0 ≤ bi < BPB → a + bi < sb_size sb → bbit c sb (a + bi) = bit_at (c (BBLOCK a sb)) bi) as Hbits.
  { intros bi Hbi Hs. unfold bbit. destruct (bblock_eq (a + bi) ltac:(lia)) as (E & _).
    assert ((a + bi) / BPB = a / BPB) as Ed.
    { assert (∃ q, a = q * BPB) as [q ->] by (exists (a / BPB); pose proof (Z.div_mod a BPB); lia).
      rewrite Z.div_add_l, Z.div_mul, (Z.div_small bi) by lia. lia. }
    rewrite E, Ed, <- Ea. f_equal. rewrite Z.add_mod, Ham, Z.add_0_l, Z.mod_mod by lia. by apply Z.mod_small. }
  destruct (tx_bread s L H c (BBLOCK a sb) T) as (i & s1 & E1 & T1 & F1); [|lia|].
  { intros Hx. apply HH in Hx. lia. }
  cbn [balloc_loop]. rewrite bind_gets, Hsb, (proj2 (Z.ltb_lt a _)) by lia.
  erewrite bind_Ok by exact E1. rewrite bind_getbuf, (tx_data _ _ _ _ _ _ T1 ltac:(by left)).
  pose proof (find_free_spec (c (BBLOCK a sb)) (sb_size sb) a (Z.to_nat BPB) 0 ltac:(lia)) as Hff.
  destruct (find_free (Z.to_nat BPB) (c (BBLOCK a sb)) (sb_size sb) a 0) as [r|].
  - destruct Hff as (Hr & Hrs & Hr0 & Hrall). rewrite <- Hbits in Hr0 by lia.
    assert (b = a + r) as ->.
    { destruct (Z.lt_trichotomy b (a + r)) as [Hlt|[->|Hlt]]; [|done|].
      - specialize (Hrall (b - a) ltac:(lia)). rewrite <- Hbits in Hrall by lia.
        replace (a + (b - a)) with b in Hrall by lia. congruence.
      - rewrite Hfirst in Hr0 by lia. done. }
    destruct (bblock_eq (a + r) ltac:(lia)) as (Er & _).
    assert (BBLOCK (a + r) sb = BBLOCK a sb) as Eab.
    { rewrite Er, Ea. f_equal. assert (∃ q, a = q * BPB) as [q ->] by (exists (a / BPB); pose proof (Z.div_mod a BPB); lia).
      rewrite Z.div_add_l, Z.div_mul, (Z.div_small r) by lia. lia. }
    assert ((a + r) mod BPB = r) as Emod.
    { rewrite Z.add_mod, Ham, Z.add_0_l, Z.mod_mod by lia. by apply Z.mod_small. }
    rewrite Eab, Emod.
    destruct (tx_write s1 L ((i, BBLOCK a sb) :: H) c i (BBLOCK a sb) (set_bit r) T1) as (s2 & s3 & E2 & E3 & T3 & F3);
      [by left|done|by unfold set_bit; rewrite length_alter, (tx_len _ _ _ _ _ T)|lia|].
    destruct (tx_brelse s3 _ _ _ _ _ T3) as (s4 & E4 & T4 & F4).
    destruct (bzero_ok s4 _ H _ (a + r) T4) as (s5 & E5 & T5 & F5).
    + intros Hx. by apply HH in Hx as [_ ?].
    + by rewrite <- Eab.
    + split; [destruct G; lia|]. right. destruct G as [G1 G2 G3]. unfold nmeta in *. 
      assert (0 ≤ sb_ninodes sb / IPB) by (apply Z.div_pos; [lia|reflexivity]).
      pose proof (Z.div_pos (sb_size sb) BPB). lia.
    + by rewrite <- Eab.
    + exists s5. split_and!; [|exact T5|lframes].
      erewrite bind_Ok by exact E2. erewrite bind_Ok by exact E3. erewrite bind_Ok by exact E4.
      by erewrite bind_Ok by exact E5.
  - assert (a + BPB ≤ b) as Hab.
    { destruct (decide (a + BPB ≤ b)); [done|]. specialize (Hff (b - a) ltac:(lia) ltac:(lia)).
      rewrite <- Hbits in Hff by lia. replace (a + (b - a)) with b in Hff by lia. congruence. }
    destruct (tx_brelse s1 _ _ _ _ _ T1) as (s2 & E2 & T2 & F2). erewrite bind_Ok by exact E2.
    destruct (IH s2 L H c (a + BPB) b T2) as (s3 & E3 & T3 & F3); try done; try lia.
    + by rewrite (lf_eq _ _ _ F2), (lf_eq _ _ _ F1).
    + rewrite <- (Z.mul_1_l BPB) at 1. by rewrite Z.mod_add by lia.
    + split_and!; [lia|lia|done|]. intros x Hx. apply Hfirst. lia.
    + exists s3. split_and!; [done|done|]. lframes.
Qed.

Lemma balloc_ok s L H c b :
  tx s L H c → k_sb s = sb → Z.of_nat (length (logged (BBLOCK b sb) L)) < size - 1 →
  (length (logged (BBLOCK b sb) L) + length H < HEAD)%nat →
  first_free c 0 b → (∀ x, x ∈ H.*2 → nmeta sb ≤ x ∧ x ≠ b) → nmeta sb ≤ b →
  ∃ s', balloc ROOTDEV h s = Ok b h s' ∧
    tx s' (logged b (logged (BBLOCK b sb) L)) H
      (<[b := zero_block]> (<[BBLOCK b sb := set_bit (b mod BPB) (c (BBLOCK b sb))]> c)) ∧
    lframe me s s'.
Proof.
  intros T Hsb Hlen Hr Hb HH Hm. unfold balloc. rewrite bind_gets, Hsb. pose proof BPB_pos.
  apply balloc_loop_ok; try done. destruct G as [G1 G2 G3]. pose proof (Z.div_mod (sb_size sb) BPB).
  pose proof (Z.mod_pos_bound (sb_size sb) BPB). pose proof (Z.div_pos (sb_size sb) BPB).
  destruct Hb. rewrite Z2Nat.id by lia. lia.
Qed.
End Alloc.
End Tx.
