(* ===== verification/FsFile.v ===== *)
(** * Files (kernel/fs.c)

    The contents of a file are the bytes of the blocks its inode names, directly or
    through its indirect block.  [bmap] extends this map, [readi] and [writei] are
    reading and writing the list of bytes [fdata]. *)

From stdpp Require Import functions.
From S2P Require Import Prelude CString Riscv Kalloc Kernel Sched Sleeplock Bytes Bio BioList BioSpec Log.
From S2P Require Import LogSpec LogOps Uart Printf Fs FsSpec.

(** ** The blocks of a file *)

Definition ind_block (x : inode) : Z := nthZ (i_addrs x) NDIRECT.
Definition ind_entry (c : Z → list Z) (x : inode) (k : nat) : Z := get32 (4 * Z.of_nat k) (c (ind_block x)).

(** The disk block of block [bn] of the file, or 0. *)
Definition faddr (c : Z → list Z) (x : inode) (bn : Z) : Z :=
  if bn <? NDIRECT then nthZ (i_addrs x) bn
  else if ind_block x =? 0 then 0 else get32 (4 * (bn - NDIRECT)) (c (ind_block x)).

(** All slots for block numbers: the data blocks, then the indirect block. *)
Definition slot (c : Z → list Z) (x : inode) (k : Z) : Z :=
  if k =? MAXFILE then ind_block x else faddr c x k.

Record file_ok (sb : superblock) (c : Z → list Z) (x : inode) : Prop := {
  fo_len : length (i_addrs x) = Z.to_nat (NDIRECT + 1);
  fo_size : 0 ≤ i_size x ≤ MAXFILE * BSIZE;
  fo_used : ∀ k, 0 ≤ k ≤ MAXFILE → slot c x k ≠ 0 →
    nmeta sb ≤ slot c x k < sb_size sb ∧ bbit c sb (slot c x k) = true;
  fo_inj : ∀ j k, 0 ≤ j ≤ MAXFILE → 0 ≤ k ≤ MAXFILE → slot c x j ≠ 0 → slot c x j = slot c x k → j = k;
  fo_full : ∀ bn, 0 ≤ bn → bn * BSIZE < i_size x → faddr c x bn ≠ 0;
}.

Lemma MAXFILE_eq : MAXFILE = 268 ∧ NDIRECT = 12 ∧ NINDIRECT = 256.
Proof. done. Qed.

(** A change that leaves the indirect block alone. *)
Lemma faddr_ext c c' x bn : c' (ind_block x) = c (ind_block x) → faddr c' x bn = faddr c x bn.
Proof. intros E. unfold faddr. by rewrite E. Qed.

Section File.
Context {Pat : Patience} (h : list lockid) (me : nat) (start size : Z) (sb : superblock).
Context (G : geom start size sb).
Abbreviation tx := (tx h me start size).

(** ** Frames *)

(** Only the cache, the log, the inode table, physical memory and sleeping processes
    change. *)
Record iframe (s s' : kernel) : Prop := {
  if_eq : s' = s <| k_procs := k_procs s' |> <| k_bcache := k_bcache s' |> <| k_disk := k_disk s' |>
                 <| k_log := k_log s' |> <| k_itable := k_itable s' |> <| k_mach := k_mach s' |>;
  if_awake : awake me (k_procs s) (k_procs s');
}.

Lemma iframe_trans s1 s2 s3 : iframe s1 s2 → iframe s2 s3 → iframe s1 s3.
Proof.
  intros [E1 A1] [E2 A2]. split; [|by eapply awake_trans]. rewrite E2, E1. by destruct s1.
Qed.

Lemma lframe_iframe s s' : lframe me s s' → iframe s s' ∧ k_itable s' = k_itable s ∧ k_mach s' = k_mach s.
Proof.
  intros [E A]. split_and!; [split; [|done]|by rewrite E..]. rewrite E. by destruct s.
Qed.

Lemma iframe_sb s s' : iframe s s' → k_sb s' = k_sb s.
Proof. intros F. by rewrite (if_eq _ _ F). Qed.

Lemma iframe_cur s s' : iframe s s' → k_cur s' = k_cur s ∧ proc_at me s' = proc_at me s.
Proof.
  intros F. split; [by rewrite (if_eq _ _ F)|]. unfold proc_at. by rewrite (awake_me _ _ _ (if_awake _ _ F)).
Qed.

Lemma iframe_itable s f : iframe s (s <| k_itable ::= f |>).
Proof. split; [by destruct s|apply awake_refl]. Qed.

Lemma iframe_mach s m : iframe s (s <| k_mach := m |>).
Proof. split; [by destruct s|apply awake_refl]. Qed.

(** The inode table and memory are apart from the blocks. *)
Lemma tx_itable s L H c f : tx s L H c → tx (s <| k_itable ::= f |>) L H c.
Proof.
  intros [C Hlk La Ll Ho V Cl Hh HN]. split; try done.
  - destruct C as [[? ? ? ?] ? ? ?]. split; [by split|done..].
  - by destruct La.
  - intros i b Hi. by destruct (Hh i b Hi).
Qed.

Lemma tx_mach s L H c m : tx s L H c → tx (s <| k_mach := m |>) L H c.
Proof.
  intros [C Hlk La Ll Ho V Cl Hh HN]. split; try done.
  - destruct C as [[? ? ? ?] ? ? ?]. split; [by split|done..].
  - by destruct La.
  - intros i b Hi. by destruct (Hh i b Hi).
Qed.

Lemma inode_at_alter i f s :
  (i < length (k_itable s))%nat → inode_at i (s <| k_itable ::= alter f i |>) = f (inode_at i s).
Proof.
  intros Hi. unfold inode_at. simpl. rewrite list_lookup_alter_eq.
  by destruct (lookup_lt_is_Some_2 _ _ Hi) as [x ->].
Qed.

(** ** Adding a block to a file *)

(** The blocks after [balloc] has returned [b]. *)
Definition alloc (c : Z → list Z) (b : Z) : Z → list Z :=
  <[b := zero_block]> (<[BBLOCK b sb := set_bit (b mod BPB) (c (BBLOCK b sb))]> c).

(** A block [balloc] may return. *)
Definition fresh (c : Z → list Z) (b : Z) : Prop := nmeta sb ≤ b < sb_size sb ∧ bbit c sb b = false.

Definition sized (c : Z → list Z) : Prop := ∀ b, length (c b) = Z.to_nat BSIZE.

Lemma geom_pos : 0 ≤ sb_bmapstart sb ∧ sb_bmapstart sb < nmeta sb.
Proof.
  destruct G as [G1 G2 G3]. unfold nmeta in *. pose proof BPB_pos.
  assert (0 ≤ sb_ninodes sb / IPB) by (apply Z.div_pos; [lia|reflexivity]).
  assert (0 ≤ sb_size sb).
  { destruct (decide (0 ≤ sb_size sb)); [done|]. pose proof (Z.div_le_lower_bound (sb_size sb) BPB (sb_size sb)). nia. }
  pose proof (Z.div_pos (sb_size sb) BPB). lia.
Qed.

Lemma alloc_other c b y : y ≠ b → y ≠ BBLOCK b sb → alloc c b y = c y.
Proof. intros H1 H2. unfold alloc. by rewrite !fn_lookup_insert_ne. Qed.

Lemma alloc_data c b y : fresh c b → nmeta sb ≤ y → y ≠ b → alloc c b y = c y.
Proof.
  intros [Hb _] Hy Hne. pose proof geom_pos. destruct (bblock_eq start size sb G b) as (_ & Hr & _); [lia|].
  apply alloc_other; [done|lia].
Qed.

Lemma alloc_bits c b y :
  sized c → fresh c b → 0 ≤ y < sb_size sb → bbit (alloc c b) sb y = bool_decide (y = b) || bbit c sb y.
Proof.
  intros Hc [Hb _] Hy. pose proof geom_pos. rewrite <- (bbit_set start size sb G c b y Hc ltac:(lia) Hy).
  unfold bbit, alloc. destruct (bblock_eq start size sb G y Hy) as (_ & Hr & _).
  by rewrite fn_lookup_insert_ne by lia.
Qed.

Lemma alloc_sized c b : sized c → sized (alloc c b).
Proof.
  intros Hc y. unfold alloc. destruct (decide (y = b)) as [->|]; [rewrite fn_lookup_insert; apply length_replicate|].
  rewrite fn_lookup_insert_ne by done. destruct (decide (y = BBLOCK b sb)) as [->|]; [|by rewrite fn_lookup_insert_ne].
  rewrite fn_lookup_insert. unfold set_bit. by rewrite length_alter.
Qed.

(** The file after a fresh block [b] has been put into slot [k0]. *)
Lemma file_add c c' x x' k0 b :
  file_ok sb c x → sized c → fresh c b → 0 ≤ k0 ≤ MAXFILE → slot c x k0 = 0 →
  slot c' x' k0 = b → (∀ k, 0 ≤ k ≤ MAXFILE → k ≠ k0 → slot c' x' k = slot c x k) →
  (∀ y, 0 ≤ y < sb_size sb → bbit c' sb y = bool_decide (y = b) || bbit c sb y) →
  length (i_addrs x') = length (i_addrs x) → i_size x' = i_size x → file_ok sb c' x'.
Proof.
  intros [F1 F2 F3 F4 F5] Hc [Hb Hfree] Hk0 H0 Hnew Hold Hbits Hl Hs. pose proof geom_pos as [Hp Hp2].
  assert (∀ k, 0 ≤ k ≤ MAXFILE → slot c x k ≠ 0 → slot c x k ≠ b) as Hne.
  { intros k Hk Hnz E. destruct (F3 k Hk Hnz) as [_ Hbit]. rewrite E in Hbit. congruence. }
  split.
  - by rewrite Hl.
  - by rewrite Hs.
  - intros k Hk Hnz. destruct (decide (k = k0)) as [->|Hkk].
    + rewrite Hnew in *. split; [done|]. rewrite Hbits, bool_decide_true by (done || lia). done.
    + rewrite Hold in * by done. destruct (F3 k Hk Hnz) as [Hr Hbit]. split; [done|].
      rewrite Hbits, Hbit by lia. apply orb_true_r.
  - intros j k Hj Hk Hnz E. destruct (decide (j = k0)) as [->|Hj0], (decide (k = k0)) as [->|Hk0']; [done|..].
    + rewrite Hnew, (Hold k) in E by done. rewrite Hnew in Hnz. exfalso. apply (Hne k Hk); congruence.
    + rewrite Hnew, (Hold j) in E by done. rewrite (Hold j) in Hnz by done. by apply (Hne j Hj) in E.
    + rewrite (Hold j), (Hold k) in * by done. by apply F4.
  - intros bn Hbn Hlt. rewrite Hs in Hlt. specialize (F5 bn Hbn Hlt).
    assert (0 ≤ bn < MAXFILE) as Hr.
    { unfold BSIZE in *. lia. }
    assert (slot c x bn ≠ 0) as Hnz by (unfold slot; by rewrite (proj2 (Z.eqb_neq bn _)) by lia).
    assert (slot c' x' bn ≠ 0) as Hnz'.
    { destruct (decide (bn = k0)) as [->|]; [done|]. by rewrite Hold by lia. }
    unfold slot in Hnz'. by rewrite (proj2 (Z.eqb_neq bn _)) in Hnz' by lia.
Qed.

(** *** Free blocks *)

Definition free_blocks (c : Z → list Z) : list Z := filter (λ b, bbit c sb b = false) (seqZ 0 (sb_size sb)).
Definition nfree (c : Z → list Z) : Z := Z.of_nat (length (free_blocks c)).

(** The metadata is in use. *)
Definition meta_used (c : Z → list Z) : Prop := ∀ b, 0 ≤ b < nmeta sb → bbit c sb b = true.

Lemma first_free_ex c : meta_used c → 0 < nfree c → ∃ b, first_free sb c 0 b ∧ fresh c b.
Proof.
  intros Hm Hn. unfold nfree, free_blocks in Hn.
  destruct (list_find (λ b, bbit c sb b = false) (seqZ 0 (sb_size sb))) as [[i b]|] eqn:E.
  - apply list_find_Some in E as (Hi & Hb & Hfirst). apply lookup_seqZ in Hi as [-> Hi]. rewrite Z.add_0_l in *.
    exists (Z.of_nat i). split.
    + split_and!; [lia|lia|done|]. intros x Hx.
      specialize (Hfirst (Z.to_nat x) x). rewrite lookup_seqZ in Hfirst.
      destruct (bbit c sb x) eqn:Ex; [done|]. exfalso. apply Hfirst; [lia|lia|done].
    + split; [|done]. destruct (decide (Z.of_nat i < nmeta sb)); [|lia]. rewrite Hm in Hb by lia. done.
  - apply list_find_None in E. rewrite Forall_forall in E. exfalso.
    destruct (filter (λ b, bbit c sb b = false) (seqZ 0 (sb_size sb))) as [|b l] eqn:Ef; [simpl in Hn; lia|].
    assert (b ∈ filter (λ b, bbit c sb b = false) (seqZ 0 (sb_size sb))) as Hb by (rewrite Ef; left).
    apply list_elem_of_filter in Hb as [Hb Hin]. by apply (E b).
Qed.

Lemma filter_ext_in (P Q : Z → Prop) `{!∀ x, Decision (P x), !∀ x, Decision (Q x)} (l : list Z) :
  (∀ x, x ∈ l → P x ↔ Q x) → filter P l = filter Q l.
Proof.
  induction l as [|a l IH]; intros Hl; [done|]. rewrite !filter_cons, IH by (intros; apply Hl; by right).
  pose proof (Hl a ltac:(by left)). repeat case_decide; tauto.
Qed.

Lemma filter_remove (P Q : Z → Prop) `{!∀ x, Decision (P x), !∀ x, Decision (Q x)} (l : list Z) b :
  NoDup l → (∀ x, x ∈ l → Q x ↔ P x ∧ x ≠ b) → (length (filter P l) ≤ S (length (filter Q l)))%nat.
Proof.
  intros HN HQ. induction l as [|a l IH]; [simpl; lia|]. apply NoDup_cons in HN as [Ha HN].
  assert (∀ x, x ∈ l → Q x ↔ P x ∧ x ≠ b) as HQ' by (intros; apply HQ; by right). specialize (IH HN HQ').
  pose proof (HQ a ltac:(by left)) as Hqa. rewrite !filter_cons. destruct (decide (P a)), (decide (Q a)); simpl; try lia; try tauto.
  assert (a = b) as -> by (destruct (decide (a = b)); [done|tauto]).
  rewrite (filter_ext_in P Q l); [lia|]. intros y Hy. rewrite HQ' by done.
  assert (y ≠ b) by (by intros ->). tauto.
Qed.

Lemma alloc_nfree c b : sized c → fresh c b → nfree c ≤ nfree (alloc c b) + 1.
Proof.
  intros Hc Hb. unfold nfree, free_blocks.
  pose proof (filter_remove (λ y, bbit c sb y = false) (λ y, bbit (alloc c b) sb y = false) (seqZ 0 (sb_size sb)) b
    (NoDup_seqZ _ _)) as Hr.
  assert (∀ y, y ∈ seqZ 0 (sb_size sb) → bbit (alloc c b) sb y = false ↔ bbit c sb y = false ∧ y ≠ b) as Hiff.
  { intros y Hy. apply elem_of_seqZ in Hy. rewrite alloc_bits by (done || lia). case_bool_decide; destruct (bbit c sb y); naive_solver. }
  specialize (Hr Hiff). lia.
Qed.

Lemma alloc_meta c b : sized c → fresh c b → meta_used c → meta_used (alloc c b).
Proof.
  intros Hc Hb Hm y Hy. destruct G. rewrite alloc_bits by (done || lia). rewrite Hm by done. apply orb_true_r.
Qed.

(** ** bmap *)

Lemma bind_getinode {A} i (k : inode → KM A) s : (getinode i ≫= k) h s = k (inode_at i s) h s.
Proof. done. Qed.

Lemma bind_updinode {A} i f (k : unit → KM A) s :
  (updinode i f ≫= k) h s = k tt h (s <| k_itable ::= alter f i |>).
Proof. done. Qed.

(** A locked inode in a transaction in which no buffer is held. *)
Record fview (s : kernel) (L : list Z) (c : Z → list Z) (ip : nat) (x : inode) : Prop := {
  fv_tx : tx s L [] c;
  fv_sb : k_sb s = sb;
  fv_ip : (ip < length (k_itable s))%nat;
  fv_inode : inode_at ip s = x;
  fv_dev : i_dev x = ROOTDEV;
  fv_file : file_ok sb c x;
  fv_meta : meta_used c;
}.

(** [B] contains all the blocks logged, the free map and the indirect block: these
    can be logged (again) within the space for [B]. *)
Record budget (B L : list Z) (x : inode) : Prop := {
  bu_log : L ⊆ B;
  bu_map : ∀ b, 0 ≤ b < sb_size sb → BBLOCK b sb ∈ B;
  bu_ind : ind_block x ≠ 0 → ind_block x ∈ B;
}.
Definition cost (B : list Z) (x : inode) : Z := Z.of_nat (length B) + (if ind_block x =? 0 then 1 else 0).

Lemma sub_len (L B : list Z) : NoDup L → L ⊆ B → (length L ≤ length B)%nat.
Proof. intros HN HL. by apply submseteq_length, NoDup_submseteq. Qed.

Lemma tx_sub_len s L H c B : tx s L H c → L ⊆ B → (length L ≤ length B)%nat.
Proof. intros T HL. apply sub_len; [|done]. apply (ll_nodup _ _ _ (tx_list _ _ _ _ _ _ _ _ T)). Qed.

Lemma tx_sized s L H c : tx s L H c → sized c.
Proof. intros T b. by eapply tx_len. Qed.

Lemma logged_sub (b : Z) (L B : list Z) : L ⊆ B → b ∈ B → logged b L ⊆ B.
Proof. intros HL Hb y. rewrite elem_of_logged. set_solver. Qed.

(** What [bmap] does to the file: its blocks stay, blocks that were free may be added
    in the slots [A]; all other data stays. *)
Record grown (A : Z → Prop) (c c' : Z → list Z) (x x' : inode) : Prop := {
  gr_x : x' = x <| i_addrs := i_addrs x' |>;
  gr_kept : ∀ k, 0 ≤ k ≤ MAXFILE → slot c x k ≠ 0 → slot c' x' k = slot c x k;
  gr_only : ∀ k, 0 ≤ k ≤ MAXFILE → ¬ A k → slot c' x' k = slot c x k;
  gr_fresh : ∀ k, 0 ≤ k ≤ MAXFILE → slot c x k = 0 → slot c' x' k ≠ 0 → fresh c (slot c' x' k);
  gr_data : ∀ k, 0 ≤ k < MAXFILE → slot c x k ≠ 0 → c' (slot c x k) = c (slot c x k);
  gr_other : ∀ b, 0 ≤ b < sb_bmapstart sb ∨ nmeta sb ≤ b →
    (∀ k, 0 ≤ k ≤ MAXFILE → slot c' x' k ≠ 0 → slot c' x' k ≠ b) → c' b = c b;
  gr_bits : ∀ b, 0 ≤ b < sb_size sb → bbit c sb b = true → bbit c' sb b = true;
}.

Lemma fgrown_refl A c x : grown A c c x x.
Proof. split; try done. by destruct x. Qed.

Lemma grown_trans (A1 A2 : Z → Prop) c1 c2 c3 x1 x2 x3 :
  grown A1 c1 c2 x1 x2 → grown A2 c2 c3 x2 x3 → grown (λ k, A1 k ∨ A2 k) c1 c3 x1 x3.
Proof.
  intros [X1 K1 O1 F1 D1 T1 B1] [X2 K2 O2 F2 D2 T2 B2]. pose proof geom_pos as [Hp Hp2]. split.
  - rewrite X2, X1. by destruct x1.
  - intros k Hk Hnz. rewrite K2 by (done || by rewrite K1). by apply K1.
  - intros k Hk HA. rewrite O2 by naive_solver. apply O1; naive_solver.
  - intros k Hk Hz Hnz. destruct (decide (slot c2 x2 k = 0)) as [Hz2|Hnz2].
    + destruct (F2 k Hk Hz2 Hnz) as [Hr Hb]. split; [done|].
      destruct (bbit c1 sb (slot c3 x3 k)) eqn:E; [|done]. rewrite B1 in Hb by (done || lia). done.
    + rewrite K2 by done. by apply F1.
  - intros k Hk Hnz. rewrite <- (K1 k) by (done || lia). rewrite D2; [|lia|by rewrite K1 by (done || lia)].
    rewrite K1 by (done || lia). by apply D1.
  - intros b Hb Hns. rewrite T2 by done. apply T1; [done|]. intros k Hk Hnz. rewrite <- K2 by done. apply Hns; [done|].
    by rewrite K2.
  - auto.
Qed.

Lemma slot_ind c x : slot c x MAXFILE = ind_block x.
Proof. unfold slot. by rewrite Z.eqb_refl. Qed.

Lemma slot_data c x k : 0 ≤ k < MAXFILE → slot c x k = faddr c x k.
Proof. intros Hk. unfold slot. by rewrite (proj2 (Z.eqb_neq k _)) by lia. Qed.

Lemma HEAD_eq : HEAD = 30%nat ∧ LOGSIZE = 30.
Proof. done. Qed.

(** A block the file has: nothing changes. *)
Lemma bmap_old s L c ip x B bn :
  fview s L c ip x → L ⊆ B → Z.of_nat (length B) ≤ size - 1 → 0 ≤ bn < MAXFILE → faddr c x bn ≠ 0 →
  ∃ s', bmap ip bn h s = Ok (faddr c x bn) h s' ∧ tx s' L [] c ∧ lframe me s s'.
Proof.
  intros [T Hsb Hip Hx Hdev Hok Hm] HL HB Hbn Ha. pose proof MAXFILE_eq as (? & ? & ?). pose proof HEAD_eq as [? ?].
  pose proof (tx_sub_len _ _ _ _ _ T HL). destruct (g_log _ _ _ G) as (_ & ? & _).
  unfold bmap. rewrite bind_getinode, Hx. unfold faddr in *. destruct (Z.ltb_spec bn NDIRECT).
  - cbv zeta. rewrite (proj2 (Z.eqb_neq _ 0)) by done. exists s. split_and!; [done..|].
    apply bframe_lframe, bframe_refl.
  - rewrite (proj2 (Z.ltb_lt (bn - NDIRECT) _)) by lia. cbv zeta.
    destruct (Z.eqb_spec (ind_block x) 0) as [|Hi]; [done|]. fold (ind_block x).
    rewrite (proj2 (Z.eqb_neq _ 0)) by done. rewrite bind_ret, (proj2 (Z.eqb_neq _ 0)), Hdev by done.
    unfold bmap_indirect.
    destruct (tx_bread h me start size s L [] c (ind_block x) T) as (i & s1 & E1 & T1 & F1);
      [apply not_elem_of_nil|simpl; lia|].
    destruct (tx_brelse h me start size s1 _ _ _ _ _ T1) as (s2 & E2 & T2 & F2).
    erewrite bind_Ok by exact E1. rewrite bind_getbuf, (tx_data h me start size _ _ _ _ _ _ T1 ltac:(by left)).
    rewrite (proj2 (Z.eqb_neq _ 0)) by done. rewrite bind_ret. erewrite bind_Ok by exact E2.
    exists s2. split_and!; [done..|lframes].
Qed.

(** Allocation within a budget. *)
Lemma balloc_budget s L H c B b :
  tx s L H c → k_sb s = sb → meta_used c → first_free sb c 0 b → fresh c b →
  L ⊆ B → (∀ b, 0 ≤ b < sb_size sb → BBLOCK b sb ∈ B) →
  (∀ y, y ∈ H.*2 → nmeta sb ≤ y ∧ y ≠ b) → (length H ≤ 1)%nat →
  Z.of_nat (length B) + 1 ≤ size - 1 →
  ∃ s' L', balloc ROOTDEV h s = Ok b h s' ∧ tx s' L' H (alloc c b) ∧ lframe me s s' ∧ L' ⊆ b :: B ∧ b ≠ 0.
Proof.
  intros T Hsb Hm Hff Hfr HL Hmap HH Hh HB. pose proof HEAD_eq as [? ?]. destruct (g_log _ _ _ G) as (_ & ? & _).
  pose proof geom_pos. destruct Hfr as [Hb ?].
  pose proof (logged_sub (BBLOCK b sb) L B HL (Hmap b ltac:(lia))) as HL1.
  assert (length (logged (BBLOCK b sb) L) ≤ length B)%nat as Hlen.
  { apply sub_len; [|done]. apply logged_nodup, (ll_nodup _ _ _ (tx_list _ _ _ _ _ _ _ _ T)). }
  destruct (balloc_ok h me start size sb G s L H c b) as (s' & E & T' & F); try done; try lia.
  exists s', (logged b (logged (BBLOCK b sb) L)). split_and!; [done|done|done| |lia].
  apply logged_sub; [|by left]. intros y Hy. right. by apply HL1.
Qed.

(** A fresh block [b] is put into slot [k0]. *)
Lemma grown_add c c' x x' k0 b :
  file_ok sb c x → sized c → fresh c b → 0 ≤ k0 ≤ MAXFILE → slot c x k0 = 0 →
  x' = x <| i_addrs := i_addrs x' |> → length (i_addrs x') = length (i_addrs x) →
  slot c' x' k0 = b → (∀ k, 0 ≤ k ≤ MAXFILE → k ≠ k0 → slot c' x' k = slot c x k) →
  (∀ y, 0 ≤ y < sb_size sb → bbit c' sb y = bool_decide (y = b) || bbit c sb y) →
  (∀ y, 0 ≤ y < sb_bmapstart sb ∨ nmeta sb ≤ y → y ≠ b → y ≠ 0 ∧ y = ind_block x ∨ c' y = c y) →
  file_ok sb c' x' ∧ grown (λ k, k = k0) c c' x x'.
Proof.
  intros Hok Hc Hfr Hk0 H0 Ex Hl Hnew Hold Hbits Hdata. pose proof geom_pos as [Hp Hp2].
  assert (∀ k, 0 ≤ k ≤ MAXFILE → slot c x k ≠ 0 → k ≠ k0) as Hkk by (intros k _ Hnz ->; done).
  split; [eapply (file_add c c' x x' k0 b); try done; by rewrite Ex|]. split.
  - done.
  - intros k Hk Hnz. by apply Hold, Hkk.
  - intros k Hk Hne. by apply Hold.
  - intros k Hk Hz Hnz. destruct (decide (k = k0)) as [->|Hne]; [by rewrite Hnew|]. by rewrite Hold in Hnz.
  - intros k Hk Hnz. destruct (fo_used _ _ _ Hok k ltac:(lia) Hnz) as [Hr Hbit].
    destruct (Hdata (slot c x k)) as [[_ E]|E]; [lia| | |done].
    + intros E. rewrite E in Hbit. destruct Hfr. congruence.
    + rewrite <- slot_ind with (c := c) in E. apply (fo_inj _ _ _ Hok) in E; [lia|lia| |done]. lia.
  - intros y Hy Hns. destruct (decide (y = b)) as [->|Hyb].
    { exfalso. destruct Hfr as [Hb _]. apply (Hns k0); [done|lia|done]. }
    destruct (Hdata y Hy Hyb) as [[Hy0 ->]|E]; [|done]. exfalso.
    assert (slot c x MAXFILE = ind_block x) as Ei by apply slot_ind.
    destruct (decide (MAXFILE = k0)) as [<-|Hne]; [congruence|].
    apply (Hns MAXFILE); [lia|rewrite Hold by (done || lia); congruence..].
  - intros y Hy Hb. rewrite Hbits, Hb by done. apply orb_true_r.
Qed.
(** Assigning to the inode. *)
Lemma fview_inode s s1 L c1 ip x x' f :
  (ip < length (k_itable s))%nat → inode_at ip s = x → k_sb s = sb → i_dev x' = ROOTDEV →
  tx s1 L [] c1 → iframe s s1 → k_itable s1 = k_itable s → f x = x' → file_ok sb c1 x' → meta_used c1 →
  let s2 := s1 <| k_itable ::= alter f ip |> in
  fview s2 L c1 ip x' ∧ iframe s s2 ∧ k_itable s2 = alter (λ _, x') ip (k_itable s).
Proof.
  intros Hip Hx Hsb Hdev T F It Ef Hok Hm s2.
  assert (k_itable s2 = alter (λ _, x') ip (k_itable s)) as Eit.
  { unfold s2. simpl. rewrite It. apply list_eq. intros j. destruct (decide (ip = j)) as [<-|]; [|by rewrite !list_lookup_alter_ne].
    rewrite !list_lookup_alter_eq. unfold inode_at in Hx. destruct (k_itable s !! ip); simpl in *; congruence. }
  split_and!; [|eapply iframe_trans; [exact F|apply iframe_itable]|done]. split.
  - by apply tx_itable.
  - change (k_sb s1 = sb). by rewrite (iframe_sb _ _ F).
  - rewrite Eit, length_alter. done.
  - unfold inode_at. rewrite Eit, list_lookup_alter_eq. destruct (lookup_lt_is_Some_2 _ _ Hip) as [z ->]. done.
  - done.
  - done.
  - done.
Qed.

(** The inode with a new direct block. *)
Definition add_direct (x : inode) (bn b : Z) : inode := x <| i_addrs ::= <[Z.to_nat bn := b]> |>.

Lemma add_direct_ok c x bn b (x' := add_direct x bn b) :
  file_ok sb c x → sized c → fresh c b → 0 ≤ bn < NDIRECT → faddr c x bn = 0 →
  file_ok sb (alloc c b) x' ∧ grown (λ k, k = bn) c (alloc c b) x x' ∧ faddr (alloc c b) x' bn = b ∧ ind_block x' = ind_block x.
Proof.
  intros Hok Hc Hfr Hbn Ha. pose proof MAXFILE_eq as (? & ? & ?).
  assert (∀ k, 0 ≤ k → k ≠ bn → nthZ (i_addrs x') k = nthZ (i_addrs x) k) as Hne.
  { intros k Hk Hkb. unfold x', add_direct, nthZ. simpl. rewrite !nth_lookup, list_lookup_insert_ne; [done|]. lia. }
  assert (ind_block x' = ind_block x) as Eind by (apply Hne; lia).
  assert (faddr (alloc c b) x' bn = b) as Hnew.
  { unfold faddr. rewrite (proj2 (Z.ltb_lt bn _)) by lia. unfold x', add_direct, nthZ. simpl.
    rewrite nth_lookup, list_lookup_insert_eq; [done|]. rewrite (fo_len _ _ _ Hok). lia. }
  assert (∀ k, 0 ≤ k ≤ MAXFILE → k ≠ bn → slot (alloc c b) x' k = slot c x k) as Hold.
  { intros k Hk Hkb. unfold slot, faddr. rewrite Eind. destruct (k =? MAXFILE); [done|].
    destruct (k <? NDIRECT); [apply Hne; [lia|done]|]. destruct (Z.eqb_spec (ind_block x) 0); [done|].
    assert (slot c x MAXFILE ≠ 0) as Hs by (by rewrite slot_ind).
    destruct (fo_used _ _ _ Hok MAXFILE ltac:(lia) Hs) as [Hr Hbit]. rewrite slot_ind in Hr, Hbit.
    rewrite alloc_data; [done|done|lia|]. intros E. rewrite E in Hbit. destruct Hfr. congruence. }
  destruct (grown_add c (alloc c b) x x' bn b) as [Hok' Hgr]; try done.
  - lia.
  - rewrite slot_data by lia. done.
  - unfold x', add_direct. simpl. by rewrite length_insert.
  - by rewrite slot_data by lia.
  - intros y Hy. by apply alloc_bits.
  - intros y Hy Hyb. right. destruct Hfr as [Hr _]. pose proof geom_pos.
    apply alloc_other; [done|]. destruct (bblock_eq start size sb G b) as (_ & ? & _); lia.
Qed.

(** A new direct block. *)
Lemma bmap_direct s L c ip x B bn :
  fview s L c ip x → budget B L x → cost B x + 2 ≤ size - 1 → 0 ≤ bn < NDIRECT → faddr c x bn = 0 → 0 < nfree c →
  ∃ b s' L' x', bmap ip bn h s = Ok b h s' ∧ fview s' L' (alloc c b) ip x' ∧ iframe s s' ∧
    k_mach s' = k_mach s ∧ k_itable s' = alter (λ _, x') ip (k_itable s) ∧
    grown (λ k, k = bn) c (alloc c b) x x' ∧ faddr (alloc c b) x' bn = b ∧ budget (b :: B) L' x' ∧
    cost (b :: B) x' ≤ cost B x + 1 ∧ b ≠ 0 ∧ fresh c b.
Proof.
  intros [T Hsb Hip Hx Hdev Hok Hm] [HL Hmap Hind] HB Hbn Ha Hn. pose proof MAXFILE_eq as (? & ? & ?).
  unfold cost in HB. pose proof (tx_sized _ _ _ _ T) as Hc.
  destruct (first_free_ex c Hm Hn) as (b & Hff & Hfr).
  destruct (balloc_budget s L [] c B b) as (s1 & L' & E1 & T1 & F1 & HL1 & Hb0);
    [done..|intros y Hy; by apply not_elem_of_nil in Hy|simpl; lia|destruct (ind_block x =? 0); lia|].
  destruct (lframe_iframe s s1 F1) as (IF1 & It1 & Im1).
  destruct (add_direct_ok c x bn b Hok Hc Hfr Hbn Ha) as (Hok' & Hgr & Hnew & Eind). set (x' := add_direct x bn b) in *.
  destruct (fview_inode s s1 L' (alloc c b) ip x x' (λ x, x <| i_addrs ::= <[Z.to_nat bn := b]> |>))
    as (Fv & IF2 & It2); try done; [by apply alloc_meta|].
  eexists b, _, L', x'. split_and!; [|exact Fv|exact IF2|done|exact It2|done|done| | |done|done].
  - unfold bmap. rewrite bind_getinode, Hx, (proj2 (Z.ltb_lt bn _)) by lia. cbv zeta.
    unfold faddr in Ha. rewrite (proj2 (Z.ltb_lt bn _)) in Ha by lia. rewrite Ha, Hdev. cbn [Z.eqb].
    erewrite bind_Ok by exact E1. rewrite (proj2 (Z.eqb_neq b 0)) by done. done.
  - split; [done| |].
    + intros y Hy. right. by apply Hmap.
    + rewrite Eind. intros Hi. right. by apply Hind.
  - unfold cost. rewrite Eind. simpl length. lia.
Qed.

Lemma put32_entry k v data j :
  length data = Z.to_nat BSIZE → 0 ≤ k < NINDIRECT → 0 ≤ j < NINDIRECT → 0 ≤ v < 2 ^ 32 →
  get32 (4 * j) (put32 (4 * k) v data) = if decide (j = k) then v else get32 (4 * j) data.
Proof.
  intros Hd Hk Hj Hv. pose proof MAXFILE_eq as (? & ? & ?). unfold BSIZE in *. case_decide as E.
  - subst j. rewrite get32_put32 by lia. by apply u32_small.
  - rewrite get32_put32_ne by lia. done.
Qed.

(** The blocks after [b] has been allocated for block [bn] of a file with an indirect
    block. *)
Definition add_entry (c : Z → list Z) (x : inode) (bn b : Z) : Z → list Z :=
  <[ind_block x := put32 (4 * (bn - NDIRECT)) b (c (ind_block x))]> (alloc c b).

Lemma add_entry_bits c x bn b y :
  nmeta sb ≤ ind_block x → 0 ≤ y < sb_size sb → bbit (add_entry c x bn b) sb y = bbit (alloc c b) sb y.
Proof.
  intros Hi Hy. unfold bbit, add_entry. destruct (bblock_eq start size sb G y Hy) as (_ & ? & _).
  by rewrite fn_lookup_insert_ne by lia.
Qed.

Lemma add_entry_ok c x bn b (c' := add_entry c x bn b) :
  file_ok sb c x → sized c → fresh c b → ind_block x ≠ 0 → NDIRECT ≤ bn < MAXFILE → faddr c x bn = 0 →
  file_ok sb c' x ∧ grown (λ k, k = bn) c c' x x ∧ faddr c' x bn = b.
Proof.
  intros Hok Hc Hfr Hi Hbn Ha. pose proof MAXFILE_eq as (? & ? & ?). pose proof geom_pos as [? ?].
  pose proof (g_data _ _ _ G) as HG.
  assert (slot c x MAXFILE ≠ 0) as Hsi by (by rewrite slot_ind).
  destruct (fo_used _ _ _ Hok MAXFILE ltac:(lia) Hsi) as [Hir Hib]. rewrite slot_ind in Hir, Hib.
  assert (b ≠ ind_block x) as Hbi by (intros ->; destruct Hfr; congruence). destruct Hfr as [Hbr Hb0].
  assert (∀ k, NDIRECT ≤ k < MAXFILE → faddr c' x k = if decide (k = bn) then b else faddr c x k) as Hentry.
  { intros k Hk. unfold faddr. rewrite (proj2 (Z.ltb_ge k _)), (proj2 (Z.eqb_neq _ 0)) by (done || lia).
    unfold c', add_entry. rewrite fn_lookup_insert, put32_entry by (apply Hc || lia).
    repeat case_decide; done || lia. }
  assert (faddr c' x bn = b) as Hnew by (rewrite Hentry, decide_True by (done || lia); done).
  cut (file_ok sb c' x ∧ grown (λ k, k = bn) c c' x x); [naive_solver|].
  apply (grown_add c c' x x bn b); try done; try lia.
  - by rewrite slot_data by lia.
  - by destruct x.
  - by rewrite slot_data by lia.
  - intros k Hk Hne. unfold slot. destruct (Z.eqb_spec k MAXFILE); [done|]. destruct (decide (k < NDIRECT)).
    + unfold faddr. by rewrite (proj2 (Z.ltb_lt k _)) by lia.
    + rewrite Hentry, decide_False by (done || lia). done.
  - intros y Hy. unfold c'. rewrite add_entry_bits by (done || lia). by apply alloc_bits.
  - intros y Hy Hyb. unfold c', add_entry. destruct (decide (y = ind_block x)) as [->|Hyi]; [left; split; [lia|done]|right].
    rewrite fn_lookup_insert_ne by done. apply alloc_other; [done|].
    destruct (bblock_eq start size sb G b) as (_ & ? & _); lia.
Qed.

Lemma add_entry_free c x bn b (c' := add_entry c x bn b) :
  sized c → fresh c b → nmeta sb ≤ ind_block x → meta_used c → meta_used c' ∧ nfree c ≤ nfree c' + 1.
Proof.
  intros Hc Hfr Hi Hm. destruct (g_data _ _ _ G). split.
  - intros y Hy. unfold c'. rewrite add_entry_bits by (done || lia). by apply alloc_meta.
  - pose proof (alloc_nfree c b Hc Hfr) as Hn.
    assert (free_blocks c' = free_blocks (alloc c b)) as E; [|unfold nfree in *; by rewrite E].
    apply filter_ext_in. intros y Hy. apply elem_of_seqZ in Hy. unfold c'. by rewrite add_entry_bits by (done || lia).
Qed.

(** A new entry of the indirect block. *)
Lemma bmap_entry s L c ip x B bn :
  fview s L c ip x → budget B L x → ind_block x ≠ 0 → cost B x + 2 ≤ size - 1 → NDIRECT ≤ bn < MAXFILE →
  faddr c x bn = 0 → 0 < nfree c →
  ∃ b s' L' c', bmap_indirect ROOTDEV (ind_block x) (bn - NDIRECT) h s = Ok b h s' ∧ fview s' L' c' ip x ∧
    lframe me s s' ∧ grown (λ k, k = bn) c c' x x ∧ faddr c' x bn = b ∧ budget (b :: B) L' x ∧ b ≠ 0 ∧
    nfree c ≤ nfree c' + 1.
Proof.
  intros [T Hsb Hip Hx Hdev Hok Hm] [HL Hmap Hind] Hi HB Hbn Ha Hn. pose proof MAXFILE_eq as (? & ? & ?).
  pose proof HEAD_eq as [? ?]. destruct (g_log _ _ _ G) as (_ & ? & _). specialize (Hind Hi).
  unfold cost in HB. rewrite (proj2 (Z.eqb_neq _ 0)) in HB by done. pose proof (tx_sized _ _ _ _ T) as Hc.
  pose proof (tx_sub_len _ _ _ _ _ T HL).
  assert (slot c x MAXFILE ≠ 0) as Hsi by (by rewrite slot_ind).
  destruct (fo_used _ _ _ Hok MAXFILE ltac:(lia) Hsi) as [Hir Hib]. rewrite slot_ind in Hir, Hib.
  destruct (first_free_ex c Hm Hn) as (b & Hff & Hfr).
  assert (b ≠ ind_block x) as Hbi by (intros ->; destruct Hfr; congruence).
  destruct (tx_bread h me start size s L [] c (ind_block x) T) as (i & s1 & E1 & T1 & F1);
    [apply not_elem_of_nil|simpl; lia|].
  assert (k_sb s1 = sb) as Hsb1 by (by rewrite (lf_eq _ _ _ F1)).
  destruct (balloc_budget s1 L [(i, ind_block x)] c B b) as (s2 & L2 & E2 & T2 & F2 & HL2 & Hb0);
    [done..|intros y Hy; apply list_elem_of_singleton in Hy; simpl in Hy; subst y; split; [lia|done]|simpl; lia|lia|].
  pose proof (tx_sub_len _ _ _ _ _ T2 HL2) as Hl2. simpl in Hl2.
  assert (alloc c b (ind_block x) = c (ind_block x)) as Eai by (apply alloc_data; [done|lia|done]).
  destruct (tx_write h me start size s2 L2 [(i, ind_block x)] (alloc c b) i (ind_block x)
    (put32 (4 * (bn - NDIRECT)) b) T2) as (s3 & s4 & E3 & E4 & T4 & F4).
  { by left. }
  { destruct G as [G1 G2 G3]. pose proof geom_pos. unfold loggable, nmeta in *. split; [lia|].
    assert (0 ≤ sb_ninodes sb / IPB) by (apply Z.div_pos; [lia|reflexivity]). lia. }
  { rewrite length_put32; [by rewrite Eai|lia|]. rewrite Eai, Hc. unfold BSIZE. lia. }
  { lia. }
  destruct (tx_brelse h me start size s4 _ _ _ _ _ T4) as (s5 & E5 & T5 & F5).
  rewrite Eai in T5. fold (add_entry c x bn b) in T5.
  destruct (add_entry_ok c x bn b) as (Hok' & Hgr & Hnew); [done..|].
  destruct (add_entry_free c x bn b) as [Hm' Hn']; [done|done|lia|done|].
  assert (lframe me s s5) as F by lframes. destruct (lframe_iframe s s5 F) as (IF & It & _).
  eexists b, s5, (logged (ind_block x) L2), _. split_and!; [| |done|exact Hgr|done| |done|done].
  - unfold bmap_indirect. erewrite bind_Ok by exact E1. rewrite bind_getbuf, (tx_data h me start size _ _ _ _ _ _ T1 ltac:(by left)).
    cbv zeta. unfold faddr in Ha. rewrite (proj2 (Z.ltb_ge bn _)), (proj2 (Z.eqb_neq (ind_block x) 0)) in Ha by (done || lia).
    rewrite Ha. cbn [Z.eqb]. rewrite bind_assoc. erewrite bind_Ok by exact E2.
    rewrite (proj2 (Z.eqb_neq b 0)) by done. cbn [negb]. unfold when. rewrite bind_assoc, bind_assoc.
    erewrite bind_Ok by exact E3. erewrite bind_Ok by exact E4. rewrite bind_ret. by erewrite bind_Ok by exact E5.
  - split; try done.
    + by rewrite (iframe_sb _ _ IF).
    + by rewrite It.
    + unfold inode_at. by rewrite It.
  - split.
    + apply logged_sub; [done|by right].
    + intros y Hy. right. by apply Hmap.
    + intros _. by right.
Qed.

Lemma get32_zero off : get32 off zero_block = 0.
Proof.
  unfold get32, get, zero_block. rewrite drop_replicate, take_replicate.
  generalize (4 `min` (Z.to_nat BSIZE - Z.to_nat off))%nat. intros n. induction n; simpl; [done|]. by rewrite IHn.
Qed.

(** The inode with a new indirect block. *)
Definition add_ind (x : inode) (b : Z) : inode := x <| i_addrs ::= <[Z.to_nat NDIRECT := b]> |>.

Lemma add_ind_ok c x b (x' := add_ind x b) :
  file_ok sb c x → sized c → fresh c b → ind_block x = 0 →
  file_ok sb (alloc c b) x' ∧ grown (λ k, k = MAXFILE) c (alloc c b) x x' ∧ ind_block x' = b.
Proof.
  intros Hok Hc Hfr Hi. pose proof MAXFILE_eq as (? & ? & ?). pose proof geom_pos as [? ?].
  pose proof (g_data _ _ _ G) as HG. pose proof Hfr as [Hbr Hb0].
  assert (ind_block x' = b) as Ei.
  { unfold ind_block, x', add_ind, nthZ. simpl. rewrite nth_lookup, list_lookup_insert_eq; [done|].
    rewrite (fo_len _ _ _ Hok). lia. }
  cut (file_ok sb (alloc c b) x' ∧ grown (λ k, k = MAXFILE) c (alloc c b) x x'); [naive_solver|].
  apply (grown_add c (alloc c b) x x' MAXFILE b); try done; try lia.
  - unfold x', add_ind. simpl. by rewrite length_insert.
  - intros k Hk Hne. rewrite !slot_data by lia. unfold faddr. destruct (Z.ltb_spec k NDIRECT).
    + unfold x', add_ind, nthZ. simpl. rewrite !nth_lookup, list_lookup_insert_ne by lia. done.
    + rewrite Ei, Hi. rewrite (proj2 (Z.eqb_neq b 0)) by lia. unfold alloc. by rewrite fn_lookup_insert, get32_zero.
  - intros y Hy. by apply alloc_bits.
  - intros y Hy Hyb. right. apply alloc_other; [done|].
    destruct (bblock_eq start size sb G b) as (_ & ? & _); lia.
Qed.

(** Free blocks, one of them set aside for an indirect block. *)
Definition spare (c : Z → list Z) (x : inode) : Z := nfree c - (if ind_block x =? 0 then 1 else 0).

(** The result of [bmap]. *)
Record bmapped (s s' : kernel) (L' : list Z) (c c' : Z → list Z) (ip : nat) (x x' : inode) (B B' : list Z) (bn : Z) : Prop := {
  bm_view : fview s' L' c' ip x';
  bm_frame : iframe s s';
  bm_mach : k_mach s' = k_mach s;
  bm_itable : k_itable s' = alter (λ _, x') ip (k_itable s);
  bm_grown : grown (λ k, k = bn ∨ k = MAXFILE) c c' x x';
  bm_addr : faddr c' x' bn ≠ 0;
  bm_budget : budget B' L' x';
  bm_in : faddr c' x' bn ∈ B';
  bm_cost : cost B' x' ≤ cost B x + 1;
  bm_spare : spare c x - 1 ≤ spare c' x';
}.

Lemma alter_id_itable ip x s : inode_at ip s = x → (ip < length (k_itable s))%nat → k_itable s = alter (λ _, x) ip (k_itable s).
Proof.
  intros Hx Hip. apply list_eq. intros j. destruct (decide (ip = j)) as [<-|]; [|by rewrite list_lookup_alter_ne].
  rewrite list_lookup_alter_eq. unfold inode_at in Hx. destruct (lookup_lt_is_Some_2 _ _ Hip) as [z Hz].
  rewrite Hz in *. simpl in *. by subst.
Qed.

Lemma grown_sub (A A' : Z → Prop) c c' x x' : (∀ k, A k → A' k) → grown A c c' x x' → grown A' c c' x x'.
Proof. intros HA [? ? O ? ? ? ?]. split; try done. intros k Hk HnA. apply O; [done|]. naive_solver. Qed.

Lemma bmap_existing s L c ip x B bn :
  fview s L c ip x → budget B L x → cost B x + 2 ≤ size - 1 → 0 ≤ bn < MAXFILE → faddr c x bn ≠ 0 →
  ∃ s', bmap ip bn h s = Ok (faddr c x bn) h s' ∧ bmapped s s' L c c ip x x B (faddr c x bn :: B) bn.
Proof.
  intros Fv Bu HB Hbn Ha.
  destruct (bmap_old s L c ip x B bn) as (s' & E & T & F); [done|apply Bu| |done|done|].
  { unfold cost in HB. case_match; lia. }
  destruct (lframe_iframe s s' F) as (IF & It & Im). exists s'. split; [done|]. destruct Fv, Bu. split; try done.
  - split; try done; [by rewrite (iframe_sb _ _ IF)|by rewrite It|unfold inode_at; by rewrite It].
  - rewrite It. by apply alter_id_itable.
  - apply fgrown_refl.
  - split; set_solver.
  - by left.
  - unfold cost. simpl length. lia.
  - lia.
Qed.

(** The first part of [bmap] for an indirect block: a new block becomes the indirect
    block. *)
Lemma bmap_new_ind s L c ip x B bn :
  fview s L c ip x → budget B L x → cost B x + 2 ≤ size - 1 → NDIRECT ≤ bn < MAXFILE → ind_block x = 0 → 0 < nfree c →
  ∃ b s1 L1 (x1 := add_ind x b), bmap ip bn h s = bmap_indirect ROOTDEV b (bn - NDIRECT) h s1 ∧
    fview s1 L1 (alloc c b) ip x1 ∧ iframe s s1 ∧ k_mach s1 = k_mach s ∧
    k_itable s1 = alter (λ _, x1) ip (k_itable s) ∧ grown (λ k, k = MAXFILE) c (alloc c b) x x1 ∧
    ind_block x1 = b ∧ b ≠ 0 ∧ budget (b :: B) L1 x1 ∧ nfree c ≤ nfree (alloc c b) + 1.
Proof.
  intros [T Hsb Hip Hx Hdev Hok Hm] [HL Hmap Hind] HB Hbn Hi Hn. pose proof MAXFILE_eq as (? & ? & ?).
  unfold cost in HB. rewrite Hi in HB. cbn [Z.eqb] in HB. pose proof (tx_sized _ _ _ _ T) as Hc.
  destruct (first_free_ex c Hm Hn) as (b & Hff & Hfr).
  destruct (balloc_budget s L [] c B b) as (s1 & L1 & E1 & T1 & F1 & HL1 & Hb0);
    [done..|intros y Hy; by apply not_elem_of_nil in Hy|simpl; lia|lia|].
  destruct (lframe_iframe s s1 F1) as (IF1 & It1 & Im1).
  destruct (add_ind_ok c x b) as (Hok1 & Hgr1 & Ei1); [done..|].
  destruct (fview_inode s s1 L1 (alloc c b) ip x (add_ind x b) (λ x, x <| i_addrs ::= <[Z.to_nat NDIRECT := b]> |>))
    as (Fv & IF2 & It2); try done; [by apply alloc_meta|].
  eexists b, _, L1. cbv zeta. split_and!; [|exact Fv|exact IF2|done|exact It2|done|done|done| |by apply alloc_nfree].
  - unfold bmap. rewrite bind_getinode, Hx, (proj2 (Z.ltb_ge bn _)) by lia. cbv zeta.
    rewrite (proj2 (Z.ltb_lt (bn - NDIRECT) _)) by lia. fold (ind_block x). rewrite Hi, Hdev. cbn [Z.eqb].
    rewrite bind_assoc. erewrite bind_Ok by exact E1. rewrite (proj2 (Z.eqb_neq b 0)) by done. cbn [negb].
    unfold when. rewrite bind_assoc, bind_updinode, bind_ret. rewrite (proj2 (Z.eqb_neq b 0)) by done. done.
  - split; [done| |].
    + intros y Hy. right. by apply Hmap.
    + rewrite Ei1. intros _. by left.
Qed.

Lemma grown_ind A c c' x x' : grown A c c' x x' → ¬ A MAXFILE → ind_block x' = ind_block x.
Proof.
  intros Hgr HA. rewrite <- (slot_ind c x), <- (slot_ind c' x'). apply (gr_only _ _ _ _ _ Hgr); [|done].
  pose proof MAXFILE_eq. lia.
Qed.

Lemma bmap_direct_ok s L c ip x B bn :
  fview s L c ip x → budget B L x → cost B x + 2 ≤ size - 1 → 0 ≤ bn < NDIRECT → faddr c x bn = 0 → 1 ≤ spare c x →
  ∃ s' L' c' x' B', bmap ip bn h s = Ok (faddr c' x' bn) h s' ∧ bmapped s s' L' c c' ip x x' B B' bn.
Proof.
  intros Fv Bu HB Hbn Ha Hsp.
  destruct (bmap_direct s L c ip x B bn) as (b & s' & L' & x' & E & Fv' & IF & Im & It & Hgr & Hnew & Bu' & Hcost & Hb0 & Hfr);
    [done..|unfold spare in Hsp; case_match; lia|].
  exists s', L', (alloc c b), x', (b :: B). rewrite Hnew. split; [done|]. split; try done.
  - eapply grown_sub; [|exact Hgr]. naive_solver.
  - by rewrite Hnew.
  - rewrite Hnew. by left.
  - pose proof (alloc_nfree c b (tx_sized _ _ _ _ (fv_tx _ _ _ _ _ Fv)) Hfr). unfold spare.
    rewrite (grown_ind _ _ _ _ _ Hgr); [lia|]. pose proof MAXFILE_eq. lia.
Qed.

Lemma bmap_entry_ok s L c ip x B bn :
  fview s L c ip x → budget B L x → cost B x + 2 ≤ size - 1 → NDIRECT ≤ bn < MAXFILE → ind_block x ≠ 0 →
  faddr c x bn = 0 → 1 ≤ spare c x →
  ∃ s' L' c' B', bmap_indirect ROOTDEV (ind_block x) (bn - NDIRECT) h s = Ok (faddr c' x bn) h s' ∧
    bmapped s s' L' c c' ip x x B B' bn.
Proof.
  intros Fv Bu HB Hbn Hi Ha Hsp. unfold spare in Hsp. rewrite (proj2 (Z.eqb_neq _ 0)) in Hsp by done.
  destruct (bmap_entry s L c ip x B bn) as (b & s' & L' & c' & E & Fv' & F & Hgr & Hnew & Bu' & Hb0 & Hn);
    [done..|lia|].
  destruct (lframe_iframe s s' F) as (IF & It & Im). exists s', L', c', (b :: B). rewrite Hnew. split; [done|].
  split; try done.
  - rewrite It. destruct Fv. by apply alter_id_itable.
  - eapply grown_sub; [|exact Hgr]. naive_solver.
  - by rewrite Hnew.
  - rewrite Hnew. by left.
  - unfold cost. simpl length. lia.
  - unfold spare. rewrite (proj2 (Z.eqb_neq (ind_block x) 0)) by done. lia.
Qed.

Lemma bmap_first_ind_ok s L c ip x B bn :
  fview s L c ip x → budget B L x → cost B x + 2 ≤ size - 1 → NDIRECT ≤ bn < MAXFILE → ind_block x = 0 →
  1 ≤ spare c x →
  ∃ s' L' c' x' B', bmap ip bn h s = Ok (faddr c' x' bn) h s' ∧ bmapped s s' L' c c' ip x x' B B' bn.
Proof.
  intros Fv Bu HB Hbn Hi Hsp. pose proof MAXFILE_eq as (? & ? & ?). unfold spare, cost in *. rewrite Hi in HB, Hsp. cbn [Z.eqb] in HB, Hsp.
  destruct (bmap_new_ind s L c ip x B bn) as (b & s1 & L1 & E1 & Fv1 & IF1 & Im1 & It1 & Hgr1 & Ei1 & Hb0 & Bu1 & Hn1);
    [done|done|unfold cost; rewrite Hi; cbn [Z.eqb]; lia|lia|done|lia|]. set (x1 := add_ind x b) in *.
  assert (faddr (alloc c b) x1 bn = 0) as Ha1.
  { rewrite <- slot_data by lia. rewrite (gr_only _ _ _ _ _ Hgr1) by lia. rewrite slot_data by lia.
    unfold faddr. by rewrite (proj2 (Z.ltb_ge bn _)), Hi by lia. }
  assert (ind_block x1 ≠ 0) as Hi1 by (by rewrite Ei1).
  destruct (bmap_entry_ok s1 L1 (alloc c b) ip x1 (b :: B) bn) as (s2 & L2 & c2 & B2 & E2 & [V2 F2 M2 T2 G2 A2 U2 N2 C2 S2]);
    [done|done| |done|done|done| |].
  { unfold cost. rewrite (proj2 (Z.eqb_neq _ 0)) by done. simpl length. lia. }
  { unfold spare. rewrite (proj2 (Z.eqb_neq _ 0)) by done. lia. }
  exists s2, L2, c2, x1, B2. rewrite E1, <- Ei1. split; [done|]. split; try done.
  - by eapply iframe_trans.
  - by rewrite M2.
  - rewrite T2, It1, alter_alter. done.
  - eapply grown_sub; [|exact (grown_trans _ _ _ _ _ _ _ _ Hgr1 G2)]. naive_solver.
  - unfold cost in *. rewrite (proj2 (Z.eqb_neq (ind_block x1) 0)) in * by done. rewrite Hi. cbn [Z.eqb].
    simpl length in C2. lia.
  - unfold spare in *. rewrite (proj2 (Z.eqb_neq (ind_block x1) 0)) in * by done. rewrite Hi. cbn [Z.eqb]. lia.
Qed.

Lemma bmap_ok s L c ip x B bn :
  fview s L c ip x → budget B L x → cost B x + 2 ≤ size - 1 → 0 ≤ bn < MAXFILE → 1 ≤ spare c x →
  ∃ s' L' c' x' B', bmap ip bn h s = Ok (faddr c' x' bn) h s' ∧ bmapped s s' L' c c' ip x x' B B' bn.
Proof.
  intros Fv Bu HB Hbn Hsp. destruct (decide (faddr c x bn = 0)) as [Ha|Ha].
  2:{ destruct (bmap_existing s L c ip x B bn) as (s' & E & Bm); [done..|]. by exists s', L, c, x, (faddr c x bn :: B). }
  destruct (decide (bn < NDIRECT)) as [Hd|Hd]; [apply bmap_direct_ok with L; try done; lia|].
  destruct (decide (ind_block x = 0)) as [Hi|Hi]; [apply bmap_first_ind_ok with L; try done; lia|].
  destruct (bmap_entry_ok s L c ip x B bn) as (s' & L' & c' & B' & E & Bm); try done; [lia|].
  exists s', L', c', x, B'. split; [|done]. rewrite <- E. pose proof MAXFILE_eq as (? & ? & ?).
  destruct Fv as [_ _ _ Hx Hdev _ _]. unfold bmap. rewrite bind_getinode, Hx, (proj2 (Z.ltb_ge bn _)) by lia. cbv zeta.
  rewrite (proj2 (Z.ltb_lt (bn - NDIRECT) _)) by lia. fold (ind_block x).
  rewrite (proj2 (Z.eqb_neq (ind_block x) 0)) by done. rewrite bind_ret, (proj2 (Z.eqb_neq (ind_block x) 0)), Hdev by done.
  done.
Qed.
End File.
