(* ===== verification/FsData.v ===== *)
(** * Reading and writing files (kernel/fs.c)

    [fdata] is the contents of a file as a list of bytes.  [readi] returns a part of
    this list; [writei] overwrites or extends it and leaves everything that does
    not belong to the file alone. *)

From stdpp Require Import functions.
From S2P Require Import Prelude CString Riscv Kalloc Vm Kernel Sched Sleeplock Bytes Bio BioList BioSpec Log.
From S2P Require Import LogSpec LogOps Uart Printf Access Fs FsSpec FsFile.

(** ** The contents of a file *)

Definition fbyte (c : Z → list Z) (x : inode) (p : Z) : Z := nthZ (c (faddr c x (p / BSIZE))) (p mod BSIZE).
Definition fdata (c : Z → list Z) (x : inode) : list Z :=
  (λ k, fbyte c x (Z.of_nat k)) <$> seq 0 (Z.to_nat (i_size x)).

Lemma length_fdata c x : 0 ≤ i_size x → Z.of_nat (length (fdata c x)) = i_size x.
Proof. intros. unfold fdata. rewrite length_fmap, length_seq. lia. Qed.

Lemma lookup_fdata c x k :
  (k < Z.to_nat (i_size x))%nat → fdata c x !! k = Some (fbyte c x (Z.of_nat k)).
Proof.
  intros Hk. unfold fdata. rewrite list_lookup_fmap, lookup_seq_lt by done. done.
Qed.

Lemma BSIZE_eq : BSIZE = 1024.
Proof. done. Qed.

(** Positions within one block. *)
Lemma same_file_block off j :
  0 ≤ off → 0 ≤ j → off mod BSIZE + j < BSIZE →
  (off + j) / BSIZE = off / BSIZE ∧ (off + j) mod BSIZE = off mod BSIZE + j.
Proof.
  intros Ho Hj Hlt. pose proof BSIZE_eq. pose proof (Z.div_mod off BSIZE). pose proof (Z.mod_pos_bound off BSIZE).
  assert (off + j = BSIZE * (off / BSIZE) + (off mod BSIZE + j)) as E by lia. split.
  - symmetry. apply (Z.div_unique _ _ _ (off mod BSIZE + j)); lia.
  - symmetry. apply (Z.mod_unique _ _ (off / BSIZE)); lia.
Qed.

(** A piece of one block is a piece of the file. *)
Lemma chunk_data c x off m :
  (∀ b, length (c b) = Z.to_nat BSIZE) → 0 ≤ off → 0 ≤ m → off + m ≤ i_size x → off mod BSIZE + m ≤ BSIZE →
  take (Z.to_nat m) (drop (Z.to_nat (off mod BSIZE)) (c (faddr c x (off / BSIZE)))) =
  take (Z.to_nat m) (drop (Z.to_nat off) (fdata c x)).
Proof.
  intros Hc Ho Hm Hs Hb. pose proof BSIZE_eq. pose proof (Z.mod_pos_bound off BSIZE).
  apply list_eq. intros j. destruct (decide (j < Z.to_nat m)%nat) as [Hj|Hj]; [|by rewrite !lookup_take_ge by lia].
  rewrite !lookup_take_lt, !lookup_drop by done. rewrite lookup_fdata by lia. unfold fbyte.
  replace (Z.of_nat (Z.to_nat off + j)) with (off + Z.of_nat j) by lia.
  destruct (same_file_block off (Z.of_nat j)) as [-> ->]; [lia..|].
  set (l := c (faddr c x (off / BSIZE))). pose proof (Hc (faddr c x (off / BSIZE))) as Hl. fold l in Hl. clearbody l.
  unfold nthZ. rewrite nth_lookup. replace (Z.to_nat (off mod BSIZE + Z.of_nat j)) with (Z.to_nat (off mod BSIZE) + j)%nat by lia.
  destruct (lookup_lt_is_Some_2 l (Z.to_nat (off mod BSIZE) + j)) as [y ->]; [lia|done].
Qed.

(** ** Copies in pieces *)

(** Copying [bs] to the destination takes physical memory from [m] to [m']. *)
Definition put_chunk (h : list lockid) (pt : Z) (dst : dst_t) (bs : list Z) (m m' : machine) : Prop :=
  match dst with
  | Dst_user va => copyout pt va bs (Z.of_nat (length bs)) h m = Ok 0 h m'
  | Dst_phys pa => m' = upd_mem (λ x, store_bytes x pa bs) m
  | Dst_local => m' = m
  end.

(** The size of the next piece at offset [off] when [n] bytes are left. *)
Definition piece (off n : Z) : Z := Z.min n (BSIZE - off mod BSIZE).

Lemma piece_pos off n : 0 < n → 0 < piece off n ≤ n ∧ off mod BSIZE + piece off n ≤ BSIZE ∧ piece off n ≤ BSIZE.
Proof. intros Hn. unfold piece. pose proof BSIZE_eq. pose proof (Z.mod_pos_bound off BSIZE). lia. Qed.

(** The same, block by block. *)
Fixpoint put_chunks (fuel : nat) (h : list lockid) (pt : Z) (dst : dst_t) (off : Z) (bs : list Z) (m m' : machine) : Prop :=
  match fuel, bs with
  | _, [] => m' = m
  | O, _ => False
  | S fuel, _ =>
      let k := piece off (Z.of_nat (length bs)) in
      ∃ m1, put_chunk h pt dst (take (Z.to_nat k) bs) m m1 ∧
        put_chunks fuel h pt (dst_add dst k) (off + k) (drop (Z.to_nat k) bs) m1 m'
  end.

Lemma either_copyout_chunk dst bs h s me m' :
  k_cur s = Some me → put_chunk h (p_pagetable (proc_at me s)) dst bs (k_mach s) m' →
  either_copyout dst bs h s = Ok 0 h (s <| k_mach := m' |>).
Proof.
  intros Hc Hp. unfold either_copyout. rewrite (bind_curproc _ _ _ me) by done. rewrite bind_getproc.
  destruct dst as [va|pa|]; simpl in Hp.
  - by apply in_mem_Ok.
  - by subst m'.
  - subst m'. by destruct s.
Qed.

(** The progress of the loops: fuel for a first partial block and then whole blocks. *)
Definition rounds_ok (fuel : nat) (off n : Z) : Prop := 0 < n → n ≤ Z.of_nat fuel * BSIZE - off mod BSIZE.

Lemma rounds_step fuel off n :
  0 ≤ off → 0 < n → rounds_ok fuel off n →
  ∃ f, fuel = S f ∧ rounds_ok f (off + piece off n) (n - piece off n).
Proof.
  intros Ho Hn Hf. specialize (Hf Hn). pose proof BSIZE_eq. pose proof (Z.mod_pos_bound off BSIZE ltac:(lia)).
  destruct fuel as [|f]; [lia|]. exists f. split; [done|]. intros Hr. unfold piece in *.
  assert (Z.min n (BSIZE - off mod BSIZE) = BSIZE - off mod BSIZE) as E by lia. rewrite E in *.
  assert ((off + (BSIZE - off mod BSIZE)) mod BSIZE = 0) as ->; [|lia].
  replace (off + (BSIZE - off mod BSIZE)) with ((off / BSIZE + 1) * BSIZE).
  - apply Z_mod_mult.
  - pose proof (Z.div_mod off BSIZE). lia.
Qed.

Lemma rounds_enough off n : 0 ≤ n → rounds_ok (block_fuel n) off n.
Proof.
  intros Hn _. unfold block_fuel. pose proof BSIZE_eq. pose proof (Z.mod_pos_bound off BSIZE ltac:(lia)).
  pose proof (Z.div_mod n BSIZE). pose proof (Z.mod_pos_bound n BSIZE). pose proof (Z.div_pos n BSIZE). lia.
Qed.

Section Data.
Context {Pat : Patience} (h : list lockid) (me : nat) (start size : Z) (sb : superblock) (G : geom start size sb).
Abbreviation tx := (tx h me start size).
Abbreviation fview := (fview h me start size sb).

Lemma fview_frame s s' L c ip x :
  fview s L c ip x → tx s' L [] c → iframe me s s' → k_itable s' = k_itable s → fview s' L c ip x.
Proof.
  intros [T Hsb Hip Hx Hdev Hok Hm] T' F It. split; try done.
  - by rewrite (iframe_sb _ _ _ F).
  - by rewrite It.
  - unfold inode_at. by rewrite It.
Qed.

(** ** readi *)

Lemma block_of off n x c :
  file_ok sb c x → 0 ≤ off → 0 < n → off + n ≤ i_size x →
  0 ≤ off / BSIZE < MAXFILE ∧ faddr c x (off / BSIZE) ≠ 0.
Proof.
  intros Hok Ho Hn Hs. pose proof (fo_size _ _ _ Hok) as Hsz. pose proof BSIZE_eq.
  pose proof (Z.div_mod off BSIZE). pose proof (Z.mod_pos_bound off BSIZE).
  assert (0 ≤ off / BSIZE) by (apply Z.div_pos; lia).
  split; [split; [done|]; apply Z.div_lt_upper_bound; lia|]. apply (fo_full _ _ _ Hok); lia.
Qed.

(** One round of [readi]. *)
Lemma readi_round L c ip x B f s dst off n tot acc m1
    (m := piece off (n - tot)) (bs := take (Z.to_nat m) (drop (Z.to_nat off) (fdata c x))) :
  fview s L c ip x → L ⊆ B → Z.of_nat (length B) ≤ size - 1 →
  0 ≤ off → 0 ≤ tot < n → off + (n - tot) ≤ i_size x →
  put_chunk h (p_pagetable (proc_at me s)) dst bs (k_mach s) m1 →
  ∃ s', readi_loop (S f) ip dst off n tot acc h s = readi_loop f ip (dst_add dst m) (off + m) n (tot + m) (acc ++ bs) h s' ∧
    fview s' L c ip x ∧ iframe me s s' ∧ k_itable s' = k_itable s ∧ k_mach s' = m1.
Proof.
  intros Fv HL HB Ho Ht Hs Hp. pose proof Fv as [T Hsb Hip Hx Hdev Hok Hm].
  pose proof (tx_sized h me start size _ _ _ _ T) as Hc. pose proof HEAD_eq as [? ?]. destruct (g_log _ _ _ G) as (_ & ? & _).
  pose proof (tx_sub_len h me start size _ _ _ _ _ T HL) as HLB.
  destruct (piece_pos off (n - tot) ltac:(lia)) as (Hm1 & Hm2 & Hm3). fold m in Hm1, Hm2, Hm3.
  destruct (block_of off (n - tot) x c) as [Hbn Ha]; [done|lia|lia|lia|].
  destruct (bmap_old h me start size sb G s L c ip x B (off / BSIZE)) as (s1 & E1 & T1 & F1); [done..|].
  destruct (tx_bread h me start size s1 L [] c (faddr c x (off / BSIZE)) T1) as (i & s2 & E2 & T2 & F2);
    [apply not_elem_of_nil|simpl; lia|].
  destruct (lframe_iframe me s s1 F1) as (IF1 & It1 & Im1). destruct (lframe_iframe me s1 s2 F2) as (IF2 & It2 & Im2).
  assert (iframe me s s2) as IF12 by (by eapply iframe_trans).
  pose proof (iframe_cur me _ _ IF12) as [Ec Ep].
  pose proof (tx_mach h me start size s2 _ _ _ m1 T2) as T3.
  destruct (tx_brelse h me start size _ _ _ _ _ _ T3) as (s4 & E4 & T4 & F4).
  destruct (lframe_iframe me _ s4 F4) as (IF4 & It4 & Im4).
  assert (iframe me s s4) as IF by (eapply iframe_trans; [exact IF12|]; eapply iframe_trans; [apply iframe_mach|exact IF4]).
  assert (k_itable s4 = k_itable s) as It by (rewrite It4; simpl; congruence).
  exists s4. split_and!; [|by eapply fview_frame|done|done|by rewrite Im4].
  cbn [readi_loop]. rewrite (proj2 (Z.ltb_lt tot n)) by lia. erewrite bind_Ok by exact E1.
  rewrite (proj2 (Z.eqb_neq _ 0)) by done. rewrite bind_getinode.
  replace (inode_at ip s1) with x by (unfold inode_at in *; by rewrite It1). rewrite Hdev.
  erewrite bind_Ok by exact E2. cbv zeta. rewrite bind_getbuf, (tx_data h me start size _ _ _ _ _ _ T2 ltac:(by left)).
  fold (piece off (n - tot)). fold m. rewrite chunk_data by (done || lia). fold bs.
  erewrite bind_Ok.
  2:{ apply (either_copyout_chunk _ _ _ _ me); [rewrite Ec; apply T|]. rewrite Ep, Im2, Im1. exact Hp. }
  cbn [Z.eqb]. erewrite bind_Ok by exact E4. done.
Qed.

Lemma readi_loop_ok L c ip x B fuel : ∀ s dst off n tot acc m',
  fview s L c ip x → L ⊆ B → Z.of_nat (length B) ≤ size - 1 →
  0 ≤ off → 0 ≤ tot ≤ n → n < 2 ^ 31 → off + (n - tot) ≤ i_size x → rounds_ok fuel off (n - tot) →
  let bs := take (Z.to_nat (n - tot)) (drop (Z.to_nat off) (fdata c x)) in
  put_chunks fuel h (p_pagetable (proc_at me s)) dst off bs (k_mach s) m' →
  ∃ s', readi_loop fuel ip dst off n tot acc h s = Ok (n, acc ++ bs) h s' ∧ fview s' L c ip x ∧
    iframe me s s' ∧ k_itable s' = k_itable s ∧ k_mach s' = m'.
Proof.
  induction fuel as [fuel IH] using lt_wf_ind. intros s dst off n tot acc m' Fv HL HB Ho Ht Hn Hs Hf bs Hp.
  pose proof (fo_size _ _ _ (fv_file _ _ _ _ _ _ _ _ _ _ Fv)) as Hsz.
  assert (length bs = Z.to_nat (n - tot)) as Hlb.
  { unfold bs. rewrite length_take, length_drop. pose proof (length_fdata c x ltac:(lia)). lia. }
  destruct (decide (tot = n)) as [->|Hne].
  { assert (bs = []) as E by (apply nil_length_inv; lia). rewrite E in *. exists s. rewrite app_nil_r.
    assert (m' = k_mach s) as -> by (destruct fuel; done).
    split_and!; [|done|split; [by destruct s|apply awake_refl]|done|done].
    destruct fuel; cbn [readi_loop]; rewrite Z.ltb_irrefl, i32_small by lia; done. }
  destruct (rounds_step fuel off (n - tot)) as (f & -> & Hf'); [lia|lia|done|].
  set (m := piece off (n - tot)) in *. destruct (piece_pos off (n - tot) ltac:(lia)) as (Hm1 & Hm2 & Hm3). fold m in Hm1, Hm2, Hm3.
  cbn [put_chunks] in Hp. rewrite Hlb, Z2Nat.id in Hp by lia. fold m in Hp.
  destruct bs as [|b0 bs0] eqn:Ebs; [simpl in Hlb; lia|]. rewrite <- Ebs in *. clear b0 bs0 Ebs.
  destruct Hp as (m1 & Hp1 & Hp2). unfold bs in Hp1, Hp2. rewrite take_take, Nat.min_l in Hp1 by lia.
  destruct (readi_round L c ip x B f s dst off n tot acc m1) as (s1 & E1 & Fv1 & IF1 & It1 & Im1); [done|done|done|lia|lia|lia|done|].
  fold m in E1. pose proof (iframe_cur me _ _ IF1) as [_ Ep].
  rewrite skipn_firstn_comm, drop_drop in Hp2.
  destruct (IH f ltac:(lia) s1 (dst_add dst m) (off + m) n (tot + m) (acc ++ take (Z.to_nat m) (drop (Z.to_nat off) (fdata c x))) m')
    as (s2 & E2 & Fv2 & IF2 & It2 & Im2).
  - done.
  - done.
  - done.
  - lia.
  - lia.
  - lia.
  - lia.
  - replace (n - (tot + m)) with (n - tot - m) by lia. done.
  - cbv zeta. rewrite Ep, Im1. replace (Z.to_nat (n - (tot + m))) with (Z.to_nat (n - tot) - Z.to_nat m)%nat by lia.
    replace (Z.to_nat (off + m)) with (Z.to_nat off + Z.to_nat m)%nat by lia. exact Hp2.
  - exists s2. split_and!; [|done|by eapply iframe_trans|congruence|done].
    rewrite E1, E2, <- app_assoc. unfold bs. cbv zeta.
    replace (Z.to_nat (off + m)) with (Z.to_nat off + Z.to_nat m)%nat by lia. rewrite <- drop_drop, take_take_drop.
    replace (Z.to_nat m + Z.to_nat (n - (tot + m)))%nat with (Z.to_nat (n - tot)) by lia. done.
Qed.

Lemma readi_ok s L c ip x B dst off n m' :
  fview s L c ip x → L ⊆ B → Z.of_nat (length B) ≤ size - 1 → 0 ≤ off < 2 ^ 32 → 0 ≤ n < 2 ^ 31 → off + n < 2 ^ 32 →
  let bs := take (Z.to_nat n) (drop (Z.to_nat off) (fdata c x)) in
  put_chunks (block_fuel (Z.of_nat (length bs))) h (p_pagetable (proc_at me s)) dst off bs (k_mach s) m' →
  ∃ s', readi ip dst off n h s = Ok (Z.of_nat (length bs), bs) h s' ∧ fview s' L c ip x ∧
    iframe me s s' ∧ k_itable s' = k_itable s ∧ k_mach s' = m'.
Proof.
  intros Fv HL HB Ho Hn Hon bs Hp. unfold readi. rewrite bind_getinode, (fv_inode _ _ _ _ _ _ _ _ _ _ Fv).
  pose proof (fo_size _ _ _ (fv_file _ _ _ _ _ _ _ _ _ _ Fv)) as Hsz. pose proof MAXFILE_eq as (? & _). pose proof BSIZE_eq.
  pose proof (length_fdata c x ltac:(lia)) as Hlf.
  assert (length bs = Z.to_nat (Z.max 0 (Z.min n (i_size x - off)))) as Hlb.
  { unfold bs. rewrite length_take, length_drop. lia. }
  rewrite (u32_small (off + n)) by lia. rewrite (proj2 (Z.ltb_ge (off + n) off)) by lia. rewrite orb_false_r.
  destruct (Z.ltb_spec (i_size x) off) as [Hbig|Hle].
  - assert (bs = []) as E by (apply nil_length_inv; lia). rewrite E in *. exists s.
    split_and!; [done|done|split; [by destruct s|apply awake_refl]|done|]. simpl in Hp. done.
  - cbv zeta. set (n' := if i_size x <? off + n then i_size x - off else n).
    assert (n' = Z.of_nat (length bs)) as En.
    { rewrite Hlb. unfold n'. destruct (Z.ltb_spec (i_size x) (off + n)); lia. }
    rewrite En. assert (take (Z.to_nat (Z.of_nat (length bs) - 0)) (drop (Z.to_nat off) (fdata c x)) = bs) as Ebs.
    { rewrite Z.sub_0_r, Nat2Z.id. unfold bs. rewrite length_take. rewrite <- take_take, (take_ge _ (length _)) by lia. done. }
    destruct (readi_loop_ok L c ip x B (block_fuel (Z.of_nat (length bs))) s dst off (Z.of_nat (length bs)) 0 [] m')
      as (s' & E & Fv' & IF & It & Im); try done; try lia.
    + rewrite Z.sub_0_r. apply rounds_enough. lia.
    + cbv zeta. by rewrite Ebs.
    + exists s'. split_and!; try done. rewrite E. cbv zeta. by rewrite Ebs.
Qed.

Lemma put_chunks_local fuel pt off bs m : rounds_ok fuel off (Z.of_nat (length bs)) → 0 ≤ off →
  put_chunks fuel h pt Dst_local off bs m m.
Proof.
  revert off bs. induction fuel as [|f IH]; intros off bs Hf Ho; destruct bs as [|b bs]; try done.
  - specialize (Hf ltac:(simpl; lia)). pose proof BSIZE_eq. pose proof (Z.mod_pos_bound off BSIZE). simpl in Hf. lia.
  - cbn [put_chunks]. cbv zeta. exists m. split; [done|].
    destruct (piece_pos off (Z.of_nat (length (b :: bs)))) as (Hp & _); [simpl; lia|].
    destruct (rounds_step (S f) off (Z.of_nat (length (b :: bs)))) as (f' & [= <-] & Hf'); [done|simpl; lia|done|].
    apply IH; [|lia]. rewrite length_drop.
    replace (Z.of_nat (length (b :: bs) - Z.to_nat (piece off (Z.of_nat (length (b :: bs))))))
      with (Z.of_nat (length (b :: bs)) - piece off (Z.of_nat (length (b :: bs)))) by lia. done.
Qed.

(** ** writei *)

(** The file has been extended or written: its blocks stay its own, what it gained was
    free, and nothing else has changed. *)
Record extends (c c' : Z → list Z) (x x' : inode) : Prop := {
  ex_x : x' = x <| i_addrs := i_addrs x' |>;
  ex_kept : ∀ k, 0 ≤ k ≤ MAXFILE → slot c x k ≠ 0 → slot c' x' k = slot c x k;
  ex_fresh : ∀ k, 0 ≤ k ≤ MAXFILE → slot c x k = 0 → slot c' x' k ≠ 0 → fresh sb c (slot c' x' k);
  ex_other : ∀ b, 0 ≤ b < sb_bmapstart sb ∨ nmeta sb ≤ b →
    (∀ k, 0 ≤ k ≤ MAXFILE → slot c' x' k ≠ 0 → slot c' x' k ≠ b) → c' b = c b;
  ex_bits : ∀ b, 0 ≤ b < sb_size sb → bbit c sb b = true → bbit c' sb b = true;
}.

Lemma extends_refl c x : extends c c x x.
Proof. split; try done. by destruct x. Qed.

Lemma extends_trans c1 c2 c3 x1 x2 x3 : extends c1 c2 x1 x2 → extends c2 c3 x2 x3 → extends c1 c3 x1 x3.
Proof.
  intros [X1 K1 F1 T1 B1] [X2 K2 F2 T2 B2]. pose proof (geom_pos start size sb G) as [Hp Hp2]. split.
  - rewrite X2, X1. by destruct x1.
  - intros k Hk Hnz. rewrite K2 by (done || by rewrite K1). by apply K1.
  - intros k Hk Hz Hnz. destruct (decide (slot c2 x2 k = 0)) as [Hz2|Hnz2].
    + destruct (F2 k Hk Hz2 Hnz) as [Hr Hb]. split; [done|].
      destruct (bbit c1 sb (slot c3 x3 k)) eqn:E; [|done]. rewrite B1 in Hb by (done || lia). done.
    + rewrite K2 by done. by apply F1.
  - intros b Hb Hns. rewrite T2 by done. apply T1; [done|]. intros k Hk Hnz. rewrite <- K2 by done. apply Hns; [done|].
    by rewrite K2.
  - auto.
Qed.

Lemma grown_extends A c c' x x' : grown sb A c c' x x' → extends c c' x x'.
Proof. intros [? ? ? ? ? ? ?]. by split. Qed.

(** Block [bn] of the file gets new contents. *)
Section WriteBlock.
Context (c : Z → list Z) (x : inode) (bn : Z) (new : list Z).
Context (Hok : file_ok sb c x) (Hbn : 0 ≤ bn < MAXFILE) (Ha : faddr c x bn ≠ 0).
Let a := faddr c x bn.
Let c' : Z → list Z := <[a := new]> c.

Lemma write_in_range : nmeta sb ≤ a < sb_size sb.
Proof.
  unfold a. rewrite <- slot_data by lia. apply (fo_used _ _ _ Hok); [lia|]. by rewrite slot_data by lia.
Qed.

Lemma write_ind : c' (ind_block x) = c (ind_block x).
Proof.
  unfold c'. apply fn_lookup_insert_ne. intros E. rewrite <- (slot_ind c x) in E. unfold a in E.
  rewrite <- slot_data in E, Ha by lia. apply (fo_inj _ _ _ Hok) in E; [lia|lia| |done]. pose proof MAXFILE_eq. lia.
Qed.

Lemma write_slot k : slot c' x k = slot c x k.
Proof. unfold slot. destruct (k =? MAXFILE); [done|]. apply faddr_ext, write_ind. Qed.

Lemma write_bits b : 0 ≤ b < sb_size sb → bbit c' sb b = bbit c sb b.
Proof.
  intros Hb. unfold bbit, c'. destruct (bblock_eq start size sb G b Hb) as (_ & ? & _). pose proof write_in_range.
  by rewrite fn_lookup_insert_ne by lia.
Qed.

Lemma write_file_ok : file_ok sb c' x.
Proof.
  destruct Hok as [F1 F2 F3 F4 F5]. pose proof (geom_pos start size sb G). split.
  - done.
  - done.
  - intros k Hk. rewrite write_slot. intros Hnz. destruct (F3 k Hk Hnz) as [Hr Hb]. split; [done|].
    by rewrite write_bits by lia.
  - intros j k Hj Hk. rewrite !write_slot. by apply F4.
  - intros k Hk Hs. rewrite (faddr_ext c c' x k write_ind). by apply F5.
Qed.

Lemma write_extends : extends c c' x x.
Proof.
  split.
  - by destruct x.
  - intros k _ _. apply write_slot.
  - intros k _ Hz Hnz. by rewrite write_slot in Hnz.
  - intros b _ Hns. unfold c'. apply fn_lookup_insert_ne. intros E.
    apply (Hns bn); [lia|rewrite write_slot, slot_data by lia; done..].
  - intros b Hb. by rewrite write_bits.
Qed.

Lemma write_fbyte p :
  0 ≤ p < MAXFILE * BSIZE → fbyte c' x p = if decide (p / BSIZE = bn) then nthZ new (p mod BSIZE) else fbyte c x p.
Proof.
  intros Hp. unfold fbyte. rewrite (faddr_ext c c' x _ write_ind). case_decide as E.
  - rewrite E. fold a. unfold c'. by rewrite fn_lookup_insert.
  - unfold c'. rewrite fn_lookup_insert_ne; [done|]. intros Ea. apply E. pose proof BSIZE_eq.
    assert (0 ≤ p / BSIZE < MAXFILE) by (split; [apply Z.div_pos; lia|apply Z.div_lt_upper_bound; lia]).
    unfold a in Ea. rewrite <- !slot_data in Ea by lia. rewrite <- slot_data in Ha by lia.
    symmetry. apply (fo_inj _ _ _ Hok); [lia|lia|done|done].
Qed.

Lemma write_meta : meta_used sb c → meta_used sb c'.
Proof. intros Hm b Hb. destruct G. rewrite write_bits by lia. by apply Hm. Qed.

Lemma write_nfree : nfree sb c' = nfree sb c.
Proof.
  unfold nfree. f_equal. f_equal. apply filter_ext_in. intros b Hb. apply elem_of_seqZ in Hb. by rewrite write_bits by lia.
Qed.
End WriteBlock.

(** The source has the bytes [bs], read block by block. *)
Definition get_chunk (pt : Z) (m : machine) (src : src_t) (bs : list Z) : Prop :=
  match src with
  | Src_user va => copyin pt va (Z.of_nat (length bs)) h m = Ok (0, bs) h m
  | Src_local l => take (length bs) l = bs
  end.
Fixpoint get_chunks (fuel : nat) (pt : Z) (m : machine) (src : src_t) (off : Z) (bs : list Z) : Prop :=
  match fuel, bs with
  | _, [] => True
  | O, _ => False
  | S fuel, _ =>
      let k := piece off (Z.of_nat (length bs)) in
      get_chunk pt m src (take (Z.to_nat k) bs) ∧ get_chunks fuel pt m (src_add src k) (off + k) (drop (Z.to_nat k) bs)
  end.

Lemma either_copyin_chunk src bs s :
  k_cur s = Some me → get_chunk (p_pagetable (proc_at me s)) (k_mach s) src bs →
  either_copyin src (Z.of_nat (length bs)) h s = Ok (0, bs) h s.
Proof.
  intros Hc Hp. unfold either_copyin. rewrite (bind_curproc _ _ _ me) by done. rewrite bind_getproc.
  destruct src as [va|l]; simpl in Hp.
  - rewrite (in_mem_Ok _ _ _ _ _ _ Hp). by destruct s.
  - rewrite Nat2Z.id, Hp. done.
Qed.

Lemma get_chunks_local fuel pt m off bs : rounds_ok fuel off (Z.of_nat (length bs)) → 0 ≤ off →
  get_chunks fuel pt m (Src_local bs) off bs.
Proof.
  revert off bs. induction fuel as [|f IH]; intros off bs Hf Ho; destruct bs as [|b bs]; try done.
  - specialize (Hf ltac:(simpl; lia)). pose proof BSIZE_eq. pose proof (Z.mod_pos_bound off BSIZE). simpl in Hf. lia.
  - cbn [get_chunks]. cbv zeta. set (l := b :: bs) in *. assert (0 < Z.of_nat (length l)) as Hl by (simpl; lia). clearbody l.
    destruct (piece_pos off (Z.of_nat (length l))) as (Hp & _); [done|].
    destruct (rounds_step (S f) off (Z.of_nat (length l))) as (f' & [= <-] & Hf'); [done|done|done|].
    split; [simpl; rewrite length_take; f_equal; lia|].
    apply IH; [|lia]. rewrite length_drop.
    replace (Z.of_nat (length l - Z.to_nat (piece off (Z.of_nat (length l)))))
      with (Z.of_nat (length l) - piece off (Z.of_nat (length l))) by lia. done.
Qed.

(** What a write of [bs] at [off] has done to the file. *)
Record wrote (c c' : Z → list Z) (x x' : inode) (off : Z) (bs : list Z) : Prop := {
  wr_extends : extends c c' x x';
  wr_old : ∀ p, 0 ≤ p < MAXFILE * BSIZE → faddr c x (p / BSIZE) ≠ 0 →
    ¬ (off ≤ p < off + Z.of_nat (length bs)) → fbyte c' x' p = fbyte c x p;
  wr_new : ∀ j, 0 ≤ j < Z.of_nat (length bs) →
    fbyte c' x' (off + j) = nthZ bs j ∧ faddr c' x' ((off + j) / BSIZE) ≠ 0;
}.

Lemma nthZ_splice off new l p :
  (off + length new ≤ length l)%nat → 0 ≤ p →
  nthZ (splice off new l) p =
  if decide (Z.of_nat off ≤ p < Z.of_nat (off + length new)) then nthZ new (p - Z.of_nat off) else nthZ l p.
Proof.
  intros Hl Hp. unfold nthZ. rewrite !nth_lookup, lookup_splice by done. repeat case_decide; try lia; try done.
  do 2 f_equal. lia.
Qed.

(** One piece written into its block. *)
Lemma wrote_piece c x off bs (bn := off / BSIZE) (new := splice (Z.to_nat (off mod BSIZE)) bs (c (faddr c x bn))) :
  file_ok sb c x → sized c → 0 ≤ off → off mod BSIZE + Z.of_nat (length bs) ≤ BSIZE → 0 ≤ bn < MAXFILE →
  faddr c x bn ≠ 0 → wrote c (<[faddr c x bn := new]> c) x x off bs.
Proof.
  intros Hok Hc Ho Hb Hbn Ha. pose proof BSIZE_eq. pose proof (Z.mod_pos_bound off BSIZE).
  pose proof (Z.div_mod off BSIZE). pose proof (Hc (faddr c x bn)) as Hlen. split.
  - by apply write_extends.
  - intros p Hp Hfa Hno. rewrite write_fbyte by done. case_decide as E; [|done].
    unfold new. rewrite nthZ_splice; [|lia|apply Z.mod_pos_bound; lia].
    pose proof (Z.div_mod p BSIZE). pose proof (Z.mod_pos_bound p BSIZE). rewrite decide_False; [|unfold bn in *; lia].
    unfold fbyte. by rewrite E.
  - intros j Hj. destruct (same_file_block off j) as [Ed Em]; [lia..|]. fold bn in Ed. split.
    + rewrite write_fbyte; [|done..|]; [|unfold bn in *; nia]. rewrite Ed, decide_True, Em by done.
      unfold new. rewrite nthZ_splice by lia. rewrite decide_True by lia. f_equal. lia.
    + rewrite Ed. by rewrite (faddr_ext _ _ _ _ (write_ind c x bn new Hok Hbn Ha)).
Qed.

Lemma grown_fbyte A c c' x x' p :
  grown sb A c c' x x' → 0 ≤ p < MAXFILE * BSIZE → faddr c x (p / BSIZE) ≠ 0 → fbyte c' x' p = fbyte c x p.
Proof.
  intros Hg Hp Ha. pose proof BSIZE_eq.
  assert (0 ≤ p / BSIZE < MAXFILE) as Hk by (split; [apply Z.div_pos; lia|apply Z.div_lt_upper_bound; lia]).
  unfold fbyte. rewrite <- !(slot_data _ _ _ Hk) in *. rewrite (gr_kept _ _ _ _ _ _ Hg) by (done || lia).
  by rewrite (gr_data _ _ _ _ _ _ Hg).
Qed.

Lemma file_pos p : 0 ≤ p < MAXFILE * BSIZE → 0 ≤ p / BSIZE < MAXFILE.
Proof. intros Hp. pose proof BSIZE_eq. split; [apply Z.div_pos; lia|apply Z.div_lt_upper_bound; lia]. Qed.

Lemma extends_faddr c c' x x' k : extends c c' x x' → 0 ≤ k < MAXFILE → faddr c x k ≠ 0 → faddr c' x' k = faddr c x k.
Proof.
  intros E Hk Ha. rewrite <- !slot_data in * by lia. apply (ex_kept _ _ _ _ E); [lia|done].
Qed.

Lemma wrote_grown A c c1 c2 x x1 x2 off bs :
  grown sb A c c1 x x1 → wrote c1 c2 x1 x2 off bs → wrote c c2 x x2 off bs.
Proof.
  intros Hg [E O N]. pose proof (grown_extends _ _ _ _ _ Hg) as Eg. split.
  - by eapply extends_trans.
  - intros p Hp Ha Hno. rewrite O; [by eapply grown_fbyte|done| |done].
    by rewrite (extends_faddr c c1 x x1) by (try apply file_pos; done).
  - done.
Qed.

Lemma wrote_trans c c1 c2 x x1 x2 off b1 b2 :
  0 ≤ off → off + Z.of_nat (length b1) ≤ MAXFILE * BSIZE →
  wrote c c1 x x1 off b1 → wrote c1 c2 x1 x2 (off + Z.of_nat (length b1)) b2 → wrote c c2 x x2 off (b1 ++ b2).
Proof.
  intros Ho Hm [E1 O1 N1] [E2 O2 N2]. split.
  - by eapply extends_trans.
  - intros p Hp Ha Hno. rewrite length_app in Hno. rewrite O2; [apply O1; [done|done|lia]|done| |lia].
    by rewrite (extends_faddr c c1 x x1) by (try apply file_pos; done).
  - intros j Hj. rewrite length_app in Hj. destruct (decide (j < Z.of_nat (length b1))) as [Hlt|Hge].
    + destruct (N1 j ltac:(lia)) as [Hb Ha]. split.
      * rewrite O2 by (done || lia). rewrite Hb. unfold nthZ. rewrite !nth_lookup, lookup_app_l by lia. done.
      * rewrite (extends_faddr c1 c2 x1 x2); [done|done|apply file_pos; lia|done].
    + destruct (N2 (j - Z.of_nat (length b1)) ltac:(lia)) as [Hb Ha].
      replace (off + Z.of_nat (length b1) + (j - Z.of_nat (length b1))) with (off + j) in * by lia. split; [|done].
      rewrite Hb. unfold nthZ. rewrite !nth_lookup, lookup_app_r by lia. do 2 f_equal. lia.
Qed.

Lemma wrote_nil c x off : wrote c c x x off [].
Proof. split; [apply extends_refl|done|]. intros j Hj. simpl in Hj. lia. Qed.

(** The state in which a part of a write ends. *)
Record wstate (s s' : kernel) (L' : list Z) (c' : Z → list Z) (ip : nat) (x' : inode) (B' : list Z) : Prop := {
  ws_view : fview s' L' c' ip x';
  ws_frame : iframe me s s';
  ws_mach : k_mach s' = k_mach s;
  ws_itable : k_itable s' = alter (λ _, x') ip (k_itable s);
  ws_budget : budget sb B' L' x';
}.

(** A piece is written to a block the file has. *)
Lemma writei_block L c ip x B s src off bs (a := faddr c x (off / BSIZE)) :
  fview s L c ip x → budget sb B L x → a ∈ B → Z.of_nat (length B) + 1 ≤ size - 1 → a ≠ 0 →
  0 ≤ off → 0 ≤ off / BSIZE < MAXFILE → off mod BSIZE + Z.of_nat (length bs) ≤ BSIZE →
  get_chunk (p_pagetable (proc_at me s)) (k_mach s) src bs →
  ∃ i s1 s2 s3 s4 L' c', bread ROOTDEV a h s = Ok i h s1 ∧
    either_copyin src (Z.of_nat (length bs)) h s1 = Ok (0, bs) h s1 ∧
    upddata i (splice (Z.to_nat (off mod BSIZE)) bs) h s1 = Ok tt h s2 ∧
    log_write i h s2 = Ok tt h s3 ∧ brelse i h s3 = Ok tt h s4 ∧
    wstate s s4 L' c' ip x B ∧ wrote c c' x x off bs ∧ spare sb c' x = spare sb c x.
Proof.
  intros [T Hsb Hip Hx Hdev Hok Hm] [HL Hmap Hind] HaB HB Ha Ho Hbn Hpc Hp.
  pose proof (tx_sized h me start size _ _ _ _ T) as Hc. pose proof HEAD_eq as [? ?]. pose proof BSIZE_eq.
  destruct (g_log _ _ _ G) as (? & ? & Hg3). pose proof (tx_sub_len h me start size _ _ _ _ _ T HL) as HLB.
  pose proof (write_in_range c x _ Hok Hbn Ha) as Hrange. fold a in Hrange. pose proof (geom_pos start size sb G).
  destruct (tx_bread h me start size s L [] c a T) as (i & s1 & E1 & T1 & F1); [apply not_elem_of_nil|simpl; lia|].
  destruct (lframe_iframe me s s1 F1) as (IF1 & It1 & Im1). pose proof (iframe_cur me _ _ IF1) as [Ec Ep].
  pose proof (Z.mod_pos_bound off BSIZE ltac:(lia)).
  destruct (tx_write h me start size s1 L [(i, a)] c i a (splice (Z.to_nat (off mod BSIZE)) bs) T1) as (s2 & s3 & E2 & E3 & T3 & F3).
  { by left. }
  { destruct G as [_ G2 G3]. unfold loggable, nmeta in *.
    assert (0 ≤ sb_ninodes sb / IPB) by (apply Z.div_pos; [lia|reflexivity]). lia. }
  { rewrite length_splice; [apply Hc|]. rewrite Hc. lia. }
  { lia. }
  destruct (tx_brelse h me start size s3 _ _ _ _ _ T3) as (s4 & E4 & T4 & F4).
  assert (lframe me s s4) as F by lframes. destruct (lframe_iframe me s s4 F) as (IF & It & Im).
  eexists i, s1, s2, s3, s4, (logged a L), _. split_and!; [done| |done|done|done| |by apply wrote_piece|].
  - apply either_copyin_chunk; [rewrite Ec; apply T|]. by rewrite Ep, Im1.
  - split.
    + split; try done; [by rewrite (iframe_sb _ _ _ IF)|by rewrite It|unfold inode_at; by rewrite It|by apply write_file_ok|by apply write_meta].
    + done.
    + done.
    + rewrite It. by apply alter_id_itable.
    + split; [|done|done]. by apply (logged_sub start size sb G).
  - unfold spare. by rewrite write_nfree.
Qed.

(** One round of [writei]. *)
Lemma writei_round L c ip x B f s src off n tot bs (m := piece off (n - tot)) :
  fview s L c ip x → budget sb B L x → cost B x + 2 ≤ size - 1 → 1 ≤ spare sb c x →
  0 ≤ off → 0 ≤ tot < n → off + (n - tot) ≤ MAXFILE * BSIZE →
  Z.of_nat (length bs) = m → get_chunk (p_pagetable (proc_at me s)) (k_mach s) src bs →
  ∃ s' L' c' x' B',
    writei_loop (S f) ip src off n tot h s = writei_loop f ip (src_add src m) (off + m) n (tot + m) h s' ∧
    wstate s s' L' c' ip x' B' ∧ wrote c c' x x' off bs ∧
    cost B' x' ≤ cost B x + 1 ∧ spare sb c x - 1 ≤ spare sb c' x'.
Proof.
  intros Fv Bu HB Hsp Ho Ht Hmax Hbs Hp.
  destruct (piece_pos off (n - tot) ltac:(lia)) as (Hm1 & Hm2 & Hm3). fold m in Hm1, Hm2, Hm3.
  assert (0 ≤ off / BSIZE < MAXFILE) as Hbn by (apply file_pos; lia).
  destruct (bmap_ok h me start size sb G s L c ip x B (off / BSIZE)) as (s1 & L1 & c1 & x1 & B1 & E1 & [V1 F1 M1 T1 G1 A1 U1 N1 C1 S1]);
    [done..|].
  pose proof (iframe_cur me _ _ F1) as [Ec Ep].
  destruct (writei_block L1 c1 ip x1 B1 s1 src off bs)
    as (i & s2 & s3 & s4 & s5 & L' & c' & E2 & E3 & E4 & E5 & E6 & [V2 F2 M2 T2 U2] & Hw & Hs2); try done.
  { unfold cost in HB, C1. destruct (ind_block x1 =? 0), (ind_block x =? 0); lia. }
  { lia. }
  { by rewrite Ep, M1. }
  exists s5, L', c', x1, B1. split_and!.
  - cbn [writei_loop]. rewrite (proj2 (Z.ltb_lt tot n)) by lia. erewrite bind_Ok by exact E1.
    rewrite (proj2 (Z.eqb_neq _ 0)) by done. rewrite bind_getinode, (fv_inode _ _ _ _ _ _ _ _ _ _ V1), (fv_dev _ _ _ _ _ _ _ _ _ _ V1).
    erewrite bind_Ok by exact E2. cbv zeta. fold (piece off (n - tot)). fold m. rewrite <- Hbs.
    erewrite bind_Ok by exact E3. cbv beta iota. erewrite bind_Ok by exact E4. cbn [Z.eqb].
    erewrite bind_Ok by exact E5. by erewrite bind_Ok by exact E6.
  - split; [done|by eapply iframe_trans|congruence| |done]. by rewrite T2, T1, alter_alter.
  - by eapply wrote_grown.
  - done.
  - lia.
Qed.

Lemma writei_loop_ok ip fuel : ∀ k L c x B s src off n tot bs,
  fview s L c ip x → budget sb B L x → rounds_ok k off (n - tot) → cost B x + Z.of_nat k + 1 ≤ size - 1 →
  Z.of_nat k ≤ spare sb c x → 0 ≤ off → 0 ≤ tot ≤ n → off + (n - tot) ≤ MAXFILE * BSIZE →
  rounds_ok fuel off (n - tot) → Z.of_nat (length bs) = n - tot →
  get_chunks fuel (p_pagetable (proc_at me s)) (k_mach s) src off bs →
  ∃ s' L' c' x' B', writei_loop fuel ip src off n tot h s = Ok (n, off + (n - tot)) h s' ∧
    wstate s s' L' c' ip x' B' ∧ wrote c c' x x' off bs ∧ cost B' x' + 1 ≤ size - 1.
Proof.
  induction fuel as [fuel IH] using lt_wf_ind. intros k L c x B s src off n tot bs Fv Bu Hk HB Hsp Ho Ht Hmax Hf Hbs Hg.
  destruct (decide (tot = n)) as [->|Hne].
  { assert (bs = []) as -> by (apply nil_length_inv; lia). exists s, L, c, x, B. rewrite Z.sub_diag, Z.add_0_r.
    split_and!; [destruct fuel; cbn [writei_loop]; by rewrite Z.ltb_irrefl| |apply wrote_nil|lia].
    destruct Fv. split; try done; [split; [by destruct s|apply awake_refl]|by apply alter_id_itable]. }
  destruct (rounds_step fuel off (n - tot)) as (f & -> & Hf'); [lia|lia|done|].
  destruct (rounds_step k off (n - tot)) as (k' & -> & Hk'); [lia|lia|done|].
  set (m := piece off (n - tot)) in *. destruct (piece_pos off (n - tot) ltac:(lia)) as (Hm1 & Hm2 & Hm3). fold m in Hm1, Hm2, Hm3.
  cbn [get_chunks] in Hg. rewrite Hbs in Hg. fold m in Hg.
  destruct bs as [|b0 bs0] eqn:Ebs; [simpl in Hbs; lia|]. rewrite <- Ebs in *. clear b0 bs0 Ebs. destruct Hg as [Hg1 Hg2].
  destruct (writei_round L c ip x B f s src off n tot (take (Z.to_nat m) bs)) as (s1 & L1 & c1 & x1 & B1 & E1 & [V1 F1 M1 T1 U1] & W1 & C1 & S1);
    try done; try lia; [rewrite length_take; lia|]. fold m in E1.
  pose proof (iframe_cur me _ _ F1) as [_ Ep].
  destruct (IH f ltac:(lia) k' L1 c1 x1 B1 s1 (src_add src m) (off + m) n (tot + m) (drop (Z.to_nat m) bs))
    as (s2 & L2 & c2 & x2 & B2 & E2 & [V2 F2 M2 T2 U2] & W2 & C2); try done; try lia.
  - replace (n - (tot + m)) with (n - tot - m) by lia. done.
  - replace (n - (tot + m)) with (n - tot - m) by lia. done.
  - rewrite length_drop. lia.
  - by rewrite Ep, M1.
  - exists s2, L2, c2, x2, B2. split_and!.
    + rewrite E1, E2. f_equal. f_equal. lia.
    + split; [done|by eapply iframe_trans|congruence| |done]. by rewrite T2, T1, alter_alter.
    + rewrite <- (take_drop (Z.to_nat m) bs). assert (Z.of_nat (length (take (Z.to_nat m) bs)) = m) as Hl by (rewrite length_take; lia).
      eapply wrote_trans; [done|lia|exact W1|]. by rewrite Hl.
    + done.
Qed.
End Data.
