(* ===== verification/FsInode.v ===== *)
(** * Inodes on disk (kernel/fs.c)

    A [struct dinode] in its block: what [iupdate] stores, [ilock] loads, and no
    other inode of the block changes.  With it the whole of [writei]. *)

From stdpp Require Import functions.
From S2P Require Import Prelude CString Riscv Kalloc Vm Kernel Sched Sleeplock Bytes Bio BioList BioSpec Log.
From S2P Require Import LogSpec LogOps Uart Printf Access Fs FsSpec FsFile FsData.

(** ** The bytes of an inode *)

Fixpoint addr_bytes (l : list Z) : list Z :=
  match l with [] => [] | a :: l => le_bytes 4 a ++ addr_bytes l end.
Definition dinode_bytes (x : inode) : list Z :=
  le_bytes 2 (i_type x) ++ le_bytes 2 (i_major x) ++ le_bytes 2 (i_minor x) ++ le_bytes 2 (i_nlink x) ++
  le_bytes 4 (i_size x) ++ addr_bytes (i_addrs x).

Lemma length_addr_bytes l : length (addr_bytes l) = (4 * length l)%nat.
Proof. induction l as [|a l IH]; [done|]. cbn [addr_bytes length]. rewrite length_app, length_le_bytes, IH. lia. Qed.

Lemma length_dinode_bytes x : length (i_addrs x) = 13%nat → length (dinode_bytes x) = 64%nat.
Proof. intros E. unfold dinode_bytes. rewrite !length_app, !length_le_bytes, length_addr_bytes, E. done. Qed.

(** Adjacent pieces. *)
Lemma splice_adjacent off a b l :
  (off + length a + length b ≤ length l)%nat → splice (off + length a) b (splice off a l) = splice off (a ++ b) l.
Proof.
  intros Hl. apply list_eq. intros i.
  rewrite (lookup_splice _ b) by (rewrite length_splice; lia). rewrite !lookup_splice by (rewrite ?length_app; lia).
  rewrite length_app. repeat case_decide; try lia; try done.
  - rewrite lookup_app_r by lia. f_equal. lia.
  - by rewrite lookup_app_l by lia.
Qed.

Lemma store_addrs_splice l : ∀ off data,
  0 ≤ off → off + 4 * Z.of_nat (length l) ≤ Z.of_nat (length data) →
  store_addrs off l data = splice (Z.to_nat off) (addr_bytes l) data.
Proof.
  induction l as [|a l IH]; intros off data Ho Hl; cbn [store_addrs].
  - unfold splice, addr_bytes. simpl. by rewrite Nat.add_0_r, take_drop.
  - simpl length in Hl. rewrite IH by (rewrite ?length_put32; lia). unfold put32, put.
    replace (Z.to_nat (off + 4)) with (Z.to_nat off + length (le_bytes 4 a))%nat by (rewrite length_le_bytes; lia).
    rewrite splice_adjacent; [done|]. rewrite length_le_bytes, length_addr_bytes. lia.
Qed.

Lemma put_splice n off a v data :
  (off + length a + n ≤ length data)%nat → put n (off + length a) v (splice off a data) = splice off (a ++ le_bytes n v) data.
Proof. intros H. unfold put. apply splice_adjacent. by rewrite length_le_bytes. Qed.

Lemma store_dinode_splice off x data :
  0 ≤ off → off + 64 ≤ Z.of_nat (length data) → length (i_addrs x) = 13%nat →
  store_dinode off x data = splice (Z.to_nat off) (dinode_bytes x) data.
Proof.
  intros Ho Hl Hx. unfold store_dinode. cbv zeta.
  set (a1 := le_bytes 2 (i_type x)). change (put16 off (i_type x) data) with (splice (Z.to_nat off) a1 data).
  assert (∀ n v z (a : list Z), (length a + n ≤ 64)%nat → z = off + Z.of_nat (length a) →
    put n (Z.to_nat z) v (splice (Z.to_nat off) a data) = splice (Z.to_nat off) (a ++ le_bytes n v) data) as Hp.
  { intros n v z a Ha ->. rewrite <- put_splice by lia. f_equal. lia. }
  unfold put16, put32. rewrite !Hp by (unfold a1; rewrite ?length_app, ?length_le_bytes; simpl; lia).
  assert (∀ a : list Z, (length a + 52 ≤ 64)%nat → length (splice (Z.to_nat off) a data) = length data) as Hlen
    by (intros a Ha; apply length_splice; lia).
  rewrite store_addrs_splice by (rewrite ?Hlen; unfold a1; rewrite ?length_app, ?length_le_bytes; simpl; lia).
  set (a2 := (_ ++ le_bytes 4 (i_size x))). assert (length a2 = 12%nat) as L2
    by (unfold a2, a1; rewrite !length_app, !length_le_bytes; done).
  replace (Z.to_nat (off + 12)) with (Z.to_nat off + length a2)%nat by lia.
  rewrite splice_adjacent by (rewrite length_addr_bytes; lia). f_equal.
Qed.

(** ** Reading an inode *)

Lemma get_splice_in n off k new l :
  (off + length new ≤ length l)%nat → (k + n ≤ length new)%nat → get n (off + k) (splice off new l) = get n k new.
Proof.
  intros Hl Hk. unfold get. f_equal. apply list_eq. intros i. destruct (decide (i < n)%nat).
  - rewrite !lookup_take_lt, !lookup_drop, lookup_splice by lia. rewrite decide_True by lia. f_equal. lia.
  - by rewrite !lookup_take_ge by lia.
Qed.

Lemma get_splice_ne n a off new l :
  (off + length new ≤ length l)%nat → (a + n ≤ off ∨ off + length new ≤ a)%nat → get n a (splice off new l) = get n a l.
Proof. intros. unfold get. by rewrite take_drop_splice_ne. Qed.

Lemma get_field n k pre v post :
  k = length pre → get n k (pre ++ le_bytes n v ++ post) = v mod 2 ^ (8 * Z.of_nat n).
Proof.
  intros ->. unfold get. rewrite drop_app_length, take_app_length' by (by rewrite length_le_bytes). apply le_val_bytes.
Qed.

Lemma get_addr l : ∀ k a, l !! k = Some a → get 4 (4 * k) (addr_bytes l) = u32 a.
Proof.
  induction l as [|b l IH]; intros k a Hk; [done|]. destruct k as [|k]; simpl in Hk.
  - injection Hk as ->. cbn [addr_bytes]. by apply (get_field 4 _ []).
  - rewrite <- (IH k a Hk). unfold get. f_equal. f_equal. cbn [addr_bytes].
    rewrite drop_app_ge by (rewrite length_le_bytes; lia). f_equal. rewrite length_le_bytes. lia.
Qed.

(** The fields of an inode that are on disk fit their types. *)
Record dinode_wf (x : inode) : Prop := {
  dw_type : - 2 ^ 15 ≤ i_type x < 2 ^ 15;
  dw_major : - 2 ^ 15 ≤ i_major x < 2 ^ 15;
  dw_minor : - 2 ^ 15 ≤ i_minor x < 2 ^ 15;
  dw_nlink : - 2 ^ 15 ≤ i_nlink x < 2 ^ 15;
  dw_size : 0 ≤ i_size x < 2 ^ 32;
  dw_addrs : Forall (λ a, 0 ≤ a < 2 ^ 32) (i_addrs x);
  dw_len : length (i_addrs x) = 13%nat;
}.

(** The fields that are on disk, the others from [y]. *)
Definition same_dinode (x y : inode) : inode :=
  y <| i_type := i_type x |> <| i_major := i_major x |> <| i_minor := i_minor x |> <| i_nlink := i_nlink x |>
    <| i_size := i_size x |> <| i_addrs := i_addrs x |>.

Lemma i16_mod v : - 2 ^ 15 ≤ v < 2 ^ 15 → i16 (v mod 2 ^ (8 * Z.of_nat 2)) = v.
Proof. intros Hv. unfold i16. change (8 * Z.of_nat 2) with 16. rewrite Zplus_mod_idemp_l, Z.mod_small; lia. Qed.

(** Reading field [k] of what was stored. *)
Lemma get_stored n k z off x data :
  0 ≤ off → off + 64 ≤ Z.of_nat (length data) → length (i_addrs x) = 13%nat → z = off + Z.of_nat k → (k + n ≤ 64)%nat →
  get n (Z.to_nat z) (store_dinode off x data) = get n k (dinode_bytes x).
Proof.
  intros Ho Hl Hx -> Hk. pose proof (length_dinode_bytes x Hx). rewrite store_dinode_splice by done.
  rewrite <- (get_splice_in n (Z.to_nat off) k (dinode_bytes x) data) by lia. f_equal. lia.
Qed.

Lemma load_store_addrs off x data :
  0 ≤ off → off + 64 ≤ Z.of_nat (length data) → dinode_wf x →
  (λ k, get32 (off + 12 + 4 * Z.of_nat k) (store_dinode off x data)) <$> seq 0 (Z.to_nat (NDIRECT + 1)) = i_addrs x.
Proof.
  intros Ho Hl W. pose proof (dw_len x W) as W7. apply list_eq. intros k. change (Z.to_nat (NDIRECT + 1)) with 13%nat.
  destruct (decide (k < 13)%nat) as [Hk|Hk].
  2:{ rewrite !lookup_ge_None_2; [done|lia|]. rewrite length_fmap, length_seq. lia. }
  rewrite list_lookup_fmap, lookup_seq_lt by done. simpl. destruct (lookup_lt_is_Some_2 (i_addrs x) k) as [a Ha]; [lia|].
  rewrite Ha. f_equal. unfold get32. rewrite (get_stored 4 (12 + 4 * k)) by (done || lia). unfold dinode_bytes.
  rewrite !app_assoc. set (pre := _ ++ le_bytes 4 (i_size x)). assert (length pre = 12%nat) as Lp
    by (unfold pre; rewrite !length_app, !length_le_bytes; done).
  replace (get 4 (12 + 4 * k) (pre ++ addr_bytes (i_addrs x))) with (get 4 (4 * k) (addr_bytes (i_addrs x))).
  - rewrite (get_addr _ _ _ Ha). apply u32_small. by apply (Forall_lookup_1 _ _ _ _ (dw_addrs x W) Ha).
  - unfold get. rewrite drop_app_ge by lia. do 3 f_equal. lia.
Qed.

Lemma load_store_dinode off x y data :
  0 ≤ off → off + 64 ≤ Z.of_nat (length data) → dinode_wf x → load_dinode off (store_dinode off x data) y = same_dinode x y.
Proof.
  intros Ho Hl W. pose proof W as [W1 W2 W3 W4 W5 W6 W7]. unfold load_dinode. rewrite load_store_addrs by done.
  unfold get16. unfold get32. rewrite (get_stored 2 0 off), (get_stored 2 2 (off + 2)), (get_stored 2 4 (off + 4)), (get_stored 2 6 (off + 6)),
    (get_stored 4 8 (off + 8)) by (done || lia).
  set (t := le_bytes 2 (i_type x)). set (ma := le_bytes 2 (i_major x)). set (mi := le_bytes 2 (i_minor x)).
  set (nl := le_bytes 2 (i_nlink x)).
  assert (get 2 0 (dinode_bytes x) = i_type x mod 2 ^ (8 * Z.of_nat 2)) as -> by (apply (get_field 2 0 [] _ _); done).
  assert (get 2 2 (dinode_bytes x) = i_major x mod 2 ^ (8 * Z.of_nat 2)) as -> by (apply (get_field 2 2 t _ _); done).
  assert (get 2 4 (dinode_bytes x) = i_minor x mod 2 ^ (8 * Z.of_nat 2)) as -> by (apply (get_field 2 4 (t ++ ma) _ _); done).
  assert (get 2 6 (dinode_bytes x) = i_nlink x mod 2 ^ (8 * Z.of_nat 2)) as -> by (apply (get_field 2 6 (t ++ ma ++ mi) _ _); done).
  assert (get 4 8 (dinode_bytes x) = i_size x mod 2 ^ (8 * Z.of_nat 4)) as -> by (apply (get_field 4 8 (t ++ ma ++ mi ++ nl) _ _); done).
  rewrite !i16_mod by done. by rewrite Z.mod_small by done.
Qed.

(** The other inodes of the block. *)
Lemma load_store_other off off' x y data :
  0 ≤ off → 0 ≤ off' → off + 64 ≤ Z.of_nat (length data) → off' + 64 ≤ off ∨ off + 64 ≤ off' → length (i_addrs x) = 13%nat →
  load_dinode off' (store_dinode off x data) y = load_dinode off' data y.
Proof.
  intros Ho Ho' Hl Hd Hx. rewrite store_dinode_splice by done. pose proof (length_dinode_bytes x Hx).
  unfold load_dinode, get16, get32. rewrite !get_splice_ne by lia.
  match goal with |- _ <| i_addrs := ?l |> = _ <| i_addrs := ?r |> => assert (l = r) as ->; [|done] end.
  change (Z.to_nat (NDIRECT + 1)) with 13%nat. apply list_eq. intros k. rewrite !list_lookup_fmap.
  destruct (decide (k < 13)%nat); [|by rewrite lookup_ge_None_2 by (rewrite length_seq; lia)].
  rewrite lookup_seq_lt by done. simpl. by rewrite get_splice_ne by lia.
Qed.

Lemma length_store_dinode off x data :
  0 ≤ off → off + 64 ≤ Z.of_nat (length data) → length (i_addrs x) = 13%nat → length (store_dinode off x data) = length data.
Proof.
  intros. rewrite store_dinode_splice by done. apply length_splice. rewrite length_dinode_bytes by done. lia.
Qed.

Section Inode.
Context {Pat : Patience} (h : list lockid) (me : nat) (start size : Z) (sb : superblock) (G : geom start size sb).
Abbreviation tx := (tx h me start size).
Abbreviation fview := (fview h me start size sb).

(** ** iupdate *)

Lemma inode_block i : 0 ≤ i < sb_ninodes sb →
  IBLOCK i sb = i / IPB + sb_inodestart sb ∧ sb_inodestart sb ≤ IBLOCK i sb < sb_bmapstart sb ∧
  loggable start size (IBLOCK i sb) ∧ 0 ≤ dinode_off i ∧ dinode_off i + 64 ≤ BSIZE.
Proof.
  intros Hi. destruct G as [G1 G2 G3]. pose proof (geom_pos start size sb G). change IPB with 16 in *.
  assert (0 ≤ sb_size sb / BPB) by (apply Z.div_pos; [lia|apply BPB_pos]). unfold nmeta in *.
  assert (0 ≤ i / 16 ≤ sb_ninodes sb / 16) by (split; [apply Z.div_pos; lia|apply Z.div_le_mono; lia]).
  unfold IBLOCK, dinode_off. change IPB with 16. change BSIZE with 1024. change sizeof_dinode with 64.
  rewrite u32_small by lia. pose proof (Z.mod_pos_bound i 16). unfold loggable. lia.
Qed.

(** Writing to a block with inodes does not change files. *)
Section InodeWrite.
Context (c : Z → list Z) (b : Z) (new : list Z) (Hb : 0 ≤ b < sb_bmapstart sb).
Let c' : Z → list Z := <[b := new]> c.

Lemma inode_write_bits y : 0 ≤ y < sb_size sb → bbit c' sb y = bbit c sb y.
Proof.
  intros Hy. unfold bbit, c'. destruct (bblock_eq start size sb G y Hy) as (_ & ? & _). by rewrite fn_lookup_insert_ne by lia.
Qed.

Lemma inode_write_faddr x k : file_ok sb c x → faddr c' x k = faddr c x k.
Proof.
  intros Hok. unfold faddr. destruct (k <? NDIRECT); [done|]. destruct (Z.eqb_spec (ind_block x) 0) as [|Hne]; [done|].
  unfold c'. rewrite fn_lookup_insert_ne; [done|]. intros ->. pose proof (geom_pos start size sb G).
  destruct (fo_used _ _ _ Hok MAXFILE) as [Hr _]; [pose proof MAXFILE_eq; lia|by rewrite slot_ind|]. rewrite slot_ind in Hr.
  unfold nmeta in Hr. assert (0 ≤ sb_size sb / BPB) by (apply Z.div_pos; [lia|apply BPB_pos]). lia.
Qed.

Lemma inode_write_slot x k : file_ok sb c x → slot c' x k = slot c x k.
Proof. intros Hok. unfold slot. destruct (k =? MAXFILE); [done|]. by apply inode_write_faddr. Qed.

Lemma inode_write_file_ok x : file_ok sb c x → file_ok sb c' x.
Proof.
  intros Hok. pose proof Hok as [F1 F2 F3 F4 F5]. pose proof (geom_pos start size sb G). split.
  - done.
  - done.
  - intros k Hk. rewrite inode_write_slot by done. intros Hnz. destruct (F3 k Hk Hnz) as [Hr Hu]. split; [done|].
    by rewrite inode_write_bits by lia.
  - intros j k Hj Hk. rewrite !inode_write_slot by done. by apply F4.
  - intros k Hk Hs. rewrite inode_write_faddr by done. by apply F5.
Qed.

Lemma inode_write_fbyte x p : file_ok sb c x → 0 ≤ p < i_size x → fbyte c' x p = fbyte c x p.
Proof.
  intros Hok Hp. unfold fbyte. rewrite inode_write_faddr by done. unfold c'. rewrite fn_lookup_insert_ne; [done|]. intros E.
  pose proof (fo_size _ _ _ Hok). pose proof BSIZE_eq. pose proof (file_pos p ltac:(lia)) as Hk.
  pose proof (Z.div_mod p BSIZE). pose proof (Z.mod_pos_bound p BSIZE).
  pose proof (fo_full _ _ _ Hok (p / BSIZE) ltac:(lia) ltac:(lia)) as Ha. rewrite <- slot_data in Ha, E by lia.
  destruct (fo_used _ _ _ Hok (p / BSIZE) ltac:(lia) Ha) as [Hr _]. pose proof (geom_pos start size sb G).
  unfold nmeta in Hr. assert (0 ≤ sb_size sb / BPB) by (apply Z.div_pos; [lia|apply BPB_pos]). lia.
Qed.

Lemma inode_write_fdata x : file_ok sb c x → fdata c' x = fdata c x.
Proof.
  intros Hok. unfold fdata. apply list_fmap_ext. intros i k Hk. apply lookup_seq in Hk as [-> Hk].
  apply inode_write_fbyte; [done|lia].
Qed.

Lemma inode_write_meta : meta_used sb c → meta_used sb c'.
Proof. intros Hm y Hy. destruct G. rewrite inode_write_bits by lia. by apply Hm. Qed.
End InodeWrite.

Lemma file_addrs c x : file_ok sb c x → Forall (λ a, 0 ≤ a < 2 ^ 31) (i_addrs x).
Proof.
  intros Hok. pose proof (fo_len _ _ _ Hok) as Hl. change (Z.to_nat (NDIRECT + 1)) with 13%nat in Hl. apply Forall_lookup.
  intros k a Hk. pose proof (lookup_lt_Some _ _ _ Hk). pose proof (geom_pos start size sb G). destruct G as [_ _ G3].
  pose proof MAXFILE_eq as (? & ? & ?).
  assert (slot c x (if decide (k = 12%nat) then MAXFILE else Z.of_nat k) = a) as Hs.
  { case_decide as E.
    - rewrite slot_ind. unfold ind_block, nthZ. subst k. rewrite nth_lookup. change (Z.to_nat NDIRECT) with 12%nat. by rewrite Hk.
    - rewrite slot_data by lia. unfold faddr. rewrite (proj2 (Z.ltb_lt _ _)) by lia. unfold nthZ. by rewrite Nat2Z.id, nth_lookup, Hk. }
  destruct (decide (a = 0)) as [|Hne]; [lia|].
  destruct (fo_used _ _ _ Hok (if decide (k = 12%nat) then MAXFILE else Z.of_nat k)) as [Hr _]; [case_decide; lia|congruence|lia].
Qed.

Lemma iupdate_ok s L c ip x :
  fview s L c ip x → dinode_wf x → 0 ≤ i_inum x < sb_ninodes sb → Z.of_nat (length L) < size - 1 →
  ∃ s', iupdate ip h s = Ok tt h s' ∧
    fview s' (logged (IBLOCK (i_inum x) sb) L)
      (<[IBLOCK (i_inum x) sb := store_dinode (dinode_off (i_inum x)) x (c (IBLOCK (i_inum x) sb))]> c) ip x ∧
    iframe me s s' ∧ k_itable s' = k_itable s ∧ k_mach s' = k_mach s.
Proof.
  intros Fv W Hi HL. pose proof Fv as [T Hsb Hip Hx Hdev Hok Hm]. pose proof (tx_sized h me start size _ _ _ _ T) as Hc.
  destruct (inode_block _ Hi) as (_ & Hib & Hlg & Ho1 & Ho2). pose proof HEAD_eq as [? ?]. destruct (g_log _ _ _ G) as (? & ? & ?).
  set (ib := IBLOCK (i_inum x) sb) in *.
  destruct (tx_bread h me start size s L [] c ib T) as (i & s1 & E1 & T1 & F1); [apply not_elem_of_nil|simpl; lia|].
  destruct (tx_write h me start size s1 L [(i, ib)] c i ib (store_dinode (dinode_off (i_inum x)) x) T1) as (s2 & s3 & E2 & E3 & T3 & F3);
    [by left|done| |lia|].
  { rewrite length_store_dinode; [apply Hc|done| |apply W]. rewrite Hc. lia. }
  destruct (tx_brelse h me start size s3 _ _ _ _ _ T3) as (s4 & E4 & T4 & F4).
  assert (lframe me s s4) as F by lframes. destruct (lframe_iframe me s s4 F) as (IF & It & Im).
  exists s4. split_and!; [|split|done|done|done]; try done.
  - unfold iupdate. rewrite bind_getinode, Hx, bind_gets, Hsb, Hdev. fold ib. erewrite bind_Ok by exact E1.
    erewrite bind_Ok by exact E2. by erewrite bind_Ok by exact E3.
  - by rewrite (iframe_sb _ _ _ IF).
  - by rewrite It.
  - unfold inode_at. by rewrite It.
  - apply inode_write_file_ok; [lia|done].
  - apply inode_write_meta; [lia|done].
Qed.

(** ** Other files *)

Definition disjoint_files (c : Z → list Z) (x z : inode) : Prop :=
  ∀ j k, 0 ≤ j ≤ MAXFILE → 0 ≤ k ≤ MAXFILE → slot c x j ≠ 0 → slot c x j ≠ slot c z k.

Section Other.
Context (c c' : Z → list Z) (x x' z : inode).
Context (E : extends sb c c' x x') (Hz : file_ok sb c z) (Hd : disjoint_files c x z).

Lemma other_slot j k :
  0 ≤ j ≤ MAXFILE → 0 ≤ k ≤ MAXFILE → slot c z k ≠ 0 → slot c' x' j ≠ 0 → slot c' x' j ≠ slot c z k.
Proof.
  intros Hj Hk Hnz Hnx Heq. destruct (decide (slot c x j = 0)) as [Hx|Hx].
  - destruct (ex_fresh _ _ _ _ _ E j Hj Hx Hnx) as [_ Hb]. destruct (fo_used _ _ _ Hz k Hk Hnz) as [_ Hu]. congruence.
  - rewrite (ex_kept _ _ _ _ _ E) in Heq by done. by apply (Hd j k).
Qed.

Lemma other_block k : 0 ≤ k ≤ MAXFILE → slot c z k ≠ 0 → c' (slot c z k) = c (slot c z k).
Proof.
  intros Hk Hnz. apply (ex_other _ _ _ _ _ E).
  - right. apply (fo_used _ _ _ Hz); done.
  - intros j Hj Hnx. by apply other_slot.
Qed.

Lemma other_faddr k : faddr c' z k = faddr c z k.
Proof.
  unfold faddr. destruct (k <? NDIRECT); [done|]. destruct (Z.eqb_spec (ind_block z) 0) as [|Hne]; [done|].
  rewrite <- (slot_ind c z) in *. rewrite other_block; [done| |done]. pose proof MAXFILE_eq. lia.
Qed.

Lemma other_slot_eq k : slot c' z k = slot c z k.
Proof. unfold slot. destruct (k =? MAXFILE); [done|]. apply other_faddr. Qed.

Lemma other_file_ok : file_ok sb c' z.
Proof.
  pose proof Hz as [F1 F2 F3 F4 F5]. pose proof (geom_pos start size sb G). split.
  - done.
  - done.
  - intros k Hk. rewrite other_slot_eq. intros Hnz. destruct (F3 k Hk Hnz) as [Hr Hu]. split; [done|].
    apply (ex_bits _ _ _ _ _ E); [lia|done].
  - intros j k Hj Hk. rewrite !other_slot_eq. by apply F4.
  - intros k Hk Hs. rewrite other_faddr. by apply F5.
Qed.

Lemma other_fdata : fdata c' z = fdata c z.
Proof.
  unfold fdata. apply list_fmap_ext. intros i p Hp. apply lookup_seq in Hp as [-> Hp]. simpl.
  pose proof (fo_size _ _ _ Hz). pose proof BSIZE_eq. pose proof (file_pos (Z.of_nat i) ltac:(lia)) as Hk.
  pose proof (Z.div_mod (Z.of_nat i) BSIZE). pose proof (Z.mod_pos_bound (Z.of_nat i) BSIZE).
  pose proof (fo_full _ _ _ Hz (Z.of_nat i / BSIZE) ltac:(lia) ltac:(lia)) as Ha.
  unfold fbyte. rewrite other_faddr. rewrite <- (slot_data c) in * by lia. by rewrite other_block by (done || lia).
Qed.

Lemma other_disjoint : disjoint_files c' x' z.
Proof.
  intros j k Hj Hk Hnx. rewrite other_slot_eq. destruct (decide (slot c z k = 0)) as [->|Hnz]; [done|]. by apply other_slot.
Qed.
End Other.

(** ** writei *)

(** The contents of a file after a write. *)
Definition write_data (off : Z) (bs data : list Z) : list Z :=
  take (Z.to_nat off) data ++ bs ++ drop (Z.to_nat off + length bs) data.

Lemma wrote_fdata c c' x x' off bs (sz := Z.max (i_size x) (off + Z.of_nat (length bs))) (x'' := x' <| i_size := sz |>) :
  file_ok sb c x → wrote sb c c' x x' off bs → 0 ≤ off ≤ i_size x → off + Z.of_nat (length bs) ≤ MAXFILE * BSIZE →
  fdata c' x'' = write_data off bs (fdata c x).
Proof.
  intros Hok [E O N] Ho Hm. pose proof (fo_size _ _ _ Hok) as Hsz. pose proof BSIZE_eq.
  pose proof (length_fdata c x ltac:(lia)) as Hlen. unfold write_data. apply list_eq. intros k.
  assert (length (fdata c' x'') = Z.to_nat sz) as Hlen'
    by (unfold fdata; rewrite length_fmap, length_seq; done).
  destruct (decide (k < Z.to_nat sz)%nat) as [Hk|Hk].
  2:{ rewrite !lookup_ge_None_2; [done| |lia]. rewrite !length_app, length_take, length_drop. unfold sz in Hk. lia. }
  rewrite lookup_fdata by done. change (fbyte c' x'' (Z.of_nat k)) with (fbyte c' x' (Z.of_nat k)).
  assert (∀ p, 0 ≤ p < i_size x → ¬ (off ≤ p < off + Z.of_nat (length bs)) → fbyte c' x' p = fbyte c x p) as Hold.
  { intros p Hp Hno. apply O; [lia| |done]. pose proof (Z.div_mod p BSIZE). pose proof (Z.mod_pos_bound p BSIZE).
    apply (fo_full _ _ _ Hok); [apply Z.div_pos|]; lia. }
  destruct (decide (k < Z.to_nat off)%nat) as [Hk1|Hk1].
  { rewrite lookup_app_l by (rewrite length_take; lia). rewrite lookup_take_lt, lookup_fdata by lia. by rewrite Hold by lia. }
  rewrite lookup_app_r by (rewrite length_take; lia). rewrite length_take, Nat.min_l by lia.
  destruct (decide (k < Z.to_nat off + length bs)%nat) as [Hk2|Hk2].
  - rewrite lookup_app_l by lia. destruct (N (Z.of_nat k - off) ltac:(lia)) as [Hb _].
    replace (off + (Z.of_nat k - off)) with (Z.of_nat k) in Hb by lia. rewrite Hb. unfold nthZ. rewrite nth_lookup.
    replace (Z.to_nat (Z.of_nat k - off)) with (k - Z.to_nat off)%nat by lia.
    destruct (lookup_lt_is_Some_2 bs (k - Z.to_nat off)) as [y ->]; [lia|done].
  - rewrite lookup_app_r, lookup_drop by lia. rewrite Hold by (unfold sz in Hk; lia). rewrite lookup_fdata by (unfold sz in Hk; lia).
    do 2 f_equal. lia.
Qed.

Lemma wrote_file_ok c c' x x' off bs (sz := Z.max (i_size x) (off + Z.of_nat (length bs))) :
  file_ok sb c x → file_ok sb c' x' → wrote sb c c' x x' off bs → 0 ≤ off ≤ i_size x →
  off + Z.of_nat (length bs) ≤ MAXFILE * BSIZE → file_ok sb c' (x' <| i_size := sz |>).
Proof.
  intros Hok [F1 F2 F3 F4 F5] [E O N] Ho Hm. pose proof (fo_size _ _ _ Hok) as Hsz. pose proof BSIZE_eq. pose proof MAXFILE_eq.
  split; [done| |done|done|].
  - simpl. unfold sz. lia.
  - intros bn Hbn Hs. change (faddr c' (x' <| i_size := sz |>) bn) with (faddr c' x' bn). simpl in Hs.
    destruct (decide (bn * BSIZE < i_size x)) as [Hlt|Hge].
    + assert (bn < MAXFILE) by nia. rewrite (extends_faddr sb c c' x x') by (done || lia || by apply (fo_full _ _ _ Hok)).
      by apply (fo_full _ _ _ Hok).
    + destruct (N (bn * BSIZE - off)) as [_ Ha]; [unfold sz in Hs; lia|].
      replace (off + (bn * BSIZE - off)) with (bn * BSIZE) in Ha by lia. by rewrite Z.div_mul in Ha by lia.
Qed.

(** What [writei] of [bs] at [off] achieves: the contents of the file, the inode in
    memory and on disk, the other inodes, the other files. *)
Record written (s s' : kernel) (L' : list Z) (c c' : Z → list Z) (ip : nat) (x x' : inode) (off : Z) (bs : list Z) : Prop := {
  wt_view : fview s' L' c' ip x';
  wt_frame : iframe me s s';
  wt_mach : k_mach s' = k_mach s;
  wt_itable : k_itable s' = alter (λ _, x') ip (k_itable s);
  wt_inode : x' = x <| i_size := Z.max (i_size x) (off + Z.of_nat (length bs)) |> <| i_addrs := i_addrs x' |>;
  wt_data : fdata c' x' = write_data off bs (fdata c x);
  wt_disk : ∀ y, load_dinode (dinode_off (i_inum x)) (c' (IBLOCK (i_inum x) sb)) y = same_dinode x' y;
  wt_inodes : ∀ i y, 0 ≤ i < sb_ninodes sb → i ≠ i_inum x →
    load_dinode (dinode_off i) (c' (IBLOCK i sb)) y = load_dinode (dinode_off i) (c (IBLOCK i sb)) y;
  wt_files : ∀ z, file_ok sb c z → disjoint_files c x z →
    file_ok sb c' z ∧ fdata c' z = fdata c z ∧ disjoint_files c' x' z;
}.

(** Distinct inodes do not overlap. *)
Lemma dinode_apart i j : 0 ≤ i < sb_ninodes sb → 0 ≤ j < sb_ninodes sb → i ≠ j → IBLOCK i sb = IBLOCK j sb →
  dinode_off i + 64 ≤ dinode_off j ∨ dinode_off j + 64 ≤ dinode_off i.
Proof.
  intros Hi Hj Hne E. destruct (inode_block i Hi) as (E1 & _). destruct (inode_block j Hj) as (E2 & _).
  unfold dinode_off. change sizeof_dinode with 64. change IPB with 16 in *.
  pose proof (Z.div_mod i 16). pose proof (Z.div_mod j 16). pose proof (Z.mod_pos_bound i 16). pose proof (Z.mod_pos_bound j 16). lia.
Qed.

(** Extending and then writing the inode. *)
Lemma written_extends c c1 x x1 ib new :
  extends sb c c1 x x1 → file_ok sb c1 x1 → 0 ≤ ib < sb_bmapstart sb →
  ∀ z, file_ok sb c z → disjoint_files c x z →
    file_ok sb (<[ib := new]> c1) z ∧ fdata (<[ib := new]> c1) z = fdata c z ∧ disjoint_files (<[ib := new]> c1) x1 z.
Proof.
  intros E Hx1 Hib z Hz Hd. pose proof (other_file_ok c c1 x x1 z E Hz Hd) as Hz1. split_and!.
  - by apply inode_write_file_ok.
  - rewrite inode_write_fdata by done. by eapply other_fdata.
  - intros j k Hj Hk. rewrite !inode_write_slot by done. by apply (other_disjoint c c1 x x1 z E Hz Hd).
Qed.

(** The size of the inode grows to the end of the write. *)
Lemma grow_size s L c ip x e (x' := x <| i_size := Z.max (i_size x) e |>) :
  fview s L c ip x → file_ok sb c x' →
  ∃ s', when (i_size (inode_at ip s) <? e) (updinode ip (λ x, x <| i_size := e |>)) h s = Ok tt h s' ∧
    fview s' L c ip x' ∧ iframe me s s' ∧ k_itable s' = alter (λ _, x') ip (k_itable s) ∧ k_mach s' = k_mach s.
Proof.
  intros Fv Hok'. pose proof Fv as [T Hsb Hip Hx Hdev Hok Hm]. rewrite Hx. unfold when.
  assert (iframe me s s) as Fr by (split; [by destruct s|apply awake_refl]).
  destruct (Z.ltb_spec (i_size x) e) as [Hlt|Hge].
  - destruct (fview_inode h me start size sb s s L c ip x x' (λ x, x <| i_size := e |>)) as (V & F & It); try done.
    { unfold x'. by rewrite Z.max_r by lia. }
    eexists. split; [reflexivity|]. by split_and!.
  - assert (x' = x) as -> by (unfold x'; rewrite Z.max_l by lia; by destruct x).
    exists s. split_and!; try done. by apply alter_id_itable.
Qed.

Lemma written_wf c x x2 sz :
  dinode_wf x → file_ok sb c x2 → x2 = x <| i_size := sz |> <| i_addrs := i_addrs x2 |> → dinode_wf x2.
Proof.
  intros [W1 W2 W3 W4 _ _ _] Hok E. pose proof MAXFILE_eq. pose proof BSIZE_eq. pose proof (fo_size _ _ _ Hok).
  split; [by rewrite E..|lia| |].
  - eapply Forall_impl; [by eapply file_addrs|]. simpl. lia.
  - apply Hok.
Qed.

(** The inodes after [iupdate]: all others stay. *)
Lemma stored_inodes c c1 x x2 i y (ib := IBLOCK (i_inum x) sb) :
  (∀ b, sb_inodestart sb ≤ b < sb_bmapstart sb → c1 b = c b) → sized c1 → 0 ≤ i_inum x < sb_ninodes sb →
  length (i_addrs x2) = 13%nat → 0 ≤ i < sb_ninodes sb → i ≠ i_inum x →
  load_dinode (dinode_off i) (<[ib := store_dinode (dinode_off (i_inum x)) x2 (c1 ib)]> c1 (IBLOCK i sb)) y =
  load_dinode (dinode_off i) (c (IBLOCK i sb)) y.
Proof.
  intros Hc Hc1 Hx Hl Hi Hne. destruct (inode_block _ Hi) as (_ & Hib & _ & Ho1 & Ho2).
  destruct (inode_block _ Hx) as (_ & _ & _ & Ho3 & Ho4). rewrite <- (Hc (IBLOCK i sb)) by lia.
  destruct (decide (IBLOCK i sb = ib)) as [Eb|Nb].
  - rewrite Eb, fn_lookup_insert. apply load_store_other; [done|done| | |done].
    + rewrite Hc1. lia.
    + apply dinode_apart; done.
  - by rewrite fn_lookup_insert_ne by done.
Qed.

(** Extending a file does not touch inodes. *)
Lemma extends_inodes c c1 x x1 b :
  extends sb c c1 x x1 → file_ok sb c1 x1 → sb_inodestart sb ≤ b < sb_bmapstart sb → c1 b = c b.
Proof.
  intros E Hx1 Hb. pose proof (geom_pos start size sb G). destruct (g_log _ _ _ G) as (? & ? & ?).
  apply (ex_other _ _ _ _ _ E); [lia|]. intros k Hk Hnz. destruct (fo_used _ _ _ Hx1 k Hk Hnz) as [Hr _]. lia.
Qed.

Lemma writei_ok s L c ip x B k src off bs (n := Z.of_nat (length bs)) :
  fview s L c ip x → dinode_wf x → 0 ≤ i_inum x < sb_ninodes sb →
  budget sb B L x → rounds_ok k off n → cost B x + Z.of_nat k + 1 ≤ size - 1 → Z.of_nat k ≤ spare sb c x →
  0 ≤ off ≤ i_size x → off + n ≤ MAXFILE * BSIZE →
  get_chunks h (block_fuel n) (p_pagetable (proc_at me s)) (k_mach s) src off bs →
  ∃ s' L' c' x', writei ip src off n h s = Ok n h s' ∧ written s s' L' c c' ip x x' off bs.
Proof.
  intros Fv W Hi Bu Hk Hcost Hsp Ho Hmax Hg. pose proof (fv_file _ _ _ _ _ _ _ _ _ _ Fv) as Hok.
  pose proof MAXFILE_eq as (? & _). pose proof BSIZE_eq. assert (0 ≤ n) by (unfold n; lia).
  destruct (writei_loop_ok h me start size sb G ip (block_fuel n) k L c x B s src off n 0 bs) as
    (s1 & L1 & c1 & x1 & B1 & E1 & [V1 F1 M1 T1 U1] & Wr & C1); try done; try (rewrite Z.sub_0_r; done); try lia.
  { rewrite Z.sub_0_r. by apply rounds_enough. }
  rewrite Z.sub_0_r in E1. pose proof (fv_file _ _ _ _ _ _ _ _ _ _ V1) as Hok1.
  pose proof (wr_extends _ _ _ _ _ _ _ Wr) as Ex. pose proof (ex_x _ _ _ _ _ Ex) as Ex1.
  pose proof (wrote_file_ok c c1 x x1 off bs Hok Hok1 Wr Ho Hmax) as Hok2. cbv zeta in Hok2. fold n in Hok2.
  assert (i_size x1 = i_size x) as Es by (by rewrite Ex1). rewrite <- Es in Hok2.
  destruct (grow_size s1 L1 c1 ip x1 (off + n) V1 Hok2) as (s2 & E2 & V2 & F2 & T2 & M2). rewrite Es in V2, T2, Hok2.
  set (x2 := x1 <| i_size := Z.max (i_size x) (off + n) |>) in *.
  assert (x2 = x <| i_size := Z.max (i_size x) (off + n) |> <| i_addrs := i_addrs x2 |>) as Ex2
    by (unfold x2; rewrite Ex1; by destruct x).
  assert (i_inum x2 = i_inum x) as Ei by (by rewrite Ex2).
  pose proof (written_wf c1 x x2 _ W Hok2 Ex2) as W2.
  destruct (iupdate_ok s2 L1 c1 ip x2) as (s3 & E3 & V3 & F3 & T3 & M3); [done|done|by rewrite Ei| |].
  { pose proof (tx_sub_len h me start size _ _ _ _ _ (fv_tx _ _ _ _ _ _ _ _ _ _ V1) (bu_log _ _ _ _ U1)).
    unfold cost in C1. destruct (ind_block x1 =? 0); lia. }
  rewrite Ei in V3. destruct (inode_block _ Hi) as (_ & Hib & _ & Ho1 & Ho2). pose proof (tx_sized h me start size _ _ _ _ (fv_tx _ _ _ _ _ _ _ _ _ _ V1)) as Hc1.
  destruct (g_log _ _ _ G) as (? & ? & ?). eexists s3, _, _, x2. split.
  - unfold writei. rewrite bind_getinode, (fv_inode _ _ _ _ _ _ _ _ _ _ Fv), u32_small by lia.
    rewrite (proj2 (Z.ltb_ge (i_size x) off)), (proj2 (Z.ltb_ge (off + n) off)), (proj2 (Z.ltb_ge (MAXFILE * BSIZE) _)) by lia.
    cbn [orb]. erewrite bind_Ok by exact E1. cbv beta iota. rewrite bind_getinode. erewrite bind_Ok by exact E2.
    erewrite bind_Ok by exact E3. unfold mret. cbv beta. by rewrite i32_small by lia.
  - split.
    + done.
    + eapply iframe_trans; [done|]. by eapply iframe_trans.
    + congruence.
    + by rewrite T3, T2, T1, alter_alter.
    + done.
    + rewrite inode_write_fdata by (done || lia). by apply wrote_fdata.
    + intros y. rewrite fn_lookup_insert. apply load_store_dinode; [done|rewrite Hc1; lia|done].
    + intros i y Hir Hne. apply (stored_inodes c c1 x x2); try done; [|apply W2]. intros b Hb. by eapply extends_inodes.
    + apply (written_extends c c1 x x1); done || lia.
Qed.
End Inode.
