(* ===== verification/FsTrunc.v ===== *)
(** * Truncating a file (kernel/fs.c)

    [bfree] returns a block to the free map; [itrunc] returns all blocks of a file, each
    once, and no other. *)

From stdpp Require Import functions.
From S2P Require Import Prelude CString Riscv Kalloc Vm Kernel Sched Sleeplock Bytes Bio BioList BioSpec Log.
From S2P Require Import LogSpec LogOps Uart Printf Access Fs FsSpec FsFile FsData FsInode.

Section Trunc.
Context {Pat : Patience} (h : list lockid) (me : nat) (start size : Z) (sb : superblock) (G : geom start size sb).
Abbreviation tx := (tx h me start size).
Abbreviation fview := (fview h me start size sb).

(** The blocks [F] have been freed. *)
Record freed (c c' : Z → list Z) (F : list Z) : Prop := {
  fd_bits : ∀ y, 0 ≤ y < sb_size sb → bbit c' sb y = negb (bool_decide (y ∈ F)) && bbit c sb y;
  fd_same : ∀ y, 0 ≤ y < sb_bmapstart sb ∨ nmeta sb ≤ y → c' y = c y;
}.

Lemma freed_nil c : freed c c [].
Proof. split; [|done]. intros y _. by rewrite bool_decide_false by apply not_elem_of_nil. Qed.

Lemma freed_app c1 c2 c3 F1 F2 : freed c1 c2 F1 → freed c2 c3 F2 → freed c1 c3 (F1 ++ F2).
Proof.
  intros [B1 S1] [B2 S2]. split.
  - intros y Hy. rewrite B2, B1 by done. rewrite andb_assoc, <- negb_orb. f_equal. f_equal.
    rewrite <- bool_decide_or. apply bool_decide_ext. rewrite elem_of_app. tauto.
  - intros y Hy. by rewrite S2, S1.
Qed.

(** Distinct data blocks that are in use. *)
Definition used (c : Z → list Z) (F : list Z) : Prop :=
  NoDup F ∧ ∀ b, b ∈ F → nmeta sb ≤ b < sb_size sb ∧ bbit c sb b = true.

Lemma used_cons c c' b F : used c (b :: F) → freed c c' [b] → used c' F.
Proof.
  intros [[Hb HN]%NoDup_cons Hu] [Hf _]. split; [done|]. intros y Hy. destruct (Hu y ltac:(by right)) as [Hr E].
  pose proof (geom_pos start size sb G). split; [done|]. rewrite Hf by lia. rewrite E, bool_decide_false; [done|].
  intros ->%list_elem_of_singleton. done.
Qed.

Lemma used_app c c' F1 F2 : used c (F1 ++ F2) → freed c c' F1 → used c' F2.
Proof.
  intros [(_ & Hd & HN)%NoDup_app Hu] [Hf _]. split; [done|]. intros y Hy.
  destruct (Hu y) as [Hr E]; [apply elem_of_app; by right|].
  pose proof (geom_pos start size sb G). split; [done|]. rewrite Hf by lia. rewrite E, bool_decide_false; [done|].
  intros Hy'. by apply (Hd y).
Qed.

(** The free map can be logged within [B]. *)
Definition room (B L : list Z) : Prop :=
  L ⊆ B ∧ (∀ b, 0 ≤ b < sb_size sb → BBLOCK b sb ∈ B) ∧ Z.of_nat (length B) + 1 ≤ size - 1.

Lemma bfree_bit s L H c B b :
  tx s L H c → k_sb s = sb → room B L → (length H ≤ 1)%nat → (∀ y, y ∈ H.*2 → nmeta sb ≤ y) → 0 ≤ b < sb_size sb →
  if bbit c sb b then
    ∃ s' L' c', bfree ROOTDEV b h s = Ok tt h s' ∧ tx s' L' H c' ∧ lframe me s s' ∧ room B L' ∧ freed c c' [b]
  else bfree ROOTDEV b h s = Panic "freeing free block".
Proof.
  intros T Hsb (HL & Hmap & HB) HH Hn Hb. pose proof (tx_sized h me start size _ _ _ _ T) as Hc.
  pose proof HEAD_eq as [? ?]. destruct (g_log _ _ _ G) as (? & ? & ?). pose proof (tx_sub_len h me start size _ _ _ _ _ T HL).
  destruct (bblock_eq start size sb G b Hb) as (_ & Hbb & Hlg). pose proof (Hmap b Hb) as HbB. set (bb := BBLOCK b sb) in *.
  destruct (tx_bread h me start size s L H c bb T) as (i & s1 & E1 & T1 & F1); [intros Hx%Hn; lia|lia|].
  assert (∀ A (k : nat → KM A), (sb' ← gets k_sb; bp ← bread ROOTDEV (BBLOCK b sb'); k bp) h s = k i h s1) as Hrun.
  { intros A k. rewrite bind_gets, Hsb. by erewrite bind_Ok by exact E1. }
  unfold bfree. rewrite Hrun. cbv zeta. rewrite bind_getbuf, (tx_data h me start size _ _ _ _ _ _ T1 ltac:(by left)).
  change (bit_at (c bb) (b mod BPB)) with (bbit c sb b). destruct (bbit c sb b) eqn:Eb; cbn [negb]; [|done].
  destruct (tx_write h me start size s1 L ((i, bb) :: H) c i bb (clear_bit (b mod BPB)) T1) as (s2 & s3 & E2 & E3 & T3 & F3);
    [by left|done| |lia|].
  { unfold clear_bit. rewrite length_alter. apply Hc. }
  destruct (tx_brelse h me start size s3 _ _ _ _ _ T3) as (s4 & E4 & T4 & F4).
  eexists s4, _, _. split_and!; [|done|lframes| |].
  - erewrite bind_Ok by exact E2. by erewrite bind_Ok by exact E3.
  - split_and!; [by apply (logged_sub start size sb G)|done|done].
  - split.
    + intros y Hy. unfold bb. rewrite (bbit_clear start size sb G) by done. f_equal. f_equal. apply bool_decide_ext.
      by rewrite list_elem_of_singleton.
    + intros y Hy. rewrite fn_lookup_insert_ne; [done|lia].
Qed.

Lemma bfree_used s L H c B b :
  tx s L H c → k_sb s = sb → room B L → (length H ≤ 1)%nat → (∀ y, y ∈ H.*2 → nmeta sb ≤ y) → used c [b] →
  ∃ s' L' c', bfree ROOTDEV b h s = Ok tt h s' ∧ tx s' L' H c' ∧ lframe me s s' ∧ room B L' ∧ freed c c' [b].
Proof.
  intros T Hsb Hr HH Hn [_ Hu]. destruct (Hu b ltac:(by left)) as [Hb E]. pose proof (geom_pos start size sb G).
  pose proof (bfree_bit s L H c B b T Hsb Hr HH Hn ltac:(lia)) as P. by rewrite E in P.
Qed.

(** ** itrunc *)

(** The block numbers among [l]. *)
Definition nonzero (l : list Z) : list Z := filter (λ b, b ≠ 0) l.

Lemma itrunc_indirect_ok bp a B ks : ∀ s L c,
  tx s L [(bp, a)] c → k_sb s = sb → room B L → nmeta sb ≤ a →
  let F := nonzero ((λ k, get32 (4 * Z.of_nat k) (c a)) <$> ks) in
  used c F →
  ∃ s' L' c', itrunc_indirect ks ROOTDEV bp h s = Ok tt h s' ∧ tx s' L' [(bp, a)] c' ∧ lframe me s s' ∧ room B L' ∧ freed c c' F.
Proof.
  induction ks as [|k ks IH]; intros s L c T Hsb Hr Ha F Hu.
  { exists s, L, c. split_and!; try done. apply bframe_lframe, bframe_refl. }
  cbn [itrunc_indirect]. rewrite bind_getbuf, (tx_data h me start size _ _ _ _ _ _ T ltac:(by left)). cbv zeta.
  unfold F, nonzero in Hu |- *. rewrite fmap_cons, filter_cons in Hu |- *. set (b := get32 (4 * Z.of_nat k) (c a)) in *.
  destruct (Z.eqb_spec b 0) as [E0|E0]; cbn [negb when].
  - rewrite decide_False in Hu |- * by tauto. exact (IH s L c T Hsb Hr Ha Hu).
  - rewrite decide_True in Hu |- * by done. fold (nonzero ((λ k, get32 (4 * Z.of_nat k) (c a)) <$> ks)) in Hu |- *.
    destruct (bfree_used s L [(bp, a)] c B b) as (s1 & L1 & c1 & E1 & T1 & F1 & R1 & D1); try done.
    { intros y ->%list_elem_of_singleton. done. }
    { destruct Hu as [_ Hu]. split; [apply NoDup_singleton|]. intros y ->%list_elem_of_singleton. apply Hu. by left. }
    assert (c1 a = c a) as Eca by (apply (fd_same _ _ _ D1); by right).
    destruct (IH s1 L1 c1) as (s2 & L2 & c2 & E2 & T2 & F2 & R2 & D2); try done.
    { destruct (lframe_iframe me _ _ F1) as (IF & _). by rewrite (iframe_sb me _ _ IF). }
    { rewrite Eca. by eapply used_cons. }
    exists s2, L2, c2. split_and!; [by erewrite bind_Ok by exact E1|done|lframes|done|]. rewrite Eca in D2.
    by apply (freed_app c c1 c2 [b]).
Qed.

(** The inode with the entries [ks] cleared. *)
Definition cleared (ks : list nat) (l : list Z) : list Z := foldl (λ l k, <[k := 0]> l) l ks.

(** What holds of the inode while its blocks are being freed. *)
Record tview (s : kernel) (L : list Z) (c : Z → list Z) (ip : nat) (x : inode) : Prop := {
  tv_tx : tx s L [] c;
  tv_sb : k_sb s = sb;
  tv_ip : (ip < length (k_itable s))%nat;
  tv_inode : inode_at ip s = x;
  tv_dev : i_dev x = ROOTDEV;
}.

Lemma tview_upd s0 L0 c0 s L c ip x f :
  tview s0 L0 c0 ip x → tx s L [] c → lframe me s0 s → i_dev (f x) = ROOTDEV →
  let s' := s <| k_itable ::= alter f ip |> in
  tview s' L c ip (f x) ∧ iframe me s0 s' ∧ k_mach s' = k_mach s0 ∧ k_itable s' = alter (λ _, f x) ip (k_itable s0).
Proof.
  intros [T0 Hsb Hip Hx Hdev] T F Hd s'.
  destruct (lframe_iframe me s0 s F) as (IF & It & Im).
  assert (k_itable s' = alter (λ _, f x) ip (k_itable s0)) as Et.
  { unfold s'. simpl. rewrite It. apply list_eq. intros j. destruct (decide (ip = j)) as [<-|]; [|by rewrite !list_lookup_alter_ne].
    rewrite !list_lookup_alter_eq. unfold inode_at in Hx. destruct (k_itable s0 !! ip); simpl in *; congruence. }
  split_and!; [|eapply iframe_trans; [exact IF|apply iframe_itable]|done|done]. split.
  - by apply tx_itable.
  - change (k_sb s = sb). by rewrite (iframe_sb me _ _ IF).
  - rewrite Et, length_alter. done.
  - unfold inode_at. rewrite Et, list_lookup_alter_eq. destruct (lookup_lt_is_Some_2 _ _ Hip) as [z ->]. done.
  - done.
Qed.

(** A part of [itrunc] has freed the blocks [F]. *)
Record tstep (s s' : kernel) (L' : list Z) (c c' : Z → list Z) (ip : nat) (x' : inode) (B F : list Z) : Prop := {
  ts_view : tview s' L' c' ip x';
  ts_room : room B L';
  ts_frame : iframe me s s';
  ts_mach : k_mach s' = k_mach s;
  ts_itable : k_itable s' = alter (λ _, x') ip (k_itable s);
  ts_freed : freed c c' F;
}.

Lemma tstep_refl s L c ip x B : tview s L c ip x → room B L → tstep s s L c c ip x B [].
Proof.
  intros V R. pose proof V as [T Hsb Hip Hx Hdev]. split; try done; [|by apply alter_id_itable].
  split; [by destruct s|apply awake_refl].
Qed.

Lemma tstep_trans s1 s2 s3 L2 L3 c1 c2 c3 ip x2 x3 B F1 F2 :
  tstep s1 s2 L2 c1 c2 ip x2 B F1 → tstep s2 s3 L3 c2 c3 ip x3 B F2 → tstep s1 s3 L3 c1 c3 ip x3 B (F1 ++ F2).
Proof.
  intros [V1 R1 I1 M1 T1 D1] [V2 R2 I2 M2 T2 D2]. split; try done.
  - by eapply iframe_trans.
  - congruence.
  - by rewrite T2, T1, alter_alter.
  - by eapply freed_app.
Qed.

Lemma nthZ_insert_ne l (k : nat) v j : j ≠ Z.of_nat k → 0 ≤ j → nthZ (<[k := v]> l) j = nthZ l j.
Proof. intros Hne Hj. unfold nthZ. rewrite !nth_lookup, list_lookup_insert_ne by lia. done. Qed.

Lemma itrunc_direct_ok ip B ks : NoDup ks → ∀ s L c x,
  tview s L c ip x → room B L →
  let F := nonzero ((λ k, nthZ (i_addrs x) (Z.of_nat k)) <$> ks) in
  used c F → Forall (λ k, (k < length (i_addrs x))%nat) ks →
  ∃ s' L' c', itrunc_direct ks ip h s = Ok tt h s' ∧
    tstep s s' L' c c' ip (x <| i_addrs := cleared ks (i_addrs x) |>) B F.
Proof.
  induction 1 as [|k ks Hk HN IH]; intros s L c x V R F Hu Hlen.
  { exists s, L, c. split; [done|]. replace (x <| i_addrs := cleared [] (i_addrs x) |>) with x by (by destruct x). by apply tstep_refl. }
  apply Forall_cons in Hlen as [Hlk Hlen]. pose proof V as [T Hsb Hip Hx Hdev].
  cbn [itrunc_direct]. rewrite bind_getinode, Hx.
  unfold F, nonzero in Hu |- *. rewrite fmap_cons, filter_cons in Hu |- *. set (b := nthZ (i_addrs x) (Z.of_nat k)) in *.
  change (cleared (k :: ks) (i_addrs x)) with (cleared ks (<[k := 0]> (i_addrs x))).
  destruct (Z.eqb_spec b 0) as [E0|E0]; cbn [negb when].
  - rewrite decide_False in Hu |- * by tauto. rewrite list_insert_id.
    + exact (IH s L c x V R Hu Hlen).
    + unfold b, nthZ in E0. rewrite Nat2Z.id, nth_lookup in E0. destruct (lookup_lt_is_Some_2 _ _ Hlk) as [y Hy]. by rewrite Hy in E0 |- *; simpl in E0; subst.
  - rewrite decide_True in Hu |- * by done. fold (nonzero ((λ k, nthZ (i_addrs x) (Z.of_nat k)) <$> ks)) in Hu |- *.
    destruct (bfree_used s L [] c B b) as (s1 & L1 & c1 & E1 & T1 & F1 & R1 & D1); try done.
    { simpl. lia. }
    { intros y Hy. by apply not_elem_of_nil in Hy. }
    { destruct Hu as [_ Hu]. split; [apply NoDup_singleton|]. intros y ->%list_elem_of_singleton. apply Hu. by left. }
    pose (f := λ x : inode, x <| i_addrs ::= <[k := 0]> |>).
    destruct (tview_upd s L c s1 L1 c1 ip x f V T1 F1 Hdev) as (V1 & I1 & M1 & It1).
    set (s1' := s1 <| k_itable ::= _ |>) in *. pose (x1 := f x). change (tview s1' L1 c1 ip x1) in V1.
    assert ((λ k, nthZ (i_addrs x1) (Z.of_nat k)) <$> ks = (λ k, nthZ (i_addrs x) (Z.of_nat k)) <$> ks) as Ef.
    { apply list_fmap_ext. intros i y Hy. change (i_addrs x1) with (<[k := 0]> (i_addrs x)). apply nthZ_insert_ne; [|lia]. intros ->%Nat2Z.inj. by apply list_elem_of_lookup_2 in Hy. }
    destruct (IH s1' L1 c1 x1) as (s2 & L2 & c2 & E2 & S2); try done.
    { cbv zeta. rewrite Ef. by eapply used_cons. }
    { unfold x1. simpl. by rewrite length_insert. }
    rewrite Ef in S2. exists s2, L2, c2. split.
    + rewrite bind_assoc. rewrite Hdev. erewrite bind_Ok by exact E1. by rewrite bind_updinode.
    + apply (tstep_trans s s1' s2 L1 L2 c c1 c2 ip x1 _ B [b]); [by split|done].
Qed.

(** All blocks of a file. *)
Definition file_blocks (c : Z → list Z) (x : inode) : list Z := nonzero ((λ k, slot c x (Z.of_nat k)) <$> seq 0 269).

Lemma elem_of_file_blocks c x y : y ∈ file_blocks c x ↔ y ≠ 0 ∧ ∃ k, 0 ≤ k ≤ MAXFILE ∧ slot c x k = y.
Proof.
  unfold file_blocks, nonzero. rewrite list_elem_of_filter, list_elem_of_fmap. apply and_iff_compat_l. pose proof MAXFILE_eq as (? & _).
  split.
  - intros (k & -> & Hk%elem_of_seq). exists (Z.of_nat k). split; [lia|done].
  - intros (k & Hk & <-). exists (Z.to_nat k). rewrite Z2Nat.id by lia. split; [done|]. apply elem_of_seq. lia.
Qed.

Lemma NoDup_nonzero (f : nat → Z) ks :
  NoDup ks → (∀ j k, j ∈ ks → k ∈ ks → f j ≠ 0 → f j = f k → j = k) → NoDup (nonzero (f <$> ks)).
Proof.
  intros HN Hf. unfold nonzero. induction HN as [|k ks Hk HN IH]; [constructor|]. rewrite fmap_cons, filter_cons.
  assert (NoDup (filter (λ b : Z, b ≠ 0) (f <$> ks))) as HN' by (apply IH; intros i j Hi Hj; apply Hf; by right).
  case_decide as E; [|done]. constructor; [|done]. intros [_ Hin]%list_elem_of_filter. apply list_elem_of_fmap in Hin as (j & Hj & Hin).
  assert (k = j) as -> by (apply Hf; [by left|by right|done|done]). done.
Qed.

Lemma file_blocks_used c x : file_ok sb c x → used c (file_blocks c x).
Proof.
  intros Hok. pose proof MAXFILE_eq as (? & _). split.
  - apply NoDup_nonzero; [apply NoDup_seq|]. intros j k Hj%elem_of_seq Hk%elem_of_seq Hnz E.
    apply Nat2Z.inj. apply (fo_inj _ _ _ Hok); [lia|lia|done|done].
  - intros b [Hnz (k & Hk & <-)]%elem_of_file_blocks. by apply (fo_used _ _ _ Hok).
Qed.

(** The order in which [itrunc] frees them. *)
Definition direct_blocks (x : inode) : list Z := nonzero ((λ k, nthZ (i_addrs x) (Z.of_nat k)) <$> seq 0 12).
Definition indirect_blocks (c : Z → list Z) (x : inode) : list Z :=
  if ind_block x =? 0 then []
  else nonzero ((λ k, get32 (4 * Z.of_nat k) (c (ind_block x))) <$> seq 0 256) ++ [ind_block x].

Lemma file_blocks_split c x : file_blocks c x = direct_blocks x ++ indirect_blocks c x.
Proof.
  pose proof MAXFILE_eq as (? & ? & ?). unfold file_blocks, direct_blocks, indirect_blocks.
  assert (seq 0 269 = seq 0 12 ++ ((λ k, 12 + k)%nat <$> seq 0 256) ++ [268%nat]) as -> by (by vm_compute).
  rewrite !fmap_app. unfold nonzero. rewrite !filter_app. apply (f_equal2 app).
  { apply f_equal. apply list_fmap_ext. intros i k [-> Hk]%lookup_seq. rewrite slot_data by lia. unfold faddr.
    by rewrite (proj2 (Z.ltb_lt _ _)) by lia. }
  rewrite <- list_fmap_compose.
  assert ((λ k, slot c x (Z.of_nat k)) ∘ (λ k, 12 + k)%nat <$> seq 0 256 =
    (λ k, if ind_block x =? 0 then 0 else get32 (4 * Z.of_nat k) (c (ind_block x))) <$> seq 0 256) as ->.
  { apply list_fmap_ext. intros i k [-> Hk]%lookup_seq. unfold compose. rewrite slot_data by lia. unfold faddr.
    rewrite (proj2 (Z.ltb_ge _ _)) by lia. destruct (ind_block x =? 0); [done|]. f_equal. lia. }
  cbn [fmap list_fmap]. change (Z.of_nat 268) with MAXFILE. rewrite slot_ind, filter_cons. destruct (Z.eqb_spec (ind_block x) 0) as [E|E].
  - rewrite decide_False by tauto. by vm_compute.
  - by rewrite decide_True by done.
Qed.

(** A file without blocks. *)
Lemma zero_file_ok c x : i_addrs x = replicate 13 0 → i_size x = 0 → file_ok sb c x.
Proof.
  intros Ea Es. assert (∀ k, nthZ (i_addrs x) k = 0) as Hn.
  { intros k. rewrite Ea. unfold nthZ. rewrite nth_lookup. destruct (replicate 13 0 !! Z.to_nat k) eqn:E; [|done].
    apply lookup_replicate in E as [-> _]. done. }
  assert (∀ k, slot c x k = 0) as Hs.
  { intros k. unfold slot, faddr, ind_block. rewrite !Hn. by destruct (k =? MAXFILE), (k <? NDIRECT). }
  pose proof MAXFILE_eq. pose proof BSIZE_eq. split.
  - by rewrite Ea.
  - lia.
  - intros k _ Hk. by rewrite Hs in Hk.
  - intros j k _ _ Hj. by rewrite Hs in Hj.
  - intros bn. nia.
Qed.

Lemma cleared_all l : length l = 13%nat → <[12%nat := 0]> (cleared (seq 0 12) l) = replicate 13 0.
Proof. intros Hl. do 13 (destruct l as [|? l]; [done|]). by destruct l. Qed.

Lemma length_cleared ks l : length (cleared ks l) = length l.
Proof. unfold cleared. revert l. induction ks as [|k ks IH]; intros l; [done|]. simpl. by rewrite IH, length_insert. Qed.

Lemma cleared_ind l : nthZ (cleared (seq 0 12) l) NDIRECT = nthZ l NDIRECT.
Proof.
  unfold nthZ. change (Z.to_nat NDIRECT) with 12%nat. rewrite !nth_lookup. unfold cleared. cbn [seq foldl].
  by rewrite !list_lookup_insert_ne by lia.
Qed.

(** The part of [itrunc] for the indirect block. *)
Lemma itrunc_ind_ok s L c ip x B (a := ind_block x) :
  tview s L c ip x → room B L → length (i_addrs x) = 13%nat → used c (indirect_blocks c x) →
  ∃ s' L' c',
    when (negb (a =? 0))
      (bp ← bread (i_dev x) a;
       itrunc_indirect (seq 0 (Z.to_nat NINDIRECT)) (i_dev x) bp;;
       brelse bp;;
       bfree (i_dev x) a;;
       updinode ip (λ x, x <| i_addrs ::= <[Z.to_nat NDIRECT := 0]> |>)) h s = Ok tt h s' ∧
    tstep s s' L' c c' ip (x <| i_addrs := <[12%nat := 0]> (i_addrs x) |>) B (indirect_blocks c x).
Proof.
  intros V R Hl Hu. pose proof V as [T Hsb Hip Hx Hdev]. unfold indirect_blocks in *. fold a in Hu |- *.
  pose proof (tx_sub_len h me start size _ _ _ _ _ T (proj1 R)) as HLB. pose proof HEAD_eq as [? ?]. destruct (g_log _ _ _ G) as (_ & ? & _).
  destruct R as (HL & Hmap & HB). assert (room B L) as R by done.
  destruct (Z.eqb_spec a 0) as [E0|E0]; cbn [negb when].
  { exists s, L, c. split; [done|]. rewrite list_insert_id; [replace (x <| i_addrs := i_addrs x |>) with x by (by destruct x); by apply tstep_refl|].
    unfold a, ind_block, nthZ in E0. change (Z.to_nat NDIRECT) with 12%nat in E0. rewrite nth_lookup in E0.
    destruct (lookup_lt_is_Some_2 (i_addrs x) 12) as [y Hy]; [lia|]. by rewrite Hy in E0 |- *; simpl in E0; subst. }
  assert (nmeta sb ≤ a) as Ha by (apply Hu, elem_of_app; right; by left).
  destruct (tx_bread h me start size s L [] c a T) as (bp & s1 & E1 & T1 & F1); [apply not_elem_of_nil|simpl; lia|].
  assert (k_sb s1 = sb) as Hsb1 by (destruct (lframe_iframe me _ _ F1) as (IF & _); by rewrite (iframe_sb me _ _ IF)).
  destruct (itrunc_indirect_ok bp a B (seq 0 256) s1 L c T1 Hsb1 R Ha) as (s2 & L2 & c2 & E2 & T2 & F2 & R2 & D2).
  { destruct Hu as [(HN & _)%NoDup_app Hu]. split; [done|]. intros b Hb. apply Hu, elem_of_app. by left. }
  destruct (tx_brelse h me start size s2 _ _ _ _ _ T2) as (s3 & E3 & T3 & F3).
  assert (lframe me s s3) as F03 by lframes.
  assert (k_sb s3 = sb) as Hsb3 by (destruct (lframe_iframe me _ _ F03) as (IF & _); by rewrite (iframe_sb me _ _ IF)).
  destruct (bfree_used s3 L2 [] c2 B a) as (s4 & L4 & c4 & E4 & T4 & F4 & R4 & D4); try done.
  { simpl. lia. }
  { intros y Hy. by apply not_elem_of_nil in Hy. }
  { by eapply used_app. }
  pose (f := λ x : inode, x <| i_addrs ::= <[12%nat := 0]> |>).
  destruct (tview_upd s L c s4 L4 c4 ip x f V T4 ltac:(lframes) Hdev) as (V4 & I4 & M4 & It4).
  eexists _, L4, c4. split; [|split; [exact V4|done|exact I4|done|done|by eapply freed_app]].
  rewrite Hdev. change (Z.to_nat NINDIRECT) with 256%nat. erewrite bind_Ok by exact E1. erewrite bind_Ok by exact E2.
  erewrite bind_Ok by exact E3. by erewrite bind_Ok by exact E4.
Qed.

(** Freeing the blocks of [x] leaves the files that share no block with it alone. *)
Section Freed.
Context (c c' : Z → list Z) (x z : inode).
Context (D : freed c c' (file_blocks c x)) (Hz : file_ok sb c z) (Hd : disjoint_files c x z).

Lemma freed_slot k : slot c' z k = slot c z k.
Proof.
  unfold slot. destruct (k =? MAXFILE); [done|]. unfold faddr. destruct (k <? NDIRECT); [done|].
  destruct (Z.eqb_spec (ind_block z) 0) as [|Hne]; [done|]. rewrite (fd_same _ _ _ D); [done|]. right.
  rewrite <- (slot_ind c z) in *. apply (fo_used _ _ _ Hz); [|done]. pose proof MAXFILE_eq. lia.
Qed.

Lemma freed_file_ok : file_ok sb c' z.
Proof.
  pose proof Hz as [F1 F2 F3 F4 F5]. pose proof (geom_pos start size sb G). pose proof MAXFILE_eq. pose proof BSIZE_eq. split.
  - done.
  - done.
  - intros k Hk. rewrite freed_slot. intros Hnz. destruct (F3 k Hk Hnz) as [Hr Hu]. split; [done|].
    rewrite (fd_bits _ _ _ D) by lia. rewrite Hu, bool_decide_false; [done|]. intros (_ & j & Hj & E)%elem_of_file_blocks.
    apply (Hd j k); congruence || done.
  - intros j k Hj Hk. rewrite !freed_slot. by apply F4.
  - intros k Hk Hs. rewrite <- slot_data by nia. rewrite freed_slot, slot_data by nia. by apply F5.
Qed.

Lemma freed_fdata : fdata c' z = fdata c z.
Proof.
  unfold fdata. apply list_fmap_ext. intros i p Hp. apply lookup_seq in Hp as [-> Hp]. simpl.
  pose proof (fo_size _ _ _ Hz). pose proof BSIZE_eq. pose proof (file_pos (Z.of_nat i) ltac:(lia)) as Hk.
  pose proof (Z.div_mod (Z.of_nat i) BSIZE). pose proof (Z.mod_pos_bound (Z.of_nat i) BSIZE).
  pose proof (fo_full _ _ _ Hz (Z.of_nat i / BSIZE) ltac:(lia) ltac:(lia)) as Ha.
  unfold fbyte. rewrite <- !slot_data in * by lia. rewrite freed_slot. rewrite (fd_same _ _ _ D); [done|]. right.
  by apply (fo_used _ _ _ Hz); [lia|].
Qed.
End Freed.

(** What [itrunc] achieves. *)
Record truncated (s s' : kernel) (L' : list Z) (c c' : Z → list Z) (ip : nat) (x x' : inode) : Prop := {
  tr_view : fview s' L' c' ip x';
  tr_frame : iframe me s s';
  tr_mach : k_mach s' = k_mach s;
  tr_itable : k_itable s' = alter (λ _, x') ip (k_itable s);
  tr_bits : ∀ b, 0 ≤ b < sb_size sb → bbit c' sb b = negb (bool_decide (b ∈ file_blocks c x)) && bbit c sb b;
  tr_disk : ∀ y, load_dinode (dinode_off (i_inum x)) (c' (IBLOCK (i_inum x) sb)) y = same_dinode x' y;
  tr_inodes : ∀ i y, 0 ≤ i < sb_ninodes sb → i ≠ i_inum x →
    load_dinode (dinode_off i) (c' (IBLOCK i sb)) y = load_dinode (dinode_off i) (c (IBLOCK i sb)) y;
  tr_files : ∀ z, file_ok sb c z → disjoint_files c x z → file_ok sb c' z ∧ fdata c' z = fdata c z;
}.

Lemma freed_meta c c' F : freed c c' F → used c F → meta_used sb c → meta_used sb c'.
Proof.
  intros D [_ Hu] Hm b Hb. destruct G. rewrite (fd_bits _ _ _ D), Hm by lia. rewrite bool_decide_false; [done|].
  intros Hin%Hu. lia.
Qed.

(** The loops and the size, before [iupdate]. *)
Lemma itrunc_blocks s L c ip x B (x' := x <| i_size := 0 |> <| i_addrs := replicate 13 0 |>) :
  fview s L c ip x → room B L → ∃ s' L' c',
    (∀ k : KM unit, (itrunc_direct (seq 0 (Z.to_nat NDIRECT)) ip;;
     x ← getinode ip;
     let a := nthZ (i_addrs x) NDIRECT in
     when (negb (a =? 0))
       (bp ← bread (i_dev x) a;
        itrunc_indirect (seq 0 (Z.to_nat NINDIRECT)) (i_dev x) bp;;
        brelse bp;;
        bfree (i_dev x) a;;
        updinode ip (λ x, x <| i_addrs ::= <[Z.to_nat NDIRECT := 0]> |>));;
     updinode ip (λ x, x <| i_size := 0 |>);; k) h s = k h s') ∧
    tstep s s' L' c c' ip x' B (file_blocks c x).
Proof.
  intros Fv R. pose proof Fv as [T Hsb Hip Hx Hdev Hok Hm]. assert (tview s L c ip x) as V by done.
  pose proof (fo_len _ _ _ Hok) as Hl. change (Z.to_nat (NDIRECT + 1)) with 13%nat in Hl.
  pose proof (file_blocks_used c x Hok) as Hu. rewrite file_blocks_split in Hu |- *.
  change (Z.to_nat NDIRECT) with 12%nat. change NDIRECT with 12.
  destruct (itrunc_direct_ok ip B (seq 0 12) (NoDup_seq 0 12) s L c x V R) as (s1 & L1 & c1 & E1 & S1).
  { destruct Hu as [(HN & _)%NoDup_app Hu]. split; [done|]. intros b Hb. apply Hu, elem_of_app. by left. }
  { apply Forall_forall. intros k Hk%elem_of_seq. lia. }
  fold (direct_blocks x) in S1. set (x1 := x <| i_addrs := cleared (seq 0 12) (i_addrs x) |>) in *.
  assert (length (i_addrs x1) = 13%nat) as Hl1 by (rewrite <- Hl; apply length_cleared).
  assert (ind_block x1 = ind_block x) as Ei by apply cleared_ind.
  assert (indirect_blocks c1 x1 = indirect_blocks c x) as Eb.
  { unfold indirect_blocks. rewrite Ei. destruct (Z.eqb_spec (ind_block x) 0) as [|Hne]; [done|].
    rewrite (fd_same _ _ _ (ts_freed _ _ _ _ _ _ _ _ _ S1)); [done|]. right. rewrite <- (slot_ind c x) in *.
    apply (fo_used _ _ _ Hok); [|done]. pose proof MAXFILE_eq. lia. }
  destruct (itrunc_ind_ok s1 L1 c1 ip x1 B (ts_view _ _ _ _ _ _ _ _ _ S1) (ts_room _ _ _ _ _ _ _ _ _ S1) Hl1) as (s2 & L2 & c2 & E2 & S2).
  { rewrite Eb. eapply used_app; [exact Hu|apply S1]. }
  rewrite Eb in S2. set (x2 := x1 <| i_addrs := <[12%nat := 0]> (i_addrs x1) |>) in *.
  pose (f := λ x : inode, x <| i_size := 0 |>). pose proof (ts_view _ _ _ _ _ _ _ _ _ S2) as V2.
  destruct (tview_upd s2 L2 c2 s2 L2 c2 ip x2 f V2 (tv_tx _ _ _ _ _ V2)) as (V3 & I3 & M3 & It3); [apply bframe_lframe, bframe_refl|done|].
  eexists _, L2, c2. split.
  - intros k. erewrite bind_Ok by exact E1. rewrite bind_getinode, (tv_inode _ _ _ _ _ (ts_view _ _ _ _ _ _ _ _ _ S1)). cbv zeta.
    erewrite bind_Ok by exact E2. reflexivity.
  - rewrite <- (app_nil_r (_ ++ _)). eapply tstep_trans; [by eapply tstep_trans|].
    replace x' with (f x2); [split; try done; apply S2|].
    unfold f, x2, x1, x'. cbn [i_addrs upd_field]. by rewrite (cleared_all _ Hl).
Qed.

Lemma itrunc_ok s L c ip x B :
  fview s L c ip x → dinode_wf x → 0 ≤ i_inum x < sb_ninodes sb → room B L →
  ∃ s' L' c', itrunc ip h s = Ok tt h s' ∧
    truncated s s' L' c c' ip x (x <| i_size := 0 |> <| i_addrs := replicate 13 0 |>).
Proof.
  intros Fv W Hi R. pose proof Fv as [T Hsb Hip Hx Hdev Hok Hm].
  destruct (itrunc_blocks s L c ip x B Fv R) as (s1 & L1 & c1 & E1 & [[T1 Hsb1 Hip1 Hx1 _] R1 I1 M1 It1 D1]).
  set (x' := x <| i_size := 0 |> <| i_addrs := replicate 13 0 |>) in *.
  assert (fview s1 L1 c1 ip x') as V1.
  { split; [done|done|done|done|done|by apply zero_file_ok|]. eapply freed_meta; [done|by apply file_blocks_used|done]. }
  assert (dinode_wf x') as W'.
  { destruct W. split; try done. simpl. repeat (constructor; [lia|]). constructor. }
  destruct (iupdate_ok h me start size sb G s1 L1 c1 ip x') as (s2 & E2 & V2 & I2 & It2 & M2); try done.
  { pose proof (tx_sub_len h me start size _ _ _ _ _ T1 (proj1 R1)). destruct R1 as (_ & _ & ?). lia. }
  change (i_inum x') with (i_inum x) in V2. destruct (inode_block start size sb G _ Hi) as (_ & Hib & _ & Ho1 & Ho2).
  pose proof (tx_sized h me start size _ _ _ _ T1) as Hc1. destruct (g_log _ _ _ G) as (? & ? & ?).
  eexists s2, _, _. split; [|split].
  - unfold itrunc. rewrite E1. exact E2.
  - done.
  - by eapply iframe_trans.
  - congruence.
  - by rewrite It2, It1.
  - intros b Hb. rewrite (inode_write_bits start size sb G) by (done || lia). by apply (fd_bits _ _ _ D1).
  - intros y. rewrite fn_lookup_insert. apply load_store_dinode; [done|rewrite Hc1; lia|done].
  - intros i y Hir Hne. apply (stored_inodes start size sb G c c1 x x'); try done. intros b Hb. apply (fd_same _ _ _ D1). lia.
  - intros z Hz Hd. split.
    + apply (inode_write_file_ok start size sb G); [lia|]. by eapply freed_file_ok.
    + rewrite (inode_write_fdata start size sb G); [by eapply freed_fdata|lia|by eapply freed_file_ok].
Qed.
End Trunc.
