(* ===== verification/FsProps.v ===== *)
(** * Properties of files (kernel/fs.c)

    The theorems on [writei], [readi], [iupdate], [bmap] and [bfree], with a sample file
    system with one empty file. *)

From stdpp Require Import functions.
From S2P Require Import Prelude CString Riscv Kalloc Vm Kernel Sched Sleeplock Bytes Bio BioList BioSpec Log.
From S2P Require Import LogSpec Sample LogCrash LogOps Uart Printf Access Fs FsSpec FsFile FsData FsInode.
From S2P Require Import FsTrunc.

#[local] Instance no_patience : Patience := 0%nat.

(** ** A sample file system *)

Lemma tx_check s me start size :
  bctx [] s me → log_at s start size [] → 0 ≤ start → 1 ≤ size ≤ LOGSIZE → start + size < 2 ^ 31 →
  1 ≤ l_outstanding (k_log s) → pins_check (k_bcache s) [] = true → tx [] me start size s [] [] (d_read (k_disk s)).
Proof.
  intros C La H1 H2 H3 Ho Hp. pose proof (pins_check_sound s [] Hp) as V. split; try done.
  - apply not_elem_of_nil.
  - split; [constructor|simpl; lia|lia|]. intros b Hb. by apply not_elem_of_nil in Hb.
  - intros b. rewrite (V b). simpl. f_equal. apply (vat_clean [] s me b C). by rewrite (V b).
  - intros i b Hb. by apply not_elem_of_nil in Hb.
  - constructor.
Qed.

Definition empty_file (dev inum pid type : Z) : inode :=
  Inode dev inum 1 (Sleeplock true pid) true type 0 0 1 0 (replicate 13 0).

Lemma empty_file_ok sb c dev inum pid type : file_ok sb c (empty_file dev inum pid type).
Proof. by apply zero_file_ok. Qed.

(** The file system of mkfs.c: the boot block, the super block, the log, the inodes
    and the free map, whose bits are set for these 46 blocks. *)
Definition sample_bitmap : list Z := replicate 5 255 ++ [63] ++ replicate 1018 0.
Definition sample_fs_disk : disk_t := Disk {[45 := sample_bitmap]} [].
Definition sample_file : inode := empty_file ROOTDEV 5 1 T_FILE.
Definition sample_fs : kernel :=
  let s := kfinal (sample_boot sample_fs_disk)
    ((initlog ROOTDEV sample_fs_sb;; begin_op) [] (sample_boot sample_fs_disk)) in
  s <| k_sb := sample_fs_sb |> <| k_itable ::= alter (λ _, sample_file) 0%nat |>.

Definition sample_blocks : Z → list Z := d_read (k_disk sample_fs).

Lemma sample_geom : geom 2 30 sample_fs_sb.
Proof. split; vm_compute; split_and!; discriminate || reflexivity. Qed.

Lemma sample_fs_bits b : 0 ≤ b < nmeta sample_fs_sb → bbit sample_blocks sample_fs_sb b = true.
Proof.
  intros Hb. change (nmeta sample_fs_sb) with 46 in Hb.
  assert (Forall (λ b, bbit sample_blocks sample_fs_sb b = true) (seqZ 0 46)) as HF
    by (apply (proj1 (bool_decide_eq_true _)); vm_compute; reflexivity).
  rewrite Forall_forall in HF. apply HF, elem_of_seqZ. lia.
Qed.

Lemma sample_fs_view : fview [] 0 2 30 sample_fs_sb sample_fs [] sample_blocks 0 sample_file.
Proof.
  split.
  - refine (tx_check sample_fs 0 2 30 _ _ _ _ _ _ _).
    + apply bctx_check; vm_compute; reflexivity || lia.
    + split; [vm_compute; reflexivity..|]. intros k b Hb. discriminate Hb.
    + lia.
    + unfold LOGSIZE, MAXOPBLOCKS. lia.
    + lia.
    + vm_compute. discriminate.
    + vm_compute. reflexivity.
  - vm_compute. reflexivity.
  - apply Nat.ltb_lt. vm_compute. reflexivity.
  - vm_compute. reflexivity.
  - reflexivity.
  - apply empty_file_ok.
  - exact sample_fs_bits.
Qed.

(** ** Properties *)

(** C7: [writei] of [n] bytes at offset [off] of a file, within a transaction with room for
    the blocks it can log, returns [n].  The contents of the file are then the old
    contents with the bytes at [off] (blocks allocated through [bmap] as needed), the
    size has grown to the end of the write, the inode on disk is the one in memory, and
    neither another inode nor the contents of another file has changed; no block of
    another file has been taken. *)
Theorem writei_correct {Pat : Patience} h me start size sb s L c ip x B k src off bs (n := Z.of_nat (length bs)) :
  geom start size sb → fview h me start size sb s L c ip x → dinode_wf x → 0 ≤ i_inum x < sb_ninodes sb →
  budget sb B L x → rounds_ok k off n → cost B x + Z.of_nat k + 1 ≤ size - 1 → Z.of_nat k ≤ spare sb c x →
  0 ≤ off ≤ i_size x → off + n ≤ MAXFILE * BSIZE →
  get_chunks h (block_fuel n) (p_pagetable (proc_at me s)) (k_mach s) src off bs →
  ∃ s' L' c' x', writei ip src off n h s = Ok n h s' ∧ written h me start size sb s s' L' c c' ip x x' off bs.
Proof. intros G. exact (writei_ok h me start size sb G s L c ip x B k src off bs). Qed.

Definition sample_text : list Z := [104; 101; 108; 108; 111].

Lemma sample_file_wf : dinode_wf sample_file.
Proof. split; simpl; try (unfold T_FILE; lia). repeat (constructor; [lia|]). constructor. Qed.

Lemma sample_budget : budget sample_fs_sb [45] [] sample_file.
Proof.
  split.
  - apply list_subseteq_nil.
  - intros b Hb. simpl in Hb. unfold BBLOCK, BPB, BSIZE. simpl sb_bmapstart.
    rewrite Z.div_small by lia. rewrite u32_small by lia. by left.
  - intros []. reflexivity.
Qed.

Lemma writei_correct_witness :
  let n := Z.of_nat (length sample_text) in
  ∃ s' L' c' x', writei 0 (Src_local sample_text) 0 n [] sample_fs = Ok n [] s' ∧
    written [] 0 2 30 sample_fs_sb sample_fs s' L' sample_blocks c' 0 sample_file x' 0 sample_text.
Proof.
  cbv zeta. pose proof (writei_correct [] 0 2 30 sample_fs_sb sample_fs [] sample_blocks 0 sample_file [45] 1 (Src_local sample_text) 0
    sample_text sample_geom sample_fs_view sample_file_wf) as P.
  apply P; clear P.
  - vm_compute. split; discriminate || reflexivity.
  - exact sample_budget.
  - vm_compute. discriminate.
  - vm_compute. discriminate.
  - apply Z.leb_le. vm_compute. reflexivity.
  - vm_compute. split; discriminate.
  - vm_compute. discriminate.
  - apply get_chunks_local; [|lia]. apply rounds_enough. vm_compute. discriminate.
Defined.

(** C26: what [writei] has written, [readi] returns: a write of [bs] followed by a read of
    as many bytes at the same offset copies exactly [bs] to the destination, through
    user memory on both sides or with kernel buffers. *)
Theorem writei_readi {Pat : Patience} h me start size sb s L c ip x B k src dst off bs m' (n := Z.of_nat (length bs)) :
  geom start size sb → fview h me start size sb s L c ip x → dinode_wf x → 0 ≤ i_inum x < sb_ninodes sb →
  budget sb B L x → rounds_ok k off n → cost B x + Z.of_nat k + 1 ≤ size - 1 → Z.of_nat k ≤ spare sb c x →
  0 ≤ off ≤ i_size x → off + n ≤ MAXFILE * BSIZE →
  get_chunks h (block_fuel n) (p_pagetable (proc_at me s)) (k_mach s) src off bs →
  put_chunks (block_fuel n) h (p_pagetable (proc_at me s)) dst off bs (k_mach s) m' →
  ∃ s', (writei ip src off n;; readi ip dst off n) h s = Ok (n, bs) h s' ∧ k_mach s' = m'.
Proof.
  intros G Fv W Hi Bu Hk Hc Hs Ho Hm Hg Hp. pose proof MAXFILE_eq. pose proof BSIZE_eq.
  destruct (writei_ok h me start size sb G s L c ip x B k src off bs) as (s1 & L1 & c1 & x1 & E1 & [V F M _ _ D _ _ _]); [done..|].
  fold n in E1. pose proof (iframe_cur me _ _ F) as [_ Ep].
  pose proof (fo_size _ _ _ (fv_file _ _ _ _ _ _ _ _ _ _ Fv)).
  assert (take (Z.to_nat n) (drop (Z.to_nat off) (fdata c1 x1)) = bs) as Eb.
  { rewrite D. unfold write_data. rewrite drop_app_length'.
    - apply take_app_length'. unfold n. lia.
    - rewrite length_take. pose proof (length_fdata c x ltac:(lia)). lia. }
  destruct (readi_ok h me start size sb G s1 L1 c1 ip x1 L1 dst off n m') as (s2 & E2 & _ & _ & _ & M2); try done; try (unfold n in *; lia).
  - apply (ll_len _ _ _ (tx_list _ _ _ _ _ _ _ _ (fv_tx _ _ _ _ _ _ _ _ _ _ V))).
  - cbv zeta. rewrite Eb. fold n. by rewrite Ep, M.
  - exists s2. split; [|done]. erewrite bind_Ok by exact E1. rewrite E2. by rewrite Eb.
Qed.

Lemma writei_readi_witness :
  let n := Z.of_nat (length sample_text) in
  ∃ s', (writei 0 (Src_local sample_text) 0 n;; readi 0 Dst_local 0 n) [] sample_fs = Ok (n, sample_text) [] s' ∧
    k_mach s' = k_mach sample_fs.
Proof.
  cbv zeta. pose proof (writei_readi [] 0 2 30 sample_fs_sb sample_fs [] sample_blocks 0 sample_file [45] 1 (Src_local sample_text)
    Dst_local 0 sample_text (k_mach sample_fs) sample_geom sample_fs_view sample_file_wf) as P.
  apply P; clear P.
  - vm_compute. split; discriminate || reflexivity.
  - exact sample_budget.
  - vm_compute. discriminate.
  - vm_compute. discriminate.
  - apply Z.leb_le. vm_compute. reflexivity.
  - vm_compute. split; discriminate.
  - vm_compute. discriminate.
  - apply get_chunks_local; [|lia]. apply rounds_enough. vm_compute. discriminate.
  - apply put_chunks_local; [|lia]. apply rounds_enough. vm_compute. discriminate.
Defined.

(** C8: [itrunc] frees every block of the file, and no other: after it the bits of the file's
    data blocks and of its indirect block are clear in the free map and all other
    bits are as before, the inode has no blocks and size 0, in memory and on disk,
    and the other files keep their blocks and contents. *)
Theorem itrunc_correct {Pat : Patience} h me start size sb s L c ip x B :
  geom start size sb → fview h me start size sb s L c ip x → dinode_wf x → 0 ≤ i_inum x < sb_ninodes sb →
  room size sb B L →
  ∃ s' L' c', itrunc ip h s = Ok tt h s' ∧
    truncated h me start size sb s s' L' c c' ip x (x <| i_size := 0 |> <| i_addrs := replicate 13 0 |>).
Proof. intros G. exact (itrunc_ok h me start size sb G s L c ip x B). Qed.

(** The sample file system with a file of one block. *)
Definition sample_one : inode := sample_file <| i_size := 5 |> <| i_addrs := 46 :: replicate 12 0 |>.
Definition sample_one_fs : kernel :=
  let d := Disk {[45 := replicate 5 255 ++ [127] ++ replicate 1018 0]} [] in
  let s := kfinal (sample_boot d) ((initlog ROOTDEV sample_fs_sb;; begin_op) [] (sample_boot d)) in
  s <| k_sb := sample_fs_sb |> <| k_itable ::= alter (λ _, sample_one) 0%nat |>.
Definition sample_one_blocks : Z → list Z := d_read (k_disk sample_one_fs).

Lemma sample_one_slot k : 0 ≤ k ≤ MAXFILE → slot sample_one_blocks sample_one k = if k =? 0 then 46 else 0.
Proof.
  intros Hk. assert (∀ k, 0 < k → nthZ (i_addrs sample_one) k = 0) as Hn.
  { intros j Hj. unfold nthZ. rewrite nth_lookup. destruct (i_addrs sample_one !! Z.to_nat j) as [v|] eqn:E; [|done].
    replace (Z.to_nat j) with (S (Z.to_nat (j - 1))) in E by lia. change (replicate 12 0 !! Z.to_nat (j - 1) = Some v) in E.
    apply lookup_replicate in E as [-> _]. done. }
  unfold slot, faddr, ind_block. pose proof MAXFILE_eq as (? & ? & ?). rewrite (Hn NDIRECT) by lia. simpl.
  destruct (Z.eqb_spec k MAXFILE), (Z.ltb_spec k NDIRECT), (Z.eqb_spec k 0); try lia; subst; try done. apply Hn. lia.
Qed.

Lemma sample_one_ok : file_ok sample_fs_sb sample_one_blocks sample_one.
Proof.
  pose proof MAXFILE_eq as (? & ? & ?). pose proof BSIZE_eq. split.
  - reflexivity.
  - simpl. lia.
  - intros k Hk. rewrite sample_one_slot by done. destruct (k =? 0); [|done]. intros _.
    split; [vm_compute; split; discriminate || reflexivity|vm_compute; reflexivity].
  - intros j k Hj Hk. rewrite !sample_one_slot by done. destruct (Z.eqb_spec j 0), (Z.eqb_spec k 0); lia.
  - intros bn Hb Hs. simpl in Hs. assert (bn = 0) as -> by nia. by vm_compute.
Qed.

Lemma sample_one_view : fview [] 0 2 30 sample_fs_sb sample_one_fs [] sample_one_blocks 0 sample_one.
Proof.
  split.
  - refine (tx_check sample_one_fs 0 2 30 _ _ _ _ _ _ _).
    + apply bctx_check; vm_compute; reflexivity || lia.
    + split; [vm_compute; reflexivity..|]. intros k b Hb. discriminate Hb.
    + lia.
    + unfold LOGSIZE, MAXOPBLOCKS. lia.
    + lia.
    + vm_compute. discriminate.
    + vm_compute. reflexivity.
  - vm_compute. reflexivity.
  - apply Nat.ltb_lt. vm_compute. reflexivity.
  - vm_compute. reflexivity.
  - reflexivity.
  - exact sample_one_ok.
  - intros b Hb. change (nmeta sample_fs_sb) with 46 in Hb.
    assert (Forall (λ b, bbit sample_one_blocks sample_fs_sb b = true) (seqZ 0 46)) as HF
      by (apply (proj1 (bool_decide_eq_true _)); vm_compute; reflexivity).
    rewrite Forall_forall in HF. apply HF, elem_of_seqZ. lia.
Qed.

Lemma sample_room : room 30 sample_fs_sb [45] [].
Proof.
  split_and!; [apply list_subseteq_nil| |vm_compute; discriminate].
  intros b Hb. simpl in Hb. unfold BBLOCK, BPB, BSIZE. simpl sb_bmapstart. rewrite Z.div_small, u32_small by lia. by left.
Qed.

Lemma itrunc_correct_witness :
  ∃ s' L' c', itrunc 0 [] sample_one_fs = Ok tt [] s' ∧
    truncated [] 0 2 30 sample_fs_sb sample_one_fs s' L' sample_one_blocks c' 0 sample_one
      (sample_one <| i_size := 0 |> <| i_addrs := replicate 13 0 |>).
Proof.
  pose proof (itrunc_correct [] 0 2 30 sample_fs_sb sample_one_fs [] sample_one_blocks 0 sample_one [45]
    sample_geom sample_one_view) as P.
  apply P; clear P.
  - split; simpl; try (unfold T_FILE; lia). repeat (constructor; [lia|]). constructor.
  - vm_compute. split; discriminate || reflexivity.
  - exact sample_room.
Defined.

(** [bfree] clears the bit of the block and nothing else when the block is in use, and panics
    when it is already free; so freeing a block twice in a row always panics. *)
Theorem bfree_twice {Pat : Patience} h me start size sb s L c B b :
  geom start size sb → tx h me start size s L [] c → k_sb s = sb → room size sb B L → 0 ≤ b < sb_size sb →
  (bbit c sb b = true → ∃ s' L' c', bfree ROOTDEV b h s = Ok tt h s' ∧ tx h me start size s' L' [] c' ∧ freed sb c c' [b]) ∧
  (bfree ROOTDEV b;; bfree ROOTDEV b) h s = Panic "freeing free block".
Proof.
  intros G T Hsb R Hb.
  assert (∀ s L c, tx h me start size s L [] c → k_sb s = sb → room size sb B L →
    if bbit c sb b then
      ∃ s' L' c', bfree ROOTDEV b h s = Ok tt h s' ∧ tx h me start size s' L' [] c' ∧ lframe me s s' ∧ room size sb B L' ∧ freed sb c c' [b]
    else bfree ROOTDEV b h s = Panic "freeing free block") as Hf.
  { intros s0 L0 c0 T0 Hs0 R0. apply (bfree_bit h me start size sb G s0 L0 [] c0 B b); try done; [simpl; lia|].
    intros y Hy. by apply not_elem_of_nil in Hy. }
  pose proof (Hf s L c T Hsb R) as H1. destruct (bbit c sb b).
  - destruct H1 as (s1 & L1 & c1 & E1 & T1 & F1 & R1 & D1). split; [by eauto 10|]. erewrite bind_Ok by exact E1.
    destruct (lframe_iframe me _ _ F1) as (IF & _). pose proof (Hf s1 L1 c1 T1 ltac:(by rewrite (iframe_sb me _ _ IF)) R1) as H2.
    rewrite (fd_bits _ _ _ _ D1 b Hb), bool_decide_true in H2 by (by left). exact H2.
  - split; [done|]. unfold mbind, M_bind. by rewrite H1.
Qed.

Lemma bfree_twice_witness :
  bbit sample_one_blocks sample_fs_sb 46 = true ∧
  (bbit sample_one_blocks sample_fs_sb 46 = true → ∃ s' L' c', bfree ROOTDEV 46 [] sample_one_fs = Ok tt [] s' ∧
    tx [] 0 2 30 s' L' [] c' ∧ freed sample_fs_sb sample_one_blocks c' [46]) ∧
  (bfree ROOTDEV 46;; bfree ROOTDEV 46) [] sample_one_fs = Panic "freeing free block".
Proof.
  split; [vm_compute; reflexivity|].
  pose proof (bfree_twice [] 0 2 30 sample_fs_sb sample_one_fs [] sample_one_blocks [45] 46 sample_geom
    (fv_tx _ _ _ _ _ _ _ _ _ _ sample_one_view)) as P.
  apply P; clear P.
  - vm_compute. reflexivity.
  - exact sample_room.
  - vm_compute. split; discriminate || reflexivity.
Defined.
