(* ===== verification/File.v ===== *)
(** * Open files (kernel/file.c, pipealloc of kernel/pipe.c)

    The table of open files: allocation and reference counts, and reading,
    writing and closing a file by its type. *)

From S2P Require Import Prelude CString Riscv Kalloc Vm Kernel Sched Sleeplock Bytes Bio Log Uart Printf Console Pipe Fs.

Definition dummy_file : file := File FD_NONE 0 false false 0 0 0 0.
Definition file_at (f : nat) (s : kernel) : file := default dummy_file (k_ftable s !! f).
Definition getfile (f : nat) : KM file := gets (file_at f).
Definition updfile (f : nat) (g : file → file) : KM unit := modify (λ s, s <| k_ftable ::= alter g f |>).

Definition fileinit : KM unit := initlock L_ftable.

(** [for(f = ftable.file; f < ftable.file + NFILE; f++)] *)
Fixpoint filealloc_loop (fs : list nat) : KM (option nat) :=
  match fs with
  | [] => release L_ftable;; mret None
  | f :: fs =>
      x ← getfile f;
      if f_ref x =? 0 then
        updfile f (λ x, x <| f_ref := 1 |>);;
        release L_ftable;;
        mret (Some f)
      else filealloc_loop fs
  end.

Definition filealloc : KM (option nat) :=
  acquire L_ftable;;
  filealloc_loop (seq 0 (Z.to_nat NFILE)).

Definition filedup (f : nat) : KM nat :=
  acquire L_ftable;;
  x ← getfile f;
  if f_ref x <? 1 then panic "filedup" else
  updfile f (λ x, x <| f_ref ::= λ n, i32 (n + 1) |>);;
  release L_ftable;;
  mret f.

Definition fileclose `{Patience} (f : nat) : KM unit :=
  acquire L_ftable;;
  x ← getfile f;
  if f_ref x <? 1 then panic "fileclose" else
  updfile f (λ x, x <| f_ref ::= λ n, i32 (n - 1) |>);;
  ff ← getfile f;
  if 0 <? f_ref ff then release L_ftable else
  updfile f (λ x, x <| f_ref := 0 |> <| f_type := FD_NONE |>);;
  release L_ftable;;
  match f_type ff with
  | FD_PIPE => pipeclose (f_pipe ff) (f_writable ff)
  | FD_INODE | FD_DEVICE =>
      begin_op;;
      iput (f_ip ff);;
      end_op
  | FD_NONE => mret tt
  end.

(** [struct stat] as it lies in memory; [pad] are the four bytes between [nlink] and
    [size] that no statement assigns, as they are found on the stack. *)
Class Garbage := pad : list Z.
Definition sizeof_stat : Z := 24.
Definition stat_bytes `{Garbage} (st : stat) : list Z :=
  le_bytes 4 (st_dev st) ++ le_bytes 4 (st_ino st) ++ le_bytes 2 (st_type st) ++ le_bytes 2 (st_nlink st) ++
  take 4 (pad ++ replicate 4 0) ++ le_bytes 8 (st_size st).

Definition filestat `{Patience} `{Garbage} (f : nat) (addr : Z) : KM Z :=
  p ← curproc;
  x ← getfile f;
  match f_type x with
  | FD_INODE | FD_DEVICE =>
      ilock (f_ip x);;
      st ← stati (f_ip x);
      iunlock (f_ip x);;
      y ← getproc p;
      r ← in_mem (copyout (p_pagetable y) addr (stat_bytes st) sizeof_stat);
      mret (if r <? 0 then -1 else 0)
  | _ => mret (-1)
  end.

(** [devsw[major].read] and [devsw[major].write]. *)
Definition dev_read `{Patience} (d : devsw_t) (addr n : Z) : option (KM Z) :=
  match d with Dev_none => None | Dev_console => Some (consoleread (Dst_user addr) n) end.
Definition dev_write `{Patience} (d : devsw_t) (addr n : Z) : option (KM Z) :=
  match d with Dev_none => None | Dev_console => Some (consolewrite (Src_user addr) n) end.
Definition devsw_at (major : Z) (s : kernel) : devsw_t := default Dev_none (k_devsw s !! Z.to_nat major).

Definition fileread `{Patience} (f : nat) (addr n : Z) : KM Z :=
  x ← getfile f;
  if negb (f_readable x) then mret (-1) else
  match f_type x with
  | FD_PIPE => piperead (f_pipe x) addr n
  | FD_DEVICE =>
      d ← gets (devsw_at (f_major x));
      if (f_major x <? 0) || (NDEV <=? f_major x) then mret (-1) else
      match dev_read d addr n with
      | None => mret (-1)
      | Some m => m
      end
  | FD_INODE =>
      ilock (f_ip x);;
      x ← getfile f;
      '(r, _) ← readi (f_ip x) (Dst_user addr) (f_off x) (u32 n);
      when (0 <? r) (updfile f (λ x, x <| f_off ::= λ o, u32 (o + r) |>));;
      iunlock (f_ip x);;
      mret r
  | FD_NONE => panic "fileread"
  end.

(** [while(i < n)] of [filewrite]; the final [i]. *)
Definition write_max : Z := (MAXOPBLOCKS - 1 - 1 - 2) / 2 * BSIZE.
Fixpoint filewrite_loop `{Patience} (fuel : nat) (f : nat) (addr n i : Z) : KM Z :=
  if i <? n then
    match fuel with
    | O => nofuel
    | S fuel =>
        let n1 := n - i in
        let n1 := if write_max <? n1 then write_max else n1 in
        begin_op;;
        x ← getfile f;
        ilock (f_ip x);;
        x ← getfile f;
        r ← writei (f_ip x) (Src_user (u64 (addr + i))) (f_off x) n1;
        when (0 <? r) (updfile f (λ x, x <| f_off ::= λ o, u32 (o + r) |>));;
        iunlock (f_ip x);;
        end_op;;
        if negb (r =? n1) then mret i else
        filewrite_loop fuel f addr n (i + r)
    end
  else mret i.

Definition filewrite `{Patience} `{Kills} (f : nat) (addr n : Z) : KM Z :=
  x ← getfile f;
  if negb (f_writable x) then mret (-1) else
  match f_type x with
  | FD_PIPE => pipewrite (f_pipe x) addr n
  | FD_DEVICE =>
      d ← gets (devsw_at (f_major x));
      if (f_major x <? 0) || (NDEV <=? f_major x) then mret (-1) else
      match dev_write d addr n with
      | None => mret (-1)
      | Some m => m
      end
  | FD_INODE =>
      i ← filewrite_loop (Z.to_nat n) f addr n 0;
      mret (if i =? n then n else -1)
  | FD_NONE => panic "filewrite"
  end.

(** ** pipealloc *)

(** The label [bad]. *)
Definition pipealloc_bad `{Patience} (f0 f1 : option nat) : KM (option (nat * nat)) :=
  match f0 with Some f => fileclose f | None => mret tt end;;
  match f1 with Some f => fileclose f | None => mret tt end;;
  mret None.

(** The page of the pipe is as [kalloc] leaves it, filled with 5. *)
Definition new_pipe : pipe := Pipe (replicate (Z.to_nat PIPESIZE) 5) 0 0 true true.

Definition pipealloc `{Patience} : KM (option (nat * nat)) :=
  f0 ← filealloc;
  match f0 with
  | None => pipealloc_bad f0 None
  | Some i0 =>
      f1 ← filealloc;
      match f1 with
      | None => pipealloc_bad f0 f1
      | Some i1 =>
          pi ← in_mem kalloc;
          if pi =? 0 then pipealloc_bad f0 f1 else
          modify (λ s, s <| k_pipes ::= <[pi := new_pipe]> |>);;
          initlock (L_pipe pi);;
          updfile i0 (λ x, x <| f_type := FD_PIPE |> <| f_readable := true |> <| f_writable := false |> <| f_pipe := pi |>);;
          updfile i1 (λ x, x <| f_type := FD_PIPE |> <| f_readable := false |> <| f_writable := true |> <| f_pipe := pi |>);;
          mret (Some (i0, i1))
      end
  end.
