(* ===== verification/ProcMem.v ===== *)
(** * Page tables of processes (kernel/proc.c)

    The address space of a process with its trampoline and trapframe pages:
    [proc_pagetable] builds an empty one or gives back what it has taken, and
    [proc_freepagetable] gives back every page of one. *)

From S2P Require Import Prelude CString Riscv Kalloc Vm PageTable AddrSpace FreeWalk.

(** The user memory of [n] pages, and above it the two mapped pages. *)
Record pspace (s : machine) (T : ptree) (root : Z) (L : list Z) (n : Z) : Prop := {
  ps_space : space s T root L n;
  ps_tf : is_leaf (leaf (m_mem s) T TRAPFRAME);
  ps_tramp : is_leaf (leaf (m_mem s) T TRAMPOLINE);
}.

Lemma top_pages : TRAPFRAME + 4096 = TRAMPOLINE ∧ TRAMPOLINE + 4096 = MAXVA ∧ TRAPFRAME mod 4096 = 0 ∧
  TRAMPOLINE mod 4096 = 0 ∧ 0 < TRAPFRAME ∧ MAXVA = 2 ^ 38.
Proof. done. Qed.

(** An address space depends only on the translations below the trapframe. *)
Lemma space_ext s s' T root L n :
  space s T root L n → vm_ok s' T root L → m_end s' = m_end s →
  (∀ va, 0 ≤ va < TRAPFRAME → leaf (m_mem s') T va = leaf (m_mem s) T va) → space s' T root L n.
Proof.
  intros [Hvm Hsz Hl (HN & HR & HT) Hab] Hvm' He Heq. destruct top_pages as (? & ? & ? & ? & ? & ?).
  assert (n * 4096 ≤ TRAPFRAME) as Hn by (pose proof (Z.div_mod TRAPFRAME 4096); lia).
  assert (pas (leaf (m_mem s') T) 0 (Z.to_nat n) = pas (leaf (m_mem s) T) 0 (Z.to_nat n)) as Ep.
  { apply pas_ext. intros i Hi. rewrite Heq by lia. done. }
  split; [done|done| | |].
  - intros i Hi. rewrite Heq by lia. by apply Hl.
  - rewrite Ep. split_and!; [done| |done]. eapply Forall_impl; [done|]. intros q. unfold ram_page. by rewrite He.
  - intros va Hva. rewrite Heq by lia. by apply Hab.
Qed.

(** Unmapping a page at the top without freeing it. *)
Lemma unmap_top h s T root L n va :
  L_kmem ∉ h → space s T root L n → va mod 4096 = 0 → TRAPFRAME ≤ va → va + 4096 ≤ MAXVA → is_leaf (leaf (m_mem s) T va) →
  ∃ s', uvmunmap root va 1 false h s = Ok tt h s' ∧ space s' T root L n ∧ steps_in (table_bytes T) s s' ∧
    ∀ v, 0 ≤ v < MAXVA → leaf (m_mem s') T v = if decide (va ≤ v < va + 4096) then 0 else leaf (m_mem s) T v.
Proof.
  intros Hh Hsp Hva Hlo Hhi Hl. destruct top_pages as (? & ? & ? & ? & ? & ?).
  destruct (uvmunmap_spec h root s T L va 1 false) as (s' & E & Hvm & Hlf & Hst); [exact Hh|apply Hsp|exact Hva|lia|lia|lia| | |].
  - intros i Hi. replace (va + i * 4096) with va by lia. done.
  - split_and!; [|constructor|set_solver]. apply Hsp.
  - simpl in Hvm. assert (steps_in (table_bytes T) s s') as Hst'.
    { eapply steps_in_mono; [done|]. intros b [Hb|(q & Hq & _)]; [done|by apply not_elem_of_nil in Hq]. }
    assert (∀ v, 0 ≤ v < MAXVA → leaf (m_mem s') T v = if decide (va ≤ v < va + 4096) then 0 else leaf (m_mem s) T v) as Hlf'.
    { intros v Hv. rewrite Hlf by done. unfold unmapped_range. rewrite Z.mul_1_l. done. }
    exists s'. split_and!; [done| |done|done]. apply (space_ext s); [done|done|apply Hst|].
    intros v Hv. rewrite Hlf' by lia. by rewrite decide_False by lia.
Qed.

Lemma proc_freepagetable_frees h s T root L sz (D := pas (leaf (m_mem s) T) 0 (Z.to_nat (npages sz))) :
  L_kmem ∉ h → 0 ≤ sz → pspace s T root L (npages sz) →
  gives_back h s L (tpages 3 T [] ++ D) (tpages 3 T [] ++ D) (proc_freepagetable root sz h s).
Proof.
  intros Hh Hsz [Hsp Htf Htr]. destruct top_pages as (H1 & H2 & H3 & H4 & H5 & H6).
  destruct (unmap_top h s T root L (npages sz) TRAMPOLINE) as (s1 & E1 & Sp1 & St1 & L1); [assumption|assumption|lia|lia|lia|assumption|].
  destruct (unmap_top h s1 T root L (npages sz) TRAPFRAME) as (s2 & E2 & Sp2 & St2 & L2); [assumption|assumption|lia|lia|lia| |].
  { rewrite L1 by lia. by rewrite decide_False by lia. }
  destruct (uvmfree_frees h s2 T root L sz) as (s3 & L3 & E3 & F3 & P3 & St3); try done.
  { intros va Hva. rewrite L2 by lia. case_decide; [done|]. rewrite L1 by lia. by rewrite decide_True by lia. }
  assert (pas (leaf (m_mem s2) T) 0 (Z.to_nat (npages sz)) = D) as Ed.
  { pose proof (sp_size _ _ _ _ _ Hsp). pose proof (Z.div_mod TRAPFRAME 4096). apply pas_ext. intros i Hi.
    rewrite L2, decide_False by lia. by rewrite L1, decide_False by lia. }
  rewrite Ed in P3, St3. exists s3, L3. split_and!; [|done|done|].
  - unfold proc_freepagetable. erewrite bind_Ok by exact E1. by erewrite bind_Ok by exact E2.
  - assert (∀ b, table_bytes T b → page_bytes (tpages 3 T [] ++ D) b) as Htb.
    { intros b (p & a & Ha & Hb). exists a. split; [|done]. apply elem_of_app. left.
      eapply (elem_of_tpages (m_mem s) T root 3 []); [apply Hsp|done|eauto]. }
    eapply steps_in_trans; [eapply steps_in_mono; [exact St1|exact Htb]|].
    eapply steps_in_trans; [eapply steps_in_mono; [exact St2|exact Htb]|done].
Qed.

(** ** Counting pages *)

Lemma tpages_apart s T root L : vm_ok s T root L → NoDup (tpages 3 T [] ++ L).
Proof.
  intros (Hpt & Hf & HT). apply NoDup_app. split_and!; [by eapply NoDup_tpages| |apply Hf].
  intros q (p & Hp)%(elem_of_tpages _ _ _ 3 [] q Hpt eq_refl). by apply (HT p).
Qed.

(** Table pages come from the free list. *)
Lemma tpages_ext s T root L s' T' L' :
  vm_ok s T root L → vm_ok s' T' root L' → ext T L T' L' → tpages 3 T' [] ++ L' ≡ₚ tpages 3 T [] ++ L.
Proof.
  intros V V' [HT (u & -> & Hu & Hu')]. pose proof (proj1 V) as P. pose proof (proj1 V') as P'.
  apply NoDup_Permutation; [by eapply tpages_apart|by eapply tpages_apart|].
  intros q. rewrite !elem_of_app, (elem_of_tpages _ _ _ 3 [] q P' eq_refl), (elem_of_tpages _ _ _ 3 [] q P eq_refl). simpl.
  split.
  - intros [(p & Hp)|?]; [destruct (Hu p q Hp)|]; eauto.
  - intros [(p & Hp)|[Hq|?]]; [left; exists p; by eapply lookup_weaken|left; by apply Hu'|auto].
Qed.

Lemma space_zero s T root L :
  vm_ok s T root L → (∀ va, 0 ≤ va < TRAPFRAME → has (leaf (m_mem s) T va) PTE_V = false) → space s T root L 0.
Proof.
  intros V Hl. split; [done|done|lia| |].
  - split_and!; [apply V|constructor|]. intros p d _. apply not_elem_of_nil.
  - intros va Hva. apply Hl. lia.
Qed.

(** ** proc_pagetable *)

Lemma map_top h root s T L va pa perm :
  L_kmem ∉ h → vm_ok s T root L → va = TRAPFRAME ∨ va = TRAMPOLINE → page_addr pa → pa + 8192 < 2 ^ 56 →
  0 ≤ perm < 1024 → (∀ v, va ≤ v < va + 4096 → has (leaf (m_mem s) T v) PTE_V = false) →
  ∃ r s' T' L', mappages root va PGSIZE pa perm h s = Ok r h s' ∧ vm_ok s' T' root L' ∧ ext T L T' L' ∧
    steps_in (pt_bytes T L) s s' ∧
    (r = 0 ∧ (length L ≤ length L' + 2)%nat ∧
       (∀ v, 0 ≤ v < MAXVA → leaf (m_mem s') T' v = if decide (va ≤ v < va + 4096) then leaf_pte pa perm else leaf (m_mem s) T v) ∨
     r = -1 ∧ (length L < 2)%nat ∧ ∀ v, 0 ≤ v < MAXVA → leaf (m_mem s') T' v = leaf (m_mem s) T v).
Proof.
  intros Hh V Hva Hpa Hpm Hperm Hfree. destruct top_pages as (H1 & H2 & H3 & H4 & H5 & H6).
  assert (va mod 4096 = 0 ∧ 0 ≤ va ∧ va + 4096 ≤ MAXVA) as (Hm & H0 & Hmax) by (destruct Hva; subst va; lia).
  pose proof (Z.div_mod va 4096 ltac:(lia)) as Hdm.
  assert ((va + PGSIZE - 1) / 4096 = va / 4096) as Hq.
  { unfold PGSIZE. symmetry. apply Z.div_unique with 4095; lia. }
  destruct (mappages_spec h root s T L va PGSIZE pa perm) as (r & j & s' & T' & L' & E & V' & Hx & Hst & Hl & Hr);
    try done; try (unfold PGSIZE; lia).
  { intros v Hv. rewrite Hq in Hv. apply Hfree. pose proof (Z.div_mod v 4096). pose proof (Z.mod_pos_bound v 4096). lia. }
  exists r, s', T', L'. split_and!; [done..|]. rewrite Hq in Hr.
  replace (va / 4096 * 4096) with va in Hl by lia.
  destruct Hr as [(-> & -> & ?)|(-> & Hj & _ & ?)]; [left|right]; (split; [done|]; split; [lia|]); intros v Hv; rewrite Hl by done.
  - unfold mapped. replace (va + (va / 4096 - va / 4096 + 1) * 4096) with (va + 4096) by lia.
    case_decide; [|done]. rewrite (Z.div_small (v - va)) by lia. by rewrite Z.mul_0_l, Z.add_0_r.
  - replace j with 0 by lia. apply mapped_0.
Qed.

Lemma pt_bytes_pages m T root L b : pt_ok m T root → pt_bytes T L b → page_bytes (tpages 3 T [] ++ L) b.
Proof.
  intros P [(p & a & Ha & Hb)|(q & Hq & Hb)]; [exists a|exists q]; (split; [|done]); apply elem_of_app; [left|by right].
  apply (elem_of_tpages m T root 3 [] a P eq_refl). by exists p.
Qed.

Lemma page_bytes_perm P1 P2 b : P1 ≡ₚ P2 → page_bytes P1 b → page_bytes P2 b.
Proof. intros HP. apply page_bytes_mono. intros q. by rewrite HP. Qed.

Lemma tpages_root s root L : vm_ok s {[ [] := root ]} root L → tpages 3 {[ [] := root ]} [] ≡ₚ [root].
Proof.
  intros (P & _ & _). apply NoDup_Permutation; [by eapply NoDup_tpages|apply NoDup_singleton|].
  intros q. rewrite (elem_of_tpages _ _ _ 3 [] q P eq_refl), list_elem_of_singleton. split.
  - by intros (p & [_ <-]%lookup_singleton_Some).
  - intros ->. exists []. apply lookup_singleton_eq.
Qed.

(** The page table of a process without memory: the trampoline and the trapframe. *)
Definition new_space (s : machine) (T : ptree) (root : Z) (L : list Z) (tramp tf : Z) : Prop :=
  pspace s T root L 0 ∧
  ∀ va, 0 ≤ va < MAXVA → leaf (m_mem s) T va =
    if decide (TRAPFRAME ≤ va < TRAPFRAME + 4096) then leaf_pte tf (Z.lor PTE_R PTE_W)
    else if decide (TRAMPOLINE ≤ va < TRAMPOLINE + 4096) then leaf_pte tramp (Z.lor PTE_R PTE_X)
    else 0.

Lemma is_leaf_pte pa perm : page_addr pa → 0 ≤ perm < 1024 → Z.lor perm PTE_V ≠ PTE_V → is_leaf (leaf_pte pa perm).
Proof.
  intros Hpa Hp Hne. destruct (leaf_pte_spec pa perm Hpa Hp) as (_ & _ & Hf & Hh). split; [|by rewrite Hf].
  change PTE_V with (Z.shiftl 1 0). rewrite Hh by lia. by rewrite Z.lor_spec, orb_true_r.
Qed.

(** What [proc_pagetable] returns: a new page table, or 0 with all pages given back. *)
Definition table_result (tramp tf : Z) (s : machine) (L : list Z) (r : Z) (s' : machine) : Prop :=
  ∃ L', steps_in (page_bytes L) s s' ∧ free_inv s' L' ∧
    (r = 0 ∧ L' ≡ₚ L ∧ (length L < 5)%nat ∨
     r ≠ 0 ∧ (length L ≤ length L' + 5)%nat ∧ ∃ T, new_space s' T r L' tramp tf ∧ tpages 3 T [] ++ L' ≡ₚ L).

(** The pages taken so far, for a table that holds at most the two top pages. *)
Record building (s : machine) (L : list Z) (root : Z) (s' : machine) (T : ptree) (L' : list Z) : Prop := {
  bu_vm : vm_ok s' T root L';
  bu_pages : tpages 3 T [] ++ L' ≡ₚ L;
  bu_steps : steps_in (page_bytes L) s s';
}.

Lemma building_step s L root s1 T1 L1 s2 T2 L2 :
  building s L root s1 T1 L1 → vm_ok s2 T2 root L2 → ext T1 L1 T2 L2 → steps_in (pt_bytes T1 L1) s1 s2 →
  building s L root s2 T2 L2.
Proof.
  intros [V P St] V2 X St2. split; [done|by rewrite (tpages_ext _ _ _ _ _ _ _ V V2 X)|].
  eapply steps_in_trans; [exact St|]. eapply steps_in_mono; [exact St2|].
  intros b Hb. eapply page_bytes_perm; [exact P|]. by eapply pt_bytes_pages; [apply V|].
Qed.

(** Giving up: the table without its leaves is freed. *)
Lemma building_undo h s L root s1 T1 L1 tramp tf :
  L_kmem ∉ h → building s L root s1 T1 L1 → (length L < 5)%nat →
  (∀ va, 0 ≤ va < MAXVA → has (leaf (m_mem s1) T1 va) PTE_V = false) →
  ∃ s', uvmfree root 0 h s1 = Ok tt h s' ∧ table_result tramp tf s L 0 s'.
Proof.
  intros Hh [V P St] Hlen Hl. destruct top_pages as (H1 & H2 & _ & _ & H5 & _).
  destruct (uvmfree_frees h s1 T1 root L1 0 Hh ltac:(lia)) as (s' & L' & E & F & P' & St').
  { apply space_zero; [done|]. intros va Hva. apply Hl. lia. }
  { intros va Hva. apply Hl. lia. }
  rewrite app_nil_r in P', St'. exists s'. split; [done|]. exists L'. split_and!; [|done|left; split_and!; [done|by rewrite P', P|done]].
  eapply steps_in_trans; [exact St|]. eapply steps_in_mono; [exact St'|]. intros b Hb.
  eapply page_bytes_mono; [|exact Hb]. intros q Hq. rewrite <- P. apply elem_of_app. by left.
Qed.

Lemma building_start s root L :
  free_inv s (root :: L) → building s (root :: L) root (uvmcreate_post s root) {[ [] := root ]} L.
Proof.
  intros Hf. destruct (uvmcreate_ok s root L Hf) as [V0 St0]. split; [done|by rewrite (tpages_root _ _ _ V0)|].
  eapply steps_in_mono; [exact St0|]. intros b Hb. exists root. split; [by left|done].
Qed.

(** The second half, from the table with the trampoline on. *)
Lemma proc_pagetable_tf h s L root s1 T1 L1 tramp tf :
  L_kmem ∉ h → building s L root s1 T1 L1 → (length L ≤ length L1 + 3)%nat → root ≠ 0 → page_addr tramp → page_addr tf → tf + 8192 < 2 ^ 56 →
  (∀ va, 0 ≤ va < MAXVA → leaf (m_mem s1) T1 va =
     if decide (TRAMPOLINE ≤ va < TRAMPOLINE + 4096) then leaf_pte tramp (Z.lor PTE_R PTE_X) else 0) →
  ∃ r s', (r ← mappages root TRAPFRAME PGSIZE tf (Z.lor PTE_R PTE_W);
     if r <? 0 then uvmunmap root TRAMPOLINE 1 false;; uvmfree root 0;; mret 0 else mret root) h s1 = Ok r h s' ∧
    table_result tramp tf s L r s'.
Proof.
  intros Hh B Hlen H0 Ht Hp Hp' Hl1. destruct top_pages as (H1 & H2 & _ & _ & H5 & _).
  destruct (map_top h root s1 T1 L1 TRAPFRAME tf (Z.lor PTE_R PTE_W)) as (r2 & s2 & T2 & L2 & E2 & V2 & X2 & St2 & R2);
    [done|apply B|by left|done|done|done|intros v Hv; by rewrite Hl1, decide_False by lia|].
  pose proof (building_step _ _ _ _ _ _ _ _ _ B V2 X2 St2) as B2.
  erewrite bind_Ok by exact E2. destruct R2 as [(-> & Hlen2 & Hl2)|(-> & Hlen2 & Hl2)]; cbn [Z.ltb Z.compare].
  - exists root, s2. split; [done|]. exists L2. split_and!; [apply B2|apply V2|]. right. split; [done|]. split; [lia|].
    exists T2. split; [|apply B2].
    assert (∀ va, 0 ≤ va < MAXVA → leaf (m_mem s2) T2 va =
      if decide (TRAPFRAME ≤ va < TRAPFRAME + 4096) then leaf_pte tf (Z.lor PTE_R PTE_W)
      else if decide (TRAMPOLINE ≤ va < TRAMPOLINE + 4096) then leaf_pte tramp (Z.lor PTE_R PTE_X)
      else 0) as Hl.
    { intros va Hva. rewrite Hl2 by done. case_decide; [done|]. by apply Hl1. }
    split; [|done]. split.
    + apply space_zero; [done|]. intros va Hva. rewrite Hl, !decide_False by lia. done.
    + rewrite Hl, decide_True by lia. by apply is_leaf_pte.
    + rewrite Hl, decide_False, decide_True by lia. by apply is_leaf_pte.
  - destruct (unmap_top h s2 T2 root L2 0 TRAMPOLINE) as (s3 & E3 & Sp3 & St3 & Hl3); [assumption| |reflexivity|lia|lia| |].
    { apply space_zero; [done|]. intros va Hva. by rewrite Hl2, Hl1, decide_False by lia. }
    { rewrite Hl2, Hl1, decide_True by lia. by apply is_leaf_pte. }
    destruct (building_undo h s L root s3 T2 L2 tramp tf Hh) as (s4 & E4 & R4).
    { eapply building_step; [exact B2|apply Sp3|apply ext_refl|]. eapply steps_in_mono; [exact St3|]. by left. }
    { lia. }
    { intros va Hva. rewrite Hl3 by done. case_decide; [done|]. by rewrite Hl2, Hl1, decide_False by lia. }
    exists 0, s4. erewrite bind_Ok by exact E3. erewrite bind_Ok by exact E4. split; [reflexivity|exact R4].
Qed.

Lemma proc_pagetable_ok h s L tramp tf :
  L_kmem ∉ h → free_inv s L → page_addr tramp → tramp + 8192 < 2 ^ 56 → page_addr tf → tf + 8192 < 2 ^ 56 →
  ∃ r s', proc_pagetable tramp tf h s = Ok r h s' ∧ table_result tramp tf s L r s'.
Proof.
  intros Hh Hf Ht Ht' Hp Hp'. destruct top_pages as (H1 & H2 & _ & _ & H5 & _). unfold proc_pagetable.
  destruct L as [|root L].
  { exists 0, s. unfold uvmcreate. rewrite bind_assoc. erewrite bind_Ok by (apply kalloc_empty; [done|apply Hf]).
    split; [done|]. exists []. split_and!; [apply steps_in_refl|done|left; cbn; split_and!; [done|done|lia]]. }
  erewrite bind_Ok by by eapply uvmcreate_run. pose proof (building_start s root L Hf) as B0.
  assert (root ≠ 0) as Hr0 by apply Hf. rewrite (proj2 (Z.eqb_neq _ _) Hr0).
  destruct (map_top h root (uvmcreate_post s root) {[ [] := root ]} L TRAMPOLINE tramp (Z.lor PTE_R PTE_X))
    as (r1 & s1 & T1 & L1 & E1 & V1 & X1 & St1 & R1);
    [done|apply B0|by right|done|done|done|intros v _; by rewrite uvmcreate_leaf|].
  pose proof (building_step _ _ _ _ _ _ _ _ _ B0 V1 X1 St1) as B1.
  erewrite bind_Ok by exact E1. destruct R1 as [(-> & Hlen & Hl1)|(-> & Hlen & Hl1)]; cbn [Z.ltb Z.compare].
  - destruct (proc_pagetable_tf h s (root :: L) root s1 T1 L1 tramp tf) as (r & s2 & E2 & R2); try assumption.
    { cbn. lia. }
    { intros va Hva. rewrite Hl1 by done. by rewrite uvmcreate_leaf. }
    exists r, s2. split; [exact E2|exact R2].
  - destruct (building_undo h s (root :: L) root s1 T1 L1 tramp tf Hh B1) as (s2 & E2 & R2).
    { cbn. lia. }
    { intros va Hva. rewrite Hl1 by done. by rewrite uvmcreate_leaf. }
    exists 0, s2. erewrite bind_Ok by exact E2. split; [reflexivity|exact R2].
Qed.

(** ** The pages of an address space *)

Definition own_pages (s : machine) (T : ptree) (n : Z) : list Z :=
  tpages 3 T [] ++ pas (leaf (m_mem s) T) 0 (Z.to_nat n).

Lemma own_pages_apart s T root L n :
  space s T root L n → NoDup (own_pages s T n ++ L) ∧ Forall (ram_page s) (own_pages s T n).
Proof.
  intros [V _ _ (HN & HR & HT) _]. pose proof (proj1 V) as P. unfold own_pages. split.
  - pose proof (tpages_apart _ _ _ _ V) as HA. apply NoDup_app in HA as (A1 & A2 & _).
    rewrite <- app_assoc. apply NoDup_app. split_and!; [done| |done].
    intros q Hq. rewrite elem_of_app. intros [Hd|Hl]; [|by apply (A2 q)].
    apply (elem_of_tpages _ _ _ 3 [] q P eq_refl) in Hq as (p & Hp). by apply (HT p q Hp).
  - apply Forall_app. split; [|done]. apply Forall_forall.
    intros q (p & Hp)%(elem_of_tpages _ _ _ 3 [] q P eq_refl). by apply (proj2 (proj2 V) p q Hp).
Qed.

(** The pages of a grown address space and the free pages are those there were. *)
Lemma own_pages_took s0 T0 root L0 s T L n0 n :
  space s0 T0 root L0 n0 → space s T root L n → n0 ≤ n →
  (∀ va, 0 ≤ va < n0 * 4096 → leaf (m_mem s) T va = leaf (m_mem s0) T0 va) →
  took T0 L0 (pas (leaf (m_mem s) T) (n0 * 4096) (Z.to_nat (n - n0))) T L →
  own_pages s T n ++ L ≡ₚ own_pages s0 T0 n0 ++ L0.
Proof.
  intros Sp0 Sp Hle Hl [HT (u & HL & Hu & Hu')]. pose proof (proj1 (sp_vm _ _ _ _ _ Sp0)) as P0.
  pose proof (proj1 (sp_vm _ _ _ _ _ Sp)) as P. pose proof (sp_size _ _ _ _ _ Sp0) as Hn0.
  assert (pas (leaf (m_mem s) T) 0 (Z.to_nat n) =
    pas (leaf (m_mem s0) T0) 0 (Z.to_nat n0) ++ pas (leaf (m_mem s) T) (n0 * 4096) (Z.to_nat (n - n0))) as Epas.
  { replace (Z.to_nat n) with (Z.to_nat n0 + Z.to_nat (n - n0))%nat by lia. rewrite pas_app, Z2Nat.id by lia.
    f_equal. apply pas_ext. intros i Hi. apply Hl. lia. }
  apply NoDup_Permutation; [by eapply own_pages_apart..|].
  intros q. unfold own_pages. rewrite Epas, !elem_of_app.
  rewrite (elem_of_tpages _ _ _ 3 [] q P eq_refl), (elem_of_tpages _ _ _ 3 [] q P0 eq_refl), HL, !elem_of_app. simpl.
  split.
  - intros [[(p & Hp)|[?|?]]|?]; [destruct (Hu p q Hp)|..]; eauto 6.
  - intros [[(p & Hp)|?]|[Hq|[?|?]]]; [left; left; exists p; by eapply lookup_weaken|eauto|left; left; by apply Hu'|auto..].
Qed.

(** An address space survives writes to pages that it does not own. *)
Lemma pspace_survives s s' T root L n L' W :
  pspace s T root L n → steps_in (page_bytes W) s s' → Forall (ram_page s) W → free_inv s' L' →
  own_pages s T n ## W → own_pages s T n ## L' →
  pspace s' T root L' n ∧ (∀ va, leaf (m_mem s') T va = leaf (m_mem s) T va) ∧
  ∀ b, page_bytes (own_pages s T n) b → load8 (m_mem s') b = load8 (m_mem s) b.
Proof.
  intros [Sp Htf Htr] [He Hst] HW Hf HaW HaL. pose proof (own_pages_apart _ _ _ _ _ Sp) as [_ HR].
  pose proof (proj1 (sp_vm _ _ _ _ _ Sp)) as P.
  assert (∀ b, page_bytes (own_pages s T n) b → ¬ page_bytes W b) as Hap.
  { intros b (q & Hq & Hb) (w & Hw & Hb'). rewrite Forall_forall in HR, HW.
    apply (ram_page_disjoint s q w b); auto. intros ->. by apply (HaW w). }
  assert (∀ p a, T !! p = Some a → a ∈ own_pages s T n) as Hown.
  { intros p a Ha. apply elem_of_app. left. apply (elem_of_tpages _ _ _ 3 [] a P eq_refl). by exists p. }
  destruct (pt_frame (page_bytes W) (m_mem s) (m_mem s') T root P Hst) as [P' Hl].
  { intros p a b Ha Hb. apply Hap. exists a. split; [by eapply Hown|done]. }
  assert (∀ q, ram_page s q → ram_page s' q) as Hrp by (intros q; unfold ram_page; by rewrite He).
  assert (vm_ok s' T root L') as V'.
  { split_and!; [done|done|]. intros p a Ha. split; [by apply Hrp, (proj2 (proj2 (sp_vm _ _ _ _ _ Sp)) p a)|].
    intros Hin. apply (HaL a); [by eapply Hown|done]. }
  split_and!; [|done|intros b Hb; by apply Hst, Hap].
  split; [|by rewrite Hl..]. destruct Sp as [_ Hsz Hlf (HN & HRd & HT) Hab].
  assert (pas (leaf (m_mem s') T) 0 (Z.to_nat n) = pas (leaf (m_mem s) T) 0 (Z.to_nat n)) as Ep.
  { apply pas_ext. intros i _. apply Hl. }
  split; [done|done|intros i Hi; rewrite Hl; by apply Hlf| |intros va Hva; rewrite Hl; by apply Hab].
  rewrite Ep. split_and!; [|eapply Forall_impl; [exact HRd|done]|done].
  apply NoDup_app in HN as (HN1 & _ & _). apply NoDup_app. split_and!; [done| |apply Hf].
  intros q Hq Hq'. apply (HaL q); [|done]. apply elem_of_app. by right.
Qed.

Lemma own_pages_ext s s' T n :
  (∀ va, leaf (m_mem s') T va = leaf (m_mem s) T va) → own_pages s' T n = own_pages s T n.
Proof. intros Hl. unfold own_pages. f_equal. apply pas_ext. intros i _. apply Hl. Qed.
