(* ===== verification/Proc.v ===== *)
(** * Processes (kernel/proc.c)

    Allocation and freeing of process slots, the first process, growth of the
    address space, fork, exit and wait.  What the linker decides is a parameter: the
    physical address of the trampoline page.  A dereference of the null pointer
    faults in the kernel, which panics with "kerneltrap". *)

From S2P Require Import Prelude CString Riscv Kalloc Vm Kernel Sched Sleeplock Bytes Bio Log Uart Printf Console Pipe Fs File.

(** Addresses of symbols in the kernel image. *)
Class Image := {
  trampoline : Z;      (* physical address of trampoline.S *)
  uservec : Z;         (* in trampoline.S *)
  userret : Z;
  usertrap_entry : Z;  (* usertrap() *)
  kernelvec : Z;       (* kernelvec.S *)
  etext : Z;           (* end of the kernel's text *)
}.

(** A string constant, with its terminating null. *)
Definition cstr (s : string) : list Z := lit s ++ [0].

Definition nonnull {A} (p : option A) : KM A :=
  match p with Some x => mret x | None => panic "kerneltrap" end.

(** ** The process table *)

Fixpoint procinit_loop (ps : list nat) : KM unit :=
  match ps with
  | [] => mret tt
  | p :: ps =>
      initlock (L_proc p);;
      updproc p (λ x, x <| p_state := UNUSED |> <| p_kstack := KSTACK (Z.of_nat p) |>);;
      procinit_loop ps
  end.

Definition procinit : KM unit :=
  initlock L_pid;;
  initlock L_wait;;
  procinit_loop (seq 0 (Z.to_nat NPROC)).

Definition allocpid : KM Z :=
  acquire L_pid;;
  pid ← gets k_nextpid;
  modify (λ s, s <| k_nextpid ::= λ n, i32 (n + 1) |>);;
  release L_pid;;
  mret pid.

(** Trapframes: the page that [p->trapframe] points to. *)
Definition dummy_tf : trapframe := Trapframe 0 0 0 0 0 [].
Definition tf_at (pa : Z) (s : kernel) : trapframe := default dummy_tf (k_tframes s !! pa).
Definition gettf (pa : Z) : KM trapframe := gets (tf_at pa).
Definition updtf (pa : Z) (f : trapframe → trapframe) : KM unit := modify (λ s, s <| k_tframes ::= alter f pa |>).

(** A fresh page is filled with 5 by [kalloc]. *)
Definition junk64 : Z := 0x0505050505050505.
Definition new_tf : trapframe := Trapframe junk64 junk64 junk64 junk64 junk64 (replicate 31 junk64).

Definition freeproc (p : nat) : KM unit :=
  x ← getproc p;
  when (negb (p_trapframe x =? 0))
    (in_mem (kfree (p_trapframe x));;
     modify (λ s, s <| k_tframes ::= delete (p_trapframe x) |>));;
  updproc p (λ x, x <| p_trapframe := 0 |>);;
  when (negb (p_pagetable x =? 0)) (in_mem (proc_freepagetable (p_pagetable x) (p_sz x)));;
  updproc p (λ x, x <| p_pagetable := 0 |> <| p_sz := 0 |> <| p_pid := 0 |> <| p_parent := None |>
    <| p_name ::= <[0%nat := 0]> |> <| p_chan := None |> <| p_killed := false |> <| p_xstate := 0 |>
    <| p_state := UNUSED |>).

(** The scan for an UNUSED slot; its lock is held when one is found. *)
Fixpoint allocproc_scan (ps : list nat) : KM (option nat) :=
  match ps with
  | [] => mret None
  | p :: ps =>
      acquire (L_proc p);;
      x ← getproc p;
      if bool_decide (p_state x = UNUSED) then mret (Some p) else
      release (L_proc p);;
      allocproc_scan ps
  end.

(** From the label [found] on. *)
Definition allocproc_found `{Image} (p : nat) : KM (option nat) :=
  pid ← allocpid;
  updproc p (λ x, x <| p_pid := pid |> <| p_state := USED |>);;
  tf ← in_mem kalloc;
  updproc p (λ x, x <| p_trapframe := tf |>);;
  if tf =? 0 then
    freeproc p;;
    release (L_proc p);;
    mret None
  else
  modify (λ s, s <| k_tframes ::= <[tf := new_tf]> |>);;
  pt ← in_mem (proc_pagetable trampoline tf);
  updproc p (λ x, x <| p_pagetable := pt |>);;
  if pt =? 0 then
    freeproc p;;
    release (L_proc p);;
    mret None
  else
  updproc p (λ x, x <| p_context := Context In_forkret (u64 (p_kstack x + PGSIZE)) |>);;
  mret (Some p).

Definition allocproc `{Image} : KM (option nat) :=
  p ← allocproc_scan (seq 0 (Z.to_nat NPROC));
  match p with
  | None => mret None
  | Some p => allocproc_found p
  end.

(** ** The first process *)

Definition initcode : list Z :=
  [0x17; 0x05; 0x00; 0x00; 0x13; 0x05; 0x45; 0x02;
   0x97; 0x05; 0x00; 0x00; 0x93; 0x85; 0x35; 0x02;
   0x93; 0x08; 0x70; 0x00; 0x73; 0x00; 0x00; 0x00;
   0x93; 0x08; 0x20; 0x00; 0x73; 0x00; 0x00; 0x00;
   0xef; 0xf0; 0x9f; 0xff; 0x2f; 0x69; 0x6e; 0x69;
   0x74; 0x00; 0x00; 0x24; 0x00; 0x00; 0x00; 0x00;
   0x00; 0x00; 0x00; 0x00].

Definition userinit `{Patience} `{Image} : KM unit :=
  q ← allocproc;
  modify (λ s, s <| k_initproc := q |>);;
  p ← nonnull q;
  x ← getproc p;
  in_mem (uvmfirst (p_pagetable x) initcode (Z.of_nat (length initcode)));;
  updproc p (λ x, x <| p_sz := PGSIZE |>);;
  updtf (p_trapframe x) (λ tf, set_reg R_sp PGSIZE (tf <| tf_epc := 0 |>));;
  updproc p (λ x, x <| p_name ::= λ name, safestrcpy name (cstr "initcode") 16 |>);;
  cwd ← namei (cstr "/");
  updproc p (λ x, x <| p_cwd := cwd |> <| p_state := RUNNABLE |>);;
  release (L_proc p).

Definition growproc (n : Z) : KM Z :=
  p ← curproc;
  x ← getproc p;
  let sz := p_sz x in
  if 0 <? n then
    sz ← in_mem (uvmalloc (p_pagetable x) sz (u64 (sz + n)) PTE_W);
    if sz =? 0 then mret (-1) else
    updproc p (λ x, x <| p_sz := sz |>);; mret 0
  else if n <? 0 then
    sz ← in_mem (uvmdealloc (p_pagetable x) sz (u64 (sz + n)));
    updproc p (λ x, x <| p_sz := sz |>);; mret 0
  else updproc p (λ x, x <| p_sz := sz |>);; mret 0.

(** ** fork *)

(** [for(i = 0; i < NOFILE; i++) if(p->ofile[i]) np->ofile[i] = filedup(p->ofile[i]);] *)
Fixpoint fork_files (is_ : list nat) (p np : nat) : KM unit :=
  match is_ with
  | [] => mret tt
  | i :: is_ =>
      x ← getproc p;
      match p_ofile x !! i with
      | Some (Some f) =>
          f ← filedup f;
          updproc np (λ x, x <| p_ofile ::= <[i := Some f]> |>)
      | _ => mret tt
      end;;
      fork_files is_ p np
  end.

Definition fork `{Image} : KM Z :=
  p ← curproc;
  q ← allocproc;
  match q with
  | None => mret (-1)
  | Some np =>
      x ← getproc p;
      y ← getproc np;
      r ← in_mem (uvmcopy (p_pagetable x) (p_pagetable y) (p_sz x));
      if r <? 0 then
        freeproc np;;
        release (L_proc np);;
        mret (-1)
      else
      updproc np (λ y, y <| p_sz := p_sz x |>);;
      tf ← gettf (p_trapframe x);
      updtf (p_trapframe y) (λ _, set_reg (R_a 0) 0 tf);;
      fork_files (seq 0 (Z.to_nat NOFILE)) p np;;
      cwd ← nonnull (p_cwd x);
      cwd ← idup cwd;
      updproc np (λ y, y <| p_cwd := Some cwd |>);;
      updproc np (λ y, y <| p_name ::= λ name, safestrcpy name (p_name x) 16 |>);;
      y ← getproc np;
      let pid := p_pid y in
      release (L_proc np);;
      acquire L_wait;;
      updproc np (λ y, y <| p_parent := Some p |>);;
      release L_wait;;
      acquire (L_proc np);;
      updproc np (λ y, y <| p_state := RUNNABLE |>);;
      release (L_proc np);;
      mret pid
  end.

(** ** exit *)

(** [wakeup(p)] for a pointer to a process, which may be null. *)
Definition wakeup_proc (p : option nat) : KM unit := wakeup_loop (Ch_proc <$> p) (seq 0 (Z.to_nat NPROC)).

Fixpoint reparent_loop (p : nat) (ps : list nat) : KM unit :=
  match ps with
  | [] => mret tt
  | pp :: ps =>
      x ← getproc pp;
      when (bool_decide (p_parent x = Some p))
        (i ← gets k_initproc;
         updproc pp (λ x, x <| p_parent := i |>);;
         wakeup_proc i);;
      reparent_loop p ps
  end.

Definition reparent (p : nat) : KM unit := reparent_loop p (seq 0 (Z.to_nat NPROC)).

(** [for(int fd = 0; fd < NOFILE; fd++)] *)
Fixpoint exit_files `{Patience} (p : nat) (fds : list nat) : KM unit :=
  match fds with
  | [] => mret tt
  | fd :: fds =>
      x ← getproc p;
      match p_ofile x !! fd with
      | Some (Some f) =>
          fileclose f;;
          updproc p (λ x, x <| p_ofile ::= <[fd := None]> |>)
      | _ => mret tt
      end;;
      exit_files p fds
  end.

Definition exit `{Patience} (status : Z) : KM unit :=
  p ← curproc;
  ini ← gets k_initproc;
  if bool_decide (Some p = ini) then panic "init exiting" else
  exit_files p (seq 0 (Z.to_nat NOFILE));;
  begin_op;;
  x ← getproc p;
  cwd ← nonnull (p_cwd x);
  iput cwd;;
  end_op;;
  updproc p (λ x, x <| p_cwd := None |>);;
  acquire L_wait;;
  reparent p;;
  x ← getproc p;
  wakeup_proc (p_parent x);;
  acquire (L_proc p);;
  updproc p (λ x, x <| p_xstate := status |> <| p_state := ZOMBIE |>);;
  release L_wait;;
  sched;;
  panic "zombie exit".

(** ** wait *)

Inductive scan : Type :=
  | Found (pid : Z)      (* an exited child has been freed *)
  | Fault                (* its status could not be copied out *)
  | Alive (kids : bool). (* no child has exited; whether there is one *)

Fixpoint wait_scan (p : nat) (addr : Z) (kids : bool) (ps : list nat) : KM scan :=
  match ps with
  | [] => mret (Alive kids)
  | pp :: ps =>
      x ← getproc pp;
      if bool_decide (p_parent x = Some p) then
        acquire (L_proc pp);;
        x ← getproc pp;
        if bool_decide (p_state x = ZOMBIE) then
          let pid := p_pid x in
          y ← getproc p;
          r ← (if addr =? 0 then mret 0
               else in_mem (copyout (p_pagetable y) addr (le_bytes 4 (p_xstate x)) 4));
          if r <? 0 then
            release (L_proc pp);;
            release L_wait;;
            mret Fault
          else
          freeproc pp;;
          release (L_proc pp);;
          release L_wait;;
          mret (Found pid)
        else
        release (L_proc pp);;
        wait_scan p addr true ps
      else wait_scan p addr kids ps
  end.

(** [for(;;)]: a round without an exited child ends in [sleep]. *)
Fixpoint wait_loop (w : nat) (p : nat) (addr : Z) : KM Z :=
  r ← wait_scan p addr false (seq 0 (Z.to_nat NPROC));
  match r with
  | Found pid => mret pid
  | Fault => mret (-1)
  | Alive kids =>
      k ← (if kids : bool then killed p else mret true);
      if k : bool then
        release L_wait;;
        mret (-1)
      else
      match w with
      | O => nofuel
      | S w =>
          sleep (Ch_proc p) L_wait;;
          wait_loop w p addr
      end
  end.

Definition wait `{Patience} (addr : Z) : KM Z :=
  p ← curproc;
  acquire L_wait;;
  wait_loop patience p addr.
