(* ===== verification/ProcSpec.v ===== *)
(** * The memory of the processes (kernel/proc.c)

    Every page that a process owns -- its trapframe, the pages of its page table and
    the pages mapped below [sz] -- belongs to it alone and is not free.  The
    operations of proc.c that create, resize and destroy processes move pages between
    one process and the free list: [mem_inv_update] reduces the invariant of the whole
    process table to the account of one slot. *)

From S2P Require Import Prelude CString Riscv Kalloc Vm PageTable AddrSpace FreeWalk Kernel Sched ProcMem.
From S2P Require Import Sleeplock Bytes Bio Log Uart Printf Console Pipe Fs File Proc.

Definition tf_pages (x : proc) : list Z := if decide (p_trapframe x = 0) then [] else [p_trapframe x].
Definition pt_pages (m : machine) (x : proc) (T : ptree) : list Z :=
  if decide (p_pagetable x = 0) then [] else own_pages m T (npages (p_sz x)).
Definition proc_pages (m : machine) (x : proc) (T : ptree) : list Z := tf_pages x ++ pt_pages m x T.

(** The fields of a slot, apart from its memory: a free slot is blank, and a process has a
    trapframe, a page table and a pid. *)
Record proc_wf (x : proc) : Prop := {
  wf_unused : p_state x = UNUSED →
    p_trapframe x = 0 ∧ p_pagetable x = 0 ∧ p_sz x = 0 ∧ p_pid x = 0 ∧ p_parent x = None ∧ p_xstate x = 0;
  wf_used : p_state x ≠ UNUSED → p_trapframe x ≠ 0 ∧ p_pagetable x ≠ 0 ∧ p_pid x ≠ 0;
  wf_closed : p_state x = UNUSED ∨ p_state x = ZOMBIE → p_ofile x = replicate (Z.to_nat NOFILE) None ∧ p_cwd x = None;
  wf_sleeping : p_state x = SLEEPING → p_chan x ≠ None;
  wf_files : length (p_ofile x) = Z.to_nat NOFILE;
  wf_name : length (p_name x) = 16%nat ∧ strlen (p_name x) < 16;
}.

Section Spec.
Context {Img : Image}.

(** The memory of a slot of the process table. *)
Record slot_ok (m : machine) (tfs : gmap Z trapframe) (L : list Z) (x : proc) (T : ptree) : Prop := {
  po_tf : p_trapframe x ≠ 0 → ram_page m (p_trapframe x) ∧ is_Some (tfs !! p_trapframe x);
  po_pt : p_pagetable x ≠ 0 → 0 ≤ p_sz x ∧ pspace m T (p_pagetable x) L (npages (p_sz x)) ∧
    leaf (m_mem m) T TRAPFRAME = leaf_pte (p_trapframe x) (Z.lor PTE_R PTE_W) ∧
    leaf (m_mem m) T TRAMPOLINE = leaf_pte trampoline (Z.lor PTE_R PTE_X);
  po_nodup : NoDup (proc_pages m x T ++ L);
}.

Record mem_inv (k : kernel) (Ts : list ptree) (L : list Z) (m := k_mach k) : Prop := {
  mi_free : free_inv m L;
  mi_len : length (k_procs k) = Z.to_nat NPROC ∧ length Ts = Z.to_nat NPROC;
  mi_proc : ∀ i x T, k_procs k !! i = Some x → Ts !! i = Some T → slot_ok m (k_tframes k) L x T;
  mi_apart : ∀ i x T j y U, k_procs k !! i = Some x → Ts !! i = Some T → k_procs k !! j = Some y → Ts !! j = Some U →
    i ≠ j → proc_pages m x T ## proc_pages m y U;
}.

Lemma proc_pages_ram m tfs L x T : slot_ok m tfs L x T → Forall (ram_page m) (proc_pages m x T).
Proof.
  intros P. apply Forall_app. unfold tf_pages, pt_pages. split; case_decide as E; [constructor| |constructor|].
  - apply Forall_singleton. by apply P.
  - destruct (po_pt _ _ _ _ _ P E) as (_ & [Sp _ _] & _). by eapply own_pages_apart.
Qed.

(** A slot survives writes to pages that are not its own. *)
Lemma slot_ok_survives m tfs L x T m' tfs' L' W :
  slot_ok m tfs L x T → steps_in (page_bytes W) m m' → Forall (ram_page m) W → free_inv m' L' →
  proc_pages m x T ## W → proc_pages m x T ## L' → (∀ a, a ∉ W → tfs' !! a = tfs !! a) →
  slot_ok m' tfs' L' x T ∧ proc_pages m' x T = proc_pages m x T.
Proof.
  intros P St HW Hf HaW HaL Htf.
  assert (p_pagetable x ≠ 0 → own_pages m T (npages (p_sz x)) ⊆ proc_pages m x T) as Hown.
  { intros Hpt q Hq. apply elem_of_app. right. unfold pt_pages. by rewrite decide_False. }
  assert (p_pagetable x ≠ 0 → pspace m' T (p_pagetable x) L' (npages (p_sz x)) ∧
    ∀ va, leaf (m_mem m') T va = leaf (m_mem m) T va) as Hsp.
  { intros Hpt. destruct (po_pt _ _ _ _ _ P Hpt) as (_ & Sp & _).
    destruct (pspace_survives m m' T (p_pagetable x) L _ L' W Sp St HW Hf) as (? & ? & _); [|..|done].
    - intros q Hq. apply HaW. by apply Hown.
    - intros q Hq. apply HaL. by apply Hown. }
  assert (proc_pages m' x T = proc_pages m x T) as Ep.
  { unfold proc_pages, pt_pages. case_decide; [done|]. f_equal. by apply own_pages_ext, Hsp. }
  split; [|done]. split.
  - intros Ht. destruct (po_tf _ _ _ _ _ P Ht) as [H1 H2]. split.
    + unfold ram_page. by rewrite (proj1 St).
    + rewrite Htf; [done|]. intros Hw. apply (HaW (p_trapframe x)); [|done]. apply elem_of_app. left.
      unfold tf_pages. rewrite decide_False by done. by left.
  - intros Hpt. destruct (po_pt _ _ _ _ _ P Hpt) as (H1 & _ & H3 & H4). destruct (Hsp Hpt) as [Sp Hl].
    rewrite !Hl. done.
  - rewrite Ep. pose proof (po_nodup _ _ _ _ _ P) as HN. apply NoDup_app in HN as (HN & _ & _).
    apply NoDup_app. split_and!; [done|done|apply Hf].
Qed.

(** One slot has changed: its pages and the free pages are those they were, and only
    they have been written. *)
Lemma mem_inv_update k Ts L k' np x T x' T' L' :
  mem_inv k Ts L → k_procs k !! np = Some x → Ts !! np = Some T →
  k_procs k' = <[np := x']> (k_procs k) → free_inv (k_mach k') L' →
  steps_in (page_bytes (proc_pages (k_mach k) x T ++ L)) (k_mach k) (k_mach k') →
  (∀ a, a ∉ proc_pages (k_mach k) x T ++ L → k_tframes k' !! a = k_tframes k !! a) →
  proc_pages (k_mach k') x' T' ++ L' ≡ₚ proc_pages (k_mach k) x T ++ L →
  slot_ok (k_mach k') (k_tframes k') L' x' T' → mem_inv k' (<[np := T']> Ts) L'.
Proof.
  intros [Hf [Hl1 Hl2] Hp Ha] Hx HT Ek Hf' St Htf HP Hok. set (W := proc_pages (k_mach k) x T ++ L) in *.
  pose proof (lookup_lt_Some _ _ _ Hx) as Hlt. rewrite Hl1 in Hlt.
  assert (Forall (ram_page (k_mach k)) W) as HW.
  { apply Forall_app. split; [by eapply proc_pages_ram, Hp|]. apply Hf. }
  assert (∀ i y U, i ≠ np → k_procs k !! i = Some y → Ts !! i = Some U → proc_pages (k_mach k) y U ## W) as HaW.
  { intros i y U Hne Hy HU q Hq. unfold W. rewrite elem_of_app. intros [Hq'|Hq'].
    - by apply (Ha i y U np x T Hy HU Hx HT Hne q).
    - pose proof (po_nodup _ _ _ _ _ (Hp i y U Hy HU)) as HN. apply NoDup_app in HN as (_ & HN & _). by apply (HN q). }
  assert (∀ i y U, i ≠ np → k_procs k !! i = Some y → Ts !! i = Some U →
    slot_ok (k_mach k') (k_tframes k') L' y U ∧ proc_pages (k_mach k') y U = proc_pages (k_mach k) y U) as Hsv.
  { intros i y U Hne Hy HU. eapply slot_ok_survives; [by eapply Hp|exact St|done|done|by eapply HaW| |done].
    intros q Hq Hq'. apply (HaW i y U Hne Hy HU q Hq). rewrite <- HP. apply elem_of_app. by right. }
  assert (∀ i y U, i ≠ np → k_procs k !! i = Some y → Ts !! i = Some U →
    proc_pages (k_mach k') y U ## proc_pages (k_mach k') x' T') as Hap.
  { intros i y U Hne Hy HU q Hq Hq'. destruct (Hsv i y U Hne Hy HU) as [_ E]. rewrite E in Hq.
    apply (HaW i y U Hne Hy HU q Hq). rewrite <- HP. apply elem_of_app. by left. }
  split; [done|by rewrite Ek, !length_insert|..].
  - intros i y U. rewrite Ek. destruct (decide (i = np)) as [->|Hne].
    + rewrite !list_lookup_insert_eq by lia. by intros [= <-] [= <-].
    + rewrite !list_lookup_insert_ne by done. intros Hy HU. by apply (Hsv i).
  - intros i y U j z V. rewrite Ek. destruct (decide (i = np)) as [->|Hi], (decide (j = np)) as [->|Hj]; [done|..].
    + rewrite !list_lookup_insert_eq, !list_lookup_insert_ne by (done || lia). intros [= <-] [= <-] Hz HV _ q H1 H2.
      by apply (Hap j z V Hj Hz HV q).
    + rewrite !list_lookup_insert_ne, !list_lookup_insert_eq by (done || lia). intros Hy HU [= <-] [= <-] _. by apply (Hap i).
    + rewrite !list_lookup_insert_ne by done. intros Hy HU Hz HV Hne.
      destruct (Hsv i y U Hi Hy HU) as [_ ->], (Hsv j z V Hj Hz HV) as [_ ->]. by apply (Ha i y U j z V).
Qed.

(** ** freeproc *)

Definition blank (x : proc) : proc :=
  x <| p_pagetable := 0 |> <| p_sz := 0 |> <| p_pid := 0 |> <| p_parent := None |>
    <| p_name ::= <[0%nat := 0]> |> <| p_chan := None |> <| p_killed := false |> <| p_xstate := 0 |>
    <| p_state := UNUSED |>.
Definition freed (x : proc) : proc := blank (x <| p_trapframe := 0 |>).

(** The trapframe first, then the page table with all memory. *)
Lemma free_slot h m tfs L x T :
  L_kmem ∉ h → free_inv m L → slot_ok m tfs L x T →
  ∃ m1 m2 L', (if p_trapframe x =? 0 then m1 = m else kfree (p_trapframe x) h m = Ok tt h m1) ∧
    (if p_pagetable x =? 0 then m2 = m1 else proc_freepagetable (p_pagetable x) (p_sz x) h m1 = Ok tt h m2) ∧
    free_inv m2 L' ∧ L' ≡ₚ proc_pages m x T ++ L ∧ steps_in (page_bytes (proc_pages m x T ++ L)) m m2.
Proof.
  intros Hh Hf S. pose proof (po_nodup _ _ _ _ _ S) as HN.
  assert (∃ m1, (if p_trapframe x =? 0 then m1 = m else kfree (p_trapframe x) h m = Ok tt h m1) ∧
    free_inv m1 (tf_pages x ++ L) ∧ steps_in (page_bytes (tf_pages x)) m m1) as (m1 & E1 & F1 & St1).
  { unfold proc_pages, tf_pages in *. destruct (Z.eqb_spec (p_trapframe x) 0) as [E|E]; [rewrite decide_True in * by done|rewrite decide_False in * by done].
    - exists m. split_and!; [done|done|apply steps_in_refl].
    - destruct (po_tf _ _ _ _ _ S E) as [Hr _]. exists (kfree_post m (p_trapframe x)). split; [by apply kfree_run|].
      rewrite <- app_assoc in HN. apply NoDup_cons in HN as [Hn _].
      destruct (kfree_post_inv m (p_trapframe x) L Hf Hr) as [Hf1 Hst]; [set_solver|]. split; [done|].
      eapply steps_in_mono; [exact Hst|]. intros b Hb. exists (p_trapframe x). split; [by left|done]. }
  assert (∀ b, page_bytes (tf_pages x) b → page_bytes (proc_pages m x T ++ L) b) as Hb1.
  { intros b. apply page_bytes_mono. unfold proc_pages. set_solver. }
  exists m1. destruct (Z.eqb_spec (p_pagetable x) 0) as [E|E].
  { exists m1, (tf_pages x ++ L). unfold proc_pages, pt_pages in *. rewrite decide_True, app_nil_r in * by done.
    split_and!; [done..|]. by eapply steps_in_mono. }
  destruct (po_pt _ _ _ _ _ S E) as (Hsz & Sp & _). unfold proc_pages, pt_pages in *. rewrite decide_False in * by done.
  set (P := own_pages m T (npages (p_sz x))) in *. rewrite <- app_assoc in *.
  destruct (pspace_survives m m1 T (p_pagetable x) L _ (tf_pages x ++ L) (tf_pages x) Sp St1) as (Sp1 & Hl & _).
  - unfold tf_pages. case_decide as Et; [constructor|]. apply Forall_singleton, (po_tf _ _ _ _ _ S Et).
  - done.
  - apply NoDup_app in HN as (_ & HN & _). set_solver.
  - rewrite Permutation_app_swap_app in HN. apply NoDup_app in HN as (_ & HN & _). set_solver.
  - destruct (proc_freepagetable_frees h m1 T (p_pagetable x) (tf_pages x ++ L) (p_sz x) Hh Hsz Sp1) as (m2 & L2 & E2 & F2 & P2 & St2).
    fold (own_pages m1 T (npages (p_sz x))) in P2, St2. rewrite (own_pages_ext m m1 T _ Hl) in P2, St2. fold P in P2, St2.
    exists m2, L2. split_and!; [done..| |].
    + rewrite P2. apply Permutation_app_swap_app.
    + eapply steps_in_trans; [by eapply steps_in_mono|]. eapply steps_in_mono; [exact St2|].
      intros b. apply page_bytes_mono. set_solver.
Qed.

Definition free_tf (x : proc) (tfs : gmap Z trapframe) : gmap Z trapframe :=
  if p_trapframe x =? 0 then tfs else delete (p_trapframe x) tfs.

Definition freeproc_state (np : nat) (x : proc) (m : machine) (k : kernel) : kernel :=
  k <| k_mach := m |> <| k_tframes ::= free_tf x |> <| k_procs ::= <[np := freed x]> |>.

Lemma alter_insert_eq (f : proc → proc) i (l : list proc) x : l !! i = Some x → alter f i l = <[i := f x]> l.
Proof.
  intros Hx. apply list_eq. intros j. pose proof (lookup_lt_Some _ _ _ Hx). destruct (decide (i = j)) as [<-|Hne].
  - by rewrite list_lookup_alter_eq, list_lookup_insert_eq, Hx.
  - by rewrite list_lookup_alter_ne, list_lookup_insert_ne.
Qed.

Lemma proc_at_lookup k i x : k_procs k !! i = Some x → proc_at i k = x.
Proof. intros E. unfold proc_at. by rewrite E. Qed.

Lemma freeproc_run h k np x T L :
  L_kmem ∉ h → free_inv (k_mach k) L → k_procs k !! np = Some x → slot_ok (k_mach k) (k_tframes k) L x T →
  ∃ m L', freeproc np h k = Ok tt h (freeproc_state np x m k) ∧ free_inv m L' ∧
    L' ≡ₚ proc_pages (k_mach k) x T ++ L ∧ steps_in (page_bytes (proc_pages (k_mach k) x T ++ L)) (k_mach k) m.
Proof.
  intros Hh Hf Hx S. destruct (free_slot h _ _ L x T Hh Hf S) as (m1 & m2 & L' & E1 & E2 & F & P & St).
  exists m2, L'. split_and!; [|done..]. unfold freeproc. rewrite bind_getproc, (proc_at_lookup _ _ _ Hx).
  set (k1 := k <| k_mach := m1 |> <| k_tframes ::= free_tf x |>).
  assert (when (negb (p_trapframe x =? 0)) (in_mem (kfree (p_trapframe x));;
    modify (λ s, s <| k_tframes ::= delete (p_trapframe x) |>)) h k = Ok tt h k1) as Ea.
  { unfold k1, free_tf. destruct (p_trapframe x =? 0); cbn [negb when]; [subst m1; by destruct k|].
    erewrite bind_Ok by by apply in_mem_Ok. done. }
  erewrite bind_Ok by exact Ea. rewrite bind_updproc.
  set (k2 := k1 <| k_procs ::= alter _ np |>).
  assert (when (negb (p_pagetable x =? 0)) (in_mem (proc_freepagetable (p_pagetable x) (p_sz x))) h k2 =
    Ok tt h (k2 <| k_mach := m2 |>)) as Eb.
  { destruct (p_pagetable x =? 0); cbn [negb when]; [subst m2; done|]. by apply in_mem_Ok. }
  erewrite bind_Ok by exact Eb. unfold updproc, modify. f_equal.
  pose (v := λ l : list proc, k <| k_mach := m2 |> <| k_tframes ::= free_tf x |> <| k_procs := l |>).
  change (v (alter blank np (alter (λ x, x <| p_trapframe := 0 |>) np (k_procs k))) = v (<[np := freed x]> (k_procs k))).
  f_equal. rewrite alter_alter. by apply (alter_insert_eq freed).
Qed.

Lemma freed_wf x :
  length (p_name x) = 16%nat → p_ofile x = replicate (Z.to_nat NOFILE) None → p_cwd x = None → proc_wf (freed x).
Proof. intros Hn Ho Hc. split; cbn; try done; [by rewrite Ho|]. rewrite length_insert. split; [done|]. by destruct (p_name x). Qed.

Lemma blank_slot_ok m tfs L x : free_inv m L → slot_ok m tfs L (freed x) ∅.
Proof. intros Hf. split; cbn; [done..|]. apply Hf. Qed.

Lemma freeproc_ok h k np x T Ts L :
  L_kmem ∉ h → mem_inv k Ts L → k_procs k !! np = Some x → Ts !! np = Some T →
  ∃ m L', freeproc np h k = Ok tt h (freeproc_state np x m k) ∧
    mem_inv (freeproc_state np x m k) (<[np := ∅]> Ts) L' ∧ L' ≡ₚ proc_pages (k_mach k) x T ++ L ∧
    steps_in (page_bytes (proc_pages (k_mach k) x T ++ L)) (k_mach k) m.
Proof.
  intros Hh I Hx HT. pose proof (mi_proc _ _ _ I np x T Hx HT) as S.
  destruct (freeproc_run h k np x T L Hh (mi_free _ _ _ I) Hx S) as (m & L' & E & F & P & St).
  exists m, L'. split_and!; [done| |done|done]. eapply mem_inv_update; [done|done|done|..]; cbn; [done|done|done| |by rewrite P|by apply blank_slot_ok].
  intros a Ha. unfold free_tf. destruct (Z.eqb_spec (p_trapframe x) 0) as [|E0]; [done|]. apply lookup_delete_ne.
  intros <-. apply Ha. unfold proc_pages, tf_pages. rewrite decide_False by done. by left.
Qed.

(** ** The process table *)

(** All slots are well formed, every process has a pid of its own that has been given
    out, and the memory is accounted for. *)
Record proc_inv (k : kernel) (Ts : list ptree) (L : list Z) : Prop := {
  pi_mem : mem_inv k Ts L;
  pi_wf : Forall proc_wf (k_procs k);
  pi_next : 0 < k_nextpid k;
  pi_pid : ∀ i x, k_procs k !! i = Some x → p_state x ≠ UNUSED → 0 < p_pid x < k_nextpid k;
  pi_unique : ∀ i j x y, k_procs k !! i = Some x → k_procs k !! j = Some y → i ≠ j → p_state x ≠ UNUSED → p_pid x ≠ p_pid y;
}.

(** One slot changes: it becomes free, gets the next pid, or keeps its pid. *)
Lemma proc_inv_update k Ts L k' Ts' L' np x' :
  proc_inv k Ts L → mem_inv k' Ts' L' → k_procs k' = <[np := x']> (k_procs k) → proc_wf x' → k_nextpid k ≤ k_nextpid k' →
  p_state x' = UNUSED ∨ p_pid x' = k_nextpid k ∧ k_nextpid k < k_nextpid k' ∨
    (∃ x, k_procs k !! np = Some x ∧ p_state x ≠ UNUSED ∧ p_pid x' = p_pid x) →
  proc_inv k' Ts' L'.
Proof.
  intros [M W Hn Hp Hu] M' Ek W' Hle Hcase.
  assert (∀ i x, k_procs k !! i = Some x → p_pid x < k_nextpid k) as Hlt.
  { intros i x Hx. destruct (decide (p_state x = UNUSED)) as [Eu|Eu]; [|by apply (Hp i)].
    destruct (wf_unused _ (Forall_lookup_1 _ _ _ _ W Hx) Eu) as (_ & _ & _ & -> & _). done. }
  split; [done| |lia|..].
  - rewrite Ek. by apply Forall_insert.
  - intros i x. rewrite Ek. intros [(-> & -> & Hi)|[Hne Hx]]%list_lookup_insert_Some Hs; [|specialize (Hp _ _ Hx Hs); lia].
    destruct Hcase as [?|[[-> ?]|(y & Hy & Hys & ->)]]; [done|lia|specialize (Hp _ _ Hy Hys); lia].
  - intros i j x y. rewrite Ek.
    intros [(-> & -> & Hi)|[Hni Hx]]%list_lookup_insert_Some [(-> & -> & Hj)|[Hnj Hy]]%list_lookup_insert_Some Hne Hs; [done|..|by eapply Hu].
    + destruct Hcase as [?|[[-> _]|(z & Hz & Hzs & ->)]]; [done|specialize (Hlt _ _ Hy); lia|by eapply Hu].
    + destruct Hcase as [Es|[[-> _]|(z & Hz & Hzs & ->)]]; [|specialize (Hlt _ _ Hx); lia|by eapply Hu].
      destruct (wf_unused _ W' Es) as (_ & _ & _ & -> & _). specialize (Hp _ _ Hx Hs). lia.
Qed.

(** The fields of a slot that the account of its memory depends on. *)
Definition same_space (x x' : proc) : Prop :=
  p_trapframe x' = p_trapframe x ∧ p_pagetable x' = p_pagetable x ∧ p_sz x' = p_sz x.

Lemma same_space_pages m x x' T : same_space x x' → proc_pages m x' T = proc_pages m x T.
Proof. intros (E1 & E2 & E3). unfold proc_pages, tf_pages, pt_pages. by rewrite E1, E2, E3. Qed.

Lemma mem_inv_same k k' Ts L :
  mem_inv k Ts L → k_mach k' = k_mach k → (∀ a, is_Some (k_tframes k !! a) → is_Some (k_tframes k' !! a)) →
  Forall2 same_space (k_procs k) (k_procs k') → mem_inv k' Ts L.
Proof.
  intros [Hf [Hl1 Hl2] Hp Ha] Em Ht HF. pose proof (Forall2_length _ _ _ HF).
  assert (∀ i x, k_procs k' !! i = Some x → ∃ y, k_procs k !! i = Some y ∧ same_space y x) as Hb.
  { intros i x Hx. by apply (Forall2_lookup_r _ _ _ _ _ HF Hx). }
  split; [by rewrite Em|split; congruence|..].
  - intros i x T (y & Hy & Es)%Hb HT. destruct (Hp i y T Hy HT) as [P1 P2 P3]. destruct Es as (E1 & E2 & E3).
    rewrite Em. split; rewrite ?E1, ?E2, ?E3; [naive_solver|done|].
    by rewrite (same_space_pages _ y x).
  - intros i x T j z U (y & Hy & Es)%Hb HT (w & Hw & Ew)%Hb HU Hne. rewrite Em.
    rewrite (same_space_pages _ y x), (same_space_pages _ w z) by done. by eapply Ha.
Qed.

(** ** A slot whose memory has grown *)

(** What [uvmcopy] or [uvmalloc] makes of a slot: it is [y'] now, and its pages and the
    free pages are those there were. *)
Record regrown (k : kernel) (L : list Z) (y : proc) (T : ptree) (m' : machine) (L' : list Z) (y' : proc) (T' : ptree) : Prop := {
  rg_free : free_inv m' L';
  rg_steps : steps_in (page_bytes (proc_pages (k_mach k) y T ++ L)) (k_mach k) m';
  rg_pages : proc_pages m' y' T' ++ L' ≡ₚ proc_pages (k_mach k) y T ++ L;
  rg_slot : slot_ok m' (k_tframes k) L' y' T';
}.

Lemma regrown_inv k Ts L np y T m' L' y' T' fl c :
  mem_inv k Ts L → k_procs k !! np = Some y → Ts !! np = Some T → p_pagetable y ≠ 0 →
  p_trapframe y' = p_trapframe y → p_pagetable y' = p_pagetable y → 0 ≤ p_sz y' → npages (p_sz y) ≤ npages (p_sz y') →
  grown (p_pagetable y) (k_mach k) T L (npages (p_sz y)) fl c m' T' L' (npages (p_sz y')) → regrown k L y T m' L' y' T'.
Proof.
  intros I Hy HT Hpt Et Ep Hs Hle [Sp Htk Hold _ _ Hst]. pose proof (mi_proc _ _ _ I np y T Hy HT) as S.
  destruct (po_pt _ _ _ _ _ S Hpt) as (_ & [Sy St1 St2] & Hl1 & Hl2). destruct top_pages as (? & ? & _ & _ & ? & _).
  destruct grow_max as [HM1 HM2]. pose proof (sp_size _ _ _ _ _ Sy) as Hsy.
  assert (own_pages m' T' (npages (p_sz y')) ++ L' ≡ₚ own_pages (k_mach k) T (npages (p_sz y)) ++ L) as HP.
  { eapply own_pages_took; [exact Sy|exact Sp|done| |exact Htk]. intros va Hva. apply Hold; lia. }
  assert (proc_pages (k_mach k) y T = tf_pages y ++ own_pages (k_mach k) T (npages (p_sz y))) as E1.
  { unfold proc_pages, pt_pages. by rewrite decide_False by done. }
  assert (proc_pages m' y' T' = tf_pages y ++ own_pages m' T' (npages (p_sz y'))) as E2.
  { unfold proc_pages, pt_pages, tf_pages. by rewrite Ep, Et, (decide_False (P := p_pagetable y = 0)) by done. }
  assert (proc_pages m' y' T' ++ L' ≡ₚ proc_pages (k_mach k) y T ++ L) as HPP.
  { rewrite E1, E2, <- !app_assoc. by rewrite HP. }
  split; [apply Sp| |done|].
  - eapply steps_in_mono; [exact Hst|]. intros b Hb. rewrite E1. unfold own_pages.
    eapply page_bytes_mono; [|by eapply pt_bytes_pages; [apply Sy|]]. set_solver.
  - split.
    + rewrite Et. intros Ht. destruct (po_tf _ _ _ _ _ S Ht) as [Hr ?]. split; [|done]. unfold ram_page. by rewrite (proj1 Hst).
    + rewrite Et, Ep. intros _. rewrite !Hold, Hl1, Hl2 by lia. split_and!; [done| |done|done].
      split; [done|rewrite Hold by lia; done..].
    + rewrite HPP. apply (po_nodup _ _ _ _ _ S).
Qed.

End Spec.
