(* ===== verification/ProcAlloc.v ===== *)
(** * Allocating a process (kernel/proc.c)

    [allocproc] takes the first unused slot and gives it a pid, a trapframe and an empty
    page table, or gives every page back when memory runs out. *)

From S2P Require Import Prelude CString Riscv Kalloc Vm PageTable AddrSpace FreeWalk Kernel Sched ProcMem.
From S2P Require Import Sleeplock Bytes Bio Log Uart Printf Console Pipe Fs File Proc ProcSpec.

Definition is_unused (k : kernel) (p : nat) : bool := bool_decide (p_state (proc_at p k) = UNUSED).

(** The slot that [allocproc] takes. *)
Definition first_unused (k : kernel) : option nat := find (is_unused k) (seq 0 (Z.to_nat NPROC)).

(** The state after slot [np] and its memory have changed, and [pid] is the next one. *)
Definition slot_state (pid : Z) (m : machine) (tfs : gmap Z trapframe) (np : nat) (x : proc) (k : kernel) : kernel :=
  k <| k_nextpid := pid |> <| k_mach := m |> <| k_tframes := tfs |> <| k_procs ::= <[np := x]> |>.

Definition new_proc (pid tf pt : Z) (x : proc) : proc :=
  x <| p_pid := pid |> <| p_state := USED |> <| p_trapframe := tf |> <| p_pagetable := pt |>
    <| p_context := Context In_forkret (u64 (p_kstack x + PGSIZE)) |>.

Lemma allocproc_scan_run h k ps :
  (∀ p, L_proc p ∉ h) →
  allocproc_scan ps h k =
    match find (is_unused k) ps with Some p => Ok (Some p) (L_proc p :: h) k | None => Ok None h k end.
Proof.
  intros Hh. induction ps as [|p ps IH]; [done|]. cbn [allocproc_scan find].
  rewrite bind_acquire by done. rewrite bind_getproc. fold (is_unused k p).
  destruct (is_unused k p); [done|]. by rewrite bind_release.
Qed.

Lemma first_unused_Some k np :
  first_unused k = Some np → (np < Z.to_nat NPROC)%nat ∧ p_state (proc_at np k) = UNUSED.
Proof.
  intros E%find_some. destruct E as [Hin Hu]. apply in_seq in Hin. split; [lia|]. by apply bool_decide_eq_true in Hu.
Qed.

Lemma allocpid_run h k :
  L_pid ∉ h → allocpid h k = Ok (k_nextpid k) h (k <| k_nextpid := i32 (k_nextpid k + 1) |>).
Proof. intros Hh. unfold allocpid. rewrite bind_acquire by done. rewrite bind_gets, bind_modify. by rewrite bind_release. Qed.

Section Slot.
Context (k : kernel) (np : nat) (Hnp : (np < length (k_procs k))%nat).

Lemma slot_start pid f x :
  k_procs k !! np = Some x →
  k <| k_nextpid := pid |> <| k_procs ::= alter f np |> = slot_state pid (k_mach k) (k_tframes k) np (f x) k.
Proof.
  intros Hx. pose (v := λ l : list proc, k <| k_nextpid := pid |> <| k_procs := l |>).
  change (v (alter f np (k_procs k)) = v (<[np := f x]> (k_procs k))). f_equal. by apply alter_insert_eq.
Qed.

Lemma slot_at pid m tfs x : k_procs (slot_state pid m tfs np x k) !! np = Some x.
Proof. by apply list_lookup_insert_eq. Qed.

Lemma slot_upd pid m tfs f x :
  (slot_state pid m tfs np x k) <| k_procs ::= alter f np |> = slot_state pid m tfs np (f x) k.
Proof.
  pose (v := λ l : list proc, k <| k_nextpid := pid |> <| k_mach := m |> <| k_tframes := tfs |> <| k_procs := l |>).
  change (v (alter f np (<[np := x]> (k_procs k))) = v (<[np := f x]> (k_procs k))). f_equal.
  rewrite (alter_insert_eq _ _ _ x) by by apply list_lookup_insert_eq. by rewrite list_insert_insert_eq.
Qed.

Lemma slot_mach pid m tfs x m' : (slot_state pid m tfs np x k) <| k_mach := m' |> = slot_state pid m' tfs np x k.
Proof. done. Qed.

Lemma slot_tfs pid m tfs x g : (slot_state pid m tfs np x k) <| k_tframes ::= g |> = slot_state pid m (g tfs) np x k.
Proof. done. Qed.

Lemma slot_freed pid m tfs x m' :
  freeproc_state np x m' (slot_state pid m tfs np x k) = slot_state pid m' (free_tf x tfs) np (freed x) k.
Proof.
  pose (v := λ l : list proc, k <| k_nextpid := pid |> <| k_mach := m' |> <| k_tframes := free_tf x tfs |> <| k_procs := l |>).
  change (v (<[np := freed x]> (<[np := x]> (k_procs k))) = v (<[np := freed x]> (k_procs k))). f_equal.
  apply list_insert_insert_eq.
Qed.
End Slot.

Lemma ram_page_room m p : ram_page m p → page_addr p ∧ p + 8192 < 2 ^ 56.
Proof. intros (H1 & H2 & H3). unfold page_addr. unfold PHYSTOP, KERNBASE in H2. unfold PGSIZE in H1. lia. Qed.

(** Giving up: the slot is free again, and so are the pages it had. *)
Lemma alloc_undo {Img : Image} {A} (v : A) h k np x T L :
  L_kmem ∉ h → L_proc np ∉ h → free_inv (k_mach k) L → k_procs k !! np = Some x → slot_ok (k_mach k) (k_tframes k) L x T →
  ∃ m L', (freeproc np;; release (L_proc np);; mret v) (L_proc np :: h) k = Ok v h (freeproc_state np x m k) ∧
    free_inv m L' ∧ L' ≡ₚ proc_pages (k_mach k) x T ++ L ∧ steps_in (page_bytes (proc_pages (k_mach k) x T ++ L)) (k_mach k) m.
Proof.
  intros Hk Hp Hf Hx S. destruct (freeproc_run (L_proc np :: h) k np x T L) as (m & L' & E & R); [set_solver|done..|].
  exists m, L'. split; [|exact R]. erewrite bind_Ok by exact E. by rewrite bind_release.
Qed.

Section Alloc.
Context {Img : Image} (Htr : page_addr trampoline) (Htr' : trampoline + 8192 < 2 ^ 56).

(** What [allocproc] has done with the free pages [L]. *)
Record alloc_mem (k : kernel) (L : list Z) (m : machine) (tfs : gmap Z trapframe) (L' : list Z) : Prop := {
  am_free : free_inv m L';
  am_steps : steps_in (page_bytes L) (k_mach k) m;
  am_tfs : ∀ a, a ∉ L → tfs !! a = k_tframes k !! a;
}.

Lemma alloc_no_tf h k np x :
  L_pid ∉ h → L_kmem ∉ h → L_proc np ∉ h → free_inv (k_mach k) [] → k_procs k !! np = Some x → p_pagetable x = 0 →
  ∃ m L', allocproc_found np (L_proc np :: h) k =
      Ok None h (slot_state (i32 (k_nextpid k + 1)) m (k_tframes k) np (freed x) k) ∧
    alloc_mem k [] m (k_tframes k) L' ∧ L' ≡ₚ [].
Proof.
  intros Hp Hm Hl Hf Hx Hpt. pose proof (lookup_lt_Some _ _ _ Hx) as Hlt. unfold allocproc_found.
  erewrite bind_Ok by (apply allocpid_run; set_solver). rewrite bind_updproc, (slot_start _ _ _ _ x) by done.
  erewrite bind_Ok by (apply in_mem_Ok, kalloc_empty; [set_solver|done]).
  rewrite slot_mach, bind_updproc, slot_upd by done. cbn [Z.eqb]. set (x2 := x <| p_pid := _ |> <| p_state := _ |> <| p_trapframe := _ |>).
  destruct (alloc_undo (@None nat) h (slot_state (i32 (k_nextpid k + 1)) (k_mach k) (k_tframes k) np x2 k) np x2 ∅ [] Hm Hl Hf)
    as (m & L' & E & F & P & St); [by apply slot_at| |].
  { split; [done|intros ?; by subst x2|]. unfold proc_pages, tf_pages, pt_pages. cbn. rewrite Hpt. constructor. }
  assert (proc_pages (k_mach k) x2 ∅ = []) as Ep by (unfold proc_pages, tf_pages, pt_pages; cbn; by rewrite Hpt).
  change (k_mach (slot_state _ _ _ _ _ _)) with (k_mach k) in *. rewrite Ep in P, St.
  exists m, L'. split; [|by split]. rewrite E. f_equal. by rewrite slot_freed.
Qed.

(** The page table is built, or given back together with the trapframe. *)
Lemma alloc_with_tf h k np x tf L :
  L_pid ∉ h → L_kmem ∉ h → L_proc np ∉ h → free_inv (k_mach k) (tf :: L) → k_procs k !! np = Some x →
  p_pagetable x = 0 →
  ∃ m tfs L', alloc_mem k (tf :: L) m tfs L' ∧
    (allocproc_found np (L_proc np :: h) k = Ok None h (slot_state (i32 (k_nextpid k + 1)) m tfs np (freed x) k) ∧
       L' ≡ₚ tf :: L ∧ (length L < 5)%nat ∨
     ∃ pt T, allocproc_found np (L_proc np :: h) k =
         Ok (Some np) (L_proc np :: h) (slot_state (i32 (k_nextpid k + 1)) m tfs np (new_proc (k_nextpid k) tf pt x) k) ∧
       pt ≠ 0 ∧ new_space m T pt L' trampoline tf ∧ tfs !! tf = Some new_tf ∧ tf :: tpages 3 T [] ++ L' ≡ₚ tf :: L ∧
       (length L ≤ length L' + 5)%nat).
Proof.
  intros Hp Hm Hl Hf Hx Hpt. pose proof (lookup_lt_Some _ _ _ Hx) as Hlt.
  pose proof (proj2 (proj2 Hf)) as HR. apply Forall_cons in HR as [Htf _]. pose proof (proj1 (proj2 Hf)) as HN.
  assert (tf ≠ 0) as Hn0 by (destruct Htf; lia). destruct (kalloc_post_inv _ _ _ Hf) as [Hf1 St1].
  unfold allocproc_found. erewrite bind_Ok by (apply allocpid_run; set_solver). rewrite bind_updproc, (slot_start _ _ _ _ x) by done.
  erewrite bind_Ok by (apply in_mem_Ok; eapply kalloc_run; [set_solver|done]).
  rewrite slot_mach, bind_updproc, slot_upd by done. rewrite (proj2 (Z.eqb_neq tf 0)) by done.
  rewrite bind_modify. set (s1 := kalloc_post (k_mach k) tf) in *.
  destruct (proc_pagetable_ok (L_proc np :: h) s1 L trampoline tf) as (pt & s2 & E & L2 & St2 & Hf2 & R);
    [set_solver|done|done|done|apply (ram_page_room _ _ Htf)..|].
  rewrite slot_tfs. erewrite bind_Ok by exact (in_mem_Ok _ _ _ _ _ _ E). rewrite slot_mach, bind_updproc, slot_upd by done.
  assert (steps_in (page_bytes (tf :: L)) (k_mach k) s2) as St.
  { eapply steps_in_trans; eapply steps_in_mono; [exact St1| |exact St2|].
    - intros b Hb. exists tf. split; [by left|done].
    - intros b. apply page_bytes_mono. set_solver. }
  destruct R as [(-> & HP & Hlen)|(Hne & Hlen & T & Hsp & HP)].
  - cbn [Z.eqb]. set (x2 := x <| p_pid := _ |> <| p_state := _ |> <| p_trapframe := _ |> <| p_pagetable := _ |>).
    set (tfs := <[tf := new_tf]> (k_tframes k)).
    assert (proc_pages s2 x2 ∅ = [tf]) as Ep.
    { unfold proc_pages, tf_pages, pt_pages. cbn. by rewrite decide_False by done. }
    destruct (alloc_undo (@None nat) h (slot_state (i32 (k_nextpid k + 1)) s2 tfs np x2 k) np x2 ∅ L2 Hm Hl Hf2)
      as (m & L' & E' & F & P & St3); [by apply slot_at| |].
    { split; [|done|].
      - intros _. split; [unfold ram_page; change (k_mach (slot_state _ _ _ _ _ _)) with s2; rewrite (proj1 St); exact Htf|].
        exists new_tf. apply lookup_insert_eq.
      - cbn [slot_state k_mach]. change (k_mach (slot_state _ _ _ _ _ _)) with s2. rewrite Ep, HP. done. }
    change (k_mach (slot_state _ _ _ _ _ _)) with s2 in *. rewrite Ep in P, St3.
    exists m, (delete tf tfs), L'. split.
    + split; [done| |].
      * eapply steps_in_trans; [exact St|]. eapply steps_in_mono; [exact St3|]. intros b. apply page_bytes_perm. by rewrite HP.
      * intros a Ha. unfold tfs. rewrite lookup_delete_ne, lookup_insert_ne by set_solver. done.
    + left. split; [|split; [by rewrite P, HP|done]]. rewrite E'. f_equal. rewrite slot_freed. unfold free_tf.
      change (p_trapframe x2) with tf. by rewrite (proj2 (Z.eqb_neq tf 0)) by done.
  - rewrite (proj2 (Z.eqb_neq pt 0)) by done. exists s2, (<[tf := new_tf]> (k_tframes k)), L2. split.
    + split; [done|done|]. intros a Ha. rewrite lookup_insert_ne by set_solver. done.
    + right. exists pt, T. split_and!; [|done|done|by rewrite lookup_insert_eq|by rewrite HP|done].
      rewrite bind_updproc, slot_upd by done. done.
Qed.
Lemma own_pages_none m T : own_pages m T 0 = tpages 3 T [].
Proof. unfold own_pages. apply app_nil_r. Qed.

Lemma unused_pages m x T : proc_wf x → p_state x = UNUSED → proc_pages m x T = [].
Proof.
  intros W Hu. destruct (wf_unused _ W Hu) as (E1 & E2 & _). unfold proc_pages, tf_pages, pt_pages.
  by rewrite E1, E2.
Qed.

Lemma new_slot_ok m tfs L x T pid tf pt :
  ram_page m tf → is_Some (tfs !! tf) → p_sz x = 0 → pt ≠ 0 → new_space m T pt L trampoline tf → NoDup (tf :: tpages 3 T [] ++ L) →
  slot_ok m tfs L (new_proc pid tf pt x) T ∧ proc_pages m (new_proc pid tf pt x) T = tf :: tpages 3 T [].
Proof.
  intros Hr Ht Hsz Hpt [Sp Hl] HN. assert (tf ≠ 0) as H0 by (destruct Hr; lia). destruct top_pages as (? & ? & _ & _ & ? & _).
  assert (proc_pages m (new_proc pid tf pt x) T = tf :: tpages 3 T []) as Ep.
  { unfold proc_pages, tf_pages, pt_pages. cbn. rewrite Hsz, !decide_False by done. change (npages 0) with 0. by rewrite own_pages_none. }
  split; [|done]. split; [done| |by rewrite Ep].
  intros _. cbn. rewrite Hsz. split_and!; [lia|exact Sp|..].
  - rewrite Hl by lia. by rewrite decide_True by lia.
  - rewrite Hl by lia. by rewrite decide_False, decide_True by lia.
Qed.

(** [allocproc] fails without taking a page, or takes the first unused slot. *)
Lemma allocproc_ok h k Ts L :
  (∀ p, L_proc p ∉ h) → L_pid ∉ h → L_kmem ∉ h → mem_inv k Ts L → Forall proc_wf (k_procs k) →
  match first_unused k with
  | None => allocproc h k = Ok None h k
  | Some np => ∃ x m tfs L', k_procs k !! np = Some x ∧ p_state x = UNUSED ∧ alloc_mem k L m tfs L' ∧
     (let k' := slot_state (i32 (k_nextpid k + 1)) m tfs np (freed x) k in
      allocproc h k = Ok None h k' ∧ mem_inv k' (<[np := ∅]> Ts) L' ∧ L' ≡ₚ L ∧ (length L < 6)%nat ∨
      ∃ tf pt T, let k' := slot_state (i32 (k_nextpid k + 1)) m tfs np (new_proc (k_nextpid k) tf pt x) k in
        allocproc h k = Ok (Some np) (L_proc np :: h) k' ∧ mem_inv k' (<[np := T]> Ts) L' ∧
        tf ≠ 0 ∧ pt ≠ 0 ∧ new_space m T pt L' trampoline tf ∧ tfs !! tf = Some new_tf ∧ tf :: tpages 3 T [] ++ L' ≡ₚ L ∧
        (length L ≤ length L' + 6)%nat)
  end.
Proof.
  intros Hl Hp Hm I W. unfold allocproc.
  pose proof (allocproc_scan_run h k (seq 0 (Z.to_nat NPROC)) Hl) as Es. fold (first_unused k) in Es.
  destruct (first_unused k) as [np|] eqn:Eu; [|by erewrite bind_Ok by exact Es]. erewrite bind_Ok by exact Es.
  destruct (first_unused_Some k np Eu) as [Hlt Hu]. pose proof (mi_len _ _ _ I) as [Hl1 Hl2].
  destruct (lookup_lt_is_Some_2 (k_procs k) np) as [x Hx]; [lia|]. rewrite (proc_at_lookup _ _ _ Hx) in Hu.
  destruct (lookup_lt_is_Some_2 Ts np) as [T0 HT0]; [lia|].
  pose proof (Forall_lookup_1 _ _ _ _ W Hx) as Wx. destruct (wf_unused _ Wx Hu) as (_ & Hpt & Hsz & _).
  pose proof (unused_pages (k_mach k) x T0 Wx Hu) as Ep. pose proof (mi_free _ _ _ I) as Hf.
  assert (∀ m tfs L' x' T', alloc_mem k L m tfs L' → slot_ok m tfs L' x' T' → proc_pages m x' T' ++ L' ≡ₚ L →
    mem_inv (slot_state (i32 (k_nextpid k + 1)) m tfs np x' k) (<[np := T']> Ts) L') as Hupd.
  { intros m tfs L' x' T' [A1 A2 A3] So HP. eapply mem_inv_update; [done|done|done|..]; rewrite ?Ep; cbn; done. }
  exists x. destruct L as [|tf L].
  - destruct (alloc_no_tf h k np x) as (m & L' & E & A & P); [done..|]. exists m, (k_tframes k), L'. split_and!; [done..|].
    left. split; [done|]. split; [|split; [done|cbn; lia]]. apply Hupd; [done|apply blank_slot_ok, A|done].
  - destruct (alloc_with_tf h k np x tf L) as (m & tfs & L' & A & R); [done..|]. exists m, tfs, L'. split_and!; [done..|].
    destruct R as [(E & P & Hlen)|(pt & T & E & Hpt' & Sp & Htf & P & Hlen)]; [left|right].
    + split; [done|]. split; [|split; [done|cbn; lia]]. apply Hupd; [done|apply blank_slot_ok, A|done].
    + exists tf, pt, T. pose proof (proj2 (proj2 Hf)) as HR. apply Forall_cons in HR as [Hr _].
      destruct (new_slot_ok m tfs L' x T (k_nextpid k) tf pt) as [So Ep']; [|by rewrite Htf|done|done|done|rewrite P; apply Hf|].
      { unfold ram_page. rewrite (proj1 (am_steps _ _ _ _ _ A)). exact Hr. }
      split; [done|]. split; [|split_and!; [destruct Hr; lia|done..|cbn; lia]]. apply Hupd; [done|done|by rewrite Ep'].
Qed.
End Alloc.
