(* ===== verification/ProcFork.v ===== *)
(** * fork (kernel/proc.c)

    [fork] makes a child with a copy of the parent's memory, registers and open files,
    or fails and gives back every page. *)

From S2P Require Import Prelude CString Riscv Kalloc Vm PageTable AddrSpace FreeWalk Kernel Sched ProcMem.
From S2P Require Import Sleeplock Bytes Bio Log Uart Printf Console Pipe Fs File Proc ProcSpec ProcAlloc.

(** ** The open files of the child *)

(** How often a file occurs among the descriptors [os]. *)
Definition fd_count (f : nat) (os : list (option nat)) : nat := length (filter (λ o, o = Some f) os).

(** The file table after [filedup] of every open descriptor in [os]. *)
Definition dups (os : list (option nat)) (ft : list file) : list file :=
  imap (λ f x, x <| f_ref ::= λ n, n + Z.of_nat (fd_count f os) |>) ft.

Lemma fd_count_app f os os' : fd_count f (os ++ os') = (fd_count f os + fd_count f os')%nat.
Proof. unfold fd_count. by rewrite filter_app, length_app. Qed.

Lemma fd_count_le f os : (fd_count f os ≤ length os)%nat.
Proof. apply length_filter. Qed.

Lemma fd_count_one f o : fd_count f [o] = if decide (o = Some f) then 1%nat else 0%nat.
Proof. unfold fd_count. rewrite filter_cons. by case_decide. Qed.

Lemma dups_nil ft : dups [] ft = ft.
Proof.
  apply list_eq. intros f. unfold dups. rewrite list_lookup_imap. destruct (ft !! f) as [[]|]; [|done].
  unfold upd_field. cbn. do 2 f_equal. lia.
Qed.

Lemma dups_lookup os ft f x :
  ft !! f = Some x → dups os ft !! f = Some (x <| f_ref ::= λ n, n + Z.of_nat (fd_count f os) |>).
Proof. intros E. unfold dups. by rewrite list_lookup_imap, E. Qed.

Lemma dups_snoc_None os ft : dups (os ++ [None]) ft = dups os ft.
Proof.
  apply list_eq. intros f. unfold dups. rewrite !list_lookup_imap, fd_count_app. destruct (ft !! f) as [x|]; [|done].
  cbn. by rewrite Nat.add_0_r.
Qed.

Lemma dups_snoc_Some os ft f x :
  ft !! f = Some x → 0 ≤ f_ref x < 2 ^ 31 - 1 - Z.of_nat (length os) →
  alter (λ x, x <| f_ref ::= λ n, i32 (n + 1) |>) f (dups os ft) = dups (os ++ [Some f]) ft.
Proof.
  intros Hx Hb. pose proof (fd_count_le f os). apply list_eq. intros g. unfold dups. destruct (decide (f = g)) as [<-|Hne].
  - rewrite list_lookup_alter_eq, !list_lookup_imap, fd_count_app, fd_count_one, decide_True, Hx by done. cbn [fmap option_fmap option_map]. f_equal.
    destruct x. unfold upd_field. cbn in *. rewrite i32_small by lia. f_equal. lia.
  - rewrite list_lookup_alter_ne, !list_lookup_imap, fd_count_app, fd_count_one, decide_False by congruence. by rewrite Nat.add_0_r.
Qed.

(** Every open file of the parent may be duplicated. *)
Definition dupable (os : list (option nat)) (ft : list file) : Prop :=
  ∀ f, Some f ∈ os → ∃ x, ft !! f = Some x ∧ 1 ≤ f_ref x < 2 ^ 31 - 1 - NOFILE.

Lemma filedup_run h k f x :
  L_ftable ∉ h → k_ftable k !! f = Some x → 1 ≤ f_ref x →
  filedup f h k = Ok f h (k <| k_ftable ::= alter (λ x, x <| f_ref ::= λ n, i32 (n + 1) |>) f |>).
Proof.
  intros Hh Hx Hr. unfold filedup. rewrite bind_acquire by done. unfold getfile. rewrite bind_gets.
  unfold file_at. rewrite Hx. cbn [default from_option id]. rewrite (proj2 (Z.ltb_ge _ _)) by lia.
  unfold updfile. rewrite bind_modify. by rewrite bind_release.
Qed.

Section Files.
Context (k : kernel) (p np : nat) (x y : proc).
Context (Hx : k_procs k !! p = Some x) (Hne : p ≠ np) (Hnp : (np < length (k_procs k))%nat).
Context (Hlen : length (p_ofile x) = Z.to_nat NOFILE) (Hdup : dupable (p_ofile x) (k_ftable k)).

(** The child has the first descriptors of the parent. *)
Definition child_files (os : list (option nat)) : kernel :=
  k <| k_ftable := dups os (k_ftable k) |>
    <| k_procs ::= <[np := y <| p_ofile := os ++ replicate (Z.to_nat NOFILE - length os) None |>]> |>.

Lemma child_files_step os o os' h :
  L_ftable ∉ h → p_ofile x = os ++ o :: os' →
  (match p_ofile x !! length os with
   | Some (Some f) => f ← filedup f; updproc np (λ x, x <| p_ofile ::= <[length os := Some f]> |>)
   | _ => mret tt
   end) h (child_files os) = Ok tt h (child_files (os ++ [o])).
Proof.
  intros Hh E. rewrite E, list_lookup_middle by done.
  assert (length os < Z.to_nat NOFILE)%nat as Hlo by (rewrite <- Hlen, E, length_app; cbn; lia).
  assert (∀ v, <[length os := v]> (os ++ replicate (Z.to_nat NOFILE - length os) None) =
    (os ++ [v]) ++ replicate (Z.to_nat NOFILE - length (os ++ [v])) (None : option nat)) as Hins.
  { intros v. rewrite length_app. cbn [length]. replace (Z.to_nat NOFILE - length os)%nat with (S (Z.to_nat NOFILE - (length os + 1))) by lia.
    cbn [replicate]. rewrite insert_app_r_alt, Nat.sub_diag by lia. cbn. by rewrite <- app_assoc. }
  destruct o as [f|].
  - destruct (Hdup f) as (z & Hz & Hr); [rewrite E; set_solver|].
    erewrite bind_Ok by (eapply filedup_run; [done|by apply dups_lookup|cbn; lia]).
    unfold updproc, modify. f_equal. unfold child_files.
    pose (v := λ ft l, k <| k_ftable := ft |> <| k_procs := l |>).
    set (y1 := y <| p_ofile := _ |>).
    change (v (alter (λ x, x <| f_ref ::= λ n, i32 (n + 1) |>) f (dups os (k_ftable k)))
        (alter (λ x, x <| p_ofile ::= <[length os := Some f]> |>) np (<[np := y1]> (k_procs k))) =
      v (dups (os ++ [Some f]) (k_ftable k))
        (<[np := y <| p_ofile := (os ++ [Some f]) ++ replicate (Z.to_nat NOFILE - length (os ++ [Some f])) None |>]> (k_procs k))).
    f_equal; [apply (dups_snoc_Some _ _ _ z); [done|unfold NOFILE in *; lia]|].
    rewrite (alter_insert_eq _ _ _ y1) by by apply list_lookup_insert_eq. rewrite list_insert_insert_eq. f_equal.
    unfold y1. rewrite <- Hins. done.
  - unfold mret, M_ret. f_equal. unfold child_files. rewrite dups_snoc_None, <- Hins, list_insert_id; [done|].
    rewrite lookup_app_r by lia. rewrite Nat.sub_diag. apply lookup_replicate. split; [done|lia].
Qed.

Lemma fork_files_run os os' h :
  L_ftable ∉ h → p_ofile x = os ++ os' →
  fork_files (seq (length os) (length os')) p np h (child_files os) = Ok tt h (child_files (p_ofile x)).
Proof.
  intros Hh. revert os. induction os' as [|o os' IH]; intros os E; [by rewrite E, app_nil_r|]. cbn [length seq fork_files].
  rewrite bind_getproc. assert (proc_at p (child_files os) = x) as ->.
  { apply proc_at_lookup. unfold child_files. cbn. by rewrite list_lookup_insert_ne. }
  erewrite bind_Ok by (by eapply child_files_step). specialize (IH (os ++ [o])).
  rewrite length_app, Nat.add_1_r in IH. apply IH. by rewrite <- app_assoc.
Qed.
End Files.

(** ** The memory of the child *)

(** Two address spaces have the same contents and permissions in their first [n] pages. *)
Definition same_memory (m : machine) (T : ptree) (m' : machine) (T' : ptree) (n : Z) : Prop :=
  ∀ va, 0 ≤ va < n * 4096 →
    PTE_FLAGS (leaf (m_mem m') T' va) = PTE_FLAGS (leaf (m_mem m) T va) ∧
    load8 (m_mem m') (PTE2PA (leaf (m_mem m') T' va) + va mod 4096) =
      load8 (m_mem m) (PTE2PA (leaf (m_mem m) T va) + va mod 4096).

Section Copy.
Context {Img : Image}.

(** The user pages and tables of one process are apart from those of another and from
    the free pages. *)
Lemma spaces_apart k Ts L p x Tp np y Tn :
  mem_inv k Ts L → k_procs k !! p = Some x → Ts !! p = Some Tp → k_procs k !! np = Some y → Ts !! np = Some Tn → p ≠ np →
  p_pagetable x ≠ 0 → p_pagetable y ≠ 0 →
  ∀ b, table_bytes Tp b ∨ page_bytes (pas (leaf (m_mem (k_mach k)) Tp) 0 (Z.to_nat (npages (p_sz x)))) b → ¬ pt_bytes Tn L b.
Proof.
  intros I Hx HTp Hy HTn Hne Hpx Hpy b Hb Hc. pose proof (mi_proc _ _ _ I) as HP.
  destruct (po_pt _ _ _ _ _ (HP _ _ _ Hx HTp) Hpx) as (_ & [Sx _ _] & _).
  destruct (po_pt _ _ _ _ _ (HP _ _ _ Hy HTn) Hpy) as (_ & [Sy _ _] & _).
  destruct (own_pages_apart _ _ _ _ _ Sx) as [HNx HRx]. destruct (own_pages_apart _ _ _ _ _ Sy) as [HNy HRy].
  apply (pages_apart (k_mach k) (own_pages (k_mach k) Tp (npages (p_sz x))) (tpages 3 Tn [] ++ L) b).
  - apply NoDup_app in HNx as (N1 & N2 & N3). apply NoDup_app. split_and!; [done| |by eapply tpages_apart, Sy].
    intros q Hq. rewrite elem_of_app. intros [Hq'|Hq']; [|by apply (N2 q)].
    apply (mi_apart _ _ _ I p x Tp np y Tn Hx HTp Hy HTn Hne q); apply elem_of_app; right; unfold pt_pages;
      rewrite decide_False by done; [done|]. apply elem_of_app. by left.
  - done.
  - apply Forall_app. apply Forall_app in HRy as [? _]. split; [done|]. apply (mi_free _ _ _ I).
  - destruct Hb as [Hb|Hb]; [|by eapply page_bytes_mono; [|exact Hb]; apply list_subseteq_app_r].
    eapply page_bytes_mono; [apply list_subseteq_app_l; reflexivity|].
    rewrite <- (app_nil_r (tpages 3 Tp [])). eapply pt_bytes_pages; [apply Sx|by left].
  - eapply pt_bytes_pages; [apply Sy|done].
Qed.
Lemma fork_copy h k Ts L p x Tp np y Tn :
  L_kmem ∉ h → mem_inv k Ts L → k_procs k !! p = Some x → Ts !! p = Some Tp →
  k_procs k !! np = Some y → Ts !! np = Some Tn → p ≠ np → p_pagetable x ≠ 0 → p_pagetable y ≠ 0 → p_sz y = 0 →
  ∃ r m' T' L', uvmcopy (p_pagetable x) (p_pagetable y) (p_sz x) h (k_mach k) = Ok r h m' ∧
    (r = 0 ∧ regrown k L y Tn m' L' (y <| p_sz := p_sz x |>) T' ∧ same_memory (k_mach k) Tp m' T' (npages (p_sz x)) ∨
     r = -1 ∧ regrown k L y Tn m' L' y T' ∧ Z.of_nat (length L) < 3 * npages (p_sz x)).
Proof.
  intros Hh I Hx HTp Hy HTn Hne Hpx Hpy Hsz. pose proof (mi_proc _ _ _ I) as HP.
  destruct (po_pt _ _ _ _ _ (HP _ _ _ Hx HTp) Hpx) as (Hs & [Sx _ _] & _).
  destruct (po_pt _ _ _ _ _ (HP _ _ _ Hy HTn) Hpy) as (_ & [Sy _ _] & _). rewrite Hsz in Sy.
  destruct (uvmcopy_copies h (p_pagetable x) (p_pagetable y) (k_mach k) Tp Tn L (npages (p_sz x)) Hh Sx Sy
    (spaces_apart k Ts L p x Tp np y Tn I Hx HTp Hy HTn Hne Hpx Hpy) (p_sz x) eq_refl Hs) as (r & m' & T' & L' & E & R).
  exists r, m', T', L'. split; [done|]. destruct R as [[-> G]|(-> & G & Hlen)]; [left|right]; (split; [done|]).
  - split; [eapply regrown_inv; try done; rewrite Hsz; [by apply Z.div_pos; cbn; lia|exact G]|]. intros va Hva. split; [|by apply (gr_bytes _ _ _ _ _ _ _ _ _ _ _ G)].
    rewrite (gr_flags _ _ _ _ _ _ _ _ _ _ _ G) by done. by eapply copied_flags.
  - split; [|done]. eapply regrown_inv; try done; [by rewrite Hsz|by rewrite Hsz].
Qed.

End Copy.

(** ** The rest of fork *)

Definition at_slot (np : nat) (z : proc) (k : kernel) : kernel := k <| k_procs ::= <[np := z]> |>.

Lemma at_slot_upd np z k f :
  (np < length (k_procs k))%nat → (at_slot np z k) <| k_procs ::= alter f np |> = at_slot np (f z) k.
Proof.
  intros Hnp. pose (v := λ l : list proc, k <| k_procs := l |>).
  change (v (alter f np (<[np := z]> (k_procs k))) = v (<[np := f z]> (k_procs k))). f_equal.
  rewrite (alter_insert_eq _ _ _ z) by by apply list_lookup_insert_eq. apply list_insert_insert_eq.
Qed.

Lemma at_slot_proc np z k : (np < length (k_procs k))%nat → proc_at np (at_slot np z k) = z.
Proof. intros Hnp. apply proc_at_lookup. by apply list_lookup_insert_eq. Qed.

Lemma fork_files_all k p np x z h :
  k_procs k !! p = Some x → p ≠ np → (np < length (k_procs k))%nat →
  length (p_ofile x) = Z.to_nat NOFILE → dupable (p_ofile x) (k_ftable k) → L_ftable ∉ h → p_ofile z = replicate (Z.to_nat NOFILE) None →
  fork_files (seq 0 (Z.to_nat NOFILE)) p np h (at_slot np z k) =
    Ok tt h (at_slot np (z <| p_ofile := p_ofile x |>) (k <| k_ftable ::= dups (p_ofile x) |>)).
Proof.
  intros Hx Hne Hnp Hlen Hdup Hh Hz. pose proof (fork_files_run k p np x z Hx Hne Hnp Hlen Hdup [] (p_ofile x) h Hh eq_refl) as E.
  rewrite Hlen in E. cbn [length] in E. unfold child_files in E.
  rewrite dups_nil in E. cbn [length app] in E. rewrite Nat.sub_0_r, <- Hz in E.
  rewrite Hlen, Nat.sub_diag in E. cbn [replicate] in E. rewrite app_nil_r in E.
  replace (z <| p_ofile := p_ofile z |>) with z in E by by destruct z. exact E.
Qed.

(** The child [y] of [p] once [fork] has filled in its slot. *)
Definition child_of (p : nat) (x : proc) (c : nat) (y : proc) : proc :=
  y <| p_sz := p_sz x |> <| p_ofile := p_ofile x |> <| p_cwd := Some c |>
    <| p_name := safestrcpy (p_name y) (p_name x) 16 |> <| p_parent := Some p |> <| p_state := RUNNABLE |>.

Section Tail.
Context (k : kernel) (p np c : nat) (x y : proc).
Context (Hx : k_procs k !! p = Some x) (Hne : p ≠ np) (Hnp : (np < length (k_procs k))%nat).
Context (Hlen : length (p_ofile x) = Z.to_nat NOFILE) (Hdup : dupable (p_ofile x) (k_ftable k)).
Context (Hc : p_cwd x = Some c) (Hno : p_ofile y = replicate (Z.to_nat NOFILE) None).

Definition forked : kernel :=
  at_slot np (child_of p x c y)
    (k <| k_tframes ::= alter (λ _, set_reg (R_a 0) 0 (tf_at (p_trapframe x) k)) (p_trapframe y) |>
       <| k_ftable ::= dups (p_ofile x) |>
       <| k_itable ::= alter (λ i, i <| i_ref ::= λ n, i32 (n + 1) |>) c |>).

Lemma fork_tail :
  (updproc np (λ y, y <| p_sz := p_sz x |>);;
   tf ← gettf (p_trapframe x);
   updtf (p_trapframe y) (λ _, set_reg (R_a 0) 0 tf);;
   fork_files (seq 0 (Z.to_nat NOFILE)) p np;;
   cwd ← nonnull (p_cwd x);
   cwd ← idup cwd;
   updproc np (λ y, y <| p_cwd := Some cwd |>);;
   updproc np (λ y, y <| p_name ::= λ name, safestrcpy name (p_name x) 16 |>);;
   y ← getproc np;
   let pid := p_pid y in
   release (L_proc np);;
   acquire L_wait;;
   updproc np (λ y, y <| p_parent := Some p |>);;
   release L_wait;;
   acquire (L_proc np);;
   updproc np (λ y, y <| p_state := RUNNABLE |>);;
   release (L_proc np);;
   mret pid) [L_proc np] (at_slot np y k) = Ok (p_pid y) [] forked.
Proof using Hx Hne Hnp Hlen Hdup Hc Hno.
  rewrite bind_updproc, at_slot_upd by done. unfold gettf, updtf. rewrite bind_gets, bind_modify.
  change (tf_at (p_trapframe x) (at_slot np _ k)) with (tf_at (p_trapframe x) k).
  set (k1 := k <| k_tframes ::= alter (λ _, set_reg (R_a 0) 0 (tf_at (p_trapframe x) k)) (p_trapframe y) |>).
  change (_ <| k_tframes ::= _ |>) with (at_slot np (y <| p_sz := p_sz x |>) k1).
  erewrite bind_Ok by (eapply fork_files_all; [exact Hx|done..|set_solver|done]).
  rewrite Hc. unfold nonnull. rewrite bind_ret. unfold idup, updinode. rewrite bind_assoc, bind_acquire by set_solver.
  rewrite bind_assoc, bind_modify, bind_assoc, bind_release by set_solver. rewrite bind_ret.
  set (k2 := (k1 <| k_ftable ::= dups (p_ofile x) |>) <| k_itable ::= alter (λ i, i <| i_ref ::= λ n, i32 (n + 1) |>) c |>).
  change (_ <| k_itable ::= _ |>) with (at_slot np (y <| p_sz := p_sz x |> <| p_ofile := p_ofile x |>) k2).
  rewrite !bind_updproc, !at_slot_upd by done. rewrite bind_getproc, at_slot_proc by done. cbv zeta.
  rewrite bind_release, bind_acquire by set_solver. rewrite bind_updproc, at_slot_upd by done.
  rewrite bind_release, bind_acquire by set_solver. rewrite bind_updproc, at_slot_upd by done.
  rewrite bind_release by set_solver. reflexivity.
Qed.
End Tail.

(** ** The account of file references *)

(** How many descriptors of all processes refer to a file. *)
Definition fd_refs (f : nat) (ps : list proc) : nat :=
  foldr (λ x n, fd_count f (p_ofile x) + n)%nat 0%nat ps.

Lemma fd_refs_insert f ps i y y' :
  ps !! i = Some y → (fd_refs f (<[i := y']> ps) + fd_count f (p_ofile y) = fd_refs f ps + fd_count f (p_ofile y'))%nat.
Proof.
  revert i. induction ps as [|z ps IH]; intros [|i] E; [done..| |].
  - injection E as ->. unfold fd_refs. cbn. lia.
  - specialize (IH i E). change (<[S i := y']> (z :: ps)) with (z :: <[i := y']> ps). unfold fd_refs in *. cbn [foldr]. lia.
Qed.

Lemma fd_count_closed f n : fd_count f (replicate n None) = 0%nat.
Proof. unfold fd_count. by induction n. Qed.

(** The references of a file that no descriptor accounts for: those of operations under way. *)
Definition refs_extra (f : nat) (k : kernel) : Z := f_ref (file_at f k) - Z.of_nat (fd_refs f (k_procs k)).

Section Fork.
Context {Img : Image} (Htr : page_addr trampoline) (Htr' : trampoline + 8192 < 2 ^ 56).
Context (k : kernel) (Ts : list ptree) (L : list Z) (p : nat) (x : proc) (Tp : ptree) (c : nat).
Context (I : proc_inv k Ts L) (Hpid : k_nextpid k < 2 ^ 31 - 1).
Context (Hcur : k_cur k = Some p) (Hx : k_procs k !! p = Some x) (Hu : p_state x ≠ UNUSED) (HTp : Ts !! p = Some Tp).
Context (Hc : p_cwd x = Some c) (Hdup : dupable (p_ofile x) (k_ftable k)).

(** The state [k'] after [fork] has failed: the pages and everything but an unused slot
    are what they were. *)
Definition fork_failed (k' : kernel) (Ts' : list ptree) (L' : list Z) : Prop :=
  proc_inv k' Ts' L' ∧ L' ≡ₚ L ∧ steps_in (page_bytes L) (k_mach k) (k_mach k') ∧
  k_ftable k' = k_ftable k ∧ k_itable k' = k_itable k ∧
  ∀ i y, k_procs k !! i = Some y → p_state y ≠ UNUSED → k_procs k' !! i = Some y.

Lemma fork_undone np y y' m tfs Ts' L' :
  let k' := slot_state (i32 (k_nextpid k + 1)) m tfs np (freed y') k in
  k_procs k !! np = Some y → p_state y = UNUSED → mem_inv k' Ts' L' → L' ≡ₚ L → steps_in (page_bytes L) (k_mach k) m →
  p_ofile y' = p_ofile y → p_cwd y' = p_cwd y → p_name y' = p_name y → fork_failed k' Ts' L'.
Proof using I Hpid.
  intros k' Hy Eu M HP St E1 E2 E3. pose proof (Forall_lookup_1 _ _ _ _ (pi_wf _ _ _ I) Hy) as W.
  destruct (wf_closed _ W (or_introl Eu)) as [Ho Hcw]. pose proof (pi_next _ _ _ I).
  assert (proc_inv k' Ts' L') as I'.
  { eapply (proc_inv_update k Ts L k'); [done|done|reflexivity| | |by left].
    - apply freed_wf; rewrite ?E1, ?E2, ?E3; [apply W|done..].
    - unfold k'. cbn. rewrite i32_small by lia. lia. }
  split; [done|]. split; [done|]. split; [exact St|]. split; [done|]. split; [done|].
  intros i z Hz Hs. unfold k'. cbn. rewrite list_lookup_insert_ne; [done|]. congruence.
Qed.

(** The memory of the child once it is complete. *)
Lemma fork_done np y tfs m T L1 m' T' L' tf pt (y1 := new_proc (k_nextpid k) tf pt y)
    (k1 := slot_state (i32 (k_nextpid k + 1)) m tfs np y1 k) (k2 := k <| k_nextpid := i32 (k_nextpid k + 1) |> <| k_mach := m' |> <| k_tframes := tfs |>) :
  k_procs k !! np = Some y → p_state y = UNUSED → tf ≠ 0 → pt ≠ 0 → mem_inv k1 (<[np := T]> Ts) L1 →
  regrown k1 L1 y1 T m' L' (y1 <| p_sz := p_sz x |>) T' →
  proc_inv (forked k2 p np c x y1) (<[np := T']> Ts) L'.
Proof using I Hpid Hx Hu.
  intros Hy Eu Htf Hpt M [G1 G2 G3 G4]. pose proof (lookup_lt_Some _ _ _ Hy) as Hlt. pose proof (mi_len _ _ _ M) as [_ Hlen].
  rewrite length_insert in Hlen. pose proof (mi_len _ _ _ (pi_mem _ _ _ I)) as [Hl _]. pose proof (pi_next _ _ _ I).
  pose proof (Forall_lookup_1 _ _ _ _ (pi_wf _ _ _ I) Hy) as W. pose proof (Forall_lookup_1 _ _ _ _ (pi_wf _ _ _ I) Hx) as Wx.
  assert (mem_inv (at_slot np (y1 <| p_sz := p_sz x |>) k2) (<[np := T']> Ts) L') as M2.
  { rewrite <- (list_insert_insert_eq Ts np T' T).
    eapply (mem_inv_update k1 _ L1 _ np y1 T); [done|by apply slot_at|by apply list_lookup_insert_eq; lia|..];
      [by cbn; rewrite list_insert_insert_eq|exact G1|exact G2|done|exact G3|exact G4]. }
  eapply (proc_inv_update k Ts L _ _ _ np (child_of p x c y1)); [exact I| |done| | |].
  - eapply mem_inv_same; [exact M2|done| |].
    + intros a [t Ha]. unfold forked. cbn. apply lookup_alter_is_Some. by exists t.
    + unfold forked, at_slot. cbn. apply Forall2_insert; [|done]. apply Forall_Forall2_diag, Forall_true. done.
  - destruct (safestrcpy_spec 16 (p_name y) (p_name x)) as (N1 & N2 & N3); [rewrite (proj1 (wf_name _ W)); lia|].
    split; [done| |intros [?|?]; done|done|apply Wx|].
    + intros _. change (tf ≠ 0 ∧ pt ≠ 0 ∧ k_nextpid k ≠ 0). split_and!; [done|done|lia].
    + change (p_name (child_of p x c y1)) with (safestrcpy (p_name y) (p_name x) 16). rewrite N1. split; [apply W|done].
  - unfold forked. cbn. rewrite i32_small by lia. lia.
  - right. left. split; [done|]. unfold forked. cbn. rewrite i32_small by lia. lia.
Qed.
Lemma parent_tf : (p_trapframe x ∉ L) ∧ p_trapframe x ≠ 0 ∧ p_pagetable x ≠ 0.
Proof using I Hx Hu HTp.
  destruct (wf_used _ (Forall_lookup_1 _ _ _ _ (pi_wf _ _ _ I) Hx) Hu) as (H1 & H2 & _). split_and!; [|done..].
  pose proof (po_nodup _ _ _ _ _ (mi_proc _ _ _ (pi_mem _ _ _ I) p x Tp Hx HTp)) as HN.
  apply NoDup_app in HN as (_ & HN & _). apply HN. unfold proc_pages, tf_pages. rewrite decide_False by done. by left.
Qed.

(** Allocating the child does not touch the memory of the parent. *)
Lemma parent_memory m L1 m' T' :
  steps_in (page_bytes L) (k_mach k) m → free_inv m L1 → L1 ⊆ L →
  same_memory m Tp m' T' (npages (p_sz x)) → same_memory (k_mach k) Tp m' T' (npages (p_sz x)).
Proof using I Hx Hu HTp.
  intros St Hf HL HS va Hva. destruct parent_tf as (_ & _ & Hpt).
  pose proof (mi_proc _ _ _ (pi_mem _ _ _ I) p x Tp Hx HTp) as So. destruct (po_pt _ _ _ _ _ So Hpt) as (_ & Sp & _).
  pose proof (own_pages_apart _ _ _ _ _ (ps_space _ _ _ _ _ Sp)) as [HN _]. apply NoDup_app in HN as (_ & HN & _).
  destruct (pspace_survives (k_mach k) m Tp (p_pagetable x) L _ L1 L Sp St) as (_ & Hl & Hb);
    [apply (mi_free _ _ _ (pi_mem _ _ _ I))|done|exact HN|intros q Hq Hq'; by apply (HN q Hq), HL|].
  destruct (HS va Hva) as [-> ->]. rewrite !Hl. split; [done|]. apply Hb. eexists. split.
  - apply elem_of_app. right. by eapply space_page; [apply Sp|].
  - pose proof (Z.mod_pos_bound va 4096). unfold in_page, PGSIZE. lia.
Qed.

Record fork_child (r : Z) (k' : kernel) (Ts' : list ptree) (L' : list Z) (np : nat) (y : proc) (tf pt : Z) (Tc : ptree)
    (child := child_of p x c (new_proc r tf pt y)) : Prop := {
  fc_inv : proc_inv k' Ts' L';
  fc_steps : steps_in (page_bytes L) (k_mach k) (k_mach k');
  fc_slot : first_unused k = Some np ∧ k_procs k !! np = Some y;
  fc_proc : k_procs k' = <[np := child]> (k_procs k) ∧ Ts' = <[np := Tc]> Ts;
  fc_name : cstring (p_name child) = cstring (p_name x);
  fc_regs : k_tframes k' !! tf = Some (set_reg (R_a 0) 0 (tf_at (p_trapframe x) k));
  fc_memory : same_memory (k_mach k) Tp (k_mach k') Tc (npages (p_sz x));
  fc_files : ∀ f, is_Some (k_ftable k !! f) → refs_extra f k' = refs_extra f k;
  fc_cwd : k_itable k' = alter (λ i, i <| i_ref ::= λ n, i32 (n + 1) |>) c (k_itable k);
}.

Lemma cstring_take n s : strlen s ≤ Z.of_nat n → cstring (take n s) = cstring s.
Proof.
  revert n. induction s as [|b s IH]; intros [|n]; cbn; try done; destruct (b =? 0); try done; intros H.
  - pose proof (strlen_cstring s). lia.
  - f_equal. apply IH. lia.
Qed.

Lemma forked_refs k2 np y y1 f :
  k_procs k2 = k_procs k → k_ftable k2 = k_ftable k → k_procs k !! np = Some y → p_ofile y = replicate (Z.to_nat NOFILE) None →
  is_Some (k_ftable k !! f) → refs_extra f (forked k2 p np c x y1) = refs_extra f k.
Proof using.
  intros E1 E2 Hy Ho [z Hz]. unfold refs_extra, file_at.
  change (k_ftable (forked _ _ _ _ _ _)) with (dups (p_ofile x) (k_ftable k2)).
  change (k_procs (forked _ _ _ _ _ _)) with (<[np := child_of p x c y1]> (k_procs k2)).
  rewrite E1, E2, (dups_lookup _ _ _ _ Hz), Hz. cbn [default from_option id].
  change (f_ref (z <| f_ref ::= _ |>)) with (f_ref z + Z.of_nat (fd_count f (p_ofile x))).
  pose proof (fd_refs_insert f (k_procs k) np y (child_of p x c y1) Hy) as HR. rewrite Ho, fd_count_closed in HR.
  change (p_ofile (child_of p x c y1)) with (p_ofile x) in HR. lia.
Qed.

Lemma tf_at_same m tfs pid : (∀ a, a ∉ L → tfs !! a = k_tframes k !! a) →
  tf_at (p_trapframe x) (k <| k_nextpid := pid |> <| k_mach := m |> <| k_tframes := tfs |>) = tf_at (p_trapframe x) k.
Proof using I Hx Hu HTp. intros Ht. unfold tf_at. cbn. by rewrite Ht by apply parent_tf. Qed.

(** The copy fails: the slot and its pages are given back. *)
Lemma fork_copy_failed np y m tfs L1 tf pt T m' L' T' (y1 := new_proc (k_nextpid k) tf pt y)
    (k1 := slot_state (i32 (k_nextpid k + 1)) m tfs np y1 k) :
  k_procs k !! np = Some y → p_state y = UNUSED → tf ≠ 0 → mem_inv k1 (<[np := T]> Ts) L1 → proc_pages m y1 T ++ L1 ≡ₚ L →
  regrown k1 L1 y1 T m' L' y1 T' → steps_in (page_bytes L) (k_mach k) m' →
  ∃ k' Ts' L2, (freeproc np;; release (L_proc np);; mret (-1)) [L_proc np] (slot_state (i32 (k_nextpid k + 1)) m' tfs np y1 k) =
    Ok (-1) [] k' ∧ fork_failed k' Ts' L2.
Proof.
  intros Hy Eu Htf M HPL [G1 G2 G3 G4] Hst. pose proof (lookup_lt_Some _ _ _ Hy) as Hlt.
  pose proof (mi_len _ _ _ M) as [_ HlT]. rewrite length_insert in HlT. pose proof (mi_len _ _ _ (pi_mem _ _ _ I)) as [Hl _].
  set (k2 := slot_state (i32 (k_nextpid k + 1)) m' tfs np y1 k).
  destruct (alloc_undo (-1) [] k2 np y1 T' L') as (m3 & L3 & E3 & F3 & P3 & St3); [set_solver|set_solver|done|by apply slot_at|done|].
  unfold k2 in E3. rewrite slot_freed in E3. eexists _, (<[np := ∅]> Ts), L3. split; [exact E3|].
  change (k_mach k2) with m' in *. change (k_mach k1) with m in *. rewrite G3 in P3.
  assert (∀ b, page_bytes (proc_pages m' y1 T' ++ L') b → page_bytes (proc_pages m y1 T ++ L1) b) as Hb.
  { intros b. apply page_bytes_perm. by rewrite G3. }
  eapply (fork_undone np y y1); [done|done| |by rewrite P3| |done..].
  - rewrite <- (list_insert_insert_eq Ts np ∅ T).
    eapply (mem_inv_update k1 _ L1 _ np y1 T (freed y1) ∅ L3 M); [by apply slot_at|by apply list_lookup_insert_eq; lia|..].
    + cbn. by rewrite list_insert_insert_eq.
    + exact F3.
    + eapply steps_in_trans; [exact G2|]. by eapply steps_in_mono.
    + intros q Hq. change (free_tf y1 tfs !! q = tfs !! q). unfold free_tf. change (p_trapframe y1) with tf.
      rewrite (proj2 (Z.eqb_neq tf 0)) by done. apply lookup_delete_ne. intros ->. apply Hq.
      unfold proc_pages, tf_pages. change (p_trapframe y1) with q. rewrite decide_False by done. by left.
    + exact P3.
    + apply blank_slot_ok, F3.
  - eapply steps_in_trans; [exact Hst|]. eapply steps_in_mono; [exact St3|]. intros b Hb'%Hb. revert Hb'.
    apply page_bytes_perm. done.
Qed.

(** With a slot and its trapframe and page table at hand, the copy decides. *)
Lemma fork_copied np y m tfs L1 tf pt T (y1 := new_proc (k_nextpid k) tf pt y) (k1 := slot_state (i32 (k_nextpid k + 1)) m tfs np y1 k) :
  first_unused k = Some np → k_procs k !! np = Some y → p_state y = UNUSED → alloc_mem k L m tfs L1 →
  allocproc [] k = Ok (Some np) [L_proc np] k1 → mem_inv k1 (<[np := T]> Ts) L1 → tf ≠ 0 → pt ≠ 0 →
  new_space m T pt L1 trampoline tf → tfs !! tf = Some new_tf → tf :: tpages 3 T [] ++ L1 ≡ₚ L → (length L ≤ length L1 + 6)%nat →
  ∃ r k' Ts' L', fork [] k = Ok r [] k' ∧
    (r = -1 ∧ fork_failed k' Ts' L' ∧ Z.of_nat (length L) < 6 + 3 * npages (p_sz x) ∨ r = k_nextpid k ∧ ∃ np y tf pt Tc, fork_child r k' Ts' L' np y tf pt Tc).
Proof using All.
  intros Efu Hy Eu A E M Htf Hpt Sp Htfs HP Hlen1. destruct parent_tf as (Hxl & Hxt & Hxp).
  pose proof (Forall_lookup_1 _ _ _ _ (pi_wf _ _ _ I) Hy) as W. pose proof (Forall_lookup_1 _ _ _ _ (pi_wf _ _ _ I) Hx) as Wx.
  destruct (wf_closed _ W (or_introl Eu)) as [Ho _]. destruct (wf_unused _ W Eu) as (_ & _ & Hsz & _).
  assert (p ≠ np) as Hne by congruence. pose proof (lookup_lt_Some _ _ _ Hy) as Hlt.
  pose proof (mi_len _ _ _ M) as [_ HlT]. rewrite length_insert in HlT. pose proof (mi_len _ _ _ (pi_mem _ _ _ I)) as [Hl _].
  assert (k_procs k1 !! p = Some x) as Hx1 by (unfold k1; cbn; by rewrite list_lookup_insert_ne).
  assert (k_procs k1 !! np = Some y1) as Hy1 by (by apply slot_at).
  assert (<[np := T]> Ts !! np = Some T) as HT1 by (apply list_lookup_insert_eq; lia).
  assert (proc_pages m y1 T = tf :: tpages 3 T []) as Epp.
  { unfold proc_pages, tf_pages, pt_pages. cbn. rewrite Hsz, !decide_False by done. change (npages 0) with 0. by rewrite own_pages_none. }
  assert (proc_pages m y1 T ++ L1 ≡ₚ L) as HPL by by rewrite Epp.
  destruct (fork_copy [L_proc np] k1 (<[np := T]> Ts) L1 p x Tp np y1 T) as (r & m' & T' & L' & Ec & R); try done; [set_solver|by rewrite list_lookup_insert_ne|].
  change (k_mach k1) with m in *. unfold fork. rewrite (bind_curproc _ _ _ p) by done. erewrite bind_Ok by exact E. cbv iota beta.
  rewrite !bind_getproc, (proc_at_lookup _ _ _ Hx1), (proc_at_lookup _ _ _ Hy1). erewrite bind_Ok by exact (in_mem_Ok _ _ k1 _ _ _ Ec).
  assert (∀ y' T', regrown k1 L1 y1 T m' L' y' T' → steps_in (page_bytes L) (k_mach k) m') as Hst.
  { intros y' U [_ St _ _]. eapply steps_in_trans; [apply A|]. eapply steps_in_mono; [exact St|].
    intros b. apply page_bytes_perm. by rewrite <- HPL. }
  destruct R as [(-> & G & HS)|(-> & G & Hlen)]; cbn [Z.ltb].
  - change (0 <? 0) with false. cbn iota.
    set (k2 := k <| k_nextpid := i32 (k_nextpid k + 1) |> <| k_mach := m' |> <| k_tframes := tfs |>).
    exists (k_nextpid k), (forked k2 p np c x y1), (<[np := T']> Ts), L'. split.
    { change (k1 <| k_mach := m' |>) with (at_slot np y1 k2). apply fork_tail; [done..|apply Wx|done|done|done]. }
    right. split; [done|]. exists np, y, tf, pt, T'. split.
    + by eapply fork_done.
    + by eapply Hst.
    + done.
    + done.
    + destruct (safestrcpy_spec 16 (p_name y) (p_name x)) as (_ & N2 & _); [rewrite (proj1 (wf_name _ W)); lia|].
      change (cstring (safestrcpy (p_name y) (p_name x) 16) = cstring (p_name x)). rewrite N2. apply cstring_take.
      pose proof (proj2 (wf_name _ Wx)). change (Z.of_nat (Z.to_nat 16 - 1)) with 15. lia.
    + unfold forked. cbn. rewrite lookup_alter_eq, Htfs. cbn. f_equal. f_equal. apply tf_at_same, A.
    + eapply parent_memory; [apply A|apply A| |done]. intros q Hq. rewrite <- HP. set_solver.
    + intros f Hf. by eapply forked_refs.
    + done.
  - change (-1 <? 0) with true. cbv iota. change (k1 <| k_mach := m' |>) with (slot_state (i32 (k_nextpid k + 1)) m' tfs np y1 k).
    destruct (fork_copy_failed np y m tfs L1 tf pt T m' L' T') as (k' & Ts' & L2 & E2 & R); [done..|by eapply Hst|].
    exists (-1), k', Ts', L2. split; [done|]. left. split_and!; [done|done|lia].
Qed.
End Fork.
