(* ===== verification/ProcGrow.v ===== *)
(** * growproc (kernel/proc.c)

    [growproc] moves the end of the memory of the running process by [n] bytes. *)

From S2P Require Import Prelude CString Riscv Kalloc Vm PageTable AddrSpace FreeWalk Kernel Sched ProcMem.
From S2P Require Import Sleeplock Bytes Bio Log Uart Printf Console Pipe Fs File Proc ProcSpec ProcAlloc ProcFork.

(** An address space is never larger than the physical memory. *)
Lemma ram_pages_bound m D : NoDup D → Forall (ram_page m) D → Z.of_nat (length D) ≤ PHYSTOP / 4096.
Proof.
  intros HN HR. rewrite Forall_forall in HR. set (f := λ p : Z, Z.to_nat (p / 4096)).
  assert (∀ p, p ∈ D → p = 4096 * (p / 4096) ∧ 0 < p < PHYSTOP) as Hd.
  { intros p (H1 & H2 & H3)%HR. unfold PGSIZE in H1. pose proof (Z.div_mod p 4096). lia. }
  assert (NoDup (f <$> D)) as HN'.
  { apply NoDup_fmap_2_strong; [|done]. intros p q Hp Hq E. destruct (Hd p Hp), (Hd q Hq). unfold f in E.
    pose proof (Z.div_pos p 4096). pose proof (Z.div_pos q 4096). lia. }
  set (N := Z.to_nat (PHYSTOP / 4096)).
  assert ((f <$> D) ⊆+ seq 0 N) as Hsub.
  { apply NoDup_submseteq; [done|]. intros i (p & -> & Hp)%list_elem_of_fmap. destruct (Hd p Hp) as [E H].
    apply elem_of_seq. unfold f, N. assert (p / 4096 < PHYSTOP / 4096); [|pose proof (Z.div_pos p 4096); lia].
    change PHYSTOP with (557056 * 4096) in *. rewrite Z.div_mul by lia. lia. }
  apply submseteq_length in Hsub. rewrite length_fmap, length_seq in Hsub. unfold N in Hsub.
  assert (0 ≤ PHYSTOP / 4096) by done. lia.
Qed.

Lemma length_pas f a k : length (pas f a k) = k.
Proof. revert a. induction k as [|k IH]; intros a; cbn; [done|]. by rewrite IH. Qed.

Lemma space_bound m T root L n : space m T root L n → n ≤ PHYSTOP / 4096.
Proof.
  intros [_ Hsz _ (HN & HR & _) _]. apply NoDup_app in HN as (HN & _ & _). pose proof (ram_pages_bound m _ HN HR) as H. rewrite length_pas in H. lia.
Qed.

Section Grow.
Context {Img : Image} (k : kernel) (Ts : list ptree) (L : list Z) (p : nat) (x : proc) (T : ptree).
Context (I : proc_inv k Ts L) (Hcur : k_cur k = Some p) (Hx : k_procs k !! p = Some x) (HT : Ts !! p = Some T)
  (Hu : p_state x ≠ UNUSED).

(** The running process has the memory [m'] and the size [sz] now. *)
Definition resized (m' : machine) (sz : Z) : kernel := at_slot p (x <| p_sz := sz |>) (k <| k_mach := m' |>).

Lemma my_space : p_pagetable x ≠ 0 ∧ 0 ≤ p_sz x ∧ pspace (k_mach k) T (p_pagetable x) L (npages (p_sz x)) ∧
  leaf (m_mem (k_mach k)) T TRAPFRAME = leaf_pte (p_trapframe x) (Z.lor PTE_R PTE_W) ∧
  leaf (m_mem (k_mach k)) T TRAMPOLINE = leaf_pte trampoline (Z.lor PTE_R PTE_X).
Proof.
  destruct (wf_used _ (Forall_lookup_1 _ _ _ _ (pi_wf _ _ _ I) Hx) Hu) as (_ & Hpt & _). split; [done|].
  apply (po_pt _ _ _ _ _ (mi_proc _ _ _ (pi_mem _ _ _ I) p x T Hx HT) Hpt).
Qed.

Lemma resized_inv m' L' T' sz :
  regrown k L x T m' L' (x <| p_sz := sz |>) T' → proc_inv (resized m' sz) (<[p := T']> Ts) L'.
Proof.
  intros [G1 G2 G3 G4]. pose proof (Forall_lookup_1 _ _ _ _ (pi_wf _ _ _ I) Hx) as W.
  eapply (proc_inv_update k Ts L _ _ _ p (x <| p_sz := sz |>)); [exact I| |done| |done|].
  - eapply (mem_inv_update k Ts L _ p x T); [apply I|done|done|done|done|done|done|done|done].
  - split; try apply W. intros E. by destruct Hu.
  - right. right. by exists x.
Qed.

(** [uvmdealloc] gives back the pages above the new end. *)
Lemma shrunk_inv m' sz (n' := npages sz) (D := pas (leaf (m_mem (k_mach k)) T) (n' * 4096) (Z.to_nat (npages (p_sz x) - n'))) :
  0 ≤ sz ≤ p_sz x → space m' T (p_pagetable x) (reverse D ++ L) n' →
  (∀ v, 0 ≤ v < MAXVA → v < n' * 4096 ∨ npages (p_sz x) * 4096 ≤ v → leaf (m_mem m') T v = leaf (m_mem (k_mach k)) T v) →
  steps_in (λ b, table_bytes T b ∨ page_bytes D b) (k_mach k) m' →
  regrown k L x T m' (reverse D ++ L) (x <| p_sz := sz |>) T.
Proof.
  intros Hsz Sp Hl St. destruct my_space as (Hpt & H0 & [Sx Hx1 Hx2] & Htf & Htr). destruct top_pages as (? & ? & _ & _ & ? & _).
  destruct grow_max as [HM1 HM2]. pose proof (sp_size _ _ _ _ _ Sx) as Hsx. pose proof (sp_size _ _ _ _ _ Sp) as Hsp.
  pose proof (mi_proc _ _ _ (pi_mem _ _ _ I) p x T Hx HT) as S.
  assert (n' ≤ npages (p_sz x)) as Hle by (apply Z.div_le_mono; lia).
  assert (pas (leaf (m_mem (k_mach k)) T) 0 (Z.to_nat (npages (p_sz x))) = pas (leaf (m_mem m') T) 0 (Z.to_nat n') ++ D) as Ep.
  { replace (Z.to_nat (npages (p_sz x))) with (Z.to_nat n' + Z.to_nat (npages (p_sz x) - n'))%nat by lia.
    rewrite pas_app, Z2Nat.id by lia. f_equal. apply pas_ext. intros i Hi. symmetry. apply Hl; lia. }
  assert (proc_pages (k_mach k) x T = tf_pages x ++ own_pages m' T n' ++ D) as E1.
  { unfold proc_pages, pt_pages. rewrite decide_False by done. f_equal. unfold own_pages. by rewrite Ep, app_assoc. }
  assert (proc_pages m' (x <| p_sz := sz |>) T = tf_pages x ++ own_pages m' T n') as E2.
  { unfold proc_pages, pt_pages. cbn. by rewrite decide_False by done. }
  assert (proc_pages m' (x <| p_sz := sz |>) T ++ reverse D ++ L ≡ₚ proc_pages (k_mach k) x T ++ L) as HPP.
  { rewrite E1, E2, <- !app_assoc, reverse_Permutation. done. }
  split; [apply Sp| |done|].
  - eapply steps_in_mono; [exact St|]. rewrite E1. intros b [Hb|Hb]; [|eapply page_bytes_mono; [|exact Hb]; set_solver].
    eapply (page_bytes_mono (tpages 3 T [])); [unfold own_pages; set_solver|]. rewrite <- (app_nil_r (tpages 3 T [])).
    eapply pt_bytes_pages; [apply Sx|by left].
  - split; cbn.
    + intros Ht. destruct (po_tf _ _ _ _ _ S Ht) as [Hr ?]. split; [|done]. unfold ram_page. by rewrite (proj1 St).
    + intros _. rewrite !Hl, Htf, Htr by lia. split_and!; [lia| |done|done]. split; [done|rewrite Hl by lia; done..].
    + cbn in HPP. rewrite HPP. apply (po_nodup _ _ _ _ _ S).
Qed.
(** The first [n'] pages keep their contents when only other pages of the process and
    free pages are written. *)
Lemma kept_memory m' T' n' (P : Z → Prop) (D := pas (leaf (m_mem (k_mach k)) T) (n' * 4096) (Z.to_nat (npages (p_sz x) - n'))) :
  0 ≤ n' ≤ npages (p_sz x) → (∀ va, 0 ≤ va < n' * 4096 → leaf (m_mem m') T' va = leaf (m_mem (k_mach k)) T va) →
  steps_in P (k_mach k) m' → (∀ b, P b → page_bytes (tpages 3 T [] ++ D ++ L) b) → same_memory (k_mach k) T m' T' n'.
Proof.
  intros Hn Hl St HP va Hva. rewrite Hl by done. split; [done|]. apply St. intros Hb%HP.
  destruct my_space as (_ & _ & [Sx _ _] & _). pose proof (own_pages_apart _ _ _ _ _ Sx) as [HN HR].
  assert (pas (leaf (m_mem (k_mach k)) T) 0 (Z.to_nat (npages (p_sz x))) = pas (leaf (m_mem (k_mach k)) T) 0 (Z.to_nat n') ++ D) as Ep.
  { replace (Z.to_nat (npages (p_sz x))) with (Z.to_nat n' + Z.to_nat (npages (p_sz x) - n'))%nat by lia.
    by rewrite pas_app, Z2Nat.id by lia. }
  unfold own_pages in HN, HR. rewrite Ep in HN, HR. set (B := pas _ 0 (Z.to_nat n')) in *. set (A := tpages 3 T []) in *.
  rewrite !Forall_app in HR. destruct HR as (HA & HB & HD).
  refine (pages_apart (k_mach k) B (A ++ D ++ L) _ _ HB _ _ Hb).
  - rewrite <- !app_assoc in HN. by rewrite Permutation_app_swap_app.
  - rewrite !Forall_app. split_and!; [done|done|]. apply (mi_free _ _ _ (pi_mem _ _ _ I)).
  - exists (PTE2PA (leaf (m_mem (k_mach k)) T va)). split.
    + destruct grow_max as [HM1 HM2]. pose proof (sp_size _ _ _ _ _ Sx). pose proof (Z.div_mod va 4096).
      pose proof (Z.mod_pos_bound va 4096). pose proof (Z.div_pos va 4096). apply elem_of_pas. exists (va / 4096).
      split; [lia|]. f_equal. apply leaf_same_page; [lia..|]. by rewrite Z.add_0_l, Z.div_mul.
    + pose proof (Z.mod_pos_bound va 4096). unfold in_page, PGSIZE. lia.
Qed.

Lemma resized_eq m' sz : (k <| k_mach := m' |>) <| k_procs ::= alter (λ y, y <| p_sz := sz |>) p |> = resized m' sz.
Proof.
  pose (v := λ l : list proc, k <| k_mach := m' |> <| k_procs := l |>).
  change (v (alter (λ y, y <| p_sz := sz |>) p (k_procs k)) = v (<[p := x <| p_sz := sz |>]> (k_procs k))). f_equal.
  by apply (alter_insert_eq (λ y, y <| p_sz := sz |>)).
Qed.

Lemma resized_same m' : resized m' (p_sz x) = k <| k_mach := m' |>.
Proof.
  pose (v := λ l : list proc, k <| k_mach := m' |> <| k_procs := l |>).
  change (v (<[p := x <| p_sz := p_sz x |>]> (k_procs k)) = v (k_procs k)). f_equal. apply list_insert_id. rewrite Hx. by destruct x.
Qed.

(** What a call that returns [r] has done. *)
Record grow_post (n r : Z) (k' : kernel) (T' : ptree) (L' : list Z)
    (sz := if p_sz x + n <? 0 then p_sz x else p_sz x + n) : Prop := {
  gp_inv : proc_inv k' (<[p := T']> Ts) L';
  gp_steps : steps_in (page_bytes (proc_pages (k_mach k) x T ++ L)) (k_mach k) (k_mach k');
  gp_result : r = 0 ∨ r = -1 ∧ Z.of_nat (length L) < 3 * (npages sz - npages (p_sz x));
  gp_size : k_procs k' = <[p := x <| p_sz := if r =? 0 then sz else p_sz x |>]> (k_procs k);
  gp_old : same_memory (k_mach k) T (k_mach k') T' (npages (Z.min sz (p_sz x)));
  gp_new : r = 0 → ∀ va, npages (p_sz x) * 4096 ≤ va < npages sz * 4096 →
    load8 (m_mem (k_mach k')) (PTE2PA (leaf (m_mem (k_mach k')) T' va) + va mod 4096) = 0 ∧
    PTE_FLAGS (leaf (m_mem (k_mach k')) T' va) = Z.lor (Z.lor (Z.lor PTE_R PTE_U) PTE_W) PTE_V;
}.

Lemma growproc_more h n :
  L_kmem ∉ h → 0 < n < 2 ^ 31 → ∃ r k' T' L', growproc n h k = Ok r h k' ∧ grow_post n r k' T' L'.
Proof.
  intros Hh Hn. destruct my_space as (Hpt & H0 & Sp & _). pose proof (ps_space _ _ _ _ _ Sp) as Sx.
  pose proof (space_bound _ _ _ _ _ Sx) as Hb. assert (PHYSTOP / 4096 = 557056) as EP by done. assert (TRAPFRAME = 2 ^ 38 - 8192) as HTF by done.
  assert (p_sz x ≤ 557056 * 4096) as Hsz.
  { unfold npages in Hb. pose proof (Z.div_mod (p_sz x + 4095) 4096). pose proof (Z.mod_pos_bound (p_sz x + 4095) 4096). lia. }
  assert (npages (p_sz x) ≤ npages (p_sz x + n)) as Hle by (apply Z.div_le_mono; lia).
  destruct (uvmalloc_grows h (p_pagetable x) (k_mach k) T L (p_sz x) (p_sz x + n) PTE_W Hh ltac:(done) Sx ltac:(lia) ltac:(lia))
    as (r & m' & T' & L' & E & R).
  unfold growproc. rewrite (bind_curproc _ _ _ p) by done. rewrite bind_getproc, (proc_at_lookup _ _ _ Hx). cbv zeta.
  rewrite (proj2 (Z.ltb_lt 0 n)) by lia. rewrite u64_small by lia. erewrite bind_Ok by exact (in_mem_Ok _ _ k _ _ _ E).
  assert (∀ m' T' L' n', grown (p_pagetable x) (k_mach k) T L (npages (p_sz x)) (λ _, Z.lor (Z.lor PTE_R PTE_U) PTE_W) (λ _, 0) m' T' L' n' →
    same_memory (k_mach k) T m' T' (npages (p_sz x))) as Hkept.
  { intros m1 T1 L1 n1 G. destruct grow_max as [HM1 HM2]. pose proof (sp_size _ _ _ _ _ Sx).
    eapply kept_memory; [lia|intros va Hva; apply (gr_old _ _ _ _ _ _ _ _ _ _ _ G); lia|apply (gr_frame _ _ _ _ _ _ _ _ _ _ _ G)|].
    intros b Hb'. rewrite Z.sub_diag. cbn. eapply pt_bytes_pages; [apply Sx|done]. }
  destruct R as [[-> G]|(-> & G & Hlen)].
  - rewrite (proj2 (Z.eqb_neq (p_sz x + n) 0)) by lia. rewrite bind_updproc.
    exists 0, (resized m' (p_sz x + n)), T', L'. split; [by rewrite resized_eq|].
    assert (regrown k L x T m' L' (x <| p_sz := p_sz x + n |>) T') as RG.
    { eapply (regrown_inv k Ts L p); [apply I|done|done|done|done|done|cbn; lia|done|exact G]. }
    split; rewrite ?(proj2 (Z.ltb_ge (p_sz x + n) 0)) by lia.
    + by apply resized_inv.
    + apply RG.
    + by left.
    + done.
    + rewrite Z.min_r by lia. by eapply Hkept.
    + intros _ va Hva. split; [by apply (gr_bytes _ _ _ _ _ _ _ _ _ _ _ G)|by apply (gr_flags _ _ _ _ _ _ _ _ _ _ _ G)].
  - cbn [Z.eqb]. exists (-1), (resized m' (p_sz x)), T', L'. split; [by rewrite resized_same|].
    assert (regrown k L x T m' L' (x <| p_sz := p_sz x |>) T') as RG.
    { eapply (regrown_inv k Ts L p); [apply I|done|done|done|done|done|cbn; lia|done|exact G]. }
    split; rewrite ?(proj2 (Z.ltb_ge (p_sz x + n) 0)) by lia.
    + by apply resized_inv.
    + apply RG.
    + right. split; [done|lia].
    + done.
    + rewrite Z.min_r by lia. by eapply Hkept.
    + done.
Qed.

Lemma growproc_less h n :
  L_kmem ∉ h → - 2 ^ 31 ≤ n < 0 → ∃ k' L', growproc n h k = Ok 0 h k' ∧ grow_post n 0 k' T L'.
Proof.
  intros Hh Hn. destruct my_space as (Hpt & H0 & Sp & _). pose proof (ps_space _ _ _ _ _ Sp) as Sx.
  pose proof (space_bound _ _ _ _ _ Sx) as Hb. assert (PHYSTOP / 4096 = 557056) as EP by done.
  assert (p_sz x ≤ 557056 * 4096) as Hsz.
  { unfold npages in Hb. pose proof (Z.div_mod (p_sz x + 4095) 4096). pose proof (Z.mod_pos_bound (p_sz x + 4095) 4096). lia. }
  set (sz := if p_sz x + n <? 0 then p_sz x else p_sz x + n).
  assert (Z.min (p_sz x) (u64 (p_sz x + n)) = sz ∧ 0 ≤ sz ≤ p_sz x) as [Emin Hsz'].
  { unfold sz. destruct (Z.ltb_spec (p_sz x + n) 0); [|rewrite u64_small by lia; lia].
    unfold u64. rewrite <- (Z.mod_add _ 1), Z.mod_small by lia. lia. }
  assert (0 ≤ u64 (p_sz x + n)) as Hu0 by (apply Z.mod_pos_bound; lia).
  destruct (uvmdealloc_spec h (k_mach k) T (p_pagetable x) L (p_sz x) (u64 (p_sz x + n)) (npages sz) Hh Sx H0 Hu0)
    as (m' & E & Sp' & Hl & St); [by rewrite Emin|]. rewrite Emin in E.
  pose proof (shrunk_inv m' sz Hsz' Sp' Hl St) as RG.
  eexists (resized m' sz), _. split.
  - unfold growproc. rewrite (bind_curproc _ _ _ p) by done. rewrite bind_getproc, (proc_at_lookup _ _ _ Hx). cbv zeta.
    rewrite (proj2 (Z.ltb_ge 0 n)), (proj2 (Z.ltb_lt n 0)) by lia. erewrite bind_Ok by exact (in_mem_Ok _ _ k _ _ _ E).
    rewrite bind_updproc. by rewrite resized_eq.
  - split; fold sz.
    + by apply resized_inv.
    + apply RG.
    + by left.
    + done.
    + rewrite Z.min_l by lia. assert (0 ≤ npages sz ≤ npages (p_sz x)) by (split; [apply Z.div_pos|apply Z.div_le_mono]; lia).
      pose proof (sp_size _ _ _ _ _ Sx). destruct grow_max as [HM1 HM2].
      eapply kept_memory; [done|intros va Hva; apply Hl; lia|exact St|]. intros b [Hb'|Hb']; [|eapply page_bytes_mono; [|exact Hb']; set_solver].
      eapply (page_bytes_mono (tpages 3 T [] ++ L)); [set_solver|]. eapply pt_bytes_pages; [apply Sx|by left].
    + intros _ va Hva. assert (npages sz ≤ npages (p_sz x)) by (apply Z.div_le_mono; lia). lia.
Qed.

Lemma growproc_none h : growproc 0 h k = Ok 0 h k ∧ grow_post 0 0 k T L.
Proof.
  assert (resized (k_mach k) (p_sz x) = k) as E by (rewrite resized_same; by destruct k). split.
  - unfold growproc. rewrite (bind_curproc _ _ _ p) by done. rewrite bind_getproc, (proc_at_lookup _ _ _ Hx). cbv zeta.
    cbn [Z.ltb Z.compare]. rewrite bind_updproc. rewrite <- E at 2. rewrite <- resized_eq. by destruct k.
  - destruct my_space as (_ & H0 & _). split; rewrite ?Z.add_0_r, ?(proj2 (Z.ltb_ge (p_sz x) 0)) by lia.
    + rewrite list_insert_id by done. exact I.
    + apply steps_in_refl.
    + by left.
    + cbn [Z.eqb]. rewrite list_insert_id; [done|]. rewrite Hx. by destruct x.
    + by intros va Hva.
    + intros _ va Hva. lia.
Qed.

End Grow.
