(* ===== verification/ProcWait.v ===== *)
(** * User memory of processes, and wait (kernel/proc.c)

    A write to user memory through the page table of a process stays within the pages of
    that process.  [wait] copies out the status of an exited child and frees its slot. *)

From S2P Require Import Prelude CString Riscv Kalloc Vm PageTable AddrSpace FreeWalk UserMem Kernel Sched ProcMem.
From S2P Require Import Sleeplock Bytes Bio Log Uart Printf Console Pipe Fs File Proc ProcSpec ProcAlloc ProcFork ProcGrow.

Section User.
Context {Img : Image} (Htr : page_addr trampoline).
Context (k : kernel) (Ts : list ptree) (L : list Z) (p : nat) (x : proc) (T : ptree).
Context (I : proc_inv k Ts L) (Hx : k_procs k !! p = Some x) (HT : Ts !! p = Some T) (Hu : p_state x ≠ UNUSED).

Lemma top_not_user va : TRAPFRAME ≤ va < MAXVA → has (leaf (m_mem (k_mach k)) T va) PTE_U = false.
Proof.
  intros Hva. destruct (my_space k Ts L p x T I Hx HT Hu) as (_ & _ & _ & E1 & E2). destruct top_pages as (H1 & H2 & H3 & H4 & H5 & _).
  destruct (wf_used _ (Forall_lookup_1 _ _ _ _ (pi_wf _ _ _ I) Hx) Hu) as (Ht0 & _).
  destruct (po_tf _ _ _ _ _ (mi_proc _ _ _ (pi_mem _ _ _ I) p x T Hx HT) Ht0) as [Hr _]. destruct (ram_page_room _ _ Hr) as [Ha _].
  assert (∀ pa perm, page_addr pa → 0 ≤ perm < 1024 → Z.testbit perm 4 = false → has (leaf_pte pa perm) PTE_U = false) as Hno.
  { intros pa perm Hpa Hp Hb. destruct (leaf_pte_spec pa perm Hpa Hp) as (_ & _ & _ & Hh). change PTE_U with (Z.shiftl 1 4).
    rewrite Hh by lia. rewrite Z.lor_spec, Hb. done. }
  assert (∀ a b, a mod 4096 = 0 → a ≤ b < a + 4096 → b / 4096 = a / 4096) as Hdiv.
  { intros a b Ha' Hb. pose proof (Z.div_mod a 4096). pose proof (Z.div_mod b 4096). pose proof (Z.mod_pos_bound b 4096). lia. }
  destruct (decide (va < TRAMPOLINE)).
  - rewrite (leaf_same_page _ T va TRAPFRAME), E1 by (rewrite ?(Hdiv TRAPFRAME va); lia). by apply Hno.
  - rewrite (leaf_same_page _ T va TRAMPOLINE), E2 by (rewrite ?(Hdiv TRAMPOLINE va); lia). by apply Hno.
Qed.

Lemma my_us_ok : us_ok (k_mach k) T (p_pagetable x) L.
Proof. destruct (my_space k Ts L p x T I Hx HT Hu) as (_ & _ & [Sp _ _] & _). eapply space_us_ok; [exact Sp|exact top_not_user]. Qed.

Lemma open_bytes_mine b : open_bytes (k_mach k) T b →
  page_bytes (pas (leaf (m_mem (k_mach k)) T) 0 (Z.to_nat (npages (p_sz x)))) b.
Proof.
  intros (va & Hva & Hup & Hb). destruct (my_space k Ts L p x T I Hx HT Hu) as (_ & _ & [Sp _ _] & _).
  unfold upa, user_pa in *. destruct (has _ PTE_V) eqn:EV; [|done]. destruct (has _ PTE_U) eqn:EU; [|done]. cbn [andb] in *.
  eexists. split; [|exact Hb]. eapply space_page; [exact Sp|].
  destruct (decide (va < npages (p_sz x) * 4096)); [lia|]. exfalso. destruct (decide (va < TRAPFRAME)).
  - by rewrite (sp_above _ _ _ _ _ Sp) in EV by lia.
  - by rewrite top_not_user in EU by lia.
Qed.

(** User memory of the process is written: the account of the memory is unchanged. *)
Lemma user_write_inv m' :
  steps_in (open_bytes (k_mach k) T) (k_mach k) m' → free_inv m' L →
  proc_inv (k <| k_mach := m' |>) Ts L ∧
  ∀ i y Ti, k_procs k !! i = Some y → Ts !! i = Some Ti → proc_pages m' y Ti = proc_pages (k_mach k) y Ti.
Proof.
  intros St Hf. destruct (my_space k Ts L p x T I Hx HT Hu) as (Hpt & H0 & Sp & E1 & E2). pose proof (ps_space _ _ _ _ _ Sp) as Sx.
  pose proof (mi_proc _ _ _ (pi_mem _ _ _ I) p x T Hx HT) as So. pose proof (sp_vm _ _ _ _ _ Sx) as V.
  destruct (pt_frame _ (m_mem (k_mach k)) (m_mem m') T (p_pagetable x) (proj1 V) (proj2 St)) as [Hpo Hl].
  { intros q a b Ha Hb (va & Hva & Hup & Hc). eapply data_page_bytes; [exact my_us_ok|exact Hva|exact Hup| |exact Hc]. left. eauto. }
  assert (vm_ok m' T (p_pagetable x) L) as V'.
  { split_and!; [done|done|]. intros q a Ha. unfold ram_page. rewrite (proj1 St). by apply (proj2 (proj2 V) q a). }
  assert (space m' T (p_pagetable x) L (npages (p_sz x))) as Sx'.
  { eapply space_ext; [exact Sx|exact V'|apply St|]. intros va _. apply Hl. }
  assert (proc_pages m' x T = proc_pages (k_mach k) x T) as Ep.
  { unfold proc_pages, pt_pages. case_decide; [done|]. f_equal. by apply own_pages_ext. }
  assert (∀ b, open_bytes (k_mach k) T b → page_bytes (proc_pages (k_mach k) x T) b) as Hmine.
  { intros b Hb%open_bytes_mine. eapply page_bytes_mono; [|exact Hb].
    unfold proc_pages, pt_pages. rewrite decide_False by done. unfold own_pages. intros q Hq. rewrite !elem_of_app. auto. }
  split; [rewrite <- (list_insert_id Ts p T HT)|].
  2: { intros i y Ti Hy HTi. destruct (decide (i = p)) as [->|Hne]; [congruence|].
    pose proof (mi_proc _ _ _ (pi_mem _ _ _ I) i y Ti Hy HTi) as Si. pose proof (po_nodup _ _ _ _ _ Si) as HN.
    eapply (slot_ok_survives _ _ L y Ti m' (k_tframes k) L (proc_pages (k_mach k) x T) Si); [by eapply steps_in_mono|by eapply proc_pages_ram|done| |
      apply NoDup_app in HN as (_ & HN & _); exact HN|done].
    by eapply (mi_apart _ _ _ (pi_mem _ _ _ I)). }
  eapply (proc_inv_update k Ts L _ _ _ p x I); [| |apply (Forall_lookup_1 _ _ _ _ (pi_wf _ _ _ I) Hx)|done|right; right; by exists x].
  - eapply (mem_inv_update k Ts L _ p x T x T L); [apply I|done|done| |done| |done|change (proc_pages m' x T ++ L ≡ₚ proc_pages (k_mach k) x T ++ L); by rewrite Ep|].
    + cbn. by rewrite list_insert_id.
    + eapply steps_in_mono; [exact St|]. intros b Hb%Hmine. eapply page_bytes_mono; [|exact Hb]. by apply list_subseteq_app_l.
    + change (slot_ok m' (k_tframes k) L x T). split.
      * intros Ht. destruct (po_tf _ _ _ _ _ So Ht). unfold ram_page. by rewrite (proj1 St).
      * intros _. rewrite (Hl TRAPFRAME), (Hl TRAMPOLINE). split; [exact H0|]. split; [|split; [exact E1|exact E2]].
        split; [exact Sx'|rewrite Hl; exact (ps_tf _ _ _ _ _ Sp)|rewrite Hl; exact (ps_tramp _ _ _ _ _ Sp)].
      * rewrite Ep. apply So.
  - cbn. by rewrite list_insert_id.
Qed.
End User.

(** ** wait *)

Definition my_child (k : kernel) (p i : nat) : bool := bool_decide (p_parent (proc_at i k) = Some p).
Definition my_zombie (k : kernel) (p i : nat) : bool := my_child k p i && bool_decide (p_state (proc_at i k) = ZOMBIE).

(** What the scan does with an exited child. *)
Definition reap (p : nat) (addr : Z) (i : nat) (x : proc) : KM scan :=
  y ← getproc p;
  r ← (if addr =? 0 then mret 0 else in_mem (copyout (p_pagetable y) addr (le_bytes 4 (p_xstate x)) 4));
  if r <? 0 then
    release (L_proc i);;
    release L_wait;;
    mret Fault
  else
  freeproc i;;
  release (L_proc i);;
  release L_wait;;
  mret (Found (p_pid x)).

Lemma wait_scan_run p addr k ps : ∀ kids,
  wait_scan p addr kids ps [L_wait] k =
    match find (my_zombie k p) ps with
    | Some i => reap p addr i (proc_at i k) [L_proc i; L_wait] k
    | None => Ok (Alive (kids || existsb (my_child k p) ps)) [L_wait] k
    end.
Proof.
  induction ps as [|i ps IH]; intros kids; cbn [wait_scan find existsb]; [by rewrite orb_false_r|].
  rewrite bind_getproc. unfold my_zombie at 1, my_child at 1. fold (my_child k p i).
  destruct (my_child k p i); cbn [andb orb]; [|apply IH].
  rewrite bind_acquire, bind_getproc by set_solver. case_bool_decide as Ez; [done|].
  rewrite bind_release by set_solver. rewrite IH. by rewrite orb_true_r.
Qed.

Section Wait.
Context {Img : Image} (Htr : page_addr trampoline).
Context (k : kernel) (Ts : list ptree) (L : list Z) (p : nat) (x : proc) (T : ptree).
Context (I : proc_inv k Ts L) (Hx : k_procs k !! p = Some x) (HT : Ts !! p = Some T) (Hrun : p_state x = RUNNING).

(** Freeing the slot of a zombie does not touch the user memory of [p]. *)
Lemma free_zombie h i y Ti :
  L_kmem ∉ h → k_procs k !! i = Some y → Ts !! i = Some Ti → p_state y = ZOMBIE →
  ∃ k' L', freeproc i h k = Ok tt h k' ∧ proc_inv k' (<[i := ∅]> Ts) L' ∧ k_procs k' = <[i := freed y]> (k_procs k) ∧
    L' ≡ₚ proc_pages (k_mach k) y Ti ++ L ∧ (∀ v, 0 ≤ v < MAXVA → upa (k_mach k) T v ≠ 0 → uread (k_mach k') T v = uread (k_mach k) T v).
Proof.
  intros Hh Hy HTi Hz. destruct (freeproc_ok h k i y Ti Ts L Hh (pi_mem _ _ _ I) Hy HTi) as (m & L' & E & M & P & St).
  exists (freeproc_state i y m k), L'. split; [done|].
  pose proof (Forall_lookup_1 _ _ _ _ (pi_wf _ _ _ I) Hy) as W. destruct (wf_closed _ W (or_intror Hz)) as [Ho Hc].
  assert (i ≠ p) as Hne by congruence. assert (p_state x ≠ UNUSED) as Hu by congruence.
  split; [|split; [done|split; [done|]]].
  - eapply (proc_inv_update k Ts L _ _ _ i (freed y) I M); [done|by apply freed_wf; [apply W|..]|done|by left].
  - intros v Hv Hup. destruct (my_space k Ts L p x T I Hx HT Hu) as (Hpt & _ & Sp & _).
    assert (∀ q, q ∈ own_pages (k_mach k) T (npages (p_sz x)) → q ∉ proc_pages (k_mach k) y Ti ++ L) as Hap.
    { intros q Hq. rewrite elem_of_app. intros [Hq'|Hq'].
      - apply (mi_apart _ _ _ (pi_mem _ _ _ I) p x T i y Ti Hx HT Hy HTi (not_eq_sym Hne) q); [|done]. apply elem_of_app. right. unfold pt_pages. by rewrite decide_False.
      - pose proof (own_pages_apart _ _ _ _ _ (ps_space _ _ _ _ _ Sp)) as [HN _]. apply NoDup_app in HN as (_ & HN & _). by apply (HN q). }
    destruct (pspace_survives (k_mach k) m T (p_pagetable x) L _ L' (proc_pages (k_mach k) y Ti ++ L) Sp St) as (_ & Hl & Hb).
    + apply Forall_app. split; [by eapply proc_pages_ram, (mi_proc _ _ _ (pi_mem _ _ _ I))|apply (mi_free _ _ _ (pi_mem _ _ _ I))].
    + apply (mi_free _ _ _ M).
    + exact Hap.
    + intros q Hq. rewrite P. by apply Hap.
    + change (uread m T v = uread (k_mach k) T v). unfold uread, upa. rewrite Hl. apply Hb.
      eapply page_bytes_mono; [|eapply (open_bytes_mine Htr k Ts L p x T I Hx HT Hu)].
      * unfold own_pages. intros q Hq. apply elem_of_app. by right.
      * exists v. split; [done|]. split; [done|]. pose proof (Z.mod_pos_bound v 4096). unfold upa, in_page, PGSIZE. lia.
Qed.

(** An exited child: its pid and, unless [addr] is null, its status are delivered, and all
    its pages are free; if the status cannot be delivered it stays. *)
Record reaped (addr : Z) (i : nat) (y : proc) (Ti : ptree) (k' : kernel) (L' : list Z) : Prop := {
  rp_inv : proc_inv k' (<[i := ∅]> Ts) L';
  rp_slot : k_procs k' = <[i := freed y]> (k_procs k);
  rp_pages : L' ≡ₚ proc_pages (k_mach k) y Ti ++ L;
  rp_status : written (k_mach k) (k_mach k') T addr (if addr =? 0 then 0 else 4) (le_bytes 4 (p_xstate y));
}.
End Wait.

Lemma reap_ok {Img : Image} k Ts L p x T addr i y Ti :
  page_addr trampoline → proc_inv k Ts L → k_procs k !! p = Some x → Ts !! p = Some T → p_state x = RUNNING →
  k_procs k !! i = Some y → Ts !! i = Some Ti → p_state y = ZOMBIE → 0 ≤ addr < 2 ^ 64 - 4 →
  ∃ k', reap p addr i y [L_proc i; L_wait] k = Ok (Found (p_pid y)) [] k' ∧ (∃ L', reaped k Ts L T addr i y Ti k' L') ∨
    reap p addr i y [L_proc i; L_wait] k = Ok Fault [] k' ∧ proc_inv k' Ts L ∧ k_procs k' = k_procs k ∧
      addr ≠ 0 ∧ ¬ accessible (k_mach k) T addr 4.
Proof.
  intros Htr I Hx HT Hr Hy HTi Hz Hadd. unfold reap. rewrite bind_getproc, (proc_at_lookup _ _ _ Hx).
  assert (L_kmem ∉ [L_proc i; L_wait]) as Hh by set_solver. assert (p_state x ≠ UNUSED) as Hu by congruence.
  destruct (Z.eqb_spec addr 0) as [->|Hnz].
  - rewrite bind_ret. cbn [Z.ltb Z.compare].
    destruct (free_zombie Htr k Ts L p x T I Hx HT Hr _ i y Ti Hh Hy HTi Hz) as (k' & L' & E & I' & Ep & P & HR).
    erewrite bind_Ok by exact E. exists k'. left. rewrite !bind_release by set_solver. split; [done|]. exists L'.
    split; [done..|]. cbn [Z.eqb]. intros v Hv Hup. rewrite decide_False by lia. by apply HR.
  - destruct (copyout_spec [L_proc i; L_wait] (k_mach k) T (p_pagetable x) L addr (le_bytes 4 (p_xstate y)))
      as (r & n & m' & E & Uok & Hup & Hw & St & _ & R); [by eapply my_us_ok|lia|apply le_bytes_byte|rewrite length_le_bytes; lia|].
    rewrite length_le_bytes in *. erewrite bind_Ok by exact (in_mem_Ok _ _ k _ _ _ E).
    destruct (user_write_inv Htr k Ts L p x T I Hx HT Hu m' St) as [I1 Hpp]; [apply Uok|].
    set (k1 := k <| k_mach := m' |>) in *. destruct R as [[-> ->]|(-> & Hn & Hun)]; cbn [Z.ltb Z.compare].
    + destruct (free_zombie Htr k1 Ts L p x T I1 Hx HT Hr _ i y Ti Hh Hy HTi Hz) as (k' & L' & E' & I' & Ep & P & HR).
      erewrite bind_Ok by exact E'. exists k'. left. rewrite !bind_release by set_solver. split; [done|]. exists L'.
      split; [done|done|by rewrite P, <- (Hpp i y Ti)|]. rewrite (proj2 (Z.eqb_neq addr 0)) by done.
      intros v Hv Hvu. rewrite HR by (done || by rewrite Hup). by apply Hw.
    + exists k1. right. rewrite !bind_release by set_solver. split_and!; [done..|].
      intros Ha. by eapply accessible_not_unmapped.
Qed.
