(* ===== verification/ProcProps.v ===== *)
(** * Correctness of the process operations (kernel/proc.c)

    Theorems on [fork], [growproc], [wait] and [kill], and a process table with one
    process at which they are applied. *)

From S2P Require Import Prelude CString Riscv Kalloc Vm PageTable AddrSpace FreeWalk UserMem Kernel Sched ProcMem.
From S2P Require Import Sleeplock Bytes Bio BioList BioSpec Sample Log Uart Printf Console Pipe Fs File Proc ProcSpec ProcAlloc ProcFork ProcGrow ProcWait.

(** ** A process table *)

Definition sample_image : Image := {|
  trampoline := KERNBASE + 0x7000; uservec := KERNBASE + 0x7000; userret := KERNBASE + 0x709c;
  usertrap_entry := KERNBASE + 0x2800; kernelvec := KERNBASE + 0x5d00; etext := KERNBASE + 0x8000;
|}.

Lemma booted_free12 : free_inv (booted 12) (booted_pages 12).
Proof. apply booted_inv; [done|by vm_compute|]. vm_compute. repeat split; discriminate. Qed.

Definition empty_table : kernel := zero_kernel (booted 12) (Disk ∅ []).

Lemma zero_proc_wf : proc_wf zero_proc.
Proof. split; try done. Qed.

Lemma empty_table_inv : mem_inv (Img := sample_image) empty_table (replicate (Z.to_nat NPROC) ∅) (booted_pages 12).
Proof.
  assert (∀ i x, k_procs empty_table !! i = Some x → x = zero_proc) as Hz by (intros i x; by intros [-> _]%lookup_replicate).
  split; [exact booted_free12|done|..].
  - intros i x T ->%Hz [-> _]%lookup_replicate. split; [done|done|]. apply booted_free12.
  - intros i x T j y U ->%Hz HT ->%Hz HU Hne. unfold proc_pages, tf_pages, pt_pages. cbn. intros q Hq. by apply not_elem_of_nil in Hq.
Qed.

(** [allocproc] has given slot 0 to a process, which runs in directory 0. *)
Lemma sample_table : ∃ k Ts L x T,
  proc_inv (Img := sample_image) k Ts L ∧ k_nextpid k = 2 ∧ k_cur k = Some 0%nat ∧ k_procs k !! 0%nat = Some x ∧ Ts !! 0%nat = Some T ∧
  p_state x = RUNNING ∧ p_cwd x = Some 0%nat ∧ p_sz x = 0 ∧ p_ofile x = replicate (Z.to_nat NOFILE) None ∧ (6 ≤ length L)%nat ∧
  p_parent x = None ∧ (∀ i, i ≠ 0%nat → (i < Z.to_nat NPROC)%nat → k_procs k !! i = Some zero_proc).
Proof.
  pose proof (allocproc_ok (Img := sample_image) ltac:(by vm_compute) ltac:(by vm_compute) [] empty_table _ _ ltac:(set_solver) ltac:(set_solver)
    ltac:(set_solver) empty_table_inv (Forall_replicate _ _ _ zero_proc_wf)) as H.
  change (first_unused empty_table) with (Some 0%nat) in H. cbv iota in H.
  destruct H as (x & m & tfs & L & Hx & _ & _ & [(_ & _ & _ & Hlen)|(tf & pt & T & _ & M & Htf & Hpt & _ & _ & _ & Hlen)]); [exfalso; revert Hlen; vm_compute; lia|].
  injection Hx as <-. set (y := new_proc (k_nextpid empty_table) tf pt zero_proc) in *.
  set (k1 := slot_state _ m tfs 0 y empty_table) in *. set (x := y <| p_state := RUNNING |> <| p_cwd := Some 0%nat |>).
  set (k2 := at_slot 0 x (k1 <| k_cur := Some 0%nat |>)).
  assert (∀ i z, k_procs k2 !! i = Some z → i = 0%nat ∧ z = x ∨ i ≠ 0%nat ∧ z = zero_proc) as Hp.
  { intros [|i] z; cbn; [intros [= <-]; by left|]. intros [-> _]%(lookup_replicate 63). by right. }
  assert (mem_inv (Img := sample_image) k2 (<[0%nat := T]> (replicate (Z.to_nat NPROC) ∅)) L) as M2.
  { eapply mem_inv_same; [exact M|done|done|].
    change (Forall2 same_space (y :: replicate 63 zero_proc) (x :: replicate 63 zero_proc)).
    constructor; [done|]. by apply Forall_Forall2_diag, Forall_true. }
  assert (proc_wf x) as Wx by (split; try done; by intros [?|?]).
  exists k2, (<[0%nat := T]> (replicate (Z.to_nat NPROC) ∅)), L, x, T. split; [|split_and!; try done].
  - split; [done| |done|..].
    + apply Forall_lookup_2. intros i z [[_ ->]|[_ ->]]%Hp; [done|apply zero_proc_wf].
    + intros i z [[_ ->]|[_ ->]]%Hp; done.
    + intros i j z w [[-> ->]|[Hi ->]]%Hp [[-> ->]|[Hj ->]]%Hp; done.
  - change (length (booted_pages 12)) with 12%nat in Hlen. lia.
  - intros [|i] Hi Hlt; [done|]. apply (lookup_replicate_2 63). change (Z.to_nat NPROC) with 64%nat in Hlt. lia.
Qed.

(** ** fork *)

Lemma fork_ok {Img : Image} k Ts L p x Tp c :
  page_addr trampoline → trampoline + 8192 < 2 ^ 56 →
  proc_inv k Ts L → k_nextpid k < 2 ^ 31 - 1 →
  k_cur k = Some p → k_procs k !! p = Some x → p_state x ≠ UNUSED → Ts !! p = Some Tp →
  p_cwd x = Some c → dupable (p_ofile x) (k_ftable k) →
  ∃ r k' Ts' L', fork [] k = Ok r [] k' ∧
    (r = -1 ∧ fork_failed k L k' Ts' L' ∧
       (first_unused k = None ∨ Z.of_nat (length L) < 6 + 3 * npages (p_sz x)) ∨
     r = k_nextpid k ∧ ∃ np y tf pt Tc, fork_child k Ts L p x Tp c r k' Ts' L' np y tf pt Tc).
Proof.
  intros Ht Ht' I Hn Hcur Hx Hu HTp Hc Hd.
  pose proof (allocproc_ok Ht Ht' [] k Ts L ltac:(set_solver) ltac:(set_solver) ltac:(set_solver) (pi_mem _ _ _ I) (pi_wf _ _ _ I)) as HA.
  destruct (first_unused k) as [np|] eqn:Eu.
  - destruct HA as (y & m & tfs & L1 & Hy & Es & A & [(E & M & P & Hlen)|(tf & pt & T & E & M & H)]).
    + eexists (-1), _, _, L1. split; [|left; split_and!; [done| |right]].
      * unfold fork. rewrite (bind_curproc _ _ _ p) by done. by erewrite bind_Ok by exact E.
      * eapply (fork_undone k Ts L I Hn np y y); [done|done|exact M|done|apply A|done..].
      * destruct (po_pt _ _ _ _ _ (mi_proc _ _ _ (pi_mem _ _ _ I) p x Tp Hx HTp)) as (Hs & _); [apply (wf_used _ (Forall_lookup_1 _ _ _ _ (pi_wf _ _ _ I) Hx) Hu)|].
        assert (0 ≤ npages (p_sz x)) by (apply Z.div_pos; lia). lia.
    + destruct H as (H1 & H2 & H3 & H4 & H5 & H6).
      destruct (fork_copied Ht Ht' k Ts L p x Tp c I Hn Hcur Hx Hu HTp Hc Hd np y m tfs L1 tf pt T)
        as (r & k' & Ts' & L' & E' & R); [done..|].
      exists r, k', Ts', L'. split; [done|]. destruct R as [(-> & F & Hlen)|[-> F]]; [left; split_and!; [done..|by right]|by right].
  - exists (-1), k, Ts, L. split; [unfold fork; rewrite (bind_curproc _ _ _ p) by done; by erewrite bind_Ok by exact HA|].
    left. split_and!; [done| |by left]. split; [done|]. split; [done|]. split; [apply steps_in_refl|done].
Qed.

(** C10: [fork] either makes a child or changes nothing that a process can see.  The child
    is a new, runnable process in the first unused slot, with a pid of its own; every
    byte and permission of its memory, its name, its open files, its directory and its
    registers are those of the parent, except that register a0 is 0; the parent gets
    the child's pid.  Only pages that were free are written, every file has one more
    reference for each descriptor that refers to it, and the account of all pages,
    slots and pids holds again.  [fork] fails, with -1 and every page given back, only
    when no slot is free or memory is short. *)
Theorem fork_correct {Img : Image} k Ts L p x Tp c :
  page_addr trampoline → trampoline + 8192 < 2 ^ 56 →
  proc_inv k Ts L → k_nextpid k < 2 ^ 31 - 1 →
  k_cur k = Some p → k_procs k !! p = Some x → p_state x ≠ UNUSED → Ts !! p = Some Tp →
  p_cwd x = Some c → dupable (p_ofile x) (k_ftable k) →
  ∃ r k' Ts' L', fork [] k = Ok r [] k' ∧
    (r = -1 ∧ fork_failed k L k' Ts' L' ∧
       (first_unused k = None ∨ Z.of_nat (length L) < 6 + 3 * npages (p_sz x)) ∨
     r = k_nextpid k ∧ ∃ np y tf pt Tc, fork_child k Ts L p x Tp c r k' Ts' L' np y tf pt Tc).
Proof. apply fork_ok. Qed.

Lemma fork_correct_witness : ∃ k Ts L x T r k' Ts' L',
  proc_inv (Img := sample_image) k Ts L ∧ fork (H := sample_image) [] k = Ok r [] k' ∧
  (r = -1 ∧ fork_failed (Img := sample_image) k L k' Ts' L' ∧ (first_unused k = None ∨ Z.of_nat (length L) < 6) ∨
   r = 2 ∧ ∃ np y tf pt Tc, fork_child (Img := sample_image) k Ts L 0 x T 0 r k' Ts' L' np y tf pt Tc).
Proof.
  destruct sample_table as (k & Ts & L & x & T & I & Hn & Hcur & Hx & HT & Hs & Hc & Hsz & Ho & _).
  destruct (fork_correct (Img := sample_image) k Ts L 0 x T 0) as (r & k' & Ts' & L' & E & R).
  - by vm_compute.
  - by vm_compute.
  - exact I.
  - by rewrite Hn.
  - exact Hcur.
  - exact Hx.
  - by rewrite Hs.
  - exact HT.
  - exact Hc.
  - rewrite Ho. intros f Hf. apply elem_of_replicate_inv in Hf. discriminate Hf.
  - exists k, Ts, L, x, T, r, k', Ts', L'. split; [exact I|]. split; [exact E|]. rewrite Hn, Hsz in R. exact R.
Defined.

(** ** growproc *)

(** C12: [growproc] moves the end of the memory by [n] bytes: the pages that stay keep
    their bytes and permissions, new pages are zero and writable, pages that go return to
    the free list, and the account of all pages holds again.  It returns -1, with the size
    unchanged, only when memory is short; a negative [n] that exceeds the size changes
    nothing. *)
Theorem growproc_correct {Img : Image} k Ts L p x T h n :
  proc_inv k Ts L → k_cur k = Some p → k_procs k !! p = Some x → Ts !! p = Some T → p_state x ≠ UNUSED →
  L_kmem ∉ h → - 2 ^ 31 ≤ n < 2 ^ 31 →
  ∃ r k' T' L', growproc n h k = Ok r h k' ∧ grow_post k Ts L p x T n r k' T' L'.
Proof.
  intros I Hc Hx HT Hu Hh Hn. destruct (Z.lt_total n 0) as [H|[->|H]].
  - destruct (growproc_less k Ts L p x T I Hc Hx HT Hu h n Hh) as (k' & L' & E & G); [lia|]. by exists 0, k', T, L'.
  - destruct (growproc_none k Ts L p x T I Hc Hx HT Hu h) as [E G]. by exists 0, k, T, L.
  - apply growproc_more; auto. lia.
Qed.

Lemma growproc_correct_witness : ∃ k Ts L x T r k' T' L',
  proc_inv (Img := sample_image) k Ts L ∧ growproc 4096 [] k = Ok r [] k' ∧
  grow_post (Img := sample_image) k Ts L 0 x T 4096 r k' T' L'.
Proof.
  destruct sample_table as (k & Ts & L & x & T & I & Hn & Hcur & Hx & HT & Hs & _).
  destruct (growproc_correct (Img := sample_image) k Ts L 0 x T [] 4096 I Hcur Hx HT) as (r & k' & T' & L' & E & G).
  - by rewrite Hs.
  - apply not_elem_of_nil.
  - lia.
  - exists k, Ts, L, x, T, r, k', T', L'. split; [exact I|]. split; [exact E|exact G].
Defined.

(** ** wait *)

Lemma first_unused_1 k x y :
  k_procs k !! 0%nat = Some x → p_state x ≠ UNUSED → k_procs k !! 1%nat = Some y → p_state y = UNUSED → first_unused k = Some 1%nat.
Proof.
  intros Hx Ex Hy Ey. unfold first_unused. change (Z.to_nat NPROC) with 64%nat. cbn [seq find]. unfold is_unused at 1 2.
  rewrite (proc_at_lookup _ _ _ Hx), (proc_at_lookup _ _ _ Hy), Ey. by rewrite bool_decide_false.
Qed.

Lemma find_zombie_1 k x y :
  k_procs k !! 0%nat = Some x → p_parent x = None → k_procs k !! 1%nat = Some y → p_parent y = Some 0%nat → p_state y = ZOMBIE →
  find (my_zombie k 0) (seq 0 (Z.to_nat NPROC)) = Some 1%nat.
Proof.
  intros Hx Ex Hy Ey Ez. change (Z.to_nat NPROC) with 64%nat. cbn [seq find]. unfold my_zombie at 1 2, my_child at 1 2.
  by rewrite (proc_at_lookup _ _ _ Hx), Ex, (proc_at_lookup _ _ _ Hy), Ey, Ez.
Qed.

(** A child in slot 1 exits with status 7. *)
Lemma exit_child {Img : Image} k Ts L x y (z := y <| p_state := ZOMBIE |> <| p_cwd := None |> <| p_xstate := 7 |>) :
  proc_inv k Ts L → k_procs k !! 0%nat = Some x → p_parent x = None → k_procs k !! 1%nat = Some y → p_state y ≠ UNUSED →
  p_ofile y = replicate (Z.to_nat NOFILE) None → p_parent y = Some 0%nat →
  ∃ k', proc_inv k' Ts L ∧ k_cur k' = Some 0%nat ∧ k_procs k' !! 0%nat = Some x ∧ k_procs k' !! 1%nat = Some z ∧
    find (my_zombie k' 0) (seq 0 (Z.to_nat NPROC)) = Some 1%nat.
Proof.
  intros I Hx Ex Hy Hu Ho Ey. pose proof (Forall_lookup_1 _ _ _ _ (pi_wf _ _ _ I) Hy) as W.
  assert (proc_wf z) as Wz.
  { split; [discriminate|intros _; by apply (wf_used _ W)|done|discriminate|exact (wf_files _ W)|exact (wf_name _ W)]. }
  assert (Forall2 same_space (k_procs k) (<[1%nat := z]> (k_procs k))) as Hss.
  { rewrite <- (list_insert_id (k_procs k) 1 y Hy) at 1. apply Forall2_insert; [|done]. by apply Forall_Forall2_diag, Forall_true. }
  set (k' := at_slot 1 z (k <| k_cur := Some 0%nat |>)).
  assert (k_procs k' !! 0%nat = Some x) as Hx' by by apply list_lookup_insert_Some; right.
  assert (k_procs k' !! 1%nat = Some z) as Hz' by by apply list_lookup_insert_eq, (lookup_lt_Some _ _ _ Hy).
  exists k'. split_and!; [|done..|by eapply find_zombie_1].
  eapply (proc_inv_update k Ts L _ _ _ 1 z I); [|done|done|done|right; right; by exists y].
  by eapply mem_inv_same; [apply (pi_mem _ _ _ I)|..].
Qed.

Lemma sample_family : ∃ k Ts L x T y Tc,
  proc_inv (Img := sample_image) k Ts L ∧ k_cur k = Some 0%nat ∧ k_procs k !! 0%nat = Some x ∧ Ts !! 0%nat = Some T ∧
  p_state x = RUNNING ∧ k_procs k !! 1%nat = Some y ∧ Ts !! 1%nat = Some Tc ∧ p_xstate y = 7 ∧
  find (my_zombie k 0) (seq 0 (Z.to_nat NPROC)) = Some 1%nat.
Proof.
  destruct sample_table as (k & Ts & L & x & T & I & Hn & Hcur & Hx & HT & Hs & Hc & Hsz & Ho & Hlen & Hpar & Hz).
  assert (k_procs k !! 1%nat = Some zero_proc) as H1 by (apply Hz; [done|change (Z.to_nat NPROC) with 64%nat; lia]).
  assert (first_unused k = Some 1%nat) as Eu by (by eapply first_unused_1; [exact Hx|rewrite Hs|exact H1|]).
  destruct (fork_ok (Img := sample_image) k Ts L 0 x T 0) as (r & k' & Ts' & L' & E & R);
    [by vm_compute|by vm_compute|done|by rewrite Hn|done|done|by rewrite Hs|done|done| |].
  { rewrite Ho. intros f Hf. apply elem_of_replicate_inv in Hf. discriminate Hf. }
  destruct R as [(_ & _ & [Hf|Hl])|(_ & np & y & tf & pt & Tc & [F1 _ [F2 F3] [F4 F5] _ _ _ _ _])];
    [congruence|rewrite Hsz in Hl; change (npages 0) with 0 in Hl; lia|].
  pose proof (mi_len _ _ _ (pi_mem _ _ _ I)) as [Hl1 Hl2]. change (Z.to_nat NPROC) with 64%nat in Hl1, Hl2.
  rewrite Eu in F2. injection F2 as <-.
  destruct (exit_child k' Ts' L' x (child_of 0 x 0 (new_proc r tf pt y)) F1) as (k2 & I2 & Hc2 & Hx2 & Hy2 & Hf2).
  - rewrite F4, list_lookup_insert_ne by done. exact Hx.
  - exact Hpar.
  - rewrite F4. apply list_lookup_insert_eq. lia.
  - discriminate.
  - exact Ho.
  - reflexivity.
  - eexists k2, Ts', L', x, T, _, Tc. split_and!; [exact I2|exact Hc2|exact Hx2| |exact Hs|exact Hy2| |reflexivity|exact Hf2].
    + rewrite F5, list_lookup_insert_ne by done. exact HT.
    + rewrite F5. apply list_lookup_insert_eq. lia.
Qed.

(** C11: [wait] takes the first of the caller's exited children: it stores the exit status
    at [addr], returns the child's pid and frees its slot and every page it had; if
    [addr] is not writable it returns -1 and the child stays.  Without an exited child it
    sleeps, unless there is no child at all or the caller has been killed: then it
    returns -1 and nothing has changed. *)
Theorem wait_correct {Pat : Patience} {Img : Image} k Ts L p x T addr :
  page_addr trampoline → patience ≠ 0%nat → proc_inv k Ts L → k_cur k = Some p → k_procs k !! p = Some x →
  Ts !! p = Some T → p_state x = RUNNING → 0 ≤ addr < 2 ^ 64 - 4 →
  match find (my_zombie k p) (seq 0 (Z.to_nat NPROC)) with
  | Some i => ∃ y Ti k', k_procs k !! i = Some y ∧ Ts !! i = Some Ti ∧
      (wait addr [] k = Ok (p_pid y) [] k' ∧ (∃ L', reaped k Ts L T addr i y Ti k' L') ∨
       wait addr [] k = Ok (-1) [] k' ∧ proc_inv k' Ts L ∧ k_procs k' = k_procs k ∧
         addr ≠ 0 ∧ ¬ accessible (k_mach k) T addr 4)
  | None =>
      if existsb (my_child k p) (seq 0 (Z.to_nat NPROC)) && negb (p_killed x)
      then ∃ c, wait addr [] k = Block [L_proc p] (asleep (Ch_proc p) p k) c
      else wait addr [] k = Ok (-1) [] k
  end.
Proof.
  intros Htr Hpat I Hc Hx HT Hr Ha. unfold wait. rewrite (bind_curproc _ _ _ p) by done. rewrite bind_acquire by set_solver.
  pose proof (wait_scan_run p addr k (seq 0 (Z.to_nat NPROC)) false) as Es.
  pose proof (lookup_lt_Some _ _ _ Hx) as Hlt. pose proof (mi_len _ _ _ (pi_mem _ _ _ I)) as [Hl1 Hl2].
  destruct patience as [|w]; [done|]. cbn [wait_loop]. destruct (find _ _) as [i|] eqn:Ef.
  - apply find_some in Ef as [Hi%in_seq Hz]. apply andb_prop in Hz as [_ Hz%bool_decide_eq_true].
    destruct (lookup_lt_is_Some_2 (k_procs k) i) as [y Hy]; [lia|]. destruct (lookup_lt_is_Some_2 Ts i) as [Ti HTi]; [lia|].
    rewrite (proc_at_lookup _ _ _ Hy) in Hz, Es. exists y, Ti.
    destruct (reap_ok k Ts L p x T addr i y Ti Htr I Hx HT Hr Hy HTi Hz Ha) as (k' & [[E R]|[E R]]); rewrite E in Es;
      exists k'; (split; [exact Hy|]; split; [exact HTi|]).
    + left. split; [erewrite bind_Ok by exact Es; reflexivity|exact R].
    + right. split; [erewrite bind_Ok by exact Es; reflexivity|exact R].
  - cbn [orb] in Es. erewrite bind_Ok by exact Es. destruct (existsb _ _); cbn [andb].
    + erewrite bind_Ok by (apply killed_run; intros H%list_elem_of_singleton; discriminate H). rewrite (proc_at_lookup _ _ _ Hx).
      destruct (p_killed x); cbn [negb]; [rewrite bind_release by apply not_elem_of_nil; reflexivity|].
      eexists. apply sleep_bind; [exact Hc|exact Hlt|discriminate].
    + rewrite bind_ret, bind_release by apply not_elem_of_nil. reflexivity.
Qed.

Lemma wait_correct_witness : ∃ k Ts L T y Ti k' L',
  proc_inv (Img := sample_image) k Ts L ∧ p_xstate y = 7 ∧ wait (H := 1%nat) 0 [] k = Ok (p_pid y) [] k' ∧
  reaped (Img := sample_image) k Ts L T 0 1 y Ti k' L'.
Proof.
  destruct sample_family as (k & Ts & L & x & T & y & Tc & I & Hc & Hx & HT & Hs & Hy & HTc & Hxs & Hf).
  pose proof (wait_correct (Pat := 1%nat) (Img := sample_image) k Ts L 0 x T 0 ltac:(by vm_compute) ltac:(discriminate)
    I Hc Hx HT Hs ltac:(lia)) as W.
  rewrite Hf in W. destruct W as (y' & Ti & k' & Hy' & HTi & [[E (L' & R)]|(_ & _ & _ & H0 & _)]); [|by destruct H0].
  rewrite Hy in Hy'. injection Hy' as <-.
  exists k, Ts, L, T, y, Ti, k', L'. split; [exact I|]. split; [exact Hxs|]. split; [exact E|exact R].
Defined.

(** ** kill *)

Definition mark_killed (x : proc) : proc :=
  x <| p_killed := true |> <| p_state := if decide (p_state x = SLEEPING) then RUNNABLE else p_state x |>.

Lemma kill_loop_run pid h k ps :
  (∀ i, L_proc i ∉ h) → Forall (λ i, i < length (k_procs k))%nat ps →
  kill_loop pid ps h k =
    match find (λ i, p_pid (proc_at i k) =? pid) ps with
    | Some i => Ok 0 h (at_slot i (mark_killed (proc_at i k)) k)
    | None => Ok (-1) h k
    end.
Proof.
  intros Hh. induction ps as [|i ps IH]; intros HF; cbn [kill_loop find]; [done|]. apply Forall_cons in HF as [Hi HF].
  rewrite bind_acquire, bind_getproc by done. destruct (_ =? pid); [|by rewrite bind_release by done; apply IH].
  destruct (lookup_lt_is_Some_2 _ _ Hi) as [x Hx]. rewrite (proc_at_lookup _ _ _ Hx), bind_updproc.
  assert (∀ f, k <| k_procs ::= alter f i |> = at_slot i (f x) k) as Ha.
  { intros f. pose (v := λ l : list proc, k <| k_procs := l |>).
    change (v (alter f i (k_procs k)) = v (<[i := f x]> (k_procs k))). f_equal. by apply alter_insert_eq. }
  rewrite Ha. unfold mark_killed. case_bool_decide as Es; cbn [when].
  - rewrite bind_updproc, at_slot_upd by done. rewrite decide_True by done. by rewrite bind_release.
  - rewrite bind_ret. rewrite decide_False by done. rewrite bind_release by done. unfold mret, M_ret. by destruct x.
Qed.

Lemma find_ext {A} (f g : A → bool) l : (∀ x, f x = g x) → find f l = find g l.
Proof. intros H. induction l as [|a l IH]; cbn [find]; [done|]. by rewrite H, IH. Qed.

(** The slot with pid 0 that [kill(0)] finds is the one that [allocproc] takes next. *)
Lemma find_pid_0 {Img : Image} k Ts L ps :
  proc_inv k Ts L → Forall (λ i, i < length (k_procs k))%nat ps →
  find (λ i, p_pid (proc_at i k) =? 0) ps = find (is_unused k) ps.
Proof.
  intros I. induction ps as [|i ps IH]; intros HF; cbn [find]; [done|]. apply Forall_cons in HF as [Hi HF].
  destruct (lookup_lt_is_Some_2 _ _ Hi) as [x Hx]. unfold is_unused at 1. rewrite (proc_at_lookup _ _ _ Hx), (IH HF).
  case_bool_decide as Es.
  - destruct (wf_unused _ (Forall_lookup_1 _ _ _ _ (pi_wf _ _ _ I) Hx) Es) as (_ & _ & _ & -> & _). done.
  - pose proof (pi_pid _ _ _ I i x Hx Es). by rewrite (proj2 (Z.eqb_neq _ _)) by lia.
Qed.

Lemma mark_killed_inv {Img : Image} k Ts L i x :
  proc_inv k Ts L → k_procs k !! i = Some x → p_state x = UNUSED → proc_inv (at_slot i (mark_killed x) k) Ts L.
Proof.
  intros I Hx Es. pose proof (Forall_lookup_1 _ _ _ _ (pi_wf _ _ _ I) Hx) as W.
  assert (p_state (mark_killed x) = UNUSED) as Es' by (unfold mark_killed; cbn; by rewrite Es).
  eapply (proc_inv_update k Ts L _ _ _ i (mark_killed x) I); [|done| |done|by left].
  - eapply mem_inv_same; [apply (pi_mem _ _ _ I)|done|done|].
    change (Forall2 same_space (k_procs k) (<[i := mark_killed x]> (k_procs k))).
    rewrite <- (list_insert_id (k_procs k) i x Hx) at 1. apply Forall2_insert; [|done]. by apply Forall_Forall2_diag, Forall_true.
  - split; rewrite ?Es'; [intros _; exact (wf_unused _ W Es)|done|intros _; exact (wf_closed _ W (or_introl Es))|done|exact (wf_files _ W)|exact (wf_name _ W)].
Qed.

(** C39: [kill(0)] is answered with success although no process has pid 0: it marks the
    unused slot that the next [fork] takes, and [allocproc] does not clear the mark.  The
    next child of any process is therefore born killed: it exits at its first trap. *)
Theorem kill_zero_dooms_child {Img : Image} k Ts L p x Tp c np :
  page_addr trampoline → trampoline + 8192 < 2 ^ 56 → proc_inv k Ts L → k_nextpid k < 2 ^ 31 - 1 →
  k_cur k = Some p → k_procs k !! p = Some x → p_state x ≠ UNUSED → Ts !! p = Some Tp →
  p_cwd x = Some c → dupable (p_ofile x) (k_ftable k) →
  first_unused k = Some np → 6 + 3 * npages (p_sz x) ≤ Z.of_nat (length L) →
  ∃ k1 r k' y, kill 0 [] k = Ok 0 [] k1 ∧ fork [] k1 = Ok r [] k' ∧
    k_procs k' !! np = Some y ∧ p_pid y = r ∧ p_state y = RUNNABLE ∧ p_killed y = true.
Proof.
  intros Ht Ht' I Hn Hc Hx Hu HT Hcw Hd Ef Hlen. destruct (first_unused_Some k np Ef) as [Hnp Es].
  pose proof (mi_len _ _ _ (pi_mem _ _ _ I)) as [Hl _]. destruct (lookup_lt_is_Some_2 (k_procs k) np) as [z Hz]; [lia|].
  assert (Forall (λ i, i < length (k_procs k))%nat (seq 0 (Z.to_nat NPROC))) as HF.
  { apply Forall_forall. intros i Hi%elem_of_seq. lia. }
  pose proof (kill_loop_run 0 [] k _ ltac:(intros i; apply not_elem_of_nil) HF) as Ek.
  rewrite (find_pid_0 k Ts L _ I HF) in Ek. fold (first_unused k) in Ek. rewrite Ef in Ek.
  rewrite (proc_at_lookup _ _ _ Hz) in Es, Ek. set (k1 := at_slot np (mark_killed z) k) in *.
  assert (k_procs k1 !! np = Some (mark_killed z)) as Hz1 by (apply list_lookup_insert_eq; lia).
  assert (first_unused k1 = Some np) as Ef1.
  { rewrite <- Ef. unfold first_unused. apply find_ext. intros i. unfold is_unused. destruct (decide (i = np)) as [->|Hne].
    - rewrite (proc_at_lookup _ _ _ Hz1), (proc_at_lookup _ _ _ Hz), Es. unfold mark_killed. cbn. by rewrite Es.
    - unfold proc_at. change (k_procs k1) with (<[np := mark_killed z]> (k_procs k)). by rewrite list_lookup_insert_ne. }
  destruct (fork_ok k1 Ts L p x Tp c Ht Ht' (mark_killed_inv k Ts L np z I Hz Es) Hn Hc) as (r & k' & Ts' & L' & E & R);
    [|done..|].
  { change (<[np := mark_killed z]> (k_procs k) !! p = Some x). rewrite list_lookup_insert_ne by congruence. done. }
  destruct R as [(_ & _ & [?|?])|(-> & i & y & tf & pt & Tc & [_ _ [F2 F3] [F4 _] _ _ _ _ _])]; [congruence|lia|].
  rewrite Ef1 in F2. injection F2 as <-. rewrite Hz1 in F3. injection F3 as <-.
  eexists k1, _, k', _. split; [exact Ek|]. split; [exact E|]. split; [rewrite F4; apply list_lookup_insert_eq|].
  - change (k_procs k1) with (<[np := mark_killed z]> (k_procs k)). rewrite length_insert. lia.
  - done.
Qed.

Lemma kill_zero_dooms_child_witness : ∃ k k1 r k' y,
  kill 0 [] k = Ok 0 [] k1 ∧ fork (H := sample_image) [] k1 = Ok r [] k' ∧
  k_procs k' !! 1%nat = Some y ∧ p_pid y = r ∧ p_state y = RUNNABLE ∧ p_killed y = true.
Proof.
  destruct sample_table as (k & Ts & L & x & T & I & Hn & Hcur & Hx & HT & Hs & Hc & Hsz & Ho & Hlen & _ & Hz).
  exists k. apply (kill_zero_dooms_child (Img := sample_image) k Ts L 0 x T 0 1).
  - by vm_compute.
  - by vm_compute.
  - exact I.
  - by rewrite Hn.
  - exact Hcur.
  - exact Hx.
  - by rewrite Hs.
  - exact HT.
  - exact Hc.
  - rewrite Ho. intros f Hf. apply elem_of_replicate_inv in Hf. discriminate Hf.
  - apply (first_unused_1 k x zero_proc Hx); [by rewrite Hs| |done]. apply Hz; [done|]. change (Z.to_nat NPROC) with 64%nat. lia.
  - rewrite Hsz. change (npages 0) with 0. lia.
Defined.
