(* ===== verification/Args.v ===== *)
(** * Arguments of system calls (kernel/syscall.c)

    The arguments of a system call are in the registers saved in the trapframe of
    the current process; strings and words behind user addresses are copied in. *)

From S2P Require Import Prelude CString Riscv Kalloc Vm Kernel Sched Bytes Proc.

(** The 64-bit word at a user address. *)
Definition fetchaddr (addr : Z) : KM (Z * Z) :=
  p ← curproc;
  x ← getproc p;
  if (p_sz x <=? addr) || (p_sz x <? u64 (addr + 8)) then mret (-1, 0) else
  '(r, bs) ← in_mem (copyin (p_pagetable x) addr 8);
  if negb (r =? 0) then mret (-1, 0) else mret (0, le_val bs).

(** The length of the string and the contents of [buf]. *)
Definition fetchstr (addr max : Z) : KM (Z * list Z) :=
  p ← curproc;
  x ← getproc p;
  '(r, buf) ← in_mem (copyinstr (p_pagetable x) addr max);
  if r <? 0 then mret (-1, buf) else mret (strlen buf, buf).

Definition argraw (n : Z) : KM Z :=
  p ← curproc;
  x ← getproc p;
  tf ← gettf (p_trapframe x);
  if (0 <=? n) && (n <=? 5) then mret (tf_reg (R_a (Z.to_nat n)) tf) else panic "argraw".

Definition argint (n : Z) : KM Z := v ← argraw n; mret (i32 v).
Definition argaddr (n : Z) : KM Z := argraw n.
Definition argstr (n max : Z) : KM (Z * list Z) :=
  addr ← argaddr n;
  fetchstr addr max.
