(* ===== verification/Sysproc.v ===== *)
(** * Process system calls (kernel/sysproc.c) *)

From S2P Require Import Prelude CString Riscv Kalloc Vm Kernel Sched Bytes File Proc Args.

Section Sysproc.
Context `{Patience} `{Image}.

Definition sys_exit : KM Z :=
  n ← argint 0;
  exit n;;
  mret 0.

Definition sys_getpid : KM Z :=
  p ← curproc;
  x ← getproc p;
  mret (p_pid x).

Definition sys_fork : KM Z := fork.

Definition sys_wait : KM Z :=
  p ← argaddr 0;
  wait p.

Definition sys_sbrk : KM Z :=
  n ← argint 0;
  p ← curproc;
  x ← getproc p;
  let addr := p_sz x in
  r ← growproc n;
  if r <? 0 then mret (-1) else mret addr.

(** [while(ticks - ticks0 < n)]: the comparison is unsigned. *)
Fixpoint sys_sleep_loop (w : nat) (ticks0 n : Z) : KM Z :=
  ticks ← gets k_ticks;
  if u32 (ticks - ticks0) <? u32 n then
    p ← curproc;
    k ← killed p;
    if k : bool then
      release L_ticks;;
      mret (-1)
    else
    match w with
    | O => nofuel
    | S w =>
        sleep Ch_ticks L_ticks;;
        sys_sleep_loop w ticks0 n
    end
  else
  release L_ticks;;
  mret 0.

Definition sys_sleep : KM Z :=
  n ← argint 0;
  acquire L_ticks;;
  ticks0 ← gets k_ticks;
  sys_sleep_loop patience ticks0 n.

Definition sys_kill : KM Z :=
  pid ← argint 0;
  kill pid.

Definition sys_uptime : KM Z :=
  acquire L_ticks;;
  xticks ← gets k_ticks;
  release L_ticks;;
  mret xticks.
End Sysproc.
