(* ===== verification/Exec.v ===== *)
(** * Executing a program (kernel/exec.c, kernel/elf.h)

    [exec] reads an ELF file, builds a new address space with the program's segments
    and a stack with the arguments, and replaces the address space of the current
    process with it. *)

From S2P Require Import Prelude CString Riscv Kalloc Vm Kernel Sched Bytes Bio Log Fs Proc.

Definition ELF_MAGIC : Z := 0x464C457F.
Definition ELF_PROG_LOAD : Z := 1.

(** The fields of [struct elfhdr] and [struct proghdr] that are used. *)
Record elfhdr : Type := Elfhdr { elf_magic : Z; elf_entry : Z; elf_phoff : Z; elf_phnum : Z }.
Definition sizeof_elfhdr : Z := 64.
Definition elf_of_bytes (l : list Z) : elfhdr := Elfhdr (get32 0 l) (get 8 24 l) (get 8 32 l) (get16 56 l).

Record proghdr : Type := Proghdr { ph_type : Z; ph_flags : Z; ph_off : Z; ph_vaddr : Z; ph_filesz : Z; ph_memsz : Z }.
Definition sizeof_proghdr : Z := 56.
Definition ph_of_bytes (l : list Z) : proghdr :=
  Proghdr (get32 0 l) (get32 4 l) (get 8 8 l) (get 8 16 l) (get 8 32 l) (get 8 40 l).

Definition flags2perm (flags : Z) : Z :=
  let perm := if negb (Z.land flags 0x1 =? 0) then PTE_X else 0 in
  if negb (Z.land flags 0x2 =? 0) then Z.lor perm PTE_W else perm.

Section Exec.
Context `{Patience} `{Image}.

(** ** Loading segments *)

(** [for(i = 0; i < sz; i += PGSIZE)] *)
Fixpoint loadseg_loop (fuel : nat) (pagetable va : Z) (ip : nat) (offset sz i : Z) : KM Z :=
  if i <? sz then
    match fuel with
    | O => nofuel
    | S fuel =>
        pa ← in_mem (walkaddr pagetable (u64 (va + i)));
        if pa =? 0 then panic "loadseg: address should exist" else
        let n := if sz - i <? PGSIZE then sz - i else PGSIZE in
        '(r, _) ← readi ip (Dst_phys pa) (u32 (offset + i)) n;
        if negb (r =? n) then mret (-1) else
        loadseg_loop fuel pagetable va ip offset sz (u32 (i + PGSIZE))
    end
  else mret 0.

Definition loadseg (pagetable va : Z) (ip : nat) (offset sz : Z) : KM Z :=
  loadseg_loop (Z.to_nat (sz / PGSIZE + 1)) pagetable va ip offset sz 0.

(** One round of the loop over the program headers, from the check of the type on: whether
    to go on (false is [goto bad]), and the new size. *)
Definition exec_segment (pagetable : Z) (ip : nat) (sz : Z) (ph : proghdr) : KM (bool * Z) :=
  if negb (ph_type ph =? ELF_PROG_LOAD) then mret (true, sz) else
  if ph_memsz ph <? ph_filesz ph then mret (false, sz) else
  if u64 (ph_vaddr ph + ph_memsz ph) <? ph_vaddr ph then mret (false, sz) else
  if negb (ph_vaddr ph mod PGSIZE =? 0) then mret (false, sz) else
  sz1 ← in_mem (uvmalloc pagetable sz (u64 (ph_vaddr ph + ph_memsz ph)) (flags2perm (ph_flags ph)));
  if sz1 =? 0 then mret (false, sz) else
  r ← loadseg pagetable (ph_vaddr ph) ip (u32 (ph_off ph)) (u32 (ph_filesz ph));
  if r <? 0 then mret (false, sz1) else mret (true, sz1).

(** [for(i=0, off=elf.phoff; i<elf.phnum; i++, off+=sizeof(ph))]; [off] is an int. *)
Fixpoint exec_segments (n : nat) (pagetable : Z) (ip : nat) (off sz : Z) : KM (bool * Z) :=
  match n with
  | O => mret (true, sz)
  | S n =>
      '(r, bs) ← readi ip Dst_local (u32 off) sizeof_proghdr;
      if negb (r =? sizeof_proghdr) then mret (false, sz) else
      '(ok, sz) ← exec_segment pagetable ip sz (ph_of_bytes bs);
      if ok : bool then exec_segments n pagetable ip (i32 (off + sizeof_proghdr)) sz
      else mret (false, sz)
  end.

(** ** The stack *)

(** The string in the page at [pa], without its NUL. *)
Definition str_at (m : mem) (pa : Z) : list Z := cstring (load_bytes m pa (Z.to_nat PGSIZE)).

(** [for(argc = 0; argv[argc]; argc++)]: the stack pointer and the addresses of the
    strings on the stack, or [None] for [goto bad].  [argv] has [MAXARG] entries. *)
Fixpoint exec_args (argv : list Z) (pagetable stackbase sp : Z) (ustack : list Z) : KM (option (Z * list Z)) :=
  match argv with
  | [] => mret (Some (sp, ustack))
  | a :: argv =>
      if a =? 0 then mret (Some (sp, ustack)) else
      if MAXARG <=? Z.of_nat (length ustack) then mret None else
      str ← gets (λ s, str_at (m_mem (k_mach s)) a);
      let len := Z.of_nat (length str) + 1 in
      let sp := u64 (sp - len) in
      let sp := u64 (sp - sp mod 16) in
      if sp <? stackbase then mret None else
      r ← in_mem (copyout pagetable sp (str ++ [0]) len);
      if r <? 0 then mret None else
      exec_args argv pagetable stackbase sp (ustack ++ [sp])
  end.

Fixpoint words (l : list Z) : list Z :=
  match l with [] => [] | v :: l => le_bytes 8 v ++ words l end.

(** The stack after the program has been loaded: the new size, the stack pointer and
    [argc], or the size to be freed. *)
Definition exec_stack (pagetable sz : Z) (argv : list Z) : KM (Z + (Z * Z * Z)) :=
  let sz := PGROUNDUP sz in
  sz1 ← in_mem (uvmalloc pagetable sz (u64 (sz + 2 * PGSIZE)) PTE_W);
  if sz1 =? 0 then mret (inl sz) else
  let sz := sz1 in
  in_mem (uvmclear pagetable (u64 (sz - 2 * PGSIZE)));;
  let stackbase := u64 (sz - PGSIZE) in
  r ← exec_args argv pagetable stackbase sz [];
  match r with
  | None => mret (inl sz)
  | Some (sp, ustack) =>
      let argc := Z.of_nat (length ustack) in
      let sp := u64 (sp - (argc + 1) * 8) in
      let sp := u64 (sp - sp mod 16) in
      if sp <? stackbase then mret (inl sz) else
      r ← in_mem (copyout pagetable sp (words (ustack ++ [0])) ((argc + 1) * 8));
      if r <? 0 then mret (inl sz) else mret (inr (sz, sp, argc))
  end.

(** [for(last=s=path; *s; s++) if( *s == '/') last = s+1;] *)
Fixpoint path_last (last s : list Z) : list Z :=
  match s with
  | [] => last
  | c :: s' => if c =? 0 then last else path_last (if c =? 47 then s' else last) s'
  end.

(** ** exec *)

(** The label [bad]. *)
Definition exec_bad (pagetable sz : Z) (ip : option nat) : KM Z :=
  when (negb (pagetable =? 0)) (in_mem (proc_freepagetable pagetable sz));;
  match ip with
  | Some ip => iunlockput ip;; end_op
  | None => mret tt
  end;;
  mret (-1).

(** From "Commit to the user image" on. *)
Definition exec_commit (p : nat) (path : list Z) (elf : elfhdr) (pagetable oldsz sz sp argc : Z) : KM Z :=
  x ← getproc p;
  updtf (p_trapframe x) (set_reg (R_a 1) sp);;
  updproc p (λ x, x <| p_name ::= λ name, safestrcpy name (path_last path path) 16 |>);;
  let oldpagetable := p_pagetable x in
  updproc p (λ x, x <| p_pagetable := pagetable |> <| p_sz := sz |>);;
  updtf (p_trapframe x) (λ tf, set_reg R_sp sp (tf <| tf_epc := elf_entry elf |>));;
  in_mem (proc_freepagetable oldpagetable oldsz);;
  mret argc.

Definition exec (path argv : list Z) : KM Z :=
  p ← curproc;
  begin_op;;
  i ← namei path;
  match i with
  | None => end_op;; mret (-1)
  | Some ip =>
      ilock ip;;
      '(r, bs) ← readi ip Dst_local 0 sizeof_elfhdr;
      if negb (r =? sizeof_elfhdr) then exec_bad 0 0 (Some ip) else
      let elf := elf_of_bytes bs in
      if negb (elf_magic elf =? ELF_MAGIC) then exec_bad 0 0 (Some ip) else
      x ← getproc p;
      pagetable ← in_mem (proc_pagetable trampoline (p_trapframe x));
      if pagetable =? 0 then exec_bad 0 0 (Some ip) else
      '(ok, sz) ← exec_segments (Z.to_nat (elf_phnum elf)) pagetable ip (i32 (elf_phoff elf)) 0;
      if negb ok then exec_bad pagetable sz (Some ip) else
      iunlockput ip;;
      end_op;;
      p ← curproc;
      x ← getproc p;
      let oldsz := p_sz x in
      r ← exec_stack pagetable sz argv;
      match r with
      | inl sz => exec_bad pagetable sz None
      | inr (sz, sp, argc) => exec_commit p path elf pagetable oldsz sz sp argc
      end
  end.
End Exec.
