(* ===== verification/Sysfile.v ===== *)
(** * File system calls (kernel/sysfile.c) *)

From S2P Require Import Prelude CString Riscv Kalloc Vm Kernel Sched Bytes Bio Log Uart Printf Console Pipe.
From S2P Require Import Fs File Proc Args Exec.

Definition O_RDONLY : Z := 0x000.
Definition O_WRONLY : Z := 0x001.
Definition O_RDWR : Z := 0x002.
Definition O_CREATE : Z := 0x200.
Definition O_TRUNC : Z := 0x400.

(** [omode & flag] as a condition. *)
Definition omode_has (omode flag : Z) : bool := negb (Z.land omode flag =? 0).

Section Sysfile.
Context `{Patience} `{Kills} `{Image} `{Garbage}.

(** The descriptor and the file of the [n]th argument. *)
Definition argfd (n : Z) : KM (option (Z * nat)) :=
  fd ← argint n;
  if (fd <? 0) || (NOFILE <=? fd) then mret None else
  p ← curproc;
  x ← getproc p;
  match p_ofile x !! Z.to_nat fd with
  | Some (Some f) => mret (Some (fd, f))
  | _ => mret None
  end.

(** [for(fd = 0; fd < NOFILE; fd++)] *)
Fixpoint fdalloc_loop (fds : list nat) (p f : nat) : KM Z :=
  match fds with
  | [] => mret (-1)
  | fd :: fds =>
      x ← getproc p;
      match p_ofile x !! fd with
      | Some None =>
          updproc p (λ x, x <| p_ofile ::= <[fd := Some f]> |>);;
          mret (Z.of_nat fd)
      | _ => fdalloc_loop fds p f
      end
  end.

Definition fdalloc (f : nat) : KM Z :=
  p ← curproc;
  fdalloc_loop (seq 0 (Z.to_nat NOFILE)) p f.

Definition sys_dup : KM Z :=
  a ← argfd 0;
  match a with
  | None => mret (-1)
  | Some (_, f) =>
      fd ← fdalloc f;
      if fd <? 0 then mret (-1) else
      filedup f;;
      mret fd
  end.

Definition sys_read : KM Z :=
  p ← argaddr 1;
  n ← argint 2;
  a ← argfd 0;
  match a with None => mret (-1) | Some (_, f) => fileread f p n end.

Definition sys_write : KM Z :=
  p ← argaddr 1;
  n ← argint 2;
  a ← argfd 0;
  match a with None => mret (-1) | Some (_, f) => filewrite f p n end.

Definition sys_close : KM Z :=
  a ← argfd 0;
  match a with
  | None => mret (-1)
  | Some (fd, f) =>
      p ← curproc;
      updproc p (λ x, x <| p_ofile ::= <[Z.to_nat fd := None]> |>);;
      fileclose f;;
      mret 0
  end.

Definition sys_fstat : KM Z :=
  st ← argaddr 1;
  a ← argfd 0;
  match a with None => mret (-1) | Some (_, f) => filestat f st end.

(** ** Links *)

(** The label [bad] of [sys_link]. *)
Definition link_bad (ip : nat) : KM Z :=
  ilock ip;;
  updinode ip (λ x, x <| i_nlink ::= λ n, i16 (n - 1) |>);;
  iupdate ip;;
  iunlockput ip;;
  end_op;;
  mret (-1).

Definition sys_link : KM Z :=
  '(r, old) ← argstr 0 MAXPATH;
  if r <? 0 then mret (-1) else
  '(r, new) ← argstr 1 MAXPATH;
  if r <? 0 then mret (-1) else
  begin_op;;
  i ← namei old;
  match i with
  | None => end_op;; mret (-1)
  | Some ip =>
      ilock ip;;
      x ← getinode ip;
      if i_type x =? T_DIR then iunlockput ip;; end_op;; mret (-1) else
      updinode ip (λ x, x <| i_nlink ::= λ n, i16 (n + 1) |>);;
      iupdate ip;;
      iunlock ip;;
      '(d, name) ← nameiparent new;
      match d with
      | None => link_bad ip
      | Some dp =>
          ilock dp;;
          y ← getinode dp;
          x ← getinode ip;
          if negb (i_dev y =? i_dev x) then iunlockput dp;; link_bad ip else
          r ← dirlink dp name (i_inum x);
          if r <? 0 then iunlockput dp;; link_bad ip else
          iunlockput dp;;
          iput ip;;
          end_op;;
          mret 0
      end
  end.

(** [for(off=2*sizeof(de); off<dp->size; off+=sizeof(de))] *)
Fixpoint isdirempty_loop (fuel : nat) (dp : nat) (off : Z) : KM bool :=
  x ← getinode dp;
  if off <? i_size x then
    match fuel with
    | O => nofuel
    | S fuel =>
        '(r, de) ← readi dp Dst_local off sizeof_dirent;
        if negb (r =? sizeof_dirent) then panic "isdirempty: readi" else
        if negb (de_inum de =? 0) then mret false else
        isdirempty_loop fuel dp (off + sizeof_dirent)
    end
  else mret true.

Definition isdirempty (dp : nat) : KM bool :=
  x ← getinode dp;
  isdirempty_loop (Z.to_nat (i_size x / sizeof_dirent + 1)) dp (2 * sizeof_dirent).

(** The label [bad] of [sys_unlink]. *)
Definition unlink_bad (dp : nat) : KM Z :=
  iunlockput dp;;
  end_op;;
  mret (-1).

Definition sys_unlink : KM Z :=
  '(r, path) ← argstr 0 MAXPATH;
  if r <? 0 then mret (-1) else
  begin_op;;
  '(d, name) ← nameiparent path;
  match d with
  | None => end_op;; mret (-1)
  | Some dp =>
      ilock dp;;
      if (namecmp name (cstr ".") =? 0) || (namecmp name (cstr "..") =? 0) then unlink_bad dp else
      i ← dirlookup dp name;
      match i with
      | None => unlink_bad dp
      | Some (ip, off) =>
          ilock ip;;
          x ← getinode ip;
          if i_nlink x <? 1 then panic "unlink: nlink < 1" else
          e ← (if i_type x =? T_DIR then isdirempty ip else mret true);
          if negb e then iunlockput ip;; unlink_bad dp else
          r ← writei dp (Src_local (replicate (Z.to_nat sizeof_dirent) 0)) off sizeof_dirent;
          if negb (r =? sizeof_dirent) then panic "unlink: writei" else
          x ← getinode ip;
          when (i_type x =? T_DIR)
            (updinode dp (λ x, x <| i_nlink ::= λ n, i16 (n - 1) |>);;
             iupdate dp);;
          iunlockput dp;;
          updinode ip (λ x, x <| i_nlink ::= λ n, i16 (n - 1) |>);;
          iupdate ip;;
          iunlockput ip;;
          end_op;;
          mret 0
      end
  end.

(** ** Creating files *)

(** The label [fail] of [create]. *)
Definition create_fail (ip dp : nat) : KM (option nat) :=
  updinode ip (λ x, x <| i_nlink := 0 |>);;
  iupdate ip;;
  iunlockput ip;;
  iunlockput dp;;
  mret None.

Definition create (path : list Z) (type major minor : Z) : KM (option nat) :=
  '(d, name) ← nameiparent path;
  match d with
  | None => mret None
  | Some dp =>
      ilock dp;;
      i ← dirlookup dp name;
      match i with
      | Some (ip, _) =>
          iunlockput dp;;
          ilock ip;;
          x ← getinode ip;
          if (type =? T_FILE) && ((i_type x =? T_FILE) || (i_type x =? T_DEVICE)) then mret (Some ip) else
          iunlockput ip;;
          mret None
      | None =>
          y ← getinode dp;
          i ← ialloc (i_dev y) type;
          match i with
          | None => iunlockput dp;; mret None
          | Some ip =>
              ilock ip;;
              updinode ip (λ x, x <| i_major := i16 major |> <| i_minor := i16 minor |> <| i_nlink := 1 |>);;
              iupdate ip;;
              x ← getinode ip;
              y ← getinode dp;
              bad ←
                (if type =? T_DIR then
                   r ← dirlink ip (cstr ".") (i_inum x);
                   if r <? 0 then mret true else
                   r ← dirlink ip (cstr "..") (i_inum y);
                   mret (r <? 0)
                 else mret false);
              if bad : bool then create_fail ip dp else
              r ← dirlink dp name (i_inum x);
              if r <? 0 then create_fail ip dp else
              when (type =? T_DIR)
                (updinode dp (λ x, x <| i_nlink ::= λ n, i16 (n + 1) |>);;
                 iupdate dp);;
              iunlockput dp;;
              mret (Some ip)
          end
      end
  end.

(** The inode to open, locked; [None] when the transaction has been ended. *)
Definition open_inode (path : list Z) (omode : Z) : KM (option nat) :=
  if omode_has omode O_CREATE then
    i ← create path T_FILE 0 0;
    match i with
    | None => end_op;; mret None
    | Some ip => mret (Some ip)
    end
  else
    i ← namei path;
    match i with
    | None => end_op;; mret None
    | Some ip =>
        ilock ip;;
        x ← getinode ip;
        if (i_type x =? T_DIR) && negb (omode =? O_RDONLY) then iunlockput ip;; end_op;; mret None
        else mret (Some ip)
    end.

Definition sys_open : KM Z :=
  omode ← argint 1;
  '(n, path) ← argstr 0 MAXPATH;
  if n <? 0 then mret (-1) else
  begin_op;;
  i ← open_inode path omode;
  match i with
  | None => mret (-1)
  | Some ip =>
      x ← getinode ip;
      if (i_type x =? T_DEVICE) && ((i_major x <? 0) || (NDEV <=? i_major x)) then
        iunlockput ip;; end_op;; mret (-1)
      else
      f ← filealloc;
      match f with
      | None => iunlockput ip;; end_op;; mret (-1)
      | Some f =>
          fd ← fdalloc f;
          if fd <? 0 then fileclose f;; iunlockput ip;; end_op;; mret (-1) else
          x ← getinode ip;
          (if i_type x =? T_DEVICE then updfile f (λ y, y <| f_type := FD_DEVICE |> <| f_major := i_major x |>)
           else updfile f (λ y, y <| f_type := FD_INODE |> <| f_off := 0 |>));;
          updfile f (λ y, y <| f_ip := ip |> <| f_readable := negb (omode_has omode O_WRONLY) |>
            <| f_writable := omode_has omode O_WRONLY || omode_has omode O_RDWR |>);;
          when (omode_has omode O_TRUNC && (i_type x =? T_FILE)) (itrunc ip);;
          iunlock ip;;
          end_op;;
          mret fd
      end
  end.

Definition sys_mkdir : KM Z :=
  begin_op;;
  '(r, path) ← argstr 0 MAXPATH;
  i ← (if r <? 0 then mret None else create path T_DIR 0 0);
  match i with
  | None => end_op;; mret (-1)
  | Some ip => iunlockput ip;; end_op;; mret 0
  end.

Definition sys_mknod : KM Z :=
  begin_op;;
  major ← argint 1;
  minor ← argint 2;
  '(r, path) ← argstr 0 MAXPATH;
  i ← (if r <? 0 then mret None else create path T_DEVICE (i16 major) (i16 minor));
  match i with
  | None => end_op;; mret (-1)
  | Some ip => iunlockput ip;; end_op;; mret 0
  end.

Definition sys_chdir : KM Z :=
  p ← curproc;
  begin_op;;
  '(r, path) ← argstr 0 MAXPATH;
  i ← (if r <? 0 then mret None else namei path);
  match i with
  | None => end_op;; mret (-1)
  | Some ip =>
      ilock ip;;
      x ← getinode ip;
      if negb (i_type x =? T_DIR) then iunlockput ip;; end_op;; mret (-1) else
      iunlock ip;;
      y ← getproc p;
      cwd ← nonnull (p_cwd y);
      iput cwd;;
      end_op;;
      updproc p (λ x, x <| p_cwd := Some ip |>);;
      mret 0
  end.

(** ** exec *)

(** [for(i = 0; i < NELEM(argv) && argv[i] != 0; i++) kfree(argv[i]);] *)
Fixpoint free_args (argv : list Z) : KM unit :=
  match argv with
  | [] => mret tt
  | a :: argv => if a =? 0 then mret tt else in_mem (kfree a);; free_args argv
  end.

(** [for(i=0;; i++)] of [sys_exec], for the entries [n] that remain: the pages with the
    arguments so far, and whether to go on. *)
Fixpoint exec_fetch (n : nat) (uargv i : Z) (argv : list Z) : KM (bool * list Z) :=
  match n with
  | O => mret (false, argv)
  | S n =>
      '(r, uarg) ← fetchaddr (u64 (uargv + 8 * i));
      if r <? 0 then mret (false, argv) else
      if uarg =? 0 then mret (true, argv) else
      a ← in_mem kalloc;
      if a =? 0 then mret (false, argv) else
      '(r, str) ← fetchstr uarg PGSIZE;
      in_mem (modify (upd_mem (λ m, store_bytes m a str)));;
      if r <? 0 then mret (false, argv ++ [a]) else
      exec_fetch n uargv (i + 1) (argv ++ [a])
  end.

Definition sys_exec : KM Z :=
  uargv ← argaddr 1;
  '(r, path) ← argstr 0 MAXPATH;
  if r <? 0 then mret (-1) else
  '(ok, argv) ← exec_fetch (Z.to_nat MAXARG) uargv 0 [];
  if ok : bool then
    ret ← exec path (argv ++ [0]);
    free_args argv;;
    mret ret
  else
    free_args argv;;
    mret (-1).

(** ** pipe *)

Definition sys_pipe : KM Z :=
  p ← curproc;
  fdarray ← argaddr 0;
  r ← pipealloc;
  match r with
  | None => mret (-1)
  | Some (rf, wf) =>
      fd0 ← fdalloc rf;
      if fd0 <? 0 then fileclose rf;; fileclose wf;; mret (-1) else
      fd1 ← fdalloc wf;
      if fd1 <? 0 then
        updproc p (λ x, x <| p_ofile ::= <[Z.to_nat fd0 := None]> |>);;
        fileclose rf;; fileclose wf;; mret (-1)
      else
      x ← getproc p;
      r ← in_mem (copyout (p_pagetable x) fdarray (le_bytes 4 fd0) 4);
      r ← (if r <? 0 then mret r
           else in_mem (copyout (p_pagetable x) (u64 (fdarray + 4)) (le_bytes 4 fd1) 4));
      if r <? 0 then
        updproc p (λ x, x <| p_ofile ::= <[Z.to_nat fd0 := None]> |>);;
        updproc p (λ x, x <| p_ofile ::= <[Z.to_nat fd1 := None]> |>);;
        fileclose rf;; fileclose wf;; mret (-1)
      else mret 0
  end.
End Sysfile.
