(* ===== verification/Virtio.v ===== *)
(** * The disk driver (kernel/virtio_disk.c, kernel/virtio.h)

    The driver and its queue.  The device is outside of the kernel: what it answers
    when a register is read is a parameter, and what it does with a request is
    described by a relation in VirtioSpec.v. *)

From S2P Require Import Prelude CString Riscv Kalloc Vm Kernel Sched Sleeplock Bytes Bio.

Definition VIRTIO_MMIO_MAGIC_VALUE : Z := 0x000.
Definition VIRTIO_MMIO_VERSION : Z := 0x004.
Definition VIRTIO_MMIO_DEVICE_ID : Z := 0x008.
Definition VIRTIO_MMIO_VENDOR_ID : Z := 0x00c.
Definition VIRTIO_MMIO_DEVICE_FEATURES : Z := 0x010.
Definition VIRTIO_MMIO_DRIVER_FEATURES : Z := 0x020.
Definition VIRTIO_MMIO_QUEUE_SEL : Z := 0x030.
Definition VIRTIO_MMIO_QUEUE_NUM_MAX : Z := 0x034.
Definition VIRTIO_MMIO_QUEUE_NUM : Z := 0x038.
Definition VIRTIO_MMIO_QUEUE_READY : Z := 0x044.
Definition VIRTIO_MMIO_QUEUE_NOTIFY : Z := 0x050.
Definition VIRTIO_MMIO_INTERRUPT_STATUS : Z := 0x060.
Definition VIRTIO_MMIO_INTERRUPT_ACK : Z := 0x064.
Definition VIRTIO_MMIO_STATUS : Z := 0x070.
Definition VIRTIO_MMIO_QUEUE_DESC_LOW : Z := 0x080.
Definition VIRTIO_MMIO_QUEUE_DESC_HIGH : Z := 0x084.
Definition VIRTIO_MMIO_DRIVER_DESC_LOW : Z := 0x090.
Definition VIRTIO_MMIO_DRIVER_DESC_HIGH : Z := 0x094.
Definition VIRTIO_MMIO_DEVICE_DESC_LOW : Z := 0x0a0.
Definition VIRTIO_MMIO_DEVICE_DESC_HIGH : Z := 0x0a4.
Definition VIRTIO_CONFIG_S_ACKNOWLEDGE : Z := 1.
Definition VIRTIO_CONFIG_S_DRIVER : Z := 2.
Definition VIRTIO_CONFIG_S_DRIVER_OK : Z := 4.
Definition VIRTIO_CONFIG_S_FEATURES_OK : Z := 8.
Definition VIRTIO_BLK_F_RO : Z := 5.
Definition VIRTIO_BLK_F_SCSI : Z := 7.
Definition VIRTIO_BLK_F_CONFIG_WCE : Z := 11.
Definition VIRTIO_BLK_F_MQ : Z := 12.
Definition VIRTIO_F_ANY_LAYOUT : Z := 27.
Definition VIRTIO_RING_F_INDIRECT_DESC : Z := 28.
Definition VIRTIO_RING_F_EVENT_IDX : Z := 29.
Definition NUM : Z := 8.
Definition VRING_DESC_F_NEXT : Z := 1.
Definition VRING_DESC_F_WRITE : Z := 2.
Definition VIRTIO_BLK_T_IN : Z := 0.
Definition VIRTIO_BLK_T_OUT : Z := 1.

(** The answer of the device to a read of a register, which may depend on what has been
    stored in its registers. *)
Class Virtio_device := mmio_read : gmap Z Z → Z → Z.

Definition upddisk (f : vdisk → vdisk) : KM unit := modify (λ s, s <| k_vdisk ::= f |>).

(** [*R(r)] and [*R(r) = v] *)
Definition rR `{Virtio_device} (r : Z) : KM Z := gets (λ s, mmio_read (vd_regs (k_vdisk s)) r).
Definition wR (r v : Z) : KM unit := upddisk (λ d, d <| vd_regs ::= <[r := u32 v]> |>).

(** ** Initialisation *)

Definition zero_desc : virtq_desc := Desc Dma_null 0 0 0.

(** [features &= ~(1 << f)] *)
Definition mask_out (features f : Z) : Z := Z.land features (u64 (Z.lnot (Z.shiftl 1 f))).

Definition virtio_features (features : Z) : Z :=
  foldl mask_out features [VIRTIO_BLK_F_RO; VIRTIO_BLK_F_SCSI; VIRTIO_BLK_F_CONFIG_WCE; VIRTIO_BLK_F_MQ;
    VIRTIO_F_ANY_LAYOUT; VIRTIO_RING_F_EVENT_IDX; VIRTIO_RING_F_INDIRECT_DESC].

Definition virtio_disk_init `{Virtio_device} : KM unit :=
  initlock L_vdisk;;
  magic ← rR VIRTIO_MMIO_MAGIC_VALUE;
  version ← rR VIRTIO_MMIO_VERSION;
  id ← rR VIRTIO_MMIO_DEVICE_ID;
  vendor ← rR VIRTIO_MMIO_VENDOR_ID;
  if negb (magic =? 0x74726976) || negb (version =? 2) || negb (id =? 2) || negb (vendor =? 0x554d4551)
  then panic "could not find virtio disk" else
  wR VIRTIO_MMIO_STATUS 0;;
  let status := Z.lor 0 VIRTIO_CONFIG_S_ACKNOWLEDGE in
  wR VIRTIO_MMIO_STATUS status;;
  let status := Z.lor status VIRTIO_CONFIG_S_DRIVER in
  wR VIRTIO_MMIO_STATUS status;;
  features ← rR VIRTIO_MMIO_DEVICE_FEATURES;
  wR VIRTIO_MMIO_DRIVER_FEATURES (virtio_features features);;
  let status := Z.lor status VIRTIO_CONFIG_S_FEATURES_OK in
  wR VIRTIO_MMIO_STATUS status;;
  status ← rR VIRTIO_MMIO_STATUS;
  if Z.land status VIRTIO_CONFIG_S_FEATURES_OK =? 0 then panic "virtio disk FEATURES_OK unset" else
  wR VIRTIO_MMIO_QUEUE_SEL 0;;
  ready ← rR VIRTIO_MMIO_QUEUE_READY;
  if negb (ready =? 0) then panic "virtio disk should not be ready" else
  max ← rR VIRTIO_MMIO_QUEUE_NUM_MAX;
  if max =? 0 then panic "virtio disk has no queue 0" else
  if max <? NUM then panic "virtio disk max queue too short" else
  desc ← in_mem kalloc;
  avail ← in_mem kalloc;
  used ← in_mem kalloc;
  if (desc =? 0) || (avail =? 0) || (used =? 0) then panic "virtio disk kalloc" else
  in_mem (kmemset desc 0 PGSIZE);;
  in_mem (kmemset avail 0 PGSIZE);;
  in_mem (kmemset used 0 PGSIZE);;
  upddisk (λ d, d <| vd_desc := replicate (Z.to_nat NUM) zero_desc |>
    <| vd_avail_idx := 0 |> <| vd_avail_ring := replicate (Z.to_nat NUM) 0 |>
    <| vd_used_idx_dev := 0 |> <| vd_used_ring := replicate (Z.to_nat NUM) 0 |>);;
  wR VIRTIO_MMIO_QUEUE_NUM NUM;;
  wR VIRTIO_MMIO_QUEUE_DESC_LOW desc;;
  wR VIRTIO_MMIO_QUEUE_DESC_HIGH (Z.shiftr desc 32);;
  wR VIRTIO_MMIO_DRIVER_DESC_LOW avail;;
  wR VIRTIO_MMIO_DRIVER_DESC_HIGH (Z.shiftr avail 32);;
  wR VIRTIO_MMIO_DEVICE_DESC_LOW used;;
  wR VIRTIO_MMIO_DEVICE_DESC_HIGH (Z.shiftr used 32);;
  wR VIRTIO_MMIO_QUEUE_READY 0x1;;
  upddisk (λ d, d <| vd_free := replicate (Z.to_nat NUM) true |>);;
  wR VIRTIO_MMIO_STATUS (Z.lor status VIRTIO_CONFIG_S_DRIVER_OK).

(** ** Descriptors *)

(** [for(int i = 0; i < NUM; i++)] of [alloc_desc] *)
Fixpoint find_desc (free : list bool) (i : nat) : option nat :=
  match free with
  | [] => None
  | f :: free => if f : bool then Some i else find_desc free (S i)
  end.

Definition alloc_desc : KM (option nat) :=
  d ← gets k_vdisk;
  match find_desc (vd_free d) 0 with
  | Some i => upddisk (λ d, d <| vd_free ::= <[i := false]> |>);; mret (Some i)
  | None => mret None
  end.

Definition free_desc (i : nat) : KM unit :=
  if NUM <=? Z.of_nat i then panic "free_desc 1" else
  d ← gets k_vdisk;
  if default false (vd_free d !! i) then panic "free_desc 2" else
  upddisk (λ d, d <| vd_desc ::= <[i := zero_desc]> |> <| vd_free ::= <[i := true]> |>);;
  wakeup Ch_desc.

(** [while(1)]: a descriptor that is met twice is free already, and [free_desc] panics; so
    more than [NUM] rounds are not possible. *)
Fixpoint free_chain_loop (fuel : nat) (i : nat) : KM unit :=
  match fuel with
  | O => nofuel
  | S fuel =>
      x ← gets (λ s, default zero_desc (vd_desc (k_vdisk s) !! i));
      free_desc i;;
      if negb (Z.land (vq_flags x) VRING_DESC_F_NEXT =? 0) then free_chain_loop fuel (Z.to_nat (vq_next x))
      else mret tt
  end.

Definition free_chain (i : nat) : KM unit := free_chain_loop (S (Z.to_nat NUM)) i.

(** [for(int j = 0; j < i; j++) free_desc(idx[j]);] *)
Fixpoint free_descs (idx : list nat) : KM unit :=
  match idx with
  | [] => mret tt
  | i :: idx => free_desc i;; free_descs idx
  end.

(** The three rounds of [alloc3_desc]; [idx] are the descriptors so far. *)
Fixpoint alloc3_loop (n : nat) (idx : list nat) : KM (option (list nat)) :=
  match n with
  | O => mret (Some idx)
  | S n =>
      i ← alloc_desc;
      match i with
      | None => free_descs idx;; mret None
      | Some i => alloc3_loop n (idx ++ [i])
      end
  end.

Definition alloc3_desc : KM (option (list nat)) := alloc3_loop 3 [].

(** ** Requests *)

(** [while(1)] until there are three descriptors. *)
Fixpoint rw_alloc (w : nat) : KM (list nat) :=
  idx ← alloc3_desc;
  match idx with
  | Some idx => mret idx
  | None =>
      match w with
      | O => nofuel
      | S w => sleep Ch_desc L_vdisk;; rw_alloc w
      end
  end.

(** The descriptors and the header of a request for buffer [b]. *)
Definition rw_format (b : nat) (sector : Z) (write : bool) (i0 i1 i2 : nat) (d : vdisk) : vdisk :=
  d <| vd_ops ::= <[i0 := Blkreq (if write then VIRTIO_BLK_T_OUT else VIRTIO_BLK_T_IN) 0 sector]> |>
    <| vd_desc ::= <[i0 := Desc (Dma_op i0) 16 VRING_DESC_F_NEXT (Z.of_nat i1)]> |>
    <| vd_desc ::= <[i1 := Desc (Dma_data b) BSIZE
         (Z.lor (if write then 0 else VRING_DESC_F_WRITE) VRING_DESC_F_NEXT) (Z.of_nat i2)]> |>
    <| vd_info_status ::= <[i0 := 0xff]> |>
    <| vd_desc ::= <[i2 := Desc (Dma_status i0) 1 VRING_DESC_F_WRITE 0]> |>.

(** [while(b->disk == 1)] *)
Fixpoint rw_wait (w : nat) (b : nat) : KM unit :=
  x ← getbuf b;
  if b_disk x then
    match w with
    | O => nofuel
    | S w => sleep (Ch_disk b) L_vdisk;; rw_wait w b
    end
  else mret tt.

Definition virtio_disk_rw `{Patience} (b : nat) (write : bool) : KM unit :=
  x ← getbuf b;
  let sector := u32 (b_blockno x * (BSIZE / 512)) in
  acquire L_vdisk;;
  idx ← rw_alloc patience;
  match idx with
  | [i0; i1; i2] =>
      upddisk (rw_format b sector write i0 i1 i2);;
      updbuf b (λ x, x <| b_disk := true |>);;
      upddisk (λ d, d <| vd_info_b ::= <[i0 := Some b]> |>
        <| vd_avail_ring ::= <[Z.to_nat (vd_avail_idx d mod NUM) := Z.of_nat i0]> |>
        <| vd_avail_idx ::= λ n, u16 (n + 1) |>);;
      wR VIRTIO_MMIO_QUEUE_NOTIFY 0;;
      rw_wait patience b;;
      upddisk (λ d, d <| vd_info_b ::= <[i0 := None]> |>);;
      free_chain i0;;
      release L_vdisk
  | _ => nofuel
  end.

(** ** Completion *)

(** The acknowledgement of the interrupt. *)
Definition intr_enter `{Virtio_device} : KM unit :=
  acquire L_vdisk;;
  st ← rR VIRTIO_MMIO_INTERRUPT_STATUS;
  wR VIRTIO_MMIO_INTERRUPT_ACK (Z.land st 0x3).

(** The body of [while(disk.used_idx != disk.used->idx)]. *)
Definition intr_round : KM unit :=
  d ← gets k_vdisk;
  let id := Z.to_nat (nthZ (vd_used_ring d) (vd_used_idx d mod NUM)) in
  if negb (nthZ (vd_info_status d) (Z.of_nat id) =? 0) then panic "virtio_disk_intr status" else
  match default None (vd_info_b d !! id) with
  | None => panic "kerneltrap"
  | Some b =>
      updbuf b (λ x, x <| b_disk := false |>);;
      wakeup (Ch_disk b);;
      upddisk (λ d, d <| vd_used_idx ::= λ n, u16 (n + 1) |>)
  end.

(** The loop, for as many rounds as there are entries when it begins: what it does if the
    device adds none meanwhile.  VirtioSystem.v lets the device go on between any two
    rounds. *)
Fixpoint intr_loop (fuel : nat) : KM unit :=
  d ← gets k_vdisk;
  if vd_used_idx d =? vd_used_idx_dev d then mret tt else
  match fuel with
  | O => nofuel
  | S fuel => intr_round;; intr_loop fuel
  end.

Definition virtio_disk_intr `{Virtio_device} : KM unit :=
  intr_enter;;
  d ← gets k_vdisk;
  intr_loop (Z.to_nat (u16 (vd_used_idx_dev d - vd_used_idx d)));;
  release L_vdisk.
