(* ===== verification/VirtioSpec.v ===== *)
(** * The disk and its driver (kernel/virtio_disk.c)

    The device as the virtio specification describes it, the protocol that driver and
    device follow, and the preservation of that protocol by every operation of either
    side.  A request is known by the first descriptor of its chain; [G] maps it to what
    it asks for and to how far it has come. *)

From S2P Require Import Prelude CString Riscv Kalloc Vm Kernel Sched Sleeplock Bytes Bio BioList BioSpec Log LogSpec RingBuf Virtio.

(** ** The device

    It fetches the requests in the order of the available ring and completes those it
    has fetched in any order: it follows the chain of descriptors, transfers the data,
    stores the status and appends the head of the chain to the used ring. *)

Definition dev_fetch (d : vdisk) : option vdisk :=
  if vd_seen d =? vd_avail_idx d then None
  else Some (d <| vd_pending ::= λ l, l ++ [Z.to_nat (nthZ (vd_avail_ring d) (vd_seen d mod NUM))] |>
               <| vd_seen ::= λ n, u16 (n + 1) |>).

Definition has_flag (x : virtq_desc) (f : Z) : bool := negb (Z.land (vq_flags x) f =? 0).

(** A well-formed chain: the header, which the device reads; the data of one block, which
    it writes for a read request and reads for a write request; and the status. *)
Definition dev_parse (d : vdisk) (head : nat) : option (virtio_blk_req * nat * nat) :=
  x0 ← vd_desc d !! head;
  x1 ← vd_desc d !! Z.to_nat (vq_next x0);
  x2 ← vd_desc d !! Z.to_nat (vq_next x1);
  match vq_addr x0, vq_addr x1, vq_addr x2 with
  | Dma_op o, Dma_data b, Dma_status st =>
      rq ← vd_ops d !! o;
      if (vq_len x0 =? 16) && has_flag x0 VRING_DESC_F_NEXT && negb (has_flag x0 VRING_DESC_F_WRITE) &&
         (vq_len x1 =? BSIZE) && has_flag x1 VRING_DESC_F_NEXT &&
         Bool.eqb (has_flag x1 VRING_DESC_F_WRITE) (rq_type rq =? VIRTIO_BLK_T_IN) &&
         (vq_len x2 =? 1) && negb (has_flag x2 VRING_DESC_F_NEXT) && has_flag x2 VRING_DESC_F_WRITE &&
         ((rq_type rq =? VIRTIO_BLK_T_IN) || (rq_type rq =? VIRTIO_BLK_T_OUT)) && (rq_sector rq mod 2 =? 0)
      then Some (rq, b, st) else None
  | _, _, _ => None
  end.

Definition dev_transfer (rq : virtio_blk_req) (b : nat) (s : kernel) : kernel :=
  if rq_type rq =? VIRTIO_BLK_T_OUT
  then s <| k_disk ::= d_write (rq_sector rq / 2) (b_data (buf_at b s)) |>
  else s <| k_bcache ::= alter (λ x, x <| b_data := d_read (k_disk s) (rq_sector rq / 2) |>) b |>.

Definition dev_post (head st : nat) (d : vdisk) : vdisk :=
  d <| vd_info_status ::= <[st := 0]> |>
    <| vd_used_ring ::= <[Z.to_nat (vd_used_idx_dev d mod NUM) := Z.of_nat head]> |>
    <| vd_used_idx_dev ::= λ n, u16 (n + 1) |>
    <| vd_pending ::= filter (λ i, i ≠ head) |>.

Definition dev_complete (head : nat) (s : kernel) : option kernel :=
  '(rq, b, st) ← dev_parse (k_vdisk s) head;
  Some ((dev_transfer rq b s) <| k_vdisk ::= dev_post head st |>).

Inductive dev_step (s : kernel) : kernel → Prop :=
  | Dev_fetch d : dev_fetch (k_vdisk s) = Some d → dev_step s (s <| k_vdisk := d |>)
  | Dev_complete head s' : head ∈ vd_pending (k_vdisk s) → dev_complete head s = Some s' → dev_step s s'.

(** ** The protocol *)

Inductive phase : Type :=
  | Avail      (* in the available ring *)
  | Fetched    (* the device works on it *)
  | Used       (* in the used ring *)
  | Done.      (* seen by [virtio_disk_intr] *)
#[global] Instance phase_eq_dec : EqDecision phase.
Proof. solve_decision. Defined.

(** A request of a process for block [r_blk] and buffer [r_buf]; [r_data] is what the block
    holds at the end. *)
Record req : Type := Req {
  r_buf : nat; r_i1 : nat; r_i2 : nat; r_write : bool; r_blk : Z; r_data : list Z; r_phase : phase;
}.
#[export] Instance eta_req : Eta req := λ r,
  Req (r_buf r) (r_i1 r) (r_i2 r) (r_write r) (r_blk r) (r_data r) (r_phase r).

Abbreviation reqs := (gmap nat req).

Definition chain (i0 : nat) (r : req) : list nat := [i0; r_i1 r; r_i2 r].

Record chain_ok (d : vdisk) (i0 : nat) (r : req) : Prop := {
  ch_nodup : NoDup (chain i0 r);
  ch_bound : Forall (λ i, (i < 8)%nat) (chain i0 r);
  ch_0 : vd_desc d !! i0 = Some (Desc (Dma_op i0) 16 VRING_DESC_F_NEXT (Z.of_nat (r_i1 r)));
  ch_1 : vd_desc d !! r_i1 r = Some (Desc (Dma_data (r_buf r)) BSIZE
    (Z.lor (if r_write r then 0 else VRING_DESC_F_WRITE) VRING_DESC_F_NEXT) (Z.of_nat (r_i2 r)));
  ch_2 : vd_desc d !! r_i2 r = Some (Desc (Dma_status i0) 1 VRING_DESC_F_WRITE 0);
  ch_op : vd_ops d !! i0 = Some (Blkreq (if r_write r then VIRTIO_BLK_T_OUT else VIRTIO_BLK_T_IN) 0 (r_blk r * 2));
  ch_b : vd_info_b d !! i0 = Some (Some (r_buf r));
  ch_st : r_phase r = Used → vd_info_status d !! i0 = Some 0;
}.

(** The data on both sides: the block is transferred when the device completes the
    request; the buffer belongs to the disk until the driver has seen it. *)
Record data_ok (bs : list buf) (dk : disk_t) (r : req) : Prop := {
  dt_buf : ∃ x, bs !! r_buf r = Some x ∧ b_blockno x = r_blk r ∧
    b_disk x = bool_decide (r_phase r ≠ Done) ∧
    (r_write r = true ∨ r_phase r = Used ∨ r_phase r = Done → b_data x = r_data r);
  dt_disk : r_write r = false ∨ r_phase r = Used ∨ r_phase r = Done → d_read dk (r_blk r) = r_data r;
}.

Definition in_phase (G : reqs) (ph : phase) (Q : list nat) : Prop :=
  NoDup Q ∧ ∀ i, i ∈ Q ↔ r_phase <$> G !! i = Some ph.

(** Two requests share neither a descriptor nor a buffer nor a block. *)
Definition apart (i : nat) (r : req) (j : nat) (q : req) : Prop :=
  chain i r ## chain j q ∧ r_buf r ≠ r_buf q ∧ r_blk r ≠ r_blk q.

Record vinv (X : list nat) (G : reqs) (s : kernel) (d := k_vdisk s) : Prop := {
  vi_len : length (vd_desc d) = 8%nat ∧ length (vd_avail_ring d) = 8%nat ∧ length (vd_used_ring d) = 8%nat ∧
    length (vd_free d) = 8%nat ∧ length (vd_info_b d) = 8%nat ∧ length (vd_info_status d) = 8%nat ∧
    length (vd_ops d) = 8%nat;
  vi_idx : 0 ≤ vd_seen d < 2 ^ 16 ∧ 0 ≤ vd_avail_idx d < 2 ^ 16 ∧ 0 ≤ vd_used_idx d < 2 ^ 16 ∧
    0 ≤ vd_used_idx_dev d < 2 ^ 16;
  vi_chain : ∀ i r, G !! i = Some r → chain_ok d i r;
  vi_data : ∀ i r, G !! i = Some r → data_ok (k_bcache s) (k_disk s) r;
  vi_apart : ∀ i r j q, G !! i = Some r → G !! j = Some q → i ≠ j → apart i r j q;
  vi_own : NoDup X ∧ ∀ i, i ∈ X → (i < 8)%nat ∧ map_Forall (λ j q, i ∉ chain j q) G;
  vi_free : ∀ i, (i < 8)%nat → vd_free d !! i = Some (bool_decide ((i ∉ X) ∧ map_Forall (λ j q, i ∉ chain j q) G));
  vi_avail : ∃ Q, in_phase G Avail Q ∧ rb 8 (2 ^ 16) (vd_seen d) (vd_avail_idx d) (vd_avail_ring d) = Z.of_nat <$> Q;
  vi_fetched : in_phase G Fetched (vd_pending d);
  vi_used : ∃ Q, in_phase G Used Q ∧ rb 8 (2 ^ 16) (vd_used_idx d) (vd_used_idx_dev d) (vd_used_ring d) = Z.of_nat <$> Q;
}.

(** ** Moving a request to another phase *)

Definition at_phase (i : nat) (ph : phase) (G : reqs) : reqs := alter (λ r, r <| r_phase := ph |>) i G.

Lemma at_phase_inv i ph G j q :
  at_phase i ph G !! j = Some q →
  ∃ r, G !! j = Some r ∧ q = if decide (i = j) then r <| r_phase := ph |> else r.
Proof.
  unfold at_phase. rewrite lookup_alter. case_decide as E.
  - subst j. intros (r & Hr & ->)%fmap_Some. eauto.
  - eauto.
Qed.

Lemma at_phase_chain i ph G (P : nat → list nat → Prop) :
  map_Forall (λ j q, P j (chain j q)) (at_phase i ph G) ↔ map_Forall (λ j q, P j (chain j q)) G.
Proof.
  split; intros H j q Hj.
  - destruct (decide (i = j)) as [<-|Hne].
    + specialize (H i (q <| r_phase := ph |>)). apply H. unfold at_phase. by rewrite lookup_alter_eq, Hj.
    + apply H. unfold at_phase. by rewrite lookup_alter_ne.
  - apply at_phase_inv in Hj as (r & Hr & ->). specialize (H j r Hr). by case_decide.
Qed.

Lemma free_at_phase i ph G k :
  map_Forall (λ j q, k ∉ chain j q) (at_phase i ph G) ↔ map_Forall (λ j q, k ∉ chain j q) G.
Proof. apply (at_phase_chain i ph G (λ _ l, k ∉ l)). Qed.

Lemma own_at_phase i ph (X : list nat) G :
  (NoDup X ∧ ∀ k, k ∈ X → (k < 8)%nat ∧ map_Forall (λ j q, k ∉ chain j q) G) →
  NoDup X ∧ ∀ k, k ∈ X → (k < 8)%nat ∧ map_Forall (λ j q, k ∉ chain j q) (at_phase i ph G).
Proof. intros [HN H]. split; [done|]. intros k Hk. rewrite free_at_phase. by apply H. Qed.

Lemma at_phase_apart i ph G :
  (∀ i r j q, G !! i = Some r → G !! j = Some q → i ≠ j → apart i r j q) →
  ∀ k r j q, at_phase i ph G !! k = Some r → at_phase i ph G !! j = Some q → k ≠ j → apart k r j q.
Proof.
  intros H k r j q (r' & Hr & ->)%at_phase_inv (q' & Hq & ->)%at_phase_inv Hne.
  specialize (H k r' j q' Hr Hq Hne). by repeat case_decide.
Qed.

Lemma phase_at i ph G j : r_phase <$> at_phase i ph G !! j =
  if decide (i = j) then (λ _, ph) <$> G !! j else r_phase <$> G !! j.
Proof.
  unfold at_phase. rewrite lookup_alter. case_decide; [|done]. subst j. by destruct (G !! i).
Qed.

Lemma in_phase_enter G i ph Q r :
  in_phase G ph Q → G !! i = Some r → r_phase r ≠ ph → in_phase (at_phase i ph G) ph (Q ++ [i]).
Proof.
  intros [HN HQ] Hr Hne. split.
  - apply NoDup_app. split_and!; [done| |apply NoDup_singleton].
    intros j Hj ->%list_elem_of_singleton. apply HQ in Hj. rewrite Hr in Hj. naive_solver.
  - intros j. rewrite elem_of_app, list_elem_of_singleton, HQ, phase_at. case_decide as E.
    + subst j. rewrite Hr. simpl. naive_solver.
    + naive_solver.
Qed.

Lemma in_phase_leave G i ph ph' Q :
  in_phase G ph Q → ph ≠ ph' → in_phase (at_phase i ph' G) ph (filter (λ j, j ≠ i) Q).
Proof.
  intros [HN HQ] Hne. split; [by apply NoDup_filter|].
  intros j. rewrite list_elem_of_filter, HQ, phase_at. case_decide as E; [|naive_solver].
  subst j. destruct (G !! i); simpl; naive_solver.
Qed.

Lemma filter_ne_id (i : nat) (Q : list nat) : i ∉ Q → filter (λ j, j ≠ i) Q = Q.
Proof. intros H. apply filter_all, Forall_forall. set_solver. Qed.

Lemma in_phase_other G i ph ph' Q r :
  in_phase G ph Q → G !! i = Some r → r_phase r ≠ ph → ph ≠ ph' → in_phase (at_phase i ph' G) ph Q.
Proof.
  intros H Hr Hne Hne'. assert (i ∉ Q) as Hi. { intros Hi. apply H in Hi. rewrite Hr in Hi. naive_solver. }
  rewrite <- (filter_ne_id i Q Hi). by apply in_phase_leave.
Qed.

Lemma in_phase_pop G i ph ph' Q :
  in_phase G ph (i :: Q) → ph ≠ ph' → in_phase (at_phase i ph' G) ph Q.
Proof.
  intros H Hne. pose proof (in_phase_leave G i ph ph' _ H Hne) as H'.
  destruct H as [[Hi _]%NoDup_cons _]. rewrite filter_cons_False in H' by naive_solver.
  by rewrite filter_ne_id in H'.
Qed.

(** ** The steps of the device *)

Lemma chain_ok_ext d d' i r :
  (∀ k, k ∈ chain i r → vd_desc d' !! k = vd_desc d !! k) → vd_ops d' !! i = vd_ops d !! i →
  vd_info_b d' !! i = vd_info_b d !! i → (r_phase r = Used → vd_info_status d' !! i = vd_info_status d !! i) →
  chain_ok d i r → chain_ok d' i r.
Proof.
  intros Hd Ho Hb Hst [? ? ? ? ? ? ? Hu]. split; try done.
  - by rewrite Hd by set_solver.
  - by rewrite Hd by set_solver.
  - by rewrite Hd by set_solver.
  - by rewrite Ho.
  - by rewrite Hb.
  - intros E. rewrite Hst by done. by apply Hu.
Qed.

Lemma chain_ok_phase d i r ph : chain_ok d i r → ph ≠ Used → chain_ok d i (r <| r_phase := ph |>).
Proof. intros [? ? ? ? ? ? ? ?] Hp. by split. Qed.

Lemma vinv_lt X G s i r : vinv X G s → G !! i = Some r → (i < 8)%nat.
Proof.
  intros V Hr. pose proof (ch_bound _ _ _ (vi_chain _ _ _ V i r Hr)) as Hb.
  by inversion Hb.
Qed.

(** A request that is not in a queue leaves room in it. *)
Lemma queue_fresh X G s ph Q i :
  vinv X G s → in_phase G ph Q → i ∉ Q → (i < 8)%nat → (length Q < 8)%nat.
Proof.
  intros V [HN HQ] Hi Hi8. assert (i :: Q ⊆+ seq 0 8) as Hs.
  { apply NoDup_submseteq; [by apply NoDup_cons|]. intros j [->|Hj]%elem_of_cons; apply elem_of_seq; [lia|].
    apply HQ in Hj. destruct (G !! j) as [q|] eqn:Eq; [|done]. pose proof (vinv_lt _ _ _ _ _ V Eq). lia. }
  apply submseteq_length in Hs. rewrite length_seq in Hs. simpl in Hs. lia.
Qed.

Lemma queue_room X G s ph Q i r :
  vinv X G s → in_phase G ph Q → G !! i = Some r → r_phase r ≠ ph → (length Q < 8)%nat.
Proof.
  intros V HQ Hr Hne. apply (queue_fresh X G s ph Q i); [done|done| |by eapply vinv_lt].
  intros Hi%HQ. rewrite Hr in Hi. naive_solver.
Qed.

Lemma rb_len_queue Q r w buf :
  rb 8 (2 ^ 16) r w buf = Z.of_nat <$> Q → rb_len (2 ^ 16) r w = Z.of_nat (length Q).
Proof. intros E. rewrite <- (length_rb 8 (2 ^ 16) ltac:(lia) r w buf), E. by rewrite length_fmap. Qed.

Lemma div8_16 : (8 | 2 ^ 16). Proof. by exists (2 ^ 13). Qed.

(** Taking the head of a queue. *)
Lemma queue_pop r w buf Q :
  0 ≤ r < 2 ^ 16 → 0 ≤ w < 2 ^ 16 → rb 8 (2 ^ 16) r w buf = Z.of_nat <$> Q → r ≠ w →
  ∃ i Q', Q = i :: Q' ∧ nthZ buf (r mod 8) = Z.of_nat i ∧ rb 8 (2 ^ 16) (u16 (r + 1)) w buf = Z.of_nat <$> Q'.
Proof.
  intros Hr Hw E Hne. pose proof (rb_len_queue _ _ _ _ E) as El.
  assert (rb_len (2 ^ 16) r w ≠ 0) as Hl.
  { intros E0. pose proof (rb_empty (2 ^ 16) r w Hr Hw) as H. rewrite E0 in H.
    apply Z.eqb_eq in H. done. }
  pose proof (rb_len_range 8 (2 ^ 16) ltac:(lia) r w).
  rewrite (rb_pop 8 (2 ^ 16) ltac:(lia) div8_16) in E by lia.
  destruct Q as [|i Q']; [done|]. injection E as E1 E2. by exists i, Q'.
Qed.

Lemma queue_push r w buf Q i :
  length buf = 8%nat → rb 8 (2 ^ 16) r w buf = Z.of_nat <$> Q → (length Q < 8)%nat →
  rb 8 (2 ^ 16) r (u16 (w + 1)) (<[Z.to_nat (w mod 8) := Z.of_nat i]> buf) = Z.of_nat <$> (Q ++ [i]).
Proof.
  intros Hb E Hl. pose proof (rb_len_queue _ _ _ _ E) as El. unfold u16.
  rewrite (rb_push 8 (2 ^ 16) ltac:(lia) div8_16) by lia. by rewrite E, fmap_app.
Qed.

Lemma u16_range x : 0 ≤ u16 x < 2 ^ 16.
Proof. unfold u16. apply Z.mod_pos_bound. lia. Qed.

Lemma data_ok_phase bs dk r ph :
  data_ok bs dk r → (ph = Fetched ∨ ph = Avail) → r_phase r ≠ Done → data_ok bs dk (r <| r_phase := ph |>).
Proof.
  intros [(x & Hx & Hb & Hd & Hw) Hdk] Hp Hn. split.
  - exists x. split_and!; [done|done| |].
    + rewrite Hd. simpl. rewrite !bool_decide_true; [done| |done]. naive_solver.
    + simpl. intros H. apply Hw. naive_solver.
  - simpl. intros H. apply Hdk. naive_solver.
Qed.

Lemma dev_fetch_ok X G s d' :
  vinv X G s → dev_fetch (k_vdisk s) = Some d' →
  ∃ i r, G !! i = Some r ∧ r_phase r = Avail ∧ vinv X (at_phase i Fetched G) (s <| k_vdisk := d' |>).
Proof.
  intros V. unfold dev_fetch. destruct (Z.eqb_spec (vd_seen (k_vdisk s)) (vd_avail_idx (k_vdisk s))) as [|Hne]; [done|].
  intros [= <-]. destruct (vi_avail _ _ _ V) as (Q & HQ & Er). pose proof (vi_idx _ _ _ V) as (I1 & I2 & I3 & I4).
  destruct (queue_pop _ _ _ _ I1 I2 Er Hne) as (i & Q' & -> & Ei & Er').
  destruct (G !! i) as [r|] eqn:Hr; [|by pose proof (proj1 (proj2 HQ i) ltac:(by left)) as H; rewrite Hr in H].
  assert (r_phase r = Avail) as Hp.
  { pose proof (proj1 (proj2 HQ i) ltac:(by left)) as H. rewrite Hr in H. by injection H. }
  exists i, r. split_and!; [done|done|].
  destruct V as [V1 V2 V3 V4 V5 V5x V6 V7 V8 (U & HU & Eu)].
  split; simpl; try done.
  - split; [apply u16_range|]. done.
  - intros j q (q' & Hq & ->)%at_phase_inv. specialize (V3 j q' Hq). apply (chain_ok_ext (k_vdisk s)); [done..|].
    case_decide; [by apply (chain_ok_phase _ _ q')|done].
  - intros j q (q' & Hq & ->)%at_phase_inv. specialize (V4 j q' Hq). case_decide; [|done]. subst j.
    apply data_ok_phase; [done|by left|congruence].
  - by apply at_phase_apart.
  - by apply own_at_phase.
  - intros j Hj. rewrite V6 by done. f_equal. apply bool_decide_ext. by rewrite free_at_phase.
  - exists Q'. split; [|done]. by apply (in_phase_pop G i Avail).
  - change NUM with 8. rewrite Ei, Nat2Z.id. by apply (in_phase_enter _ _ _ _ r); [| |congruence].
  - exists U. split; [|done]. by apply (in_phase_other _ _ _ _ _ r); [| |congruence|].
Qed.

Lemma dev_parse_chain d i r :
  chain_ok d i r → dev_parse d i =
    Some (Blkreq (if r_write r then VIRTIO_BLK_T_OUT else VIRTIO_BLK_T_IN) 0 (r_blk r * 2), r_buf r, i).
Proof.
  intros C. unfold dev_parse. rewrite (ch_0 _ _ _ C). cbn [mbind option_bind vq_next vq_addr]. rewrite Nat2Z.id.
  rewrite (ch_1 _ _ _ C). cbn [mbind option_bind vq_next vq_addr]. rewrite Nat2Z.id.
  rewrite (ch_2 _ _ _ C). cbn [mbind option_bind vq_next vq_addr].
  rewrite (ch_op _ _ _ C). cbn [mbind option_bind rq_sector]. rewrite Z_mod_mult.
  by destruct (r_write r).
Qed.

Lemma pending_inv X G s i : vinv X G s → i ∈ vd_pending (k_vdisk s) → ∃ r, G !! i = Some r ∧ r_phase r = Fetched.
Proof.
  intros V Hi. apply (vi_fetched _ _ _ V) in Hi. destruct (G !! i) as [r|]; [|done]. injection Hi as Hi. eauto.
Qed.

(** The transfer gives both sides the data of the request and leaves those of the others. *)
Lemma dev_transfer_data X G s i r (s' := dev_transfer (Blkreq (if r_write r then VIRTIO_BLK_T_OUT else VIRTIO_BLK_T_IN) 0 (r_blk r * 2)) (r_buf r) s) :
  vinv X G s → G !! i = Some r → r_phase r = Fetched →
  ∀ j q, at_phase i Used G !! j = Some q → data_ok (k_bcache s') (k_disk s') q.
Proof.
  intros V Hr Hp j q (q' & Hq & ->)%at_phase_inv.
  destruct (vi_data _ _ _ V i r Hr) as [(x & Hx & Hb & Hd & Hw) Hdk].
  destruct (vi_data _ _ _ V j q' Hq) as [(y & Hy & Hb' & Hd' & Hw') Hdk'].
  assert (r_blk r * 2 / 2 = r_blk r) as E2 by (apply Z_div_mult; lia).
  subst s'. unfold dev_transfer. cbn [rq_type rq_sector]. rewrite E2. rewrite Hp in *.
  destruct (decide (i = j)) as [E|E].
  - subst j. rewrite Hr in Hq. injection Hq as <-. destruct (r_write r) eqn:Ew; cbn.
    + split; cbn; [exists x; split_and!; [done..|naive_solver]|].
      intros _. rewrite d_read_write, decide_True by done. rewrite (getbuf_lookup _ _ _ Hx). auto.
    + split; cbn; [|auto]. exists (x <| b_data := d_read (k_disk s) (r_blk r) |>).
      rewrite list_lookup_alter_eq, Hx. split_and!; [done..|]. intros _. cbn. auto.
  - destruct (vi_apart _ _ _ V i r j q' Hr Hq E) as (_ & Hne1 & Hne2). destruct (r_write r) eqn:Ew; cbn.
    + split; [by exists y|]. cbn. rewrite d_read_write, decide_False by done. done.
    + split; [|done]. exists y. by rewrite list_lookup_alter_ne.
Qed.

Lemma dev_transfer_vdisk rq b s : k_vdisk (dev_transfer rq b s) = k_vdisk s.
Proof. unfold dev_transfer. by destruct (_ =? _). Qed.

Lemma dev_complete_ok X G s i :
  vinv X G s → i ∈ vd_pending (k_vdisk s) →
  ∃ s', dev_complete i s = Some s' ∧ vinv X (at_phase i Used G) s'.
Proof.
  intros V Hi. destruct (pending_inv _ _ _ _ V Hi) as (r & Hr & Hp).
  pose proof (vi_chain _ _ _ V i r Hr) as C. unfold dev_complete. rewrite (dev_parse_chain _ _ _ C). cbn [mbind option_bind].
  eexists. split; [done|]. pose proof (dev_transfer_data X G s i r V Hr Hp) as Hdt.
  destruct V as [V1 V2 V3 V4 V5 V5x V6 (A & HA & Ea) V8 (U & HU & Eu)] eqn:EV. clear EV.
  assert (length U < 8)%nat as Hroom by (eapply queue_room; [by split; eauto|done|done|congruence]).
  split; simpl; rewrite ?dev_transfer_vdisk; cbn.
  - by rewrite !length_insert.
  - split_and!; try apply V2; apply u16_range.
  - intros j q (q' & Hq & ->)%at_phase_inv. specialize (V3 j q' Hq). case_decide as E.
    + subst j. rewrite Hr in Hq. injection Hq as <-. destruct C. split; try done. intros _. cbn.
      apply list_lookup_insert_eq. pose proof (ch_bound0). inversion ch_bound0. destruct V1 as (_&_&_&_&_&->&_). lia.
    + apply (chain_ok_ext (k_vdisk s)); try done. cbn. intros _. by apply list_lookup_insert_ne.
  - intros j q Hj. specialize (Hdt j q Hj). done.
  - by apply at_phase_apart.
  - by apply own_at_phase.
  - intros j Hj. rewrite V6 by done. f_equal. apply bool_decide_ext. by rewrite free_at_phase.
  - exists A. split; [|done]. by apply (in_phase_other _ _ _ _ _ r); [| |congruence|].
  - by apply in_phase_leave.
  - exists (U ++ [i]). split; [by apply (in_phase_enter _ _ _ _ r); [| |congruence]|].
    apply queue_push; [|done|done]. by destruct V1 as (_&_&?&_).
Qed.
