(* ===== verification/VirtioDriver.v ===== *)
(** * The operations of the disk driver (kernel/virtio_disk.c)

    Allocation and freeing of descriptors, posting a request, the interrupt handler and
    the end of a request, each as a transformation of the protocol state of VirtioSpec.v.
    [X] are the descriptors that the running operation has allocated and not yet linked. *)

From S2P Require Import Prelude CString Riscv Kalloc Vm Kernel Sched Sleeplock Bytes Bio BioList BioSpec Log LogSpec RingBuf Virtio VirtioSpec.

(** ** Wakeups

    Every other process asleep on a channel of [C] is made runnable; a process changes
    only by being woken up. *)
Definition stirred (me : option nat) (C : chan → Prop) (ps ps' : list proc) : Prop :=
  length ps' = length ps ∧
  ∀ i p', ps' !! i = Some p' → ∃ p, ps !! i = Some p ∧
    ((p_state p = SLEEPING ∧ p' = p <| p_state := RUNNABLE |>) ∨
     (p' = p ∧ (p_state p = SLEEPING → Some i ≠ me → ∀ ch, p_chan p = Some ch → ¬ C ch))).

Lemma stirred_refl me ps : stirred me (λ _, False) ps ps.
Proof. split; [done|]. intros i p Hp. exists p. split; [done|]. right. naive_solver. Qed.

Lemma stirred_wake me ch ps : stirred me (eq ch) ps (imap (wake me ch) ps).
Proof.
  split; [apply length_imap|]. intros i p'. rewrite list_lookup_imap. intros (p & Hp & ->)%fmap_Some.
  exists p. split; [done|]. unfold wake. case_decide as E; [left; naive_solver|right].
  split; [done|]. intros Hs Hne ch' Hch <-. apply E. done.
Qed.

Lemma stirred_trans me C1 C2 ps1 ps2 ps3 :
  stirred me C1 ps1 ps2 → stirred me C2 ps2 ps3 → stirred me (λ ch, C1 ch ∨ C2 ch) ps1 ps3.
Proof.
  intros [L1 H1] [L2 H2]. split; [congruence|]. intros i p3 Hp3.
  destruct (H2 i p3 Hp3) as (p2 & Hp2 & C). destruct (H1 i p2 Hp2) as (p1 & Hp1 & D).
  exists p1. split; [done|]. destruct D as [[Hs ->]|[-> Hn]].
  - left. split; [done|]. by destruct C as [[? _]|[-> _]].
  - destruct C as [[Hs ->]|[-> Hn']]; [by left|]. right. split; [done|]. naive_solver.
Qed.

Lemma stirred_weaken me (C C' : chan → Prop) ps ps' :
  (∀ ch, C' ch → C ch) → stirred me C ps ps' → stirred me C' ps ps'.
Proof.
  intros HC [L H]. split; [done|]. intros i p' Hp. destruct (H i p' Hp) as (p & Hp1 & D).
  exists p. split; [done|]. naive_solver.
Qed.

(** ** The context of the driver

    The state of the driver and of the processes changes, the rest does not. *)
Definition vframe (C : chan → Prop) (s s' : kernel) : Prop :=
  s' = s <| k_vdisk := k_vdisk s' |> <| k_procs := k_procs s' |> ∧ stirred (k_cur s) C (k_procs s) (k_procs s').

Lemma vframe_disk f s : vframe (λ _, False) s (s <| k_vdisk ::= f |>).
Proof. split; [by destruct s|]. apply stirred_refl. Qed.

Lemma vframe_fields C s s' :
  vframe C s s' → k_cur s' = k_cur s ∧ k_bcache s' = k_bcache s ∧ k_disk s' = k_disk s ∧ length (k_procs s') = length (k_procs s).
Proof. intros [E [L _]]. split_and!; [by rewrite E..|done]. Qed.

Lemma vframe_trans C1 C2 s1 s2 s3 :
  vframe C1 s1 s2 → vframe C2 s2 s3 → vframe (λ ch, C1 ch ∨ C2 ch) s1 s3.
Proof.
  intros F1 F2. destruct (vframe_fields _ _ _ F1) as (Ec & _). destruct F1 as [E1 S1], F2 as [E2 S2].
  split; [rewrite E2, E1 at 1; by destruct s1|]. rewrite Ec in S2. by eapply stirred_trans.
Qed.

Lemma vframe_weaken (C C' : chan → Prop) s s' : (∀ ch, C' ch → C ch) → vframe C s s' → vframe C' s s'.
Proof. intros HC [E S]. split; [done|]. by eapply stirred_weaken. Qed.

Lemma vinv_ext X G s s' :
  k_vdisk s' = k_vdisk s → k_bcache s' = k_bcache s → k_disk s' = k_disk s → vinv X G s → vinv X G s'.
Proof. intros E1 E2 E3 [? ? ? ? ? ? ? ? ? ?]. split; rewrite ?E1, ?E2, ?E3; done. Qed.

Lemma vinv_perm X X' G s : X ≡ₚ X' → vinv X G s → vinv X' G s.
Proof.
  intros HP [? ? ? ? ? [HN HX] Hf ? ? ?]. split; try done.
  - split; [by rewrite <- HP|]. intros i Hi. apply HX. by rewrite HP.
  - intros i Hi. rewrite Hf by done. f_equal. apply bool_decide_ext. by rewrite HP.
Qed.

Definition vthread (h : list lockid) (s : kernel) : Prop :=
  no_proc_locks (k_cur s) h ∧ length (k_procs s) = Z.to_nat NPROC.

Lemma vthread_frame C h s s' : vframe C s s' → vthread h s → vthread h s'.
Proof.
  intros F [T1 T2]. destruct (vframe_fields _ _ _ F) as (Ec & _ & _ & L).
  split; [by rewrite Ec|congruence].
Qed.

Lemma wakeup_vframe h s ch :
  vthread h s → ∃ s', wakeup ch h s = Ok tt h s' ∧ vframe (eq ch) s s' ∧ k_vdisk s' = k_vdisk s.
Proof.
  intros [T1 T2]. eexists. split; [by apply wakeup_run|]. split; [|done].
  split; [by destruct s|]. apply stirred_wake.
Qed.

(** ** Descriptors *)

Lemma find_desc_spec free : ∀ k,
  match find_desc free k with
  | Some i => ∃ j, i = (k + j)%nat ∧ free !! j = Some true
  | None => ∀ j, free !! j ≠ Some true
  end.
Proof.
  induction free as [|[] free IH]; intros k; cbn [find_desc].
  - by intros j.
  - exists 0%nat. split; [lia|done].
  - specialize (IH (S k)). destruct (find_desc free (S k)).
    + destruct IH as (j & -> & Hj). exists (S j). split; [lia|done].
    + intros [|j]; [done|]. apply IH.
Qed.

(** Every descriptor is in use. *)
Definition all_busy (X : list nat) (G : reqs) : Prop :=
  ∀ i, (i < 8)%nat → i ∈ X ∨ ∃ j q, G !! j = Some q ∧ i ∈ chain j q.

Lemma alloc_desc_ok X G h s :
  vinv X G s →
  (∃ i, alloc_desc h s = Ok (Some i) h (s <| k_vdisk ::= λ d, d <| vd_free ::= <[i := false]> |> |>) ∧
    vinv (i :: X) G (s <| k_vdisk ::= λ d, d <| vd_free ::= <[i := false]> |> |>)) ∨
  (alloc_desc h s = Ok None h s ∧ all_busy X G).
Proof.
  intros V. pose proof (find_desc_spec (vd_free (k_vdisk s)) 0) as Hf. unfold alloc_desc. rewrite bind_gets.
  destruct (vi_len _ _ _ V) as (? & ? & ? & Hl & ?).
  destruct (find_desc (vd_free (k_vdisk s)) 0) as [i|].
  - left. destruct Hf as (j & -> & Hj). rewrite Nat.add_0_l. exists j. split; [done|].
    assert (j < 8)%nat as Hj8 by (apply lookup_lt_Some in Hj; lia).
    rewrite (vi_free _ _ _ V) in Hj by done. injection Hj as Hj. apply bool_decide_eq_true in Hj as [HjX HjG].
    destruct V as [V1 V2 V3 V4 V5 [HN HX] V6 V7 V8 V9]. split; try done; simpl.
    + rewrite length_insert. done.
    + intros i r Hr. apply (chain_ok_ext (k_vdisk s)); [done..|auto].
    + split; [by apply NoDup_cons|]. intros i [->|Hi]%elem_of_cons; auto.
    + intros i Hi. destruct (decide (i = j)) as [->|Hne].
      * rewrite list_lookup_insert_eq by lia. rewrite bool_decide_false by set_solver. done.
      * rewrite list_lookup_insert_ne, V6 by done. f_equal. apply bool_decide_ext. set_solver.
  - right. split; [done|]. intros i Hi. specialize (Hf i). rewrite (vi_free _ _ _ V) in Hf by done.
    case_bool_decide as E; [done|]. destruct (decide (i ∈ X)) as [|HX]; [by left|right].
    assert (¬ map_Forall (λ j q, i ∉ chain j q) G) as HG by naive_solver.
    apply map_not_Forall in HG as (j & q & Hj & Hq); [|apply _]. exists j, q. split; [done|].
    by apply dec_stable.
Qed.

Lemma free_desc_ok X G h s i :
  vinv (i :: X) G s → vthread h s →
  ∃ s', free_desc i h s = Ok tt h s' ∧ vinv X G s' ∧ vframe (eq Ch_desc) s s' ∧
    vd_desc (k_vdisk s') = <[i := zero_desc]> (vd_desc (k_vdisk s)) ∧
    vd_avail_idx (k_vdisk s') = vd_avail_idx (k_vdisk s).
Proof.
  intros V T. destruct (vi_own _ _ _ V) as [HN HX]. destruct (HX i) as [Hi HiG]; [by left|].
  destruct (vi_len _ _ _ V) as (Hl1 & _ & _ & Hl4 & _).
  set (f := λ d : vdisk, d <| vd_desc ::= <[i := zero_desc]> |> <| vd_free ::= <[i := true]> |>).
  destruct (wakeup_vframe h (s <| k_vdisk ::= f |>) Ch_desc) as (s' & E & F & Ed); [done|].
  exists s'. split_and!.
  - unfold free_desc. change NUM with 8. rewrite (proj2 (Z.leb_gt _ _)) by lia. rewrite bind_gets.
    rewrite (vi_free _ _ _ V) by done. rewrite bool_decide_false by set_solver. cbn [default]. exact E.
  - apply (vinv_ext _ _ (s <| k_vdisk ::= f |>)); [done|apply (vframe_fields _ _ _ F)..|].
    destruct V as [V1 V2 V3 V4 V5 _ V6 V7 V8 V9]. apply NoDup_cons in HN as [HiX HN].
    split; try done; simpl.
    + rewrite !length_insert. done.
    + intros j q Hq. apply (chain_ok_ext (k_vdisk s)); [|done..|auto]. intros k Hk. cbn.
      apply list_lookup_insert_ne. intros <-. by apply (HiG j q).
    + split; [done|]. intros j Hj. apply HX. by right.
    + intros j Hj. destruct (decide (j = i)) as [->|Hne].
      * rewrite list_lookup_insert_eq by lia. by rewrite bool_decide_true.
      * rewrite list_lookup_insert_ne, V6 by done. f_equal. apply bool_decide_ext. set_solver.
  - eapply vframe_weaken; [|eapply vframe_trans; [apply (vframe_disk f)|exact F]]. naive_solver.
  - by rewrite Ed.
  - by rewrite Ed.
Qed.

Lemma free_descs_ok idx G h : ∀ s,
  vinv idx G s → vthread h s →
  ∃ s', free_descs idx h s = Ok tt h s' ∧ vinv [] G s' ∧ vframe (λ _, False) s s' ∧
    vd_avail_idx (k_vdisk s') = vd_avail_idx (k_vdisk s).
Proof.
  induction idx as [|i idx IH]; intros s V T; cbn [free_descs].
  - exists s. split_and!; [done|done| |done]. split; [by destruct s|apply stirred_refl].
  - destruct (free_desc_ok idx G h s i V T) as (s1 & E1 & V1 & F1 & _ & A1).
    destruct (IH s1 V1 (vthread_frame _ _ _ _ F1 T)) as (s2 & E2 & V2 & F2 & A2).
    exists s2. split_and!; [by erewrite bind_Ok by exact E1|done| |by rewrite A2].
    eapply vframe_weaken; [|by eapply vframe_trans]. naive_solver.
Qed.

Definition descs (l : list (nat * req)) : list nat := l ≫= λ '(j, q), chain j q.

Lemma descs_length l : length (descs l) = (3 * length l)%nat.
Proof. induction l as [|[j q] l IH]; [done|]. unfold descs in *. rewrite bind_cons, length_app, IH. simpl. lia. Qed.

Lemma elem_of_descs G i : i ∈ descs (map_to_list G) ↔ ∃ j q, G !! j = Some q ∧ i ∈ chain j q.
Proof.
  unfold descs. rewrite list_elem_of_bind. split.
  - intros ([j q] & Hi & Hj%elem_of_map_to_list). eauto.
  - intros (j & q & Hj & Hi). exists (j, q). by rewrite elem_of_map_to_list.
Qed.

Lemma all_busy_size X G : all_busy X G → (8 ≤ length X + 3 * size G)%nat.
Proof.
  intros H. assert (seq 0 8 ⊆+ X ++ descs (map_to_list G)) as Hs.
  { apply NoDup_submseteq; [apply NoDup_seq|]. intros i Hi%elem_of_seq. apply elem_of_app. rewrite elem_of_descs.
    apply H. lia. }
  apply submseteq_length in Hs. rewrite length_seq, length_app, descs_length, length_map_to_list in Hs. lia.
Qed.

(** Three descriptors, or all that were allocated are given back. *)
Lemma alloc3_loop_ok G h n : ∀ idx s,
  vinv idx G s → vthread h s → (length idx + n = 3)%nat →
  ∃ r s', alloc3_loop n idx h s = Ok r h s' ∧ vframe (λ _, False) s s' ∧
    vd_avail_idx (k_vdisk s') = vd_avail_idx (k_vdisk s) ∧
    match r with
    | Some idx' => length idx' = 3%nat ∧ vinv idx' G s' ∧ k_procs s' = k_procs s
    | None => vinv [] G s' ∧ (2 ≤ size G)%nat
    end.
Proof.
  induction n as [|n IH]; intros idx s V T Hl; cbn [alloc3_loop].
  - exists (Some idx), s. split_and!; [done| |done|lia|done|done]. split; [by destruct s|apply stirred_refl].
  - destruct (alloc_desc_ok idx G h s V) as [(i & E & V')|(E & Hb)].
    + erewrite bind_Ok by exact E. set (s1 := s <| k_vdisk ::= _ |>) in *.
      destruct (IH (idx ++ [i]) s1) as (r & s' & E' & F' & Hav & Hr).
      * eapply vinv_perm; [|exact V']. apply Permutation_cons_append.
      * done.
      * rewrite length_app. simpl. lia.
      * exists r, s'. split_and!; [done| |done|done]. eapply vframe_weaken; [|eapply vframe_trans; [apply vframe_disk|exact F']].
        naive_solver.
    + erewrite bind_Ok by exact E. destruct (free_descs_ok idx G h s V T) as (s' & E' & V' & F' & Hav).
      exists None, s'. split_and!; [by erewrite bind_Ok by exact E'|done|done|done|].
      pose proof (all_busy_size _ _ Hb). lia.
Qed.

(** The chain of a finished request is freed. *)
Lemma free_chain_ok i0 i1 i2 G h s (d := k_vdisk s) a0 a1 a2 l0 l1 l2 f0 f1 f2 n2 :
  vinv [i0; i1; i2] G s → vthread h s →
  vd_desc d !! i0 = Some (Desc a0 l0 f0 (Z.of_nat i1)) → Z.land f0 VRING_DESC_F_NEXT ≠ 0 →
  vd_desc d !! i1 = Some (Desc a1 l1 f1 (Z.of_nat i2)) → Z.land f1 VRING_DESC_F_NEXT ≠ 0 →
  vd_desc d !! i2 = Some (Desc a2 l2 f2 n2) → Z.land f2 VRING_DESC_F_NEXT = 0 →
  ∃ s', free_chain i0 h s = Ok tt h s' ∧ vinv [] G s' ∧ vframe (eq Ch_desc) s s'.
Proof.
  intros V T D0 F0 D1 F1 D2 F2. destruct (vi_own _ _ _ V) as [HN _].
  assert (i0 ≠ i1 ∧ i0 ≠ i2 ∧ i1 ≠ i2) as (N1 & N2 & N3).
  { repeat setoid_rewrite NoDup_cons in HN. set_solver. }
  destruct (free_desc_ok _ _ _ _ _ V T) as (s1 & E1 & V1 & Fr1 & De1 & _).
  pose proof (vthread_frame _ _ _ _ Fr1 T) as T1.
  destruct (free_desc_ok _ _ _ _ _ V1 T1) as (s2 & E2 & V2 & Fr2 & De2 & _).
  destruct (free_desc_ok _ _ _ _ _ V2 (vthread_frame _ _ _ _ Fr2 T1)) as (s3 & E3 & V3 & Fr3 & _).
  exists s3. split_and!; [|done|].
  - unfold free_chain. change (S (Z.to_nat NUM)) with (S (S (S 6)))%nat. cbn [free_chain_loop].
    rewrite bind_gets. subst d. rewrite D0. cbn [default from_option id vq_flags vq_next]. erewrite bind_Ok by exact E1.
    rewrite (proj2 (Z.eqb_neq _ _)), Nat2Z.id by done. cbn [negb].
    rewrite bind_gets, De1, list_lookup_insert_ne, D1 by done. cbn [default from_option id vq_flags vq_next]. erewrite bind_Ok by exact E2.
    rewrite (proj2 (Z.eqb_neq _ _)), Nat2Z.id by done. cbn [negb].
    rewrite bind_gets, De2, De1, !list_lookup_insert_ne, D2 by done. cbn [default from_option id vq_flags vq_next].
    erewrite bind_Ok by exact E3. by rewrite F2.
  - eapply vframe_weaken; [|eapply vframe_trans; [exact Fr1|eapply vframe_trans; [exact Fr2|exact Fr3]]].
    intros ch <-. by left.
Qed.

(** ** Posting a request *)

Lemma in_phase_insert G i r ph Q :
  G !! i = None → in_phase G ph Q → in_phase (<[i := r]> G) ph (if decide (r_phase r = ph) then Q ++ [i] else Q).
Proof.
  intros Hi [HN HQ]. assert (i ∉ Q) as HiQ. { intros H%HQ. by rewrite Hi in H. }
  assert (∀ j, j ∈ Q ↔ r_phase <$> <[i := r]> G !! j = Some ph ∧ j ≠ i) as HQ'.
  { intros j. rewrite HQ, lookup_insert. case_decide as E; [subst j; rewrite Hi; naive_solver|naive_solver]. }
  case_decide as E; (split; [|intros j]).
  - apply NoDup_app. split_and!; [done| |apply NoDup_singleton]. intros j Hj ->%list_elem_of_singleton. done.
  - rewrite elem_of_app, list_elem_of_singleton, HQ'. split; [|destruct (decide (j = i)); tauto].
    intros [[? _]| ->]; [done|]. rewrite lookup_insert_eq. simpl. by f_equal.
  - done.
  - rewrite HQ'. split; [tauto|]. intros H. split; [done|]. intros ->. rewrite lookup_insert_eq in H. naive_solver.
Qed.

Lemma own_fresh X G s i : vinv X G s → i ∈ X → G !! i = None.
Proof.
  intros V Hi. destruct (G !! i) as [r|] eqn:E; [|done]. destruct (proj2 (vi_own _ _ _ V) i Hi) as [_ H].
  destruct (H i r E). set_solver.
Qed.

(** No request is under way for the buffer or the block. *)
Definition idle (G : reqs) (b : nat) (blk : Z) : Prop := map_Forall (λ _ q, r_buf q ≠ b ∧ r_blk q ≠ blk) G.

Definition post_disk (b : nat) (blk : Z) (w : bool) (i0 i1 i2 : nat) (d : vdisk) : vdisk :=
  let d := rw_format b (blk * 2) w i0 i1 i2 d in
  d <| vd_info_b ::= <[i0 := Some b]> |>
    <| vd_avail_ring ::= <[Z.to_nat (vd_avail_idx d mod NUM) := Z.of_nat i0]> |>
    <| vd_avail_idx ::= λ n, u16 (n + 1) |>
    <| vd_regs ::= <[VIRTIO_MMIO_QUEUE_NOTIFY := 0]> |>.

Definition posted (b : nat) (blk : Z) (w : bool) (i0 i1 i2 : nat) (s : kernel) : kernel :=
  s <| k_bcache ::= alter (λ x, x <| b_disk := true |>) b |> <| k_vdisk ::= post_disk b blk w i0 i1 i2 |>.

Definition new_req (b : nat) (blk : Z) (w : bool) (i1 i2 : nat) (s : kernel) : req :=
  Req b i1 i2 w blk (if w then b_data (buf_at b s) else d_read (k_disk s) blk) Avail.

Lemma posted_chain b blk w i0 i1 i2 s G (r := new_req b blk w i1 i2 s) :
  vinv [i0; i1; i2] G s →
  ∀ j q, <[i0 := r]> G !! j = Some q → chain_ok (k_vdisk (posted b blk w i0 i1 i2 s)) j q.
Proof.
  intros V j q. destruct (vi_own _ _ _ V) as [HN HX]. destruct (vi_len _ _ _ V) as (L1 & _ & _ & _ & L5 & L6 & L7).
  destruct (HX i0 ltac:(set_solver)) as [B0 F0]. destruct (HX i1 ltac:(set_solver)) as [B1 F1].
  destruct (HX i2 ltac:(set_solver)) as [B2 F2].
  assert (i0 ≠ i1 ∧ i0 ≠ i2 ∧ i1 ≠ i2) as (N1 & N2 & N3).
  { repeat setoid_rewrite NoDup_cons in HN. set_solver. }
  destruct (decide (j = i0)) as [->|Hne].
  - rewrite lookup_insert_eq. intros [= <-]. split; cbn.
    + done.
    + repeat (constructor; [done|]). constructor.
    + rewrite !(list_lookup_insert_ne _ _ i0) by done. apply list_lookup_insert_eq. lia.
    + rewrite !(list_lookup_insert_ne _ _ i1) by done. apply list_lookup_insert_eq. rewrite length_insert. lia.
    + apply list_lookup_insert_eq. rewrite !length_insert. lia.
    + apply list_lookup_insert_eq. lia.
    + apply list_lookup_insert_eq. lia.
    + done.
  - rewrite lookup_insert_ne by done. intros Hq. specialize (F0 j q Hq). specialize (F1 j q Hq). specialize (F2 j q Hq).
    apply (chain_ok_ext (k_vdisk s)); cbn.
    + intros k Hk. rewrite !list_lookup_insert_ne; [done|..]; intros ->; done.
    + by rewrite list_lookup_insert_ne.
    + by rewrite list_lookup_insert_ne.
    + intros _. by rewrite list_lookup_insert_ne.
    + by apply (vi_chain _ _ _ V).
Qed.

Lemma posted_data b blk w i0 i1 i2 s G x (r := new_req b blk w i1 i2 s) :
  vinv [i0; i1; i2] G s → k_bcache s !! b = Some x → b_blockno x = blk → idle G b blk →
  ∀ j q, <[i0 := r]> G !! j = Some q → data_ok (k_bcache (posted b blk w i0 i1 i2 s)) (k_disk s) q.
Proof.
  intros V Hx Hb Hid j q. destruct (decide (j = i0)) as [->|Hne].
  - rewrite lookup_insert_eq. intros [= <-]. split; cbn.
    + exists (x <| b_disk := true |>). rewrite list_lookup_alter_eq, Hx. split_and!; [done..|].
      rewrite (getbuf_lookup _ _ _ Hx). intros [->|[?|?]]; done.
    + intros [->|[?|?]]; done.
  - rewrite lookup_insert_ne by done. intros Hq. destruct (Hid j q Hq) as [Hnb _].
    destruct (vi_data _ _ _ V j q Hq) as [(y & Hy & D) D2]. split; [|done].
    exists y. cbn. by rewrite list_lookup_alter_ne.
Qed.

Lemma posted_free i0 r (G : reqs) k :
  (k ∉ chain i0 r) ∧ map_Forall (λ j q, k ∉ chain j q) G → map_Forall (λ j q, k ∉ chain j q) (<[i0 := r]> G).
Proof. intros [H1 H2]. by apply map_Forall_insert_2. Qed.

Lemma posted_ok b blk w i0 i1 i2 s G x (r := new_req b blk w i1 i2 s) :
  vinv [i0; i1; i2] G s → k_bcache s !! b = Some x → b_blockno x = blk → idle G b blk →
  vinv [] (<[i0 := r]> G) (posted b blk w i0 i1 i2 s).
Proof.
  intros V Hx Hb Hid. pose proof (own_fresh _ _ _ i0 V ltac:(set_solver)) as Hi0.
  destruct (vi_own _ _ _ V) as [HN HX]. destruct (vi_len _ _ _ V) as (L1 & L2 & L3 & L4 & L5 & L6 & L7).
  destruct (vi_avail _ _ _ V) as (Q & HQ & Eq). destruct (vi_used _ _ _ V) as (U & HU & Eu).
  assert (∀ k, k ∈ [i0; i1; i2] → map_Forall (λ j q, k ∉ chain j q) G) as HF by (intros k Hk; by apply HX).
  split.
  - cbn. by rewrite !length_insert.
  - cbn. split_and!; try apply (vi_idx _ _ _ V); apply u16_range.
  - by apply posted_chain.
  - exact (posted_data b blk w i0 i1 i2 s G x V Hx Hb Hid).
  - assert (∀ j q, G !! j = Some q → apart i0 r j q) as Ha.
    { intros j q Hq. destruct (Hid j q Hq) as [H1 H2]. split_and!; [|done..].
      intros k Hk Hk'. by apply (HF k Hk j q). }
    intros j q k p Hq Hp Hne. destruct (decide (j = i0)) as [->|Hj], (decide (k = i0)) as [->|Hk]; [done|..].
    + rewrite lookup_insert_eq in Hq. rewrite lookup_insert_ne in Hp by done. injection Hq as <-. by apply Ha.
    + rewrite lookup_insert_eq in Hp. rewrite lookup_insert_ne in Hq by done. injection Hp as <-.
      destruct (Ha j q Hq) as (A1 & A2 & A3). split_and!; [|congruence..]. intros a H1 H2. by apply (A1 a).
    + rewrite lookup_insert_ne in Hp, Hq by done. by apply (vi_apart _ _ _ V).
  - split; [constructor|]. intros k Hk. by apply not_elem_of_nil in Hk.
  - intros k Hk. cbn. rewrite (vi_free _ _ _ V) by done. f_equal. apply bool_decide_ext. split.
    + intros [H1 H2]. split; [apply not_elem_of_nil|]. by apply posted_free.
    + intros [_ H]. apply map_Forall_insert in H; [|done]. done.
  - exists (Q ++ [i0]). split; [by apply (in_phase_insert G i0 r Avail Q Hi0)|]. cbn.
    apply queue_push; [done|done|]. apply (queue_fresh [i0; i1; i2] G s Avail Q i0); [done|done| |apply HX; left].
    intros H%HQ. by rewrite Hi0 in H.
  - by apply (in_phase_insert G i0 r Fetched _ Hi0), V.
  - exists U. split; [|done]. by apply (in_phase_insert G i0 r Used U Hi0).
Qed.

(** ** The end of a request *)

Lemma in_phase_delete G i ph Q : in_phase G ph Q → r_phase <$> G !! i ≠ Some ph → in_phase (delete i G) ph Q.
Proof.
  intros [HN HQ] Hi. split; [done|]. intros j. rewrite HQ, lookup_delete. case_decide as E; [|done].
  subst j. naive_solver.
Qed.

Definition retire (i : nat) (s : kernel) : kernel := s <| k_vdisk ::= λ d, d <| vd_info_b ::= <[i := None]> |> |>.

Lemma retire_ok G s i r :
  vinv [] G s → G !! i = Some r → r_phase r = Done → vinv (chain i r) (delete i G) (retire i s).
Proof.
  intros V Hr Hp. pose proof (vi_chain _ _ _ V i r Hr) as C.
  assert (∀ j q, delete i G !! j = Some q → G !! j = Some q ∧ i ≠ j) as HD by (intros j q [? ?]%lookup_delete_Some; done).
  assert (∀ ph, ph ≠ Done → r_phase <$> G !! i ≠ Some ph) as Hph. { intros ph Hne. rewrite Hr. simpl. congruence. }
  destruct V as [V1 V2 V3 V4 V5 _ V6 (A & HA & Ea) V8 (U & HU & Eu)]. split; cbn; try done.
  - by rewrite length_insert.
  - intros j q [Hq Hne]%HD. apply (chain_ok_ext (k_vdisk s)); cbn; [done|done| |done|by apply V3].
    by rewrite list_lookup_insert_ne.
  - intros j q [Hq _]%HD. by apply (V4 j).
  - intros j q k p [Hq _]%HD [Hp' _]%HD. by apply V5.
  - split; [apply C|]. intros k Hk. split.
    + pose proof (ch_bound _ _ _ C) as Hb. rewrite Forall_forall in Hb. by apply Hb.
    + intros j q [Hq Hne]%HD Hk'. destruct (V5 i r j q Hr Hq Hne) as [Hd _]. by apply (Hd k).
  - intros k Hk. rewrite V6 by done. f_equal. apply bool_decide_ext. split.
    + intros [_ H]. split; [by apply (H i)|]. intros j q [Hq _]%HD. by apply H.
    + intros [H1 H2]. split; [apply not_elem_of_nil|]. intros j q Hq. destruct (decide (i = j)) as [<-|Hne].
      * rewrite Hr in Hq. by injection Hq as <-.
      * apply H2. by rewrite lookup_delete_ne.
  - exists A. split; [|done]. apply in_phase_delete; [done|by apply Hph].
  - apply in_phase_delete; [done|by apply Hph].
  - exists U. split; [|done]. apply in_phase_delete; [done|by apply Hph].
Qed.

Lemma finish_ok G h s i r :
  vinv [] G s → vthread h s → G !! i = Some r → r_phase r = Done →
  ∃ s', (upddisk (λ d, d <| vd_info_b ::= <[i := None]> |>);; free_chain i) h s = Ok tt h s' ∧
    vinv [] (delete i G) s' ∧ vframe (eq Ch_desc) s s'.
Proof.
  intros V T Hr Hp. pose proof (vi_chain _ _ _ V i r Hr) as C.
  destruct (free_chain_ok i (r_i1 r) (r_i2 r) (delete i G) h (retire i s) _ _ _ _ _ _ _ _ _ _
    (retire_ok _ _ _ _ V Hr Hp) T (ch_0 _ _ _ C) ltac:(done) (ch_1 _ _ _ C) ltac:(by destruct (r_write r)) (ch_2 _ _ _ C)
    ltac:(done)) as (s' & E & V' & F).
  exists s'. split_and!; [exact E|done|]. eapply vframe_weaken; [|eapply vframe_trans; [apply vframe_disk|exact F]].
  naive_solver.
Qed.

(** ** The interrupt handler *)

Lemma rb_none r buf : rb 8 (2 ^ 16) r r buf = [].
Proof. unfold rb, rb_len. by rewrite Z.sub_diag. Qed.

(** Buffers change only in who owns them. *)
Definition same_data (bs bs' : list buf) : Prop :=
  Forall2 (λ x x', x' = x <| b_disk := b_disk x' |>) bs bs'.

Lemma same_data_refl bs : same_data bs bs.
Proof. apply Forall_Forall2_diag, Forall_forall. intros [] _. done. Qed.

Lemma same_data_trans bs1 bs2 bs3 : same_data bs1 bs2 → same_data bs2 bs3 → same_data bs1 bs3.
Proof.
  intros H1. revert bs3. induction H1 as [|x y l k E _ IH]; intros bs3; inversion 1 as [|? z ? ? E']; subst; constructor.
  - by rewrite E', E.
  - by apply IH.
Qed.

Lemma same_data_alter bs b v : same_data bs (alter (λ x, x <| b_disk := v |>) b bs).
Proof.
  apply Forall2_same_length_lookup. split; [by rewrite length_alter|].
  intros i x x' Hx. rewrite list_lookup_alter. case_decide as E; [subst b|]; rewrite Hx; simpl; intros [= <-]; by destruct x.
Qed.

Definition dframe (C : chan → Prop) (s s' : kernel) : Prop :=
  s' = s <| k_vdisk := k_vdisk s' |> <| k_procs := k_procs s' |> <| k_bcache := k_bcache s' |> ∧
  stirred (k_cur s) C (k_procs s) (k_procs s') ∧ same_data (k_bcache s) (k_bcache s').

Lemma dframe_of C s s' : vframe C s s' → dframe C s s'.
Proof.
  intros F. destruct (vframe_fields _ _ _ F) as (_ & Eb & _). destruct F as [E S].
  split_and!; [|done|].
  - rewrite Eb. etransitivity; [exact E|]. by destruct s.
  - rewrite Eb. apply same_data_refl.
Qed.

Lemma dframe_trans C1 C2 s1 s2 s3 :
  dframe C1 s1 s2 → dframe C2 s2 s3 → dframe (λ ch, C1 ch ∨ C2 ch) s1 s3.
Proof.
  intros (E1 & S1 & D1) (E2 & S2 & D2). split_and!.
  - rewrite E2, E1 at 1. by destruct s1.
  - assert (k_cur s2 = k_cur s1) as Ec by (by rewrite E1). rewrite Ec in S2. by eapply stirred_trans.
  - by eapply same_data_trans.
Qed.

Lemma dframe_weaken (C C' : chan → Prop) s s' : (∀ ch, C' ch → C ch) → dframe C s s' → dframe C' s s'.
Proof. intros HC (E & S & D). split_and!; [done| |done]. by eapply stirred_weaken. Qed.

(** The requests in the used ring are done. *)
Definition seen (G : reqs) : reqs := (λ r, if decide (r_phase r = Used) then r <| r_phase := Done |> else r) <$> G.

Lemma seen_at_phase G i r : G !! i = Some r → r_phase r = Used → seen (at_phase i Done G) = seen G.
Proof.
  intros Hr Hp. apply map_eq. intros j. unfold seen, at_phase. rewrite !lookup_fmap.
  destruct (decide (i = j)) as [<-|Hne]; [|by rewrite lookup_alter_ne].
  rewrite lookup_alter_eq, Hr. simpl. by rewrite Hp.
Qed.

Lemma seen_none G : in_phase G Used [] → seen G = G.
Proof.
  intros [_ H]. apply map_eq. intros j. unfold seen. rewrite lookup_fmap. destruct (G !! j) as [r|] eqn:E; [|done]. simpl.
  rewrite decide_False; [done|]. intros Hp. apply (not_elem_of_nil j), H. rewrite E. simpl. by rewrite Hp.
Qed.

Lemma data_ok_done bs dk r :
  data_ok bs dk r → r_phase r = Used →
  data_ok (alter (λ x, x <| b_disk := false |>) (r_buf r) bs) dk (r <| r_phase := Done |>).
Proof.
  intros [(x & Hx & Hb & Hd & Hw) Hdk] Hp. split; cbn; [|naive_solver].
  exists (x <| b_disk := false |>). rewrite list_lookup_alter_eq, Hx. split_and!; [done..|].
  intros _. apply Hw. auto.
Qed.

Definition acked (b : nat) (s : kernel) : kernel := s <| k_bcache ::= alter (λ x, x <| b_disk := false |>) b |>.
Definition advance (s : kernel) : kernel := s <| k_vdisk ::= λ d, d <| vd_used_idx ::= λ n, u16 (n + 1) |> |>.

(** One round of the loop of [virtio_disk_intr]. *)
Lemma acked_ok X G s i r U :
  vinv X G s → in_phase G Used (i :: U) → G !! i = Some r → r_phase r = Used →
  rb 8 (2 ^ 16) (u16 (vd_used_idx (k_vdisk s) + 1)) (vd_used_idx_dev (k_vdisk s)) (vd_used_ring (k_vdisk s)) = Z.of_nat <$> U →
  vinv X (at_phase i Done G) (advance (acked (r_buf r) s)).
Proof.
  intros V HU Hr Hp Er. destruct V as [V1 V2 V3 V4 V5 V5x V6 (A & HA & Ea) V8 _]. split; cbn; try done.
  - split_and!; try apply V2; apply u16_range.
  - intros j q (q' & Hq & ->)%at_phase_inv. specialize (V3 j q' Hq). apply (chain_ok_ext (k_vdisk s)); [done..|].
    case_decide; [by apply (chain_ok_phase _ _ q')|done].
  - intros j q (q' & Hq & ->)%at_phase_inv. specialize (V4 j q' Hq). destruct (decide (i = j)) as [<-|Hne].
    + rewrite Hr in Hq. injection Hq as <-. by apply data_ok_done.
    + destruct V4 as [(y & Hy & D) D2]. split; [|done]. exists y. split; [|done].
      rewrite list_lookup_alter_ne; [done|]. apply (V5 i r j q' Hr Hq Hne).
  - by apply at_phase_apart.
  - by apply own_at_phase.
  - intros j Hj. rewrite V6 by done. f_equal. apply bool_decide_ext. by rewrite free_at_phase.
  - exists A. split; [|done]. by apply (in_phase_other _ _ _ _ _ r); [| |congruence|].
  - by apply (in_phase_other _ _ _ _ _ r); [| |congruence|].
  - exists U. split; [|done]. by apply (in_phase_pop G i Used).
Qed.

(** The channels of the requests in the used ring. *)
Definition used_chan (G : reqs) (ch : chan) : Prop := ∃ i r, G !! i = Some r ∧ r_phase r = Used ∧ ch = Ch_disk (r_buf r).

Lemma used_chan_pop G i r ch :
  G !! i = Some r → used_chan G ch → eq (Ch_disk (r_buf r)) ch ∨ used_chan (at_phase i Done G) ch.
Proof.
  intros Hr (j & q & Hq & Hp & ->). destruct (decide (j = i)) as [->|Hne].
  - left. congruence.
  - right. exists j, q. split; [|done]. unfold at_phase. by rewrite lookup_alter_ne.
Qed.

Lemma intr_round_ok X G h s :
  vinv X G s → vthread h s → vd_used_idx (k_vdisk s) ≠ vd_used_idx_dev (k_vdisk s) →
  ∃ i r s', intr_round h s = Ok tt h s' ∧ G !! i = Some r ∧ r_phase r = Used ∧
    nthZ (vd_used_ring (k_vdisk s)) (vd_used_idx (k_vdisk s) mod 8) = Z.of_nat i ∧
    vinv X (at_phase i Done G) s' ∧ dframe (eq (Ch_disk (r_buf r))) s s' ∧
    k_vdisk s' = (k_vdisk s) <| vd_used_idx ::= λ n, u16 (n + 1) |>.
Proof.
  intros V T Hne. destruct (vi_used _ _ _ V) as (U & HU & Er). destruct (vi_idx _ _ _ V) as (_ & _ & I1 & I2).
  destruct (queue_pop _ _ _ _ I1 I2 Er Hne) as (i & U' & -> & Ei & Er').
  assert (∃ r, G !! i = Some r ∧ r_phase r = Used) as (r & Hr & Hp).
  { pose proof (proj1 (proj2 HU i) ltac:(by left)) as H. destruct (G !! i) as [r|]; [|done]. injection H as H. eauto. }
  pose proof (vi_chain _ _ _ V i r Hr) as C.
  destruct (wakeup_vframe h (acked (r_buf r) s) (Ch_disk (r_buf r))) as (s1 & E1 & F1 & D1); [done|].
  exists i, r, (advance s1). split_and!; [|done..| | |].
  - unfold intr_round. rewrite bind_gets. cbv zeta. change NUM with 8.
    rewrite Ei, Nat2Z.id. rewrite (nthZ_lookup _ _ 0) by (rewrite Nat2Z.id; by apply C). cbn [Z.eqb negb].
    rewrite (ch_b _ _ _ C). cbn [default from_option id]. rewrite bind_updbuf. by erewrite bind_Ok by exact E1.
  - eapply vinv_ext; [..|by eapply (acked_ok X G s i r U')].
    + cbn. by rewrite D1.
    + apply (vframe_fields _ _ _ F1).
    + apply (vframe_fields _ _ _ F1).
  - eapply dframe_weaken; [|eapply dframe_trans; [|apply dframe_of; eapply vframe_trans; [exact F1|apply vframe_disk]]].
    + intros ch <-. right. by left.
    + split_and!; [by destruct s|apply stirred_refl|apply same_data_alter].
  - unfold advance. cbn. by rewrite D1.
Qed.

Lemma vthread_dframe C h s s' : dframe C s s' → vthread h s → vthread h s'.
Proof. intros (E & [Hl _] & _) [T1 T2]. split; [by rewrite E|by rewrite Hl]. Qed.

Lemma intr_loop_ok X h n : ∀ G s U,
  vinv X G s → vthread h s → in_phase G Used U → (length U ≤ n)%nat →
  rb 8 (2 ^ 16) (vd_used_idx (k_vdisk s)) (vd_used_idx_dev (k_vdisk s)) (vd_used_ring (k_vdisk s)) = Z.of_nat <$> U →
  ∃ s', intr_loop n h s = Ok tt h s' ∧ vinv X (seen G) s' ∧ dframe (used_chan G) s s' ∧
    k_vdisk s' = (k_vdisk s) <| vd_used_idx := vd_used_idx_dev (k_vdisk s) |>.
Proof.
  induction n as [|n IH]; intros G s U V T HU Hn Er;
    (destruct (decide (vd_used_idx (k_vdisk s) = vd_used_idx_dev (k_vdisk s))) as [E|Hne];
     [exists s; assert (U = []) as -> by (rewrite E, rb_none in Er; symmetry in Er; by apply fmap_nil_inv in Er);
      split_and!; [cbn [intr_loop]; by rewrite bind_gets, E, Z.eqb_refl|by rewrite (seen_none _ HU)| |rewrite <- E; by destruct (k_vdisk s)];
      apply dframe_of; split; [by destruct s|]; eapply stirred_weaken; [|apply stirred_refl];
      intros ch (j & q & Hq & Hp & _); apply (not_elem_of_nil j), HU; rewrite Hq; simpl; by rewrite Hp|]).
  - exfalso. destruct U; [|simpl in Hn; lia]. destruct (vi_idx _ _ _ V) as (_ & _ & I1 & I2).
    by destruct (queue_pop _ _ _ _ I1 I2 Er Hne) as (i & U' & [=] & _).
  - destruct (intr_round_ok X G h s V T Hne) as (i & r & s1 & E1 & Hr & Hp & Ei & V1 & F1 & D1).
    destruct (vi_idx _ _ _ V) as (_ & _ & I1 & I2).
    destruct (queue_pop _ _ _ _ I1 I2 Er Hne) as (i' & U' & -> & Ei' & Er'). assert (i' = i) as -> by lia.
    destruct (IH (at_phase i Done G) s1 U') as (s2 & E2 & V2 & F2 & D2);
      [done|by eapply vthread_dframe|by apply (in_phase_pop G i Used)|simpl in Hn; lia|by rewrite D1|].
    rewrite (seen_at_phase _ _ _ Hr Hp) in V2. exists s2. split_and!; [|done| |by rewrite D2, D1].
    + cbn [intr_loop]. rewrite bind_gets. rewrite (proj2 (Z.eqb_neq _ _) Hne). by erewrite bind_Ok by exact E1.
    + eapply dframe_weaken; [|by eapply dframe_trans]. intros ch Hch. by apply used_chan_pop.
Qed.

Lemma intr_enter_ok `{Virtio_device} X G h s :
  vinv X G s → L_vdisk ∉ h →
  ∃ f, intr_enter h s = Ok tt (L_vdisk :: h) (s <| k_vdisk ::= λ d, d <| vd_regs ::= f |> |>) ∧
    vinv X G (s <| k_vdisk ::= λ d, d <| vd_regs ::= f |> |>).
Proof.
  intros V Hh. eexists. split; [unfold intr_enter, rR, wR, upddisk; mstep; done|].
  destruct V as [V1 V2 V3 ? ? ? ? ? ? ?]. split; try done. intros i r Hr. apply (chain_ok_ext (k_vdisk s)); [done..|auto].
Qed.

Lemma virtio_disk_intr_ok `{Virtio_device} X G h s :
  vinv X G s → vthread h s → L_vdisk ∉ h →
  ∃ s', virtio_disk_intr h s = Ok tt h s' ∧ vinv X (seen G) s' ∧ dframe (used_chan G) s s' ∧
    vd_used_idx (k_vdisk s') = vd_used_idx_dev (k_vdisk s).
Proof.
  intros V T Hh. destruct (vi_used _ _ _ V) as (U & HU & Er).
  destruct (intr_enter_ok X G h s V Hh) as (f & E1 & V1). set (s1 := s <| k_vdisk ::= _ |>) in *.
  destruct (intr_loop_ok X (L_vdisk :: h) (Z.to_nat (u16 (vd_used_idx_dev (k_vdisk s) - vd_used_idx (k_vdisk s)))) G s1 U)
    as (s2 & E2 & V2 & F2 & D2); [done| |done| |done|].
  - destruct T as [T1 T2]. split; [|done]. intros i Hi. pose proof (T1 i Hi). set_solver.
  - pose proof (rb_len_queue _ _ _ _ Er) as El. unfold rb_len in El. unfold u16. lia.
  - exists s2. split_and!; [|done| |by rewrite D2].
    + unfold virtio_disk_intr. erewrite bind_Ok by exact E1. rewrite bind_gets.
      erewrite bind_Ok by exact E2. by rewrite release_acquired.
    + eapply dframe_weaken; [|eapply dframe_trans; [apply dframe_of, vframe_disk|exact F2]]. intros ch Hc. by right.
Qed.

(** ** How many descriptors are free *)

Lemma descs_nodup X G s : vinv X G s → NoDup (descs (map_to_list G)).
Proof.
  intros V. assert (∀ l, NoDup l.*1 → (∀ j q, (j, q) ∈ l → G !! j = Some q) → NoDup (descs l)) as H.
  { induction l as [|[j q] l IH]; intros HN Hl; [constructor|]. unfold descs in *. rewrite bind_cons.
    apply NoDup_cons in HN as [Hj HN]. assert (G !! j = Some q) as Hq by (apply Hl; by left).
    apply NoDup_app. split_and!; [apply (vi_chain _ _ _ V j q Hq)| |by apply IH; [done|intros ? ? ?; apply Hl; by right]].
    intros i Hi ([j' q'] & Hi' & Hq')%list_elem_of_bind. assert (G !! j' = Some q') as Hq2 by (apply Hl; by right).
    assert (j ≠ j') as Hne. { intros <-. apply Hj, list_elem_of_fmap. by exists (j, q'). }
    destruct (vi_apart _ _ _ V j q j' q' Hq Hq2 Hne) as [Hd _]. by apply (Hd i). }
  apply H; [apply NoDup_fst_map_to_list|]. intros j q. by rewrite elem_of_map_to_list.
Qed.

Lemma count_true (l : list bool) :
  length l = 8%nat → length (filter (eq true) l) = length (filter (λ i, l !! i = Some true) (seq 0 8)).
Proof. do 8 (destruct l as [|[] l]; [done|..]); destruct l; done. Qed.

Lemma free_few G s :
  vinv [] G s → (2 ≤ size G)%nat → (length (filter (eq true) (vd_free (k_vdisk s))) < 3)%nat.
Proof.
  intros V Hs. rewrite count_true by apply V. set (F := filter _ (seq 0 8)). set (D := descs (map_to_list G)).
  assert (F ++ D ⊆+ seq 0 8) as H.
  { apply NoDup_submseteq.
    - apply NoDup_app. split_and!; [apply NoDup_filter, NoDup_seq| |by eapply descs_nodup].
      intros i [Hi Hs8]%list_elem_of_filter (j & q & Hj & Hq)%elem_of_descs. apply elem_of_seq in Hs8.
      rewrite (vi_free _ _ _ V) in Hi by lia. injection Hi as Hi. apply bool_decide_eq_true in Hi as [_ Hi].
      by apply (Hi j q).
    - intros i [Hi|Hi]%elem_of_app; [by apply list_elem_of_filter in Hi as [_ Hi]|].
      apply elem_of_descs in Hi as (j & q & Hj & Hi). pose proof (ch_bound _ _ _ (vi_chain _ _ _ V j q Hj)) as Hb.
      rewrite Forall_forall in Hb. apply elem_of_seq. specialize (Hb i Hi). lia. }
  apply submseteq_length in H. rewrite length_app, length_seq in H. unfold D in H. rewrite descs_length, length_map_to_list in H. lia.
Qed.
