(* ===== verification/VirtioSystem.v ===== *)
(** * Disk requests of several processes (kernel/virtio_disk.c)

    Processes that are inside of [virtio_disk_rw], the device and the interrupt handler
    take steps in any order.  A process runs from one point where it gives up the CPU to
    the next, with [vdisk_lock] held; the handler holds the lock from its beginning to its
    end, and the device and code outside of the driver go on between any two rounds of its
    loop.  An abstract disk performs each call as one atomic [disk_rw], the contract that
    the buffer cache is verified against; every step of the driver and of the device is a
    step of the abstract disk with the same events, or changes nothing of it. *)

From S2P Require Import Prelude Trace CString Riscv Kalloc Vm Kernel Sched Sleeplock Bytes Bio BioList BioSpec Log LogSpec Sample RingBuf Virtio VirtioSpec VirtioDriver.

(** ** The system *)

(** A process that gave up the CPU in [virtio_disk_rw(b, write)], and its continuation. *)
Record vcall : Type := Vcall { c_buf : nat; c_write : bool; c_k : kernel → outcome kernel unit }.
Record vsys : Type := Vsys { v_s : kernel; v_calls : gmap nat vcall }.

(** [y_hand] is [Some me] while [virtio_disk_intr] runs, on a hart whose process is [me]. *)
Record sys : Type := Sys { y_v : vsys; y_hand : option (option nat) }.

(** The scheduler has switched to process [p]. *)
Definition on_cpu (p : nat) (s : kernel) : kernel :=
  s <| k_cur := Some p |> <| k_procs ::= alter (λ x, x <| p_state := RUNNING |>) p |>.

(** The caller has locked buffer [b]; no other caller has that buffer, or a buffer of
    that block. *)
Definition may_call (V : vsys) (b : nat) : Prop :=
  ∃ x, k_bcache (v_s V) !! b = Some x ∧ 0 ≤ b_blockno x < 2 ^ 31 ∧
    map_Forall (λ _ c, c_buf c ≠ b ∧ b_blockno (buf_at (c_buf c) (v_s V)) ≠ b_blockno x) (v_calls V).

(** Code outside of the driver uses neither its variables nor the disk nor the buffers of
    the calls; of the processes inside of calls it leaves those that sleep as they are, or
    makes them runnable, as [wakeup] and [kill] do. *)
Definition outside (V : vsys) (s' : kernel) : Prop :=
  k_vdisk s' = k_vdisk (v_s V) ∧ k_disk s' = k_disk (v_s V) ∧ length (k_procs s') = length (k_procs (v_s V)) ∧
  map_Forall (λ p c, k_bcache s' !! c_buf c = k_bcache (v_s V) !! c_buf c ∧
    (p_state (proc_at p s') = RUNNABLE ∨ p_state (proc_at p s') = SLEEPING ∧ proc_at p s' = proc_at p (v_s V)))
    (v_calls V).

Section System.
Context {Pat : Patience} {Dev : Virtio_device}.

(** What the clients of the driver see of a state: everything but the driver's own
    variables, the owner of the buffers, and the scheduling of processes. *)
Definition view (s : kernel) : kernel :=
  s <| k_vdisk := zero_vdisk |> <| k_procs := [] |> <| k_cur := None |>
    <| k_bcache ::= fmap (λ x, x <| b_disk := false |>) |>.

(** What they see of a step, with what they see of the state after it. *)
Inductive event : Type :=
  | Called (p b : nat) (w : bool) (v : kernel)
  | Returned (p : nat) (v : kernel)
  | Outside (v : kernel).

Inductive vstep (Y : sys) (V := y_v Y) (s := v_s V) (T := v_calls V) : list event → sys → Prop :=
  | V_call p b w h s' k :
      y_hand Y = None → T !! p = None → (p < Z.to_nat NPROC)%nat → may_call V b →
      virtio_disk_rw b w [] (on_cpu p s) = Block h s' k →
      vstep Y [Called p b w (view s')] (Sys (Vsys s' (<[p := Vcall b w k]> T)) None)
  | V_again p c h s' k :
      y_hand Y = None → T !! p = Some c → p_state (proc_at p s) = RUNNABLE →
      c_k c (on_cpu p s) = Block h s' k →
      vstep Y [] (Sys (Vsys s' (<[p := Vcall (c_buf c) (c_write c) k]> T)) None)
  | V_return p c h s' :
      y_hand Y = None → T !! p = Some c → p_state (proc_at p s) = RUNNABLE →
      c_k c (on_cpu p s) = Ok tt h s' →
      vstep Y [Returned p (view s')] (Sys (Vsys s' (delete p T)) None)
  | V_device s' : dev_step s s' → vstep Y [] (Sys (Vsys s' T) (y_hand Y))
  | V_enter me h s' :
      y_hand Y = None → (∀ p, me = Some p → T !! p = None) →
      intr_enter [] (s <| k_cur := me |>) = Ok tt h s' →
      vstep Y [] (Sys (Vsys s' T) (Some me))
  | V_round me h s' :
      y_hand Y = Some me → vd_used_idx (k_vdisk s) ≠ vd_used_idx_dev (k_vdisk s) →
      intr_round [L_vdisk] (s <| k_cur := me |>) = Ok tt h s' →
      vstep Y [] (Sys (Vsys s' T) (Some me))
  | V_leave me s' :
      y_hand Y = Some me → vd_used_idx (k_vdisk s) = vd_used_idx_dev (k_vdisk s) →
      release L_vdisk [L_vdisk] s = Ok tt [] s' →
      vstep Y [] (Sys (Vsys s' T) None)
  | V_other s' : outside V s' → vstep Y [Outside (view s')] (Sys (Vsys s' T) (y_hand Y)).

(** ** The abstract disk *)

(** A call of [disk_rw], and whether it has taken effect. *)
Record acall : Type := Acall { a_buf : nat; a_write : bool; a_done : bool }.

Inductive astep : kernel * gmap nat acall → list event → kernel * gmap nat acall → Prop :=
  | A_call s T p b w :
      T !! p = None → astep (s, T) [Called p b w s] (s, <[p := Acall b w false]> T)
  | A_commit s T p b w s' :
      T !! p = Some (Acall b w false) → disk_rw b w [] s = Ok tt [] s' →
      astep (s, T) [] (s', <[p := Acall b w true]> T)
  | A_return s T p b w :
      T !! p = Some (Acall b w true) → astep (s, T) [Returned p s] (s, delete p T)
  | A_other s T s' :
      k_disk s' = k_disk s → map_Forall (λ _ c, k_bcache s' !! a_buf c = k_bcache s !! a_buf c) T →
      astep (s, T) [Outside s'] (s', T).

(** ** The code after each point where the CPU is given up *)

Definition rw_finish (i0 : nat) : KM unit :=
  upddisk (λ d, d <| vd_info_b ::= <[i0 := None]> |>);; free_chain i0;; release L_vdisk.

Definition rw_rest (b : nat) (sector : Z) (write : bool) (idx : list nat) : KM unit :=
  match idx with
  | [i0; i1; i2] =>
      upddisk (rw_format b sector write i0 i1 i2);;
      updbuf b (λ x, x <| b_disk := true |>);;
      upddisk (λ d, d <| vd_info_b ::= <[i0 := Some b]> |>
        <| vd_avail_ring ::= <[Z.to_nat (vd_avail_idx d mod NUM) := Z.of_nat i0]> |>
        <| vd_avail_idx ::= λ n, u16 (n + 1) |>);;
      wR VIRTIO_MMIO_QUEUE_NOTIFY 0;;
      rw_wait patience b;;
      rw_finish i0
  | _ => nofuel
  end.

Definition after_alloc (n : nat) (p b : nat) (blk : Z) (w : bool) (s : kernel) : outcome kernel unit :=
  (rw_alloc n ≫= rw_rest b (blk * 2) w) [L_vdisk] (awoken p s).
Definition after_wait (n : nat) (p b i0 : nat) (s : kernel) : outcome kernel unit :=
  (rw_wait n b;; rw_finish i0) [L_vdisk] (awoken p s).

Lemma virtio_disk_rw_unfold b w s x :
  k_bcache s !! b = Some x → 0 ≤ b_blockno x < 2 ^ 31 →
  virtio_disk_rw b w [] s = (rw_alloc patience ≫= rw_rest b (b_blockno x * 2) w) [L_vdisk] s.
Proof.
  intros Hx Hb. unfold virtio_disk_rw. rewrite bind_getbuf, (getbuf_lookup _ _ _ Hx). cbv zeta.
  change (BSIZE / 512) with 2. rewrite u32_small by lia. rewrite bind_acquire by apply not_elem_of_nil. done.
Qed.

(** ** The invariant of the system *)

(** Where the process of a call waits: for descriptors, or for its request [i]; in either
    case it does not sleep once it can go on. *)
Inductive waiting (G : reqs) (s : kernel) (p : nat) (c : vcall) : Prop :=
  | W_desc n x :
      c_k c = after_alloc n p (c_buf c) (b_blockno x) (c_write c) →
      k_bcache s !! c_buf c = Some x → idle G (c_buf c) (b_blockno x) →
      (p_state (proc_at p s) = SLEEPING → p_chan (proc_at p s) = Some Ch_desc ∧ (2 ≤ size G)%nat) →
      waiting G s p c
  | W_disk n i r :
      c_k c = after_wait n p (c_buf c) i → G !! i = Some r → r_buf r = c_buf c → r_write r = c_write c →
      (p_state (proc_at p s) = SLEEPING → p_chan (proc_at p s) = Some (Ch_disk (c_buf c)) ∧ r_phase r ≠ Done) →
      waiting G s p c.

(** The process of a call sleeps, or waits for the CPU. *)
Definition live (p : nat) (s : kernel) : Prop := p_state (proc_at p s) = SLEEPING ∨ p_state (proc_at p s) = RUNNABLE.

Record sysinv (G : reqs) (V : vsys) (s := v_s V) : Prop := {
  sy_inv : vinv [] G s;
  sy_len : length (k_procs s) = Z.to_nat NPROC;
  sy_calls : ∀ p c, v_calls V !! p = Some c → (p < Z.to_nat NPROC)%nat ∧ waiting G s p c;
  sy_live : ∀ p c, v_calls V !! p = Some c → live p s;
  sy_apart : ∀ p c q c', v_calls V !! p = Some c → v_calls V !! q = Some c' → p ≠ q →
    c_buf c ≠ c_buf c' ∧ b_blockno (buf_at (c_buf c) s) ≠ b_blockno (buf_at (c_buf c') s);
  sy_owner : ∀ i r, G !! i = Some r → ∃ p c, v_calls V !! p = Some c ∧ c_buf c = r_buf r;
}.

(** The call has taken effect. *)
Definition committed (G : reqs) (b : nat) : Prop :=
  ∃ i r, G !! i = Some r ∧ r_buf r = b ∧ (r_phase r = Used ∨ r_phase r = Done).

Definition calls_match (G : reqs) (T : gmap nat vcall) (A : gmap nat acall) : Prop :=
  ∀ p, match T !! p, A !! p with
       | Some c, Some a => a_buf a = c_buf c ∧ a_write a = c_write c ∧ (a_done a = true ↔ committed G (c_buf c))
       | None, None => True
       | _, _ => False
       end.

Definition simulates (G : reqs) (V : vsys) (A : gmap nat acall) : Prop := sysinv G V ∧ calls_match G (v_calls V) A.

(** What a step does for the requests: it moves one to its next phase, posts one, or
    removes one that is done. *)
Definition next_phase (ph : phase) : phase :=
  match ph with Avail => Fetched | Fetched => Used | Used | Done => Done end.
Definition moved (G G' : reqs) : Prop :=
  ∃ i r, G !! i = Some r ∧ r_phase r ≠ Done ∧ G' = at_phase i (next_phase (r_phase r)) G.
Definition grown (G G' : reqs) : Prop := ∃ i r, G !! i = None ∧ r_phase r = Avail ∧ G' = <[i := r]> G.
Definition retired (G G' : reqs) : Prop := ∃ i r, G !! i = Some r ∧ r_phase r = Done ∧ G' = delete i G.

(** A process that is asleep after a step was so before, and on another channel. *)
Definition still (C : chan → Prop) (q : nat) (s s' : kernel) : Prop :=
  (live q s → live q s') ∧
  (p_state (proc_at q s') = SLEEPING →
     proc_at q s' = proc_at q s ∧ ∀ ch, p_chan (proc_at q s) = Some ch → ¬ C ch).

Lemma still_same C q s s' : proc_at q s' = proc_at q s → (∀ ch, ¬ C ch) → still C q s s'.
Proof. intros E HC. unfold still, live. rewrite E. naive_solver. Qed.

Lemma still_stirred C q s s' :
  stirred (k_cur s) C (k_procs s) (k_procs s') → k_cur s ≠ Some q → still C q s s'.
Proof.
  intros [Hl Hs] Hq. unfold still, live, proc_at. destruct (k_procs s' !! q) as [p'|] eqn:E; simpl.
  - destruct (Hs q p' E) as (p & -> & [[_ ->]|[-> Hn]]); simpl; [split; [by right|done]|].
    split; [done|]. intros Hsl. split; [done|]. by apply Hn.
  - apply lookup_ge_None in E. rewrite Hl in E. apply lookup_ge_None in E. by rewrite E.
Qed.

Lemma waiting_mono (C : chan → Prop) G s G' s' q c :
  waiting G s q c →
  (∀ i r, G !! i = Some r → r_buf r = c_buf c →
     ∃ ph, G' !! i = Some (r <| r_phase := ph |>) ∧ (ph = Done → r_phase r ≠ Done → C (Ch_disk (c_buf c)))) →
  (∀ x, k_bcache s !! c_buf c = Some x →
     idle G (c_buf c) (b_blockno x) → idle G' (c_buf c) (b_blockno x)) →
  ((size G ≤ size G')%nat ∨ C Ch_desc) →
  (∀ x, k_bcache s !! c_buf c = Some x →
     ∃ x', k_bcache s' !! c_buf c = Some x' ∧ b_blockno x' = b_blockno x) →
  still C q s s' → waiting G' s' q c.
Proof.
  intros Hw HG Hid Hsz Hb [_ Hst]. destruct Hw as [n x Hk Hx Hi Hsl|n i r Hk Hr Hrb Hrw Hsl].
  - destruct (Hb x Hx) as (x' & Hx' & E). apply (W_desc _ _ _ _ n x'); rewrite ?E; try done; [by apply Hid|].
    intros Hs. destruct (Hst Hs) as [Ep HC]. rewrite Ep in Hs |- *. destruct (Hsl Hs) as [Hc H2]. split; [done|].
    destruct Hsz as [?|Hd]; [lia|]. by destruct (HC _ Hc).
  - destruct (HG i r Hr Hrb) as (ph & Hr' & HD). apply (W_disk _ _ _ _ n i (r <| r_phase := ph |>)); try done.
    intros Hs. destruct (Hst Hs) as [Ep HC]. rewrite Ep in Hs |- *. destruct (Hsl Hs) as [Hc H2]. split; [done|].
    intros Hph. destruct (HC _ Hc). by apply HD.
Qed.

(** ** Steps of the device and of the interrupt handler *)

(** Requests change only their phase, buffers keep their blocks. *)
Definition rephased (f : nat → req → phase) (G G' : reqs) : Prop :=
  ∀ i, G' !! i = (λ r, r <| r_phase := f i r |>) <$> G !! i.
Definition same_blocks (s s' : kernel) : Prop :=
  ∀ b x, k_bcache s !! b = Some x → ∃ x', k_bcache s' !! b = Some x' ∧ b_blockno x' = b_blockno x.

Lemma rephased_lookup f G G' i r' :
  rephased f G G' → G' !! i = Some r' → ∃ r, G !! i = Some r ∧ r' = r <| r_phase := f i r |>.
Proof. intros Hf Hi. rewrite Hf in Hi. apply fmap_Some in Hi as (r & Hr & ->). eauto. Qed.

Lemma rephased_size f G G' : rephased f G G' → size G' = size G.
Proof.
  intros Hf. rewrite <- !size_dom. f_equal. apply set_eq. intros i. rewrite !elem_of_dom, Hf. by rewrite fmap_is_Some.
Qed.

Lemma rephased_idle f G G' b blk : rephased f G G' → idle G b blk → idle G' b blk.
Proof. intros Hf Hid i q Hq. destruct (rephased_lookup _ _ _ _ _ Hf Hq) as (r & Hr & ->). by apply (Hid i r). Qed.

(** The buffers of the calls exist. *)
Lemma waiting_buf G s p c : vinv [] G s → waiting G s p c → ∃ x, k_bcache s !! c_buf c = Some x.
Proof.
  intros V [n x _ Hx _ _|n i r _ Hr <- _ _]; [by exists x|].
  destruct (vi_data _ _ _ V i r Hr) as [(x & Hx & _) _]. by exists x.
Qed.

Lemma same_blocks_at s s' b x :
  same_blocks s s' → k_bcache s !! b = Some x → b_blockno (buf_at b s') = b_blockno (buf_at b s).
Proof.
  intros HB Hx. destruct (HB b x Hx) as (x' & Hx' & E). by rewrite (getbuf_lookup _ _ _ Hx), (getbuf_lookup _ _ _ Hx').
Qed.

Lemma sysinv_rephased C f G G' s s' T :
  sysinv G (Vsys s T) → vinv [] G' s' → rephased f G G' → same_blocks s s' →
  length (k_procs s') = length (k_procs s) → (∀ q c, T !! q = Some c → still C q s s') →
  (∀ i r, G !! i = Some r → f i r = Done → r_phase r ≠ Done → C (Ch_disk (r_buf r))) →
  sysinv G' (Vsys s' T).
Proof.
  intros [Hv Hl Hc Hlv Ha Ho] Hv' Hf Hb Hl' Hst Hd. cbn in *. split; cbn; [done|by rewrite Hl'|..].
  - intros p c Hp. destruct (Hc p c Hp) as [Hp8 Hw]. split; [done|].
    apply (waiting_mono C G s); try done.
    + intros i r Hr Hrb. exists (f i r). rewrite Hf, Hr. split; [done|]. intros H1 H2. rewrite <- Hrb. by apply (Hd i r).
    + intros x Hx. by apply (rephased_idle f).
    + left. by rewrite (rephased_size _ _ _ Hf).
    + intros x Hx. by apply Hb.
    + by eapply Hst.
  - intros p c Hp. apply (Hst p c Hp). by eapply Hlv.
  - intros p c q c' Hp Hq Hne. destruct (Ha p c q c' Hp Hq Hne) as [H1 H2]. split; [done|].
    destruct (waiting_buf G s p c Hv (proj2 (Hc p c Hp))) as [x Hx].
    destruct (waiting_buf G s q c' Hv (proj2 (Hc q c' Hq))) as [x' Hx'].
    by rewrite !(same_blocks_at s s' _ _ Hb Hx), !(same_blocks_at s s' _ _ Hb Hx').
  - intros i r' Hr'. destruct (rephased_lookup _ _ _ _ _ Hf Hr') as (r & Hr & ->). by apply (Ho i r).
Qed.

Lemma at_phase_rephased i ph G : rephased (λ j r, if decide (i = j) then ph else r_phase r) G (at_phase i ph G).
Proof.
  intros j. unfold at_phase. rewrite lookup_alter. case_decide as E.
  - subst j. destruct (G !! i); [simpl|done]. done.
  - destruct (G !! j) as [[]|]; done.
Qed.

Lemma seen_rephased G : rephased (λ _ r, if decide (r_phase r = Used) then Done else r_phase r) G (seen G).
Proof. intros j. unfold seen. rewrite lookup_fmap. destruct (G !! j) as [[]|]; simpl; [|done]. by case_decide. Qed.

Lemma same_blocks_data s s' : same_data (k_bcache s) (k_bcache s') → same_blocks s s'.
Proof.
  intros H b x Hx. destruct (Forall2_lookup_l _ _ _ _ _ H Hx) as (x' & Hx' & E). exists x'. split; [done|]. by rewrite E.
Qed.

Lemma dframe_view C s s' : dframe C s s' → view s' = view s.
Proof.
  intros (E & _ & HD). assert ((λ x, x <| b_disk := false |>) <$> k_bcache s' = (λ x, x <| b_disk := false |>) <$> k_bcache s) as Eb.
  { clear E. induction HD as [|x x' l l' Ex _ IH]; [done|]. cbn. f_equal; [|done]. by rewrite Ex. }
  revert E Eb. generalize (k_vdisk s') (k_procs s') (k_bcache s'). intros d ps bs -> Eb.
  pose (v := λ l : list buf, s <| k_vdisk := zero_vdisk |> <| k_procs := [] |> <| k_cur := None |> <| k_bcache := l |>).
  change (v ((λ x : buf, x <| b_disk := false |>) <$> bs) = v ((λ x : buf, x <| b_disk := false |>) <$> k_bcache s)).
  by rewrite Eb.
Qed.

Lemma calls_match_ext G G' T A :
  (∀ p c, T !! p = Some c → committed G' (c_buf c) ↔ committed G (c_buf c)) → calls_match G T A → calls_match G' T A.
Proof.
  intros HG HM p. specialize (HM p). destruct (T !! p) as [c|] eqn:E, (A !! p) as [a|]; try done.
  destruct HM as (? & ? & Ha). split_and!; [done..|]. by rewrite (HG p c E).
Qed.

Lemma rephased_committed f G G' b :
  rephased f G G' → (∀ i r, G !! i = Some r → (f i r = Used ∨ f i r = Done) ↔ (r_phase r = Used ∨ r_phase r = Done)) →
  committed G' b ↔ committed G b.
Proof.
  intros Hf Hp. split.
  - intros (i & r' & Hr' & <- & H). destruct (rephased_lookup _ _ _ _ _ Hf Hr') as (r & Hr & ->).
    exists i, r. split_and!; [done..|]. by apply (Hp i r).
  - intros (i & r & Hr & <- & H). exists i, (r <| r_phase := f i r |>). split_and!; [by rewrite Hf, Hr|done|].
    by apply (Hp i r).
Qed.

Lemma fetch_step G s T A d' :
  simulates G (Vsys s T) A → dev_fetch (k_vdisk s) = Some d' →
  ∃ G', moved G G' ∧ simulates G' (Vsys (s <| k_vdisk := d' |>) T) A.
Proof.
  intros (Hs & HM) Hd. destruct (dev_fetch_ok _ _ _ _ (sy_inv _ _ Hs) Hd) as (i & r & Hr & Hp & V).
  pose proof (at_phase_rephased i Fetched G) as Hf. exists (at_phase i Fetched G).
  split; [exists i, r; by rewrite Hp|]. split.
  - eapply (sysinv_rephased (λ _, False)); [exact Hs|exact V|exact Hf|..]; try done.
    + intros b x Hx. by exists x.
    + intros q c _. apply still_same; [done|]. naive_solver.
    + intros j q Hq. cbn. by case_decide.
  - eapply calls_match_ext; [|exact HM]. intros p c _. eapply rephased_committed; [exact Hf|].
    intros j q Hq. cbn. case_decide as E; [|done]. subst j. rewrite Hr in Hq. injection Hq as <-. rewrite Hp. naive_solver.
Qed.

Lemma enter_step G s T A me h s' :
  simulates G (Vsys s T) A → intr_enter [] (s <| k_cur := me |>) = Ok tt h s' →
  simulates G (Vsys s' T) A ∧ view s' = view s ∧
  vd_used_idx (k_vdisk s') = vd_used_idx (k_vdisk s) ∧ vd_used_idx_dev (k_vdisk s') = vd_used_idx_dev (k_vdisk s).
Proof.
  intros (Hs & HM) E. destruct (intr_enter_ok [] G [] (s <| k_cur := me |>)) as (f & E1 & V1).
  - eapply vinv_ext; [..|apply Hs]; done.
  - apply not_elem_of_nil.
  - rewrite E1 in E. injection E as <- <-. split; [|done]. split; [|done].
    eapply (sysinv_rephased (λ _, False) (λ _ r, r_phase r)); [exact Hs|exact V1|..]; try done.
    + intros i. by destruct (G !! i) as [[]|].
    + intros b x Hx. by exists x.
    + intros q c _. apply still_same; [done|]. naive_solver.
Qed.

Lemma round_step G s T A me h s' :
  simulates G (Vsys s T) A → (∀ p, me = Some p → T !! p = None) →
  vd_used_idx (k_vdisk s) ≠ vd_used_idx_dev (k_vdisk s) →
  intr_round [L_vdisk] (s <| k_cur := me |>) = Ok tt h s' →
  (∃ G', moved G G' ∧ simulates G' (Vsys s' T) A) ∧ view s' = view s.
Proof.
  intros (Hs & HM) Hme Hne E. set (s0 := s <| k_cur := me |>) in *.
  destruct (intr_round_ok [] G [L_vdisk] s0) as (i & r & s1 & E1 & Hr & Hp & _ & V1 & F1 & _); [|..|done|].
  - eapply vinv_ext; [..|apply Hs]; done.
  - split; [intros ? ?; set_solver|apply Hs].
  - rewrite E1 in E. injection E as <- <-. split; [|by rewrite (dframe_view _ _ _ F1)].
    pose proof (at_phase_rephased i Done G) as Hf. destruct F1 as (_ & S1 & D1). exists (at_phase i Done G).
    split; [exists i, r; by rewrite Hp|]. split.
    + eapply (sysinv_rephased (eq (Ch_disk (r_buf r)))); [exact Hs|exact V1|exact Hf|..].
      * by apply (same_blocks_data s).
      * apply S1.
      * intros q c Hq. apply (still_stirred _ q s0 s1 S1). intros [= ->]. by rewrite (Hme q eq_refl) in Hq.
      * intros j q Hq. cbn. case_decide as Ej; [|done]. subst j. rewrite Hr in Hq. by injection Hq as <-.
    + eapply calls_match_ext; [|exact HM]. intros p c _. eapply rephased_committed; [exact Hf|].
      intros j q Hq. cbn. case_decide as Ej; [|done]. subst j. rewrite Hr in Hq. injection Hq as <-. rewrite Hp. naive_solver.
Qed.

(** The request of a call. *)
Lemma waiting_request G V p c i r :
  sysinv G V → v_calls V !! p = Some c → G !! i = Some r → c_buf c = r_buf r →
  c_write c = r_write r ∧ ∃ n, c_k c = after_wait n p (c_buf c) i ∧
    (p_state (proc_at p (v_s V)) = SLEEPING → p_chan (proc_at p (v_s V)) = Some (Ch_disk (c_buf c)) ∧ r_phase r ≠ Done).
Proof.
  intros Hs Hp Hr Eb. destruct (sy_calls _ _ Hs p c Hp) as [_ [n x _ _ Hid _|n j q Hk Hq Hqb Hqw Hsl]].
  - by destruct (Hid i r Hr) as [[] _].
  - destruct (decide (i = j)) as [<-|Hne].
    + rewrite Hr in Hq. injection Hq as <-. split; [done|]. by exists n.
    + destruct (vi_apart _ _ _ (sy_inv _ _ Hs) i r j q Hr Hq Hne) as (_ & Hb & _). congruence.
Qed.

Lemma buf_at_view b s x : k_bcache s !! b = Some x → buf_at b (view s) = x <| b_disk := false |>.
Proof. intros Hx. apply getbuf_lookup. cbn. by rewrite list_lookup_fmap, Hx. Qed.

(** What the device does for a request is the effect of [disk_rw]. *)
Lemma transfer_disk_rw G s i r s' :
  vinv [] G s → G !! i = Some r → dev_complete i s = Some s' →
  disk_rw (r_buf r) (r_write r) [] (view s) = Ok tt [] (view s').
Proof.
  intros V Hr. unfold dev_complete. rewrite (dev_parse_chain _ _ _ (vi_chain _ _ _ V i r Hr)). intros [= <-].
  destruct (vi_data _ _ _ V i r Hr) as [(x & Hx & Hb & _) _].
  unfold disk_rw. rewrite bind_getbuf, (buf_at_view _ _ _ Hx). unfold dev_transfer. cbn [rq_type rq_sector].
  rewrite Z_div_mult by lia. change (b_blockno (x <| b_disk := false |>)) with (b_blockno x). rewrite Hb.
  destruct (r_write r); cbn [Z.eqb].
  - by rewrite (getbuf_lookup _ _ _ Hx).
  - rewrite bind_gets. unfold updbuf, modify. f_equal.
    pose (v := λ l : list buf, s <| k_vdisk := zero_vdisk |> <| k_procs := [] |> <| k_cur := None |> <| k_bcache := l |>).
    pose (f := λ x : buf, x <| b_disk := false |>).
    pose (g := λ x : buf, x <| b_data := d_read (k_disk s) (r_blk r) |>).
    change (v (alter g (r_buf r) (f <$> k_bcache s)) = v (f <$> alter g (r_buf r) (k_bcache s))).
    f_equal. apply list_eq. intros j. rewrite list_lookup_fmap, !list_lookup_alter, list_lookup_fmap.
    case_decide; [subst j|by rewrite list_lookup_fmap]. by destruct (k_bcache s !! r_buf r).
Qed.

Lemma dev_complete_frame G s i r s' :
  vinv [] G s → G !! i = Some r → dev_complete i s = Some s' → same_blocks s s' ∧ k_procs s' = k_procs s.
Proof.
  intros V Hr. unfold dev_complete. rewrite (dev_parse_chain _ _ _ (vi_chain _ _ _ V i r Hr)). intros [= <-].
  unfold dev_transfer. split; [|by destruct (_ =? _)]. intros b x Hx. destruct (_ =? _); cbn; [by exists x|].
  rewrite list_lookup_alter. case_decide; [subst b|]; rewrite Hx; simpl; eexists; done.
Qed.

Lemma committed_complete G i r b :
  G !! i = Some r → b ≠ r_buf r → committed (at_phase i Used G) b ↔ committed G b.
Proof.
  intros Hr Hne. split; intros (j & q & Hq & Hb & Hp).
  - apply at_phase_inv in Hq as (q' & Hq & ->). case_decide as E; [|by exists j, q'].
    subst j. rewrite Hr in Hq. injection Hq as <-. by destruct Hne.
  - exists j, q. split_and!; [|done..]. unfold at_phase. rewrite lookup_alter_ne; [done|]. intros <-. congruence.
Qed.

Lemma complete_step G s T A i s' :
  simulates G (Vsys s T) A → i ∈ vd_pending (k_vdisk s) → dev_complete i s = Some s' →
  ∃ G' A', moved G G' ∧ simulates G' (Vsys s' T) A' ∧ astep (view s, A) [] (view s', A').
Proof.
  intros (Hs & HM) Hi Hd. pose proof (sy_inv _ _ Hs) as V. cbn in V, HM.
  destruct (pending_inv _ _ _ _ V Hi) as (r & Hr & Hp).
  destruct (dev_complete_ok _ _ _ _ V Hi) as (s1 & E1 & V1). rewrite E1 in Hd. injection Hd as ->.
  destruct (dev_complete_frame _ _ _ _ _ V Hr E1) as [HB Ep].
  destruct (sy_owner _ _ Hs i r Hr) as (p & c & Hc & Ec).
  destruct (waiting_request _ _ _ _ _ _ Hs Hc Hr Ec) as (Ew & _).
  pose proof (at_phase_rephased i Used G) as Hf. cbn in Hc.
  pose proof (HM p) as Hm. rewrite Hc in Hm. destruct (A !! p) as [[b w dn]|] eqn:HA; [|done].
  destruct Hm as (Eb & Eww & Hdn). cbn in Eb, Eww, Hdn. subst b w.
  assert (dn = false) as ->.
  { destruct dn; [|done]. destruct (proj1 Hdn eq_refl) as (j & q & Hq & Hqb & Hph).
    destruct (decide (i = j)) as [<-|Hne]; [rewrite Hr in Hq; injection Hq as <-; rewrite Hp in Hph; naive_solver|].
    destruct (vi_apart _ _ _ V i r j q Hr Hq Hne) as (_ & Hb & _). congruence. }
  exists (at_phase i Used G), (<[p := Acall (c_buf c) (c_write c) true]> A).
  split; [exists i, r; by rewrite Hp|]. split.
  - split.
    + eapply (sysinv_rephased (λ _, False)); [exact Hs|exact V1|exact Hf|..].
      * done.
      * by rewrite Ep.
      * intros q c' _. apply still_same; [unfold proc_at; by rewrite Ep|]. naive_solver.
      * intros j q Hq. cbn. case_decide; done.
    + intros q. pose proof (HM q) as Hq. destruct (decide (p = q)) as [<-|Hne]; cbn.
      * rewrite Hc, lookup_insert_eq. split_and!; [done..|]. split; [|done]. intros _.
        exists i, (r <| r_phase := Used |>). unfold at_phase. rewrite lookup_alter_eq, Hr. auto.
      * rewrite lookup_insert_ne by done. destruct (T !! q) as [c'|] eqn:Hc'; [|done].
        destruct (A !! q) as [a|]; [|done]. destruct Hq as (? & ? & Hq). split_and!; [done..|].
        rewrite (committed_complete G i r); [done..|]. rewrite <- Ec.
        apply (sy_apart _ _ Hs q c' p c); done.
  - apply (A_commit _ _ p); [done|]. rewrite Ec, Ew. by eapply transfer_disk_rw.
Qed.

(** ** Steps of the processes *)

Record on_driver (p : nat) (s : kernel) : Prop := {
  od_cur : k_cur s = Some p;
  od_len : length (k_procs s) = Z.to_nat NPROC;
  od_lt : (p < Z.to_nat NPROC)%nat;
}.

Lemma on_driver_thread p s : on_driver p s → vthread [L_vdisk] s.
Proof. intros [Hc Hl Hp]. split; [|done]. intros i _. set_solver. Qed.

Lemma rw_finish_run G s p i r :
  vinv [] G s → on_driver p s → G !! i = Some r → r_phase r = Done →
  ∃ s', rw_finish i [L_vdisk] s = Ok tt [] s' ∧ vinv [] (delete i G) s' ∧ vframe (eq Ch_desc) s s'.
Proof.
  intros V D Hr Hp. destruct (finish_ok G [L_vdisk] s i r V (on_driver_thread _ _ D) Hr Hp) as (s' & E & V' & F).
  exists s'. split_and!; [|done..]. unfold rw_finish. rewrite <- bind_assoc.
  erewrite bind_Ok by exact E. apply release_acquired, not_elem_of_nil.
Qed.

Lemma rw_wait_run n G s p b i r :
  vinv [] G s → on_driver p s → G !! i = Some r → r_buf r = b →
  if decide (r_phase r = Done) then
    ∃ s', (rw_wait n b;; rw_finish i) [L_vdisk] s = Ok tt [] s' ∧ vinv [] (delete i G) s' ∧ vframe (eq Ch_desc) s s'
  else (rw_wait n b;; rw_finish i) [L_vdisk] s =
    match n with
    | O => NoFuel
    | S n => Block [L_proc p] (asleep (Ch_disk b) p s) (after_wait n p b i)
    end.
Proof.
  intros V D Hr <-. destruct (vi_data _ _ _ V i r Hr) as [(x & Hx & _ & Hd & _) _].
  destruct D as [Hc Hl Hp] eqn:ED. clear ED. case_decide as E.
  - rewrite bool_decide_false in Hd by naive_solver. destruct (rw_finish_run G s p i r) as (s' & E' & V' & F'); [done..|].
    exists s'. split_and!; [|done..]. rewrite <- E'.
    destruct n; cbn [rw_wait]; rewrite bind_assoc, bind_getbuf, (getbuf_lookup _ _ _ Hx), Hd; done.
  - rewrite bool_decide_true in Hd by done.
    destruct n; cbn [rw_wait]; rewrite bind_assoc, bind_getbuf, (getbuf_lookup _ _ _ Hx), Hd; [done|].
    rewrite bind_assoc. by rewrite (sleep_bind _ _ _ p) by (done || lia).
Qed.

Lemma posted_run b blk w i0 i1 i2 s G p x (s' := posted b blk w i0 i1 i2 s) :
  vinv [i0; i1; i2] G s → on_driver p s → k_bcache s !! b = Some x → b_blockno x = blk → idle G b blk →
  rw_rest b (blk * 2) w [i0; i1; i2] [L_vdisk] s =
    match patience with
    | O => NoFuel
    | S n => Block [L_proc p] (asleep (Ch_disk b) p s') (after_wait n p b i0)
    end.
Proof.
  intros V D Hx Hb Hid. pose proof (posted_ok b blk w i0 i1 i2 s G x V Hx Hb Hid) as V'.
  pose proof (rw_wait_run patience _ s' p b i0 (new_req b blk w i1 i2 s) V') as Hw. destruct D as [Hc Hl Hp].
  specialize (Hw ltac:(by split) (lookup_insert_eq _ _ _) eq_refl). cbn [r_phase new_req] in Hw.
  rewrite decide_False in Hw by done. rewrite <- Hw.
  unfold rw_rest, wR, upddisk, updbuf. rewrite !bind_modify.
  by apply (f_equal ((rw_wait patience b;; rw_finish i0) [L_vdisk])).
Qed.

(** A call until it first gives up the CPU: with three descriptors it posts its request. *)
Lemma rw_alloc_run n G s p b blk w x :
  vinv [] G s → on_driver p s → k_bcache s !! b = Some x → b_blockno x = blk → idle G b blk →
  ∃ s1, vframe (λ _, False) s s1 ∧ vd_avail_idx (k_vdisk s1) = vd_avail_idx (k_vdisk s) ∧
   ((∃ i0 i1 i2, let s2 := posted b blk w i0 i1 i2 s1 in
      k_procs s1 = k_procs s ∧ G !! i0 = None ∧ vinv [] (<[i0 := new_req b blk w i1 i2 s1]> G) s2 ∧
      (rw_alloc n ≫= rw_rest b (blk * 2) w) [L_vdisk] s =
        match patience with
        | O => NoFuel
        | S m => Block [L_proc p] (asleep (Ch_disk b) p s2) (after_wait m p b i0)
        end) ∨
    (vinv [] G s1 ∧ (2 ≤ size G)%nat ∧
     (rw_alloc n ≫= rw_rest b (blk * 2) w) [L_vdisk] s =
        match n with
        | O => NoFuel
        | S m => Block [L_proc p] (asleep Ch_desc p s1) (after_alloc m p b blk w)
        end)).
Proof.
  intros V D Hx Hb Hid. destruct (alloc3_loop_ok G [L_vdisk] 3 [] s V (on_driver_thread _ _ D)) as (r & s1 & E & F & Hav & Hr); [done|].
  destruct (vframe_fields _ _ _ F) as (Ec & Eb & Ed & El). destruct D as [Hc Hl Hp].
  assert (on_driver p s1) as D1 by (split; congruence || lia). exists s1. split; [done|]. split; [done|].
  destruct r as [idx|].
  - destruct Hr as (Hl3 & V1 & Ep). destruct idx as [|i0 [|i1 [|i2 []]]]; try done. left. exists i0, i1, i2.
    rewrite <- Eb in Hx. split_and!; [done|eapply own_fresh; [done|left]|by eapply posted_ok|].
    rewrite <- (posted_run b blk w i0 i1 i2 s1 G p x) by done.
    destruct n; cbn [rw_alloc]; rewrite bind_assoc; unfold alloc3_desc; by erewrite bind_Ok by exact E.
  - destruct Hr as (V1 & Hsz). right. split_and!; [done..|]. destruct D1 as [Hc1 Hl1 _].
    destruct n; cbn [rw_alloc]; rewrite bind_assoc; unfold alloc3_desc; erewrite bind_Ok by exact E; [done|].
    cbv beta iota. rewrite bind_assoc. by rewrite (sleep_bind _ _ _ p) by (done || lia).
Qed.

(** Process [p] has run; the calls and requests of the others are as they were. *)
Lemma sysinv_step C G G' s s' T T' p :
  sysinv G (Vsys s T) → vinv [] G' s' → length (k_procs s') = length (k_procs s) → (p < Z.to_nat NPROC)%nat →
  same_data (k_bcache s) (k_bcache s') → (∀ q, q ≠ p → still C q s s') → (∀ q, q ≠ p → T' !! q = T !! q) →
  (∀ q c i r, q ≠ p → T !! q = Some c → G !! i = Some r → r_buf r = c_buf c → G' !! i = Some r) →
  (∀ i r, G' !! i = Some r → G !! i = Some r ∨ ∃ c, T' !! p = Some c ∧ r_buf r = c_buf c ∧ r_blk r = b_blockno (buf_at (c_buf c) s)) →
  ((size G ≤ size G')%nat ∨ C Ch_desc) →
  (∀ c, T' !! p = Some c → waiting G' s' p c ∧ live p s' ∧ ∀ q c', q ≠ p → T !! q = Some c' →
     c_buf c ≠ c_buf c' ∧ b_blockno (buf_at (c_buf c) s) ≠ b_blockno (buf_at (c_buf c') s)) →
  (∀ c i r, T !! p = Some c → G !! i = Some r → r_buf r = c_buf c → G' !! i = Some r → ∃ c', T' !! p = Some c' ∧ c_buf c' = c_buf c) →
  sysinv G' (Vsys s' T').
Proof.
  intros [Hv Hl Hc Hlv Ha Ho] Hv' Hl' Hp HD Hst HT HG HG' Hsz Hw Hk. cbn in *.
  assert (∀ b, b_blockno (buf_at b s') = b_blockno (buf_at b s)) as HB.
  { intros b. unfold buf_at. destruct (k_bcache s !! b) as [x|] eqn:Hx.
    - destruct (Forall2_lookup_l _ _ _ _ _ HD Hx) as (x' & -> & E). simpl. by rewrite E.
    - apply lookup_ge_None in Hx. rewrite (Forall2_length _ _ _ HD) in Hx. apply lookup_ge_None in Hx. by rewrite Hx. }
  assert (∀ q c c', q ≠ p → T !! q = Some c → T' !! p = Some c' → c_buf c ≠ c_buf c' ∧
    b_blockno (buf_at (c_buf c) s) ≠ b_blockno (buf_at (c_buf c') s)) as Hap.
  { intros q c c' Hq H1 H2. destruct (Hw c' H2) as (_ & _ & H3). destruct (H3 q c Hq H1). auto. }
  split; cbn; [done|by rewrite Hl'|..].
  - intros q c Hq. destruct (decide (q = p)) as [->|Hne]; [split; [done|by apply Hw]|].
    rewrite HT in Hq by done. destruct (Hc q c Hq) as [Hq8 Hwq]. split; [done|].
    apply (waiting_mono C G s); try done.
    + intros i r Hr Hrb. exists (r_phase r). rewrite (HG q c i r) by done. split; [by destruct r|]. done.
    + intros x Hx Hid i r Hr. destruct (HG' i r Hr) as [?|(c' & Hc' & -> & ->)]; [by apply (Hid i)|].
      destruct (Hap q c c' Hne Hq Hc') as [H1 H2]. split; [auto|]. rewrite (getbuf_lookup _ _ _ Hx) in H2. auto.
    + by apply (same_blocks_data s s' HD).
    + by apply Hst.
  - intros q c Hq. destruct (decide (q = p)) as [->|Hne]; [by apply (Hw c)|].
    rewrite HT in Hq by done. apply (Hst q Hne). by eapply Hlv.
  - intros q c q' c' Hq Hq' Hne. rewrite !HB.
    destruct (decide (q = p)) as [->|H1], (decide (q' = p)) as [->|H2]; [done|..].
    + rewrite HT in Hq' by done. destruct (Hap q' c' c H2 Hq' Hq). auto.
    + rewrite HT in Hq by done. by apply (Hap q).
    + rewrite HT in Hq, Hq' by done. by apply (Ha q c q' c').
  - intros i r Hr. destruct (HG' i r Hr) as [Hr'|(c & Hc' & E & _)]; [|by exists p, c].
    destruct (Ho i r Hr') as (q & c & Hq & E). destruct (decide (q = p)) as [->|Hne].
    + destruct (Hk c i r Hq Hr' ltac:(done) Hr) as (c' & Hc' & E'). exists p, c'. split; [done|congruence].
    + exists q, c. by rewrite HT.
Qed.

(** Process [p] is on the CPU; nothing else has changed. *)
Record entered (p : nat) (s s0 : kernel) : Prop := {
  en_driver : on_driver p s0;
  en_disk : k_vdisk s0 = k_vdisk s ∧ k_bcache s0 = k_bcache s ∧ k_disk s0 = k_disk s;
  en_procs : ∀ q, q ≠ p → proc_at q s0 = proc_at q s;
  en_view : view s0 = view s;
}.

Lemma proc_at_ne p q f s : p ≠ q → proc_at q (s <| k_procs ::= alter f p |>) = proc_at q s.
Proof. intros Hne. unfold proc_at. cbn. by rewrite list_lookup_alter_ne. Qed.

Lemma entered_on_cpu p s :
  length (k_procs s) = Z.to_nat NPROC → (p < Z.to_nat NPROC)%nat → entered p s (on_cpu p s).
Proof.
  intros Hl Hp. split; [split; cbn; [done|by rewrite length_alter|done]|done| |done].
  intros q Hq. unfold on_cpu. by rewrite (proc_at_ne p).
Qed.

Lemma entered_awoken p s s0 : entered p s s0 → entered p s (awoken p s0).
Proof.
  intros [[Hc Hl Hp] Hd Hpr Hv]. split; [split; cbn; [done|by rewrite length_alter|done]|done| |done].
  intros q Hq. unfold awoken. rewrite (proc_at_ne p) by done. by apply Hpr.
Qed.

Lemma entered_inv X G p s s0 : entered p s s0 → vinv X G s → vinv X G s0.
Proof. intros [_ (? & ? & ?) _ _]. by apply vinv_ext. Qed.

Lemma entered_still C p q s s0 s1 :
  entered p s s0 → stirred (k_cur s0) C (k_procs s0) (k_procs s1) → q ≠ p → still C q s s1.
Proof.
  intros E S Hq. pose proof (still_stirred C q s0 s1 S) as Hs. rewrite (od_cur _ _ (en_driver _ _ _ E)) in Hs.
  specialize (Hs ltac:(congruence)). unfold still, live in *. by rewrite (en_procs _ _ _ E) in Hs.
Qed.

Lemma still_asleep C ch p q s s1 : still C q s s1 → q ≠ p → still C q s (asleep ch p s1).
Proof. intros Hs Hq. unfold still, live, asleep in *. by rewrite !(proc_at_ne p). Qed.

Lemma asleep_proc ch p s :
  (p < length (k_procs s))%nat → p_chan (proc_at p (asleep ch p s)) = Some ch.
Proof.
  intros Hp. unfold asleep. rewrite !proc_at_alter, !decide_True; [done..|]. cbn. by rewrite length_alter.
Qed.

Lemma asleep_live ch p s : (p < length (k_procs s))%nat → live p (asleep ch p s).
Proof.
  intros Hp. left. unfold asleep. rewrite !proc_at_alter, !decide_True; [done..|]. cbn. by rewrite length_alter.
Qed.

Lemma entered_len p s s0 : entered p s s0 → length (k_procs s) = Z.to_nat NPROC → length (k_procs s0) = length (k_procs s).
Proof. intros [[_ Hl _] _ _ _] ->. done. Qed.

Lemma committed_insert G i r b : G !! i = None → r_phase r = Avail → committed (<[i := r]> G) b ↔ committed G b.
Proof.
  intros Hi Hp. split; intros (j & q & Hq & Hb & Hph).
  - destruct (decide (j = i)) as [->|Hne]; [|rewrite lookup_insert_ne in Hq by done; by exists j, q].
    rewrite lookup_insert_eq in Hq. injection Hq as <-. rewrite Hp in Hph. naive_solver.
  - exists j, q. rewrite lookup_insert_ne; [done|]. congruence.
Qed.

Lemma idle_not_committed G b blk : idle G b blk → ¬ committed G b.
Proof. intros Hid (i & r & Hr & Hb & _). by destruct (Hid i r Hr). Qed.

(** A call asks for descriptors, for the first time or again. *)
Section Alloc.
Context (G : reqs) (s : kernel) (T : gmap nat vcall) (p b : nat) (w : bool) (x : buf) (s0 : kernel).
Context (Hs : sysinv G (Vsys s T)) (E : entered p s s0) (Hx : k_bcache s !! b = Some x).
Context (Hid : idle G b (b_blockno x)) (Hpc : ∀ c, T !! p = Some c → c_buf c = b).
Context (Hap : ∀ q c', q ≠ p → T !! q = Some c' → b ≠ c_buf c' ∧ b_blockno x ≠ b_blockno (buf_at (c_buf c') s)).

Lemma alloc_len s1 : length (k_procs s1) = length (k_procs s0) → length (k_procs s1) = length (k_procs s) ∧ (p < length (k_procs s1))%nat.
Proof.
  intros ->. pose proof (sy_len _ _ Hs) as Hn. cbn in Hn. rewrite (entered_len _ _ _ E Hn), Hn.
  split; [done|]. apply (en_driver _ _ _ E).
Qed.

Lemma alloc_posts i0 i1 i2 s1 m (r := new_req b (b_blockno x) w i1 i2 s1) (s2 := posted b (b_blockno x) w i0 i1 i2 s1) :
  vframe (λ _, False) s0 s1 → k_procs s1 = k_procs s0 → G !! i0 = None → vinv [] (<[i0 := r]> G) s2 →
  sysinv (<[i0 := r]> G) (Vsys (asleep (Ch_disk b) p s2) (<[p := Vcall b w (after_wait m p b i0)]> T)) ∧
  view (asleep (Ch_disk b) p s2) = view s.
Proof.
  intros F Ep Hi0 V1. destruct (vframe_fields _ _ _ F) as (Fc & Fb & Fd & Fl).
  destruct (en_disk _ _ _ E) as (Ed & Eb & Ek). destruct (alloc_len s1 Fl) as [Hl Hp]. split.
  - eapply (sysinv_step (λ _, False) G _ s _ T _ p); [exact Hs|..]; cbn.
    + eapply vinv_ext; [..|exact V1]; done.
    + by rewrite !length_alter.
    + apply (en_driver _ _ _ E).
    + rewrite Fb, Eb. apply same_data_alter.
    + intros q Hq. apply (still_asleep _ _ p); [|done]. eapply (entered_still _ p _ _ s0); [done| |done].
      cbn. rewrite Ep. apply stirred_refl.
    + intros q Hq. by rewrite lookup_insert_ne.
    + intros q c i r' Hq Hc Hr' Hb'. rewrite lookup_insert_ne; [done|]. congruence.
    + intros i r' Hr'. destruct (decide (i = i0)) as [->|Hne]; [right|left; by rewrite lookup_insert_ne in Hr'].
      rewrite lookup_insert_eq in Hr'. injection Hr' as <-. eexists. rewrite lookup_insert_eq. split_and!; [done..|].
      cbn. by rewrite (getbuf_lookup _ _ _ Hx).
    + left. rewrite map_size_insert_None by done. lia.
    + intros c. rewrite lookup_insert_eq. intros [= <-]. split_and!; cbn; [|by apply asleep_live|by rewrite (getbuf_lookup _ _ _ Hx)].
      apply (W_disk _ _ _ _ m i0 r); cbn; [done|apply lookup_insert_eq|done..|]. intros _.
      split; [by apply asleep_proc|done].
    + intros c i r' Hc%Hpc Hr' Hb'. rewrite lookup_insert_eq. eauto.
  - rewrite <- (en_view _ _ _ E), <- (dframe_view _ _ _ (dframe_of _ _ _ F)).
    transitivity (view s2); [done|]. apply (dframe_view (λ _, False)).
    split_and!; [done|apply stirred_refl|apply same_data_alter].
Qed.

Lemma alloc_sleeps s1 m :
  vframe (λ _, False) s0 s1 → vinv [] G s1 → (2 ≤ size G)%nat →
  sysinv G (Vsys (asleep Ch_desc p s1) (<[p := Vcall b w (after_alloc m p b (b_blockno x) w)]> T)) ∧
  view (asleep Ch_desc p s1) = view s.
Proof.
  intros F V1 Hsz. destruct (vframe_fields _ _ _ F) as (Fc & Fb & Fd & Fl).
  destruct (en_disk _ _ _ E) as (Ed & Eb & Ek). destruct (alloc_len s1 Fl) as [Hl Hp]. split.
  - eapply (sysinv_step (λ _, False) G _ s _ T _ p); [exact Hs|..]; cbn.
    + eapply vinv_ext; [..|exact V1]; done.
    + by rewrite !length_alter.
    + apply (en_driver _ _ _ E).
    + rewrite Fb, Eb. apply same_data_refl.
    + intros q Hq. apply (still_asleep _ _ p); [|done]. eapply (entered_still _ p _ _ s0); [done|apply F|done].
    + intros q Hq. by rewrite lookup_insert_ne.
    + done.
    + by left.
    + by left.
    + intros c. rewrite lookup_insert_eq. intros [= <-]. split_and!; cbn; [|by apply asleep_live|by rewrite (getbuf_lookup _ _ _ Hx)].
      apply (W_desc _ _ _ _ m x); cbn; [done|by rewrite Fb, Eb|done|]. intros _. split; [by apply asleep_proc|done].
    + intros c i r' Hc%Hpc Hr' Hb'. rewrite lookup_insert_eq. eauto.
  - by rewrite <- (en_view _ _ _ E), <- (dframe_view _ _ _ (dframe_of _ _ _ F)).
Qed.

Lemma alloc_step n h s' k :
  (rw_alloc n ≫= rw_rest b (b_blockno x * 2) w) [L_vdisk] s0 = Block h s' k →
  ∃ G', (grown G G' ∨ G' = G ∧ vd_avail_idx (k_vdisk s') = vd_avail_idx (k_vdisk s)) ∧
    sysinv G' (Vsys s' (<[p := Vcall b w k]> T)) ∧ view s' = view s ∧ ∀ b', committed G' b' ↔ committed G b'.
Proof.
  intros Er. pose proof (entered_inv _ _ _ _ _ E (sy_inv _ _ Hs)) as V0. destruct (en_disk _ _ _ E) as (_ & Eb & _).
  destruct (rw_alloc_run n G s0 p b (b_blockno x) w x V0 (en_driver _ _ _ E) ltac:(by rewrite Eb) eq_refl Hid)
    as (s1 & F & Hav & [(i0 & i1 & i2 & Ep & Hi0 & V1 & Er')|(V1 & Hsz & Er')]); rewrite Er in Er'.
  - destruct patience as [|m]; [done|]. injection Er' as -> -> ->.
    destruct (alloc_posts i0 i1 i2 s1 m F Ep Hi0 V1) as [H1 H2]. exists (<[i0 := new_req b (b_blockno x) w i1 i2 s1]> G).
    split_and!; [left; by exists i0, (new_req b (b_blockno x) w i1 i2 s1)|exact H1|exact H2|].
    intros b'. by apply committed_insert.
  - destruct n as [|m]; [done|]. injection Er' as -> -> ->.
    destruct (alloc_sleeps s1 m F V1 Hsz) as [H1 H2]. exists G. split_and!; [right|done..]. split; [done|].
    cbn. destruct (en_disk _ _ _ E) as (Ed & _). by rewrite Hav, Ed.
Qed.
End Alloc.

Lemma may_call_idle G V b :
  sysinv G V → may_call V b →
  ∃ x, k_bcache (v_s V) !! b = Some x ∧ 0 ≤ b_blockno x < 2 ^ 31 ∧ idle G b (b_blockno x).
Proof.
  intros Hs (x & Hx & Hxb & Hc). exists x. split; [done|]. split; [done|]. intros i r Hr.
  destruct (sy_owner _ _ Hs i r Hr) as (q & c & Hq & Eq). destruct (Hc q c Hq) as [H1 H2].
  destruct (vi_data _ _ _ (sy_inv _ _ Hs) i r Hr) as [(y & Hy & Hyb & _) _].
  rewrite Eq in H1, H2. rewrite (getbuf_lookup _ _ _ Hy) in H2. split; congruence.
Qed.

Lemma call_step G s T A p b w h s' k :
  simulates G (Vsys s T) A → T !! p = None → (p < Z.to_nat NPROC)%nat → may_call (Vsys s T) b →
  virtio_disk_rw b w [] (on_cpu p s) = Block h s' k →
  ∃ G' A', simulates G' (Vsys s' (<[p := Vcall b w k]> T)) A' ∧ astep (view s, A) [Called p b w (view s')] (view s', A').
Proof.
  intros (Hs & HM) HT Hp Hmay Er. pose proof Hmay as (x & Hx & Hxb & Hc). cbn in Hx, Hc, HM.
  pose proof (sy_len _ _ Hs) as Hn. cbn in Hn. pose proof (entered_on_cpu p s Hn Hp) as E.
  assert (idle G b (b_blockno x)) as Hid.
  { destruct (may_call_idle _ _ _ Hs Hmay) as (y & Hy & _ & ?). cbn in Hy. rewrite Hx in Hy. by injection Hy as <-. }
  rewrite (virtio_disk_rw_unfold b w _ x) in Er by done.
  destruct (alloc_step G s T p b w x _ Hs E Hx Hid ltac:(intros c Hc'; congruence)
    ltac:(intros q c' _ Hq; destruct (Hc q c' Hq); auto) _ _ _ _ Er) as (G' & _ & Hs' & Ev & HC).
  exists G', (<[p := Acall b w false]> A). split.
  - split; [done|]. intros q. cbn. pose proof (HM q) as Hq. destruct (decide (p = q)) as [<-|Hne].
    + rewrite !lookup_insert_eq. split_and!; [done..|]. split; [done|]. intros Hcm. apply HC in Hcm.
      by destruct (idle_not_committed _ _ _ Hid).
    + rewrite !lookup_insert_ne by done. destruct (T !! q), (A !! q); try done. by rewrite HC.
  - rewrite Ev. apply A_call. pose proof (HM p) as Hq. rewrite HT in Hq. by destruct (A !! p).
Qed.

Lemma match_again G G' T A p c k :
  calls_match G T A → T !! p = Some c → (∀ b, committed G' b ↔ committed G b) →
  calls_match G' (<[p := Vcall (c_buf c) (c_write c) k]> T) A.
Proof.
  intros HM Hc HC q. pose proof (HM q) as Hq. destruct (decide (p = q)) as [<-|Hne].
  - rewrite lookup_insert_eq. rewrite Hc in Hq. destruct (A !! p); [|done]. cbn. by rewrite HC.
  - rewrite lookup_insert_ne by done. destruct (T !! q), (A !! q); try done. by rewrite HC.
Qed.

Lemma again_step G s T A p c h s' k :
  simulates G (Vsys s T) A → T !! p = Some c → c_k c (on_cpu p s) = Block h s' k →
  (∃ G', (grown G G' ∨ G' = G ∧ vd_avail_idx (k_vdisk s') = vd_avail_idx (k_vdisk s)) ∧
     simulates G' (Vsys s' (<[p := Vcall (c_buf c) (c_write c) k]> T)) A) ∧ view s' = view s.
Proof.
  intros (Hs & HM) Hc Er. destruct (sy_calls _ _ Hs p c Hc) as [Hp Hw]. cbn in HM.
  pose proof (sy_len _ _ Hs) as Hn. cbn in Hn.
  pose proof (entered_awoken _ _ _ (entered_on_cpu p s Hn Hp)) as E.
  destruct Hw as [n x Hk Hx Hid _|n i r Hk Hr Hrb Hrw Hsl]; rewrite Hk in Er.
  - cbn in Hx. destruct (alloc_step G s T p (c_buf c) (c_write c) x _ Hs E Hx Hid ltac:(intros c' Hc'; congruence)
      ltac:(intros q c' Hq Hc'; pose proof (sy_apart _ _ Hs p c q c' Hc Hc' ltac:(done)) as [? H2]; cbn in H2;
            rewrite (getbuf_lookup _ _ _ Hx) in H2; auto) _ _ _ _ Er) as (G' & Hor & Hs' & Ev & HC).
    split; [|done]. exists G'. split; [done|]. split; [done|]. by eapply match_again.
  - pose proof (rw_wait_run n G _ p (c_buf c) i r (entered_inv _ _ _ _ _ E (sy_inv _ _ Hs)) (en_driver _ _ _ E) Hr Hrb) as Hrun.
    unfold after_wait in Er. destruct (decide (r_phase r = Done)) as [|Hph]; [destruct Hrun as (s1 & E1 & _); congruence|].
    rewrite Hrun in Er. destruct n as [|n]; [done|]. injection Er as <- <- <-. split; [|done].
    exists G. split; [by right|]. split; [|by eapply match_again]. set (s0 := awoken p (on_cpu p s)) in *.
    eapply (sysinv_step (λ _, False) G _ s _ T _ p); [exact Hs|..]; cbn.
    + eapply vinv_ext; [..|apply (sy_inv _ _ Hs)]; done.
    + by rewrite !length_alter.
    + done.
    + apply same_data_refl.
    + intros q Hq. apply (still_asleep _ _ p); [|done]. eapply (entered_still _ p _ _ s0); [done|apply stirred_refl|done].
    + intros q Hq. by rewrite lookup_insert_ne.
    + done.
    + by left.
    + by left.
    + intros c'. rewrite lookup_insert_eq. intros [= <-]. split_and!; cbn.
      * apply (W_disk _ _ _ _ n i r); cbn; try done. intros _. split; [|done]. apply asleep_proc. cbn.
        by rewrite !length_alter, Hn.
      * apply asleep_live. cbn. by rewrite !length_alter, Hn.
      * intros q c' Hq Hc'. by apply (sy_apart _ _ Hs p c q c').
    + intros c' i' r' Hc' Hr' Hb'. rewrite lookup_insert_eq. intros _. eexists. split; [done|]. cbn. congruence.
Qed.

Lemma alloc_blocks n G s p b w x :
  vinv [] G s → on_driver p s → k_bcache s !! b = Some x → idle G b (b_blockno x) →
  match (rw_alloc n ≫= rw_rest b (b_blockno x * 2) w) [L_vdisk] s with Block _ _ _ | NoFuel => True | _ => False end.
Proof.
  intros V D Hx Hid. destruct (rw_alloc_run n G s p b (b_blockno x) w x V D Hx eq_refl Hid)
    as (s1 & F & _ & [(i0 & i1 & i2 & _ & _ & _ & ->)|(_ & _ & ->)]); [by destruct patience|by destruct n].
Qed.

Lemma match_return G T A p c i r :
  calls_match G T A → T !! p = Some c → G !! i = Some r → r_buf r = c_buf c →
  (∀ q c', q ≠ p → T !! q = Some c' → c_buf c ≠ c_buf c') → calls_match (delete i G) (delete p T) (delete p A).
Proof.
  intros HM Hc Hr Hb Hap q. pose proof (HM q) as Hq. destruct (decide (p = q)) as [<-|Hne]; [by rewrite !lookup_delete_eq|].
  rewrite !lookup_delete_ne by done. destruct (T !! q) as [c'|] eqn:Hc'; [|done]. destruct (A !! q) as [a|]; [|done].
  destruct Hq as (? & ? & Hd). split_and!; [done..|]. rewrite Hd. split.
  - intros (j & r' & Hr' & Hb' & Hp). exists j, r'. split; [|done]. rewrite lookup_delete_ne; [done|].
    intros <-. rewrite Hr in Hr'. injection Hr' as <-. apply (Hap q c'); congruence.
  - intros (j & r' & [? Hr']%lookup_delete_Some & Hb' & Hp). by exists j, r'.
Qed.

Lemma return_step G s T A p c h s' :
  simulates G (Vsys s T) A → T !! p = Some c → c_k c (on_cpu p s) = Ok tt h s' →
  ∃ G' A', retired G G' ∧ simulates G' (Vsys s' (delete p T)) A' ∧ astep (view s, A) [Returned p (view s')] (view s', A').
Proof.
  intros (Hs & HM) Hc Er. destruct (sy_calls _ _ Hs p c Hc) as [Hp Hw]. cbn in HM.
  pose proof (sy_len _ _ Hs) as Hn. cbn in Hn. pose proof (sy_inv _ _ Hs) as V.
  pose proof (entered_awoken _ _ _ (entered_on_cpu p s Hn Hp)) as E. set (s0 := awoken p (on_cpu p s)) in *.
  pose proof (entered_inv _ _ _ _ _ E V) as V0. pose proof (en_driver _ _ _ E) as D.
  destruct Hw as [n x Hk Hx Hid _|n i r Hk Hr Hrb Hrw _]; rewrite Hk in Er.
  { pose proof (alloc_blocks n G s0 p _ (c_write c) x V0 D Hx Hid) as Hb. unfold after_alloc in Er. fold s0 in Er. by rewrite Er in Hb. }
  pose proof (rw_wait_run n G s0 p (c_buf c) i r V0 D Hr Hrb) as Hrun.
  unfold after_wait in Er. fold s0 in Er. destruct (decide (r_phase r = Done)) as [Hph|]; [|rewrite Er in Hrun; by destruct n].
  destruct Hrun as (s1 & E1 & V1 & F). rewrite E1 in Er. injection Er as <- <-.
  destruct (vframe_fields _ _ _ F) as (Fc & Fb & Fd & Fl).
  assert (∀ q c', q ≠ p → T !! q = Some c' → c_buf c ≠ c_buf c') as Hap.
  { intros q c' Hq Hc'. by apply (sy_apart _ _ Hs p c q c'). }
  exists (delete i G), (delete p A). split; [by exists i, r|]. split.
  - split; [|by eapply match_return].
    eapply (sysinv_step (eq Ch_desc) G _ s _ T _ p); [exact Hs|exact V1|..]; cbn.
    + rewrite Fl. cbn. by rewrite !length_alter.
    + done.
    + rewrite Fb. apply same_data_refl.
    + intros q Hq. eapply (entered_still _ p _ _ s0); [done|apply F|done].
    + intros q Hq. by rewrite lookup_delete_ne.
    + intros q c' j r' Hq Hc' Hr' Hb'. rewrite lookup_delete_ne; [done|]. intros <-. rewrite Hr in Hr'. injection Hr' as <-.
      apply (Hap q c' Hq Hc'). congruence.
    + intros j r' [_ Hr']%lookup_delete_Some. by left.
    + by right.
    + intros c'. by rewrite lookup_delete_eq.
    + intros c' j r' Hc' Hr' Hb' [Hne _]%lookup_delete_Some. rewrite Hc in Hc'. injection Hc' as <-.
      destruct (vi_apart _ _ _ V i r j r' Hr Hr' Hne) as (_ & Hx & _). congruence.
  - pose proof (HM p) as Hm. rewrite Hc in Hm. destruct (A !! p) as [[b w dn]|] eqn:HA; [|done].
    destruct Hm as (_ & _ & Hdn). cbn in Hdn. assert (dn = true) as -> by (apply Hdn; exists i, r; auto).
    rewrite (dframe_view _ _ _ (dframe_of _ _ _ F)), (en_view _ _ _ E). by eapply A_return.
Qed.

Lemma other_step G s T A s' :
  simulates G (Vsys s T) A → outside (Vsys s T) s' → simulates G (Vsys s' T) A ∧ astep (view s, A) [Outside (view s')] (view s', A).
Proof.
  intros (Hs & HM) (Ed & Ek & El & Hc). cbn in *. split.
  - split; [|done]. destruct Hs as [Hv Hl Hcs Hlv Ha Ho]. cbn in *.
    assert (∀ p c, T !! p = Some c → buf_at (c_buf c) s' = buf_at (c_buf c) s) as Hb.
    { intros p c Hp. unfold buf_at. by rewrite (proj1 (Hc p c Hp)). }
    split; cbn; [|by rewrite El|..|done].
    + destruct Hv as [? ? ? V4 ? ? ? ? ? ?]. split; rewrite ?Ed; try done. intros i r Hr. rewrite Ek.
      destruct (Ho i r Hr) as (p & c & Hp & Ec). destruct (V4 i r Hr) as [(x & Hx & D) D2]. split; [|done].
      exists x. by rewrite <- Ec, (proj1 (Hc p c Hp)), Ec.
    + intros p c Hp. destruct (Hcs p c Hp) as [Hp8 Hw]. destruct (Hc p c Hp) as [Ec Hsl]. split; [done|].
      apply (waiting_mono (λ _, False) G s); try done.
      * intros i r Hr _. exists (r_phase r). split; [by destruct r|done].
      * by left.
      * intros x Hx. exists x. by rewrite Ec.
      * split; [intros _; destruct Hsl as [?|[? _]]; [by right|by left]|]. intros Hs.
        destruct Hsl as [Hsl|[_ Hsl]]; [congruence|]. split; [done|]. naive_solver.
    + intros p c Hp. destruct (Hc p c Hp) as [_ [?|[? _]]]; [by right|by left].
    + intros p c q c' Hp Hq Hne. rewrite (Hb p c Hp), (Hb q c' Hq). by apply (Ha p c q c').
  - apply A_other; [done|]. intros p a Hp. pose proof (HM p) as Hm. rewrite Hp in Hm.
    destruct (T !! p) as [c|] eqn:E; [|done]. destruct Hm as (Eb & _). rewrite Eb. cbn. rewrite !list_lookup_fmap.
    by rewrite (proj1 (Hc p c E)).
Qed.

(** The states of the abstract disk behind a state of the system. *)
Definition ysim (Y : sys) (a : kernel * gmap nat acall) : Prop :=
  a.1 = view (v_s (y_v Y)) ∧ (∃ G, simulates G (y_v Y) a.2) ∧
  ∀ p, y_hand Y = Some (Some p) → v_calls (y_v Y) !! p = None.

Lemma vstep_simulated Y a l Y' : ysim Y a → vstep Y l Y' → ∃ a', trace astep a l a' ∧ ysim Y' a'.
Proof.
  destruct Y as [[s T] o], a as [v A]. intros (Ev & (G & HS) & Hh). cbn in Ev, HS, Hh. subst v.
  inversion 1 as [p b w h s' k|p c h s' k|p c h s'|s' Hd|me h s' Ho Hme|me h s' Ho|me s' Ho|s']; subst; cbn in *; subst.
  - destruct (call_step G s T A p b w h s' k) as (G' & A' & ? & ?); [done..|]. exists (view s', A').
    split; [by apply trace_one|by split_and!; [|eexists|]].
  - destruct (again_step G s T A p c h s' k) as [(G' & _ & ?) E]; [done..|]. exists (view s', A).
    split; [rewrite E; constructor|by split_and!; [|eexists|]].
  - destruct (return_step G s T A p c h s') as (G' & A' & _ & ? & ?); [done..|]. exists (view s', A').
    split; [by apply trace_one|by split_and!; [|eexists|]].
  - inversion Hd as [d' E|i s1 Hi E]; subst.
    + destruct (fetch_step G s T A d') as (G' & _ & ?); [done..|]. exists (view s, A).
      split; [constructor|by split_and!; [|eexists|]].
    + destruct (complete_step G s T A i s') as (G' & A' & _ & ? & ?); [done..|]. exists (view s', A').
      split; [by apply trace_one|by split_and!; [|eexists|]].
  - destruct (enter_step G s T A me h s') as (? & E & _); [done..|]. exists (view s, A). split; [constructor|].
    split_and!; [done|by eexists|]. cbn. intros p [= ->]. by apply Hme.
  - destruct (round_step G s T A me h s') as [(G' & _ & ?) E]; [done|intros p ->; by apply Hh|done..|].
    exists (view s, A). split; [constructor|by split_and!; [|eexists|]].
  - rewrite release_acquired in * by apply not_elem_of_nil. simplify_eq. exists (view s', A).
    split; [constructor|by split_and!; [|eexists|]].
  - destruct (other_step G s T A s') as [? ?]; [done..|]. exists (view s', A).
    split; [by apply trace_one|by split_and!; [|eexists|]].
Qed.

Lemma ysim_init s : vinv [] ∅ s → length (k_procs s) = Z.to_nat NPROC → ysim (Sys (Vsys s ∅) None) (view s, ∅).
Proof.
  intros V Hl. split_and!; [done| |done]. exists ∅. split; [|intros p; cbn; by rewrite !lookup_empty].
  split; cbn; try done; intros ? ?; by rewrite lookup_empty.
Qed.

Lemma vsteps_simulated s l Y :
  vinv [] ∅ s → length (k_procs s) = Z.to_nat NPROC → trace vstep (Sys (Vsys s ∅) None) l Y →
  ∃ a, trace astep (view s, ∅) l a ∧ ysim Y a.
Proof.
  intros Hv Hl H. eapply forward_simulation; [exact vstep_simulated| |exact H]. by apply ysim_init.
Qed.
End System.
