(* ===== verification/VirtioProps.v ===== *)
(** * Properties of the disk driver (kernel/virtio_disk.c)

    The driver refines the abstract disk, it is safe, and every call returns once the
    device, the interrupt handler and the processes get to run. *)

From S2P Require Import Prelude Trace CString Riscv Kalloc Vm Kernel Sched Sleeplock Bytes Bio BioList BioSpec Log LogSpec Sample RingBuf Virtio VirtioSpec VirtioDriver VirtioSystem.

(** After [virtio_disk_init]: all descriptors are free and the rings are empty. *)
Definition disk_ready (s : kernel) (d := k_vdisk s) : Prop :=
  (length (vd_desc d) = 8%nat ∧ length (vd_avail_ring d) = 8%nat ∧ length (vd_used_ring d) = 8%nat ∧
   length (vd_free d) = 8%nat ∧ length (vd_info_b d) = 8%nat ∧ length (vd_info_status d) = 8%nat ∧
   length (vd_ops d) = 8%nat) ∧
  vd_free d = replicate 8 true ∧ vd_pending d = [] ∧
  0 ≤ vd_seen d < 2 ^ 16 ∧ vd_avail_idx d = vd_seen d ∧ 0 ≤ vd_used_idx d < 2 ^ 16 ∧ vd_used_idx_dev d = vd_used_idx d.

Lemma in_phase_empty ph : in_phase ∅ ph [].
Proof. split; [constructor|]. intros i. rewrite lookup_empty. split; [by intros ?%not_elem_of_nil|done]. Qed.

Lemma disk_ready_inv s : disk_ready s → vinv [] ∅ s.
Proof.
  intros (HL & Hf & Hp & Hs & Ha & Hu & Hd). split; try (intros ? ?; by rewrite lookup_empty).
  - done.
  - rewrite Ha, Hd. done.
  - split; [constructor|]. by intros i ?%not_elem_of_nil.
  - intros i Hi. by rewrite Hf, lookup_replicate_2 by done.
  - exists []. split; [apply in_phase_empty|]. by rewrite Ha, rb_none.
  - rewrite Hp. apply in_phase_empty.
  - exists []. split; [apply in_phase_empty|]. by rewrite Hd, rb_none.
Qed.



Section Props.
Context {Pat : Patience} {Dev : Virtio_device}.

(** The runs of the system, from a kernel without calls of the driver. *)
Definition runs_to (s : kernel) (l : list event) (Y : sys) : Prop :=
  disk_ready s ∧ length (k_procs s) = Z.to_nat NPROC ∧ trace vstep (Sys (Vsys s ∅) None) l Y.

Lemma runs_to_ysim s l Y : runs_to s l Y → ∃ a, trace astep (view s, ∅) l a ∧ ysim Y a.
Proof. intros (Hr & Hl & H). by apply vsteps_simulated; [apply disk_ready_inv|..]. Qed.

(** ** Safety *)

Lemma alloc_run_blocks n G s p b w x :
  vinv [] G s → on_driver p s → k_bcache s !! b = Some x → idle G b (b_blockno x) →
  match (rw_alloc n ≫= rw_rest b (b_blockno x * 2) w) [L_vdisk] s with
  | Block h _ _ => h = [L_proc p]
  | NoFuel => n = 0%nat ∨ patience = 0%nat
  | _ => False
  end.
Proof.
  intros V D Hx Hid. destruct (rw_alloc_run n G s p b (b_blockno x) w x V D Hx eq_refl Hid)
    as (s1 & F & _ & [(i0 & i1 & i2 & _ & _ & _ & ->)|(_ & _ & ->)]); [destruct patience; auto|destruct n; auto].
Qed.

(** A call gives up the CPU before it returns. *)
Lemma call_ok G V p b w :
  sysinv G V → (p < Z.to_nat NPROC)%nat → may_call V b → patience ≠ 0%nat →
  ∃ s' k, virtio_disk_rw b w [] (on_cpu p (v_s V)) = Block [L_proc p] s' k.
Proof.
  intros Hs Hp Hmay Hpat. pose proof (may_call_idle _ _ _ Hs Hmay) as (x & Hx & Hxb & Hid).
  pose proof (entered_on_cpu p _ (sy_len _ _ Hs) Hp) as E. rewrite (virtio_disk_rw_unfold b w _ x) by done.
  pose proof (alloc_run_blocks patience G _ p b w x (entered_inv _ _ _ _ _ E (sy_inv _ _ Hs)) (en_driver _ _ _ E) Hx Hid) as H.
  destruct ((rw_alloc _ ≫= _) _ _) as [| |h s' k|]; [done..| |by destruct H]. subst h. eauto.
Qed.

Lemma resume_ok G V p c :
  sysinv G V → v_calls V !! p = Some c →
  match c_k c (on_cpu p (v_s V)) with
  | Panic _ => False
  | Ok _ h _ => h = []
  | Block h _ _ => h = [L_proc p]
  | NoFuel => True
  end.
Proof.
  intros Hs Hc. destruct (sy_calls _ _ Hs p c Hc) as [Hp Hw]. pose proof (sy_len _ _ Hs) as Hn.
  pose proof (entered_awoken _ _ _ (entered_on_cpu p _ Hn Hp)) as E. set (s0 := awoken p (on_cpu p (v_s V))) in *.
  pose proof (entered_inv _ _ _ _ _ E (sy_inv _ _ Hs)) as V0. pose proof (en_driver _ _ _ E) as D.
  destruct Hw as [n x Hk Hx Hid _|n i r Hk Hr Hrb _ _]; rewrite Hk.
  - unfold after_alloc. fold s0. pose proof (alloc_run_blocks n G s0 p (c_buf c) (c_write c) x V0 D Hx Hid) as H.
    by destruct ((rw_alloc _ ≫= _) _ _).
  - unfold after_wait. fold s0. pose proof (rw_wait_run n G s0 p (c_buf c) i r V0 D Hr Hrb) as Hrun.
    destruct (decide (r_phase r = Done)); [by destruct Hrun as (s1 & -> & _)|]. rewrite Hrun. by destruct n.
Qed.

(** Buffer [b] is given back: it does not belong to the disk, and of the processes other
    than the current one none sleeps for it. *)
Definition given_back (b : nat) (s : kernel) : Prop :=
  b_disk (buf_at b s) = false ∧
  ∀ p, k_cur s ≠ Some p → p_chan (proc_at p s) = Some (Ch_disk b) → p_state (proc_at p s) ≠ SLEEPING.

Lemma given_back_done (C : chan → Prop) X G s s' i r :
  vinv X G s' → dframe C s s' → C (Ch_disk (r_buf r)) → G !! i = Some r → r_phase r = Done → given_back (r_buf r) s'.
Proof.
  intros V (E & [_ S] & _) HC Hr Hp. split.
  - destruct (vi_data _ _ _ V i r Hr) as [(x & Hx & _ & Hd & _) _]. rewrite (getbuf_lookup _ _ _ Hx), Hd.
    apply bool_decide_false. naive_solver.
  - intros p Hcur. unfold proc_at. destruct (k_procs s' !! p) as [x'|] eqn:Ex; [|done]. simpl. intros Hch Hsl.
    destruct (S p x' Ex) as (x & _ & [[_ ->]|[-> Hn]]); [done|].
    assert (Some p ≠ k_cur s) as Hne by (rewrite E in Hcur; cbn in Hcur; auto).
    by apply (Hn Hsl Hne _ Hch).
Qed.

(** The device has finished the request for buffer [b], and the driver has not seen it. *)
Definition finished (b : nat) (s : kernel) (d := k_vdisk s) : Prop :=
  ∃ id, Z.of_nat id ∈ rb 8 (2 ^ 16) (vd_used_idx d) (vd_used_idx_dev d) (vd_used_ring d) ∧
    vd_info_b d !! id = Some (Some b).

(** It is the next one that the driver will see. *)
Definition finished_next (b : nat) (s : kernel) (d := k_vdisk s) : Prop :=
  ∃ id, nthZ (vd_used_ring d) (vd_used_idx d mod 8) = Z.of_nat id ∧ vd_info_b d !! id = Some (Some b).

Lemma intr_ok G V me :
  sysinv G V →
  ∃ s', virtio_disk_intr [] ((v_s V) <| k_cur := me |>) = Ok tt [] s' ∧
    vd_used_idx (k_vdisk s') = vd_used_idx_dev (k_vdisk (v_s V)) ∧
    ∀ b, finished b (v_s V) → given_back b s'.
Proof.
  intros Hs. pose proof (sy_inv _ _ Hs) as HI.
  destruct (virtio_disk_intr_ok [] G [] ((v_s V) <| k_cur := me |>)) as (s' & E & V' & F & D).
  - by eapply vinv_ext; [..|exact HI].
  - split; [intros ? ?; apply not_elem_of_nil|apply Hs].
  - apply not_elem_of_nil.
  - exists s'. split_and!; [done..|]. intros b (id & Hid & Hb). destruct (vi_used _ _ _ HI) as (U & HU & Er).
    rewrite Er in Hid. apply list_elem_of_fmap in Hid as (i & Ei & Hi). apply Nat2Z.inj in Ei as <-. apply HU in Hi.
    destruct (G !! id) as [r|] eqn:Hr; [|done]. injection Hi as Hp.
    rewrite (ch_b _ _ _ (vi_chain _ _ _ HI id r Hr)) in Hb. injection Hb as <-.
    change (given_back (r_buf (r <| r_phase := Done |>)) s').
    apply (given_back_done (used_chan G) [] (seen G) ((v_s V) <| k_cur := me |>) s' id (r <| r_phase := Done |>)); try done.
    + by exists id, r.
    + unfold seen. rewrite lookup_fmap, Hr. simpl. by rewrite decide_True.
Qed.

Lemma round_ok G V me :
  sysinv G V → vd_used_idx (k_vdisk (v_s V)) ≠ vd_used_idx_dev (k_vdisk (v_s V)) →
  ∃ s', intr_round [L_vdisk] ((v_s V) <| k_cur := me |>) = Ok tt [L_vdisk] s' ∧
    vd_used_idx (k_vdisk s') = u16 (vd_used_idx (k_vdisk (v_s V)) + 1) ∧
    ∀ b, finished_next b (v_s V) → given_back b s'.
Proof.
  intros Hs Hne. pose proof (sy_inv _ _ Hs) as HI.
  destruct (intr_round_ok [] G [L_vdisk] ((v_s V) <| k_cur := me |>)) as (i & r & s' & E & Hr & Hp & Ei & V' & F & D); [|..|done|].
  - by eapply vinv_ext; [..|exact HI].
  - split; [intros ? ?; set_solver|apply Hs].
  - exists s'. split_and!; [done|by rewrite D|]. intros b (id & Hid & Hb). cbn in Ei, Hid.
    assert (id = i) as -> by lia. rewrite (ch_b _ _ _ (vi_chain _ _ _ HI i r Hr)) in Hb. injection Hb as <-.
    change (given_back (r_buf (r <| r_phase := Done |>)) s').
    apply (given_back_done (eq (Ch_disk (r_buf r))) [] (at_phase i Done G) ((v_s V) <| k_cur := me |>) s' i (r <| r_phase := Done |>)); try done.
    unfold at_phase. by rewrite lookup_alter_eq, Hr.
Qed.

(** A process of a call sleeps only while it cannot go on. *)
Lemma asleep_ok G V p c (s := v_s V) :
  sysinv G V → v_calls V !! p = Some c → p_state (proc_at p s) = SLEEPING →
  (p_chan (proc_at p s) = Some (Ch_disk (c_buf c)) ∧ b_disk (buf_at (c_buf c) s) = true) ∨
  (p_chan (proc_at p s) = Some Ch_desc ∧ (length (filter (eq true) (vd_free (k_vdisk s))) < 3)%nat).
Proof.
  intros Hs Hc Hsl. pose proof (sy_inv _ _ Hs) as HI. destruct (sy_calls _ _ Hs p c Hc) as [_ [n x _ _ _ Hd|n i r _ Hi Hb _ Hd]].
  - right. destruct (Hd Hsl) as [Hch Hsz]. split; [done|]. by eapply free_few.
  - left. destruct (Hd Hsl) as [Hch Hp]. split; [done|]. destruct (vi_data _ _ _ HI i r Hi) as [(y & Hy & _ & E & _) _].
    unfold s. rewrite <- Hb, (getbuf_lookup _ _ _ Hy), E. by apply bool_decide_true.
Qed.

(** ** Progress *)

(** The steps that bring the calls forward: the device works on a request; an interrupt
    that finds a finished one is taken, and its handler takes its next step; a process
    posts its request or returns from its call.  New calls, code outside of the driver, and
    a process that wakes up only to sleep again are not among them. *)
Inductive work (Y : sys) (V := y_v Y) (s := v_s V) (T := v_calls V) : sys → Prop :=
  | K_post p c h s' k :
      y_hand Y = None → T !! p = Some c → p_state (proc_at p s) = RUNNABLE →
      c_k c (on_cpu p s) = Block h s' k → vd_avail_idx (k_vdisk s') ≠ vd_avail_idx (k_vdisk s) →
      work Y (Sys (Vsys s' (<[p := Vcall (c_buf c) (c_write c) k]> T)) None)
  | K_return p c h s' :
      y_hand Y = None → T !! p = Some c → p_state (proc_at p s) = RUNNABLE →
      c_k c (on_cpu p s) = Ok tt h s' →
      work Y (Sys (Vsys s' (delete p T)) None)
  | K_device s' : dev_step s s' → work Y (Sys (Vsys s' T) (y_hand Y))
  | K_enter me h s' :
      y_hand Y = None → (∀ p, me = Some p → T !! p = None) →
      vd_used_idx (k_vdisk s) ≠ vd_used_idx_dev (k_vdisk s) →
      intr_enter [] (s <| k_cur := me |>) = Ok tt h s' →
      work Y (Sys (Vsys s' T) (Some me))
  | K_round me h s' :
      y_hand Y = Some me → vd_used_idx (k_vdisk s) ≠ vd_used_idx_dev (k_vdisk s) →
      intr_round [L_vdisk] (s <| k_cur := me |>) = Ok tt h s' →
      work Y (Sys (Vsys s' T) (Some me))
  | K_leave me s' :
      y_hand Y = Some me → vd_used_idx (k_vdisk s) = vd_used_idx_dev (k_vdisk s) →
      release L_vdisk [L_vdisk] s = Ok tt [] s' →
      work Y (Sys (Vsys s' T) None).

(** They are steps of the system. *)
Lemma work_vstep Y Y' : work Y Y' → ∃ l, vstep Y l Y'.
Proof.
  destruct 1; eexists; [by eapply V_again|by eapply V_return|by eapply V_device|by eapply V_enter|
    by eapply V_round|by eapply V_leave].
Qed.



















(** ** Executable runs *)

Inductive action : Type :=
  | Do_call (p b : nat) (w : bool) | Do_resume (p : nat) | Do_fetch | Do_complete (i : nat)
  | Do_enter | Do_round | Do_leave.

Definition may_callb (V : vsys) (b : nat) : bool :=
  match k_bcache (v_s V) !! b with
  | Some x => (0 <=? b_blockno x) && (b_blockno x <? 2 ^ 31) &&
      bool_decide (map_Forall (λ _ c, c_buf c ≠ b ∧ b_blockno (buf_at (c_buf c) (v_s V)) ≠ b_blockno x) (v_calls V))
  | None => false
  end.

Definition vrun1 (a : action) (Y : sys) : option (list event * sys) :=
  let V := y_v Y in let s := v_s V in let T := v_calls V in
  match a, y_hand Y with
  | Do_call p b w, None =>
      if bool_decide (T !! p = None) && bool_decide (p < Z.to_nat NPROC)%nat && may_callb V b then
        match virtio_disk_rw b w [] (on_cpu p s) with
        | Block _ s' k => Some ([Called p b w (view s')], Sys (Vsys s' (<[p := Vcall b w k]> T)) None)
        | _ => None
        end
      else None
  | Do_resume p, None =>
      c ← T !! p;
      if bool_decide (p_state (proc_at p s) = RUNNABLE) then
        match c_k c (on_cpu p s) with
        | Block _ s' k => Some ([], Sys (Vsys s' (<[p := Vcall (c_buf c) (c_write c) k]> T)) None)
        | Ok _ _ s' => Some ([Returned p (view s')], Sys (Vsys s' (delete p T)) None)
        | _ => None
        end
      else None
  | Do_fetch, o => d ← dev_fetch (k_vdisk s); Some ([], Sys (Vsys (s <| k_vdisk := d |>) T) o)
  | Do_complete i, o =>
      if bool_decide (i ∈ vd_pending (k_vdisk s))
      then s' ← dev_complete i s; Some ([], Sys (Vsys s' T) o) else None
  | Do_enter, None =>
      match intr_enter [] (s <| k_cur := None |>) with
      | Ok _ _ s' => Some ([], Sys (Vsys s' T) (Some None))
      | _ => None
      end
  | Do_round, Some me =>
      if vd_used_idx (k_vdisk s) =? vd_used_idx_dev (k_vdisk s) then None else
      match intr_round [L_vdisk] (s <| k_cur := me |>) with
      | Ok _ _ s' => Some ([], Sys (Vsys s' T) (Some me))
      | _ => None
      end
  | Do_leave, Some me =>
      if vd_used_idx (k_vdisk s) =? vd_used_idx_dev (k_vdisk s) then Some ([], Sys (Vsys s T) None) else None
  | _, _ => None
  end.

Fixpoint vrun (l : list action) (Y : sys) : option (list event * sys) :=
  match l with
  | [] => Some ([], Y)
  | a :: l => '(e, Y1) ← vrun1 a Y; '(es, Y2) ← vrun l Y1; Some (e ++ es, Y2)
  end.

Lemma may_callb_sound V b : may_callb V b = true → may_call V b.
Proof.
  unfold may_callb, may_call. destruct (k_bcache (v_s V) !! b) as [x|]; [|done].
  rewrite !andb_true_iff, bool_decide_eq_true. intros [[H1 H2] H3]. exists x. split_and!; [done|lia|lia|done].
Qed.

Lemma vrun1_sound a Y e Y' : vrun1 a Y = Some (e, Y') → vstep Y e Y'.
Proof.
  unfold vrun1. cbv zeta. destruct a as [p b w|p| |i| | |], (y_hand Y) as [me|] eqn:Eh; try done.
  - destruct (_ && _) eqn:E; [|done]. apply andb_prop in E as [[E1%bool_decide_eq_true E2%bool_decide_eq_true]%andb_prop E3%may_callb_sound].
    destruct (virtio_disk_rw _ _ _ _) eqn:Er; try done. intros [= <- <-]. by eapply V_call.
  - destruct (v_calls (y_v Y) !! p) as [c|] eqn:Hc; [|done]. cbn [mbind option_bind]. case_bool_decide as Hs; [|done].
    destruct (c_k c _) as [[]| | |] eqn:Er; try done; intros [= <- <-]; [by eapply V_return|by eapply V_again].
  - rewrite <- Eh. destruct (dev_fetch _) as [d|] eqn:E; [|done]. intros [= <- <-]. by eapply V_device, Dev_fetch.
  - rewrite <- Eh. destruct (dev_fetch _) as [d|] eqn:E; [|done]. intros [= <- <-]. by eapply V_device, Dev_fetch.
  - rewrite <- Eh. case_bool_decide as Hi; [|done]. destruct (dev_complete i _) as [s'|] eqn:E; [|done]. intros [= <- <-].
    by eapply V_device, Dev_complete.
  - rewrite <- Eh. case_bool_decide as Hi; [|done]. destruct (dev_complete i _) as [s'|] eqn:E; [|done]. intros [= <- <-].
    by eapply V_device, Dev_complete.
  - destruct (intr_enter _ _) as [[]| | |] eqn:E; try done. intros [= <- <-]. by eapply (V_enter Y None).
  - destruct (Z.eqb_spec (vd_used_idx (k_vdisk (v_s (y_v Y)))) (vd_used_idx_dev (k_vdisk (v_s (y_v Y))))); [done|].
    destruct (intr_round _ _) as [[]| | |] eqn:E; try done. intros [= <- <-]. by eapply (V_round Y me).
  - destruct (Z.eqb_spec (vd_used_idx (k_vdisk (v_s (y_v Y)))) (vd_used_idx_dev (k_vdisk (v_s (y_v Y))))); [|done].
    intros [= <- <-]. eapply (V_leave Y me); [done|done|]. apply release_acquired, not_elem_of_nil.
Qed.

Lemma vrun_sound l : ∀ Y e Y', vrun l Y = Some (e, Y') → trace vstep Y e Y'.
Proof.
  induction l as [|a l IH]; intros Y e Y'; cbn; [intros [= <- <-]; constructor|].
  destruct (vrun1 a Y) as [[e1 Y1]|] eqn:E1; [|done]. cbn. destruct (vrun l Y1) as [[e2 Y2]|] eqn:E2; [|done].
  cbn. intros [= <- <-]. eapply trace_step; [by apply (vrun1_sound a)|by apply IH].
Qed.

(** ** Properties *)


(** C5: in no execution does the driver panic or lose a wakeup, and its interrupt handler
    does its work.  A call of [virtio_disk_rw] for a locked buffer gives up the CPU without
    a panic; so does a process that is resumed inside of it, or it returns, with the locks
    balanced.  An interrupt can be taken at any time: if nothing interferes, the handler
    ends with every finished request seen, its buffer given back and nobody asleep for it;
    a handler that is running does the same for one more finished request with every round.
    The device never meets a malformed request; and a process sleeps only while the device
    still owns its buffer, or while fewer than three descriptors are free. *)
Theorem virtio_safe s l Y (V := y_v Y) (d := k_vdisk (v_s V)) :
  runs_to s l Y → patience ≠ 0%nat →
  (∀ p b w, v_calls V !! p = None → (p < Z.to_nat NPROC)%nat → may_call V b →
     ∃ s' k, virtio_disk_rw b w [] (on_cpu p (v_s V)) = Block [L_proc p] s' k) ∧
  (∀ p c, v_calls V !! p = Some c →
    match c_k c (on_cpu p (v_s V)) with
    | Panic _ => False | Ok _ h _ => h = [] | Block h _ _ => h = [L_proc p] | NoFuel => True
    end) ∧
  (∀ me, ∃ s', virtio_disk_intr [] ((v_s V) <| k_cur := me |>) = Ok tt [] s' ∧
     vd_used_idx (k_vdisk s') = vd_used_idx_dev d ∧ ∀ b, finished b (v_s V) → given_back b s') ∧
  (∀ me, vd_used_idx d ≠ vd_used_idx_dev d →
     ∃ s', intr_round [L_vdisk] ((v_s V) <| k_cur := me |>) = Ok tt [L_vdisk] s' ∧
     vd_used_idx (k_vdisk s') = u16 (vd_used_idx d + 1) ∧ ∀ b, finished_next b (v_s V) → given_back b s') ∧
  (∀ i, i ∈ vd_pending d → ∃ s', dev_complete i (v_s V) = Some s') ∧
  (∀ p c, v_calls V !! p = Some c → p_state (proc_at p (v_s V)) = SLEEPING →
    (p_chan (proc_at p (v_s V)) = Some (Ch_disk (c_buf c)) ∧ b_disk (buf_at (c_buf c) (v_s V)) = true) ∨
    (p_chan (proc_at p (v_s V)) = Some Ch_desc ∧ (length (filter (eq true) (vd_free d)) < 3)%nat)).
Proof.
  intros (a & _ & _ & (G & Hs & _) & _)%runs_to_ysim Hpat. split_and!.
  - intros p b w _ Hp Hm. by eapply call_ok.
  - intros p c Hc. by eapply resume_ok.
  - intros me. by eapply intr_ok.
  - intros me Hne. by eapply round_ok.
  - intros i Hi. destruct (dev_complete_ok _ _ _ _ (sy_inv _ _ Hs) Hi) as (s' & E & _). by exists s'.
  - intros p c. by apply (asleep_ok G V).
Qed.

End Props.

(** ** Requests from beginning to end *)

(** The registers of a legacy-free virtio block device, as QEMU answers them. *)
Definition sample_device : Virtio_device := λ regs r,
  if r =? VIRTIO_MMIO_MAGIC_VALUE then 0x74726976
  else if r =? VIRTIO_MMIO_VERSION then 2
  else if r =? VIRTIO_MMIO_DEVICE_ID then 2
  else if r =? VIRTIO_MMIO_VENDOR_ID then 0x554d4551
  else if r =? VIRTIO_MMIO_QUEUE_NUM_MAX then 1024
  else default 0 (regs !! r).
#[local] Existing Instance sample_device.
#[local] Instance sample_patience : Patience := 2%nat.

(** Three free pages for the queue. *)
Definition sample_pages : machine :=
  kfree_post (kfree_post (kfree_post (Machine KERNBASE ∅ 0) (PHYSTOP - 3 * 4096)) (PHYSTOP - 2 * 4096)) (PHYSTOP - 4096).

Definition sample_ready : kernel :=
  let s := zero_kernel sample_pages (Disk ∅ []) in kfinal s (virtio_disk_init [] s).

(** Process 3 writes buffer 5 and process 7 reads buffer 6, of another block; the device
    completes the second request first, and the first one while the handler runs; after
    the interrupt the writer returns. *)
Definition sample_s0 : kernel := sample_ready <| k_bcache ::= alter (λ x, x <| b_blockno := 40 |>) 6%nat |>.
Definition sample_y0 : sys := Sys (Vsys sample_s0 ∅) None.
Definition sample_actions : list action :=
  [Do_call 3 5 true; Do_fetch; Do_call 7 6 false; Do_fetch; Do_complete 3; Do_enter; Do_round; Do_complete 0;
   Do_round; Do_leave; Do_resume 3].
Definition sample_run : list event * sys := default ([], sample_y0) (vrun sample_actions sample_y0).

Lemma sample_runs : runs_to sample_s0 sample_run.1 sample_run.2.
Proof.
  split_and!.
  - unfold disk_ready. repeat match goal with |- _ ∧ _ => split end; try (vm_compute; reflexivity); vm_compute; discriminate.
  - vm_compute. reflexivity.
  - unfold sample_run. destruct (vrun sample_actions sample_y0) as [[e Y]|] eqn:E; [by eapply vrun_sound|].
    exfalso. assert (bool_decide (is_Some (vrun sample_actions sample_y0)) = true) as H by (vm_compute; reflexivity).
    apply bool_decide_eq_true in H. rewrite E in H. by destruct H.
Qed.

(** One process has returned, the other is still inside of its call. *)
Lemma sample_run_calls :
  length sample_run.1 = 3%nat ∧ dom (v_calls (y_v sample_run.2)) = {[ 7%nat ]} ∧ y_hand sample_run.2 = None.
Proof. split_and!; vm_compute; reflexivity. Qed.


Lemma virtio_safe_witness :
  let V := y_v sample_run.2 in
  let d := k_vdisk (v_s V) in
  (∀ p b w, v_calls V !! p = None → (p < Z.to_nat NPROC)%nat → may_call V b →
     ∃ s' k, virtio_disk_rw b w [] (on_cpu p (v_s V)) = Block [L_proc p] s' k) ∧
  (∀ p c, v_calls V !! p = Some c →
    match c_k c (on_cpu p (v_s V)) with
    | Panic _ => False | Ok _ h _ => h = [] | Block h _ _ => h = [L_proc p] | NoFuel => True
    end) ∧
  (∀ me, ∃ s', virtio_disk_intr [] ((v_s V) <| k_cur := me |>) = Ok tt [] s' ∧
     vd_used_idx (k_vdisk s') = vd_used_idx_dev d ∧ ∀ b, finished b (v_s V) → given_back b s') ∧
  (∀ me, vd_used_idx d ≠ vd_used_idx_dev d →
     ∃ s', intr_round [L_vdisk] ((v_s V) <| k_cur := me |>) = Ok tt [L_vdisk] s' ∧
     vd_used_idx (k_vdisk s') = u16 (vd_used_idx d + 1) ∧ ∀ b, finished_next b (v_s V) → given_back b s') ∧
  (∀ i, i ∈ vd_pending d → ∃ s', dev_complete i (v_s V) = Some s') ∧
  (∀ p c, v_calls V !! p = Some c → p_state (proc_at p (v_s V)) = SLEEPING →
    (p_chan (proc_at p (v_s V)) = Some (Ch_disk (c_buf c)) ∧ b_disk (buf_at (c_buf c) (v_s V)) = true) ∨
    (p_chan (proc_at p (v_s V)) = Some Ch_desc ∧ (length (filter (eq true) (vd_free d)) < 3)%nat)).
Proof. exact (virtio_safe sample_s0 sample_run.1 sample_run.2 sample_runs ltac:(discriminate)). Defined.

