(* ===== verification/Syscall.v ===== *)
(** * The system call table (kernel/syscall.c, kernel/syscall.h) *)

From S2P Require Import Prelude CString Riscv Kalloc Vm Kernel Sched Bytes Uart Printf Console Pipe File Proc Args Sysproc Sysfile.

Definition SYS_fork : Z := 1.
Definition SYS_exit : Z := 2.
Definition SYS_wait : Z := 3.
Definition SYS_pipe : Z := 4.
Definition SYS_read : Z := 5.
Definition SYS_kill : Z := 6.
Definition SYS_exec : Z := 7.
Definition SYS_fstat : Z := 8.
Definition SYS_chdir : Z := 9.
Definition SYS_dup : Z := 10.
Definition SYS_getpid : Z := 11.
Definition SYS_sbrk : Z := 12.
Definition SYS_sleep : Z := 13.
Definition SYS_uptime : Z := 14.
Definition SYS_open : Z := 15.
Definition SYS_write : Z := 16.
Definition SYS_mknod : Z := 17.
Definition SYS_unlink : Z := 18.
Definition SYS_link : Z := 19.
Definition SYS_mkdir : Z := 20.
Definition SYS_close : Z := 21.

Section Syscall.
Context `{Patience} `{Kills} `{Image} `{Garbage}.

(** [syscalls[num]]: entry 0 is null. *)
Definition syscalls : list (option (KM Z)) :=
  [None; Some sys_fork; Some sys_exit; Some sys_wait; Some sys_pipe; Some sys_read; Some sys_kill; Some sys_exec;
   Some sys_fstat; Some sys_chdir; Some sys_dup; Some sys_getpid; Some sys_sbrk; Some sys_sleep; Some sys_uptime;
   Some sys_open; Some sys_write; Some sys_mknod; Some sys_unlink; Some sys_link; Some sys_mkdir; Some sys_close].

Definition R_a7 : nat := R_a 7.

Definition syscall : KM unit :=
  p ← curproc;
  x ← getproc p;
  tf ← gettf (p_trapframe x);
  let num := i32 (tf_reg R_a7 tf) in
  match (if (0 <? num) && (num <? Z.of_nat (length syscalls)) then default None (syscalls !! Z.to_nat num) else None) with
  | Some f =>
      r ← f;
      updtf (p_trapframe x) (set_reg (R_a 0) (u64 r))
  | None =>
      printf (lit "%d %s: unknown sys call %d" ++ [10]) [PInt (p_pid x); PStr (Some (p_name x)); PInt num];;
      updtf (p_trapframe x) (set_reg (R_a 0) (u64 (-1)))
  end.
End Syscall.
