(* ===== verification/Trap.v ===== *)
(** * Traps and interrupts (kernel/trap.c, kernel/plic.c, forkret of kernel/proc.c)

    The control and status registers of the hart are [k_csr].  A return to user
    space ends with what the trampoline is entered with: the address jumped to and
    the page table. *)

From S2P Require Import Prelude CString Riscv Kalloc Vm Kernel Sched Bytes Bio Uart Printf Console Pipe Fs File.
From S2P Require Import Proc Virtio Args Sysproc Sysfile Syscall.

(** ** The PLIC *)

Definition PLIC_SENABLE (hart : Z) : Z := PLIC + 0x2080 + hart * 0x100.
Definition PLIC_SPRIORITY (hart : Z) : Z := PLIC + 0x201000 + hart * 0x2000.

Definition updplic (f : plic_t → plic_t) : KM unit := modify (λ s, s <| k_plic ::= f |>).
Definition plic_store (a v : Z) : KM unit := updplic (λ p, p <| pl_regs ::= <[a := u32 v]> |>).

Definition r_tp : KM Z := gets (λ s, tp (k_csr s)).
Definition cpuid : KM Z := id ← r_tp; mret (i32 id).

Definition plicinit : KM unit :=
  plic_store (PLIC + UART0_IRQ * 4) 1;;
  plic_store (PLIC + VIRTIO0_IRQ * 4) 1.

Definition plicinithart : KM unit :=
  hart ← cpuid;
  plic_store (PLIC_SENABLE hart) (Z.lor (Z.shiftl 1 UART0_IRQ) (Z.shiftl 1 VIRTIO0_IRQ));;
  plic_store (PLIC_SPRIORITY hart) 0.

(** A load from the claim register takes the next pending interrupt, 0 if there is none. *)
Definition plic_claim : KM Z :=
  p ← gets k_plic;
  match pl_pending p with
  | [] => mret 0
  | irq :: rest => updplic (λ p, p <| pl_pending := rest |> <| pl_claimed ::= cons irq |>);; mret irq
  end.

Definition plic_complete (irq : Z) : KM unit :=
  updplic (λ p, p <| pl_claimed ::= filter (λ i, i ≠ irq) |>).

(** ** Control and status registers *)

Definition SSTATUS_SPP : Z := Z.shiftl 1 8.
Definition SSTATUS_SPIE : Z := Z.shiftl 1 5.
Definition SSTATUS_SIE : Z := Z.shiftl 1 1.

Definition updcsr (f : csrs → csrs) : KM unit := modify (λ s, s <| k_csr ::= f |>).
Definition r_csr (f : csrs → Z) : KM Z := gets (λ s, f (k_csr s)).
Definition w_stvec (v : Z) : KM unit := updcsr (λ c, c <| stvec := v |>).
Definition w_sepc (v : Z) : KM unit := updcsr (λ c, c <| sepc := v |>).
Definition w_sstatus (v : Z) : KM unit := updcsr (λ c, c <| sstatus := v |>).
Definition w_sip (v : Z) : KM unit := updcsr (λ c, c <| sip := v |>).
Definition intr_on : KM unit := x ← r_csr sstatus; w_sstatus (Z.lor x SSTATUS_SIE).
Definition intr_off : KM unit := x ← r_csr sstatus; w_sstatus (Z.ldiff x SSTATUS_SIE).
Definition intr_get : KM bool := x ← r_csr sstatus; mret (negb (Z.land x SSTATUS_SIE =? 0)).

Section Trap.
Context `{Patience} `{Kills} `{Image} `{Garbage} `{Virtio_device}.

Definition trapinit : KM unit := initlock L_ticks.
Definition trapinithart : KM unit := w_stvec kernelvec.

(** ** Device interrupts *)

Definition clockintr : KM unit :=
  acquire L_ticks;;
  modify (λ s, s <| k_ticks ::= λ n, u32 (n + 1) |>);;
  wakeup Ch_ticks;;
  release L_ticks.

Definition devintr : KM Z :=
  cause ← r_csr scause;
  if negb (Z.land cause 0x8000000000000000 =? 0) && (Z.land cause 0xff =? 9) then
    irq ← plic_claim;
    (if irq =? UART0_IRQ then uartintr
     else if irq =? VIRTIO0_IRQ then virtio_disk_intr
     else when (negb (irq =? 0)) (printf (lit "unexpected interrupt irq=%d" ++ [10]) [PInt irq]));;
    when (negb (irq =? 0)) (plic_complete irq);;
    mret 1
  else if cause =? 0x8000000000000001 then
    id ← cpuid;
    when (id =? 0) clockintr;;
    x ← r_csr sip;
    w_sip (Z.ldiff x 2);;
    mret 2
  else mret 0.

(** ** Returning to user space *)

Record user_entry : Type := User_entry { ue_pc : Z; ue_satp : Z }.

Definition usertrapret : KM user_entry :=
  p ← curproc;
  intr_off;;
  w_stvec (u64 (TRAMPOLINE + (uservec - trampoline)));;
  x ← getproc p;
  ksatp ← r_csr satp;
  hart ← r_tp;
  updtf (p_trapframe x) (λ tf, tf <| tf_kernel_satp := ksatp |> <| tf_kernel_sp := u64 (p_kstack x + PGSIZE) |>
    <| tf_kernel_trap := usertrap_entry |> <| tf_kernel_hartid := hart |>);;
  st ← r_csr sstatus;
  w_sstatus (Z.lor (Z.ldiff st SSTATUS_SPP) SSTATUS_SPIE);;
  tf ← gettf (p_trapframe x);
  w_sepc (tf_epc tf);;
  mret (User_entry (u64 (TRAMPOLINE + (userret - trampoline))) (MAKE_SATP (p_pagetable x))).

(** ** Traps from user space *)

(** The causes of a trap; the result is [which_dev]. *)
Definition usertrap_cause (p : nat) : KM Z :=
  cause ← r_csr scause;
  if cause =? 8 then
    k ← killed p;
    when k (exit (-1));;
    x ← getproc p;
    updtf (p_trapframe x) (λ tf, tf <| tf_epc ::= λ pc, u64 (pc + 4) |>);;
    intr_on;;
    syscall;;
    mret 0
  else
    which_dev ← devintr;
    if negb (which_dev =? 0) then mret which_dev else
    cause ← r_csr scause;
    x ← getproc p;
    printf (lit "usertrap(): unexpected scause %p pid=%d" ++ [10]) [PPtr cause; PInt (p_pid x)];;
    pc ← r_csr sepc;
    val ← r_csr stval;
    printf (lit "            sepc=%p stval=%p" ++ [10]) [PPtr pc; PPtr val];;
    setkilled p;;
    mret 0.

Definition usertrap : KM user_entry :=
  st ← r_csr sstatus;
  if negb (Z.land st SSTATUS_SPP =? 0) then panic "usertrap: not from user mode" else
  w_stvec kernelvec;;
  p ← curproc;
  x ← getproc p;
  pc ← r_csr sepc;
  updtf (p_trapframe x) (λ tf, tf <| tf_epc := pc |>);;
  which_dev ← usertrap_cause p;
  k ← killed p;
  when k (exit (-1));;
  when (which_dev =? 2) yield;;
  usertrapret.

(** ** Traps from the kernel *)

Definition kerneltrap : KM unit :=
  pc ← r_csr sepc;
  st ← r_csr sstatus;
  cause ← r_csr scause;
  if Z.land st SSTATUS_SPP =? 0 then panic "kerneltrap: not from supervisor mode" else
  on ← intr_get;
  if on : bool then panic "kerneltrap: interrupts enabled" else
  which_dev ← devintr;
  if which_dev =? 0 then
    printf (lit "scause %p" ++ [10]) [PPtr cause];;
    pc ← r_csr sepc;
    val ← r_csr stval;
    printf (lit "sepc=%p stval=%p" ++ [10]) [PPtr pc; PPtr val];;
    panic "kerneltrap"
  else
  p ← myproc;
  when (which_dev =? 2)
    match p with
    | None => mret tt
    | Some i => x ← getproc i; when (bool_decide (p_state x = RUNNING)) yield
    end;;
  w_sepc pc;;
  w_sstatus st.

(** ** The first run of a process *)

Definition forkret : KM user_entry :=
  p ← curproc;
  release (L_proc p);;
  first ← gets k_first;
  when first
    (modify (λ s, s <| k_first := false |>);;
     fsinit ROOTDEV);;
  usertrapret.
End Trap.
