(* ===== verification/Boot.v ===== *)
(** * Booting (kernel/main.c, kernel/start.c, kvminit and kvminithart of kernel/vm.c) *)

From S2P Require Import Prelude CString Riscv Kalloc Vm Kernel Sched Sleeplock Bytes Bio Uart Printf Console.
From S2P Require Import Fs File Proc Virtio Trap.

(** ** Machine mode *)

Record mcsrs : Type := Mcsrs {
  mstatus : Z; mepc : Z; medeleg : Z; mideleg : Z; mie : Z; mtvec : Z; mscratch : Z; pmpaddr0 : Z; pmpcfg0 : Z;
  mhartid : Z; m_sie : Z; m_satp : Z; m_tp : Z;
  mtimecmp : Z;          (* of this hart, in the CLINT *)
  scratch3 : Z;          (* timer_scratch[id][3] *)
  scratch4 : Z;
}.
#[export] Instance eta_mcsrs : Eta mcsrs := λ r,
  Mcsrs (mstatus r) (mepc r) (medeleg r) (mideleg r) (mie r) (mtvec r) (mscratch r) (pmpaddr0 r) (pmpcfg0 r)
    (mhartid r) (m_sie r) (m_satp r) (m_tp r) (mtimecmp r) (scratch3 r) (scratch4 r).

Definition CLINT : Z := 0x2000000.
Definition CLINT_MTIMECMP (hartid : Z) : Z := CLINT + 0x4000 + 8 * hartid.
Definition MSTATUS_MPP_MASK : Z := Z.shiftl 3 11.
Definition MSTATUS_MPP_S : Z := Z.shiftl 1 11.
Definition MSTATUS_MIE : Z := Z.shiftl 1 3.
Definition SIE_SEIE : Z := Z.shiftl 1 9.
Definition SIE_STIE : Z := Z.shiftl 1 5.
Definition SIE_SSIE : Z := Z.shiftl 1 1.
Definition MIE_MTIE : Z := Z.shiftl 1 7.

(** [mtime] is the clock; [timervec] and the address of [timer_scratch] are decided by
    the linker. *)
Definition timerinit (mtime timervec timer_scratch : Z) (m : mcsrs) : mcsrs :=
  let id := i32 (mhartid m) in
  let interval := 1000000 in
  let m := m <| mtimecmp := u64 (mtime + interval) |> in
  let m := m <| scratch3 := CLINT_MTIMECMP id |> <| scratch4 := interval |> in
  let m := m <| mscratch := u64 (timer_scratch + 40 * id) |> in
  let m := m <| mtvec := timervec |> in
  let m := m <| mstatus ::= λ x, Z.lor x MSTATUS_MIE |> in
  m <| mie ::= λ x, Z.lor x MIE_MTIE |>.

(** The registers with which [mret] enters [main]. *)
Definition start (main mtime timervec timer_scratch : Z) (m : mcsrs) : mcsrs :=
  let x := mstatus m in
  let x := Z.ldiff x MSTATUS_MPP_MASK in
  let x := Z.lor x MSTATUS_MPP_S in
  let m := m <| mstatus := x |> <| mepc := main |> <| m_satp := 0 |> in
  let m := m <| medeleg := 0xffff |> <| mideleg := 0xffff |> in
  let m := m <| m_sie ::= λ x, Z.lor (Z.lor (Z.lor x SIE_SEIE) SIE_STIE) SIE_SSIE |> in
  let m := m <| pmpaddr0 := 0x3fffffffffffff |> <| pmpcfg0 := 0xf |> in
  let m := timerinit mtime timervec timer_scratch m in
  m <| m_tp := i32 (mhartid m) |>.

(** ** main *)

Section Main.
Context `{Patience} `{Image} `{Garbage} `{Virtio_device}.

Definition kvminit : KM unit :=
  pt ← in_mem (kvmmake etext trampoline);
  modify (λ s, s <| k_kpagetable := pt |>).

Definition kvminithart : KM unit :=
  pt ← gets k_kpagetable;
  updcsr (λ c, c <| satp := MAKE_SATP pt |>).

(** [main] on the boot hart, up to the call of [scheduler]. *)
Definition main : KM unit :=
  consoleinit;;
  printfinit;;
  printf [10] [];;
  printf (lit "xv6 kernel is booting" ++ [10]) [];;
  printf [10] [];;
  in_mem kinit;;
  kvminit;;
  kvminithart;;
  procinit;;
  trapinit;;
  trapinithart;;
  plicinit;;
  plicinithart;;
  binit;;
  iinit;;
  fileinit;;
  virtio_disk_init;;
  userinit.

(** [main] on the other harts, once [started] is set. *)
Definition main_other : KM unit :=
  id ← cpuid;
  printf (lit "hart %d starting" ++ [10]) [PInt id];;
  kvminithart;;
  trapinithart;;
  plicinithart.
End Main.
