(* ===== verification/Scheduler.v ===== *)
(** * The scheduler (scheduler of kernel/proc.c, swtch.S)

    A kernel thread that has given up the CPU is a resumption: the rest of its run,
    from the state in which it is scheduled again.  [scheduler] chooses runnable
    processes in the order of the table and runs the thread of each until it calls
    [sched].  The user program of a process is a parameter: a function from the state
    in which user space is entered to the state in which the process traps next. *)

From S2P Require Import Prelude CString Riscv Kalloc Vm Kernel Sched Bytes Pipe Fs File Proc Virtio Trap.

Definition thread : Type := kernel → outcome kernel user_entry.

Record system : Type := System {
  sy_kernel : kernel;
  sy_threads : gmap nat thread;   (* where [swtch] continues, for a process that has run *)
}.
#[export] Instance eta_system : Eta system := λ r, System (sy_kernel r) (sy_threads r).

Inductive sys_result (A : Type) : Type :=
  | Sys (a : A) (y : system)
  | Sys_panic (msg : string)
  | Sys_nofuel.
Arguments Sys {A}. Arguments Sys_panic {A}. Arguments Sys_nofuel {A}.

Class User := user_run : user_entry → kernel → kernel.

Section Scheduler.
Context `{Patience} `{Kills} `{Image} `{Garbage} `{Virtio_device} `{User}.

(** Run a thread until it gives up the CPU; each return to user space is followed by the
    next trap. *)
Fixpoint run_until (fuel : nat) (o : outcome kernel user_entry) : option (list lockid * kernel * thread) + string :=
  match o with
  | Block h s k => inl (Some (h, s, k))
  | Panic msg => inr msg
  | NoFuel => inl None
  | Ok e h s =>
      match fuel with
      | O => inl None
      | S fuel => run_until fuel (usertrap [] (user_run e s))
      end
  end.

(** [swtch(&c->context, &p->context)]: where the context of [p] continues. *)
Definition swtch_to (p : nat) (y : system) : outcome kernel user_entry :=
  let s := sy_kernel y in
  match c_ra (p_context (proc_at p s)), sy_threads y !! p with
  | In_sched, Some k => k s
  | In_sched, None => Panic "swtch"
  | In_forkret, _ => forkret [L_proc p] s
  end.

Definition setcur (c : option nat) (s : kernel) : kernel := s <| k_cur := c |>.

(** The body of [for(p = proc; p < &proc[NPROC]; p++)]; the result says whether [p] has
    run. *)
Definition scheduler_body (p : nat) (y : system) : sys_result bool :=
  let s := sy_kernel y in
  if bool_decide (p_state (proc_at p s) = RUNNABLE) then
    let s := s <| k_procs ::= alter (λ x, x <| p_state := RUNNING |>) p |> in
    let s := setcur (Some p) s in
    match run_until patience (swtch_to p (y <| sy_kernel := s |>)) with
    | inr msg => Sys_panic msg
    | inl None => Sys_nofuel
    | inl (Some (h, s, k)) =>
        let s := setcur None s in
        let s := s <| k_procs ::= alter (λ x, x <| p_context ::= λ c, Context In_sched (c_sp c) |>) p |> in
        if bool_decide (h = [L_proc p]) then Sys true (System s (<[p := k]> (sy_threads y)))
        else Sys_panic "release"
    end
  else Sys false y.

(** One pass over the table: the processes that have run, in order. *)
Fixpoint scheduler_pass (ps : list nat) (y : system) : sys_result (list nat) :=
  match ps with
  | [] => Sys [] y
  | p :: ps =>
      match scheduler_body p y with
      | Sys ran y =>
          match scheduler_pass ps y with
          | Sys l y => Sys (if ran : bool then p :: l else l) y
          | r => r
          end
      | Sys_panic msg => Sys_panic msg
      | Sys_nofuel => Sys_nofuel
      end
  end.

(** [for(;;)], for [n] rounds. *)
Fixpoint scheduler (n : nat) (y : system) : sys_result (list nat) :=
  match n with
  | O => Sys [] y
  | S n =>
      match scheduler_pass (seq 0 (Z.to_nat NPROC)) y with
      | Sys l y =>
          match scheduler n y with
          | Sys l' y => Sys (l ++ l') y
          | r => r
          end
      | r => r
      end
  end.
End Scheduler.
