(* ===== verification/ULib.v ===== *)
(** * User programs: system calls and the library (user/ulib.c, user/printf.c, usys.pl)

    A user program is a tree of system calls: each call carries its arguments, with
    buffers and strings by value, and the program continues with the reply, the value
    in register a0 and the bytes that the kernel has stored.  Arrays are lists; a pointer
    into an array is the suffix it points to, as in CString.v. *)

From S2P Require Import Prelude CString.

(** The calls of usys.pl. *)
Inductive call : Type :=
  | Fork | Exit (status : Z) | Wait (status : bool) | Pipe | Read (fd n : Z) | Write (fd : Z) (bs : list Z)
  | Close (fd : Z) | Kill (pid : Z) | Exec (path : list Z) (argv : list (list Z)) | Open (path : list Z) (omode : Z)
  | Mknod (path : list Z) (major minor : Z) | Unlink (path : list Z) | Fstat (fd : Z) | Link (old new : list Z)
  | Mkdir (path : list Z) | Chdir (path : list Z) | Dup (fd : Z) | Getpid | Sbrk (n : Z) | Sleep (n : Z) | Uptime.

Record reply : Type := Reply { a0 : Z; stored : list Z }.

Inductive prog (A : Type) : Type :=
  | Ret (a : A)
  | Call (c : call) (k : reply → prog A)
  | Exited
  | Wild     (* undefined behaviour *)
  | Spin.    (* out of fuel *)
Arguments Ret {A}. Arguments Call {A}. Arguments Exited {A}. Arguments Wild {A}. Arguments Spin {A}.

Fixpoint pbind {A B} (f : A → prog B) (m : prog A) : prog B :=
  match m with
  | Ret a => f a
  | Call c k => Call c (λ r, pbind f (k r))
  | Exited => Exited
  | Wild => Wild
  | Spin => Spin
  end.
#[global] Instance prog_ret : MRet prog := λ A a, Ret a.
#[global] Instance prog_bind : MBind prog := λ A B f m, pbind f m.

Definition sys (c : call) : prog Z := Call c (λ r, Ret (a0 r)).
Definition sys_data (c : call) : prog (Z * list Z) := Call c (λ r, Ret (a0 r, stored r)).
Definition exit {A} (status : Z) : prog A := Call (Exit status) (λ _, Exited).

(** How long the loops may go on that end with a reply of the kernel. *)
Class Rounds := rounds : nat.

(** [_main]: [main] that returns exits. *)
Definition _main (main : prog Z) : prog unit := main;; exit 0.

(** ** ulib.c *)

(** The array [s] after the call. *)
Fixpoint strcpy (s t : list Z) : list Z :=
  match t with
  | [] => 0 :: tail s
  | c :: t => c :: (if c =? 0 then tail s else strcpy (tail s) t)
  end.

Fixpoint strcmp (p q : list Z) : Z :=
  match p with
  | c :: p' => if negb (c =? 0) && (c =? deref q) then strcmp p' (tail q) else u8 c - u8 (deref q)
  | [] => 0 - u8 (deref q)
  end.

Fixpoint strlen_loop (s : list Z) (n : Z) : Z :=
  match s with
  | c :: s => if c =? 0 then n else strlen_loop s (i32 (n + 1))
  | [] => n
  end.
Definition strlen (s : list Z) : Z := u32 (strlen_loop s 0).

Fixpoint memset_array (s : list Z) (c : Z) (n : nat) : list Z :=
  match n with
  | O => s
  | S n => u8 c :: memset_array (tail s) c n
  end.
Definition memset (s : list Z) (c n : Z) : list Z := memset_array s c (Z.to_nat n).

(** The offset of the first [c] before the end of the string. *)
Fixpoint strchr (s : list Z) (c : Z) : option nat :=
  match s with
  | b :: s => if b =? 0 then None else if b =? c then Some 0%nat else S <$> strchr s c
  | [] => None
  end.

(** [for(i=0; i+1 < max; )] with [k = max - 1 - i] iterations left; [buf] holds the [i]
    bytes read so far. *)
Fixpoint gets_loop (k : nat) (buf : list Z) : prog (list Z) :=
  match k with
  | O => Ret buf
  | S k =>
      '(cc, c) ← sys_data (Read 0 1);
      if cc <? 1 then Ret buf else
      let c := deref c in
      if (c =? 10) || (c =? 13) then Ret (buf ++ [c]) else gets_loop k (buf ++ [c])
  end.

(** The array [buf] after the call. *)
Definition gets (buf : list Z) (max : Z) : prog (list Z) :=
  s ← gets_loop (Z.to_nat (max - 1)) [];
  Ret (s ++ 0 :: drop (S (length s)) buf).

(** The bytes of [struct stat] are those that [fstat] has stored. *)
Definition stat (n : list Z) : prog (Z * list Z) :=
  fd ← sys (Open n 0);
  if fd <? 0 then Ret (-1, []) else
  '(r, st) ← sys_data (Fstat fd);
  sys (Close fd);;
  Ret (r, st).

Fixpoint atoi_loop (s : list Z) (n : Z) : Z :=
  match s with
  | c :: s => if (48 <=? c) && (c <=? 57) then atoi_loop s (i32 (n * 10 + c - 48)) else n
  | [] => n
  end.
Definition atoi (s : list Z) : Z := atoi_loop s 0.

(** [memmove] of the user library picks the direction by the addresses alone. *)
Definition memmove (m : mem) (vdst vsrc n : Z) : mem :=
  if vsrc >? vdst then copy_forward m vdst vsrc (Z.to_nat n)
  else copy_backward m (vdst + n) (vsrc + n) (Z.to_nat n).

Fixpoint memcmp (s1 s2 : list Z) (n : nat) : Z :=
  match n with
  | O => 0
  | S n => if negb (deref s1 =? deref s2) then deref s1 - deref s2 else memcmp (tail s1) (tail s2) n
  end.

Definition memcpy (m : mem) (dst src n : Z) : mem := memmove m dst src n.

(** ** printf.c *)

Definition digits : list Z := [48; 49; 50; 51; 52; 53; 54; 55; 56; 57; 65; 66; 67; 68; 69; 70].

Definition putc (fd c : Z) : prog unit := sys (Write fd [u8 c]);; Ret tt.

Fixpoint putcs (fd : Z) (s : list Z) : prog unit :=
  match s with
  | [] => Ret tt
  | c :: s => putc fd c;; putcs fd s
  end.

(** The digits, last one first: [do buf[i++] = digits[x % base]; while((x /= base) != 0);]
    An [int] has at most 32 digits. *)
Fixpoint printint_loop (fuel : nat) (x base : Z) : list Z :=
  match fuel with
  | O => []
  | S fuel =>
      let d := nthZ digits (x mod base) in
      if x / base =? 0 then [d] else d :: printint_loop fuel (x / base) base
  end.

Definition printint (fd xx base : Z) (sgn : bool) : prog unit :=
  let neg := sgn && (xx <? 0) in
  let x := if neg then u32 (- xx) else u32 xx in
  putcs fd (reverse (printint_loop 32 x base ++ if neg then [45] else [])).

Fixpoint printptr_loop (fd : Z) (k : nat) (x : Z) : prog unit :=
  match k with
  | O => Ret tt
  | S k => putc fd (nthZ digits (Z.shiftr x 60));; printptr_loop fd k (u64 (Z.shiftl x 4))
  end.

Definition printptr (fd x : Z) : prog unit :=
  putc fd 48;; putc fd 120;; printptr_loop fd 16 x.

(** Variable arguments as they are passed: in registers of 64 bits, or pointers to
    strings. *)
Inductive vararg : Type := V (x : Z) | VS (s : option (list Z)).

Fixpoint vprintf_loop (fd : Z) (fmt : list Z) (percent : bool) (ap : list vararg) : prog unit :=
  match fmt with
  | [] => Ret tt
  | c :: fmt =>
      if c =? 0 then Ret tt else
      if negb percent then
        if c =? 37 then vprintf_loop fd fmt true ap
        else putc fd c;; vprintf_loop fd fmt false ap
      else if c =? 100 then      (* 'd' *)
        match ap with V x :: ap => printint fd (i32 x) 10 true;; vprintf_loop fd fmt false ap | _ => Wild end
      else if c =? 108 then      (* 'l' *)
        match ap with V x :: ap => printint fd (i32 x) 10 false;; vprintf_loop fd fmt false ap | _ => Wild end
      else if c =? 120 then      (* 'x' *)
        match ap with V x :: ap => printint fd (i32 x) 16 false;; vprintf_loop fd fmt false ap | _ => Wild end
      else if c =? 112 then      (* 'p' *)
        match ap with V x :: ap => printptr fd (u64 x);; vprintf_loop fd fmt false ap | _ => Wild end
      else if c =? 115 then      (* 's' *)
        match ap with
        | VS s :: ap => putcs fd (default [40; 110; 117; 108; 108; 41] (cstring <$> s));; vprintf_loop fd fmt false ap
        | _ => Wild
        end
      else if c =? 99 then       (* 'c' *)
        match ap with V x :: ap => putc fd x;; vprintf_loop fd fmt false ap | _ => Wild end
      else if c =? 37 then putc fd c;; vprintf_loop fd fmt false ap
      else putc fd 37;; putc fd c;; vprintf_loop fd fmt false ap
  end.

Definition vprintf (fd : Z) (fmt : list Z) (ap : list vararg) : prog unit := vprintf_loop fd fmt false ap.
Definition fprintf (fd : Z) (fmt : list Z) (ap : list vararg) : prog unit := vprintf fd fmt ap.
Definition printf (fmt : list Z) (ap : list vararg) : prog unit := vprintf 1 fmt ap.
