(* ===== verification/UEnv.v ===== *)
(** * User programs that read one file

    What a program does when one of its descriptors is a file: a read delivers at least
    one byte unless the file is at its end or nothing is asked for, and at most what is
    asked for; how many, [chunk] decides.  Everything written is recorded. *)

From S2P Require Import Prelude CString ULib.

Inductive ending (A : Type) : Type := Returned (a : A) | Died (status : Z) | Broken.
Arguments Returned {A}. Arguments Died {A}. Arguments Broken {A}.

Section Env.
Context (fd : Z) (chunk : list Z → Z → nat).

Definition deliver (rest : list Z) (n : Z) : nat :=
  if n <=? 0 then 0%nat else Nat.min (Nat.max 1 (chunk rest n)) (Nat.min (Z.to_nat n) (length rest)).

(** How the program ends, what is left of the file, and what has been written. *)
Fixpoint run {A} (p : prog A) (rest : list Z) (out : list (Z * list Z)) : ending A * list Z * list (Z * list Z) :=
  match p with
  | Ret a => (Returned a, rest, out)
  | Exited | Wild | Spin => (Broken, rest, out)
  | Call (Exit status) _ => (Died status, rest, out)
  | Call (Read f n) k =>
      let d := if f =? fd then deliver rest n else 0%nat in
      run (k (Reply (Z.of_nat d) (take d rest))) (drop d rest) out
  | Call (Write f bs) k => run (k (Reply (Z.of_nat (length bs)) [])) rest (out ++ [(f, bs)])
  | Call _ k => run (k (Reply 0 [])) rest out
  end.

Lemma run_bind {A B} (m : prog A) (f : A → prog B) rest out :
  run (m ≫= f) rest out =
    match run m rest out with
    | (Returned a, rest, out) => run (f a) rest out
    | (Died s, rest, out) => (Died s, rest, out)
    | (Broken, rest, out) => (Broken, rest, out)
    end.
Proof.
  unfold mbind, prog_bind. revert rest out. induction m as [a|c k IH| | |]; intros rest out; cbn [pbind run]; try done.
  destruct c; try done; apply IH.
Qed.

Lemma deliver_bounds rest n :
  0 < n → rest ≠ [] → (0 < deliver rest n ≤ length rest)%nat ∧ Z.of_nat (deliver rest n) ≤ n.
Proof.
  intros Hn Hr. unfold deliver. rewrite (proj2 (Z.leb_gt n 0)) by lia.
  assert (length rest ≠ 0%nat) by (by destruct rest). lia.
Qed.

Lemma deliver_end n : deliver [] n = 0%nat.
Proof. unfold deliver. destruct (n <=? 0); [done|]. cbn. lia. Qed.

(** What is printed through [putc]: bytes one by one. *)
Lemma run_putcs f s rest out : Forall (λ c, 0 ≤ c < 256) s →
  run (putcs f s) rest out = (Returned tt, rest, out ++ ((λ c, (f, [c])) <$> s)).
Proof.
  revert out. induction s as [|c s IH]; intros out Hs; cbn [putcs fmap list_fmap]; [by rewrite app_nil_r|].
  apply Forall_cons in Hs as [Hc Hs]. rewrite run_bind. unfold putc. rewrite run_bind. cbn [run sys].
  rewrite IH by done. by rewrite u8_small, <- app_assoc by done.
Qed.
End Env.
