(* ===== verification/Grep.v ===== *)
(** * grep (user/grep.c)

    The matcher and the loop over the input, and their correctness: the matcher decides
    the language of the pattern, and [grep] prints the lines of its input that match,
    however the kernel cuts the input into pieces. *)

From S2P Require Import Prelude CString ULib UEnv.

(** ** The matcher *)

(** matchstar: search for c*re at beginning of text; [here] is [matchhere(re, ...)]. *)
Fixpoint matchstar (here : list Z → bool) (c : Z) (text : list Z) : bool :=
  if here text then true else
  match text with
  | t :: text => if negb (t =? 0) && ((t =? c) || (c =? 46)) then matchstar here c text else false
  | [] => false
  end.

(** matchhere: search for re at beginning of text. *)
Fixpoint matchhere (re text : list Z) : bool :=
  match re with
  | [] => true
  | c :: re1 =>
      if c =? 0 then true else
      match re1 with
      | 42 :: re2 => matchstar (matchhere re2) c text
      | _ =>
          if (c =? 36) && (deref re1 =? 0) then deref text =? 0 else
          if negb (deref text =? 0) && ((c =? 46) || (c =? deref text)) then matchhere re1 (tail text)
          else false
      end
  end.

(** [do ... while( *text++ != '\0');] *)
Fixpoint match_loop (re text : list Z) : bool :=
  if matchhere re text then true else
  match text with
  | t :: text => if negb (t =? 0) then match_loop re text else false
  | [] => false
  end.

Definition match_ (re text : list Z) : bool :=
  if deref re =? 94 then matchhere (tail re) text else match_loop re text.

(** ** The loop *)

Section Grep.
Context {Rnd : Rounds}.

(** [while((q = strchr(p, '\n')) != 0)]: what is left from [p] on.  Every iteration
    consumes a byte of [p], so the length of the buffer is fuel enough. *)
Fixpoint grep_lines (fuel : nat) (pattern p : list Z) : prog (list Z) :=
  match strchr p 10 with
  | None => Ret p
  | Some q =>
      (if match_ pattern (take q p) then sys (Write 1 (take (S q) p));; Ret tt else Ret tt);;
      match fuel with
      | O => Spin
      | S fuel => grep_lines fuel pattern (drop (S q) p)
      end
  end.

Definition sizeof_buf : Z := 1024.

(** [buf] holds the [m] bytes that have not been handled. *)
Fixpoint grep_loop (fuel : nat) (pattern : list Z) (fd : Z) (buf : list Z) : prog unit :=
  let m := Z.of_nat (length buf) in
  '(n, data) ← sys_data (Read fd (sizeof_buf - m - 1));
  if 0 <? n then
    let buf := buf ++ take (Z.to_nat n) data in
    buf ← grep_lines (length buf) pattern buf;
    match fuel with
    | O => Spin
    | S fuel => grep_loop fuel pattern fd buf
    end
  else Ret tt.

Definition grep (pattern : list Z) (fd : Z) : prog unit := grep_loop rounds pattern fd [].

(** [for(i = 2; i < argc; i++)] *)
Fixpoint grep_files (pattern : list Z) (files : list (list Z)) : prog unit :=
  match files with
  | [] => Ret tt
  | f :: files =>
      fd ← sys (Open f 0);
      if fd <? 0 then printf (lit "grep: cannot open %s" ++ [10]) [VS (Some f)];; exit 1 else
      grep pattern fd;;
      sys (Close fd);;
      grep_files pattern files
  end.

Definition grep_main (argv : list (list Z)) : prog Z :=
  match argv with
  | _ :: pattern :: [] => grep pattern 0;; exit 0
  | _ :: pattern :: files => grep_files pattern files;; exit 0
  | _ => fprintf 2 (lit "usage: grep pattern [file ...]" ++ [10]) [];; exit 1
  end.
End Grep.

(** ** What a pattern means *)

Inductive pat : Type :=
  | PAll                         (* end of the pattern: anything may follow *)
  | PEol                         (* [$] at the end of the pattern *)
  | PChar (c : Z) (p : pat)
  | PStar (c : Z) (p : pat).

Fixpoint parse (re : list Z) : pat :=
  match re with
  | [] => PAll
  | c :: re1 =>
      match re1 with
      | 42 :: re2 => PStar c (parse re2)
      | [] => if c =? 36 then PEol else PChar c PAll
      | _ => PChar c (parse re1)
      end
  end.

(** A character of the pattern stands for itself, a dot for any character. *)
Definition stands_for (c t : Z) : Prop := c = 46 ∨ c = t.

(** The texts that have a match at their beginning. *)
Fixpoint lang (p : pat) (text : list Z) : Prop :=
  match p with
  | PAll => True
  | PEol => text = []
  | PChar c p => ∃ t v, text = t :: v ∧ stands_for c t ∧ lang p v
  | PStar c p => ∃ u v, text = u ++ v ∧ Forall (stands_for c) u ∧ lang p v
  end.

(** The lines that contain a match; with [^] in front, that begin with one. *)
Definition selects (re line : list Z) : Prop :=
  if deref re =? 94 then lang (parse (tail re)) line else ∃ u v, line = u ++ v ∧ lang (parse re) v.

(** C strings have no NUL inside. *)
Abbreviation text_ok s := (Forall (λ c : Z, c ≠ 0) s).

(** ** The matcher decides the language *)

Lemma star_cases {A} (d : Z) (x y : A) : (match d with 42 => x | _ => y end) = if d =? 42 then x else y.
Proof. destruct d as [|p|p]; try done. do 6 (destruct p as [p|p|]; try done). Qed.

Lemma matchhere_cons c re text :
  matchhere (c :: re) text =
    if c =? 0 then true else
    if deref re =? 42 then matchstar (matchhere (tail re)) c text else
    if (c =? 36) && (deref re =? 0) then deref text =? 0 else
    if negb (deref text =? 0) && ((c =? 46) || (c =? deref text)) then matchhere re (tail text) else false.
Proof. cbn [matchhere]. destruct re as [|d re2]; [done|]. rewrite star_cases. unfold deref. cbn. by destruct (d =? 42). Qed.

Lemma parse_cons c re :
  parse (c :: re) =
    if deref re =? 42 then PStar c (parse (tail re)) else
    match re with [] => if c =? 36 then PEol else PChar c PAll | _ => PChar c (parse re) end.
Proof. cbn [parse]. destruct re as [|d re2]; [done|]. rewrite star_cases. unfold deref. cbn. by destruct (d =? 42). Qed.

Lemma matchstar_spec here (P : list Z → Prop) c text :
  (∀ t, text_ok t → here t = true ↔ P t) → text_ok text →
  matchstar here c text = true ↔ ∃ u v, text = u ++ v ∧ Forall (stands_for c) u ∧ P v.
Proof.
  intros HP. induction text as [|t text IH]; intros Ht; cbn [matchstar].
  - destruct (here []) eqn:E.
    + split; [|done]. intros _. exists [], []. split_and!; [done|constructor|]. by apply HP.
    + split; [done|]. intros (u & v & Huv & _ & Hv). symmetry in Huv. apply app_nil in Huv as [-> ->].
      apply HP in Hv; [congruence|constructor].
  - pose proof Ht as Ht'. apply Forall_cons in Ht' as [H0 Htx]. destruct (here (t :: text)) eqn:E.
    + split; [|done]. intros _. exists [], (t :: text). split_and!; [done|constructor|]. by apply HP.
    + rewrite (proj2 (Z.eqb_neq t 0)) by done. cbn [negb andb].
      assert (((t =? c) || (c =? 46)) = true ↔ stands_for c t) as Hsf.
      { unfold stands_for. rewrite orb_true_iff, !Z.eqb_eq. naive_solver. }
      destruct ((t =? c) || (c =? 46)).
      * rewrite (IH Htx). split.
        -- intros (u & v & -> & Hu & Hv). exists (t :: u), v. split_and!; [done|constructor; [by apply Hsf|done]|done].
        -- intros ([|t' u] & v & Huv & Hu & Hv).
           ++ cbn in Huv. subst v. apply HP in Hv; [congruence|done].
           ++ injection Huv as <- ->. apply Forall_cons in Hu as [_ Hu]. by exists u, v.
      * split; [done|]. intros ([|t' u] & v & Huv & Hu & Hv).
        -- cbn in Huv. subst v. apply HP in Hv; [congruence|done].
        -- injection Huv as <- ->. apply Forall_cons in Hu as [Ht1 _]. by apply Hsf in Ht1.
Qed.

Lemma deref_nonzero s : text_ok s → (deref s =? 0) = bool_decide (s = []).
Proof. intros H. destruct s as [|c s]; [done|]. apply Forall_cons in H as [Hc _]. unfold deref. cbn. by rewrite (proj2 (Z.eqb_neq c 0)). Qed.

Lemma matchhere_spec re : ∀ text, text_ok re → text_ok text → matchhere re text = true ↔ lang (parse re) text.
Proof.
  induction re as [re IH] using (induction_ltof1 _ (@length Z)). unfold ltof in IH. intros text Hre Ht.
  destruct re as [|c re]; [done|]. rewrite matchhere_cons, parse_cons. apply Forall_cons in Hre as [Hc Hre].
  rewrite (proj2 (Z.eqb_neq c 0)) by done. destruct (deref re =? 42).
  - assert (text_ok (tail re)) as Htl by (destruct re; [done|by apply Forall_cons in Hre as [_ ?]]).
    cbn [lang]. apply matchstar_spec; [|done]. intros t Hok. apply IH; [|done..]. destruct re; cbn; lia.
  - rewrite (deref_nonzero re Hre).
    assert (lang (PChar c (parse re)) text ↔
      (if negb (deref text =? 0) && ((c =? 46) || (c =? deref text)) then matchhere re (tail text) else false) = true) as Hchar.
    { cbn [lang]. destruct text as [|t text].
      - cbn. split; [|done]. by intros (t & v & [=] & _).
      - apply Forall_cons in Ht as [H0 Ht]. unfold deref. cbn [head default from_option id tail].
        rewrite (proj2 (Z.eqb_neq t 0)) by done. cbn [negb andb].
        assert (((c =? 46) || (c =? t)) = true ↔ stands_for c t) as Hsf by (unfold stands_for; rewrite orb_true_iff, !Z.eqb_eq; done).
        destruct ((c =? 46) || (c =? t)).
        + rewrite (IH re) by (cbn; lia || done). split; [by intros (? & ? & [= <- <-] & _ & ?)|].
          intros Hl. exists t, text. split_and!; [done|by apply Hsf|done].
        + split; [|done]. intros (? & ? & [= <- <-] & Hs & _). by apply Hsf in Hs. }
    destruct (decide (re = [])) as [->|Hne].
    + rewrite bool_decide_true, andb_true_r by done. destruct (c =? 36); [|by rewrite <- Hchar].
      cbn [lang]. rewrite (deref_nonzero text Ht). apply bool_decide_eq_true.
    + rewrite (bool_decide_false (re = [])), andb_false_r by done. rewrite <- Hchar. by destruct re.
Qed.

Lemma match_loop_spec re text :
  text_ok re → text_ok text → match_loop re text = true ↔ ∃ u v, text = u ++ v ∧ lang (parse re) v.
Proof.
  intros Hre. induction text as [|t text IH]; intros Ht; cbn [match_loop].
  - destruct (matchhere re []) eqn:E.
    + split; [|done]. intros _. exists [], []. split; [done|]. by apply matchhere_spec.
    + split; [done|]. intros (u & v & Huv & Hv). symmetry in Huv. apply app_nil in Huv as [-> ->].
      apply matchhere_spec in Hv; [congruence|done..].
  - pose proof Ht as Ht'. apply Forall_cons in Ht' as [H0 Htx]. destruct (matchhere re (t :: text)) eqn:E.
    + split; [|done]. intros _. exists [], (t :: text). split; [done|]. by apply matchhere_spec.
    + rewrite (proj2 (Z.eqb_neq t 0)) by done. cbn [negb]. rewrite (IH Htx). split.
      * intros (u & v & -> & Hv). by exists (t :: u), v.
      * intros ([|t' u] & v & Huv & Hv); [|injection Huv as <- ->; by exists u, v].
        cbn in Huv. subst v. apply matchhere_spec in Hv; [congruence|done..].
Qed.

(** C17: the matcher of [grep] decides the language of its patterns: characters, dots,
    stars, and the anchors [^] and [$], for every pattern and line. *)
Theorem match_correct re line : text_ok re → text_ok line → match_ re line = true ↔ selects re line.
Proof.
  intros Hre Hl. unfold match_, selects. destruct (deref re =? 94); [|by apply match_loop_spec].
  apply matchhere_spec; [|done]. destruct re; [done|by apply Forall_cons in Hre as [_ ?]].
Qed.

Lemma match_correct_witness : match_ (lit "^a.*c$") (lit "abbc") = true ∧ selects (lit "^a.*c$") (lit "abbc").
Proof.
  assert (match_ (lit "^a.*c$") (lit "abbc") = true) as E by reflexivity. split; [exact E|].
  apply (match_correct (lit "^a.*c$") (lit "abbc")); [repeat constructor; discriminate..|exact E].
Defined.

(** ** The loop over the input *)

(** The complete lines of a text and what follows the last newline. *)
Fixpoint split_nl (s : list Z) : list (list Z) * list Z :=
  match s with
  | [] => ([], [])
  | c :: s =>
      let '(ls, tl) := split_nl s in
      if c =? 10 then ([] :: ls, tl)
      else match ls with
           | [] => ([], c :: tl)
           | l :: ls => ((c :: l) :: ls, tl)
           end
  end.

Lemma split_nl_none b : 10 ∉ b → split_nl b = ([], b).
Proof.
  induction b as [|c b IH]; cbn; [done|]. intros [Hc Hb]%not_elem_of_cons. rewrite IH by done.
  by rewrite (proj2 (Z.eqb_neq c 10)) by done.
Qed.

Lemma split_nl_line l s : 10 ∉ l → split_nl (l ++ 10 :: s) = (l :: (split_nl s).1, (split_nl s).2).
Proof.
  induction l as [|c l IH]; cbn [app split_nl].
  - intros _. by destruct (split_nl s).
  - intros [Hc Hl]%not_elem_of_cons. rewrite IH by done. by rewrite (proj2 (Z.eqb_neq c 10)) by done.
Qed.

(** A text is without newline or begins with a line. *)
Lemma first_line s : (10 ∉ s) ∨ ∃ l s', s = l ++ 10 :: s' ∧ 10 ∉ l.
Proof.
  induction s as [|c s IH]; [left; apply not_elem_of_nil|]. destruct (decide (c = 10)) as [->|Hc].
  - right. exists [], s. split; [done|apply not_elem_of_nil].
  - destruct IH as [H|(l & s' & -> & Hl)].
    + left. by apply not_elem_of_cons.
    + right. exists (c :: l), s'. split; [done|]. by apply not_elem_of_cons.
Qed.

(** Splitting a text piecewise. *)
Lemma split_nl_app s r :
  split_nl (s ++ r) = ((split_nl s).1 ++ (split_nl ((split_nl s).2 ++ r)).1, (split_nl ((split_nl s).2 ++ r)).2) ∧ 10 ∉ (split_nl s).2.
Proof.
  induction s as [s IH] using (induction_ltof1 _ (@length Z)). unfold ltof in IH.
  destruct (first_line s) as [Hs|(l & s' & -> & Hl)].
  - rewrite (split_nl_none s Hs). cbn. by destruct (split_nl (s ++ r)).
  - destruct (IH s') as [E Hn]; [rewrite length_app; cbn; lia|].
    rewrite <- app_assoc, <- app_comm_cons, !split_nl_line by done. cbn [fst snd]. split; [|done]. by rewrite E.
Qed.

Lemma split_nl_ok s : text_ok s → text_ok (split_nl s).2.
Proof.
  induction s as [s IH] using (induction_ltof1 _ (@length Z)). unfold ltof in IH. intros Hs.
  destruct (first_line s) as [Hn|(l & s' & -> & Hl)]; [by rewrite split_nl_none|]. rewrite split_nl_line by done.
  apply IH; [rewrite length_app; cbn; lia|]. apply Forall_app in Hs as [_ Hs]. by apply Forall_cons in Hs as [_ ?].
Qed.

Lemma strchr_none s : text_ok s → 10 ∉ s → strchr s 10 = None.
Proof.
  induction s as [|c s IH]; cbn; [done|]. intros [Hc Hs]%Forall_cons [H1 H2]%not_elem_of_cons.
  rewrite (proj2 (Z.eqb_neq c 0)), (proj2 (Z.eqb_neq c 10)) by done. by rewrite IH.
Qed.

Lemma strchr_line l s : text_ok l → 10 ∉ l → strchr (l ++ 10 :: s) 10 = Some (length l).
Proof.
  induction l as [|c l IH]; cbn; [done|]. intros [Hc Hl]%Forall_cons [H1 H2]%not_elem_of_cons.
  rewrite (proj2 (Z.eqb_neq c 0)), (proj2 (Z.eqb_neq c 10)) by done. by rewrite IH.
Qed.

(** What [grep] writes for the lines [ls]. *)
Definition printed (re : list Z) (ls : list (list Z)) : list (Z * list Z) :=
  (λ l, (1, l ++ [10])) <$> filter (λ l, match_ re l = true) ls.

Lemma printed_app re ls ls' : printed re (ls ++ ls') = printed re ls ++ printed re ls'.
Proof. unfold printed. by rewrite filter_app, fmap_app. Qed.

Section Loop.
Context {Rnd : Rounds} (fd : Z) (chunk : list Z → Z → nat) (re : list Z).

Lemma grep_lines_run fuel : ∀ s rest out, (length s ≤ fuel)%nat → text_ok s →
  run fd chunk (grep_lines fuel re s) rest out = (Returned (split_nl s).2, rest, out ++ printed re (split_nl s).1).
Proof.
  induction fuel as [|fuel IH]; intros s rest out Hf Hs; destruct (first_line s) as [Hn|(l & s' & -> & Hl)].
  1,3: cbn [grep_lines]; rewrite (strchr_none s Hs Hn), (split_nl_none s Hn); cbn; by rewrite app_nil_r.
  { rewrite length_app in Hf. cbn in Hf. lia. }
  apply Forall_app in Hs as [Hl0 Hs]. apply Forall_cons in Hs as [_ Hs]. rewrite length_app in Hf. cbn [length] in Hf.
  cbn [grep_lines]. rewrite strchr_line by done. rewrite run_bind, take_app_length.
  assert (take (S (length l)) (l ++ 10 :: s') = l ++ [10] ∧ drop (S (length l)) (l ++ 10 :: s') = s') as [-> ->].
  { rewrite cons_middle, app_assoc. split; [apply take_app_length'|apply drop_app_length']; rewrite length_app; cbn; lia. }
  rewrite split_nl_line by done. cbn [fst snd].
  change (l :: (split_nl s').1) with ([l] ++ (split_nl s').1). rewrite printed_app.
  unfold printed at 1. rewrite filter_cons, filter_nil. destruct (match_ re l) eqn:Em.
  - rewrite decide_True by done. cbn. rewrite IH by (done || lia). by rewrite <- app_assoc.
  - rewrite decide_False by done. cbn. by rewrite IH by (done || lia).
Qed.
(** No line fills the buffer. *)
Definition short_lines (s : list Z) : Prop :=
  Forall (λ l, Z.of_nat (length l) < sizeof_buf - 1) ((split_nl s).1 ++ [(split_nl s).2]).

Lemma short_tail s : short_lines s → Z.of_nat (length (split_nl s).2) < sizeof_buf - 1.
Proof. intros H. apply Forall_app in H as [_ H]. by inversion H. Qed.

(** The bytes in the buffer begin a line of the input. *)
Lemma short_buffer b r : 10 ∉ b → short_lines (b ++ r) → Z.of_nat (length b) < sizeof_buf - 1.
Proof.
  intros Hb H. destruct (first_line r) as [Hr|(l & r' & -> & Hl)].
  - apply short_tail in H. rewrite split_nl_none in H by set_solver. cbn in H. rewrite length_app in H. lia.
  - unfold short_lines in H. rewrite app_assoc, split_nl_line in H by set_solver. cbn in H.
    apply Forall_cons in H as [H _]. rewrite length_app in H. lia.
Qed.

Lemma short_rest s r : short_lines (s ++ r) → short_lines ((split_nl s).2 ++ r).
Proof.
  unfold short_lines. destruct (split_nl_app s r) as [-> _]. cbn [fst snd]. rewrite <- app_assoc, Forall_app. by intros [_ ?].
Qed.

Lemma grep_loop_run fuel : ∀ b r out, (length r ≤ fuel)%nat → 10 ∉ b → text_ok (b ++ r) → short_lines (b ++ r) →
  run fd chunk (grep_loop fuel re fd b) r out = (Returned tt, [], out ++ printed re (split_nl (b ++ r)).1).
Proof.
  induction fuel as [|fuel IH]; intros b r out Hf Hb Hok Hs; cbn [grep_loop]; rewrite run_bind; cbn [run sys_data]; rewrite Z.eqb_refl.
  - destruct r; [|cbn in Hf; lia]. rewrite deliver_end. change (0 <? _) with false. cbn iota. rewrite app_nil_r, split_nl_none by done. cbn. by rewrite app_nil_r.
  - pose proof (short_buffer b r Hb Hs) as Hlb. destruct (decide (r = [])) as [->|Hr].
    { rewrite deliver_end. change (0 <? _) with false. cbn iota. rewrite app_nil_r, split_nl_none by done. cbn. by rewrite app_nil_r. }
    destruct (deliver_bounds chunk r (sizeof_buf - Z.of_nat (length b) - 1)) as [[Hd1 Hd2] _]; [lia|done|].
    set (d := deliver chunk r _) in *. cbn [a0 stored]. rewrite (proj2 (Z.ltb_lt 0 _)) by lia.
    rewrite Nat2Z.id, (take_take r), Nat.min_id, run_bind.
    rewrite <- (take_drop d r) in Hok, Hs at 1. rewrite app_assoc in Hok, Hs. pose proof Hok as Hok'. apply Forall_app in Hok' as [Hok1 Hok2].
    rewrite grep_lines_run by done. destruct (split_nl_app (b ++ take d r) (drop d r)) as [E Hn].
    rewrite IH.
    + rewrite <- app_assoc, <- printed_app. rewrite <- app_assoc, take_drop in E. by rewrite E.
    + rewrite length_drop. lia.
    + done.
    + apply Forall_app. split; [by apply split_nl_ok|done].
    + by apply short_rest.
Qed.

End Loop.

(** C18: on an input of text, without NUL bytes and without a line that fills its buffer,
    [grep] writes exactly the lines that match the pattern, in order and each in one
    piece, and it terminates, however the kernel cuts the input into pieces; characters
    after the last newline are ignored. *)
Theorem grep_correct {Rnd : Rounds} fd chunk pattern input :
  text_ok input → short_lines input → (length input ≤ rounds)%nat →
  run fd chunk (grep pattern fd) input [] = (Returned tt, [], printed pattern (split_nl input).1).
Proof.
  intros Hok Hs Hr. unfold grep. rewrite (grep_loop_run fd chunk pattern rounds [] input []); [done|done|apply not_elem_of_nil|done..].
Qed.

Lemma grep_correct_witness :
  run 3 (λ _ _, 2%nat) (grep (Rnd := 100%nat) (lit "b*$") 3) (lit "xb" ++ 10 :: lit "bx" ++ 10 :: lit "b") [] =
  (Returned tt, [], printed (lit "b*$") [lit "xb"; lit "bx"]).
Proof.
  apply (grep_correct (Rnd := 100%nat) 3 (λ _ _, 2%nat) (lit "b*$") (lit "xb" ++ 10 :: lit "bx" ++ 10 :: lit "b")).
  - repeat constructor; discriminate.
  - unfold short_lines. vm_compute. repeat constructor.
  - vm_compute. lia.
Defined.

(** A line that fills the buffer ends the search without a message: the line after it
    matches and is not printed. *)
Lemma grep_stops_at_long_line :
  run 3 (λ _ n, Z.to_nat n) (grep (Rnd := 10%nat) (lit "b") 3) (replicate 1023 97 ++ 10 :: lit "b" ++ [10]) [] =
    (Returned tt, 10 :: lit "b" ++ [10], []) ∧
  match_ (lit "b") (lit "b") = true.
Proof. by vm_compute. Qed.

(** A NUL byte hides the lines after it in the buffer, for [strchr] takes it for the end:
    the line after it matches and is not printed. *)
Lemma grep_stops_at_nul :
  run 3 (λ _ n, Z.to_nat n) (grep (Rnd := 10%nat) (lit "b") 3) (0 :: 10 :: lit "b" ++ [10]) [] =
    (Returned tt, [], []) ∧
  match_ (lit "b") (lit "b") = true.
Proof. by vm_compute. Qed.
