(* ===== verification/UProgs.v ===== *)
(** * Small user programs (user/*.c)

    The programs of the first disk image that consist of a few system calls: cat, wc,
    echo, ln, rm, mkdir, kill, ls, init, zombie, forktest, stressfs, sleep and find. *)

From S2P Require Import Prelude CString Bytes Kernel Fs ULib.

Definition line (s : string) : list Z := lit s ++ [10].

Section Programs.
Context {Rnd : Rounds}.

(** ** cat.c *)

Fixpoint cat_loop (fuel : nat) (fd : Z) : prog unit :=
  '(n, buf) ← sys_data (Read fd 512);
  if 0 <? n then
    r ← sys (Write 1 (take (Z.to_nat n) buf));
    if negb (r =? n) then fprintf 2 (line "cat: write error") [];; exit 1 else
    match fuel with
    | O => Spin
    | S fuel => cat_loop fuel fd
    end
  else if n <? 0 then fprintf 2 (line "cat: read error") [];; exit 1
  else Ret tt.

Definition cat (fd : Z) : prog unit := cat_loop rounds fd.

(** The loop of [main] over the files that cat and wc share: open, work, close. *)
Fixpoint each_file (cannot_open : list Z → prog unit) (work : Z → list Z → prog unit) (files : list (list Z)) : prog unit :=
  match files with
  | [] => Ret tt
  | f :: files =>
      fd ← sys (Open f 0);
      if fd <? 0 then cannot_open f;; exit 1 else
      work fd f;;
      sys (Close fd);;
      each_file cannot_open work files
  end.

Definition cat_main (argv : list (list Z)) : prog Z :=
  match argv with
  | _ :: ((_ :: _) as files) =>
      each_file (λ f, fprintf 2 (line "cat: cannot open %s") [VS (Some f)]) (λ fd _, cat fd) files;; exit 0
  | _ => cat 0;; exit 0
  end.

(** ** wc.c *)

Definition wc_spaces : list Z := [32; 13; 9; 10; 11].

(** The body of [for(i=0; i<n; i++)]: lines, words, characters and [inword]. *)
Definition wc_char (st : Z * Z * Z * bool) (b : Z) : Z * Z * Z * bool :=
  let '(l, w, c, inword) := st in
  let c := i32 (c + 1) in
  let l := if b =? 10 then i32 (l + 1) else l in
  match strchr wc_spaces b with
  | Some _ => (l, w, c, false)
  | None => if inword then (l, w, c, inword) else (l, i32 (w + 1), c, true)
  end.

Fixpoint wc_loop (fuel : nat) (fd : Z) (st : Z * Z * Z * bool) : prog (Z * (Z * Z * Z * bool)) :=
  '(n, buf) ← sys_data (Read fd 512);
  if 0 <? n then
    let st := foldl wc_char st (take (Z.to_nat n) buf) in
    match fuel with
    | O => Spin
    | S fuel => wc_loop fuel fd st
    end
  else Ret (n, st).

Definition wc (fd : Z) (name : list Z) : prog unit :=
  '(n, (l, w, c, _)) ← wc_loop rounds fd (0, 0, 0, false);
  if n <? 0 then printf (line "wc: read error") [];; exit 1 else
  printf (line "%d %d %d %s") [V l; V w; V c; VS (Some name)].

Definition wc_main (argv : list (list Z)) : prog Z :=
  match argv with
  | _ :: ((_ :: _) as files) =>
      each_file (λ f, printf (line "wc: cannot open %s") [VS (Some f)]) wc files;; exit 0
  | _ => wc 0 [];; exit 0
  end.

(** ** echo.c *)

Fixpoint echo_loop (args : list (list Z)) : prog unit :=
  match args with
  | [] => Ret tt
  | a :: args =>
      sys (Write 1 (cstring a));;
      (match args with [] => sys (Write 1 [10]) | _ => sys (Write 1 [32]) end);;
      echo_loop args
  end.
Definition echo_main (argv : list (list Z)) : prog Z := echo_loop (tail argv);; exit 0.

(** ** ln.c, rm.c, mkdir.c, kill.c *)

Definition ln_main (argv : list (list Z)) : prog Z :=
  match argv with
  | [_; old; new] =>
      r ← sys (Link old new);
      (if r <? 0 then fprintf 2 (line "link %s %s: failed") [VS (Some old); VS (Some new)] else Ret tt);;
      exit 0
  | _ => fprintf 2 (line "Usage: ln old new") [];; exit 1
  end.

Fixpoint rm_loop (files : list (list Z)) : prog unit :=
  match files with
  | [] => Ret tt
  | f :: files =>
      r ← sys (Unlink f);
      if r <? 0 then fprintf 2 (line "rm: %s failed to delete") [VS (Some f)] else rm_loop files
  end.
Definition rm_main (argv : list (list Z)) : prog Z :=
  match argv with
  | _ :: ((_ :: _) as files) => rm_loop files;; exit 0
  | _ => fprintf 2 (line "Usage: rm files...") [];; exit 1
  end.

Fixpoint mkdir_loop (files : list (list Z)) : prog unit :=
  match files with
  | [] => Ret tt
  | f :: files =>
      r ← sys (Mkdir f);
      if r <? 0 then fprintf 2 (line "mkdir: %s failed to create") [VS (Some f)] else mkdir_loop files
  end.
Definition mkdir_main (argv : list (list Z)) : prog Z :=
  match argv with
  | _ :: ((_ :: _) as files) => mkdir_loop files;; exit 0
  | _ => fprintf 2 (line "Usage: mkdir files...") [];; exit 1
  end.

Fixpoint kill_all (pids : list (list Z)) : prog unit :=
  match pids with
  | [] => Ret tt
  | p :: pids => sys (Kill (atoi p));; kill_all pids
  end.
Definition kill_main (argv : list (list Z)) : prog Z :=
  match argv with
  | _ :: ((_ :: _) as pids) => kill_all pids;; exit 0
  | _ => fprintf 2 (line "usage: kill pid...") [];; exit 1
  end.

(** ** init.c *)

(** [for(;;) wpid = wait(0) ...]: until the shell exits. *)
Fixpoint init_wait (fuel : nat) (pid : Z) : prog unit :=
  wpid ← sys (Wait false);
  if wpid =? pid then Ret tt
  else if wpid <? 0 then printf (line "init: wait returned an error") [];; exit 1
  else match fuel with
       | O => Spin
       | S fuel => init_wait fuel pid
       end.

Fixpoint init_loop (fuel : nat) : prog unit :=
  printf (line "init: starting sh") [];;
  pid ← sys Fork;
  if pid <? 0 then printf (line "init: fork failed") [];; exit 1 else
  (if pid =? 0 then
     sys (Exec (lit "sh") [lit "sh"]);;
     printf (line "init: exec sh failed") [];; exit 1
   else init_wait rounds pid);;
  match fuel with
  | O => Spin
  | S fuel => init_loop fuel
  end.

Definition O_RDWR : Z := 2.
Definition CONSOLE : Z := 1.

Definition init_main : prog Z :=
  r ← sys (Open (lit "console") O_RDWR);
  (if r <? 0 then sys (Mknod (lit "console") CONSOLE 0);; sys (Open (lit "console") O_RDWR);; Ret tt else Ret tt);;
  sys (Dup 0);;
  sys (Dup 0);;
  init_loop rounds;;
  Ret 0.

(** ** ls.c *)

(** [for(p=path+strlen(path); p >= path && *p != '/'; p--); p++;] from offset [i]. *)
Fixpoint fmtname_loop (path : list Z) (i : nat) : nat :=
  if nth i path 0 =? 47 then S i else
  match i with
  | O => O
  | S i => fmtname_loop path i
  end.

(** [buf] is static; the last of its 15 bytes is never written and stays 0. *)
Definition fmtname (path : list Z) : list Z :=
  let path := cstring path in
  let p := drop (fmtname_loop path (length path)) path in
  if DIRSIZ <=? strlen p then p
  else p ++ memset_array (replicate (Z.to_nat DIRSIZ - length p) 0) 32 (Z.to_nat DIRSIZ - length p).

(** The fields of [struct stat] in the bytes that the kernel stores. *)
Definition stat_ino (st : list Z) : Z := get 4 4 st.
Definition stat_type (st : list Z) : Z := i16 (get 2 8 st).
Definition stat_size (st : list Z) : Z := get 8 16 st.

Fixpoint ls_loop (fuel : nat) (fd : Z) (path : list Z) : prog unit :=
  '(n, de) ← sys_data (Read fd 16);
  if negb (n =? 16) then Ret tt else
  let next := match fuel with O => Spin | S fuel => ls_loop fuel fd path end in
  if get 2 0 de =? 0 then next else
  let buf := cstring (cstring path ++ 47 :: take (Z.to_nat DIRSIZ) (drop 2 de)) in
  '(r, st) ← stat buf;
  if r <? 0 then printf (line "ls: cannot stat %s") [VS (Some buf)];; next else
  printf (line "%s %d %d %d") [VS (Some (fmtname buf)); V (stat_type st); V (stat_ino st); V (stat_size st)];;
  next.

Definition ls (path : list Z) : prog unit :=
  fd ← sys (Open path 0);
  if fd <? 0 then fprintf 2 (line "ls: cannot open %s") [VS (Some path)] else
  '(r, st) ← sys_data (Fstat fd);
  if r <? 0 then fprintf 2 (line "ls: cannot stat %s") [VS (Some path)];; sys (Close fd);; Ret tt else
  (if (stat_type st =? T_DEVICE) || (stat_type st =? T_FILE) then
     printf (line "%s %d %d %l") [VS (Some (fmtname path)); V (stat_type st); V (stat_ino st); V (stat_size st)]
   else if stat_type st =? T_DIR then
     if 512 <? u32 (strlen path + 1 + DIRSIZ + 1) then printf (line "ls: path too long") []
     else ls_loop rounds fd path
   else Ret tt);;
  sys (Close fd);;
  Ret tt.

Fixpoint ls_all (paths : list (list Z)) : prog unit :=
  match paths with
  | [] => Ret tt
  | p :: paths => ls p;; ls_all paths
  end.
Definition ls_main (argv : list (list Z)) : prog Z :=
  match argv with
  | _ :: ((_ :: _) as paths) => ls_all paths;; exit 0
  | _ => ls (lit ".");; exit 0
  end.

(** ** forktest.c *)

Definition print (s : list Z) : prog unit := sys (Write 1 s);; Ret tt.

(** [for(n=0; n<N; n++)] with [k = N - n] iterations left. *)
Fixpoint fork_loop (k : nat) (n : Z) : prog Z :=
  match k with
  | O => Ret n
  | S k =>
      pid ← sys Fork;
      if pid <? 0 then Ret n
      else if pid =? 0 then exit 0
      else fork_loop k (n + 1)
  end.

(** [for(; n > 0; n--)]. *)
Fixpoint wait_loop (n : nat) : prog unit :=
  match n with
  | O => Ret tt
  | S n =>
      r ← sys (Wait false);
      if r <? 0 then print (line "wait stopped early");; exit 1 else wait_loop n
  end.

Definition forktest : prog unit :=
  print (line "fork test");;
  n ← fork_loop 1000 0;
  if n =? 1000 then print (line "fork claimed to work N times!");; exit 1 else
  wait_loop (Z.to_nat n);;
  r ← sys (Wait false);
  if negb (r =? -1) then print (line "wait got too many");; exit 1 else
  print (line "fork test OK").

Definition forktest_main : prog Z := forktest;; exit 0.

(** ** stressfs.c *)

Fixpoint stressfs_fork (k : nat) (i : Z) : prog Z :=
  match k with
  | O => Ret i
  | S k =>
      pid ← sys Fork;
      if 0 <? pid then Ret i else stressfs_fork k (i + 1)
  end.

Fixpoint times (k : nat) (c : call) : prog unit :=
  match k with
  | O => Ret tt
  | S k => sys c;; times k c
  end.

Definition stressfs_main : prog Z :=
  printf (line "stressfs starting") [];;
  let data := memset_array (replicate 512 0) 97 512 in
  i ← stressfs_fork 4 0;
  printf (line "write %d") [V i];;
  let path := lit "stressfs" ++ [48 + i] in
  fd ← sys (Open path 514);      (* O_CREATE | O_RDWR *)
  times 20 (Write fd data);;
  sys (Close fd);;
  printf (line "read") [];;
  fd ← sys (Open path 0);        (* O_RDONLY *)
  times 20 (Read fd 512);;
  sys (Close fd);;
  sys (Wait false);;
  exit 0.

(** ** zombie.c, sleep.c, find.c *)

Definition zombie_main : prog Z :=
  pid ← sys Fork;
  (if 0 <? pid then sys (Sleep 5);; Ret tt else Ret tt);;
  exit 0.

(** Both are stubs: the lab leaves their code to be written. *)
Definition sleep_main (argv : list (list Z)) : prog Z := exit 0.
Definition find_main (argv : list (list Z)) : prog Z := exit 0.
End Programs.
