(* ===== verification/UProgsProps.v ===== *)
(** * Properties of the small user programs

    cat copies its input; wc counts lines, words and bytes as their definitions say and
    prints the counts in decimal.  Neither depends on how the reads cut the input. *)

From stdpp Require Import pretty.
From S2P Require Import Prelude CString ULib UEnv UProgs.

(** ** Numbers in decimal *)

Lemma lit_cons a s : lit (String a s) = Z.of_nat (Ascii.nat_of_ascii a) :: lit s.
Proof. done. Qed.

Lemma digit_char d : 0 ≤ d < 10 → Z.of_nat (Ascii.nat_of_ascii (pretty_N_char (Z.to_N d))) = nthZ digits d.
Proof.
  intros Hd. assert (d = 0 ∨ d = 1 ∨ d = 2 ∨ d = 3 ∨ d = 4 ∨ d = 5 ∨ d = 6 ∨ d = 7 ∨ d = 8 ∨ d = 9) as Hc by lia.
  by repeat destruct Hc as [->|Hc]; [..|rewrite Hc].
Qed.

Lemma printint_loop_pretty fuel : ∀ x s, 0 < x < 10 ^ Z.of_nat fuel →
  lit (pretty_N_go (Z.to_N x) s) = reverse (printint_loop fuel x 10) ++ lit s.
Proof.
  induction fuel as [|fuel IH]; intros x s Hx; [cbn in Hx; lia|].
  rewrite Nat2Z.inj_succ, Z.pow_succ_r in Hx by lia. rewrite pretty_N_go_step by lia.
  replace (Z.to_N x `div` 10)%N with (Z.to_N (x / 10)) by (by rewrite Z2N.inj_div by lia).
  replace (Z.to_N x `mod` 10)%N with (Z.to_N (x mod 10)) by (by rewrite Z2N.inj_mod by lia). cbn [printint_loop].
  assert (0 ≤ x mod 10 < 10 ∧ 0 ≤ x / 10 < 10 ^ Z.of_nat fuel) as [Hm Hd]
    by (split; [apply Z.mod_pos_bound; lia|split; [apply Z.div_pos; lia|apply Z.div_lt_upper_bound; lia]]).
  destruct (Z.eqb_spec (x / 10) 0) as [->|Hq].
  - change (Z.to_N 0) with 0%N. rewrite pretty_N_go_0, lit_cons, digit_char by lia. done.
  - rewrite IH by lia. rewrite lit_cons, digit_char by lia. rewrite reverse_cons, <- app_assoc. done.
Qed.

Definition decimal (n : nat) : list Z := lit (pretty (N.of_nat n)).

Lemma printint_loop_decimal n : Z.of_nat n < 2 ^ 31 → reverse (printint_loop 32 (Z.of_nat n) 10) = decimal n.
Proof.
  intros Hn. unfold decimal, pretty, pretty_N. case_decide as H0.
  - assert (n = 0%nat) as -> by lia. done.
  - replace (N.of_nat n) with (Z.to_N (Z.of_nat n)) by lia.
    rewrite (printint_loop_pretty 32), app_nil_r; [done|]. change (10 ^ Z.of_nat 32) with (10 ^ 32). lia.
Qed.

(** ** Printing *)

Definition chars (f : Z) (s : list Z) : list (Z * list Z) := (λ c, (f, [c])) <$> s.

Lemma chars_app f s t : chars f (s ++ t) = chars f s ++ chars f t.
Proof. apply fmap_app. Qed.

Lemma lit_byte s : Forall (λ c, 0 ≤ c < 256) (lit s).
Proof.
  apply Forall_fmap, Forall_true. intros c. unfold compose. pose proof (Ascii.nat_ascii_bounded c). lia.
Qed.

Section Printing.
Context (fd : Z) (chunk : list Z → Z → nat).

Lemma run_printint f n rest out : Z.of_nat n < 2 ^ 31 →
  run fd chunk (printint f (i32 (Z.of_nat n)) 10 true) rest out = (Returned tt, rest, out ++ chars f (decimal n)).
Proof.
  intros Hn. unfold printint. rewrite i32_small by lia. rewrite (proj2 (Z.ltb_ge (Z.of_nat n) 0)) by lia.
  cbn [andb]. rewrite u32_small by lia. rewrite app_nil_r, printint_loop_decimal by done.
  apply run_putcs, lit_byte.
Qed.

Lemma run_putc f c rest out : 0 ≤ c < 256 → run fd chunk (putc f c) rest out = (Returned tt, rest, out ++ chars f [c]).
Proof. intros Hc. unfold putc. rewrite run_bind. cbn [run sys]. by rewrite u8_small. Qed.

Lemma run_vprintf_char f c fmt ap rest out : 0 < c < 256 → c ≠ 37 →
  run fd chunk (vprintf_loop f (c :: fmt) false ap) rest out = run fd chunk (vprintf_loop f fmt false ap) rest (out ++ chars f [c]).
Proof.
  intros Hc H37. cbn [vprintf_loop negb]. rewrite (proj2 (Z.eqb_neq c 0)), (proj2 (Z.eqb_neq c 37)) by lia.
  by rewrite run_bind, run_putc by lia.
Qed.

Lemma run_vprintf_d f n fmt ap rest out : Z.of_nat n < 2 ^ 31 →
  run fd chunk (vprintf_loop f (37 :: 100 :: fmt) false (V (Z.of_nat n) :: ap)) rest out =
  run fd chunk (vprintf_loop f fmt false ap) rest (out ++ chars f (decimal n)).
Proof. intros Hn. cbn [vprintf_loop negb Z.eqb Pos.eqb]. by rewrite run_bind, run_printint. Qed.

Lemma run_vprintf_s f s fmt ap rest out : bytes s →
  run fd chunk (vprintf_loop f (37 :: 115 :: fmt) false (VS (Some s) :: ap)) rest out =
  run fd chunk (vprintf_loop f fmt false ap) rest (out ++ chars f (cstring s)).
Proof.
  intros Hs. cbn [vprintf_loop negb Z.eqb Pos.eqb fmap option_fmap option_map default].
  rewrite run_bind, run_putcs; [done|]. clear -Hs. induction Hs as [|c s Hc Hs IH]; cbn [cstring]; [done|].
  destruct (c =? 0); by constructor.
Qed.

(** ** cat *)

Lemma cat_loop_run fuel : ∀ rest out, (length rest ≤ fuel)%nat →
  ∃ ws, run fd chunk (cat_loop fuel fd) rest out = (Returned tt, [], out ++ ((λ w, (1, w)) <$> ws)) ∧ concat ws = rest.
Proof.
  induction fuel as [|fuel IH]; intros rest out Hf; cbn [cat_loop]; rewrite run_bind; cbn [run sys_data]; rewrite Z.eqb_refl.
  - destruct rest; [|cbn in Hf; lia]. rewrite deliver_end. exists []. change (0 <? _) with false. change (_ <? 0) with false. cbn iota. cbn [run fmap list_fmap]. by rewrite app_nil_r.
  - destruct (decide (rest = [])) as [->|Hr].
    { rewrite deliver_end. exists []. change (0 <? _) with false. change (_ <? 0) with false. cbn iota. cbn [run fmap list_fmap]. by rewrite app_nil_r. }
    destruct (deliver_bounds chunk rest 512) as [[Hd1 Hd2] _]; [lia|done|].
    set (d := deliver chunk rest 512) in *. clearbody d. cbn [a0 stored]. rewrite (proj2 (Z.ltb_lt 0 _)) by lia.
    rewrite Nat2Z.id, (take_take rest), Nat.min_id, run_bind. cbn [run sys a0].
    rewrite length_take_le, Z.eqb_refl by lia. cbn [negb].
    destruct (IH (drop d rest) (out ++ [(1, take d rest)])) as (ws & E & Hc); [rewrite length_drop; lia|].
    exists (take d rest :: ws). rewrite E. split; [cbn [fmap list_fmap]; by rewrite <- app_assoc|].
    cbn [concat]. rewrite Hc. apply take_drop.
Qed.
End Printing.

(** ** wc *)

(** The separators of words: space, horizontal tab, newline, vertical tab and
    carriage return, in ASCII. *)
Definition space (b : Z) : bool := (b =? 32) || ((9 <=? b) && (b <=? 13) && negb (b =? 12)).

Lemma space_elem b : space b = true ↔ b ∈ wc_spaces.
Proof.
  unfold space, wc_spaces. rewrite !elem_of_cons, elem_of_nil, orb_true_iff, !andb_true_iff, negb_true_iff,
    Z.eqb_eq, Z.eqb_neq, !Z.leb_le. lia.
Qed.

(** What is between the separators, the empty fields included. *)
Fixpoint fields (s : list Z) : list (list Z) :=
  match s with
  | [] => [[]]
  | b :: s =>
      if space b then [] :: fields s
      else match fields s with
           | f :: fs => (b :: f) :: fs
           | [] => [[b]]
           end
  end.

Definition words (s : list Z) : list (list Z) := filter (λ w, w ≠ []) (fields s).
Definition newlines (s : list Z) : nat := length (filter (λ b, b = 10) s).

Lemma strchr_elem s b : Forall (λ c, c ≠ 0) s → is_Some (strchr s b) ↔ b ∈ s.
Proof.
  induction 1 as [|c s Hc Hs IH]; cbn [strchr].
  - rewrite elem_of_nil. split; [by intros []|done].
  - rewrite (proj2 (Z.eqb_neq c 0)) by done. rewrite elem_of_cons. destruct (Z.eqb_spec c b) as [->|Hne].
    + split; [by left|by eexists].
    + rewrite fmap_is_Some, IH. split; [by right|]. by intros [->|].
Qed.

Lemma wc_char_step l w c inword b :
  c + 1 < 2 ^ 31 → 0 ≤ l ≤ c → 0 ≤ w ≤ c →
  wc_char (l, w, c, inword) b =
    (l + (if b =? 10 then 1 else 0), w + (if space b || inword then 0 else 1), c + 1, negb (space b)).
Proof.
  intros Hc Hl Hw. unfold wc_char. rewrite !i32_small by lia.
  assert (Hs : match strchr wc_spaces b with Some _ => true | None => false end = space b).
  { pose proof (strchr_elem wc_spaces b ltac:(by repeat constructor)) as Hi.
    destruct (strchr wc_spaces b); symmetry.
    - apply space_elem, Hi. by eexists.
    - apply not_true_is_false. rewrite space_elem. intros Hb. by apply Hi in Hb as []. }
  destruct (b =? 10), (strchr wc_spaces b), inword; rewrite <- Hs; cbn; rewrite ?Z.add_0_r; done.
Qed.

Lemma fields_cons s : ∃ f fs, fields s = f :: fs ∧ (f = [] ↔ head s = None ∨ ∃ b, head s = Some b ∧ space b = true).
Proof.
  destruct s as [|b s]; cbn [fields head]; [by exists [], []; split; [|split; [left|]]|].
  destruct (space b) eqn:E; [exists [], (fields s); split; [done|]; split; [right; by exists b|done]|].
  destruct (fields s) as [|f fs]; eexists _, _; (split; [done|]; split; [done|]; intros [?|(? & ? & ?)]; congruence).
Qed.

(** A word that begins in front of [s] is not counted again. *)
Definition more_words (inword : bool) (s : list Z) : nat :=
  match fields s with
  | f :: fs => (if inword then length (filter (λ w, w ≠ []) fs) else length (filter (λ w, w ≠ []) (f :: fs)))%nat
  | [] => 0%nat
  end.

Lemma more_words_cons inword b s :
  more_words inword (b :: s) = ((if space b || inword then 0 else 1) + more_words (negb (space b)) s)%nat.
Proof.
  unfold more_words. cbn [fields]. destruct (fields_cons s) as (f & fs & -> & _).
  destruct (space b), inword; cbn [orb negb]; rewrite ?filter_cons_False, ?filter_cons_True by auto; done.
Qed.

Lemma newlines_cons b s : Z.of_nat (newlines (b :: s)) = (if b =? 10 then 1 else 0) + Z.of_nat (newlines s).
Proof. unfold newlines. rewrite filter_cons. case_decide; destruct (Z.eqb_spec b 10); cbn [length]; lia. Qed.

Lemma wc_chars_run s : ∀ l w c inword,
  c + Z.of_nat (length s) < 2 ^ 31 → 0 ≤ l ≤ c → 0 ≤ w ≤ c →
  ∃ inword', foldl wc_char (l, w, c, inword) s =
    (l + Z.of_nat (newlines s), w + Z.of_nat (more_words inword s), c + Z.of_nat (length s), inword') ∧
    ∀ r, more_words inword (s ++ r) = (more_words inword s + more_words inword' r)%nat.
Proof.
  induction s as [|b s IH]; intros l w c inword Hc Hl Hw.
  - exists inword. split; [destruct inword; cbn; by rewrite !Z.add_0_r|]. intros r.
    unfold more_words at 2. cbn. by destruct inword.
  - cbn [length] in *. cbn [foldl]. rewrite wc_char_step by lia.
    destruct (IH (l + (if b =? 10 then 1 else 0)) (w + (if space b || inword then 0 else 1)) (c + 1) (negb (space b))) as (i & E & Hr);
      [lia|destruct (b =? 10); lia|destruct (space b || inword); lia|].
    exists i. rewrite E. split.
    + rewrite newlines_cons, more_words_cons. destruct (space b || inword); (f_equal; f_equal; [f_equal|]; lia).
    + intros r. cbn [app]. rewrite !more_words_cons, Hr. lia.
Qed.

Lemma newlines_app s r : newlines (s ++ r) = (newlines s + newlines r)%nat.
Proof. unfold newlines. by rewrite filter_app, length_app. Qed.

Lemma newlines_le s : (newlines s ≤ length s)%nat.
Proof. apply length_filter. Qed.

Lemma more_words_le inword s : (more_words inword s ≤ length s)%nat.
Proof.
  revert inword. induction s as [|b s IH]; intros i; [by destruct i|].
  rewrite more_words_cons. specialize (IH (negb (space b))). cbn [length]. destruct (space b || i); lia.
Qed.

Lemma wc_loop_run fd chunk fuel : ∀ l w c inword rest out,
  (length rest ≤ fuel)%nat → c + Z.of_nat (length rest) < 2 ^ 31 → 0 ≤ l ≤ c → 0 ≤ w ≤ c →
  ∃ inword', run fd chunk (wc_loop fuel fd (l, w, c, inword)) rest out =
    (Returned (0, (l + Z.of_nat (newlines rest), w + Z.of_nat (more_words inword rest), c + Z.of_nat (length rest), inword')), [], out).
Proof.
  assert (Hend : ∀ (q : Z * Z * Z * bool → prog (Z * (Z * Z * Z * bool))) l w c (i : bool) out,
    ∃ i', run fd chunk (if 0 <? Z.of_nat 0 then q (foldl wc_char (l, w, c, i) (take (Z.to_nat (Z.of_nat 0)) [])) else Ret (Z.of_nat 0, (l, w, c, i))) [] out =
      (Returned (0, (l + Z.of_nat (newlines []), w + Z.of_nat (more_words i []), c + Z.of_nat (length (A := Z) []), i')), [], out)).
  { intros q l w c i out. exists i. destruct i; cbn; by rewrite !Z.add_0_r. }
  induction fuel as [|fuel IH]; intros l w c i rest out Hf Hc Hl Hw; cbn [wc_loop]; rewrite run_bind; cbn [run sys_data]; rewrite Z.eqb_refl.
  - destruct rest; [|cbn in Hf; lia]. rewrite deliver_end. apply (Hend (λ _, Spin)).
  - destruct (decide (rest = [])) as [->|Hr]; [rewrite deliver_end; apply (Hend (λ st, wc_loop fuel fd st))|].
    destruct (deliver_bounds chunk rest 512) as [[Hd1 Hd2] _]; [lia|done|].
    set (d := deliver chunk rest 512) in *. clearbody d. cbn [a0 stored]. rewrite (proj2 (Z.ltb_lt 0 _)) by lia.
    rewrite Nat2Z.id, (take_take rest), Nat.min_id.
    assert (Hlen : (length (take d rest) + length (drop d rest))%nat = length rest) by (rewrite <- length_app; by rewrite take_drop).
    destruct (wc_chars_run (take d rest) l w c i) as (i1 & E & Hm); [lia|done..|]. rewrite E.
    pose proof (newlines_le (take d rest)). pose proof (more_words_le i (take d rest)).
    pose proof (newlines_app (take d rest) (drop d rest)) as Hn. specialize (Hm (drop d rest)). rewrite take_drop in Hn, Hm.
    destruct (IH (l + Z.of_nat (newlines (take d rest))) (w + Z.of_nat (more_words i (take d rest))) (c + Z.of_nat (length (take d rest)))
      i1 (drop d rest) out) as [i2 E2]; [rewrite length_drop; lia|lia..|].
    exists i2. rewrite E2, Hn, Hm, <- Hlen, !Nat2Z.inj_add, !Z.add_assoc. done.
Qed.

(** C40: [wc] prints, in decimal, the number of newlines, of words (the nonempty fields
    between blanks) and of bytes of its input, and then the name, however the kernel
    cuts the input into pieces and wherever that splits a word. *)
Theorem wc_correct {Rnd : Rounds} fd chunk name input :
  Z.of_nat (length input) < 2 ^ 31 → (length input ≤ rounds)%nat → Forall (λ c, 0 ≤ c < 256) name →
  run fd chunk (wc fd name) input [] =
    (Returned tt, [], chars 1 (decimal (newlines input) ++ [32] ++ decimal (length (words input)) ++ [32] ++
                               decimal (length input) ++ [32] ++ cstring name ++ [10])).
Proof.
  intros Hlen Hr Hname. unfold wc. rewrite run_bind.
  destruct (wc_loop_run fd chunk rounds 0 0 0 false input []) as [i E]; [lia..|]. rewrite E.
  change (0 <? 0) with false. cbn iota.
  pose proof (newlines_le input). pose proof (more_words_le false input).
  assert (Hw : more_words false input = length (words input))
    by (unfold more_words, words; by destruct (fields_cons input) as (f & fs & -> & _)).
  rewrite Hw in *. rewrite !Z.add_0_l. unfold printf, vprintf. change (line "%d %d %d %s") with [37; 100; 32; 37; 100; 32; 37; 100; 32; 37; 115; 10].
  rewrite run_vprintf_d, run_vprintf_char, run_vprintf_d, run_vprintf_char, run_vprintf_d, run_vprintf_char, run_vprintf_s, run_vprintf_char
    by (done || lia).
  cbn [vprintf_loop run]. by rewrite !chars_app, <- !app_assoc.
Qed.

Lemma wc_correct_witness :
  run 3 (λ _ _, 4%nat) (wc (Rnd := 100%nat) 3 (lit "f")) (lit "two words" ++ [10; 10]) [] =
  (Returned tt, [], chars 1 (lit "2 2 11 f" ++ [10])).
Proof.
  apply (wc_correct (Rnd := 100%nat) 3 (λ _ _, 4%nat) (lit "f") (lit "two words" ++ [10; 10])).
  - vm_compute. done.
  - vm_compute. lia.
  - apply lit_byte.
Defined.

(** [cat] writes its whole input to the standard output, in pieces of any size. *)
Theorem cat_correct {Rnd : Rounds} fd chunk input : (length input ≤ rounds)%nat →
  ∃ ws, run fd chunk (cat fd) input [] = (Returned tt, [], (λ w, (1, w)) <$> ws) ∧ concat ws = input.
Proof. apply cat_loop_run. Qed.
