(* ===== verification/Umalloc.v ===== *)
(** * The memory allocator of user programs (user/umalloc.c)

    Memory is seen as headers: for each address, the pointer and the size that a header
    at this address holds.  A block of [n] units takes [16 * n] bytes, its header
    included.  The allocator runs against the [sbrk] of kernel/sysproc.c, which grows
    the process at its break. *)

From stdpp Require Import functions.
From S2P Require Import Prelude ULib.

Definition sizeof_Header : Z := 16.

Record heap : Type := Heap { freep : Z; s_ptr : Z → Z; s_size : Z → Z }.

Definition set_freep (p : Z) (h : heap) : heap := Heap p (s_ptr h) (s_size h).
Definition set_ptr (p v : Z) (h : heap) : heap := Heap (freep h) (<[p := v]> (s_ptr h)) (s_size h).
Definition set_size (p v : Z) (h : heap) : heap := Heap (freep h) (s_ptr h) (<[p := v]> (s_size h)).

(** [p + n] for a [Header *p]. *)
Definition plus (p n : Z) : Z := p + n * sizeof_Header.

Section Umalloc.
Context {Rnd : Rounds} (base : Z).

(** The search of [free]: [None] when out of fuel. *)
Fixpoint free_loop (fuel : nat) (bp p : Z) (h : heap) : option Z :=
  let next := s_ptr h p in
  if (p <? bp) && (bp <? next) then Some p
  else if (next <=? p) && ((p <? bp) || (bp <? next)) then Some p
  else match fuel with
       | O => None
       | S fuel => free_loop fuel bp next h
       end.

Definition free (ap : Z) (h : heap) : option heap :=
  let bp := ap - sizeof_Header in
  p ← free_loop rounds bp (freep h) h;
  let q := s_ptr h p in
  let h :=
    if plus bp (s_size h bp) =? q then
      let h := set_size bp (u32 (s_size h bp + s_size h q)) h in
      set_ptr bp (s_ptr h (s_ptr h p)) h
    else set_ptr bp q h in
  let h :=
    if plus p (s_size h p) =? bp then
      let h := set_size p (u32 (s_size h p + s_size h bp)) h in
      set_ptr p (s_ptr h bp) h
    else set_ptr p bp h in
  Some (set_freep p h).

Definition morecore (nu : Z) (h : heap) : prog (Z * heap) :=
  let nu := if nu <? 4096 then 4096 else nu in
  p ← sys (Sbrk (i32 (nu * sizeof_Header)));
  if p =? -1 then Ret (0, h) else
  let hp := p in
  let h := set_size hp nu h in
  match free (plus hp 1) h with
  | Some h => Ret (freep h, h)
  | None => Spin
  end.

Fixpoint malloc_loop (fuel : nat) (nunits prevp p : Z) (h : heap) : prog (Z * heap) :=
  if nunits <=? s_size h p then
    let '(p, h) :=
      if s_size h p =? nunits then (p, set_ptr prevp (s_ptr h p) h)
      else
        let h := set_size p (u32 (s_size h p - nunits)) h in
        let p := plus p (s_size h p) in
        (p, set_size p nunits h) in
    Ret (plus p 1, set_freep prevp h)
  else
    let next p h :=
      match fuel with
      | O => Spin
      | S fuel => malloc_loop fuel nunits p (s_ptr h p) h
      end in
    if p =? freep h then
      '(p, h) ← morecore nunits h;
      if p =? 0 then Ret (0, h) else next p h
    else next p h.

Definition nunits (nbytes : Z) : Z := u32 ((nbytes + sizeof_Header - 1) / sizeof_Header + 1).

Definition malloc (nbytes : Z) (h : heap) : prog (Z * heap) :=
  let nunits := nunits nbytes in
  let h :=
    if freep h =? 0 then set_size base 0 (set_freep base (set_ptr base base h)) else h in
  let prevp := freep h in
  malloc_loop rounds nunits prevp (s_ptr h prevp) h.
End Umalloc.

(** ** The break of the process *)

(** [sbrk(n)] answers with the old break, or -1 when [grant] says that there is no
    memory.  Below address 0 the break does not go: [growproc] succeeds then without
    any change. *)
Fixpoint heap_run {A} (grant : Z → Z → bool) (p : prog A) (brk : Z) : option (A * Z) :=
  match p with
  | Ret a => Some (a, brk)
  | Call (Sbrk n) k =>
      if grant brk n then heap_run grant (k (Reply brk [])) (if brk + n <? 0 then brk else brk + n)
      else heap_run grant (k (Reply (-1) [])) brk
  | _ => None
  end.
