(* ===== verification/UmallocSpec.v ===== *)
(** * The allocator of user programs keeps its blocks apart

    The free list is the cycle of the header [base] and the free blocks in the order of
    their addresses.  Free blocks and allocated blocks are pairwise disjoint, and
    adjacent free blocks are always merged. *)

From stdpp Require Import functions.
From S2P Require Import Prelude ULib Umalloc.

(** ** The cycle *)

Abbreviation block := (Z * Z)%type.

Definition head_addr (L : list block) (e : Z) : Z :=
  match L with
  | [] => e
  | (a, _) :: _ => a
  end.

(** The memory holds the headers of [L], linked in order; the last one points to [e]. *)
Fixpoint cells (h : heap) (L : list block) (e : Z) : Prop :=
  match L with
  | [] => True
  | (a, n) :: L => s_size h a = n ∧ s_ptr h a = head_addr L e ∧ cells h L e
  end.

(** Blocks in ascending order from [lo] to [top], no two of them adjacent; a header
    alone takes one unit. *)
Fixpoint gaps (lo : Z) (L : list block) (top : Z) : Prop :=
  match L with
  | [] => lo ≤ top
  | (a, n) :: L => lo < a ∧ 0 ≤ n ∧ gaps (plus a (Z.max 1 n)) L top
  end.

Definition addrs (L : list block) : list Z := fst <$> L.

(** The bytes of free blocks. *)
Definition free_byte (L : list block) (z : Z) : Prop := ∃ a n, (a, n) ∈ L ∧ a ≤ z < plus a n.

Lemma cells_app h L1 L2 e : cells h (L1 ++ L2) e ↔ cells h L1 (head_addr L2 e) ∧ cells h L2 e.
Proof.
  induction L1 as [|[a n] L1 IH]; cbn [app cells]; [tauto|].
  rewrite IH. destruct L1 as [|[b m] L1]; cbn [app head_addr cells]; tauto.
Qed.

Lemma cells_frame h h' L e :
  (∀ a, a ∈ addrs L → s_size h' a = s_size h a ∧ s_ptr h' a = s_ptr h a) → cells h L e → cells h' L e.
Proof.
  induction L as [|[a n] L IH]; cbn [cells]; [done|]. intros Hf (Hn & Hp & HL).
  destruct (Hf a) as [E1 E2]; [by left|]. rewrite E1, E2. split; [done|]. split; [done|].
  apply IH; [|done]. intros b Hb. apply Hf. by right.
Qed.

Lemma gaps_le lo lo' L top : gaps lo' L top → lo ≤ lo' → gaps lo L top.
Proof. destruct L as [|[a n] L]; cbn [gaps]; [lia|]. intros (? & ? & ?) ?. split_and!; [lia|done..]. Qed.

Lemma gaps_bounds lo L top : gaps lo L top → lo ≤ top ∧ ∀ a n, (a, n) ∈ L → lo < a ∧ 0 ≤ n ∧ plus a (Z.max 1 n) ≤ top.
Proof.
  revert lo. induction L as [|[a n] L IH]; intros lo; cbn [gaps].
  - intros H. split; [done|]. intros a n Ha. by apply not_elem_of_nil in Ha.
  - intros (Ha & Hn & HL). apply IH in HL as [Ht HL]. unfold plus, sizeof_Header in *. split; [lia|].
    intros b m [[= -> ->]|Hb]%elem_of_cons; [lia|]. apply HL in Hb. lia.
Qed.

Lemma gaps_app lo L1 L2 top : gaps lo (L1 ++ L2) top ↔ ∃ mid, gaps lo L1 mid ∧ gaps mid L2 top.
Proof.
  revert lo. induction L1 as [|[a n] L1 IH]; intros lo; cbn [app gaps].
  - split; [intros H; by exists lo|]. intros (mid & Hm & H). by eapply gaps_le.
  - rewrite IH. naive_solver.
Qed.

Lemma elem_addrs a L : a ∈ addrs L ↔ ∃ n, (a, n) ∈ L.
Proof.
  unfold addrs. rewrite list_elem_of_fmap. split; [intros ([b n] & -> & H); by exists n|].
  intros (n & H). by exists (a, n).
Qed.

Lemma gaps_addrs lo L top a : gaps lo L top → a ∈ addrs L → lo < a < top.
Proof.
  intros HL (n & Hn)%elem_addrs. apply gaps_bounds in HL as [_ HL]. apply HL in Hn.
  unfold plus, sizeof_Header in *. lia.
Qed.

Lemma free_byte_app L1 L2 z : free_byte (L1 ++ L2) z ↔ free_byte L1 z ∨ free_byte L2 z.
Proof. unfold free_byte. setoid_rewrite elem_of_app. naive_solver. Qed.

Lemma free_byte_cons a n L z : free_byte ((a, n) :: L) z ↔ a ≤ z < plus a n ∨ free_byte L z.
Proof.
  unfold free_byte. split.
  - intros (b & m & [[= -> ->]|H]%elem_of_cons & Hz); [by left|right; by exists b, m].
  - intros [H|(b & m & H & Hz)]; [exists a, n; split; [left|done]|exists b, m; split; [by right|done]].
Qed.

(** ** The search of [free] *)

(** The place of a block that overlaps none of the list. *)
Lemma split_at b n top L0 : ∀ lo p0 m0,
  gaps lo ((p0, m0) :: L0) top → Forall (λ x, 1 ≤ x.2) L0 → 1 ≤ n → plus b n ≤ top → plus p0 (Z.max 1 m0) ≤ b →
  (∀ z, b ≤ z < plus b n → ¬ free_byte L0 z) →
  ∃ L1 p m L2, (p0, m0) :: L0 = L1 ++ (p, m) :: L2 ∧ gaps lo (L1 ++ [(p, m)]) b ∧ gaps (plus b n - 1) L2 top.
Proof.
  induction L0 as [|[c k] L0 IH]; intros lo p0 m0 HL Hpos Hn Ht Hp Hz.
  - exists [], p0, m0, []. cbn [app gaps] in *. split; [done|]. split_and!; try tauto; lia.
  - destruct HL as (Hlo & Hm & HL). pose proof HL as (Hc & Hk & HL'). apply Forall_cons in Hpos as [Hk1 Hpos]. cbn [snd] in Hk1.
    assert (plus c k ≤ b ∨ plus b n ≤ c) as [Hle|Hge].
    { destruct (Z_le_gt_dec (plus c k) b) as [|H1]; [by left|]. destruct (Z_le_gt_dec (plus b n) c) as [|H2]; [by right|].
      exfalso. apply (Hz (Z.max b c)); [unfold plus, sizeof_Header in *; lia|]. apply free_byte_cons. left. unfold plus, sizeof_Header in *. lia. }
    + destruct (IH (plus p0 (Z.max 1 m0)) c k) as (L1 & p & m & L2 & E & H1 & H2); [done..|replace (Z.max 1 k) with k by lia; done| |].
      { intros z Hb Hf. apply (Hz z Hb), free_byte_cons. by right. }
      exists ((p0, m0) :: L1), p, m, L2. rewrite E. cbn [app gaps]. done.
    + exists [], p0, m0, ((c, k) :: L0). cbn [app gaps]. split_and!; try done. lia.
Qed.

Section Search.
Context (base b : Z) (h : heap).

Lemma free_loop_at p m L2 top fuel :
  cells h ((p, m) :: L2) base → base ≤ p < b → gaps b L2 top → free_loop fuel b p h = Some p.
Proof.
  intros (_ & Hp & _) Hb H2. destruct fuel; cbn [free_loop]; rewrite Hp; destruct L2 as [|[c k] L2]; cbn [head_addr gaps] in *;
    repeat case_match; try done; lia.
Qed.

Lemma free_loop_fwd p m L2 top S : ∀ lo fuel, (length S ≤ fuel)%nat →
  cells h (S ++ (p, m) :: L2) base → gaps lo (S ++ [(p, m)]) b → base ≤ lo + 1 → gaps b L2 top →
  free_loop fuel b (head_addr S p) h = Some p.
Proof.
  induction S as [|[a n] S IH]; intros lo fuel Hf HC HS Hlo H2; cbn [app head_addr] in *.
  - destruct HS as (? & ? & Hb). cbn [gaps] in Hb. unfold plus, sizeof_Header in Hb. eapply free_loop_at; [done|lia|done].
  - destruct fuel as [|fuel]; cbn [length] in Hf; [lia|]. destruct HC as (_ & Hp & HC). destruct HS as (Ha & Hn & HS).
    assert (Hnext : s_ptr h a = head_addr S p) by (rewrite Hp; by destruct S as [|[]]).
    assert (Hin : head_addr S p ∈ addrs (S ++ [(p, m)])) by (destruct S as [|[]]; left).
    pose proof (gaps_addrs _ _ _ _ HS Hin) as Hr. unfold plus, sizeof_Header in Hr.
    cbn [free_loop]. rewrite Hnext. rewrite (proj2 (Z.ltb_ge b _)), (proj2 (Z.leb_gt _ a)) by lia. rewrite andb_false_r. cbn [andb].
    apply (IH (plus a (Z.max 1 n))); [lia|done|done|unfold plus, sizeof_Header; lia|done].
Qed.

Lemma free_loop_back S top : ∀ lo fuel, S ≠ [] → cells h S base → gaps lo S top → b ≤ lo → base < b →
  free_loop (length S + fuel) b (head_addr S base) h = free_loop fuel b base h.
Proof.
  induction S as [|[a n] S IH]; intros lo fuel Hne HC HS Hlo Hb; [done|].
  destruct HC as (_ & Hp & HC). destruct HS as (Ha & Hn & HS). cbn [length Nat.add free_loop head_addr]. rewrite Hp.
  rewrite (proj2 (Z.ltb_ge a b)) by lia. cbn [andb orb]. destruct S as [|[c k] S]; cbn [head_addr length Nat.add] in *.
  - rewrite (proj2 (Z.ltb_ge b base)) by lia. by rewrite andb_false_r.
  - pose proof HS as (Hc & _). unfold plus, sizeof_Header in Hc. rewrite (proj2 (Z.leb_gt c a)) by lia. cbn [andb].
    apply (IH (plus a (Z.max 1 n))); [done|done|done|unfold plus, sizeof_Header; lia|done].
Qed.

Lemma head_addr_app S p m L2 e : head_addr (S ++ (p, m) :: L2) e = head_addr S p.
Proof. by destruct S as [|[]]. Qed.

Lemma free_loop_finds lo top p m L1 L2 f fuel :
  cells h (L1 ++ (p, m) :: L2) base → head_addr L1 p = base → base ≤ lo + 1 →
  gaps lo (L1 ++ [(p, m)]) b → gaps b L2 top → f ∈ addrs (L1 ++ (p, m) :: L2) →
  (length (L1 ++ (p, m) :: L2) ≤ fuel)%nat → free_loop fuel b f h = Some p.
Proof.
  intros HC Hhd Hlo H1 H2 (k & Hf)%elem_addrs Hfuel. rewrite length_app in Hfuel. cbn [length] in Hfuel.
  assert (Hbb : base < b).
  { assert (Hi : base ∈ addrs (L1 ++ [(p, m)])) by (rewrite <- Hhd; destruct L1 as [|[]]; left).
    by apply (gaps_addrs _ _ _ _ H1 Hi). }
  apply elem_of_app in Hf as [Hf|Hf].
  - apply list_elem_of_split in Hf as (T1 & T2 & ->). rewrite <- app_assoc in HC. apply cells_app in HC as [_ HC].
    rewrite <- app_assoc in H1. apply gaps_app in H1 as (mid & Hm & H1). apply gaps_bounds in Hm as [Hm _].
    rewrite length_app in Hfuel. cbn [length] in Hfuel.
    apply (free_loop_fwd p m L2 top ((f, k) :: T2) mid); [cbn [length]; lia|done|done|lia|done].
  - apply elem_of_cons in Hf as [[= -> ->]|Hf].
    + apply cells_app in HC as [_ HC]. apply gaps_app in H1 as (mid & Hm & H1). apply gaps_bounds in Hm as [Hm _].
      apply (free_loop_fwd p m L2 top [] mid); [cbn [length]; lia|done|done|lia|done].
    + apply list_elem_of_split in Hf as (T1 & T2 & ->). apply gaps_app in H2 as H2'. destruct H2' as (mid & Hm & HT).
      apply gaps_bounds in Hm as [Hm _]. pose proof HC as HC'. rewrite app_comm_cons, app_assoc in HC'. apply cells_app in HC' as [_ HC'].
      rewrite length_app in Hfuel. cbn [length] in Hfuel.
      replace fuel with (length ((f, k) :: T2) + (fuel - length ((f, k) :: T2)))%nat by (cbn [length]; lia).
      etrans; [apply (free_loop_back ((f, k) :: T2) top mid); done|].
      rewrite <- Hhd at 1. apply (free_loop_fwd p m (T1 ++ (f, k) :: T2) top L1 lo); [cbn [length]; lia|done..].
Qed.
End Search.

(** ** Linking a block into the list *)

(** The stores of [free] to the header of the block, and then to the one before it. *)
Definition link_next (p bp : Z) (h : heap) : heap :=
  let q := s_ptr h p in
  if plus bp (s_size h bp) =? q then
    let h := set_size bp (u32 (s_size h bp + s_size h q)) h in
    set_ptr bp (s_ptr h (s_ptr h p)) h
  else set_ptr bp q h.
Definition link_prev (p bp : Z) (h : heap) : heap :=
  if plus p (s_size h p) =? bp then
    let h := set_size p (u32 (s_size h p + s_size h bp)) h in
    set_ptr p (s_ptr h bp) h
  else set_ptr p bp h.

Lemma free_link {Rnd : Rounds} b h p :
  free_loop rounds b (freep h) h = Some p → free (plus b 1) h = Some (set_freep p (link_prev p b (link_next p b h))).
Proof.
  intros E. unfold free. replace (plus b 1 - sizeof_Header) with b by (unfold plus; lia). rewrite E. done.
Qed.

(** What the two steps do to the list. *)
Definition join_next (b n : Z) (L : list block) : list block :=
  match L with
  | (c, k) :: L' => if plus b n =? c then (b, n + k) :: L' else (b, n) :: L
  | [] => [(b, n)]
  end.
Definition join_prev (p m : Z) (L : list block) : list block :=
  match L with
  | (b, n) :: L' => if plus p m =? b then (p, m + n) :: L' else (p, m) :: L
  | [] => [(p, m)]
  end.

Definition same_except (x : Z) (h h' : heap) : Prop :=
  freep h' = freep h ∧ ∀ y, y ≠ x → s_size h' y = s_size h y ∧ s_ptr h' y = s_ptr h y.

Lemma same_set_ptr x v h : same_except x h (set_ptr x v h).
Proof. split; [done|]. intros y Hy. cbn. by rewrite fn_lookup_insert_ne. Qed.
Lemma same_set_both x v w h : same_except x h (set_ptr x w (set_size x v h)).
Proof. split; [done|]. intros y Hy. cbn. by rewrite !fn_lookup_insert_ne. Qed.

Lemma cells_same x h h' L e : same_except x h h' → x ∉ addrs L → cells h L e → cells h' L e.
Proof. intros [_ Hs] Hx. apply cells_frame. intros a Ha. apply Hs. by intros ->. Qed.

Lemma gaps_not_in lo L top x : gaps lo L top → x ≤ lo ∨ top ≤ x → x ∉ addrs L.
Proof. intros HL Hx Hin. pose proof (gaps_addrs _ _ _ _ HL Hin). lia. Qed.

Lemma link_next_cells base h p b n L2 top :
  0 < base < b → p < b → top ≤ 2 ^ 32 → 1 ≤ n → s_ptr h p = head_addr L2 base → s_size h b = n →
  cells h L2 base → gaps (plus b n - 1) L2 top →
  same_except b h (link_next p b h) ∧ cells (link_next p b h) (join_next b n L2) base.
Proof.
  intros Hb Hp Htop Hn Ep En HC HG. unfold link_next. rewrite En, Ep. unfold plus, sizeof_Header in *.
  destruct L2 as [|[c k] L2]; cbn [head_addr join_next].
  - unfold plus, sizeof_Header. rewrite (proj2 (Z.eqb_neq _ base)) by lia. split; [apply same_set_ptr|].
    cbn. rewrite fn_lookup_insert. done.
  - destruct HG as (Hc & Hk & HG). destruct HC as (Ek & Ec & HC). unfold plus, sizeof_Header in *.
    pose proof (proj1 (gaps_bounds _ _ _ HG)) as Hle.
    destruct (Z.eqb_spec (b + n * 16) c) as [<-|Hne].
    + split; [apply same_set_both|]. cbn [cells]. split_and!.
      * cbn. rewrite fn_lookup_insert, Ek. apply u32_small. lia.
      * cbn. rewrite Ep. cbn [head_addr]. by rewrite fn_lookup_insert, Ec.
      * eapply cells_same; [apply same_set_both|eapply gaps_not_in; [done|lia]|done].
    + split; [apply same_set_ptr|]. cbn [cells head_addr]. split_and!.
      * done.
      * cbn. by rewrite fn_lookup_insert.
      * done.
      * cbn. rewrite fn_lookup_insert_ne by lia. done.
      * eapply cells_same; [apply same_set_ptr|eapply gaps_not_in; [done|lia]|done].
Qed.

Lemma link_prev_cells base h p m b n R lo top :
  0 < p < b → 0 ≤ m → top ≤ 2 ^ 32 → s_size h p = m → cells h ((b, n) :: R) base → gaps lo ((b, n) :: R) top → p ≤ lo →
  same_except p h (link_prev p b h) ∧ cells (link_prev p b h) (join_prev p m ((b, n) :: R)) base.
Proof.
  intros Hp Hm Htop Em HC HG Hlo. unfold link_prev. rewrite Em. cbn [join_prev].
  pose proof (gaps_bounds _ _ _ HG) as [_ Hbn]. specialize (Hbn b n ltac:(left)).
  pose proof (gaps_not_in _ _ _ p HG ltac:(lia)) as Hnin. pose proof HC as (En & Eb & HR).
  destruct (Z.eqb_spec (plus p m) b) as [E|Hne].
  - split; [apply same_set_both|]. cbn [cells]. split_and!.
    + cbn. rewrite fn_lookup_insert, En. apply u32_small. unfold plus, sizeof_Header in *. lia.
    + cbn. by rewrite fn_lookup_insert, Eb.
    + eapply cells_same; [apply same_set_both| |done]. intros H. apply Hnin. by right.
  - split; [apply same_set_ptr|]. split; [done|]. split; [cbn; by rewrite fn_lookup_insert|].
    eapply cells_same; [apply same_set_ptr|done|done].
Qed.

Definition sizes_pos (L : list block) : Prop := Forall (λ x, 1 ≤ x.2) L.

Lemma join_next_ok b n L top : 1 ≤ n → plus b n ≤ top → gaps (plus b n - 1) L top → sizes_pos L →
  gaps (b - 1) (join_next b n L) top ∧ sizes_pos (join_next b n L) ∧ (length (join_next b n L) ≤ S (length L))%nat ∧
  ∀ z, free_byte (join_next b n L) z ↔ b ≤ z < plus b n ∨ free_byte L z.
Proof.
  intros Hn Ht HG HP. destruct L as [|[c k] L]; cbn [join_next].
  - cbn [gaps length]. replace (Z.max 1 n) with n by lia. split_and!; [lia..|by repeat constructor|lia|].
    intros z. apply free_byte_cons.
  - destruct HG as (Hc & Hk & HG). apply Forall_cons in HP as [Hk1 HP]. cbn [snd] in Hk1. destruct (Z.eqb_spec (plus b n) c) as [<-|Hne].
    + cbn [gaps length]. replace (Z.max 1 (n + k)) with (n + k) by lia. replace (Z.max 1 k) with k in HG by lia.
      replace (plus b (n + k)) with (plus (plus b n) k) by (unfold plus; lia).
      split_and!; [lia..|done|constructor; [cbn; lia|done]|lia|].
      intros z. rewrite !free_byte_cons. unfold plus, sizeof_Header. intuition lia.
    + cbn [gaps length]. replace (Z.max 1 n) with n by lia.
      split_and!; [lia..|done|by repeat constructor|lia|]. intros z. apply free_byte_cons.
Qed.

Lemma join_prev_ok lo p m L top : lo < p → 0 ≤ m → L ≠ [] → sizes_pos L →
  gaps (plus p (Z.max 1 m) - 1) L top → gaps (plus p 1) L top ∨ 1 ≤ m →
  gaps lo (join_prev p m L) top ∧ (∀ z, free_byte (join_prev p m L) z ↔ p ≤ z < plus p m ∨ free_byte L z) ∧
  (length (join_prev p m L) ≤ S (length L))%nat ∧
  (1 ≤ m ∧ sizes_pos (join_prev p m L) ∨ join_prev p m L = (p, m) :: L).
Proof.
  intros Hp Hm Hne HP HG Hor. destruct L as [|[b n] L]; [done|]. apply Forall_cons in HP as [Hn HP]. cbn [snd] in Hn.
  destruct HG as (Hb & _ & HG). cbn [join_prev]. destruct (Z.eqb_spec (plus p m) b) as [E|Hneq].
  - assert (1 ≤ m) as Hm1 by (destruct Hor as [(H & _)|]; [unfold plus, sizeof_Header in *; lia|done]).
    cbn [gaps length]. replace (Z.max 1 (m + n)) with (m + n) by lia. replace (Z.max 1 n) with n in HG by lia.
    replace (plus p (m + n)) with (plus b n) by (unfold plus, sizeof_Header in *; lia).
    split_and!; [lia..|done| |lia|left; split; [done|constructor; [cbn; lia|done]]].
    intros z. rewrite !free_byte_cons. unfold plus, sizeof_Header in *. intuition lia.
  - cbn [gaps length]. split_and!; [lia|lia| |lia|done| |lia|by right].
    + destruct Hor as [(H & _)|]; unfold plus, sizeof_Header in *; lia.
    + intros z. apply free_byte_cons.
Qed.

(** The free list in memory. *)
Record list_ok (base : Z) (h : heap) (L : list block) (top : Z) : Prop := {
  lo_base : 0 < base ∧ top ≤ 2 ^ 32;
  lo_first : ∃ F, L = (base, 0) :: F ∧ sizes_pos F;
  lo_cells : cells h L base;
  lo_gaps : gaps (base - 1) L top;
  lo_freep : freep h ∈ addrs L
}.

Lemma list_ok_split base h L top b n : list_ok base h L top → 1 ≤ n → plus b n ≤ top → plus base 1 ≤ b →
  (∀ z, b ≤ z < plus b n → ¬ free_byte L z) →
  ∃ L1 p m L2, L = L1 ++ (p, m) :: L2 ∧ gaps (base - 1) (L1 ++ [(p, m)]) b ∧ gaps (plus b n - 1) L2 top ∧
    head_addr L1 p = base ∧ sizes_pos L2 ∧ (L1 = [] ∧ m = 0 ∨ ∃ L1', L1 = (base, 0) :: L1' ∧ sizes_pos L1' ∧ 1 ≤ m).
Proof.
  intros [_ (F & -> & HP) HC HG _] Hn Ht Hb Hz.
  destruct (split_at b n top F (base - 1) base 0 HG HP Hn Ht) as (L1 & p & m & L2 & E & H1 & H2).
  { exact Hb. }
  { intros z Hzb Hf. apply (Hz z Hzb), free_byte_cons. by right. }
  exists L1, p, m, L2. split; [done|]. split; [done|]. split; [done|].
  destruct L1 as [|x L1]; cbn [app] in E; simplify_eq.
  - split; [done|]. split; [done|]. by left.
  - split; [done|]. apply Forall_app in HP as [HP1 HP2]. apply Forall_cons in HP2 as [Hm HP2].
    split; [done|]. right. by exists L1.
Qed.

Definition fits (n : Z) (L : list block) : Prop := Exists (λ x, n ≤ x.2) L.

Lemma join_fits p m b n L : 0 ≤ m → sizes_pos L → fits n (join_prev p m (join_next b n L)).
Proof.
  intros Hm HP. unfold fits. destruct L as [|[c k] L]; cbn [join_next]; [|apply Forall_cons in HP as [Hk _]; cbn [snd] in Hk].
  - cbn [join_prev]. destruct (plus p m =? b); [left; cbn; lia|right; left; cbn; lia].
  - destruct (plus b n =? c); cbn [join_prev]; destruct (plus p m =? b); first [left; cbn; lia|right; left; cbn; lia].
Qed.

Lemma join_next_head b n L : ∃ n' R, join_next b n L = (b, n') :: R.
Proof. destruct L as [|[c k] L]; cbn [join_next]; [by eexists _, _|]. destruct (plus b n =? c); by eexists _, _. Qed.

Lemma free_byte_addr L x n : (x, n) ∈ L → 1 ≤ n → free_byte L x.
Proof. intros Hx Hn. exists x, n. split; [done|]. unfold plus, sizeof_Header. lia. Qed.

Lemma link_cells base h L1 p m L2 b n top :
  0 < base → plus base 1 < b → head_addr L1 p = base → top ≤ 2 ^ 32 → 1 ≤ n → 0 ≤ m → plus b n ≤ top → s_size h b = n → sizes_pos L2 →
  cells h (L1 ++ (p, m) :: L2) base → gaps (base - 1) (L1 ++ [(p, m)]) b → gaps (plus b n - 1) L2 top →
  let h' := link_prev p b (link_next p b h) in
  cells h' (L1 ++ join_prev p m (join_next b n L2)) base ∧
  ∀ y, y ≠ b → y ≠ p → s_size h' y = s_size h y ∧ s_ptr h' y = s_ptr h y.
Proof.
  intros Hbase Hb Hhd Htop Hn Hm Ht Eb HP HC HG1 HG2 h'. apply cells_app in HC as [HC1 (Ep & Eq & HC2)]. cbn [head_addr] in HC1.
  apply gaps_app in HG1 as (mid & Hm1 & (Hmp & _ & Hpb)). cbn [gaps] in Hpb.
  assert (base ≤ p) as Hbp by (apply gaps_bounds in Hm1 as [? _]; lia).
  assert (p < b ∧ 0 < base < b) as [Hp Hb'] by (unfold plus, sizeof_Header in *; lia).
  destruct (link_next_cells base h p b n L2 top) as [HS1 HN]; [done..|].
  destruct (join_next_ok b n L2 top Hn Ht HG2 HP) as (HGN & _ & _ & _). destruct (join_next_head b n L2) as (n' & R & EN). rewrite EN in *.
  destruct (link_prev_cells base (link_next p b h) p m b n' R (b - 1) top) as [HS2 HL]; [lia|done|done| |done|done|lia|].
  { rewrite <- Ep. apply HS1. lia. }
  split.
  - apply cells_app. split; [|done].
    assert (Hh : head_addr (join_prev p m ((b, n') :: R)) base = p) by (cbn [join_prev]; by destruct (_ =? _)). rewrite Hh.
    eapply cells_same; [exact HS2|eapply gaps_not_in; [exact Hm1|lia]|].
    eapply cells_same; [exact HS1|eapply gaps_not_in; [exact Hm1|lia]|done].
  - intros y Hyb Hyp. destruct HS1 as [_ HS1]. destruct HS2 as [_ HS2].
    unfold h'. destruct (HS2 y Hyp) as [-> ->]. by apply HS1.
Qed.

(** [free] adds the bytes of the block to the free ones, and changes nothing else. *)
Lemma free_list_ok {Rnd : Rounds} base h L top b n :
  list_ok base h L top → 1 ≤ n → plus b n ≤ top → plus base 1 < b → s_size h b = n →
  (∀ z, b ≤ z < plus b n → ¬ free_byte L z) → (length L ≤ rounds)%nat →
  ∃ h' L', free (plus b 1) h = Some h' ∧ list_ok base h' L' top ∧ (length L' ≤ S (length L))%nat ∧ fits n L' ∧
    (∀ z, free_byte L' z ↔ free_byte L z ∨ b ≤ z < plus b n) ∧
    ∀ x, x ≠ base → ¬ free_byte L' x → s_size h' x = s_size h x ∧ s_ptr h' x = s_ptr h x.
Proof.
  intros Hok Hn Ht Hb Eb Hz Hr. destruct (list_ok_split base h L top b n) as (L1 & p & m & L2 & -> & H1 & H2 & Hhd & HP & Hcase); [done..|lia|done|].
  pose proof Hok as [[Hbase Htop] _ HC HG Hf].
  assert (0 ≤ m) as Hm by (destruct Hcase as [[_ ->]|(? & _ & _ & ?)]; lia).
  destruct (link_cells base h L1 p m L2 b n top) as [HC' Hsame]; [done..|].
  destruct (join_next_ok b n L2 top Hn Ht H2 HP) as (GN & PN & LN & FN).
  destruct (join_next_head b n L2) as (n' & R & EN).
  apply gaps_app in H1 as H1'. destruct H1' as (mid & Hmid & (Hmp & _ & Hpb)). cbn [gaps] in Hpb.
  destruct (join_prev_ok mid p m (join_next b n L2) top) as (GP & FP & LP & PP); [done|done|by rewrite EN|done|eapply gaps_le; [done|lia]| |].
  { destruct Hcase as [[-> _]|(? & _ & _ & ?)]; [left|by right]. cbn [head_addr] in Hhd. subst p. eapply gaps_le; [done|lia]. }
  eexists _, (L1 ++ join_prev p m (join_next b n L2)). split; [|split; [|split; [|split; [|split]]]].
  - apply free_link. eapply (free_loop_finds base b h (base - 1) top p m L1 L2); try done; [lia|].
    eapply gaps_le; [done|]. unfold plus, sizeof_Header. lia.
  - split; [done| |apply (cells_frame (link_prev p b (link_next p b h))); [done|exact HC']| |].
    + destruct Hcase as [(-> & ->)|(L1' & -> & HP1 & Hm1)].
      * cbn [head_addr] in Hhd. subst p. destruct PP as [[? _]|PP]; [lia|]. exists (join_next b n L2). by rewrite PP.
      * destruct PP as [[_ PP]|PP]; eexists; (split; [done|]); apply Forall_app; (split; [done|]); [done|rewrite PP; by constructor].
    + apply gaps_app. by exists mid.
    + unfold addrs. rewrite fmap_app. apply elem_of_app. right. rewrite EN. cbn [join_prev freep set_freep]. destruct (_ =? _); left.
  - rewrite !length_app. cbn [length]. clear -LP LN. lia.
  - apply Exists_app. right. by apply join_fits.
  - intros z. rewrite !free_byte_app, FP, FN, free_byte_cons. tauto.
  - intros x Hxb Hx. apply Hsame.
    + intros ->. apply Hx. rewrite free_byte_app, FP, FN. right. right. left. unfold plus, sizeof_Header. lia.
    + intros ->. destruct Hcase as [(-> & ->)|(L1' & -> & HP1 & Hm1)]; [done|].
      apply Hx. rewrite free_byte_app, FP. right. left. unfold plus, sizeof_Header. lia.
Qed.

(** ** The search of [malloc] *)

(** What taking [n] units from the block at [p] after [prevp] leaves. *)
Definition take_units (n prevp p : Z) (h : heap) : Z * heap :=
  let '(p, h) :=
    if s_size h p =? n then (p, set_ptr prevp (s_ptr h p) h)
    else
      let h := set_size p (u32 (s_size h p - n)) h in
      let p := plus p (s_size h p) in
      (p, set_size p n h) in
  (p, set_freep prevp h).

(** [b] are [n] units that were free in [L] and are not any more in [L']. *)
Record taken (base : Z) (h : heap) (L : list block) (top n b : Z) (h' : heap) (L' : list block) : Prop := {
  tk_list : list_ok base h' L' top;
  tk_size : s_size h' b = n;
  tk_bounds : plus base 1 < b ∧ plus b n ≤ top;
  tk_bytes z : free_byte L z ↔ free_byte L' z ∨ b ≤ z < plus b n;
  tk_apart z : b ≤ z < plus b n → ¬ free_byte L' z;
  tk_frame x : x ≠ base → ¬ free_byte L x → s_size h' x = s_size h x ∧ s_ptr h' x = s_ptr h x
}.

(** A block of the list apart from the others. *)
Lemma gaps_middle lo L1 a n L2 top : gaps lo (L1 ++ (a, n) :: L2) top → sizes_pos [(a, n)] →
  ∃ mid, gaps lo L1 mid ∧ mid < a ∧ gaps (plus a n) L2 top ∧ plus a n ≤ top ∧
  ∀ z, a ≤ z < plus a n → ¬ free_byte L1 z ∧ ¬ free_byte L2 z.
Proof.
  intros (mid & H1 & (Ha & _ & H2))%gaps_app Hn. apply Forall_cons in Hn as [Hn _]. cbn [snd] in Hn.
  replace (Z.max 1 n) with n in H2 by lia. exists mid. split; [done|]. split; [done|]. split; [done|].
  split; [apply (gaps_bounds _ _ _ H2)|]. intros z Hz. split; intros (c & k & Hc & Hzc).
  - apply gaps_bounds in H1 as [_ H1]. apply H1 in Hc. unfold plus, sizeof_Header in *. lia.
  - apply gaps_bounds in H2 as [_ H2]. apply H2 in Hc. unfold plus, sizeof_Header in *. lia.
Qed.

Lemma list_ok_prefix base h L1 q k a n L2 top : list_ok base h (L1 ++ (q, k) :: (a, n) :: L2) top →
  1 ≤ n ∧ plus base 1 < a ∧ ∃ F, L1 ++ [(q, k)] = (base, 0) :: F ∧ sizes_pos F ∧ sizes_pos L2.
Proof.
  intros [_ (F & E & HP) _ HG _]. change ((q, k) :: (a, n) :: L2) with ([(q, k)] ++ (a, n) :: L2) in E, HG. rewrite app_assoc in E, HG.
  destruct (L1 ++ [(q, k)]) as [|x L] eqn:EL; [by destruct L1|].
  cbn [app] in E. simplify_eq. apply Forall_app in HP as [HP1 HP2]. apply Forall_cons in HP2 as [Hn HP2]. cbn [snd] in Hn.
  destruct HG as (_ & _ & HG). apply gaps_bounds in HG as [_ HG]. destruct (HG a n) as (Ha & _); [apply elem_of_app; right; left|].
  split; [done|]. split; [exact Ha|]. by exists L.
Qed.

Lemma sizes_pos_one a n : 1 ≤ n → sizes_pos [(a, n)].
Proof. by repeat constructor. Qed.

Lemma gaps_skip lo a n L top : gaps lo ((a, n) :: L) top → gaps lo L top.
Proof. intros (Ha & Hn & HL). eapply gaps_le; [done|]. unfold plus, sizeof_Header. lia. Qed.

(** The block fits exactly: it leaves the list. *)
Lemma take_exact base h L1 q k a n L2 top :
  list_ok base h (L1 ++ (q, k) :: (a, n) :: L2) top →
  taken base h (L1 ++ (q, k) :: (a, n) :: L2) top n a (set_freep q (set_ptr q (s_ptr h a) h)) (L1 ++ (q, k) :: L2).
Proof.
  intros Hok. destruct (list_ok_prefix _ _ _ _ _ _ _ _ _ Hok) as (Hn & Hba & F & EF & HF & HP2).
  pose proof Hok as [Hbase _ HC HG _]. apply cells_app in HC as (HC1 & Ek & Eq & En & Ea & HC2). cbn [head_addr] in *.
  apply gaps_app in HG as HG'. destruct HG' as (m0 & G1 & (Hq & Hk & Gq)). pose proof Gq as (Hqa & _ & _).
  assert (HG2 := HG). change ((q, k) :: (a, n) :: L2) with ([(q, k)] ++ (a, n) :: L2) in HG2. rewrite app_assoc in HG2.
  destruct (gaps_middle _ _ _ _ _ _ HG2 (sizes_pos_one a n Hn)) as (mid & _ & _ & Ga & Ht & Hapart).
  split.
  - split; [done| | | |].
    + change ((q, k) :: L2) with ([(q, k)] ++ L2). rewrite app_assoc, EF. eexists. split; [done|]. by apply Forall_app.
    + apply (cells_frame (set_ptr q (s_ptr h a) h)); [done|]. apply cells_app. cbn [head_addr cells]. split_and!.
      * eapply cells_same; [apply same_set_ptr|eapply gaps_not_in; [exact G1|lia]|done].
      * done.
      * cbn. by rewrite fn_lookup_insert, Ea.
      * eapply cells_same; [apply same_set_ptr|eapply gaps_not_in; [exact Ga|unfold plus, sizeof_Header in *; lia]|done].
    + apply gaps_app. exists m0. split; [done|]. split; [done|]. split; [done|]. by eapply gaps_skip.
    + apply elem_addrs. exists k. apply elem_of_app. right. left.
  - done.
  - done.
  - intros z. rewrite !free_byte_app, !free_byte_cons. tauto.
  - intros z Hz. destruct (Hapart z Hz) as [H1 H2]. rewrite free_byte_app in H1. rewrite free_byte_app, !free_byte_cons in *.
    intros [?|[?|?]]; tauto.
  - intros x Hx Hf. cbn. split; [done|]. rewrite fn_lookup_insert_ne; [done|]. intros ->. apply Hf.
    destruct L1 as [|y L1]; cbn [app] in EF; injection EF as E1 E2; [congruence|]. subst F. apply Forall_app in HF as [_ HF].
    apply Forall_cons in HF as [Hk1 _]. apply (free_byte_addr _ _ k); [|done]. apply elem_of_app. right. left.
Qed.

(** The block is larger: its tail is taken. *)
Lemma take_tail base h L1 q k a n nu L2 top :
  list_ok base h (L1 ++ (q, k) :: (a, n) :: L2) top → 1 ≤ nu < n →
  taken base h (L1 ++ (q, k) :: (a, n) :: L2) top nu (plus a (n - nu))
    (set_freep q (set_size (plus a (n - nu)) nu (set_size a (n - nu) h))) (L1 ++ (q, k) :: (a, n - nu) :: L2).
Proof.
  intros Hok Hnu. destruct (list_ok_prefix _ _ _ _ _ _ _ _ _ Hok) as (Hn & Hba & F & EF & HF & HP2).
  pose proof Hok as [Hbase _ HC HG _]. apply cells_app in HC as (HC1 & Ek & Eq & En & Ea & HC2). cbn [head_addr] in *.
  apply gaps_app in HG as HG'. destruct HG' as (m0 & G1 & (Hq & Hk & Gq)). pose proof Gq as (Hqa & _ & _).
  assert (HG2 := HG). change ((q, k) :: (a, n) :: L2) with ([(q, k)] ++ (a, n) :: L2) in HG2. rewrite app_assoc in HG2.
  destruct (gaps_middle _ _ _ _ _ _ HG2 (sizes_pos_one a n Hn)) as (mid & _ & _ & Ga & Ht & Hapart).
  assert (Hb : a < plus a (n - nu) ∧ plus (plus a (n - nu)) nu = plus a n) by (unfold plus, sizeof_Header; lia).
  assert (Hqa' : q < a) by (unfold plus, sizeof_Header in *; lia).
  assert (Hba' : plus a (n - nu) < plus a n) by (unfold plus, sizeof_Header in *; lia).
  set (b := plus a (n - nu)) in *. destruct Hb as [Hab Hbn].
  assert (Hsame : ∀ x, x ≠ a → x ≠ b → s_size (set_size b nu (set_size a (n - nu) h)) x = s_size h x)
    by (intros x H1 H2; cbn; by rewrite !fn_lookup_insert_ne).
  assert (Hframe : ∀ L e, a ∉ addrs L → b ∉ addrs L → cells h L e → cells (set_freep q (set_size b nu (set_size a (n - nu) h))) L e).
  { intros L e H1 H2. apply cells_frame. intros x Hx. split; [|done]. apply Hsame; by intros ->. }
  split.
  - split; [done| | | |].
    + change ((q, k) :: (a, n - nu) :: L2) with ([(q, k)] ++ (a, n - nu) :: L2). rewrite app_assoc, EF. eexists. split; [done|].
      apply Forall_app. split; [done|]. constructor; [cbn; lia|done].
    + apply cells_app. cbn [head_addr cells]. split_and!.
      * apply Hframe; [eapply gaps_not_in; [exact G1|lia]..|done].
      * etrans; [apply Hsame; lia|done].
      * done.
      * cbn. rewrite fn_lookup_insert_ne, fn_lookup_insert by lia. done.
      * done.
      * apply Hframe; [eapply gaps_not_in; [exact Ga|lia]..|done].
    + apply gaps_app. exists m0. split; [done|]. split; [done|]. split; [done|]. destruct Gq as (? & _ & Gq).
      split; [done|]. split; [lia|]. eapply gaps_le; [done|]. unfold plus, sizeof_Header. lia.
    + apply elem_addrs. exists k. apply elem_of_app. right. left.
  - cbn. apply fn_lookup_insert.
  - lia.
  - intros z. rewrite !free_byte_app, !free_byte_cons, Hbn. fold b. intuition lia.
  - intros z Hz. destruct (Hapart z) as [H1 H2]; [lia|]. rewrite free_byte_app in H1. rewrite free_byte_app, !free_byte_cons in *.
    fold b. intros [?|[?|[?|?]]]; try tauto. lia.
  - intros x Hx Hf. split; [|done]. apply Hsame; intros ->; apply Hf; rewrite free_byte_app, !free_byte_cons; right; right; left; lia.
Qed.

Lemma take_units_ok base h L1 q k a n nu L2 top :
  list_ok base h (L1 ++ (q, k) :: (a, n) :: L2) top → 1 ≤ nu ≤ n →
  ∃ b h' L', take_units nu q a h = (b, h') ∧ taken base h (L1 ++ (q, k) :: (a, n) :: L2) top nu b h' L'.
Proof.
  intros Hok Hnu. pose proof Hok as [[Hbase Htop] _ HC HG _]. apply cells_app in HC as (_ & _ & _ & En & _).
  apply gaps_bounds in HG as [_ HG]. destruct (HG a n) as (Ha & _ & Hn); [apply elem_of_app; right; right; left|].
  unfold take_units. rewrite En. destruct (Z.eqb_spec n nu) as [->|Hne].
  - eexists _, _, _. split; [reflexivity|]. by apply take_exact.
  - eexists _, _, _. split; [|apply (take_tail _ _ _ _ _ _ n); [done|lia]].
    cbn. rewrite fn_lookup_insert, u32_small; [done|]. unfold plus, sizeof_Header in *. lia.
Qed.

Fixpoint last_addr (q : Z) (L : list block) : Z :=
  match L with
  | [] => q
  | (a, _) :: L => last_addr a L
  end.

Lemma last_addr_app q L1 L2 : last_addr q (L1 ++ L2) = last_addr (last_addr q L1) L2.
Proof. revert q. induction L1 as [|[a n] L1 IH]; intros q; [done|]. apply IH. Qed.

Definition unfit (nu : Z) (L : list block) : Prop := Forall (λ x, x.2 < nu) L.

Lemma first_fit nu L : unfit nu L ∨ ∃ L1 a n L2, L = L1 ++ (a, n) :: L2 ∧ unfit nu L1 ∧ nu ≤ n.
Proof.
  induction L as [|[a n] L IH]; [by left; constructor|]. destruct (Z_lt_ge_dec n nu) as [Hlt|Hge].
  - destruct IH as [IH|(L1 & b & m & L2 & -> & H1 & Hm)]; [left; by constructor|].
    right. exists ((a, n) :: L1), b, m, L2. split; [done|]. split; [by constructor|done].
  - right. exists [], a, n, L. split; [done|]. split; [constructor|lia].
Qed.

Section Scan.
Context {Rnd : Rounds} (nu : Z) (h : heap).

Lemma malloc_loop_skip S : ∀ e prevp fuel, cells h S e → unfit nu S → freep h ∉ addrs S →
  malloc_loop (length S + fuel) nu prevp (head_addr S e) h = malloc_loop fuel nu (last_addr prevp S) e h.
Proof.
  induction S as [|[a n] S IH]; intros e prevp fuel HC HU Hf; [done|].
  destruct HC as (En & Ea & HC). apply Forall_cons in HU as [Hn HU]. cbn [snd] in Hn.
  cbn [length Nat.add malloc_loop head_addr last_addr]. rewrite En, (proj2 (Z.leb_gt nu n)) by done.
  rewrite (proj2 (Z.eqb_neq a (freep h))) by (intros ->; apply Hf; left). rewrite Ea. apply IH; [done|done|].
  intros H. apply Hf. by right.
Qed.

Lemma malloc_loop_found fuel prevp p : nu ≤ s_size h p →
  malloc_loop fuel nu prevp p h = Ret (let '(b, h') := take_units nu prevp p h in (plus b 1, h')).
Proof.
  intros Hp. destruct fuel; cbn [malloc_loop]; rewrite (proj2 (Z.leb_le nu _)) by done; unfold take_units; by destruct (_ =? _).
Qed.
End Scan.

(** The list as the search goes through it: what follows [freep] first. *)
Lemma list_ok_rotate base h L top : list_ok base h L top →
  ∃ X s Y, L = X ++ (freep h, s) :: Y ∧ cells h X (freep h) ∧ cells h Y base ∧
    s_ptr h (freep h) = head_addr Y base ∧ s_size h (freep h) = s ∧ head_addr X (freep h) = base ∧
    (freep h ∉ addrs X) ∧ (freep h ∉ addrs Y).
Proof.
  intros [_ (F & EF & _) HC HG (s & Hf)%elem_addrs]. apply list_elem_of_split in Hf as (X & Y & ->).
  apply cells_app in HC as (HX & Es & Ep & HY). apply gaps_app in HG as (mid & G1 & (Hf & Hs & G2)).
  exists X, s, Y. split_and!; try done.
  - destruct X as [|[]]; cbn [app] in EF; by simplify_eq.
  - eapply gaps_not_in; [done|lia].
  - eapply gaps_not_in; [done|]. unfold plus, sizeof_Header. lia.
Qed.

Lemma last_of q L : (last_addr q L = q ∧ L = []) ∨ ∃ L0 k, L = L0 ++ [(last_addr q L, k)].
Proof.
  destruct L as [|x L _] using rev_ind; [by left|]. right. destruct x as [a k]. exists L, k. by rewrite last_addr_app.
Qed.

Lemma scan_step {Rnd : Rounds} base h top nu L L1 a n L2 prevp fuel :
  list_ok base h L top → 1 ≤ nu ≤ n → L = L1 ++ (a, n) :: L2 → L1 ≠ [] → prevp = last_addr base L1 →
  ∃ b h' L', malloc_loop fuel nu prevp a h = Ret (plus b 1, h') ∧ taken base h L top nu b h' L'.
Proof.
  intros Hok Hnu -> Hne ->. destruct (last_of base L1) as [[_ ?]|(L0 & k & E)]; [done|].
  rewrite E in Hok at 1. rewrite <- app_assoc in Hok. cbn [app] in Hok.
  destruct (take_units_ok base h L0 _ k a n nu L2 top Hok Hnu) as (b & h' & L' & Et & Hk).
  exists b, h', L'. rewrite E at 2. rewrite <- app_assoc. cbn [app]. split; [|exact Hk].
  rewrite malloc_loop_found; [by rewrite Et|]. apply lo_cells in Hok. apply cells_app in Hok as (_ & _ & _ & -> & _). lia.
Qed.

Lemma scan_fits {Rnd : Rounds} base h L top nu fuel :
  list_ok base h L top → 1 ≤ nu → fits nu L → (length L ≤ fuel)%nat →
  ∃ b h' L', malloc_loop fuel nu (freep h) (s_ptr h (freep h)) h = Ret (plus b 1, h') ∧ taken base h L top nu b h' L'.
Proof.
  intros Hok Hnu Hfit Hfuel. destruct (list_ok_rotate _ _ _ _ Hok) as (X & s & Y & EL & HX & HY & Ep & Es & Hhd & HfX & HfY).
  rewrite Ep. assert (Hlen : (length X + S (length Y) ≤ fuel)%nat) by (subst L; by rewrite length_app in Hfuel).
  destruct (first_fit nu Y) as [HU|(Y1 & a & n & Y2 & -> & HU & Hn)].
  - assert (Hl : ∃ L1 a n L2, X ++ [(freep h, s)] = L1 ++ (a, n) :: L2 ∧ unfit nu L1 ∧ nu ≤ n).
    { destruct (first_fit nu (X ++ [(freep h, s)])) as [HU2|]; [|done]. exfalso. apply Exists_exists in Hfit as (x & Hx & Hn).
      change ((freep h, s) :: Y) with ([(freep h, s)] ++ Y) in EL. rewrite app_assoc in EL. subst L.
      apply elem_of_app in Hx as [Hx|Hx]; [eapply Forall_forall in HU2|eapply Forall_forall in HU]; try done; cbv beta in *; lia. }
    destruct Hl as (L1 & a & n & L2 & EX & HU1 & Hn).
    assert (EL' : L = L1 ++ (a, n) :: L2 ++ Y).
    { subst L. change ((freep h, s) :: Y) with ([(freep h, s)] ++ Y). rewrite app_assoc, EX, <- app_assoc. done. }
    assert (HL1 : L1 ≠ []).
    { intros ->. destruct (lo_first _ _ _ _ Hok) as (F & EF & _). rewrite EF in EL'. cbn [app] in EL'. simplify_eq. lia. }
    assert (Hpre : ∃ R, X = L1 ++ R ∧ head_addr R (freep h) = a).
    { destruct L2 as [|y L2 _] using rev_ind.
      - apply app_inj_tail in EX as [-> [= <- <-]]. exists []. by rewrite app_nil_r.
      - rewrite app_comm_cons, app_assoc in EX. apply app_inj_tail in EX as [-> _]. by exists ((a, n) :: L2). }
    destruct Hpre as (R & -> & HR). apply cells_app in HX as [HX1 _]. rewrite HR in HX1. rewrite length_app in Hlen.
    replace fuel with (length Y + (length L1 + (fuel - length Y - length L1)))%nat by (lia).
    rewrite malloc_loop_skip by done. assert (Hh : head_addr L1 a = base) by (destruct L1 as [|[]]; done).
    pose proof (malloc_loop_skip nu h L1 a (last_addr (freep h) Y) (fuel - length Y - length L1) HX1 HU1) as E. rewrite Hh in E.
    rewrite E by (intros H; apply HfX; unfold addrs; rewrite fmap_app; apply elem_of_app; by left).
    eapply (scan_step _ _ _ _ _ L1 a n); [done|lia|exact EL'|done|]. by destruct L1 as [|[c k] L1].
  - apply cells_app in HY as [HY1 _]. rewrite head_addr_app. rewrite length_app in Hlen. cbn [length head_addr] in *.
    replace fuel with (length Y1 + (fuel - length Y1))%nat by (lia).
    rewrite malloc_loop_skip; [|done|done|intros H; apply HfY; unfold addrs; rewrite fmap_app; apply elem_of_app; by left].
    eapply (scan_step _ _ _ _ _ (X ++ (freep h, s) :: Y1) a n); [done|lia|rewrite EL, <- app_assoc; done|by destruct X|].
    by rewrite last_addr_app.
Qed.
