(* ===== verification/UmallocProps.v ===== *)
(** * malloc and free are correct

    What a client of the allocator may rely on: blocks of the size asked for that
    overlap nothing, kept intact until they are freed, and memory that is not lost. *)

From stdpp Require Import functions.
From S2P Require Import Prelude ULib Umalloc UmallocSpec.

Lemma gaps_top lo L top top' : gaps lo L top → top ≤ top' → gaps lo L top'.
Proof. revert lo. induction L as [|[a n] L IH]; intros lo; cbn [gaps]; [lia|]. naive_solver. Qed.

Lemma list_ok_top base h L top top' : list_ok base h L top → top ≤ top' ≤ 2 ^ 32 → list_ok base h L top'.
Proof. intros [[Hb Ht] H1 H2 H3 H4] Hle. split; [lia|done|done| |done]. eapply gaps_top; [done|lia]. Qed.

Lemma list_ok_size base h L top x n : list_ok base h L top → (∀ a, a ∈ addrs L → a ≠ x) → list_ok base (set_size x n h) L top.
Proof.
  intros [H0 H1 H2 H3 H4] Hx. split; try done. eapply cells_frame; [|done]. intros a Ha. cbn.
  rewrite fn_lookup_insert_ne; [done|]. intros ->. by eapply Hx.
Qed.

Lemma list_ok_free_below base h L top z : list_ok base h L top → free_byte L z → z < top.
Proof.
  intros [_ _ _ HG _] (a & n & Ha & Hz). apply gaps_bounds in HG as [_ HG]. apply HG in Ha.
  unfold plus, sizeof_Header in *. lia.
Qed.

Lemma list_ok_freep base h L top : list_ok base h L top → freep h ≠ 0.
Proof. intros [Hb _ _ HG Hf]. pose proof (gaps_addrs _ _ _ _ HG Hf). lia. Qed.

Section Run.
Context {Rnd : Rounds} (base : Z) (grant : Z → Z → bool).

(** The search without success ends at [freep]. *)
Lemma scan_none h L top nu fuel : list_ok base h L top → unfit nu L → (length L ≤ fuel)%nat →
  ∃ fuel' prevp, (fuel ≤ fuel' + length L)%nat ∧
    malloc_loop fuel nu (freep h) (s_ptr h (freep h)) h = malloc_loop (S fuel') nu prevp (freep h) h.
Proof.
  intros Hok HU Hf. destruct (list_ok_rotate _ _ _ _ Hok) as (X & s & Y & -> & HX & HY & Ep & Es & Hhd & HfX & HfY).
  apply Forall_app in HU as [HUX HUY]. apply Forall_cons in HUY as [_ HUY]. rewrite length_app in Hf. cbn [length] in Hf.
  exists (fuel - length X - length Y - 1)%nat, (last_addr (last_addr (freep h) Y) X). split; [rewrite length_app; cbn [length]; lia|].
  rewrite Ep. replace fuel with (length Y + (length X + S (fuel - length X - length Y - 1)))%nat at 1 by lia.
  rewrite malloc_loop_skip by done. rewrite <- Hhd. by apply malloc_loop_skip.
Qed.

(** The amount that [morecore] asks for. *)
Definition core_units (nu : Z) : Z := if nu <? 4096 then 4096 else nu.

Lemma malloc_loop_run h L brk nu :
  list_ok base h L brk → plus base 1 < brk → 1 ≤ nu → nu * 16 < 2 ^ 31 → (2 * length L + 2 ≤ rounds)%nat →
  (∀ n, grant brk n = true → brk + n ≤ 2 ^ 32) →
  let r := heap_run grant (malloc_loop rounds nu (freep h) (s_ptr h (freep h)) h) brk in
  (r = Some ((0, h), brk) ∧ unfit nu L ∧ grant brk (core_units nu * 16) = false) ∨
  ∃ b h' L' brk' h1 L1, r = Some ((plus b 1, h'), brk') ∧ taken base h1 L1 brk' nu b h' L' ∧ brk ≤ brk' ∧
    (∀ z, free_byte L1 z ↔ free_byte L z ∨ brk ≤ z < brk') ∧
    (∀ x, x ≠ base → ¬ free_byte L1 x → s_size h1 x = s_size h x ∧ s_ptr h1 x = s_ptr h x).
Proof.
  intros Hok Hbrk Hnu Hbig Hr Hg r. destruct (first_fit nu L) as [HU|(L1 & a & n & L2 & EL & _ & Hn)].
  - destruct (scan_none h L brk nu rounds Hok HU) as (fuel & prevp & Hfuel & E); [lia|]. subst r. rewrite E. clear E.
    assert (Hsz : s_size h (freep h) < nu).
    { destruct (list_ok_rotate _ _ _ _ Hok) as (X & s & Y & -> & _ & _ & _ & -> & _). apply Forall_app in HU as [_ HU]. by apply Forall_cons in HU as [? _]. }
    cbn [malloc_loop]. rewrite (proj2 (Z.leb_gt nu _)), Z.eqb_refl by done. unfold morecore. fold (core_units nu).
    assert (Hcu : 4096 ≤ core_units nu ∧ nu ≤ core_units nu ∧ core_units nu * 16 < 2 ^ 31) by (unfold core_units; destruct (Z.ltb_spec nu 4096); lia).
    set (cu := core_units nu) in *. clearbody cu. cbn [mbind prog_bind pbind sys heap_run a0]. unfold sizeof_Header. rewrite i32_small by lia.
    destruct (grant brk (cu * 16)) eqn:Eg.
    + right. apply Hg in Eg. destruct (lo_base _ _ _ _ Hok) as [Hbase _]. assert (brk > 0) by (unfold plus, sizeof_Header in *; lia).
      rewrite (proj2 (Z.eqb_neq brk (-1))), (proj2 (Z.ltb_ge (brk + cu * 16) 0)) by lia.
      destruct (free_list_ok base (set_size brk cu h) L (brk + cu * 16) brk cu) as (h1 & L1 & -> & Hok1 & Hlen & Hfits & Hfb & Hframe).
      * apply list_ok_size; [eapply list_ok_top; [done|lia]|]. intros a Ha ->. eapply gaps_addrs in Ha; [|by apply lo_gaps in Hok]. lia.
      * lia.
      * unfold plus, sizeof_Header. lia.
      * done.
      * cbn. apply fn_lookup_insert.
      * intros z Hz Hf. eapply list_ok_free_below in Hf; [|done]. lia.
      * lia.
      * cbn [pbind]. pose proof (list_ok_freep _ _ _ _ Hok1) as Hf1.
        rewrite (proj2 (Z.eqb_neq _ 0)) by done. destruct (scan_fits base h1 L1 (brk + cu * 16) nu fuel) as (b & h' & L' & -> & Ht); [done|done| |lia|].
        { eapply Exists_impl; [done|]. cbv beta. lia. }
        exists b, h', L', (brk + cu * 16), h1, L1. split; [done|]. split; [done|]. split; [lia|]. split; [exact Hfb|].
        intros x Hx Hnf. destruct (Hframe x Hx Hnf) as [-> ->]. split; [|done]. cbn. rewrite fn_lookup_insert_ne; [done|].
        intros <-. apply Hnf, Hfb. right. unfold plus, sizeof_Header. lia.
    + left. done.
  - right. destruct (scan_fits base h L brk nu rounds Hok Hnu) as (b & h' & L' & E & Ht); [|lia|].
    { subst L. apply Exists_app. right. by left. }
    subst r. rewrite E. exists b, h', L', brk, h, L. split; [done|]. split; [done|]. split; [lia|]. split; [|done].
    intros z. split; [by left|]. intros [?|?]; [done|lia].
Qed.
End Run.

(** ** The heap and its client *)

(** What [malloc] finds at its first call is made up for there. *)
Definition ready (base : Z) (h : heap) : heap :=
  if freep h =? 0 then set_size base 0 (set_freep base (set_ptr base base h)) else h.

(** [A] are the blocks that the client holds, from their headers to their units. *)
Record heap_inv (base : Z) (h : heap) (brk : Z) (L : list block) (A : gmap Z Z) : Prop := {
  hv_list : list_ok base (ready base h) L brk;
  hv_brk : plus base 1 < brk;
  hv_start : freep h = 0 → A = ∅;
  hv_live a n : A !! a = Some n → 1 ≤ n ∧ plus base 1 < a ∧ plus a n ≤ brk ∧ s_size h a = n;
  hv_apart a n z : A !! a = Some n → a ≤ z < plus a n → ¬ free_byte L z;
  hv_disjoint a n b m : A !! a = Some n → A !! b = Some m → a ≠ b → plus a n ≤ b ∨ plus b m ≤ a
}.

(** The memory of the client's blocks is what it was. *)
Definition kept (A : gmap Z Z) (h h' : heap) : Prop :=
  ∀ a n x, A !! a = Some n → a ≤ x < plus a n → s_size h' x = s_size h x ∧ s_ptr h' x = s_ptr h x.

Lemma ready_ok base h L top : list_ok base h L top → ready base h = h.
Proof. intros Hok. unfold ready. by rewrite (proj2 (Z.eqb_neq _ 0)) by by eapply list_ok_freep. Qed.

Lemma ready_same base h x : x ≠ base → s_size (ready base h) x = s_size h x ∧ s_ptr (ready base h) x = s_ptr h x.
Proof. intros Hx. unfold ready. destruct (_ =? 0); [|done]. cbn. by rewrite !fn_lookup_insert_ne. Qed.

Lemma no_overlap a n b m : 1 ≤ n → 1 ≤ m → (∀ z, a ≤ z < plus a n → ¬ b ≤ z < plus b m) → plus a n ≤ b ∨ plus b m ≤ a.
Proof. intros Hn Hm H. specialize (H (Z.max a b)). unfold plus, sizeof_Header in *. lia. Qed.

Lemma nunits_bounds nbytes : 0 ≤ nbytes ≤ 2 ^ 31 - 32 →
  1 ≤ nunits nbytes ∧ nunits nbytes * 16 < 2 ^ 31 ∧ nbytes ≤ (nunits nbytes - 1) * 16 < nbytes + 16.
Proof.
  intros Hn. unfold nunits, sizeof_Header. pose proof (Z.div_mod (nbytes + 16 - 1) 16). pose proof (Z.mod_pos_bound (nbytes + 16 - 1) 16).
  rewrite u32_small; lia.
Qed.

Section Client.
Context {Rnd : Rounds} (base : Z) (grant : Z → Z → bool).

Lemma heap_inv_ready h brk L A : heap_inv base h brk L A → heap_inv base (ready base h) brk L A ∧ kept A h (ready base h).
Proof.
  intros Hv. split.
  - split; try apply Hv.
    + pose proof (hv_list _ _ _ _ _ Hv) as Hok. by rewrite (ready_ok _ _ _ _ Hok).
    + intros H0. pose proof (hv_list _ _ _ _ _ Hv) as Hok. by apply list_ok_freep in Hok.
    + intros a n Ha. destruct (hv_live _ _ _ _ _ Hv a n Ha) as (? & ? & ? & ?). destruct (ready_same base h a) as [-> _]; [|done].
      unfold plus, sizeof_Header in *. lia.
  - intros a n x Ha Hx. apply ready_same. pose proof (hv_live _ _ _ _ _ Hv a n Ha). unfold plus, sizeof_Header in *. lia.
Qed.

(** A block that was free in [L], or beyond the old break, becomes the client's. *)
Lemma heap_inv_taken h brk L A brk' nu b h1 L1 h' L' :
  heap_inv base h brk L A → 1 ≤ nu → taken base h1 L1 brk' nu b h' L' → brk ≤ brk' →
  (∀ z, free_byte L1 z ↔ free_byte L z ∨ brk ≤ z < brk') →
  (∀ x, x ≠ base → ¬ free_byte L1 x → s_size h1 x = s_size h x ∧ s_ptr h1 x = s_ptr h x) →
  heap_inv base h' brk' L' (<[b := nu]> A) ∧ A !! b = None ∧ kept A h h'.
Proof.
  intros Hv Hnu Ht Hle Hfb Hfr.
  assert (Hout : ∀ a n z, A !! a = Some n → a ≤ z < plus a n → ¬ free_byte L1 z).
  { intros a n z Ha Hz [H|H]%Hfb; [by apply (hv_apart _ _ _ _ _ Hv a n z)|]. pose proof (hv_live _ _ _ _ _ Hv a n Ha). lia. }
  assert (Hkept : kept A h h').
  { intros a n x Ha Hx. pose proof (hv_live _ _ _ _ _ Hv a n Ha). assert (x ≠ base) as Hxb by (unfold plus, sizeof_Header in *; lia).
    pose proof (Hout a n x Ha Hx) as Hnf. destruct (tk_frame _ _ _ _ _ _ _ _ Ht x Hxb Hnf) as [-> ->]. by apply Hfr. }
  assert (Hdis : ∀ a n, A !! a = Some n → plus a n ≤ b ∨ plus b nu ≤ a).
  { intros a n Ha. pose proof (hv_live _ _ _ _ _ Hv a n Ha). apply no_overlap; [lia|done|].
    intros z Hz Hzb. apply (Hout a n z Ha Hz), (tk_bytes _ _ _ _ _ _ _ _ Ht). by right. }
  assert (HAb : A !! b = None).
  { destruct (A !! b) as [n|] eqn:E; [|done]. pose proof (hv_live _ _ _ _ _ Hv b n E). pose proof (Hdis b n E).
    unfold plus, sizeof_Header in *. lia. }
  pose proof (tk_list _ _ _ _ _ _ _ _ Ht) as Hok. pose proof (tk_bounds _ _ _ _ _ _ _ _ Ht) as Hbd. pose proof (hv_brk _ _ _ _ _ Hv) as Hbk.
  split; [|done]. split.
  - by rewrite (ready_ok _ _ _ _ Hok).
  - lia.
  - intros H0. by apply list_ok_freep in Hok.
  - intros a n [[<- <-]|[_ Ha]]%lookup_insert_Some; [split; [done|]; split; [apply Hbd|split; [apply Hbd|apply (tk_size _ _ _ _ _ _ _ _ Ht)]]|].
    pose proof (hv_live _ _ _ _ _ Hv a n Ha) as (H1 & H2 & H3 & H4). destruct (Hkept a n a Ha) as [-> _]; [unfold plus, sizeof_Header; lia|].
    split_and!; [done|done|lia|done].
  - intros a n z [[<- <-]|[_ Ha]]%lookup_insert_Some Hz; [by apply (tk_apart _ _ _ _ _ _ _ _ Ht)|].
    intros Hf. apply (Hout a n z Ha Hz), (tk_bytes _ _ _ _ _ _ _ _ Ht). by left.
  - intros a n c m [[<- <-]|[_ Ha]]%lookup_insert_Some [[<- <-]|[_ Hc]]%lookup_insert_Some Hne; [done|..].
    + specialize (Hdis c m Hc). tauto.
    + by apply Hdis.
    + by apply (hv_disjoint _ _ _ _ _ Hv).
Qed.

(** C13: [malloc] always returns.  Either it answers 0, which it does only when no free
    block is large enough and the kernel has refused the memory, and nothing changes;
    or it returns the address after the header of a block that overlaps no block in use
    and has room for [nbytes] bytes.  The blocks in use keep their contents, and what
    was free or comes from the kernel is the new block or remains free. *)
Theorem malloc_correct h brk L A nbytes :
  heap_inv base h brk L A → 0 ≤ nbytes ≤ 2 ^ 31 - 32 → (2 * length L + 2 ≤ rounds)%nat →
  (∀ n, grant brk n = true → brk + n ≤ 2 ^ 32) →
  ∃ ap h' brk' L', heap_run grant (malloc base nbytes h) brk = Some ((ap, h'), brk') ∧ kept A h h' ∧
    ((ap = 0 ∧ unfit (nunits nbytes) L ∧ grant brk (core_units (nunits nbytes) * 16) = false ∧ brk' = brk ∧ heap_inv base h' brk L A) ∨
     (∃ a, ap = plus a 1 ∧ A !! a = None ∧ nbytes ≤ (nunits nbytes - 1) * 16 < nbytes + 16 ∧
        heap_inv base h' brk' L' (<[a := nunits nbytes]> A) ∧
        ∀ z, free_byte L z ∨ brk ≤ z < brk' ↔ free_byte L' z ∨ a ≤ z < plus a (nunits nbytes))).
Proof.
  intros Hv Hn Hr Hg. destruct (nunits_bounds nbytes Hn) as (Hnu & Hbig & Hroom). destruct (heap_inv_ready _ _ _ _ Hv) as [Hv' Hk].
  unfold malloc. fold (ready base h). pose proof (hv_list _ _ _ _ _ Hv) as Hok.
  destruct (malloc_loop_run base grant (ready base h) L brk (nunits nbytes)) as [(E & HU & Hno)|(b & h' & L' & brk' & h1 & L1 & E & Ht & Hle & Hfb & Hfr)];
    [done|apply Hv|done..| |].
  - exists 0, (ready base h), brk, L. split; [exact E|]. split; [done|]. by left.
  - destruct (heap_inv_taken _ _ _ _ _ _ _ _ _ _ _ Hv' Hnu Ht Hle Hfb Hfr) as (Hv2 & Hnone & Hk2).
    exists (plus b 1), h', brk', L'. split; [exact E|]. split.
    { intros a n x Ha Hx. destruct (Hk a n x Ha Hx) as [<- <-]. by eapply Hk2. }
    right. exists b. split; [done|]. split; [done|]. split; [done|]. split; [done|].
    intros z. rewrite <- Hfb. apply (tk_bytes _ _ _ _ _ _ _ _ Ht).
Qed.

(** C14: [free] of a block in use returns it to the free memory, merged with the free
    blocks it touches, leaves the contents of the other blocks alone, and terminates. *)
Theorem free_correct h brk L A a n :
  heap_inv base h brk L A → A !! a = Some n → (length L ≤ rounds)%nat →
  ∃ h' L', free (plus a 1) h = Some h' ∧ heap_inv base h' brk L' (delete a A) ∧ kept (delete a A) h h' ∧
    ∀ z, free_byte L' z ↔ free_byte L z ∨ a ≤ z < plus a n.
Proof.
  intros Hv Ha Hr. pose proof (hv_list _ _ _ _ _ Hv) as Hok. destruct (hv_live _ _ _ _ _ Hv a n Ha) as (Hn & Hb & Ht & Es).
  assert (Hready : ready base h = h).
  { unfold ready. destruct (Z.eqb_spec (freep h) 0) as [H0|]; [|done]. apply (hv_start _ _ _ _ _ Hv) in H0. by subst A. }
  rewrite Hready in Hok. destruct (free_list_ok base h L brk a n) as (h' & L' & E & Hok' & _ & _ & Hfb & Hfr); [done..| |done|].
  { intros z. by apply (hv_apart _ _ _ _ _ Hv a n z). }
  assert (Hout : ∀ c m z, delete a A !! c = Some m → c ≤ z < plus c m → ¬ free_byte L' z).
  { intros c m z [Hne Hc]%lookup_delete_Some Hz [H|H]%Hfb; [by apply (hv_apart _ _ _ _ _ Hv c m z)|].
    destruct (hv_disjoint _ _ _ _ _ Hv a n c m Ha Hc Hne); lia. }
  assert (Hkept : kept (delete a A) h h').
  { intros c m x Hc Hx. apply Hfr; [|by eapply Hout]. apply lookup_delete_Some in Hc as [_ Hc].
    pose proof (hv_live _ _ _ _ _ Hv c m Hc). unfold plus, sizeof_Header in *. lia. }
  exists h', L'. split; [done|]. split; [|done]. split.
  - by rewrite (ready_ok _ _ _ _ Hok').
  - apply Hv.
  - intros H0. by apply list_ok_freep in Hok'.
  - intros c m Hc. pose proof Hc as [_ Hc']%lookup_delete_Some. pose proof (hv_live _ _ _ _ _ Hv c m Hc') as (? & ? & ? & Esz).
    destruct (Hkept c m c Hc) as [-> _]; [unfold plus, sizeof_Header; lia|]. done.
  - exact Hout.
  - intros c m d k [_ Hc]%lookup_delete_Some [_ Hd]%lookup_delete_Some. by apply (hv_disjoint _ _ _ _ _ Hv).
Qed.
End Client.

(** ** A program that has just started *)

Definition no_heap : heap := Heap 0 (λ _, 0) (λ _, 0).

Lemma heap_inv_start base brk : 0 < base → plus base 1 < brk ≤ 2 ^ 32 → heap_inv base no_heap brk [(base, 0)] ∅.
Proof.
  intros Hb Hbrk. split; try done; [|lia]. split; try done.
  - lia.
  - exists []. split; [done|constructor].
  - cbn. rewrite !fn_lookup_insert. done.
  - cbn [gaps]. change (Z.max 1 0) with 1. lia.
  - left.
Qed.

Lemma malloc_correct_witness :
  ∃ ap h' brk', heap_run (λ brk n, brk + n <=? 2 ^ 27) (malloc (Rnd := 10%nat) 4096 100 no_heap) 16384 = Some ((ap, h'), brk') ∧
    kept ∅ no_heap h' ∧ ap ≠ 0.
Proof.
  destruct (malloc_correct (Rnd := 10%nat) 4096 (λ brk n, brk + n <=? 2 ^ 27) no_heap 16384 [(4096, 0)] ∅ 100)
    as (ap & h' & brk' & L' & E & Hk & Hc).
  - apply heap_inv_start; unfold plus, sizeof_Header; lia.
  - lia.
  - vm_compute. lia.
  - intros n Hn%Z.leb_le. lia.
  - exists ap, h', brk'. split; [exact E|]. split; [exact Hk|].
    destruct Hc as [(_ & _ & Hno & _)|(a & -> & _ & _ & Hv & _)]; [by vm_compute in Hno|].
    destruct (hv_live _ _ _ _ _ Hv a _ (lookup_insert_eq _ _ _)) as (_ & H & _). unfold plus, sizeof_Header in *. lia.
Defined.

Definition one_block : heap := set_size 20000 10 (ready 4096 no_heap).

Lemma one_block_inv : heap_inv 4096 one_block 24576 [(4096, 0)] {[20000 := 10]}.
Proof.
  split.
  - split; [lia| |cbn|cbn [gaps plus]|left].
    + exists []. split; [done|constructor].
    + done.
    + unfold plus, sizeof_Header. lia.
  - done.
  - done.
  - intros a n [<- <-]%lookup_singleton_Some. done.
  - intros a n z [<- <-]%lookup_singleton_Some Hz (b & m & [[= -> ->]|H]%elem_of_cons & Hb); [unfold plus, sizeof_Header in *; lia|].
    by apply not_elem_of_nil in H.
  - intros a n b m [<- _]%lookup_singleton_Some [<- _]%lookup_singleton_Some. done.
Qed.

Lemma free_correct_witness :
  ∃ h' L', free (Rnd := 10%nat) 20016 one_block = Some h' ∧ heap_inv 4096 h' 24576 L' (delete 20000 {[20000 := 10]}).
Proof.
  destruct (free_correct (Rnd := 10%nat) 4096 one_block 24576 [(4096, 0)] {[20000 := 10]} 20000 10) as (h' & L' & E & Hv & _).
  - exact one_block_inv.
  - reflexivity.
  - vm_compute. lia.
  - by exists h', L'.
Defined.

(** The bound on [nbytes] is needed: [nu * sizeof(Header)] is passed to [sbrk] as an
    [int].  A request for 4 GiB less one byte is answered with an address, while the
    break has moved by 16 bytes. *)
Lemma malloc_request_wraps :
  (λ r, (r.1.1, r.2)) <$> heap_run (λ _ n, n <=? 2 ^ 27) (malloc (Rnd := 10%nat) 4096 (2 ^ 32 - 1) no_heap) 16384 = Some (16400, 16400).
Proof. vm_compute. reflexivity. Qed.
