(* ===== verification/Sh.v ===== *)
(** * The shell (user/sh.c)

    The parser works on one array; pointers into it are offsets.  [malloc] is taken to
    succeed, as the code does.  The command structures hold strings of type [S]: pairs
    of pointers to the first character and after the last one as parsed, C strings as
    run. *)

From S2P Require Import Prelude CString Bytes ULib.

Inductive cmd (S : Type) : Type :=
  | EXEC (argv : list S)
  | REDIR (c : cmd S) (file : S) (mode fd : Z)
  | PIPE (left right : cmd S)
  | LIST (left right : cmd S)
  | BACK (c : cmd S).
Arguments EXEC {S}. Arguments REDIR {S}. Arguments PIPE {S}. Arguments LIST {S}. Arguments BACK {S}.

Fixpoint cmd_map {S T} (f : S → T) (c : cmd S) : cmd T :=
  match c with
  | EXEC argv => EXEC (f <$> argv)
  | REDIR c file mode fd => REDIR (cmd_map f c) (f file) mode fd
  | PIPE l r => PIPE (cmd_map f l) (cmd_map f r)
  | LIST l r => LIST (cmd_map f l) (cmd_map f r)
  | BACK c => BACK (cmd_map f c)
  end.

Definition MAXARGS : nat := 10.

(** ** Parsing *)

(** The result of a parsing function: a value and the new [*ps], a call of [panic], or
    no fuel. *)
Inductive result (A : Type) : Type := Parsed (a : A) (s : nat) | Failed (msg : string) | Deep.
Arguments Parsed {A}. Arguments Failed {A}. Arguments Deep {A}.

Definition parser (A : Type) : Type := nat → result A.
#[global] Instance parser_ret : MRet parser := λ A a s, Parsed a s.
#[global] Instance parser_bind : MBind parser := λ A B f m s,
  match m s with
  | Parsed a s => f a s
  | Failed msg => Failed msg
  | Deep => Deep
  end.
Definition fail {A} (msg : string) : parser A := λ _, Failed msg.
Definition deep {A} : parser A := λ _, Deep.

Definition whitespace : list Z := [32; 9; 13; 10; 11].
Definition symbols : list Z := lit "<|>&;()".

Definition isin (set : list Z) (c : Z) : bool := match strchr set c with Some _ => true | None => false end.

Section Parse.
Context (buf : list Z) (es : nat).

Definition ch (s : nat) : Z := nth s buf 0.

(** [while(s < es && strchr(whitespace, *s)) s++;] with [k = es - s]. *)
Fixpoint skip (k s : nat) : nat :=
  match k with
  | O => s
  | S k => if isin whitespace (ch s) then skip k (S s) else s
  end.

(** [while(s < es && !strchr(whitespace, *s) && !strchr(symbols, *s)) s++;] *)
Fixpoint word (k s : nat) : nat :=
  match k with
  | O => s
  | S k => if negb (isin whitespace (ch s)) && negb (isin symbols (ch s)) then word k (S s) else s
  end.

(** The token, and the pointers [*q] and [*eq]. *)
Definition gettoken : parser (Z * (nat * nat)) := λ s,
  let s := skip (es - s) s in
  let q := s in
  let c := ch s in
  let '(ret, s) :=
    if c =? 0 then (c, s)
    else if (c =? 124) || (c =? 40) || (c =? 41) || (c =? 59) || (c =? 38) || (c =? 60) then (c, S s)
    else if c =? 62 then
      let s := S s in
      if ch s =? 62 then (43, S s) else (c, s)
    else (97, word (es - s) s) in
  let eq := s in
  let s := skip (es - s) s in
  Parsed (ret, (q, eq)) s.

Definition peek (toks : list Z) : parser bool := λ s,
  let s := skip (es - s) s in
  Parsed (negb (ch s =? 0) && isin toks (ch s)) s.

(** The file, the mode and the descriptor of a [redircmd]. *)
Definition redir : Type := nat * nat * Z * Z.
Definition redircmd (c : cmd (nat * nat)) (r : redir) : cmd (nat * nat) :=
  let '(q, eq, mode, fd) := r in REDIR c (q, eq) mode fd.

(** The redirections in the order in which the code wraps the command into them. *)
Fixpoint parseredirs (fuel : nat) : parser (list redir) :=
  pk ← peek (lit "<>");
  if negb pk then mret [] else
  '(tok, _) ← gettoken;
  '(t, (q, eq)) ← gettoken;
  if negb (t =? 97) then fail "missing file for redirection" else
  let r :=
    if tok =? 60 then [(q, eq, 0, 0)]                (* O_RDONLY *)
    else if tok =? 62 then [(q, eq, 1537, 1)]        (* O_WRONLY|O_CREATE|O_TRUNC *)
    else if tok =? 43 then [(q, eq, 513, 1)]         (* O_WRONLY|O_CREATE *)
    else [] in
  match fuel with
  | O => deep
  | S fuel => rs ← parseredirs fuel; mret (r ++ rs)
  end.

(** The loop of [parseexec]; [cmd->argv] and [cmd->eargv] hold [argv], and [ret] is the
    command wrapped into [rs]. *)
Fixpoint parseargs (fuel : nat) (argv : list (nat * nat)) (rs : list redir) : parser (cmd (nat * nat)) :=
  pk ← peek (lit "|)&;");
  if (pk : bool) then mret (foldl redircmd (EXEC argv) rs) else
  '(tok, (q, eq)) ← gettoken;
  if tok =? 0 then mret (foldl redircmd (EXEC argv) rs)
  else if negb (tok =? 97) then fail "syntax" else
  let argv := argv ++ [(q, eq)] in
  if (MAXARGS <=? length argv)%nat then fail "too many args" else
  match fuel with
  | O => deep
  | S fuel => rs' ← parseredirs fuel; parseargs fuel argv (rs ++ rs')
  end.

(** [while(peek(ps, es, "&")) ...] *)
Fixpoint parseback (fuel : nat) (c : cmd (nat * nat)) : parser (cmd (nat * nat)) :=
  pk ← peek (lit "&");
  if negb pk then mret c else
  gettoken;;
  match fuel with
  | O => deep
  | S fuel => parseback fuel (BACK c)
  end.

Fixpoint parseline (fuel : nat) : parser (cmd (nat * nat)) :=
  match fuel with
  | O => deep
  | S fuel =>
      c ← parsepipe fuel;
      c ← parseback fuel c;
      pk ← peek (lit ";");
      if (pk : bool) then gettoken;; r ← parseline fuel; mret (LIST c r) else mret c
  end
with parsepipe (fuel : nat) : parser (cmd (nat * nat)) :=
  match fuel with
  | O => deep
  | S fuel =>
      c ← parseexec fuel;
      pk ← peek (lit "|");
      if (pk : bool) then gettoken;; r ← parsepipe fuel; mret (PIPE c r) else mret c
  end
with parseblock (fuel : nat) : parser (cmd (nat * nat)) :=
  match fuel with
  | O => deep
  | S fuel =>
      pk ← peek (lit "(");
      if negb pk then fail "parseblock" else
      gettoken;;
      c ← parseline fuel;
      pk ← peek (lit ")");
      if negb pk then fail "syntax - missing )" else
      gettoken;;
      rs ← parseredirs fuel;
      mret (foldl redircmd c rs)
  end
with parseexec (fuel : nat) : parser (cmd (nat * nat)) :=
  match fuel with
  | O => deep
  | S fuel =>
      pk ← peek (lit "(");
      if (pk : bool) then parseblock fuel else
      rs ← parseredirs fuel;
      parseargs fuel [] rs
  end.
End Parse.

(** [*p = 0] *)
Definition zero_at (p : nat) (buf : list Z) : list Z := <[p := 0]> buf.

Fixpoint nulterminate (c : cmd (nat * nat)) (buf : list Z) : list Z :=
  match c with
  | EXEC argv => foldl (λ buf arg, zero_at arg.2 buf) buf argv
  | REDIR c file _ _ => zero_at file.2 (nulterminate c buf)
  | PIPE l r | LIST l r => nulterminate r (nulterminate l buf)
  | BACK c => nulterminate c buf
  end.

(** ** Running *)

Section Run.
Context {Rnd : Rounds}.

Definition panic {A} (s : list Z) : prog A := fprintf 2 (lit "%s" ++ [10]) [VS (Some s)];; exit 1.

(** The command with its strings, or a message and the end.  The parser makes at most
    four calls without taking a character: hence the fuel. *)
Definition parsecmd (buf : list Z) : prog (cmd (list Z)) :=
  let es := length (cstring buf) in
  match parseline buf es (4 * es + 4) 0%nat with
  | Parsed c s =>
      match peek buf es [] s with
      | Parsed _ s =>
          if negb (s =? es)%nat then
            fprintf 2 (lit "leftovers: %s" ++ [10]) [VS (Some (drop s buf))];;
            panic (lit "syntax")
          else
            let buf := nulterminate c buf in
            Ret (cmd_map (λ '(q, _), cstring (drop q buf)) c)
      | Failed msg => panic (lit msg)
      | Deep => Spin
      end
  | Failed msg => panic (lit msg)
  | Deep => Spin
  end.

Definition fork1 : prog Z :=
  pid ← sys Fork;
  if pid =? -1 then panic (lit "fork") else Ret pid.

(** The two descriptors that [pipe(p)] stores. *)
Definition pipe : prog (Z * (Z * Z)) :=
  '(r, p) ← sys_data Pipe;
  Ret (r, (i32 (get 4 0 p), i32 (get 4 4 p))).

(** [runcmd] does not return. *)
Fixpoint runcmd (c : cmd (list Z)) : prog unit :=
  match c with
  | EXEC argv =>
      match argv with
      | [] => exit 1
      | path :: _ =>
          sys (Exec path argv);;
          fprintf 2 (lit "exec %s failed" ++ [10]) [VS (Some path)];;
          exit 0
      end
  | REDIR c file mode fd =>
      sys (Close fd);;
      r ← sys (Open file mode);
      if r <? 0 then fprintf 2 (lit "open %s failed" ++ [10]) [VS (Some file)];; exit 1
      else runcmd c;; exit 0
  | LIST lcmd rcmd =>
      pid ← fork1;
      (if pid =? 0 then runcmd lcmd else Ret tt);;
      sys (Wait false);;
      runcmd rcmd;;
      exit 0
  | PIPE lcmd rcmd =>
      '(r, (p0, p1)) ← pipe;
      if r <? 0 then panic (lit "pipe") else
      pid ← fork1;
      (if pid =? 0 then sys (Close 1);; sys (Dup p1);; sys (Close p0);; sys (Close p1);; runcmd lcmd else Ret tt);;
      pid ← fork1;
      (if pid =? 0 then sys (Close 0);; sys (Dup p0);; sys (Close p0);; sys (Close p1);; runcmd rcmd else Ret tt);;
      sys (Close p0);;
      sys (Close p1);;
      sys (Wait false);;
      sys (Wait false);;
      exit 0
  | BACK c =>
      pid ← fork1;
      (if pid =? 0 then runcmd c else Ret tt);;
      exit 0
  end.

Definition sizeof_buf : Z := 100.

(** The array after the call, or [None] at the end of the input. *)
Definition getcmd (buf : list Z) (nbuf : Z) : prog (option (list Z)) :=
  sys (Write 2 (lit "$ "));;
  let buf := memset buf 0 nbuf in
  buf ← gets buf nbuf;
  if deref buf =? 0 then Ret None else Ret (Some buf).

(** [while((fd = open("console", O_RDWR)) >= 0)] *)
Fixpoint open_console (fuel : nat) : prog unit :=
  fd ← sys (Open (lit "console") 2);
  if fd <? 0 then Ret tt
  else if 3 <=? fd then sys (Close fd);; Ret tt
  else match fuel with
       | O => Spin
       | S fuel => open_console fuel
       end.

Fixpoint main_loop (fuel : nat) (buf : list Z) : prog unit :=
  line ← getcmd buf sizeof_buf;
  match line with
  | None => Ret tt
  | Some buf =>
      let next := match fuel with O => λ _, Spin | S fuel => main_loop fuel end in
      if (nth 0 buf 0 =? 99) && (nth 1 buf 0 =? 100) && (nth 2 buf 0 =? 32) then
        let buf := <[Z.to_nat (strlen buf - 1) := 0]> buf in
        r ← sys (Chdir (cstring (drop 3 buf)));
        (if r <? 0 then fprintf 2 (lit "cannot cd %s" ++ [10]) [VS (Some (drop 3 buf))] else Ret tt);;
        next buf
      else
        pid ← fork1;
        (if pid =? 0 then c ← parsecmd buf; runcmd c else Ret tt);;
        sys (Wait false);;
        next buf
  end.

Definition main : prog Z :=
  open_console rounds;;
  main_loop rounds (replicate (Z.to_nat sizeof_buf) 0);;
  exit 0.
End Run.
