(* ===== verification/ShParse.v ===== *)
(** * The parser of the shell terminates within its input

    Every parsing function stays inside the line, ends, and the pointers that it
    stores delimit words; so the NULs that [nulterminate] stores end the right strings. *)

From S2P Require Import Prelude CString ULib Sh.

Definition blank (c : Z) : bool := isin whitespace c.
Definition wordchar (c : Z) : bool := negb (isin whitespace c) && negb (isin symbols c).

Lemma isin_zero set : isin set 0 = false.
Proof.
  unfold isin. induction set as [|b set IH]; cbn [strchr]; [done|].
  destruct (b =? 0); [done|]. by destruct (strchr set 0).
Qed.

Lemma isin_cons b set c : b ≠ 0 → isin (b :: set) c = (b =? c) || isin set c.
Proof.
  intros Hb. unfold isin. cbn [strchr]. rewrite (proj2 (Z.eqb_neq b 0)) by done.
  destruct (b =? c); [done|]. by destruct (strchr set c).
Qed.

Section Scanning.
Context (buf : list Z) (es : nat).
Hypothesis Hnz : ∀ s, (s < es)%nat → ch buf s ≠ 0.
Hypothesis Hz : ch buf es = 0.

Lemma inside s : (s ≤ es)%nat → ch buf s ≠ 0 → (s < es)%nat.
Proof using Hz. intros Hs Hc. destruct (decide (s = es)) as [->|]; [done|lia]. Qed.

Lemma skip_spec s : (s ≤ es)%nat → (s ≤ skip buf (es - s) s ≤ es)%nat ∧ blank (ch buf (skip buf (es - s) s)) = false.
Proof using Hz.
  remember (es - s)%nat as k eqn:Ek. revert s Ek. induction k as [|k IH]; intros s Ek Hs; cbn [skip].
  - assert (s = es) as -> by lia. split; [lia|]. rewrite Hz. apply isin_zero.
  - destruct (isin whitespace (ch buf s)) eqn:E; [|split; [lia|done]].
    destruct (IH (S s)) as [? ?]; [lia|lia|]. split; [lia|done].
Qed.

Lemma skip_blank_free s : blank (ch buf s) = false → ∀ k, skip buf k s = s.
Proof using. intros Hb [|k]; cbn [skip]; [done|]. unfold blank in Hb. by rewrite Hb. Qed.

Lemma word_spec s : (s ≤ es)%nat → let e := word buf (es - s) s in
  (s ≤ e ≤ es)%nat ∧ (∀ i, (s ≤ i < e)%nat → wordchar (ch buf i) = true) ∧ (e = es ∨ wordchar (ch buf e) = false).
Proof using.
  remember (es - s)%nat as k eqn:Ek. revert s Ek. induction k as [|k IH]; intros s Ek Hs; cbn [word].
  - split; [lia|]. split; [lia|]. left. lia.
  - destruct (negb (isin whitespace (ch buf s)) && negb (isin symbols (ch buf s))) eqn:E.
    + destruct (IH (S s)) as (? & Hin & ?); [lia|lia|]. split; [lia|]. split; [|done].
      intros i Hi. destruct (decide (i = s)) as [->|]; [done|]. apply Hin. lia.
    + split; [lia|]. split; [lia|]. by right.
Qed.

(** Two pointers that delimit a word. *)
Record word_range (r : nat * nat) : Prop := {
  wr_order : (r.1 < r.2 ≤ es)%nat;
  wr_in i : (r.1 ≤ i < r.2)%nat → wordchar (ch buf i) = true;
  wr_end : wordchar (ch buf r.2) = false ∨ r.2 = es
}.

(** The cases of the [switch]: the symbols are exactly the characters that end a word
    and are not blank. *)
Lemma wordchar_default c : c ≠ 0 → blank c = false →
  (c =? 124) || (c =? 40) || (c =? 41) || (c =? 59) || (c =? 38) || (c =? 60) = false → c ≠ 62 → wordchar c = true.
Proof using.
  intros H0 Hb Hs H62. unfold wordchar. unfold blank in Hb. rewrite Hb. unfold symbols.
  change (lit "<|>&;()") with [60; 124; 62; 38; 59; 40; 41]. rewrite !isin_cons by done.
  rewrite !orb_false_iff, !Z.eqb_neq in Hs. destruct Hs as (((((? & ?) & ?) & ?) & ?) & ?).
  rewrite (proj2 (Z.eqb_neq 60 c)), (proj2 (Z.eqb_neq 124 c)), (proj2 (Z.eqb_neq 62 c)), (proj2 (Z.eqb_neq 38 c)),
    (proj2 (Z.eqb_neq 59 c)), (proj2 (Z.eqb_neq 40 c)), (proj2 (Z.eqb_neq 41 c)) by congruence. done.
Qed.

(** What [gettoken] does after the blanks: it stands at [q]. *)
Lemma gettoken_spec s : (s ≤ es)%nat →
  let q := skip buf (es - s) s in
  ∃ tok e, gettoken buf es s = Parsed (tok, (q, e)) (skip buf (es - e) e) ∧ (q ≤ e ≤ es)%nat ∧
    (tok = 0 ∧ ch buf q = 0 ∨ (q < e)%nat ∧ ch buf q ≠ 0) ∧ (tok = 97 → word_range (q, e)).
Proof using Hnz Hz.
  intros Hs q. destruct (skip_spec s Hs) as [Hq Hb]. fold q in Hq, Hb. unfold gettoken. fold q.
  destruct (Z.eqb_spec (ch buf q) 0) as [H0|H0].
  { exists (ch buf q), q. split_and!; [done|lia|lia|by left|]. intros H. congruence. }
  pose proof (inside q (proj2 Hq) H0) as Hlt.
  destruct ((ch buf q =? 124) || _ || _ || _ || _ || _) eqn:Es.
  { exists (ch buf q), (S q). split_and!; [done|lia|lia|right; split; [lia|done]|]. intros E. exfalso. rewrite E in Es. done. }
  destruct (Z.eqb_spec (ch buf q) 62) as [H62|H62].
  { destruct (Z.eqb_spec (ch buf (S q)) 62) as [H62'|].
    - assert (S q < es)%nat by (apply inside; [lia|by rewrite H62']).
      exists 43, (S (S q)). split_and!; [done|lia|lia|right; split; [lia|done]|done].
    - exists (ch buf q), (S q). split_and!; [done|lia|lia|right; split; [lia|done]|]. intros E. congruence. }
  destruct (word_spec q (proj2 Hq)) as (He & Hin & Hend). set (e := word buf (es - q) q) in *.
  pose proof (wordchar_default _ H0 Hb Es H62) as Hw.
  assert (q < e)%nat as Hqe.
  { destruct (decide (e = q)) as [E|]; [|lia]. exfalso. rewrite E in Hend. destruct Hend as [?|?]; [lia|congruence]. }
  exists 97, e. split_and!; [done|lia|lia|by right|]. intros _. split; cbn [fst snd]; [lia|done|tauto].
Qed.

Lemma peek_spec toks s : (s ≤ es)%nat →
  let s' := skip buf (es - s) s in
  peek buf es toks s = Parsed (negb (ch buf s' =? 0) && isin toks (ch buf s')) s' ∧ (s ≤ s' ≤ es)%nat ∧ blank (ch buf s') = false.
Proof using Hz. intros Hs s'. split; [done|]. by apply skip_spec. Qed.
End Scanning.

(** ** Every parsing function ends inside the line *)

Section Fine.
Context (buf : list Z) (es : nat).
Hypothesis Hnz : ∀ s, (s < es)%nat → ch buf s ≠ 0.
Hypothesis Hz : ch buf es = 0.

(** The call has ended, at [s] or later, or it has called [panic]. *)
Definition ends {A} (s : nat) (Q : A → nat → Prop) (r : result A) : Prop :=
  match r with
  | Parsed a s' => (s ≤ s' ≤ es)%nat ∧ Q a s'
  | Failed _ => True
  | Deep => False
  end.

Lemma ends_bind {A B} s (Q : A → nat → Prop) (Q' : B → nat → Prop) (m : parser A) (f : A → parser B) :
  ends s Q (m s) → (∀ a s', (s ≤ s' ≤ es)%nat → Q a s' → ends s' Q' (f a s')) → ends s Q' ((m ≫= f) s).
Proof.
  unfold mbind, parser_bind. destruct (m s) as [a s'|msg|]; cbn [ends]; [|done..]. intros [Hs HQ] Hf.
  specialize (Hf a s' Hs HQ). destruct (f a s') as [b s''|msg|]; cbn [ends] in *; [|done..]. split; [lia|tauto].
Qed.

Lemma ends_ret {A} s (Q : A → nat → Prop) a : (s ≤ es)%nat → Q a s → ends s Q (mret (M := parser) a s).
Proof. intros Hs HQ. split; [lia|done]. Qed.

(** A token in front, or not. *)
Definition ahead (s : nat) : Prop := (s < es)%nat ∧ blank (ch buf s) = false.

Lemma peek_ends toks s : (s ≤ es)%nat → ends s (λ b s', b = true → ahead s') (peek buf es toks s).
Proof using Hz.
  intros Hs. destruct (peek_spec buf es Hz toks s Hs) as (-> & Hle & Hb). split; [done|].
  intros [H0 _]%andb_true_iff. split; [|done]. apply (inside buf es Hz); [lia|].
  intros E. rewrite E in H0. done.
Qed.

Lemma gettoken_ends s : (s ≤ es)%nat →
  ends s (λ '(tok, r) s', (tok = 0 ∨ (s < s')%nat) ∧ (ahead s → (s < s')%nat) ∧ (tok = 97 → word_range buf es r)) (gettoken buf es s).
Proof using Hnz Hz.
  intros Hs. destruct (gettoken_spec buf es Hnz Hz s Hs) as (tok & e & -> & Hqe & Hcase & Hw).
  destruct (skip_spec buf es Hz s Hs) as [Hq _]. destruct (skip_spec buf es Hz e) as [He _]; [lia|].
  split; [lia|]. split; [|split; [|done]].
  - destruct Hcase as [[-> _]|[? _]]; [by left|right; lia].
  - intros [Hlt Hb]. rewrite (skip_blank_free buf s Hb) in *. destruct Hcase as [[_ H0]|[? _]]; [|lia]. by apply Hnz in Hlt.
Qed.

Definition redir_ok (r : redir) : Prop := word_range buf es r.1.1 ∧ ((r.1.2, r.2) ∈ [(0, 0); (1537, 1); (513, 1)]).

(** The pointers of a command delimit words, and the arrays are long enough. *)
Fixpoint cmd_ok (c : cmd (nat * nat)) : Prop :=
  match c with
  | EXEC argv => Forall (word_range buf es) argv ∧ (length argv < MAXARGS)%nat
  | REDIR c file mode fd => cmd_ok c ∧ redir_ok (file, mode, fd)
  | PIPE l r | LIST l r => cmd_ok l ∧ cmd_ok r
  | BACK c => cmd_ok c
  end.

Lemma redirs_ok rs c : cmd_ok c → Forall redir_ok rs → cmd_ok (foldl redircmd c rs).
Proof.
  revert c. induction rs as [|[[[q e] mode] fd] rs IH]; intros c Hc Hrs; [done|]. apply Forall_cons in Hrs as [Hr Hrs]. by apply IH.
Qed.

Lemma parseredirs_ends fuel : ∀ s, (s ≤ es)%nat → (es - s ≤ fuel)%nat → ends s (λ rs _, Forall redir_ok rs) (parseredirs buf es fuel s).
Proof using Hnz Hz.
  induction fuel as [|fuel IH]; intros s Hs Hf; cbn [parseredirs];
    (eapply ends_bind; [by apply peek_ends|]; intros b s1 Hs1 Hb; destruct b; cbn [negb]; [|apply ends_ret; [lia|constructor]]);
    specialize (Hb eq_refl); (eapply ends_bind; [apply gettoken_ends; lia|]; intros [tok r0] s2 Hs2 (_ & H2 & _)); specialize (H2 Hb); [lia|].
  eapply ends_bind; [apply gettoken_ends; lia|]. intros [t [q e]] s3 Hs3 (_ & _ & Hw).
  destruct (Z.eqb_spec t 97) as [->|]; cbn [negb]; [|done]. specialize (Hw eq_refl).
  eapply ends_bind; [apply IH; lia|]. intros rs s4 Hs4 Hrs. apply ends_ret; [lia|]. apply Forall_app. split; [|done].
  assert (Hone : ∀ m, m ∈ [(0, 0); (1537, 1); (513, 1)] → Forall redir_ok [(q, e, m.1, m.2)])
    by (intros [m1 m2] Hm; constructor; [split; [exact Hw|exact Hm]|constructor]).
  destruct (tok =? 60); [apply (Hone (0, 0)); left|]. destruct (tok =? 62); [apply (Hone (1537, 1)); right; left|].
  destruct (tok =? 43); [apply (Hone (513, 1)); right; right; left|constructor].
Qed.

Lemma parseargs_ends fuel : ∀ s argv rs, (s ≤ es)%nat → (es - s ≤ fuel)%nat →
  Forall (word_range buf es) argv → (length argv < MAXARGS)%nat → Forall redir_ok rs →
  ends s (λ c _, cmd_ok c) (parseargs buf es fuel argv rs s).
Proof using Hnz Hz.
  induction fuel as [|fuel IH]; intros s argv rs Hs Hf Ha Hl Hrs; cbn [parseargs];
    (eapply ends_bind; [by apply peek_ends|]; intros b s1 Hs1 _; destruct b; [apply ends_ret; [lia|by apply redirs_ok]|]);
    (eapply ends_bind; [apply gettoken_ends; lia|]; intros [tok [q e]] s2 Hs2 (H2 & _ & Hw));
    (destruct (Z.eqb_spec tok 0) as [->|Ht]; [apply ends_ret; [lia|by apply redirs_ok]|]);
    (destruct (Z.eqb_spec tok 97) as [->|]; cbn [negb]; [|done]); specialize (Hw eq_refl); destruct H2 as [?|H2]; try done; [lia|].
  destruct (Nat.leb_spec MAXARGS (length (argv ++ [(q, e)]))) as [|Hl']; [done|].
  eapply ends_bind; [apply parseredirs_ends; lia|]. intros rs' s3 Hs3 Hrs'.
  apply IH; [lia|lia|apply Forall_app; split; [done|constructor; [done|constructor]]|done|by apply Forall_app].
Qed.

Lemma parseback_ends fuel : ∀ s c, (s ≤ es)%nat → (es - s ≤ fuel)%nat → cmd_ok c → ends s (λ c _, cmd_ok c) (parseback buf es fuel c s).
Proof using Hnz Hz.
  induction fuel as [|fuel IH]; intros s c Hs Hf Hc; cbn [parseback];
    (eapply ends_bind; [by apply peek_ends|]; intros b s1 Hs1 Hb; destruct b; cbn [negb]; [|by apply ends_ret; [lia|]]);
    specialize (Hb eq_refl); (eapply ends_bind; [apply gettoken_ends; lia|]; intros [tok r0] s2 Hs2 (_ & H2 & _)); specialize (H2 Hb); [lia|].
  apply IH; [lia|lia|done].
Qed.

(** The fuel that each function needs: four calls per character. *)
Lemma parse_ends fuel :
  (∀ s, (s ≤ es)%nat → (4 * (es - s) + 4 ≤ fuel)%nat → ends s (λ c _, cmd_ok c) (parseline buf es fuel s)) ∧
  (∀ s, (s ≤ es)%nat → (4 * (es - s) + 3 ≤ fuel)%nat → ends s (λ c _, cmd_ok c) (parsepipe buf es fuel s)) ∧
  (∀ s, (s ≤ es)%nat → (4 * (es - s) + 1 ≤ fuel)%nat → ends s (λ c _, cmd_ok c) (parseblock buf es fuel s)) ∧
  (∀ s, (s ≤ es)%nat → (4 * (es - s) + 2 ≤ fuel)%nat → ends s (λ c _, cmd_ok c) (parseexec buf es fuel s)).
Proof using Hnz Hz.
  induction fuel as [|fuel (IHl & IHp & IHb & IHe)]; [split_and!; intros; lia|].
  split_and!; intros s Hs Hf; cbn [parseline parsepipe parseblock parseexec].
  - eapply ends_bind; [apply IHp; lia|]. intros c s1 Hs1 Hc. eapply ends_bind; [apply parseback_ends; [lia|lia|exact Hc]|].
    intros c2 s2 Hs2 Hc2. eapply ends_bind; [apply peek_ends; lia|]. intros b s3 Hs3 Hb. destruct b; [|apply ends_ret; [lia|done]].
    eapply ends_bind; [apply gettoken_ends; lia|]. intros [tok r] s4 Hs4 (_ & H4 & _). specialize (H4 (Hb eq_refl)).
    eapply ends_bind; [apply IHl; lia|]. intros c5 s5 Hs5 Hc5. apply ends_ret; [lia|done].
  - eapply ends_bind; [apply IHe; lia|]. intros c s1 Hs1 Hc. eapply ends_bind; [apply peek_ends; lia|].
    intros b s3 Hs3 Hb. destruct b; [|apply ends_ret; [lia|done]].
    eapply ends_bind; [apply gettoken_ends; lia|]. intros [tok r] s4 Hs4 (_ & H4 & _). specialize (H4 (Hb eq_refl)).
    eapply ends_bind; [apply IHp; lia|]. intros c5 s5 Hs5 Hc5. apply ends_ret; [lia|done].
  - eapply ends_bind; [apply peek_ends; lia|]. intros b s1 Hs1 Hb. destruct b; cbn [negb]; [|done].
    eapply ends_bind; [apply gettoken_ends; lia|]. intros [tok r] s2 Hs2 (_ & H2 & _). specialize (H2 (Hb eq_refl)).
    eapply ends_bind; [apply IHl; lia|]. intros c s3 Hs3 Hc. eapply ends_bind; [apply peek_ends; lia|].
    intros b s4 Hs4 _. destruct b; cbn [negb]; [|done]. eapply ends_bind; [apply gettoken_ends; lia|]. intros [tok' r'] s5 Hs5 _.
    eapply ends_bind; [apply parseredirs_ends; lia|]. intros rs s6 Hs6 Hrs. apply ends_ret; [lia|by apply redirs_ok].
  - eapply ends_bind; [apply peek_ends; lia|]. intros b s1 Hs1 Hb. destruct b; [apply IHb; lia|].
    eapply ends_bind; [apply parseredirs_ends; lia|]. intros rs s2 Hs2 Hrs.
    apply parseargs_ends; [lia|lia|constructor|unfold MAXARGS; cbn; lia|done].
Qed.
End Fine.

(** ** Strings *)

(** The characters between two pointers. *)
Definition between (buf : list Z) (r : nat * nat) : list Z := take (r.2 - r.1) (drop r.1 buf).

(** Where [nulterminate] stores. *)
Fixpoint cmd_ends (c : cmd (nat * nat)) : list nat :=
  match c with
  | EXEC argv => snd <$> argv
  | REDIR c file _ _ => cmd_ends c ++ [file.2]
  | PIPE l r | LIST l r => cmd_ends l ++ cmd_ends r
  | BACK c => cmd_ends c
  end.

Lemma nth_zero_at p i buf : nth i (zero_at p buf) 0 = if decide (i = p) then 0 else nth i buf 0.
Proof.
  unfold zero_at. rewrite !nth_lookup. case_decide as E; [subst|by rewrite list_lookup_insert_ne].
  destruct (decide (p < length buf)%nat) as [H|H]; [by rewrite list_lookup_insert_eq|].
  by rewrite list_insert_ge, lookup_ge_None_2 by lia.
Qed.

Lemma nth_zero_args i argv : ∀ buf,
  nth i (foldl (λ buf (arg : nat * nat), zero_at arg.2 buf) buf argv) 0 = if decide (i ∈ argv.*2) then 0 else nth i buf 0.
Proof.
  induction argv as [|a argv IH]; intros buf; cbn [foldl fmap list_fmap].
  - by rewrite decide_False by apply not_elem_of_nil.
  - rewrite IH, nth_zero_at. destruct (decide (i ∈ argv.*2)); [rewrite decide_True by (by right); done|].
    destruct (decide (i = a.2)) as [->|]; [by rewrite decide_True by left|]. rewrite decide_False; [done|]. by intros [?|?]%elem_of_cons.
Qed.

Lemma nth_nulterminate i c : ∀ buf, nth i (nulterminate c buf) 0 = if decide (i ∈ cmd_ends c) then 0 else nth i buf 0.
Proof.
  assert (Happ : ∀ (l1 l2 : list nat) (x : Z), (if decide (i ∈ l2) then 0 else if decide (i ∈ l1) then 0 else x) = if decide (i ∈ l1 ++ l2) then 0 else x).
  { intros l1 l2 x. destruct (decide (i ∈ l2)), (decide (i ∈ l1)); first [rewrite decide_True by (apply elem_of_app; tauto); done|idtac].
    rewrite decide_False; [done|]. rewrite elem_of_app. tauto. }
  induction c as [argv|c IH file mode fd|l IHl r IHr|l IHl r IHr|c IH]; intros buf; cbn [nulterminate cmd_ends].
  - apply nth_zero_args.
  - rewrite <- Happ, <- IH, nth_zero_at. destruct (decide (i = file.2)) as [->|Hne]; [by rewrite decide_True by left|].
    rewrite decide_False; [done|]. by intros ?%list_elem_of_singleton.
  - by rewrite IHr, IHl, Happ.
  - by rewrite IHr, IHl, Happ.
  - apply IH.
Qed.

Lemma cstring_between buf buf' q e : (q ≤ e)%nat →
  (∀ i, (q ≤ i < e)%nat → nth i buf' 0 = nth i buf 0 ∧ nth i buf 0 ≠ 0) → nth e buf' 0 = 0 →
  cstring (drop q buf') = between buf (q, e).
Proof.
  unfold between. cbn [fst snd]. intros Hle. remember (e - q)%nat as k eqn:Ek. revert q Hle Ek.
  induction k as [|k IH]; intros q Hle Ek Hin He.
  - assert (q = e) as -> by lia. rewrite take_0. destruct (drop e buf') as [|b r] eqn:Ed; [done|].
    assert (nth e buf' 0 = b) as Eb by (rewrite nth_lookup, <- (Nat.add_0_r e), <- lookup_drop, Ed; done).
    cbn [cstring]. by rewrite <- Eb, He.
  - destruct (Hin q) as [E1 E2]; [lia|].
    assert (Hd : ∀ b : list Z, nth q b 0 ≠ 0 → drop q b = nth q b 0 :: drop (S q) b).
    { intros b Hb. destruct (lookup_lt_is_Some_2 b q) as [x Hx].
      { destruct (decide (q < length b)%nat); [done|]. rewrite nth_overflow in Hb by lia. done. }
      rewrite (drop_S b x q Hx), nth_lookup, Hx. done. }
    rewrite (Hd buf'), (Hd buf) by congruence. cbn [take cstring]. rewrite E1, (proj2 (Z.eqb_neq _ 0)) by done. f_equal.
    apply IH; [lia|lia| |done]. intros i Hi. apply Hin. lia.
Qed.

Lemma cmd_ends_ok buf es c : cmd_ok buf es c → ∀ e, e ∈ cmd_ends c → wordchar (ch buf e) = false ∨ e = es.
Proof.
  induction c as [argv|c IH file mode fd|l IHl r IHr|l IHl r IHr|c IH]; cbn [cmd_ok cmd_ends]; intros Hok e He.
  - apply list_elem_of_fmap in He as (r & -> & Hr). destruct Hok as [Hok _]. eapply Forall_forall in Hok; [|done]. apply (wr_end _ _ _ Hok).
  - destruct Hok as [Hok [Hr _]]. apply elem_of_app in He as [He|He%list_elem_of_singleton]; [by apply IH|]. subst e. apply (wr_end _ _ _ Hr).
  - destruct Hok as [H1 H2]. apply elem_of_app in He as [He|He]; [by apply IHl|by apply IHr].
  - destruct Hok as [H1 H2]. apply elem_of_app in He as [He|He]; [by apply IHl|by apply IHr].
  - by apply IH.
Qed.

Lemma cmd_map_ext {T} (f g : nat * nat → T) buf es (E : list nat) c : cmd_ok buf es c →
  (∀ r, word_range buf es r → r.2 ∈ E → f r = g r) → (∀ e, e ∈ cmd_ends c → e ∈ E) → cmd_map f c = cmd_map g c.
Proof.
  intros Hok Hfg. induction c as [argv|c IH file mode fd|l IHl r IHr|l IHl r IHr|c IH]; cbn [cmd_ok cmd_ends cmd_map] in *; intros HE.
  - f_equal. destruct Hok as [Hok _]. induction argv as [|a argv IH]; [done|]. apply Forall_cons in Hok as [Ha Hok]. cbn.
    f_equal; [apply Hfg; [done|apply HE; left]|]. apply IH; [done|]. intros e He. apply HE. by right.
  - destruct Hok as [Hok [Hr _]]. rewrite IH; [f_equal; apply Hfg; [done|apply HE, elem_of_app; right; left]|done|].
    intros e He. apply HE, elem_of_app. by left.
  - destruct Hok as [H1 H2]. rewrite IHl, IHr; [done|done|intros e He; apply HE, elem_of_app; by right|done|intros e He; apply HE, elem_of_app; by left].
  - destruct Hok as [H1 H2]. rewrite IHl, IHr; [done|done|intros e He; apply HE, elem_of_app; by right|done|intros e He; apply HE, elem_of_app; by left].
  - by rewrite IH.
Qed.

Lemma cstring_end buf : nth (length (cstring buf)) buf 0 = 0 ∧ ∀ s, (s < length (cstring buf))%nat → nth s buf 0 ≠ 0.
Proof.
  induction buf as [|b buf [IH1 IH2]]; cbn [cstring]; [split; [done|cbn; lia]|].
  destruct (Z.eqb_spec b 0) as [->|Hb]; cbn [length]; [split; [done|lia]|]. split; [done|].
  intros [|s] Hs; [done|]. cbn. apply IH2. lia.
Qed.

Lemma nulterminate_strings buf c : let es := length (cstring buf) in cmd_ok buf es c →
  cmd_map (λ '(q, _), cstring (drop q (nulterminate c buf))) c = cmd_map (between buf) c.
Proof.
  intros es Hok. apply (cmd_map_ext _ _ buf es (cmd_ends c)); [done| |done]. intros [q e] [Ho Hin Hend] He. cbn [fst snd] in *.
  apply cstring_between; [lia| |].
  - intros i Hi. rewrite nth_nulterminate, decide_False.
    + split; [done|]. apply cstring_end. fold es. lia.
    + intros Hi'. destruct (cmd_ends_ok _ _ _ Hok i Hi') as [Hw|Hw]; [|lia]. rewrite Hin in Hw by lia. done.
  - by rewrite nth_nulterminate, decide_True.
Qed.

(** C16: The parser of the shell terminates on every line.  It returns a command whose
    strings are the words of the line, at most nine of them in an argument array of ten
    pointers, with every NUL stored at the end of its word; or it exits with a message. *)
Theorem parsecmd_terminates buf :
  let es := length (cstring buf) in
  (∃ c, parsecmd buf = Ret (cmd_map (between buf) c) ∧ cmd_ok buf es c) ∨
  (∃ msg, parsecmd buf = panic (lit msg)) ∨
  (∃ s, (s < es)%nat ∧ parsecmd buf = (fprintf 2 (lit "leftovers: %s" ++ [10]) [VS (Some (drop s buf))];; panic (lit "syntax"))).
Proof.
  intros es. destruct (cstring_end buf) as [Hz Hnz]. unfold parsecmd. fold es.
  destruct (parse_ends buf es Hnz Hz (4 * es + 4)) as (Hl & _). specialize (Hl 0%nat ltac:(lia) ltac:(lia)).
  destruct (parseline buf es (4 * es + 4) 0%nat) as [c s|msg|]; [|right; left; by exists msg|done].
  destruct Hl as [Hs Hok]. destruct (peek_spec buf es Hz [] s) as (-> & Hs' & _); [lia|].
  destruct (Nat.eqb_spec (skip buf (es - s) s) es) as [E|Hne]; cbn [negb].
  - left. exists c. split; [|done]. by rewrite (nulterminate_strings buf c).
  - right. right. eexists. split; [|done]. lia.
Qed.
