(* ===== verification/ShPrint.v ===== *)
(** * The shell understands every command tree

    A printer for command trees, with the parentheses that the grammar needs, and the
    round trip: what it prints, the parser reads back as the same tree. *)

From S2P Require Import Prelude CString ULib Sh ShParse.

(** ** Printing *)

Definition good_word (w : list Z) : Prop := w ≠ [] ∧ Forall (λ c, wordchar c = true ∧ c ≠ 0) w.

(** A redirection: the file, and the mode and descriptor that an operator stands for. *)
Definition redirect : Type := list Z * Z * Z.
Definition operator (mode : Z) : list Z := if mode =? 0 then [60] else if mode =? 1537 then [62] else [62; 62].
Definition good_redirect (r : redirect) : Prop :=
  let '(f, mode, fd) := r in good_word f ∧ ((mode, fd) ∈ [(0, 0); (1537, 1); (513, 1)]).

Definition show_redirect (r : redirect) : list Z := let '(f, mode, _) := r in operator mode ++ f ++ [32].
Definition show_redirects (rs : list redirect) : list Z := rs ≫= show_redirect.
Definition show_words (ws : list (list Z)) : list Z := ws ≫= (λ w, w ++ [32]).

Definition paren (b : bool) (t : list Z) : list Z := if b then [40] ++ t ++ [41] else t.

(** At level 0 lists, 1 background commands, 2 pipelines, 3 the others. *)
Fixpoint show (level : nat) (c : cmd (list Z)) : list Z :=
  match c with
  | EXEC argv => show_words argv
  | REDIR c f mode fd => show 3 c ++ show_redirect (f, mode, fd)
  | PIPE l r => paren (2 <? level)%nat (show 3 l ++ [124] ++ show 2 r)
  | LIST l r => paren (0 <? level)%nat (show 1 l ++ [59] ++ show 0 r)
  | BACK c => paren (1 <? level)%nat (show 1 c ++ [38])
  end.

Fixpoint good_cmd (c : cmd (list Z)) : Prop :=
  match c with
  | EXEC argv => Forall good_word argv ∧ (length argv < MAXARGS)%nat
  | REDIR c f mode fd => good_cmd c ∧ good_redirect (f, mode, fd)
  | PIPE l r | LIST l r => good_cmd l ∧ good_cmd r
  | BACK c => good_cmd c
  end.

Lemma isin_elem set c : Forall (λ b, b ≠ 0) set → isin set c = true ↔ c ∈ set.
Proof.
  induction 1 as [|b set Hb Hs IH]; [split; [done|by intros ?%not_elem_of_nil]|].
  rewrite isin_cons, orb_true_iff, IH, elem_of_cons, Z.eqb_eq by done. naive_solver.
Qed.

(** Facts about the characters of two literal sets. *)
Ltac charset :=
  let c := fresh "c" in let Hc := fresh "Hc" in
  intros c Hc; apply isin_elem in Hc; [|by repeat constructor];
  repeat (apply elem_of_cons in Hc as [->|Hc]; [reflexivity|]); by apply not_elem_of_nil in Hc.

(** ** Text ahead of a pointer *)

Fixpoint trim (t : list Z) : list Z :=
  match t with
  | c :: t' => if blank c then trim t' else t
  | [] => []
  end.

Lemma trim_cons_false c t : blank c = false → trim (c :: t) = c :: t.
Proof. intros H. cbn [trim]. by rewrite H. Qed.

Lemma trim_trim t : trim (trim t) = trim t.
Proof. induction t as [|c t IH]; cbn [trim]; [done|]. destruct (blank c) eqn:E; [done|]. by apply trim_cons_false. Qed.

Lemma trim_app t k : trim t ≠ [] → trim (t ++ k) = trim t ++ k.
Proof. induction t as [|c t IH]; cbn [trim app]; [done|]. by destruct (blank c). Qed.

Lemma trim_app_nil t k : trim t = [] → trim (t ++ k) = trim k.
Proof. induction t as [|c t IH]; cbn [trim app]; [done|]. by destruct (blank c). Qed.

Section Text.
Context (buf : list Z).
Let text := cstring buf.
Let es := length text.

Lemma ch_text s : (s ≤ es)%nat → ch buf s = nth s text 0.
Proof.
  unfold ch, es, text. clear. revert s. induction buf as [|b buf' IH]; intros s; cbn [cstring]; [done|].
  destruct (Z.eqb_spec b 0) as [->|Hb]; cbn [length]; [intros Hs; assert (s = 0%nat) as -> by lia; done|].
  intros Hs. destruct s as [|s]; [done|]. cbn. apply IH. lia.
Qed.

Lemma drop_text s : (s < es)%nat → drop s text = ch buf s :: drop (S s) text.
Proof.
  intros Hs. rewrite ch_text by lia. destruct (lookup_lt_is_Some_2 text s Hs) as [x Hx].
  by rewrite (drop_S text x s Hx), nth_lookup, Hx.
Qed.

Lemma drop_text_nil s : (s ≤ es)%nat → drop s text = [] → s = es.
Proof. intros Hs Hd. apply (f_equal length) in Hd. rewrite length_drop in Hd. cbn in Hd. unfold es. fold es in Hd. unfold es in *. lia. Qed.

Lemma ch_head s : (s ≤ es)%nat → ch buf s = match drop s text with c :: _ => c | [] => 0 end.
Proof.
  intros Hs. destruct (decide (s = es)) as [->|]; [|by rewrite drop_text by lia].
  rewrite ch_text, drop_ge by (unfold es; lia). apply nth_overflow. done.
Qed.

Lemma skip_text s : (s ≤ es)%nat → drop (skip buf (es - s) s) text = trim (drop s text).
Proof.
  remember (es - s)%nat as k eqn:Ek. revert s Ek. induction k as [|k IH]; intros s Ek Hs; cbn [skip].
  - assert (s = es) as -> by lia. by rewrite drop_ge by done.
  - rewrite (drop_text s) by lia. cbn [trim]. unfold blank. destruct (isin whitespace (ch buf s)) eqn:E; [apply IH; lia|]. by rewrite drop_text by lia.
Qed.

(** [s] has reached [t], but for blanks in front of it. *)
Definition at_text (s : nat) (t : list Z) : Prop := (s ≤ es)%nat ∧ trim (drop s text) = trim t.

Lemma at_skip s t : at_text s t → let s' := skip buf (es - s) s in
  (s ≤ s' ≤ es)%nat ∧ drop s' text = trim t ∧ ch buf s' = match trim t with c :: _ => c | [] => 0 end ∧ at_text s' t.
Proof.
  intros [Hs Ht] s'. destruct (cstring_end buf) as [Hz _]. destruct (skip_spec buf es Hz s Hs) as [Hs' _]. fold s' in Hs'.
  assert (drop s' text = trim t) as Hd by (unfold s'; by rewrite skip_text).
  split; [done|]. split; [done|]. split; [rewrite ch_head by lia; by rewrite Hd|]. split; [lia|]. by rewrite Hd, trim_trim.
Qed.

Lemma text_nonzero s t c t' : at_text s t → trim t = c :: t' → c ≠ 0.
Proof.
  intros Hat E. destruct (at_skip s t Hat) as (Hs' & Hd & Hc & _). rewrite E in *. rewrite <- Hc.
  apply cstring_end. destruct (decide (skip buf (es - s) s = es)) as [Ee|]; [|fold text es; lia].
  rewrite Ee, drop_ge in Hd by done. done.
Qed.

Definition next_in (set t : list Z) : bool := match trim t with c :: _ => isin set c | [] => false end.

Lemma peek_at toks s t : at_text s t →
  ∃ s', peek buf es toks s = Parsed (next_in toks t) s' ∧ at_text s' t ∧ (s ≤ s')%nat.
Proof.
  intros Hat. destruct (at_skip s t Hat) as (Hs' & Hd & Hc & Hat'). exists (skip buf (es - s) s). split; [|split; [done|lia]].
  unfold peek. rewrite Hc. unfold next_in. destruct (trim t) as [|c t'] eqn:E; [done|].
  by rewrite (proj2 (Z.eqb_neq c 0) (text_nonzero s t c t' Hat E)).
Qed.

(** After [n] characters of the trimmed text. *)
Lemma at_step s t u v : at_text s t → trim t = u ++ v → u ≠ [] →
  let e := (skip buf (es - s) s + length u)%nat in at_text (skip buf (es - e) e) v ∧ (s < skip buf (es - e) e)%nat ∧ (e ≤ es)%nat.
Proof.
  intros Hat E Hu e. destruct (at_skip s t Hat) as (Hs' & Hd & _). rewrite E in Hd.
  assert (Hlen : (skip buf (es - s) s + length u ≤ es)%nat).
  { apply (f_equal length) in Hd. rewrite length_drop, length_app in Hd. fold es in Hd. lia. }
  assert (Hev : drop e text = v) by (unfold e; rewrite <- drop_drop, Hd; apply drop_app_length).
  assert (Hate : at_text e v) by (split; [done|by rewrite Hev]).
  destruct (at_skip e v Hate) as (He' & _ & _ & Hat'). split; [done|]. split; [|done].
  assert (length u ≠ 0%nat) by (by destruct u). unfold e in *. lia.
Qed.

Lemma ch_second s t c d v : at_text s t → trim t = c :: d :: v → ch buf (S (skip buf (es - s) s)) = d.
Proof.
  intros Hat E. destruct (at_skip s t Hat) as (Hs' & Hd & _). rewrite E in Hd.
  assert (Hd' : drop (S (skip buf (es - s) s)) text = d :: v) by (rewrite <- Nat.add_1_r, <- drop_drop, Hd; done).
  rewrite ch_head; [by rewrite Hd'|]. apply (f_equal length) in Hd. rewrite length_drop in Hd. fold es in Hd. cbn in Hd. lia.
Qed.

Lemma gettoken_symbol s t c v : at_text s t → trim t = c :: v → c ∈ [124; 40; 41; 59; 38; 60] →
  ∃ r s', gettoken buf es s = Parsed (c, r) s' ∧ at_text s' v ∧ (s < s')%nat.
Proof.
  intros Hat E Hc. destruct (at_skip s t Hat) as (_ & _ & Ec & _). rewrite E in Ec.
  destruct (at_step s t [c] v Hat E) as (Hv & Hlt & _); [done|]. cbn [length] in Hv, Hlt. rewrite Nat.add_1_r in Hv, Hlt.
  eexists _, _. split; [|split; [exact Hv|done]]. unfold gettoken. rewrite Ec.
  rewrite (proj2 (Z.eqb_neq c 0) (text_nonzero s t c v Hat E)). rewrite !elem_of_cons in Hc.
  destruct Hc as [->|[->|[->|[->|[->|[->|Hc]]]]]]; [done..|]. by apply not_elem_of_nil in Hc.
Qed.

Lemma gettoken_gt s t v : at_text s t → trim t = 62 :: v → (∀ v', v ≠ 62 :: v') →
  ∃ r s', gettoken buf es s = Parsed (62, r) s' ∧ at_text s' v ∧ (s < s')%nat.
Proof.
  intros Hat E Hv'. destruct (at_skip s t Hat) as (_ & Hd & Ec & _). rewrite E in Ec.
  destruct (at_step s t [62] v Hat E) as (Hv & Hlt & Hle); [done|]. cbn [length] in Hv, Hlt, Hle. rewrite Nat.add_1_r in Hv, Hlt, Hle.
  assert (Hn : ch buf (S (skip buf (es - s) s)) ≠ 62).
  { destruct v as [|d v]; [|erewrite ch_second by done; intros ->; by eapply Hv'].
    assert (Hd' : drop (S (skip buf (es - s) s)) text = []) by (rewrite <- Nat.add_1_r, <- drop_drop, Hd, E; done).
    rewrite ch_head by done. by rewrite Hd'. }
  eexists _, _. split; [|split; [exact Hv|done]]. unfold gettoken. rewrite Ec. cbn [Z.eqb Pos.eqb orb].
  by rewrite (proj2 (Z.eqb_neq _ 62)).
Qed.

Lemma gettoken_gtgt s t v : at_text s t → trim t = 62 :: 62 :: v →
  ∃ r s', gettoken buf es s = Parsed (43, r) s' ∧ at_text s' v ∧ (s < s')%nat.
Proof.
  intros Hat E. destruct (at_skip s t Hat) as (_ & Hd & Ec & _). rewrite E in Ec.
  destruct (at_step s t [62; 62] v Hat E) as (Hv & Hlt & Hle); [done|]. cbn [length] in Hv, Hlt, Hle.
  rewrite <- !plus_n_Sm, Nat.add_0_r in Hv, Hlt, Hle.
  eexists _, _. split; [|split; [exact Hv|done]]. unfold gettoken. rewrite Ec. cbn [Z.eqb Pos.eqb orb].
  by rewrite (ch_second s t 62 62 v Hat E).
Qed.

Lemma gettoken_end s t : at_text s t → trim t = [] →
  ∃ r s', gettoken buf es s = Parsed (0, r) s' ∧ at_text s' t ∧ (s ≤ s')%nat.
Proof.
  intros Hat E. destruct (at_skip s t Hat) as (Hs & Hd & Ec & Hat'). rewrite E in Ec.
  destruct (at_skip _ _ Hat') as (Hs2 & _ & _ & Hat2).
  eexists _, _. split; [|split; [exact Hat2|lia]]. unfold gettoken. rewrite Ec. done.
Qed.

Lemma word_text s w v : (s ≤ es)%nat → drop s text = w ++ v → Forall (λ c, wordchar c = true ∧ c ≠ 0) w →
  match v with c :: _ => wordchar c = false | [] => True end → word buf (es - s) s = (s + length w)%nat.
Proof.
  intros Hs Hd Hw Hv. remember (es - s)%nat as k eqn:Ek. revert s w Hs Hd Hw Ek. induction k as [|k IH]; intros s w Hs Hd Hw Ek; cbn [word].
  - assert (s = es) as -> by lia. rewrite drop_ge in Hd by done. destruct w; [cbn; lia|done].
  - rewrite drop_text in Hd by lia. fold (wordchar (ch buf s)). destruct w as [|c w]; cbn [app] in Hd.
    + subst v. rewrite Hv. cbn [length]. lia.
    + injection Hd as Hc Hd. apply Forall_cons in Hw as [[Hwc _] Hw]. rewrite Hc, Hwc, (IH (S s) w); [cbn [length]; lia|lia|done|done|lia].
Qed.

Lemma cstring_prefix b : ∃ r, b = cstring b ++ r.
Proof.
  clear. induction b as [|c b [r IH]]; cbn [cstring]; [by exists []|].
  destruct (c =? 0); [by exists (c :: b)|]. exists r. cbn. by rewrite <- IH.
Qed.

Lemma between_text q w v : (q ≤ es)%nat → drop q text = w ++ v → between buf (q, (q + length w)%nat) = w.
Proof.
  intros Hq Hd. unfold between. cbn [fst snd]. destruct (cstring_prefix buf) as [r Er]. fold text in Er.
  rewrite Er at 1. rewrite drop_app_le by done. rewrite Hd, <- app_assoc.
  replace (q + length w - q)%nat with (length w) by lia. apply take_app_length.
Qed.

Lemma wordchar_cases c : wordchar c = true →
  blank c = false ∧ (c =? 124) || (c =? 40) || (c =? 41) || (c =? 59) || (c =? 38) || (c =? 60) = false ∧ (c =? 62) = false.
Proof.
  clear. unfold wordchar, blank, symbols. change (lit "<|>&;()") with [60; 124; 62; 38; 59; 40; 41].
  rewrite andb_true_iff, !negb_true_iff, !isin_cons by done. rewrite !orb_false_iff, !Z.eqb_neq. intuition congruence.
Qed.

Lemma gettoken_word s t w v : at_text s t → trim t = w ++ v → good_word w →
  match v with c :: _ => wordchar c = false | [] => True end →
  ∃ r s', gettoken buf es s = Parsed (97, r) s' ∧ between buf r = w ∧ at_text s' v ∧ (s < s')%nat.
Proof.
  intros Hat E [Hne Hw] Hv. destruct (at_skip s t Hat) as (Hs & Hd & Ec & _). rewrite E in Hd, Ec.
  destruct (at_step s t w v Hat E Hne) as (Hv' & Hlt & Hle).
  set (q := skip buf (es - s) s) in *. exists (q, (q + length w)%nat). eexists.
  split; [|split; [apply (between_text _ w v); [lia|done]|split; [exact Hv'|done]]].
  destruct w as [|c w]; [done|]. cbn [app] in Ec. pose proof Hw as [[Hc H0] _]%Forall_cons.
  destruct (wordchar_cases c Hc) as (_ & H1 & H2). unfold gettoken. fold q. rewrite Ec, (proj2 (Z.eqb_neq c 0) H0), H1, H2.
  rewrite (word_text _ (c :: w) v); [done|lia|done|done|done].
Qed.

(** ** Parsing what has been printed *)

Lemma bind_parsed {A B} (m : parser A) (f : A → parser B) s a s' : m s = Parsed a s' → (m ≫= f) s = f a s'.
Proof. clear. intros E. unfold mbind, parser_bind. by rewrite E. Qed.

Lemma at_blank s t : at_text s (32 :: t) → at_text s t.
Proof. done. Qed.

Lemma trim_word w v : good_word w → trim (w ++ v) = w ++ v.
Proof.
  clear. intros [Hne Hw]. destruct w as [|c w]; [done|]. apply Forall_cons in Hw as [[Hc _] _].
  apply trim_cons_false. by apply wordchar_cases.
Qed.

Definition redirect_of (r : redir) : redirect := let '(q, e, mode, fd) := r in (between buf (q, e), mode, fd).
Definition strings : cmd (nat * nat) → cmd (list Z) := cmd_map (between buf).
Definition wrap (c : cmd (list Z)) (r : redirect) : cmd (list Z) := let '(f, mode, fd) := r in REDIR c f mode fd.

Lemma strings_redirs rs : ∀ c, strings (foldl redircmd c rs) = foldl wrap (strings c) (redirect_of <$> rs).
Proof. induction rs as [|[[[q e] mode] fd] rs IH]; intros c; [done|]. cbn. by rewrite IH. Qed.

(** The operator of a redirection is read as its token. *)
Lemma gettoken_operator s f mode fd v : good_redirect (f, mode, fd) → at_text s (operator mode ++ f ++ v) →
  ∃ tok r s', gettoken buf es s = Parsed (tok, r) s' ∧ at_text s' (f ++ v) ∧ (s < s')%nat ∧
    ∀ q e, (if tok =? 60 then [(q, e, 0, 0)] else if tok =? 62 then [(q, e, 1537, 1)] else if tok =? 43 then [(q, e, 513, 1)] else []) =
      [(q, e, mode, fd) : redir].
Proof.
  intros [Hf Hm] Hat. assert (Hgt : ∀ v', f ++ v ≠ 62 :: v').
  { intros v' E. destruct Hf as [Hne Hw]. destruct f as [|c f]; [done|]. injection E as -> _. by apply Forall_cons in Hw as [[Hc _] _]. }
  apply elem_of_cons in Hm as [[= -> ->]|Hm]; [|apply elem_of_cons in Hm as [[= -> ->]|[= -> ->]%list_elem_of_singleton]]; cbn [operator Z.eqb Pos.eqb app] in Hat.
  - destruct (gettoken_symbol s _ 60 (f ++ v) Hat) as (r & s' & E & Hat' & Hlt); [done|by do 5 right; left|]. by exists 60, r, s'.
  - destruct (gettoken_gt s _ (f ++ v) Hat) as (r & s' & E & Hat' & Hlt); [done|done|]. by exists 62, r, s'.
  - destruct (gettoken_gtgt s _ (f ++ v) Hat) as (r & s' & E & Hat' & Hlt); [done|]. by exists 43, r, s'.
Qed.

Lemma next_operator f mode fd v : good_redirect (f, mode, fd) → next_in (lit "<>") (operator mode ++ f ++ v) = true.
Proof.
  clear. intros [_ Hm]. apply elem_of_cons in Hm as [[= -> ->]|Hm]; [done|].
  by apply elem_of_cons in Hm as [[= -> ->]|[= -> ->]%list_elem_of_singleton].
Qed.

Lemma parseredirs_at rs : ∀ s k fuel, Forall good_redirect rs → next_in (lit "<>") k = false →
  at_text s (show_redirects rs ++ k) → (es - s ≤ fuel)%nat →
  ∃ rs' s', parseredirs buf es fuel s = Parsed rs' s' ∧ at_text s' k ∧ (s ≤ s')%nat ∧ redirect_of <$> rs' = rs.
Proof.
  induction rs as [|[[f mode] fd] rs IH]; intros s k fuel Hrs Hk Hat Hf.
  - destruct (peek_at (lit "<>") s k Hat) as (s1 & E1 & Hat1 & Hs1). exists [], s1. split; [|done].
    destruct fuel; cbn [parseredirs]; rewrite (bind_parsed _ _ _ _ _ E1), Hk; done.
  - apply Forall_cons in Hrs as [Hr Hrs]. cbn [show_redirects mbind list_bind show_redirect] in Hat. rewrite <- !app_assoc in Hat.
    destruct (peek_at (lit "<>") s _ Hat) as (s1 & E1 & Hat1 & Hs1). rewrite (next_operator f mode fd) in E1 by done.
    destruct (gettoken_operator s1 f mode fd _ Hr Hat1) as (tok & r & s2 & E2 & Hat2 & Hs2 & Hone).
    destruct Hr as [Hfw _]. destruct (gettoken_word s2 _ f ([32] ++ show_redirects rs ++ k) Hat2) as ([q e] & s3 & E3 & Hb & Hat3 & Hs3); [by apply trim_word|done|done|].
    apply at_blank in Hat3. destruct fuel as [|fuel]; [destruct Hat3; lia|].
    destruct (IH s3 k fuel Hrs Hk Hat3) as (rs' & s4 & E4 & Hat4 & Hs4 & Ers); [destruct Hat3; lia|].
    exists ((q, e, mode, fd) :: rs'), s4. split; [|split; [done|split; [lia|cbn [fmap list_fmap redirect_of]; by rewrite Hb, Ers]]].
    cbn [parseredirs]. rewrite (bind_parsed _ _ _ _ _ E1). cbn [negb]. rewrite (bind_parsed _ _ _ _ _ E2), (bind_parsed _ _ _ _ _ E3).
    cbn [Z.eqb Pos.eqb negb]. rewrite (bind_parsed _ _ _ _ _ E4), Hone. done.
Qed.

(** What may follow a command at each level. *)
Definition stop (set k : list Z) : Prop := trim k = [] ∨ next_in set k = true.
Definition after_exec : list Z := lit "|)&;".
Definition after_pipe : list Z := lit ")&;".
Definition after_line : list Z := lit ")".

Lemma next_in_elem set k : next_in set k = true ↔ ∃ c v, trim k = c :: v ∧ isin set c = true.
Proof. clear. unfold next_in. destruct (trim k) as [|c v]; [split; [done|by intros (? & ? & ? & _)]|]. naive_solver. Qed.

(** A character of the one set is none of the other. *)
Lemma stop_not set set' k : (∀ c, isin set c = true → isin set' c = false) → stop set k → next_in set' k = false.
Proof.
  clear. intros Hd [E|(c & v & E & Hc)%next_in_elem]; unfold next_in; rewrite E; [done|by apply Hd].
Qed.

Lemma stop_mono set set' k : (∀ c, isin set c = true → isin set' c = true) → stop set k → stop set' k.
Proof. clear. intros Hd [E|(c & v & E & Hc)%next_in_elem]; [by left|right]. apply next_in_elem. eauto. Qed.

Lemma next_word set w v : (∀ c, isin set c = true → isin symbols c = true) → good_word w → next_in set (w ++ v) = false.
Proof.
  clear. intros Hset Hw. unfold next_in. rewrite trim_word by done. destruct Hw as [Hne Hw]. destruct w as [|c w]; [done|].
  apply Forall_cons in Hw as [[Hc _] _]. cbn [app]. destruct (isin set c) eqn:E; [|done]. apply Hset in E.
  unfold wordchar in Hc. rewrite E, andb_false_r in Hc. done.
Qed.

Lemma next_words set ws rs k : (∀ c, isin set c = true → isin symbols c = true) → Forall good_word ws → ws ≠ [] →
  next_in set (show_words ws ++ show_redirects rs ++ k) = false.
Proof.
  clear. intros Hset Hws Hne. destruct ws as [|w ws]; [done|]. apply Forall_cons in Hws as [Hw _].
  cbn [show_words mbind list_bind]. rewrite <- !app_assoc. by apply next_word.
Qed.

Lemma parseargs_end s k fuel argv rs : stop after_exec k → at_text s k →
  ∃ s', parseargs buf es fuel argv rs s = Parsed (foldl redircmd (EXEC argv) rs) s' ∧ at_text s' k ∧ (s ≤ s')%nat.
Proof.
  intros Hk Hat. destruct (peek_at after_exec s k Hat) as (s1 & E1 & Hat1 & Hs1). destruct Hk as [Hk|Hk].
  - destruct (gettoken_end s1 k Hat1 Hk) as ([q e] & s2 & E2 & Hat2 & Hs2). exists s2. split; [|split; [done|lia]].
    assert (Hn : next_in after_exec k = false) by (unfold next_in; by rewrite Hk). rewrite Hn in E1.
    destruct fuel; cbn [parseargs]; rewrite (bind_parsed _ _ _ _ _ E1), (bind_parsed _ _ _ _ _ E2); done.
  - exists s1. split; [|done]. rewrite Hk in E1. destruct fuel; cbn [parseargs]; rewrite (bind_parsed _ _ _ _ _ E1); done.
Qed.

Lemma parseargs_at ws : ∀ s k fuel argv rs0 rs,
  Forall good_word ws → Forall good_redirect rs → (ws = [] → rs = []) → (length argv + length ws < MAXARGS)%nat → stop after_exec k →
  at_text s (show_words ws ++ show_redirects rs ++ k) → (es - s ≤ fuel)%nat →
  ∃ c s', parseargs buf es fuel argv rs0 s = Parsed c s' ∧ at_text s' k ∧ (s ≤ s')%nat ∧
    strings c = foldl wrap (EXEC ((between buf <$> argv) ++ ws)) ((redirect_of <$> rs0) ++ rs).
Proof.
  induction ws as [|w ws IH]; intros s k fuel argv rs0 rs Hws Hrs Hnil Hlen Hk Hat Hf.
  { rewrite Hnil in * by done. destruct (parseargs_end s k fuel argv rs0 Hk Hat) as (s' & E & Hat' & Hs).
    eexists _, s'. split; [exact E|]. split; [done|]. split; [done|]. by rewrite strings_redirs, !app_nil_r. }
  destruct (peek_at after_exec s _ Hat) as (s1 & E1 & Hat1 & Hs1). rewrite next_words in E1 by (done || charset).
  apply Forall_cons in Hws as [Hw Hws]. cbn [show_words mbind list_bind] in Hat1. rewrite <- !app_assoc in Hat1.
  destruct (gettoken_word s1 _ w ([32] ++ show_words ws ++ show_redirects rs ++ k) Hat1) as ([q e] & s2 & E2 & Hb & Hat2 & Hs2); [by apply trim_word|done|done|].
  apply at_blank in Hat2. destruct fuel as [|fuel]; [destruct Hat2; lia|]. cbn [length] in Hlen.
  assert (Hmax : (MAXARGS <=? length (argv ++ [(q, e)]))%nat = false) by (apply Nat.leb_gt; rewrite length_app; cbn [length]; lia).
  assert (Hgo : ∃ rs1 rs2 rs' s3, rs = rs1 ++ rs2 ∧ (ws = [] → rs2 = []) ∧ parseredirs buf es fuel s2 = Parsed rs' s3 ∧
    at_text s3 (show_words ws ++ show_redirects rs2 ++ k) ∧ (s2 ≤ s3)%nat ∧ redirect_of <$> rs' = rs1).
  { destruct (decide (ws = [])) as [->|Hne].
    - destruct (parseredirs_at rs s2 k fuel) as (rs' & s3 & E3 & Hat3 & Hs3 & Ers); [done| |done|destruct Hat2; lia|].
      { eapply stop_not; [|done]. charset. }
      exists rs, [], rs', s3. by rewrite app_nil_r.
    - destruct (parseredirs_at [] s2 (show_words ws ++ show_redirects rs ++ k) fuel) as (rs' & s3 & E3 & Hat3 & Hs3 & Ers); [done| |done|destruct Hat2; lia|].
      { apply next_words; [charset|done|done]. }
      by exists [], rs, rs', s3. }
  destruct Hgo as (rs1 & rs2 & rs' & s3 & -> & Hn2 & E3 & Hat3 & Hs3 & Ers). apply Forall_app in Hrs as [_ Hrs2].
  destruct (IH s3 k fuel (argv ++ [(q, e)]) (rs0 ++ rs') rs2) as (c & s4 & E4 & Hat4 & Hs4 & Ec); [done..|rewrite length_app; cbn [length]; lia|done|done|destruct Hat3; lia|].
  exists c, s4. split; [|split; [done|split; [lia|]]].
  - cbn [parseargs]. rewrite (bind_parsed _ _ _ _ _ E1), (bind_parsed _ _ _ _ _ E2). cbn [Z.eqb Pos.eqb negb]. rewrite Hmax.
    by rewrite (bind_parsed _ _ _ _ _ E3).
  - rewrite Ec, !fmap_app, Ers, <- !app_assoc. cbn [fmap list_fmap]. by rewrite Hb.
Qed.

(** ** The levels of the grammar *)

Definition reads (p : parser (cmd (nat * nat))) (s : nat) (k : list Z) (c : cmd (list Z)) : Prop :=
  ∃ c' s', p s = Parsed c' s' ∧ at_text s' k ∧ (s ≤ s')%nat ∧ strings c' = c.

Definition line_reads (t : list Z) (c : cmd (list Z)) : Prop := ∀ s k fuel,
  stop after_line k → at_text s (t ++ k) → (4 * (es - s) + 4 ≤ fuel)%nat → reads (parseline buf es fuel) s k c.
Definition pipe_reads (t : list Z) (c : cmd (list Z)) : Prop := ∀ s k fuel,
  stop after_pipe k → at_text s (t ++ k) → (4 * (es - s) + 3 ≤ fuel)%nat → reads (parsepipe buf es fuel) s k c.
Definition exec_reads (t : list Z) (c : cmd (list Z)) : Prop := ∀ s k fuel,
  stop after_exec k → at_text s (t ++ k) → (4 * (es - s) + 2 ≤ fuel)%nat → reads (parseexec buf es fuel) s k c.
(** With the loop over the following ampersands still going on. *)
Definition back_reads (t : list Z) (c : cmd (list Z)) : Prop := ∀ s k fuel,
  stop after_pipe k → at_text s (t ++ k) → (4 * (es - s) + 3 ≤ fuel)%nat →
  ∃ c' s' fuel', (parsepipe buf es fuel ≫= parseback buf es fuel) s = parseback buf es fuel' c' s' ∧
    at_text s' k ∧ (s ≤ s')%nat ∧ (es - s' ≤ fuel')%nat ∧ strings c' = c.
(** With any redirections behind. *)
Definition redir_reads (t : list Z) (c : cmd (list Z)) : Prop := ∀ rs,
  Forall good_redirect rs → exec_reads (t ++ show_redirects rs) (foldl wrap c rs).

Lemma parser_bind_assoc {A B C} (m : parser A) (f : A → parser B) (g : B → parser C) s :
  (m ≫= (λ x, f x ≫= g)) s = ((m ≫= f) ≫= g) s.
Proof. clear. unfold mbind, parser_bind. by destruct (m s). Qed.

Lemma redir_exec t c : redir_reads t c → exec_reads t c.
Proof. intros H. specialize (H [] ltac:(constructor)). by rewrite app_nil_r in H. Qed.

Lemma exec_pipe t c : exec_reads t c → pipe_reads t c.
Proof.
  intros H s k [|fuel] Hk Hat Hf; [lia|]. destruct (H s k fuel) as (c' & s1 & E1 & Hat1 & Hs1 & Ec); [eapply stop_mono; [|done]; charset|done|lia|].
  destruct (peek_at (lit "|") s1 k Hat1) as (s2 & E2 & Hat2 & Hs2). rewrite (stop_not after_pipe) in E2 by (done || charset).
  exists c', s2. split; [|split; [done|split; [lia|done]]].
  cbn [parsepipe]. rewrite (bind_parsed _ _ _ _ _ E1), (bind_parsed _ _ _ _ _ E2). done.
Qed.

Lemma pipe_back t c : pipe_reads t c → back_reads t c.
Proof.
  intros H s k fuel Hk Hat Hf. destruct (H s k fuel Hk Hat Hf) as (c' & s1 & E1 & Hat1 & Hs1 & Ec).
  exists c', s1, fuel. split; [by rewrite (bind_parsed _ _ _ _ _ E1)|]. split; [done|]. split; [lia|]. split; [lia|done].
Qed.

Lemma parseback_end k : next_in (lit "&") k = false → ∀ s c fuel, at_text s k →
  ∃ s', parseback buf es fuel c s = Parsed c s' ∧ at_text s' k ∧ (s ≤ s')%nat.
Proof.
  intros Hk s c fuel Hat. destruct (peek_at (lit "&") s k Hat) as (s1 & E1 & Hat1 & Hs1). rewrite Hk in E1.
  exists s1. split; [|done]. destruct fuel; cbn [parseback]; rewrite (bind_parsed _ _ _ _ _ E1); done.
Qed.

Lemma back_back t c : back_reads t c → back_reads (t ++ [38]) (BACK c).
Proof.
  intros H s k fuel Hk Hat Hf. rewrite <- app_assoc in Hat.
  destruct (H s ([38] ++ k) fuel) as (c' & s1 & fuel' & E1 & Hat1 & Hs1 & Hf1 & Ec); [by right|done|done|].
  destruct (peek_at (lit "&") s1 _ Hat1) as (s2 & E2 & Hat2 & Hs2). change (next_in _ _) with true in E2.
  destruct (gettoken_symbol s2 _ 38 k Hat2) as (r & s3 & E3 & Hat3 & Hs3); [done|by do 4 right; left|].
  destruct fuel' as [|fuel']; [destruct Hat3; lia|].
  exists (BACK c'), s3, fuel'. split; [|split; [done|split; [lia|split; [lia|cbn; by f_equal]]]].
  rewrite E1. cbn [parseback]. rewrite (bind_parsed _ _ _ _ _ E2). cbn [negb]. by rewrite (bind_parsed _ _ _ _ _ E3).
Qed.

Lemma back_line t c : back_reads t c → line_reads t c.
Proof.
  intros H s k [|fuel] Hk Hat Hf; [lia|]. assert (Hk2 : stop after_pipe k) by (eapply stop_mono; [|done]; charset).
  destruct (H s k fuel Hk2 Hat ltac:(lia)) as (c' & s1 & fuel' & E1 & Hat1 & Hs1 & Hf1 & Ec).
  destruct (parseback_end k) with (s := s1) (c := c') (fuel := fuel') as (s2 & E2 & Hat2 & Hs2); [apply (stop_not after_line); [charset|done]|done|].
  destruct (peek_at (lit ";") s2 k Hat2) as (s3 & E3 & Hat3 & Hs3). rewrite (stop_not after_line) in E3 by (done || charset).
  exists c', s3. split; [|split; [done|split; [lia|done]]].
  cbn [parseline]. rewrite parser_bind_assoc, (bind_parsed _ _ _ _ _ (eq_trans E1 E2)), (bind_parsed _ _ _ _ _ E3). done.
Qed.

Lemma list_line tl l tr r : back_reads tl l → line_reads tr r → line_reads (tl ++ [59] ++ tr) (LIST l r).
Proof.
  intros Hl Hr s k [|fuel] Hk Hat Hf; [lia|]. rewrite <- !app_assoc in Hat.
  destruct (Hl s ([59] ++ tr ++ k) fuel) as (c1 & s1 & fuel' & E1 & Hat1 & Hs1 & Hf1 & Ec1); [by right|done|lia|].
  destruct (parseback_end ([59] ++ tr ++ k)) with (s := s1) (c := c1) (fuel := fuel') as (s2 & E2 & Hat2 & Hs2); [done|done|].
  destruct (peek_at (lit ";") s2 _ Hat2) as (s3 & E3 & Hat3 & Hs3). change (next_in _ _) with true in E3.
  destruct (gettoken_symbol s3 _ 59 (tr ++ k) Hat3) as (t & s4 & E4 & Hat4 & Hs4); [done|by do 3 right; left|].
  destruct (Hr s4 k fuel Hk Hat4) as (c5 & s5 & E5 & Hat5 & Hs5 & Ec5); [destruct Hat4; lia|].
  exists (LIST c1 c5), s5. split; [|split; [done|split; [lia|cbn; by f_equal]]].
  cbn [parseline]. rewrite parser_bind_assoc, (bind_parsed _ _ _ _ _ (eq_trans E1 E2)), (bind_parsed _ _ _ _ _ E3), (bind_parsed _ _ _ _ _ E4), (bind_parsed _ _ _ _ _ E5). done.
Qed.

Lemma pipe_pipe tl l tr r : exec_reads tl l → pipe_reads tr r → pipe_reads (tl ++ [124] ++ tr) (PIPE l r).
Proof.
  intros Hl Hr s k [|fuel] Hk Hat Hf; [lia|]. rewrite <- !app_assoc in Hat.
  destruct (Hl s ([124] ++ tr ++ k) fuel) as (c1 & s1 & E1 & Hat1 & Hs1 & Ec1); [by right|done|lia|].
  destruct (peek_at (lit "|") s1 _ Hat1) as (s3 & E3 & Hat3 & Hs3). change (next_in _ _) with true in E3.
  destruct (gettoken_symbol s3 _ 124 (tr ++ k) Hat3) as (t & s4 & E4 & Hat4 & Hs4); [done|left|].
  destruct (Hr s4 k fuel Hk Hat4) as (c5 & s5 & E5 & Hat5 & Hs5 & Ec5); [destruct Hat4; lia|].
  exists (PIPE c1 c5), s5. split; [|split; [done|split; [lia|cbn; by f_equal]]].
  cbn [parsepipe]. rewrite (bind_parsed _ _ _ _ _ E1), (bind_parsed _ _ _ _ _ E3), (bind_parsed _ _ _ _ _ E4), (bind_parsed _ _ _ _ _ E5). done.
Qed.

(** A word or an operator is no parenthesis. *)
Lemma simple_next ws rs k : Forall good_word ws → Forall good_redirect rs → stop after_exec k →
  next_in (lit "(") (show_words ws ++ show_redirects rs ++ k) = false.
Proof.
  clear. intros Hws Hrs Hk. destruct ws as [|w ws]; [|apply next_words; [charset|done|done]].
  destruct rs as [|[[f mode] fd] rs]; [apply (stop_not after_exec); [charset|done]|].
  apply Forall_cons in Hrs as [[_ Hm] _]. cbn [show_redirects mbind list_bind show_redirect show_words app]. rewrite <- !app_assoc.
  apply elem_of_cons in Hm as [[= -> ->]|Hm]; [done|]. by apply elem_of_cons in Hm as [[= -> ->]|[= -> ->]%list_elem_of_singleton].
Qed.

Lemma simple_reads ws : Forall good_word ws → (length ws < MAXARGS)%nat → redir_reads (show_words ws) (EXEC ws).
Proof.
  intros Hws Hlen rs Hrs s k [|fuel] Hk Hat Hf; [lia|]. rewrite <- app_assoc in Hat.
  destruct (peek_at (lit "(") s _ Hat) as (s1 & E1 & Hat1 & Hs1). rewrite simple_next in E1 by done.
  assert (Hgo : ∃ rs1 rs2 rs' s2, rs = rs1 ++ rs2 ∧ (ws = [] → rs2 = []) ∧ parseredirs buf es fuel s1 = Parsed rs' s2 ∧
    at_text s2 (show_words ws ++ show_redirects rs2 ++ k) ∧ (s1 ≤ s2)%nat ∧ redirect_of <$> rs' = rs1).
  { destruct (decide (ws = [])) as [->|Hne].
    - destruct (parseredirs_at rs s1 k fuel) as (rs' & s3 & E3 & Hat3 & Hs3 & Ers); [done|apply (stop_not after_exec); [charset|done]|done|lia|].
      exists rs, [], rs', s3. by rewrite app_nil_r.
    - destruct (parseredirs_at [] s1 (show_words ws ++ show_redirects rs ++ k) fuel) as (rs' & s3 & E3 & Hat3 & Hs3 & Ers);
        [done|apply next_words; [charset|done|done]|done|lia|]. by exists [], rs, rs', s3. }
  destruct Hgo as (rs1 & rs2 & rs' & s2 & -> & Hn2 & E2 & Hat2 & Hs2 & Ers). apply Forall_app in Hrs as [_ Hrs2].
  destruct (parseargs_at ws s2 k fuel [] rs' rs2) as (c & s3 & E3 & Hat3 & Hs3 & Ec); [done..|cbn [length]; lia|done|done|lia|].
  exists c, s3. split; [|split; [done|split; [lia|by rewrite Ec, Ers]]].
  cbn [parseexec]. by rewrite (bind_parsed _ _ _ _ _ E1), (bind_parsed _ _ _ _ _ E2).
Qed.

Lemma block_reads t c : line_reads t c → redir_reads ([40] ++ t ++ [41]) c.
Proof.
  intros H rs Hrs s k [|[|fuel]] Hk Hat Hf; [lia|lia|]. rewrite <- !app_assoc in Hat.
  destruct (peek_at (lit "(") s _ Hat) as (s1 & E1 & Hat1 & Hs1). change (next_in _ _) with true in E1.
  destruct (peek_at (lit "(") s1 _ Hat1) as (s2 & E2 & Hat2 & Hs2). change (next_in _ _) with true in E2.
  destruct (gettoken_symbol s2 _ 40 (t ++ [41] ++ show_redirects rs ++ k) Hat2) as (r & s3 & E3 & Hat3 & Hs3); [done|by right; left|].
  destruct (H s3 ([41] ++ show_redirects rs ++ k) fuel) as (c' & s4 & E4 & Hat4 & Hs4 & Ec); [by right|done|destruct Hat3; lia|].
  destruct (peek_at (lit ")") s4 _ Hat4) as (s5 & E5 & Hat5 & Hs5). change (next_in _ _) with true in E5.
  destruct (gettoken_symbol s5 _ 41 (show_redirects rs ++ k) Hat5) as (r' & s6 & E6 & Hat6 & Hs6); [done|by do 2 right; left|].
  destruct (parseredirs_at rs s6 k fuel) as (rs' & s7 & E7 & Hat7 & Hs7 & Ers); [done|apply (stop_not after_exec); [charset|done]|done|lia|].
  exists (foldl redircmd c' rs'), s7. split; [|split; [done|split; [lia|by rewrite strings_redirs, Ec, Ers]]].
  cbn [parseexec]. rewrite (bind_parsed _ _ _ _ _ E1). cbn [parseblock]. rewrite (bind_parsed _ _ _ _ _ E2). cbn [negb].
  rewrite (bind_parsed _ _ _ _ _ E3), (bind_parsed _ _ _ _ _ E4), (bind_parsed _ _ _ _ _ E5). cbn [negb].
  by rewrite (bind_parsed _ _ _ _ _ E6), (bind_parsed _ _ _ _ _ E7).
Qed.

Lemma show_reads c : good_cmd c →
  line_reads (show 0 c) c ∧ back_reads (show 1 c) c ∧ pipe_reads (show 2 c) c ∧ redir_reads (show 3 c) c.
Proof.
  assert (Hup : ∀ t c, redir_reads t c → line_reads t c ∧ back_reads t c ∧ pipe_reads t c ∧ redir_reads t c).
  { intros t c' H. assert (pipe_reads t c') by (by apply exec_pipe, redir_exec). assert (back_reads t c') by (by apply pipe_back).
    split; [by apply back_line|done]. }
  assert (Hblock : ∀ t c, line_reads t c → back_reads ([40] ++ t ++ [41]) c ∧ pipe_reads ([40] ++ t ++ [41]) c ∧ redir_reads ([40] ++ t ++ [41]) c)
    by (intros t c' H; by apply Hup, block_reads).
  induction c as [argv|c IH file mode fd|l IHl r IHr|l IHl r IHr|c IH]; cbn [good_cmd]; intros Hg.
  - apply Hup, simple_reads; tauto.
  - destruct Hg as [Hc Hr]. destruct (IH Hc) as (_ & _ & _ & H). apply Hup. intros rs Hrs. specialize (H ((file, mode, fd) :: rs) ltac:(by constructor)).
    cbn [show show_redirects mbind list_bind] in *. by rewrite <- app_assoc.
  - destruct Hg as [Hl Hr]. destruct (IHl Hl) as (_ & _ & _ & H3). destruct (IHr Hr) as (_ & _ & H2 & _).
    assert (Hp : pipe_reads (show 3 l ++ [124] ++ show 2 r) (PIPE l r)) by (apply pipe_pipe; [by apply redir_exec|done]).
    assert (back_reads (show 3 l ++ [124] ++ show 2 r) (PIPE l r)) as Hb by (by apply pipe_back). pose proof (back_line _ _ Hb) as Hl0.
    split; [done|]. split; [done|]. split; [done|]. apply (Hblock _ _ Hl0).
  - destruct Hg as [Hl Hr]. destruct (IHl Hl) as (_ & H1 & _). destruct (IHr Hr) as (H0 & _).
    assert (Hl0 : line_reads (show 1 l ++ [59] ++ show 0 r) (LIST l r)) by (by apply list_line).
    split; [done|]. apply (Hblock _ _ Hl0).
  - destruct (IH Hg) as (_ & H1 & _). assert (Hb : back_reads (show 1 c ++ [38]) (BACK c)) by (by apply back_back). pose proof (back_line _ _ Hb) as Hl0.
    split; [done|]. split; [done|]. apply (Hblock _ _ Hl0).
Qed.
End Text.

Definition nonzero : list Z → Prop := Forall (λ c, c ≠ 0).

Lemma good_word_nonzero w : good_word w → nonzero w.
Proof. intros [_ Hw]. eapply Forall_impl; [done|]. by intros c [_ Hc]. Qed.

Lemma show_redirect_nonzero r : good_redirect r → nonzero (show_redirect r).
Proof.
  destruct r as [[f mode] fd]. intros [Hf _]. apply Forall_app. split; [unfold operator; by repeat case_match; repeat constructor|].
  apply Forall_app. split; [by apply good_word_nonzero|by repeat constructor].
Qed.

Lemma paren_nonzero b t : nonzero t → nonzero (paren b t).
Proof. intros Ht. destruct b; [|done]. apply Forall_app. split; [by repeat constructor|]. apply Forall_app. split; [done|by repeat constructor]. Qed.

Lemma show_nonzero c : good_cmd c → ∀ level, nonzero (show level c).
Proof.
  assert (Hmid : ∀ t x t', nonzero t → x ≠ 0 → nonzero t' → nonzero (t ++ [x] ++ t')).
  { intros t x t' Ht Hx Ht'. apply Forall_app. split; [done|]. by constructor. }
  induction c as [argv|c IH file mode fd|l IHl r IHr|l IHl r IHr|c IH]; cbn [good_cmd show]; intros Hg level.
  - destruct Hg as [Hg _]. induction Hg as [|w ws Hw Hws IH]; [constructor|]. cbn [show_words mbind list_bind]. rewrite <- app_assoc.
    apply Hmid; [by apply good_word_nonzero|done|done].
  - destruct Hg as [Hc Hr]. apply Forall_app. split; [by apply IH|by apply show_redirect_nonzero].
  - destruct Hg as [Hl Hr]. apply paren_nonzero, Hmid; [by apply IHl|done|by apply IHr].
  - destruct Hg as [Hl Hr]. apply paren_nonzero, Hmid; [by apply IHl|done|by apply IHr].
  - apply paren_nonzero, Forall_app. split; [by apply IH|by repeat constructor].
Qed.

Lemma cstring_app_zero t junk : nonzero t → cstring (t ++ 0 :: junk) = t.
Proof. induction 1 as [|c t Hc Ht IH]; [done|]. cbn [app cstring]. rewrite (proj2 (Z.eqb_neq c 0)) by done. by f_equal. Qed.

(** C15: The shell reads back every command tree as it is printed: with words, up to nine
    arguments, redirections, pipelines, background commands and lists nested in any way,
    the parser returns the tree, and the strings in it after NUL termination are the
    words that were printed. *)
Theorem parsecmd_show c junk : good_cmd c → parsecmd (show 0 c ++ 0 :: junk) = Ret c.
Proof.
  intros Hg. set (buf := show 0 c ++ 0 :: junk). pose proof (cstring_app_zero _ junk (show_nonzero c Hg 0)) as Et. fold buf in Et.
  destruct (cstring_end buf) as [Hz Hnz]. set (es := length (cstring buf)) in *.
  destruct (show_reads buf c Hg) as (Hl & _). destruct (Hl 0%nat [] (4 * es + 4)%nat) as (c' & s1 & E1 & Hat1 & Hs1 & Ec);
    [by left|split; [lia|by rewrite app_nil_r, Et]|fold es; lia|]. fold es in E1.
  destruct (parse_ends buf es Hnz Hz (4 * es + 4)) as (Hends & _). specialize (Hends 0%nat ltac:(lia) ltac:(lia)). rewrite E1 in Hends.
  destruct Hends as [_ Hok].
  destruct (at_skip buf s1 [] Hat1) as (Hs2 & Hd & _ & _). apply drop_text_nil in Hd; [|exact (proj2 Hs2)].
  unfold parsecmd. fold es. rewrite E1. unfold peek. fold es in Hd. rewrite Hd, Nat.eqb_refl. cbn [negb].
  rewrite (nulterminate_strings buf c' Hok). f_equal. exact Ec.
Qed.

(** [(ls -l ; cat <f) | wc & grep x >>g], with other blanks. *)
Definition sample_cmd : cmd (list Z) :=
  LIST (BACK (PIPE (LIST (EXEC [lit "ls"; lit "-l"]) (REDIR (EXEC [lit "cat"]) (lit "f") 0 0)) (EXEC [lit "wc"])))
       (REDIR (EXEC [lit "grep"; lit "x"]) (lit "g") 513 1).

Definition word_test (w : list Z) : bool := match w with [] => false | _ => forallb (λ c, wordchar c && negb (c =? 0)) w end.

Lemma word_test_good w : word_test w = true → good_word w.
Proof.
  intros H. destruct w as [|b w]; [done|]. split; [done|]. apply Forall_forall. intros c Hc.
  unfold word_test in H. rewrite forallb_forall in H. specialize (H c (proj1 (list_elem_of_In _ _) Hc)).
  apply andb_true_iff in H as [H1 H2]. split; [done|]. intros ->. done.
Qed.

Lemma exec_good ws : forallb word_test ws && (length ws <? MAXARGS)%nat = true → good_cmd (EXEC ws).
Proof.
  intros [H1 H2]%andb_true_iff. split; [|by apply Nat.ltb_lt]. apply Forall_forall. intros w Hw. apply word_test_good.
  rewrite forallb_forall in H1. by apply H1, list_elem_of_In.
Qed.

Lemma sample_cmd_good : good_cmd sample_cmd.
Proof.
  unfold sample_cmd. split; [split; [split; [|split]|]|split]; try (apply exec_good; reflexivity).
  - split; [by apply word_test_good|left].
  - split; [by apply word_test_good|do 2 right; left].
Qed.

Lemma parsecmd_show_witness :
  parsecmd (show 0 sample_cmd ++ [0; 99]) = Ret sample_cmd.
Proof. apply (parsecmd_show sample_cmd [99]). exact sample_cmd_good. Defined.
