(* ===== verification/Mkfs.v ===== *)
(** * Making the file system image (mkfs/mkfs.c)

    The image is a map from block numbers to blocks; its file has [FSSIZE] blocks once
    all of them have been written with zeroes.  [None] is the end of the program: a
    failed assertion, or [die] when a block behind the end is read.  A [struct dinode]
    is an inode of the kernel with the fields on disk and its number; bytes in memory are
    in the order of the RISC-V, as [xshort] and [xint] put them. *)

From stdpp Require Import functions.
From S2P Require Import Prelude CString Riscv Kernel Bytes Bio Log Fs ULib.

Definition NINODES : Z := 200.

Definition nbitmap : Z := FSSIZE / (BSIZE * 8) + 1.
Definition ninodeblocks : Z := NINODES / IPB + 1.
Definition nlog : Z := LOGSIZE.
Definition mk_nmeta : Z := 2 + nlog + ninodeblocks + nbitmap.
Definition nblocks : Z := FSSIZE - mk_nmeta.

Definition xshort (x : Z) : Z := u16 x.
Definition xint (x : Z) : Z := u32 x.

Definition mk_sb : superblock :=
  Superblock FSMAGIC (xint FSSIZE) (xint nblocks) (xint NINODES) (xint nlog) (xint 2) (xint (2 + nlog)) (xint (2 + nlog + ninodeblocks)).

Definition sb_bytes (sb : superblock) : list Z :=
  le_bytes 4 (sb_magic sb) ++ le_bytes 4 (sb_size sb) ++ le_bytes 4 (sb_nblocks sb) ++ le_bytes 4 (sb_ninodes sb) ++
  le_bytes 4 (sb_nlog sb) ++ le_bytes 4 (sb_logstart sb) ++ le_bytes 4 (sb_inodestart sb) ++ le_bytes 4 (sb_bmapstart sb).

(** The file [fsfd], and the variables [freeinode] and [freeblock]. *)
Record image : Type := Image { img : Z → list Z; freeinode : Z; freeblock : Z }.

Definition wsect (sec : Z) (buf : list Z) (m : image) : image := Image (<[sec := buf]> (img m)) (freeinode m) (freeblock m).
Definition rsect (sec : Z) (m : image) : option (list Z) := if sec <? FSSIZE then Some (img m sec) else None.

Definition no_dinode (inum : Z) : inode := Inode 0 inum 0 (Sleeplock false 0) false 0 0 0 0 0 (replicate 13 0).

Definition winode (inum : Z) (ip : inode) (m : image) : option image :=
  let bn := IBLOCK inum mk_sb in
  buf ← rsect bn m;
  Some (wsect bn (store_dinode (dinode_off inum) ip buf) m).

Definition rinode (inum : Z) (m : image) : option inode :=
  let bn := IBLOCK inum mk_sb in
  buf ← rsect bn m;
  Some (load_dinode (dinode_off inum) buf (no_dinode inum)).

Definition ialloc (type : Z) (m : image) : option (Z * image) :=
  let inum := freeinode m in
  let m := Image (img m) (u32 (freeinode m + 1)) (freeblock m) in
  let din := (no_dinode inum) <| i_type := xshort type |> <| i_nlink := xshort 1 |> <| i_size := xint 0 |> in
  m ← winode inum din m;
  Some (inum, m).

(** [for(i = 0; i < used; i++) buf[i/8] = buf[i/8] | (0x1 << (i%8));] *)
Definition bitmap (used : Z) : list Z := foldl (λ buf i, set_bit i buf) zero_block (seqZ 0 used).

Definition balloc (used : Z) (m : image) : option image :=
  if negb (used <? BSIZE * 8) then None else Some (wsect (sb_bmapstart mk_sb) (bitmap used) m).

(** [freeblock++] *)
Definition next_block (m : image) : Z * image := (freeblock m, Image (img m) (freeinode m) (u32 (freeblock m + 1))).

(** The block for block [fbn] of the file: the two branches of the loop of [iappend]. *)
Definition direct_block (fbn : Z) (din : inode) (m : image) : option (Z * inode * image) :=
  let '(din, m) :=
    if xint (nthZ (i_addrs din) fbn) =? 0 then
      let '(b, m) := next_block m in (din <| i_addrs ::= <[Z.to_nat fbn := xint b]> |>, m)
    else (din, m) in
  Some (xint (nthZ (i_addrs din) fbn), din, m).

Definition indirect_block (fbn : Z) (din : inode) (m : image) : option (Z * inode * image) :=
  let '(din, m) :=
    if xint (nthZ (i_addrs din) NDIRECT) =? 0 then
      let '(b, m) := next_block m in (din <| i_addrs ::= <[Z.to_nat NDIRECT := xint b]> |>, m)
    else (din, m) in
  indirect ← rsect (xint (nthZ (i_addrs din) NDIRECT)) m;
  let '(indirect, m) :=
    if get32 (4 * (fbn - NDIRECT)) indirect =? 0 then
      let '(b, m) := next_block m in
      let indirect := put32 (4 * (fbn - NDIRECT)) (xint b) indirect in
      (indirect, wsect (xint (nthZ (i_addrs din) NDIRECT)) indirect m)
    else (indirect, m) in
  Some (xint (get32 (4 * (fbn - NDIRECT)) indirect), din, m).

(** [while(n > 0)]; every round appends a byte at least. *)
Fixpoint iappend_loop (fuel : nat) (din : inode) (off : Z) (p : list Z) (m : image) : option (inode * Z * image) :=
  match p, fuel with
  | [], _ => Some (din, off, m)
  | _, O => None
  | _, S fuel =>
      let n := Z.of_nat (length p) in
      let fbn := off / BSIZE in
      if negb (fbn <? MAXFILE) then None else
      '(x, din, m) ← (if fbn <? NDIRECT then direct_block fbn din m else indirect_block fbn din m);
      let n1 := Z.min n (u32 ((fbn + 1) * BSIZE - off)) in
      buf ← rsect x m;
      let m := wsect x (splice (Z.to_nat (off - fbn * BSIZE)) (take (Z.to_nat n1) p) buf) m in
      iappend_loop fuel din (u32 (off + n1)) (drop (Z.to_nat n1) p) m
  end.

Definition iappend (inum : Z) (p : list Z) (m : image) : option image :=
  din ← rinode inum m;
  '(din, off, m) ← iappend_loop (length p) din (xint (i_size din)) p m;
  winode inum (din <| i_size := xint off |>) m.

(** The bytes of a [struct dirent]. *)
Definition dirent (inum : Z) (name : list Z) : list Z :=
  le_bytes 2 (xshort inum) ++ strncpy (replicate (Z.to_nat DIRSIZ) 0) name (Z.to_nat DIRSIZ).

(** [user/] and then an underscore are taken off the name; a slash in the rest fails. *)
Definition shortname (arg : list Z) : option (list Z) :=
  let s := if strncmp arg (lit "user/") 5 =? 0 then drop 5 arg else arg in
  match strchr s 47 with
  | Some _ => None
  | None => Some (if deref s =? 95 then drop 1 s else s)
  end.

(** The contents of a file, in the pieces that [read] delivers. *)
Fixpoint append_all (inum : Z) (pieces : list (list Z)) (m : image) : option image :=
  match pieces with
  | [] => Some m
  | p :: pieces => m ← iappend inum p m; append_all inum pieces m
  end.

Definition add_file (rootino : Z) (arg : list Z) (pieces : list (list Z)) (m : image) : option image :=
  name ← shortname arg;
  '(inum, m) ← ialloc T_FILE m;
  m ← iappend rootino (dirent inum name) m;
  append_all inum pieces m.

Fixpoint add_files (rootino : Z) (files : list (list Z * list (list Z))) (m : image) : option image :=
  match files with
  | [] => Some m
  | (arg, pieces) :: files => m ← add_file rootino arg pieces m; add_files rootino files m
  end.

(** All blocks zero, but for the superblock. *)
Definition blank_image : image :=
  let m := Image (λ _, zero_block) 1 mk_nmeta in
  wsect 1 (splice 0 (sb_bytes mk_sb) zero_block) m.

Definition fix_root (rootino : Z) (m : image) : option image :=
  din ← rinode rootino m;
  let off := xint (i_size din) in
  let off := u32 ((off / BSIZE + 1) * BSIZE) in
  winode rootino (din <| i_size := xint off |>) m.

(** [argv] names files of these contents. *)
Definition mkfs_main (files : list (list Z * list (list Z))) : option image :=
  '(rootino, m) ← ialloc T_DIR blank_image;
  if negb (rootino =? ROOTINO) then None else
  m ← iappend rootino (dirent rootino (lit ".")) m;
  m ← iappend rootino (dirent rootino (lit "..")) m;
  m ← add_files rootino files m;
  m ← fix_root rootino m;
  balloc (freeblock m) m.
