(* ===== verification/MkfsSpec.v ===== *)
(** * Appending to the files of a new image

    The kernel's view of the image: the blocks with the bitmap as [balloc] will write
    it at the end.  In this view mkfs allocates like the kernel's [balloc], and its
    [iappend] extends a file like the kernel's [writei]. *)

From stdpp Require Import functions.
From S2P Require Import Prelude CString Riscv Kernel Bytes Bio Log Fs FsSpec FsFile FsData FsInode Mkfs.

Lemma mkfs_geom : geom 2 30 mk_sb.
Proof. split; vm_compute; repeat split; congruence. Qed.

Lemma mkfs_numbers : sb_size mk_sb = 2000 ∧ sb_bmapstart mk_sb = 45 ∧ nmeta mk_sb = 46 ∧ sb_ninodes mk_sb = 200 ∧ sb_inodestart mk_sb = 32 ∧
  BSIZE = 1024 ∧ MAXFILE = 268 ∧ NDIRECT = 12 ∧ BPB = 8192 ∧ FSSIZE = 2000.
Proof. done. Qed.

(** ** The bitmap *)

Lemma bitmap_len n : length (bitmap n) = Z.to_nat BSIZE.
Proof.
  unfold bitmap. generalize (seqZ 0 n). intros l.
  assert (∀ b : list Z, length b = Z.to_nat BSIZE → length (foldl (λ buf i, set_bit i buf) b l) = Z.to_nat BSIZE) as H.
  { induction l as [|i l IH]; intros b Hb; [done|]. cbn [foldl]. apply IH. unfold set_bit. by rewrite length_alter. }
  apply H. apply length_replicate.
Qed.

Lemma bitmap_bits n : 0 ≤ n ≤ 8192 → ∀ i, 0 ≤ i < 8192 → bit_at (bitmap n) i = (i <? n).
Proof.
  intros [Hn0 Hn]. revert Hn. pattern n. apply natlike_ind; [| |done].
  - intros _ i Hi. rewrite (proj2 (Z.ltb_ge i 0)) by lia. change (bitmap 0) with zero_block. unfold bit_at.
    replace (nthZ zero_block (i / 8)) with 0; [done|]. unfold nthZ, zero_block. rewrite nth_lookup.
    destruct (replicate _ 0 !! _) eqn:E; [by apply lookup_replicate in E as [-> _]|done].
  - clear n Hn0. intros n Hn IH Hle i Hi.
    assert (bitmap (Z.succ n) = set_bit n (bitmap n)) as ->.
    { unfold bitmap. rewrite <- Z.add_1_r, seqZ_app, foldl_app by lia. by rewrite Z.add_0_l. }
    rewrite bit_set by (apply bitmap_len || (change BPB with 8192; lia)).
    rewrite IH by lia. case_bool_decide as E; cbn [orb]; [subst; symmetry; apply Z.ltb_lt; lia|].
    destruct (Z.ltb_spec i n), (Z.ltb_spec i (Z.succ n)); try done; lia.
Qed.

(** ** The kernel's view *)

Section View.
Abbreviation sb := mk_sb.

Record view (m : image) (c : Z → list Z) : Prop := {
  vw_blocks b : b ≠ 45 → c b = img m b;
  vw_bits b : 0 ≤ b < 2000 → bbit c sb b = (b <? freeblock m);
  vw_sized : sized c;
  vw_free : 46 ≤ freeblock m ≤ 2000;
  vw_zero b : freeblock m ≤ b < 2000 → c b = zero_block
}.

Lemma next_fresh m c : view m c → freeblock m < 2000 → fresh sb c (freeblock m).
Proof.
  intros V Hf. pose proof (vw_free _ _ V). pose proof mkfs_numbers as (E1 & E2 & E3 & _). split; [rewrite E1, E3; lia|].
  rewrite (vw_bits _ _ V) by lia. apply Z.ltb_ge. lia.
Qed.

(** [freeblock++] is the allocation of a block. *)
Lemma next_block_view m c : view m c → freeblock m < 2000 →
  let '(b, m') := next_block m in b = freeblock m ∧ view m' (alloc sb c b) ∧ img m' = img m ∧ freeinode m' = freeinode m ∧
    freeblock m' = freeblock m + 1.
Proof.
  intros V Hf. pose proof (vw_free _ _ V) as Hr. unfold next_block. rewrite u32_small by lia. split; [done|]. split; [|done].
  pose proof (next_fresh m c V Hf) as Hfr. assert (HB : BBLOCK (freeblock m) sb = 45).
  { destruct (bblock_eq _ _ _ mkfs_geom (freeblock m)) as (-> & _); [change (sb_size sb) with 2000; lia|].
    change BPB with 8192. change (sb_bmapstart sb) with 45. rewrite Z.div_small by lia. done. }
  split; cbn [img freeblock].
  - intros b Hb. destruct (decide (b = freeblock m)) as [->|Hne].
    + unfold alloc. rewrite fn_lookup_insert. rewrite <- (vw_blocks _ _ V) by done. symmetry. apply (vw_zero _ _ V). lia.
    + rewrite alloc_other by (done || congruence). by apply (vw_blocks _ _ V).
  - intros b Hb. rewrite (alloc_bits _ _ _ mkfs_geom) by (done || apply V). rewrite (vw_bits _ _ V) by done.
    case_bool_decide; cbn [orb]; destruct (Z.ltb_spec b (freeblock m)), (Z.ltb_spec b (freeblock m + 1)); try done; lia.
  - apply alloc_sized. apply V.
  - lia.
  - intros b Hb. rewrite alloc_other by lia. apply (vw_zero _ _ V). lia.
Qed.

(** Writing a block in use. *)
Lemma wsect_view m c b new : view m c → 0 ≤ b < freeblock m → b ≠ 45 → length new = Z.to_nat BSIZE →
  view (wsect b new m) (<[b := new]> c).
Proof.
  intros V Hb H45 Hlen. pose proof (vw_free _ _ V) as Hr. split; cbn [wsect img freeblock].
  - intros y Hy. destruct (decide (y = b)) as [->|]; [by rewrite !fn_lookup_insert|]. rewrite !fn_lookup_insert_ne by done. by apply (vw_blocks _ _ V).
  - intros y Hy. rewrite <- (vw_bits _ _ V) by done. unfold bbit.
    destruct (bblock_eq _ _ _ mkfs_geom y) as (_ & Hbb & _); [done|]. rewrite fn_lookup_insert_ne; [done|].
    change (sb_bmapstart sb) with 45 in Hbb. change (nmeta sb) with 46 in Hbb. lia.
  - intros y. destruct (decide (y = b)) as [->|]; [by rewrite fn_lookup_insert|]. rewrite fn_lookup_insert_ne by done. apply V.
  - done.
  - intros y Hy. rewrite fn_lookup_insert_ne by lia. by apply (vw_zero _ _ V).
Qed.

Lemma rsect_view m c b : view m c → 0 ≤ b < 2000 → b ≠ 45 → rsect b m = Some (c b).
Proof. intros V Hb H45. unfold rsect. rewrite (proj2 (Z.ltb_lt b FSSIZE)) by (unfold FSSIZE; lia). by rewrite (vw_blocks _ _ V). Qed.

(** A block of a file is in use, and is no metadata. *)
Lemma slot_in_use m c x k : view m c → file_ok sb c x → 0 ≤ k ≤ 268 → slot c x k ≠ 0 → 46 ≤ slot c x k < freeblock m.
Proof.
  intros V Hok Hk Hnz. destruct (fo_used _ _ _ Hok k Hk Hnz) as [Hr Hb]. change (nmeta sb) with 46 in Hr. change (sb_size sb) with 2000 in Hr.
  rewrite (vw_bits _ _ V) in Hb by lia. apply Z.ltb_lt in Hb. lia.
Qed.

(** What the search for a block of the file leaves. *)
Record got (A : Z → Prop) (m : image) (c : Z → list Z) (x : inode) (fbn : Z) (n : Z) (m' : image) (c' : Z → list Z) (x' : inode) (a : Z) : Prop := {
  gt_view : view m' c';
  gt_ok : file_ok sb c' x';
  gt_grown : grown sb A c c' x x';
  gt_addr : faddr c' x' fbn = a;
  gt_nonzero : a ≠ 0;
  gt_inode : freeinode m' = freeinode m;
  gt_count : freeblock m' = freeblock m + n;
  gt_zero : faddr c x fbn = 0 → c' a = zero_block
}.

Lemma xint_addr c x k : file_ok sb c x → xint (nthZ (i_addrs x) k) = nthZ (i_addrs x) k.
Proof.
  intros Hok. apply u32_small. unfold nthZ. rewrite nth_lookup. pose proof (file_addrs _ _ _ mkfs_geom c x Hok) as Ha.
  destruct (i_addrs x !! Z.to_nat k) as [a|] eqn:E; cbn; [|lia]. eapply Forall_lookup_1 in Ha; [|done]. cbv beta in Ha. lia.
Qed.

Lemma direct_block_ok m c x fbn (n := if faddr c x fbn =? 0 then 1 else 0) :
  view m c → file_ok sb c x → 0 ≤ fbn < 12 → freeblock m + n ≤ 2000 →
  ∃ a x' m' c', direct_block fbn x m = Some (a, x', m') ∧ got (λ k, k = fbn) m c x fbn n m' c' x' a.
Proof.
  intros V Hok Hfbn Hn. unfold direct_block. rewrite (xint_addr c) by done.
  assert (Ef : ∀ c x, faddr c x fbn = nthZ (i_addrs x) fbn) by (intros; unfold faddr; by rewrite (proj2 (Z.ltb_lt fbn NDIRECT)) by (unfold NDIRECT; lia)).
  unfold n in *. rewrite <- (Ef c x) in *. destruct (Z.eqb_spec (faddr c x fbn) 0) as [E0|Hne].
  - pose proof (next_block_view m c V ltac:(lia)) as Hnb. destruct (next_block m) as [b m']. destruct Hnb as (-> & V' & _ & Hfi & Hfb).
    pose proof (vw_free _ _ V). pose proof (next_fresh m c V ltac:(lia)) as Hfr. set (b := freeblock m) in *. replace (xint b) with b by (symmetry; apply u32_small; lia).
    destruct (add_direct_ok _ _ _ mkfs_geom c x fbn b Hok (vw_sized _ _ V) Hfr Hfbn E0) as (Hok' & Hgr & Hnew & _).
    eexists _, _, _, _. split; [reflexivity|]. rewrite (xint_addr (alloc sb c b)), <- (Ef (alloc sb c b)) by exact Hok'.
    change (x <| i_addrs ::= _ |>) with (add_direct x fbn b). split; try done; rewrite Hnew; [lia|].
    intros _. unfold alloc. apply fn_lookup_insert.
  - eexists _, _, _, _. split; [reflexivity|]. rewrite (xint_addr c), <- (Ef c) by done. split; try done; [apply fgrown_refl|lia].
Qed.

(** The indirect block, which is allocated when it is first needed. *)
Lemma indirect_ready m c x (n := if ind_block x =? 0 then 1 else 0) :
  view m c → file_ok sb c x → freeblock m + n ≤ 2000 →
  ∃ x' m' c',
    (if xint (nthZ (i_addrs x) NDIRECT) =? 0 then
       let '(b, m) := next_block m in (x <| i_addrs ::= <[Z.to_nat NDIRECT := xint b]> |>, m)
     else (x, m)) = (x', m') ∧
    view m' c' ∧ file_ok sb c' x' ∧ grown sb (λ k, k = MAXFILE) c c' x x' ∧ ind_block x' ≠ 0 ∧
    freeinode m' = freeinode m ∧ freeblock m' = freeblock m + n ∧ (∀ k, NDIRECT ≤ k < MAXFILE → faddr c x k = 0 → faddr c' x' k = 0).
Proof.
  intros V Hok Hn. rewrite (xint_addr c) by done. fold (ind_block x). unfold n in *. destruct (Z.eqb_spec (ind_block x) 0) as [E0|Hne].
  - pose proof (next_block_view m c V ltac:(lia)) as Hnb. destruct (next_block m) as [b m']. destruct Hnb as (-> & V' & _ & Hfi & Hfb).
    pose proof (vw_free _ _ V). pose proof (next_fresh m c V ltac:(lia)) as Hfr. set (b := freeblock m) in *. replace (xint b) with b by (symmetry; apply u32_small; lia).
    destruct (add_ind_ok _ _ _ mkfs_geom c x b Hok (vw_sized _ _ V) Hfr E0) as (Hok' & Hgr & Hnew).
    eexists _, _, _. split; [reflexivity|]. split; [exact V'|]. split; [exact Hok'|]. split; [exact Hgr|].
    split; [change (ind_block (add_ind x b) ≠ 0); rewrite Hnew; lia|]. split; [done|]. split; [done|].
    intros k Hk Ha. change (faddr (alloc sb c b) (add_ind x b) k = 0). rewrite <- slot_data in * by (change NDIRECT with 12 in Hk; lia).
    rewrite (gr_only _ _ _ _ _ _ Hgr); [done|change NDIRECT with 12 in Hk; lia|lia].
  - exists x, m, c. split; [done|]. split; [done|]. split; [done|]. split; [apply fgrown_refl|]. split; [done|]. split; [done|]. split; [lia|done].
Qed.

Lemma indirect_block_ok m c x fbn (n := (if ind_block x =? 0 then 1 else 0) + (if faddr c x fbn =? 0 then 1 else 0)) :
  view m c → file_ok sb c x → 12 ≤ fbn < 268 → freeblock m + n ≤ 2000 →
  ∃ a x' m' c', indirect_block fbn x m = Some (a, x', m') ∧ got (λ k, k = MAXFILE ∨ k = fbn) m c x fbn n m' c' x' a.
Proof.
  intros V Hok Hfbn Hn. unfold indirect_block. assert (H0 : ∀ z : Z, 0 ≤ (if z =? 0 then 1 else 0)) by (intros z; destruct (z =? 0); lia).
  pose proof (H0 (faddr c x fbn)). destruct (indirect_ready m c x V Hok) as (x1 & m1 & c1 & -> & V1 & Hok1 & Hgr1 & Hi1 & Hfi1 & Hfb1 & Hz1); [unfold n in Hn; lia|].
  rewrite (xint_addr c1) by done. fold (ind_block x1). assert (Hs1 : slot c1 x1 MAXFILE = ind_block x1) by apply slot_ind.
  pose proof (slot_in_use m1 c1 x1 MAXFILE V1 Hok1 ltac:(change MAXFILE with 268; lia) ltac:(by rewrite Hs1)) as Hr1. rewrite Hs1 in Hr1.
  pose proof (vw_free _ _ V1). rewrite (rsect_view m1 c1) by (done || lia). cbn [mbind option_bind].
  assert (Ee : ∀ c x, ind_block x ≠ 0 → get32 (4 * (fbn - NDIRECT)) (c (ind_block x)) = faddr c x fbn).
  { intros c' x' Hi. unfold faddr. by rewrite (proj2 (Z.ltb_ge fbn NDIRECT)), (proj2 (Z.eqb_neq _ 0)) by (done || (change NDIRECT with 12; lia)). }
  assert (Hlt : ∀ m' c' x', view m' c' → file_ok sb c' x' → xint (faddr c' x' fbn) = faddr c' x' fbn).
  { intros m' c' x' V' Hok'. apply u32_small. destruct (decide (faddr c' x' fbn = 0)) as [->|Hne]; [lia|]. rewrite <- slot_data in * by (change MAXFILE with 268; lia).
    pose proof (slot_in_use m' c' x' fbn V' Hok' ltac:(lia) Hne). pose proof (vw_free _ _ V'). lia. }
  rewrite (Ee c1 x1) by done. destruct (Z.eqb_spec (faddr c1 x1 fbn) 0) as [E0|Hne].
  - assert (Hf0 : faddr c x fbn = 0).
    { destruct (decide (faddr c x fbn = 0)) as [|Hne]; [done|]. rewrite <- !slot_data in * by (change MAXFILE with 268; lia).
      rewrite (gr_kept _ _ _ _ _ _ Hgr1) in E0 by (done || (change MAXFILE with 268; lia)). done. }
    unfold n in Hn. rewrite Hf0 in Hn. cbn [Z.eqb] in Hn. pose proof (next_block_view m1 c1 V1 ltac:(lia)) as Hnb.
    pose proof (next_fresh m1 c1 V1 ltac:(lia)) as Hfr. destruct (next_block m1) as [b m2]. destruct Hnb as (-> & V2 & _ & Hfi2 & Hfb2). set (b := freeblock m1) in *.
    replace (xint b) with b by (symmetry; apply u32_small; lia).
    destruct (add_entry_ok _ _ _ mkfs_geom c1 x1 fbn b Hok1 (vw_sized _ _ V1) Hfr Hi1) as (Hok2 & Hgr2 & Hnew); [change NDIRECT with 12; change MAXFILE with 268; lia|done|].
    assert (Ei : alloc sb c1 b (ind_block x1) = c1 (ind_block x1)) by (apply (alloc_data _ _ _ mkfs_geom); [done|change (nmeta sb) with 46; lia|lia]).
    assert (V3 : view (wsect (ind_block x1) (put32 (4 * (fbn - NDIRECT)) b (c1 (ind_block x1))) m2) (add_entry sb c1 x1 fbn b)).
    { apply wsect_view; [done|lia|lia|]. rewrite length_put32; [apply V1|change NDIRECT with 12; lia|rewrite (vw_sized _ _ V1); change NDIRECT with 12; change (Z.of_nat (Z.to_nat BSIZE)) with 1024; lia]. }
    eexists _, _, _, _. split; [reflexivity|].
    assert (Eb : get32 (4 * (fbn - NDIRECT)) (put32 (4 * (fbn - NDIRECT)) b (c1 (ind_block x1))) = faddr (add_entry sb c1 x1 fbn b) x1 fbn).
    { rewrite <- Ee by done. unfold add_entry. by rewrite fn_lookup_insert. }
    rewrite Eb, (Hlt _ _ _ V3 Hok2). split; try done.
    + by eapply (grown_trans _ _ _ mkfs_geom).
    + rewrite Hnew. lia.
    + etrans; [exact Hfi2|exact Hfi1].
    + cbn [wsect freeblock]. unfold n. rewrite Hf0. cbn [Z.eqb]. lia.
    + intros _. rewrite Hnew. unfold add_entry, alloc. rewrite fn_lookup_insert_ne by lia. apply fn_lookup_insert.
  - eexists _, _, _, _. split; [reflexivity|]. rewrite (Ee c1 x1), (Hlt _ _ _ V1 Hok1) by done.
    assert (Hf0 : faddr c x fbn ≠ 0) by (intros E0; apply Hne, Hz1; [change NDIRECT with 12; change MAXFILE with 268; lia|done]).
    split; try done; [eapply grown_sub; [|done]; tauto|]. unfold n. rewrite (proj2 (Z.eqb_neq _ 0) Hf0). lia.
Qed.

(** ** iappend *)

(** The blocks of a file of [n] bytes, the indirect block included. *)
Definition blocks (n : Z) : Z := (n + 1023) / 1024 + (if 12 * 1024 <? n then 1 else 0).

(** The file has blocks for its first [off] bytes and no others. *)
Definition tight (c : Z → list Z) (x : inode) (off : Z) : Prop :=
  (∀ k, 0 ≤ k < 268 → faddr c x k ≠ 0 ↔ k * 1024 < off) ∧ (ind_block x ≠ 0 ↔ 12 * 1024 < off).

Lemma tight_step c c' x x' off n1 (A : Z → Prop) (fbn := off / 1024) :
  tight c x off → grown sb A c c' x x' → (∀ k, A k → k = MAXFILE ∨ k = fbn) → (A MAXFILE → 12 ≤ fbn) → (12 ≤ fbn → ind_block x' ≠ 0) →
  0 ≤ off → fbn < 268 → 0 < n1 ≤ 1024 - off mod 1024 → faddr c' x' fbn ≠ 0 → tight c' x' (off + n1).
Proof.
  intros [Hk Hi] Hgr HA HM Hind Ho Hfbn Hn1 Ha. pose proof (Z.div_mod off 1024 ltac:(lia)) as Hdm. fold fbn in Hdm. pose proof (Z.mod_pos_bound off 1024 ltac:(lia)).
  assert (0 ≤ fbn) by (apply Z.div_pos; lia). split.
  - intros k Hkr. destruct (decide (k = fbn)) as [->|Hne]; [split; [lia|done]|].
    assert (faddr c' x' k = faddr c x k) as ->; [|rewrite Hk by done; lia].
    rewrite <- !slot_data by (change MAXFILE with 268; lia). apply (gr_only _ _ _ _ _ _ Hgr); [change MAXFILE with 268; lia|].
    intros Hc%HA. change MAXFILE with 268 in Hc. lia.
  - destruct (decide (12 ≤ fbn)) as [Hge|Hlt]; [split; [lia|by intros _; apply Hind]|].
    assert (ind_block x' = ind_block x) as -> by (eapply grown_ind; [done|]; tauto). rewrite Hi. lia.
Qed.

Lemma blocks_step off n1 (fbn := off / 1024) : 0 ≤ off → 0 < n1 ≤ 1024 - off mod 1024 →
  blocks (off + n1) - blocks off = (if fbn * 1024 <? off then 0 else 1) + (if 12 <=? fbn then if 12 * 1024 <? off then 0 else 1 else 0).
Proof.
  intros Ho Hn1. pose proof (Z.div_mod off 1024 ltac:(lia)) as Hdm. fold fbn in Hdm. pose proof (Z.mod_pos_bound off 1024 ltac:(lia)). unfold blocks.
  assert ((off + n1 + 1023) / 1024 = fbn + 1) as -> by (symmetry; apply (Z.div_unique _ _ _ (off + n1 - 1 - fbn * 1024)); lia).
  assert ((off + 1023) / 1024 = if fbn * 1024 <? off then fbn + 1 else fbn) as ->.
  { destruct (Z.ltb_spec (fbn * 1024) off); symmetry; [apply (Z.div_unique _ _ _ (off - 1 - fbn * 1024)); lia|apply (Z.div_unique _ _ _ 1023); lia]. }
  destruct (Z.leb_spec 12 fbn), (Z.ltb_spec (12 * 1024) (off + n1)), (Z.ltb_spec (12 * 1024) off), (Z.ltb_spec (fbn * 1024) off); lia.
Qed.

Lemma block_for m c x off n1 (fbn := off / 1024) : view m c → file_ok sb c x → tight c x off → 0 ≤ off → fbn < 268 → 0 < n1 ≤ 1024 - off mod 1024 →
  freeblock m + (blocks (off + n1) - blocks off) ≤ 2000 →
  ∃ a x' m' c' (A : Z → Prop), (∀ k, A k → k = MAXFILE ∨ k = fbn) ∧ (if fbn <? NDIRECT then direct_block fbn x m else indirect_block fbn x m) = Some (a, x', m') ∧
    got A m c x fbn (blocks (off + n1) - blocks off) m' c' x' a ∧ tight c' x' (off + n1).
Proof.
  intros V Hok Ht Ho Hfbn Hn1 Hfree. rewrite (blocks_step off n1 Ho Hn1) in *. fold fbn. fold fbn in Hfree.
  pose proof (Z.div_mod off 1024 ltac:(lia)) as Hdm. fold fbn in Hdm. pose proof (Z.mod_pos_bound off 1024 ltac:(lia)). assert (0 ≤ fbn) by (apply Z.div_pos; lia).
  assert (Ea : (if faddr c x fbn =? 0 then 1 else 0) = (if fbn * 1024 <? off then 0 else 1)).
  { destruct Ht as [Ht _]. specialize (Ht fbn ltac:(lia)). destruct (Z.eqb_spec (faddr c x fbn) 0), (Z.ltb_spec (fbn * 1024) off); tauto || lia. }
  assert (Ei : (if ind_block x =? 0 then 1 else 0) = (if 12 * 1024 <? off then 0 else 1)).
  { destruct Ht as [_ Ht]. destruct (Z.eqb_spec (ind_block x) 0), (Z.ltb_spec (12 * 1024) off); tauto || lia. }
  change NDIRECT with 12. destruct (Z.ltb_spec fbn 12) as [Hlt|Hge].
  - rewrite (proj2 (Z.leb_gt 12 fbn)), Z.add_0_r in * by lia. rewrite <- Ea in *.
    destruct (direct_block_ok m c x fbn) as (a & x' & m' & c' & E & Hg); [done|done|lia|done|].
    exists a, x', m', c', (λ k, k = fbn). split; [tauto|]. split; [done|]. split; [done|].
    eapply (tight_step c c' x x' off n1 (λ k, k = fbn)); [done|apply Hg|tauto|change MAXFILE with 268; fold fbn; lia|fold fbn; lia|done|done|done|].
    fold fbn. rewrite (gt_addr _ _ _ _ _ _ _ _ _ _ Hg). apply Hg.
  - rewrite (proj2 (Z.leb_le 12 fbn)) in * by lia. rewrite Z.add_comm, <- Ea, <- Ei in *.
    destruct (indirect_block_ok m c x fbn) as (a & x' & m' & c' & E & Hg); [done|done|lia|lia|].
    exists a, x', m', c', (λ k, k = MAXFILE ∨ k = fbn). split; [done|]. split; [done|]. split; [done|].
    pose proof (gt_addr _ _ _ _ _ _ _ _ _ _ Hg) as Hga. pose proof (gt_nonzero _ _ _ _ _ _ _ _ _ _ Hg) as Hnz.
    eapply (tight_step c c' x x' off n1 (λ k, k = MAXFILE ∨ k = fbn)); [done|apply Hg|tauto|done| |done|done|done|fold fbn; congruence].
    intros _ E0. apply Hnz. rewrite <- Hga. unfold faddr. change NDIRECT with 12. by rewrite (proj2 (Z.ltb_ge fbn 12)), E0 by lia.
Qed.

(** The blocks of the file are zero from [off] on. *)
Definition clean (c : Z → list Z) (x : inode) (off : Z) : Prop :=
  ∀ p, off ≤ p < 268 * 1024 → faddr c x (p / 1024) ≠ 0 → fbyte c x p = 0.

Lemma nthZ_zero_block k : nthZ zero_block k = 0.
Proof. unfold nthZ, zero_block. rewrite nth_lookup. destruct (replicate _ 0 !! _) eqn:E; [by apply lookup_replicate in E as [-> _]|done]. Qed.

Lemma clean_got A m c x fbn n m' c' x' a off :
  got A m c x fbn n m' c' x' a → (∀ k, A k → k = MAXFILE ∨ k = fbn) → 0 ≤ off → clean c x off → clean c' x' off.
Proof.
  intros Hg HA Ho Hc p Hp Hnz. assert (Hk : 0 ≤ p / 1024 < 268) by (split; [apply Z.div_pos; lia|apply Z.div_lt_upper_bound; lia]).
  destruct (decide (faddr c x (p / 1024) = 0)) as [E0|Hne].
  - assert (p / 1024 = fbn) as Ep.
    { destruct (decide (p / 1024 = fbn)) as [|Hne]; [done|]. exfalso. apply Hnz. rewrite <- E0. rewrite <- !slot_data by (change MAXFILE with 268; lia).
      apply (gr_only _ _ _ _ _ _ (gt_grown _ _ _ _ _ _ _ _ _ _ Hg)); [change MAXFILE with 268; lia|]. intros Hx%HA. change MAXFILE with 268 in Hx. lia. }
    unfold fbyte. change BSIZE with 1024. rewrite Ep in *. rewrite (gt_addr _ _ _ _ _ _ _ _ _ _ Hg), (gt_zero _ _ _ _ _ _ _ _ _ _ Hg E0). apply nthZ_zero_block.
  - rewrite (grown_fbyte _ _ _ _ _ _ _ (gt_grown _ _ _ _ _ _ _ _ _ _ Hg)); [by apply Hc|change (MAXFILE * BSIZE) with (268 * 1024); lia|done].
Qed.

(** The state after [bs] has been appended at [off]. *)
Record appended (m : image) (c : Z → list Z) (x : inode) (off : Z) (bs : list Z) (m' : image) (c' : Z → list Z) (x' : inode) : Prop := {
  ap_view : view m' c';
  ap_ok : file_ok sb c' x';
  ap_tight : tight c' x' (off + Z.of_nat (length bs));
  ap_clean : clean c' x' (off + Z.of_nat (length bs));
  ap_wrote : wrote sb c c' x x' off bs;
  ap_inode : freeinode m' = freeinode m;
  ap_count : freeblock m' = freeblock m + (blocks (off + Z.of_nat (length bs)) - blocks off)
}.

Lemma iappend_round fuel m c x off p (n1 := Z.min (Z.of_nat (length p)) (1024 - off mod 1024)) :
  p ≠ [] → view m c → file_ok sb c x → tight c x off → clean c x off → 0 ≤ off → off + Z.of_nat (length p) ≤ MAXFILE * BSIZE →
  freeblock m + (blocks (off + n1) - blocks off) ≤ 2000 →
  ∃ m' c' x', iappend_loop (S fuel) x off p m = iappend_loop fuel x' (off + n1) (drop (Z.to_nat n1) p) m' ∧
    appended m c x off (take (Z.to_nat n1) p) m' c' x'.
Proof.
  intros Hp V Hok Ht Hcl Ho Hmax Hfree. change (MAXFILE * BSIZE) with (268 * 1024) in Hmax. assert (length p ≠ 0%nat) by (by destruct p).
  pose proof (Z.mod_pos_bound off 1024 ltac:(lia)). pose proof (Z.div_mod off 1024 ltac:(lia)) as Hdm.
  assert (Hn1 : 0 < n1 ≤ 1024 - off mod 1024) by (unfold n1; lia). assert (Hfbn : 0 ≤ off / 1024 < 268) by (split; [apply Z.div_pos; lia|apply Z.div_lt_upper_bound; lia]).
  assert (Hlen : Z.of_nat (length (take (Z.to_nat n1) p)) = n1) by (rewrite length_take; unfold n1; lia).
  destruct (block_for m c x off n1) as (a & x' & m' & c' & A & HA & E & Hg & Ht'); [done..|lia|done|done|].
  pose proof Hg as [V' Hok' Hgr Ha Hnz Hfi Hfb _]. pose proof (clean_got _ _ _ _ _ _ _ _ _ _ off Hg HA Ho Hcl) as Hcl'.
  assert (Hr : 46 ≤ a < freeblock m').
  { rewrite <- Ha, <- slot_data by (change MAXFILE with 268; lia). apply slot_in_use; [done|done|lia|]. rewrite slot_data by (change MAXFILE with 268; lia). congruence. }
  set (new := splice (Z.to_nat (off mod 1024)) (take (Z.to_nat n1) p) (c' a)). pose proof (vw_sized _ _ V' a) as Hla. change (Z.to_nat BSIZE) with 1024%nat in Hla.
  assert (Hlnew : length new = Z.to_nat BSIZE) by (change (Z.to_nat BSIZE) with 1024%nat; unfold new; rewrite length_splice by lia; done).
  exists (wsect a new m'), (<[a := new]> c'), x'. split.
  - destruct p as [|b p]; [done|]. cbn [iappend_loop]. change BSIZE with 1024. change MAXFILE with 268. rewrite (proj2 (Z.ltb_lt _ 268)) by lia. cbn [negb].
    rewrite E. cbn [mbind option_bind]. pose proof (vw_free _ _ V'). rewrite (rsect_view m' c') by (done || lia). cbn [option_bind].
    assert (En : Z.min (Z.of_nat (length (b :: p))) (u32 ((off / 1024 + 1) * 1024 - off)) = n1) by (unfold n1; rewrite u32_small by lia; lia).
    rewrite En. rewrite (u32_small (off + n1)) by lia. replace (off - off / 1024 * 1024) with (off mod 1024) by lia. done.
  - assert (Hbn : 0 ≤ off / BSIZE < MAXFILE) by done. assert (Hane : faddr c' x' (off / BSIZE) ≠ 0) by (change BSIZE with 1024; congruence).
    pose proof (write_slot sb c' x' (off / BSIZE) new Hok' Hbn Hane) as Hws. change (off / BSIZE) with (off / 1024) in Hws. rewrite Ha in Hws.
    split; rewrite ?Hlen; try done.
    + apply wsect_view; [done|lia|lia|done].
    + rewrite <- Ha. by apply (write_file_ok _ _ _ mkfs_geom).
    + destruct Ht' as [T1 T2]. split; [|done]. intros k Hk. rewrite <- T1 by done. rewrite <- !slot_data by (change MAXFILE with 268; lia). by rewrite Hws.
    + intros q Hq Hqnz. rewrite <- !slot_data in Hqnz by (change MAXFILE with 268; split; [apply Z.div_pos|apply Z.div_lt_upper_bound]; lia).
      rewrite Hws, slot_data in Hqnz by (change MAXFILE with 268; split; [apply Z.div_pos|apply Z.div_lt_upper_bound]; lia).
      rewrite <- Ha. change (off / 1024) with (off / BSIZE). rewrite (write_fbyte sb) by (done || (change (MAXFILE * BSIZE) with (268 * 1024); lia)).
      change BSIZE with 1024. rewrite <- (Hcl' q) by (done || lia). case_decide as Eq; [|done]. unfold new, fbyte. change BSIZE with 1024. rewrite Eq, Ha.
      pose proof (Z.div_mod q 1024 ltac:(lia)). pose proof (Z.mod_pos_bound q 1024 ltac:(lia)).
      rewrite nthZ_splice by lia. rewrite decide_False; [done|]. lia.
    + eapply wrote_grown; [exact mkfs_geom|exact Hgr|]. unfold new. rewrite <- Ha.
      apply (wrote_piece _ _ _ mkfs_geom); [done|apply V'|done|rewrite Hlen; change BSIZE with 1024; lia|done|done].
Qed.

Lemma blocks_mono a b : a ≤ b → blocks a ≤ blocks b.
Proof.
  intros H. unfold blocks. pose proof (Z.div_le_mono (a + 1023) (b + 1023) 1024 ltac:(lia) ltac:(lia)).
  destruct (Z.ltb_spec (12 * 1024) a), (Z.ltb_spec (12 * 1024) b); lia.
Qed.

Lemma iappend_loop_ok fuel : ∀ p m c x off, (length p ≤ fuel)%nat →
  view m c → file_ok sb c x → tight c x off → clean c x off → 0 ≤ off → off + Z.of_nat (length p) ≤ MAXFILE * BSIZE →
  freeblock m + (blocks (off + Z.of_nat (length p)) - blocks off) ≤ 2000 →
  ∃ m' c' x', iappend_loop fuel x off p m = Some (x', off + Z.of_nat (length p), m') ∧ appended m c x off p m' c' x'.
Proof.
  induction fuel as [|fuel IH]; intros p m c x off Hf V Hok Ht Hcl Ho Hmax Hfree; (destruct (decide (p = [])) as [->|Hp];
    [exists m, c, x; cbn [length] in *; rewrite Z.add_0_r in *; split; [by try destruct fuel|split; rewrite ?Z.add_0_r; try done; [apply wrote_nil|lia]]|]).
  { by destruct p; cbn in Hf; [|lia]. }
  set (n1 := Z.min (Z.of_nat (length p)) (1024 - off mod 1024)). pose proof (Z.mod_pos_bound off 1024 ltac:(lia)). assert (length p ≠ 0%nat) by (by destruct p).
  assert (Hlen : length (take (Z.to_nat n1) p) = Z.to_nat n1) by (rewrite length_take; unfold n1; lia).
  pose proof (blocks_mono (off + n1) (off + Z.of_nat (length p)) ltac:(unfold n1; lia)) as Hm1.
  destruct (iappend_round fuel m c x off p) as (m1 & c1 & x1 & -> & Ha); [done..|fold n1; lia|]. fold n1 in Ha |- *.
  pose proof Ha as [V1 Hok1 Ht1 Hcl1 Hw1 Hi1 Hc1]. rewrite Hlen, Z2Nat.id in Ht1, Hcl1, Hc1 by (unfold n1; lia).
  assert (Hd : Z.of_nat (length (drop (Z.to_nat n1) p)) = Z.of_nat (length p) - n1) by (rewrite length_drop; unfold n1; lia).
  destruct (IH (drop (Z.to_nat n1) p) m1 c1 x1 (off + n1)) as (m2 & c2 & x2 & E & [V2 Hok2 Ht2 Hcl2 Hw2 Hi2 Hc2]);
    [rewrite length_drop; unfold n1; lia|done..|unfold n1; lia|rewrite Hd; lia|rewrite Hd; replace (off + n1 + (Z.of_nat (length p) - n1)) with (off + Z.of_nat (length p)) by lia; lia|].
  rewrite Hd in *. replace (off + n1 + (Z.of_nat (length p) - n1)) with (off + Z.of_nat (length p)) in * by lia.
  exists m2, c2, x2. split; [exact E|]. split; [done|done|done|done| |congruence|lia].
  rewrite <- (take_drop (Z.to_nat n1) p). apply (wrote_trans _ _ _ mkfs_geom c c1 c2 x x1 x2); [done|rewrite Hlen; unfold n1; lia|done|].
  by rewrite Hlen, Z2Nat.id by (unfold n1; lia).
Qed.
End View.
