(* ===== verification/MkfsProps.v ===== *)
(** * The files of the new image

    Inodes and contents of the files while mkfs adds to them: the kernel's view of the
    image shows every file with what has been appended so far. *)

From stdpp Require Import functions.
From S2P Require Import Prelude CString Riscv Kernel Bytes Bio Log Fs FsSpec FsFile FsData FsInode FsTrunc Mkfs MkfsSpec.

Section Image.
Abbreviation sb := mk_sb.

(** Inode number [k + 1]. *)
Definition inum_of (k : nat) : Z := 1 + Z.of_nat k.
Definition disk_inode (c : Z → list Z) (i : Z) : inode := load_dinode (dinode_off i) (c (IBLOCK i sb)) (no_dinode i).

Record inode_ok (c : Z → list Z) (k : nat) (x : inode) : Prop := {
  io_disk : disk_inode c (inum_of k) = x;
  io_wf : dinode_wf x;
  io_ok : file_ok sb c x;
  io_tight : tight c x (i_size x);
  io_clean : clean c x (i_size x)
}.

(** The image with the inodes [X] so far. *)
Record stored (m : image) (c : Z → list Z) (X : list inode) : Prop := {
  st_view : view m c;
  st_free : freeinode m = inum_of (length X);
  st_count : (length X < 200)%nat;
  st_sb : c 1 = splice 0 (sb_bytes mk_sb) zero_block;
  st_log b : 2 ≤ b < 32 → c b = zero_block;
  st_rest k : (length X ≤ k < 199)%nat → disk_inode c (inum_of k) = no_dinode (inum_of k);
  st_inode k x : X !! k = Some x → inode_ok c k x;
  st_disjoint j k x z : X !! j = Some x → X !! k = Some z → j ≠ k → disjoint_files c x z
}.

Lemma inode_place k : (k < 199)%nat →
  0 ≤ inum_of k < sb_ninodes sb ∧ 32 ≤ IBLOCK (inum_of k) sb < 45 ∧ 0 ≤ dinode_off (inum_of k) ∧ dinode_off (inum_of k) + 64 ≤ 1024.
Proof.
  intros Hk. assert (0 ≤ inum_of k < sb_ninodes sb) as Hi by (change (sb_ninodes sb) with 200; unfold inum_of; lia).
  destruct (inode_block _ _ _ mkfs_geom _ Hi) as (_ & Hb & _ & H1 & H2). change (sb_inodestart sb) with 32 in Hb. change (sb_bmapstart sb) with 45 in Hb.
  change BSIZE with 1024 in H2. done.
Qed.

Lemma rinode_ok m c X k x : stored m c X → X !! k = Some x → rinode (inum_of k) m = Some x.
Proof.
  intros St Hx. pose proof (lookup_lt_Some _ _ _ Hx). pose proof (st_count _ _ _ St). destruct (inode_place k ltac:(lia)) as (_ & Hb & _).
  unfold rinode. rewrite (rsect_view m c) by (apply St || lia). cbn [mbind option_bind]. f_equal. apply (st_inode _ _ _ St k x Hx).
Qed.

(** The fields that are not on disk. *)
Lemma same_disk_inode c i x2 : x2 = (disk_inode c i) <| i_size := i_size x2 |> <| i_addrs := i_addrs x2 |> → same_dinode x2 (no_dinode i) = x2.
Proof. intros ->. done. Qed.

Lemma extends_low c c' x x' b : extends sb c c' x x' → file_ok sb c' x' → 0 ≤ b < 45 → c' b = c b.
Proof.
  intros E Hok Hb. apply (ex_other _ _ _ _ _ E); [change (sb_bmapstart sb) with 45; lia|]. intros j Hj Hnz.
  destruct (fo_used _ _ _ Hok j Hj Hnz) as [Hr _]. change (nmeta sb) with 46 in Hr. lia.
Qed.

(** The blocks after inode [k] has been written. *)
Definition put_inode (k : nat) (x : inode) (c : Z → list Z) : Z → list Z :=
  <[IBLOCK (inum_of k) sb := store_dinode (dinode_off (inum_of k)) x (c (IBLOCK (inum_of k) sb))]> c.

Lemma winode_ok m c k x : view m c → (k < 199)%nat → length (i_addrs x) = 13%nat →
  ∃ m', winode (inum_of k) x m = Some m' ∧ view m' (put_inode k x c) ∧ freeinode m' = freeinode m ∧ freeblock m' = freeblock m.
Proof.
  intros V Hk Hl. destruct (inode_place k Hk) as (_ & Hb & Ho1 & Ho2). unfold winode. rewrite (rsect_view m c) by (done || lia). cbn [mbind option_bind].
  eexists. split; [reflexivity|]. split; [|done]. pose proof (vw_free _ _ V). apply wsect_view; [done|lia|lia|].
  pose proof (vw_sized _ _ V (IBLOCK (inum_of k) sb)) as Hs. rewrite length_store_dinode; [done|done|rewrite Hs; done|done].
Qed.

Lemma put_inode_same c k x : sized c → (k < 199)%nat → dinode_wf x → same_dinode x (no_dinode (inum_of k)) = x →
  disk_inode (put_inode k x c) (inum_of k) = x.
Proof.
  intros Hc Hk W Es. destruct (inode_place k Hk) as (_ & _ & Ho1 & Ho2). unfold disk_inode, put_inode. rewrite fn_lookup_insert.
  rewrite load_store_dinode; [done|done|by rewrite Hc|done].
Qed.

Lemma put_inode_other c c1 k x j : sized c1 → (k < 199)%nat → (j < 199)%nat → j ≠ k → length (i_addrs x) = 13%nat →
  (∀ b, 32 ≤ b < 45 → c1 b = c b) → disk_inode (put_inode k x c1) (inum_of j) = disk_inode c (inum_of j).
Proof.
  intros Hc Hk Hj Hne Hl Hlow. destruct (inode_place k Hk) as (Hi & _). destruct (inode_place j Hj) as (Hij & _).
  apply (stored_inodes 2 30 sb mkfs_geom c c1 (no_dinode (inum_of k)) x); try done. cbn. unfold inum_of. lia.
Qed.

Lemma clean_ext c c' z off :
  (∀ k, 0 ≤ k < 268 → faddr c' z k = faddr c z k ∧ (faddr c z k ≠ 0 → c' (faddr c z k) = c (faddr c z k))) →
  0 ≤ off → clean c z off → clean c' z off.
Proof.
  intros Hs Ho Hc p Hp. assert (0 ≤ p / 1024 < 268) as Hk by (split; [apply Z.div_pos; lia|apply Z.div_lt_upper_bound; lia]).
  destruct (Hs _ Hk) as [E Eb]. rewrite E. intros Hnz. rewrite <- (Hc p Hp Hnz). unfold fbyte. change BSIZE with 1024. by rewrite E, Eb.
Qed.

(** Writing an inode changes no file. *)
Lemma put_inode_file c k x z : (k < 199)%nat → file_ok sb c z →
  file_ok sb (put_inode k x c) z ∧ fdata (put_inode k x c) z = fdata c z ∧
  (∀ b, slot (put_inode k x c) z b = slot c z b) ∧ (∀ b, 46 ≤ b → put_inode k x c b = c b) ∧
  ∀ off, (tight c z off → tight (put_inode k x c) z off) ∧ (0 ≤ off → clean c z off → clean (put_inode k x c) z off).
Proof.
  intros Hk Hz. destruct (inode_place k Hk) as (_ & Hb & _). assert (0 ≤ IBLOCK (inum_of k) sb < sb_bmapstart sb) as Hb' by (change (sb_bmapstart sb) with 45; lia).
  split; [by apply (inode_write_file_ok _ _ _ mkfs_geom)|]. split; [by apply (inode_write_fdata _ _ _ mkfs_geom)|].
  assert (Hf : ∀ b, faddr (put_inode k x c) z b = faddr c z b) by (intros b; by apply (inode_write_faddr _ _ _ mkfs_geom)).
  assert (Hh : ∀ b, 46 ≤ b → put_inode k x c b = c b) by (intros b Hbb; unfold put_inode; by rewrite fn_lookup_insert_ne by lia).
  split; [intros b; by apply (inode_write_slot _ _ _ mkfs_geom)|]. split; [done|]. intros off. split.
  - intros [T1 T2]. split; [|done]. intros b Hbr. by rewrite <- T1, Hf by done.
  - apply clean_ext. intros b Hbr. split; [done|]. intros Hnz. apply Hh. rewrite <- slot_data in * by (change MAXFILE with 268; lia).
    destruct (fo_used _ _ _ Hz b) as [Hr _]; [change MAXFILE with 268; lia|done|]. change (nmeta sb) with 46 in Hr. lia.
Qed.

Lemma disjoint_sym c x z : disjoint_files c x z → disjoint_files c z x.
Proof. intros Hd j k Hj Hk Hnz E. apply (Hd k j Hk Hj); congruence. Qed.

(** An inode after its file has been extended: the others keep theirs. *)
Section Update.
Context (m : image) (c : Z → list Z) (X : list inode) (k : nat) (x : inode) (m1 : image) (c1 : Z → list Z) (x1 x2 : inode).
Context (St : stored m c X) (Hx : X !! k = Some x) (V1 : view m1 c1) (Hfi : freeinode m1 = freeinode m).
Context (E : extends sb c c1 x x1) (Hok1 : file_ok sb c1 x1) (E2 : x2 = x1 <| i_size := i_size x2 |>) (W : dinode_wf x2).
Context (Hok2 : file_ok sb c1 x2).
Let c2 := put_inode k x2 c1.

Lemma update_place : (k < 199)%nat.
Proof using St Hx. pose proof (lookup_lt_Some _ _ _ Hx). pose proof (st_count _ _ _ St). lia. Qed.

Lemma update_low b : 0 ≤ b < 45 → c1 b = c b.
Proof using E Hok1. by apply (extends_low c c1 x x1). Qed.

Lemma update_other j z : j ≠ k → X !! j = Some z →
  file_ok sb c1 z ∧ (∀ b, slot c2 z b = slot c z b) ∧ disjoint_files c2 x2 z ∧ fdata c2 z = fdata c z ∧ inode_ok c2 j z.
Proof using St Hx V1 E Hok1 E2 W Hok2.
  intros Hne Hz. pose proof (st_inode _ _ _ St j z Hz) as [Hd Hw Hzok Hzt Hzc]. pose proof (st_disjoint _ _ _ St k j x z Hx Hz ltac:(congruence)) as Hdis.
  pose proof update_place as Hk. pose proof (lookup_lt_Some _ _ _ Hz). pose proof (st_count _ _ _ St).
  assert (Hz1 : file_ok sb c1 z) by (by eapply (other_file_ok _ _ _ mkfs_geom)). destruct (put_inode_file c1 k x2 z Hk Hz1) as (Hz2 & Hfd & Hsl & Hhi & _).
  assert (Hslot : ∀ b, slot c2 z b = slot c z b) by (intros b; unfold c2; rewrite Hsl; by eapply other_slot_eq).
  split; [done|]. split; [done|]. split; [|split].
  - intros a b Ha Hb. destruct (put_inode_file c1 k x2 x2 Hk Hok2) as (_ & _ & Hsx & _). unfold c2. rewrite Hsx, Hsl.
    assert (slot c1 x2 a = slot c1 x1 a) as -> by (by rewrite E2). by apply (other_disjoint sb c c1 x x1 z E Hzok Hdis).
  - unfold c2. rewrite Hfd. by eapply other_fdata.
  - split; [|done|done| |].
    + unfold c2. rewrite (put_inode_other c); [done|apply V1|done|lia|done|apply W|]. intros b Hb. apply update_low. lia.
    + destruct Hzt as [T1 T2]. split; [|done]. intros b Hb. rewrite <- T1 by done. rewrite <- !slot_data by (change MAXFILE with 268; lia). by rewrite Hslot.
    + eapply clean_ext; [|apply (fo_size _ _ _ Hzok)|exact Hzc]. intros b Hb. rewrite <- !slot_data by (change MAXFILE with 268; lia).
      split; [apply Hslot|]. intros Hnz. destruct (fo_used _ _ _ Hzok b) as [Hr _]; [change MAXFILE with 268; lia|done|]. change (nmeta sb) with 46 in Hr.
      unfold c2. rewrite Hhi by lia. apply (other_block sb c c1 x x1 z E Hzok Hdis); [change MAXFILE with 268; lia|done].
Qed.

Lemma update_same : disk_inode c2 (inum_of k) = x2.
Proof using St Hx V1 E E2 W.
  apply put_inode_same; [apply V1|apply update_place|done|]. apply (same_disk_inode c). rewrite (io_disk _ _ _ (st_inode _ _ _ St k x Hx)).
  rewrite E2 at 1. rewrite (ex_x _ _ _ _ _ E). rewrite E2. done.
Qed.

Lemma stored_update : tight c1 x2 (i_size x2) → clean c1 x2 (i_size x2) →
  ∃ m2, winode (inum_of k) x2 m1 = Some m2 ∧ stored m2 c2 (<[k := x2]> X) ∧ freeblock m2 = freeblock m1 ∧
    fdata c2 x2 = fdata c1 x2 ∧ ∀ j z, j ≠ k → X !! j = Some z → fdata c2 z = fdata c z.
Proof using St Hx V1 Hfi E Hok1 E2 W Hok2.
  intros Ht Hcl. pose proof update_place as Hk. destruct (winode_ok m1 c1 k x2 V1 Hk (dw_len _ W)) as (m2 & Ew & V2 & Hfi2 & Hfb2).
  destruct (put_inode_file c1 k x2 x2 Hk Hok2) as (H1 & H2 & _ & _ & H4). destruct (H4 (i_size x2)) as [H5 H6].
  exists m2. split; [done|]. split; [|split; [done|split; [done|intros j z Hne Hz; by apply (update_other j)]]]. split.
  - done.
  - rewrite Hfi2, Hfi, length_insert. apply St.
  - rewrite length_insert. apply St.
  - unfold c2, put_inode. destruct (inode_place k Hk) as (_ & Hb & _). rewrite fn_lookup_insert_ne, update_low by lia. apply St.
  - intros b Hbl. unfold c2, put_inode. destruct (inode_place k Hk) as (_ & Hb & _). rewrite fn_lookup_insert_ne, update_low by lia. by apply (st_log _ _ _ St).
  - rewrite length_insert. intros j Hj. pose proof (lookup_lt_Some _ _ _ Hx). unfold c2.
    rewrite (put_inode_other c); [by apply (st_rest _ _ _ St)|apply V1|done|lia|lia|apply W|]. intros b Hb. apply update_low. lia.
  - intros j z Hj. destruct (decide (j = k)) as [->|Hne]; [|rewrite list_lookup_insert_ne in Hj by done; by apply update_other].
    rewrite list_lookup_insert_eq in Hj by (by eapply lookup_lt_Some). injection Hj as <-. split; [apply update_same|done|done|by apply H5|apply H6; [apply (fo_size _ _ _ Hok2)|done]].
  - intros i j y z Hi Hj Hij. destruct (decide (i = k)) as [->|Hik], (decide (j = k)) as [->|Hjk]; [done|..].
    + rewrite list_lookup_insert_eq in Hi by (by eapply lookup_lt_Some). injection Hi as <-. rewrite list_lookup_insert_ne in Hj by done. by apply (update_other j).
    + rewrite list_lookup_insert_eq in Hj by (by eapply lookup_lt_Some). injection Hj as <-. rewrite list_lookup_insert_ne in Hi by done.
      apply disjoint_sym. by apply (update_other i).
    + rewrite list_lookup_insert_ne in Hi, Hj by done. destruct (update_other i y Hik Hi) as (_ & Sy & _). destruct (update_other j z Hjk Hj) as (_ & Sz & _).
      intros a b Ha Hb. rewrite Sy, Sz. by apply (st_disjoint _ _ _ St i j).
Qed.
End Update.

(** ** The contents of the files *)

(** The inode shows a file of this type and with these bytes. *)
Definition shows (c : Z → list Z) (x : inode) (d : Z * list Z) : Prop :=
  i_type x = d.1 ∧ i_nlink x = 1 ∧ fdata c x = d.2 ∧ i_size x = Z.of_nat (length d.2).

Fixpoint total (D : list (Z * list Z)) : Z :=
  match D with
  | [] => 0
  | d :: D => blocks (Z.of_nat (length d.2)) + total D
  end.

Definition fs_image (m : image) (c : Z → list Z) (X : list inode) (D : list (Z * list Z)) : Prop :=
  stored m c X ∧ Forall2 (shows c) X D ∧ freeblock m = 46 + total D.

Lemma total_app D1 D2 : total (D1 ++ D2) = total D1 + total D2.
Proof. induction D1 as [|d D1 IH]; cbn [app total]; [done|]. rewrite IH. lia. Qed.

Lemma total_insert D k t d d' : D !! k = Some (t, d) →
  total (<[k := (t, d')]> D) = total D + (blocks (Z.of_nat (length d')) - blocks (Z.of_nat (length d))).
Proof.
  revert k. induction D as [|e D IH]; intros [|k] Hk; cbn in Hk; try done.
  - injection Hk as ->. cbn. lia.
  - change (<[S k := (t, d')]> (e :: D)) with (e :: <[k := (t, d')]> D). cbn [total]. rewrite IH by done. lia.
Qed.

Lemma iappend_stored m c X k x p : stored m c X → X !! k = Some x → i_size x + Z.of_nat (length p) ≤ MAXFILE * BSIZE →
  freeblock m + (blocks (i_size x + Z.of_nat (length p)) - blocks (i_size x)) ≤ 2000 →
  ∃ m' c' x', iappend (inum_of k) p m = Some m' ∧ stored m' c' (<[k := x']> X) ∧
    x' = x <| i_size := i_size x + Z.of_nat (length p) |> <| i_addrs := i_addrs x' |> ∧ fdata c' x' = fdata c x ++ p ∧
    (∀ j z, j ≠ k → X !! j = Some z → fdata c' z = fdata c z) ∧
    freeblock m' = freeblock m + (blocks (i_size x + Z.of_nat (length p)) - blocks (i_size x)).
Proof.
  intros St Hx Hmax Hfree. pose proof (st_inode _ _ _ St k x Hx) as [Hd W Hok Ht Hcl]. pose proof (fo_size _ _ _ Hok) as Hsz.
  unfold iappend. rewrite (rinode_ok m c X k x St Hx). cbn [mbind option_bind].
  assert (Ex : xint (i_size x) = i_size x) by (apply u32_small, W). rewrite Ex.
  destruct (iappend_loop_ok (length p) p m c x (i_size x)) as (m1 & c1 & x1 & -> & [V1 Hok1 Ht1 Hcl1 Hw Hi Hc1]); [done|apply St|done|done|done|lia|done|done|].
  set (sz := i_size x + Z.of_nat (length p)) in *. change (MAXFILE * BSIZE) with 274432 in *. cbn [mbind option_bind].
  assert (Es : xint sz = sz) by (apply u32_small; unfold sz; lia). rewrite Es.
  assert (Emax : sz = Z.max (i_size x) sz) by (unfold sz; lia).
  pose proof (wr_extends _ _ _ _ _ _ _ Hw) as He. pose proof (ex_x _ _ _ _ _ He) as Ex1.
  assert (Hok2 : file_ok sb c1 (x1 <| i_size := sz |>)) by (rewrite Emax; apply (wrote_file_ok sb c c1 x x1 (i_size x) p); done || lia).
  assert (E2 : x1 <| i_size := sz |> = x <| i_size := sz |> <| i_addrs := i_addrs x1 |>) by (rewrite Ex1; done).
  assert (W2 : dinode_wf (x1 <| i_size := sz |>)) by (eapply (written_wf _ _ _ mkfs_geom); [exact W|exact Hok2|exact E2]).
  destruct (stored_update m c X k x m1 c1 x1 (x1 <| i_size := sz |>)) as (m2 & -> & St2 & Hfb2 & Hfd & Hoth); try done.
  eexists _, _, _. split; [reflexivity|]. split; [exact St2|]. split; [exact E2|]. split; [|split; [done|lia]].
  pose proof (wrote_fdata sb c c1 x x1 (i_size x) p Hok Hw ltac:(lia) Hmax) as Efd. fold sz in Efd. rewrite <- Emax in Efd. rewrite Hfd, Efd.
  unfold write_data. pose proof (length_fdata c x ltac:(lia)) as Hlf.
  rewrite take_ge, drop_ge, app_nil_r by lia. done.
Qed.

Lemma iappend_fs m c X D k t d p : fs_image m c X D → D !! k = Some (t, d) →
  Z.of_nat (length (d ++ p)) ≤ MAXFILE * BSIZE → 46 + total (<[k := (t, d ++ p)]> D) ≤ 2000 →
  ∃ m' c' X', iappend (inum_of k) p m = Some m' ∧ fs_image m' c' X' (<[k := (t, d ++ p)]> D).
Proof.
  intros (St & Hs & Hfb) Hk Hmax Htot. destruct (Forall2_lookup_r _ _ _ _ _ Hs Hk) as (x & Hx & Ht & Hn & Hd & Hsz). cbn [fst snd] in *.
  rewrite (total_insert D k t d) in Htot by done. rewrite length_app, Nat2Z.inj_add in Hmax, Htot.
  destruct (iappend_stored m c X k x p St Hx) as (m' & c' & x' & E & St' & Ex & Hfd & Hoth & Hc); [by rewrite Hsz|rewrite Hsz; lia|].
  exists m', c', (<[k := x']> X). split; [done|]. split; [done|]. split.
  - apply Forall2_same_length_lookup_2; [rewrite !length_insert; by eapply Forall2_length|]. intros j y e Hy He.
    destruct (decide (j = k)) as [->|Hne].
    + rewrite list_lookup_insert_eq in Hy by (by eapply lookup_lt_Some). rewrite list_lookup_insert_eq in He by (by eapply lookup_lt_Some).
      injection Hy as <-. injection He as <-. split; [rewrite Ex; exact Ht|]. split; [rewrite Ex; exact Hn|].
      cbn [snd]. split; [by rewrite Hfd, Hd|]. rewrite Ex. cbn. rewrite Hsz, length_app. lia.
    + rewrite list_lookup_insert_ne in Hy by done. rewrite list_lookup_insert_ne in He by done. destruct (Forall2_lookup_lr _ _ _ _ _ _ Hs Hy He) as (H1 & H2 & H3 & H4).
      unfold shows. rewrite (Hoth j y Hne Hy). done.
  - rewrite (total_insert D k t d) by done. rewrite length_app, Nat2Z.inj_add, Hc, Hsz. lia.
Qed.

(** A file without blocks. *)
Lemma empty_slots c x : i_addrs x = replicate 13 0 → ∀ k, slot c x k = 0.
Proof.
  intros Ea k. assert (∀ k, nthZ (i_addrs x) k = 0) as Hn.
  { intros j. rewrite Ea. unfold nthZ. rewrite nth_lookup. destruct (replicate 13 0 !! Z.to_nat j) eqn:E; [|done]. by apply lookup_replicate in E as [-> _]. }
  unfold slot, faddr, ind_block. rewrite !Hn. by destruct (k =? MAXFILE), (k <? NDIRECT).
Qed.

Lemma empty_inode_ok c k x : i_addrs x = replicate 13 0 → i_size x = 0 → disk_inode c (inum_of k) = x → dinode_wf x → inode_ok c k x.
Proof.
  intros Ea Es Hd W. pose proof (empty_slots c x Ea) as Hs. assert (Hf : ∀ j, 0 ≤ j < 268 → faddr c x j = 0).
  { intros j Hj. by rewrite <- slot_data, Hs by (change MAXFILE with 268; lia). }
  split; [done|done|by apply zero_file_ok| |]; rewrite Es.
  - split; [intros j Hj; rewrite Hf by done; lia|]. rewrite <- (slot_ind c), Hs. lia.
  - intros p Hp Hnz. destruct Hnz. apply Hf. split; [apply Z.div_pos; lia|apply Z.div_lt_upper_bound; lia].
Qed.

Lemma ialloc_fs m c X D type : fs_image m c X D → (length D < 199)%nat → 0 ≤ type < 2 ^ 15 →
  ∃ m' c' X', ialloc type m = Some (inum_of (length D), m') ∧ fs_image m' c' X' (D ++ [(type, [])]).
Proof.
  intros (St & Hs & Hfb) Hlen Ht. pose proof (Forall2_length _ _ _ Hs) as El. rewrite <- El in *. set (k := length X) in *.
  unfold ialloc. rewrite (st_free _ _ _ St). fold k. assert (Ek : u32 (inum_of k + 1) = inum_of (S k)) by (unfold inum_of; rewrite u32_small by lia; lia). rewrite Ek.
  set (x := (no_dinode (inum_of k)) <| i_type := xshort type |> <| i_nlink := xshort 1 |> <| i_size := xint 0 |>).
  assert (Ext : i_type x = type) by (unfold x; cbn; apply Z.mod_small; lia).
  assert (W : dinode_wf x) by (split; [rewrite Ext; lia|vm_compute; by split..|repeat constructor; lia|done]).
  assert (V0 : view (Image (img m) (inum_of (S k)) (freeblock m)) c) by (destruct (st_view _ _ _ St); by split).
  destruct (winode_ok _ c k x V0 Hlen eq_refl) as (m' & -> & V' & Hfi & Hfb'). cbn [mbind option_bind]. set (c' := put_inode k x c) in *.
  assert (Hnew : inode_ok c' k x) by (apply empty_inode_ok; [done|done| |done]; apply put_inode_same; [apply V0|done|done|done]).
  assert (Hold : ∀ j z, X !! j = Some z → inode_ok c' j z ∧ fdata c' z = fdata c z ∧ ∀ b, slot c' z b = slot c z b).
  { intros j z Hz. pose proof (st_inode _ _ _ St j z Hz) as [Hd Hw Hzok Hzt Hzc]. pose proof (lookup_lt_Some _ _ _ Hz).
    destruct (put_inode_file c k x z Hlen Hzok) as (H1 & H2 & H3 & _ & H5). destruct (H5 (i_size z)) as [H6 H7].
    split; [|done]. split; [|done|done|by apply H6|apply H7; [apply (fo_size _ _ _ Hzok)|done]].
    unfold c'. rewrite (put_inode_other c c); [done|apply V0|done|lia|lia|done|done]. }
  assert (Hcase : ∀ j z, (X ++ [x]) !! j = Some z → X !! j = Some z ∨ j = k ∧ z = x).
  { intros j z [Hz|[Hj Hz]]%lookup_app_Some; [by left|right]. apply list_lookup_singleton_Some in Hz as [? ->]. split; [unfold k; lia|done]. }
  exists m', c', (X ++ [x]). split; [done|]. split; [split|split].
  - done.
  - rewrite Hfi, length_app. cbn. f_equal. unfold k. lia.
  - rewrite length_app. cbn. fold k. lia.
  - unfold c', put_inode. destruct (inode_place k Hlen) as (_ & Hb & _). rewrite fn_lookup_insert_ne by lia. apply St.
  - intros b Hbl. unfold c', put_inode. destruct (inode_place k Hlen) as (_ & Hb & _). rewrite fn_lookup_insert_ne by lia. by apply (st_log _ _ _ St).
  - rewrite length_app. cbn. fold k. intros j Hj. unfold c'. rewrite (put_inode_other c c); [apply (st_rest _ _ _ St); fold k; lia|apply V0|done|lia|lia|done|done].
  - intros j z [Hz|[-> ->]]%Hcase; [by apply Hold|done].
  - intros i j y z [Hy|[-> ->]]%Hcase [Hz|[-> ->]]%Hcase Hne a b Ha Hb; try (rewrite (empty_slots c' x eq_refl)); [|tauto..].
    destruct (Hold i y Hy) as (_ & _ & ->). destruct (Hold j z Hz) as (_ & _ & ->). by apply (st_disjoint _ _ _ St i j).
  - apply Forall2_app; [|constructor; [|constructor]].
    + apply Forall2_same_length_lookup_2; [done|]. intros j y e Hy He. destruct (Forall2_lookup_lr _ _ _ _ _ _ Hs Hy He) as (H1 & H2 & H3 & H4).
      unfold shows. by destruct (Hold j y Hy) as (_ & -> & _).
    + split; [done|]. split; [done|]. split; [|done]. reflexivity.
  - rewrite Hfb'. cbn [freeblock]. rewrite Hfb, total_app. change (total [(type, [])]) with 0. lia.
Qed.
End Image.
