(* ===== verification/MkfsCorrect.v ===== *)
(** * The image that mkfs writes

    From the empty image to the file system with all files: the operations of
    [mkfs_main] one after the other, and what the kernel finds on the disk. *)

From stdpp Require Import functions.
From S2P Require Import Prelude CString Riscv Kernel Bytes Bio Log Fs FsSpec FsFile FsData FsInode FsTrunc Mkfs MkfsSpec MkfsProps.

(** ** Adding files *)

Lemma blocks_pos n : 0 ≤ n → 0 ≤ blocks n.
Proof. intros Hn. change 0 with (blocks 0). by apply blocks_mono. Qed.

Lemma total_pos D : 0 ≤ total D.
Proof. induction D as [|d D IH]; cbn [total]; [done|]. pose proof (blocks_pos (Z.of_nat (length d.2))). lia. Qed.

Lemma total_insert_mono D k t d a b : D !! k = Some (t, d) → (length a ≤ length b)%nat →
  total (<[k := (t, a)]> D) ≤ total (<[k := (t, b)]> D).
Proof. intros Hk Hl. rewrite !(total_insert D k t d) by done. pose proof (blocks_mono (Z.of_nat (length a)) (Z.of_nat (length b))). lia. Qed.

Lemma append_all_fs ps : ∀ m c X D k t d, fs_image m c X D → D !! k = Some (t, d) →
  Z.of_nat (length (d ++ concat ps)) ≤ MAXFILE * BSIZE → 46 + total (<[k := (t, d ++ concat ps)]> D) ≤ 2000 →
  ∃ m' c' X', append_all (inum_of k) ps m = Some m' ∧ fs_image m' c' X' (<[k := (t, d ++ concat ps)]> D).
Proof.
  induction ps as [|p ps IH]; intros m c X D k t d Hi Hk Hmax Htot.
  - cbn [concat]. rewrite app_nil_r, list_insert_id by done. by exists m, c, X.
  - cbn [concat append_all] in *. rewrite app_assoc in *. pose proof (total_insert_mono D k t d (d ++ p) ((d ++ p) ++ concat ps) Hk) as Hm.
    rewrite (length_app (d ++ p)) in Hm, Hmax. specialize (Hm ltac:(lia)).
    destruct (iappend_fs m c X D k t d p Hi Hk) as (m1 & c1 & X1 & -> & Hi1); [lia|lia|]. cbn [mbind option_bind].
    assert (Hk1 : <[k := (t, d ++ p)]> D !! k = Some (t, d ++ p)) by (apply list_lookup_insert_eq; by eapply lookup_lt_Some).
    destruct (IH m1 c1 X1 (<[k := (t, d ++ p)]> D) k t (d ++ p) Hi1 Hk1) as (m2 & c2 & X2 & E2 & Hi2);
      [rewrite length_app; lia|by rewrite list_insert_insert_eq|].
    rewrite list_insert_insert_eq in Hi2. eauto 10.
Qed.

Lemma length_dirent i name : length (dirent i name) = 16%nat.
Proof. unfold dirent. rewrite length_app, length_le_bytes, length_strncpy, length_replicate; [done|]. by rewrite length_replicate. Qed.

(** The entries of the files that are added with numbers from [k] on. *)
Fixpoint entries (k : nat) (names : list (list Z)) : list Z :=
  match names with
  | [] => []
  | name :: names => dirent (inum_of k) name ++ entries (S k) names
  end.

Lemma length_entries names : ∀ k, length (entries k names) = (16 * length names)%nat.
Proof. induction names as [|n names IH]; intros k; [done|]. cbn [entries length]. rewrite length_app, length_dirent, IH. lia. Qed.

Definition file_data (f : list Z * list (list Z)) : Z * list Z := (T_FILE, concat f.2).

Lemma total_cons d D : total (d :: D) = blocks (Z.of_nat (length d.2)) + total D.
Proof. done. Qed.

Lemma add_file_fs m c X r F f name (r' := r ++ dirent (inum_of (S (length F))) name) (D' := (T_DIR, r') :: F ++ [file_data f]) :
  fs_image m c X ((T_DIR, r) :: F) → (length F < 198)%nat → shortname f.1 = Some name →
  Z.of_nat (length r') ≤ MAXFILE * BSIZE → Z.of_nat (length (concat f.2)) ≤ MAXFILE * BSIZE → 46 + total D' ≤ 2000 →
  ∃ m' c' X', add_file 1 f.1 f.2 m = Some m' ∧ fs_image m' c' X' D'.
Proof.
  intros Hi Hlen Hname Hr Hf Htot. unfold add_file. rewrite Hname. cbn [mbind option_bind].
  destruct (ialloc_fs m c X ((T_DIR, r) :: F) T_FILE Hi) as (m1 & c1 & X1 & -> & Hi1); [cbn; lia|done|]. cbn [mbind option_bind length].
  unfold D', file_data in *. cbn [app] in Hi1. rewrite total_cons, total_app in Htot. pose proof (total_pos [(T_FILE, concat f.2)]).
  destruct (iappend_fs m1 c1 X1 _ 0 T_DIR r (dirent (inum_of (S (length F))) name) Hi1 eq_refl Hr) as (m2 & c2 & X2 & E2 & Hi2).
  { cbn [list_insert insert]. fold r'. rewrite total_cons, total_app. change (total [(T_FILE, [])]) with 0. lia. }
  change (inum_of 0) with 1 in E2. rewrite E2. cbn [mbind option_bind]. cbn [list_insert insert] in Hi2. fold r' in Hi2.
  assert (Hin : ∀ e d, <[S (length F) := d]> ((T_DIR, r') :: F ++ [e]) = (T_DIR, r') :: F ++ [d]).
  { intros e d. change (<[S (length F) := d]> ((T_DIR, r') :: F ++ [e])) with ((T_DIR, r') :: <[length F := d]> (F ++ [e])).
    f_equal. by rewrite insert_app_r_alt, Nat.sub_diag by lia. }
  destruct (append_all_fs f.2 m2 c2 X2 _ (S (length F)) T_FILE [] Hi2) as (m3 & c3 & X3 & E3 & Hi3).
  - change ((F ++ [(T_FILE, [] : list Z)]) !! length F = Some (T_FILE, [])). by rewrite lookup_app_r, Nat.sub_diag by lia.
  - done.
  - cbn [app]. by rewrite Hin, total_cons, total_app.
  - cbn [app] in Hi3. rewrite Hin in Hi3. eauto 10.
Qed.

Lemma add_files_fs files : ∀ names m c X r F, fs_image m c X ((T_DIR, r) :: F) → Forall2 (λ f name, shortname f.1 = Some name) files names →
  (length F + length files ≤ 198)%nat → Z.of_nat (length r + 16 * length files) ≤ MAXFILE * BSIZE →
  Forall (λ f, Z.of_nat (length (concat f.2)) ≤ MAXFILE * BSIZE) files →
  46 + total ((T_DIR, r ++ entries (S (length F)) names) :: F ++ (file_data <$> files)) ≤ 2000 →
  ∃ m' c' X', add_files 1 files m = Some m' ∧ fs_image m' c' X' ((T_DIR, r ++ entries (S (length F)) names) :: F ++ (file_data <$> files)).
Proof.
  induction files as [|[arg ps] files IH]; intros names m c X r F Hi Hn Hlen Hr Hsz Htot.
  - apply Forall2_nil_inv_l in Hn as ->. cbn [fmap list_fmap entries]. rewrite !app_nil_r. by exists m, c, X.
  - apply Forall2_cons_inv_l in Hn as (name & names' & Hname & Hn & ->). apply Forall_cons in Hsz as [Hf Hsz]. cbn [length] in *.
    cbn [fmap list_fmap entries] in *. rewrite (app_assoc r), (cons_middle (file_data _)), (app_assoc F) in *. cbn [fst snd] in *.
    set (r' := r ++ dirent _ name) in *. set (e := file_data (arg, ps)) in *.
    assert (Hl' : length r' = (length r + 16)%nat) by (unfold r'; by rewrite length_app, length_dirent).
    rewrite total_cons, total_app in Htot. cbn [snd] in Htot. rewrite length_app in Htot.
    pose proof (blocks_mono (Z.of_nat (length r')) (Z.of_nat (length r' + length (entries (S (S (length F))) names')))).
    pose proof (total_pos (file_data <$> files)).
    destruct (add_file_fs m c X r F (arg, ps) name Hi) as (m1 & c1 & X1 & E1 & Hi1); [lia|done|fold r'; lia|done|fold r' e; rewrite total_cons; cbn [snd]; lia|].
    cbn [add_files fst snd] in *. rewrite E1. cbn [mbind option_bind]. fold r' e in Hi1.
    assert (El : length (F ++ [e]) = S (length F)) by (rewrite length_app; cbn; lia). rewrite <- El.
    apply (IH names' m1 c1 X1); [done|done|lia|lia|done|]. rewrite total_cons, total_app. cbn [snd]. rewrite El, length_app. lia.
Qed.

(** ** The size of the root directory *)

(** Up to the end of the block. *)
Definition pad (r : list Z) : list Z := r ++ replicate (Z.to_nat (1024 - Z.of_nat (length r) mod 1024)) 0.

Lemma fdata_grow c x n : 0 ≤ i_size x ≤ n → (∀ p, i_size x ≤ p < n → fbyte c x p = 0) →
  fdata c (x <| i_size := n |>) = fdata c x ++ replicate (Z.to_nat (n - i_size x)) 0.
Proof.
  intros Hn Hz. unfold fdata. cbn [i_size]. change (i_size (x <| i_size := n |>)) with n.
  replace (Z.to_nat n) with (Z.to_nat (i_size x) + Z.to_nat (n - i_size x))%nat by lia. rewrite seq_app, fmap_app. f_equal. cbn [Nat.add].
  apply list_eq. intros k. rewrite list_lookup_fmap. destruct (decide (k < Z.to_nat (n - i_size x))%nat) as [Hk|Hk].
  - rewrite lookup_seq_lt, lookup_replicate_2 by done. cbn. f_equal. apply Hz. lia.
  - rewrite lookup_seq_ge by lia. rewrite (lookup_ge_None_2 (replicate _ _)); [done|rewrite length_replicate; lia].
Qed.

Lemma round_up off : 0 ≤ off → off mod 1024 ≠ 0 →
  (off / 1024 + 1) * 1024 = off + (1024 - off mod 1024) ∧ ∀ k, k * 1024 < (off / 1024 + 1) * 1024 ↔ k * 1024 < off.
Proof. intros H0 Hm. pose proof (Z.div_mod off 1024 ltac:(lia)). pose proof (Z.mod_pos_bound off 1024 ltac:(lia)). split; [lia|]. intros k. split; nia. Qed.

Lemma blocks_round off : 0 ≤ off < 12 * 1024 → off mod 1024 ≠ 0 → blocks ((off / 1024 + 1) * 1024) = blocks off.
Proof.
  intros H0 Hm. destruct (round_up off) as [Hr _]; [lia|done|]. pose proof (Z.div_mod off 1024 ltac:(lia)). pose proof (Z.mod_pos_bound off 1024 ltac:(lia)).
  assert (off / 1024 < 12) by (apply Z.div_lt_upper_bound; lia). unfold blocks. rewrite !(proj2 (Z.ltb_ge _ _)) by lia. f_equal.
  rewrite <- (Z.div_unique (off + 1023) 1024 (off / 1024 + 1) (off mod 1024 - 1)) by lia.
  rewrite <- (Z.div_unique _ 1024 (off / 1024 + 1) 1023); lia.
Qed.

Lemma fix_root_fs m c X r F : fs_image m c X ((T_DIR, r) :: F) → Z.of_nat (length r) mod 1024 ≠ 0 → Z.of_nat (length r) < 12 * 1024 →
  ∃ m' c' X', fix_root 1 m = Some m' ∧ fs_image m' c' X' ((T_DIR, pad r) :: F).
Proof.
  intros (St & Hs & Hfb) Hmod Hlt. destruct (Forall2_lookup_r _ _ _ 0 _ Hs eq_refl) as (x & Hx & Ht & Hn & Hd & Hsz). cbn [fst snd] in *.
  pose proof (st_inode _ _ _ St 0 x Hx) as [_ W Hok Htight Hcl]. set (n := (i_size x / 1024 + 1) * 1024).
  destruct (round_up (i_size x)) as [Hn1 Hn2]; [lia|by rewrite Hsz|]. fold n in Hn1, Hn2. pose proof (Z.mod_pos_bound (i_size x) 1024 ltac:(lia)).
  set (x2 := x <| i_size := n |>). assert (Hz : ∀ p, i_size x ≤ p < n → fbyte c x p = 0).
  { intros p Hp. apply Hcl; [lia|]. apply Htight; [split; [apply Z.div_pos; lia|apply Z.div_lt_upper_bound; lia]|].
    apply Hn2. pose proof (Z.div_mod p 1024 ltac:(lia)). pose proof (Z.mod_pos_bound p 1024 ltac:(lia)). lia. }
  assert (Hok2 : file_ok mk_sb c x2).
  { split; [apply Hok|cbn; change (MAXFILE * BSIZE) with 274432; fold n; lia|apply Hok|apply Hok|]. intros bn H0 Hb. change (faddr c x bn ≠ 0).
    change BSIZE with 1024 in Hb. apply (fo_full _ _ _ Hok); [done|]. change BSIZE with 1024. by apply Hn2. }
  unfold fix_root. change (rinode 1) with (rinode (inum_of 0)). change (winode 1) with (winode (inum_of 0)). rewrite (rinode_ok m c X 0 x St Hx). cbn [mbind option_bind]. change BSIZE with 1024.
  assert (xint (i_size x) = i_size x) as -> by (apply u32_small; lia). fold n. assert (u32 n = n) as -> by (apply u32_small; lia).
  assert (xint n = n) as -> by (apply u32_small; lia). fold x2.
  assert (W2 : dinode_wf x2) by (apply (written_wf _ _ _ mkfs_geom c x x2 n W Hok2); done).
  destruct (stored_update m c X 0 x m c x x2) as (m2 & E2 & St2 & Hfb2 & Hfd2 & Hoth); try done; [apply St|apply extends_refl|..].
  - split; [intros k Hk; cbn; fold n; rewrite Hn2; by apply Htight|]. cbn. fold n. rewrite (Hn2 12). apply Htight.
  - intros p Hp. apply Hcl. cbn in Hp. fold n in Hp. lia.
  - eexists _, _, _. split; [exact E2|]. split; [exact St2|]. split.
    + destruct X as [|x0 X]; [done|]. injection Hx as ->. apply Forall2_cons in Hs as [_ Hs]. constructor.
      * split; [exact Ht|]. split; [exact Hn|]. unfold pad. cbn [snd]. rewrite length_app, length_replicate. cbn. fold n.
        rewrite Hfd2. unfold x2. rewrite fdata_grow, Hd by (done || lia). rewrite Hn1, <- Hsz. split; [do 2 f_equal; lia|lia].
      * apply Forall2_same_length_lookup_2; [by eapply Forall2_length|]. intros j y e Hy He.
        destruct (Forall2_lookup_lr _ _ _ _ _ _ Hs Hy He) as (H1 & H2 & H3 & H4). unfold shows. by rewrite (Hoth (S j) y).
    + rewrite Hfb2, Hfb, !total_cons. unfold pad. cbn [snd]. rewrite length_app, length_replicate, Nat2Z.inj_add, <- Hsz, Z2Nat.id by lia.
      rewrite <- Hn1. unfold n. rewrite blocks_round; [done|lia|by rewrite Hsz].
Qed.

(** ** The first image and the last *)

Lemma mkfs_bbit c b : 0 ≤ b < 2000 → bbit c mk_sb b = bit_at (c 45) b.
Proof.
  intros Hb. unfold bbit. destruct (bblock_eq _ _ _ mkfs_geom b) as (-> & _); [done|]. change BPB with 8192. change (sb_bmapstart mk_sb) with 45.
  by rewrite Z.div_small, Z.mod_small by lia.
Qed.

(** The blocks with the bitmap that [balloc] writes. *)
Lemma bitmap_view m c : c 45 = bitmap (freeblock m) → (∀ b, b ≠ 45 → c b = img m b) → 46 ≤ freeblock m ≤ 2000 →
  (∀ b, b ≠ 45 → length (c b) = Z.to_nat BSIZE) → (∀ b, freeblock m ≤ b < 2000 → c b = zero_block) → view m c.
Proof.
  intros H45 Hoth Hf Hl Hz. split; [done| | |done|done].
  - intros b Hb. rewrite mkfs_bbit, H45 by done. apply bitmap_bits; lia.
  - intros b. destruct (decide (b = 45)) as [->|Hne]; [rewrite H45; apply bitmap_len|by apply Hl].
Qed.

Lemma get_zero_block n off : get n off zero_block = 0.
Proof.
  unfold get, zero_block. rewrite drop_replicate, take_replicate. generalize (n `min` (Z.to_nat BSIZE - off))%nat. intros k.
  induction k as [|k IH]; [done|]. cbn [replicate le_val]. by rewrite IH.
Qed.

Lemma blank_fs : ∃ c, fs_image blank_image c [] [].
Proof.
  set (c := <[45 := bitmap 46]> (img blank_image)). assert (Hb : ∀ b, b ≠ 45 → c b = img blank_image b) by (intros b H; unfold c; by rewrite fn_lookup_insert_ne).
  assert (Hz : ∀ b, b ≠ 45 → b ≠ 1 → c b = zero_block) by (intros b H H1; rewrite Hb by done; cbn; by rewrite fn_lookup_insert_ne).
  exists c. split; [split|split].
  - apply bitmap_view; [apply fn_lookup_insert|done|done| |intros b Hr; change (freeblock blank_image) with 46 in Hr; apply Hz; lia].
    intros b H45. destruct (decide (b = 1)) as [->|H1]; [rewrite Hb by done; by vm_compute|rewrite Hz by done; apply length_replicate].
  - done.
  - cbn. lia.
  - rewrite Hb by done. apply fn_lookup_insert.
  - intros b Hr. apply Hz; lia.
  - intros k Hk. destruct (inode_place k) as (_ & Hp & _); [lia|]. unfold disk_inode. rewrite Hz by lia. unfold load_dinode, get32, get16.
    change (Z.to_nat (NDIRECT + 1)) with 13%nat. cbn [seq fmap list_fmap]. rewrite !get_zero_block. reflexivity.
  - done.
  - done.
  - constructor.
  - done.
Qed.

(** Nothing but the bitmap block differs, and its bits are the same. *)
Section Bits.
Context (m m' : image) (c c' : Z → list Z) (X : list inode).
Context (St : stored m c X) (V' : view m' c') (Hc : ∀ b, b ≠ 45 → c' b = c b) (Hfi : freeinode m' = freeinode m) (Hfb : freeblock m' = freeblock m).

Lemma bits_faddr x k : file_ok mk_sb c x → faddr c' x k = faddr c x k.
Proof using Hc.
  intros Hok. unfold faddr. destruct (k <? NDIRECT); [done|]. destruct (Z.eqb_spec (ind_block x) 0) as [|Hnz]; [done|]. rewrite Hc; [done|].
  destruct (fo_used _ _ _ Hok MAXFILE) as [Hr _]; [by vm_compute|by rewrite slot_ind|]. rewrite slot_ind in Hr. change (nmeta mk_sb) with 46 in Hr. lia.
Qed.

Lemma bits_slot x k : file_ok mk_sb c x → slot c' x k = slot c x k.
Proof using Hc. intros Hok. unfold slot. by rewrite bits_faddr. Qed.

Lemma bits_file x : file_ok mk_sb c x → file_ok mk_sb c' x ∧ fdata c' x = fdata c x ∧ ∀ off, (tight c x off → tight c' x off) ∧ (0 ≤ off → clean c x off → clean c' x off).
Proof using St V' Hc Hfb.
  intros Hok. assert (Hd : ∀ k, 0 ≤ k < 268 → faddr c' x k = faddr c x k ∧ (faddr c x k ≠ 0 → c' (faddr c x k) = c (faddr c x k))).
  { intros k Hk. split; [by apply bits_faddr|]. intros Hnz. apply Hc. rewrite <- slot_data in * by (change MAXFILE with 268; lia).
    destruct (fo_used _ _ _ Hok k) as [Hr _]; [change MAXFILE with 268; lia|done|]. change (nmeta mk_sb) with 46 in Hr. lia. }
  split; [|split].
  - split; [apply Hok|apply Hok| | |].
    + intros k Hk. rewrite bits_slot by done. intros Hnz. destruct (fo_used _ _ _ Hok k Hk Hnz) as [Hr Hbit]. split; [done|].
      change (sb_size mk_sb) with 2000 in Hr. change (nmeta mk_sb) with 46 in Hr. rewrite (vw_bits _ _ V'), Hfb, <- (vw_bits _ _ (st_view _ _ _ St)) by lia. done.
    + intros j k Hj Hk. rewrite !bits_slot by done. by apply Hok.
    + intros bn. rewrite bits_faddr by done. by apply Hok.
  - unfold fdata. apply list_fmap_ext. intros i k Hk. apply list_elem_of_lookup_2, elem_of_seq in Hk. pose proof (fo_size _ _ _ Hok) as Hsz. change (MAXFILE * BSIZE) with 274432 in Hsz.
    assert (0 ≤ Z.of_nat k / 1024 < 268) as Hr by (split; [apply Z.div_pos; lia|apply Z.div_lt_upper_bound; lia]).
    unfold fbyte. change BSIZE with 1024. destruct (Hd _ Hr) as [-> ->]; [done|]. apply (fo_full _ _ _ Hok); [lia|]. change BSIZE with 1024.
    pose proof (Z.mul_div_le (Z.of_nat k) 1024 ltac:(lia)). lia.
  - intros off. split; [|by apply clean_ext]. intros [T1 T2]. split; [|done]. intros k Hk. by rewrite <- T1, bits_faddr.
Qed.
End Bits.

(** What the kernel finds on the disk: its superblock; an empty log; a bitmap with the
    first [used] blocks and no others; in the inodes from the root on these files, whose
    blocks are in use and shared by no two of them; free inodes behind them. *)
Record formatted (c : Z → list Z) (D : list (Z * list Z)) (used : Z) : Prop := {
  fm_sb : sb_of_bytes (c 1) = mk_sb;
  fm_log b : 2 ≤ b < 32 → c b = zero_block;
  fm_bits b : 0 ≤ b < 2000 → bbit c mk_sb b = (b <? used);
  fm_file k d : D !! k = Some d →
    let x := disk_inode c (inum_of k) in dinode_wf x ∧ file_ok mk_sb c x ∧ shows c x d;
  fm_disjoint j k : (j < length D)%nat → (k < length D)%nat → j ≠ k → disjoint_files c (disk_inode c (inum_of j)) (disk_inode c (inum_of k));
  fm_rest k : (length D ≤ k < 199)%nat → i_type (disk_inode c (inum_of k)) = 0
}.

Lemma balloc_fs m c X D : fs_image m c X D →
  ∃ m', balloc (freeblock m) m = Some m' ∧ freeblock m' = freeblock m ∧ formatted (img m') D (freeblock m).
Proof.
  intros (St & Hs & _). pose proof (vw_free _ _ (st_view _ _ _ St)) as Hf. unfold balloc. change (BSIZE * 8) with 8192.
  rewrite (proj2 (Z.ltb_lt _ _)) by lia. cbn [negb]. eexists. split; [reflexivity|]. split; [done|]. set (m' := wsect _ _ m). set (c' := img m').
  assert (Hc : ∀ b, b ≠ 45 → c' b = c b) by (intros b Hb; unfold c'; cbn; rewrite fn_lookup_insert_ne by done; symmetry; by apply (st_view _ _ _ St)).
  assert (V' : view m' c').
  { apply bitmap_view; [apply fn_lookup_insert|done|done|intros b Hb; rewrite Hc by done; apply (st_view _ _ _ St)|].
    intros b Hb. change (freeblock m') with (freeblock m) in Hb. rewrite Hc by lia. by apply (st_view _ _ _ St). }
  assert (Hd : ∀ k, (k < 199)%nat → disk_inode c' (inum_of k) = disk_inode c (inum_of k)).
  { intros k Hk. destruct (inode_place k Hk) as (_ & Hp & _). unfold disk_inode. by rewrite Hc by lia. }
  assert (Hlen : length X = length D) by (by eapply Forall2_length). pose proof (st_count _ _ _ St) as Hn.
  assert (Hx : ∀ k, (k < length D)%nat → ∃ x, X !! k = Some x ∧ disk_inode c' (inum_of k) = x).
  { intros k Hk. destruct (lookup_lt_is_Some_2 X k) as [x Hx]; [lia|]. exists x. rewrite Hd by lia. split; [done|]. by apply (st_inode _ _ _ St). }
  split.
  - rewrite Hc, (st_sb _ _ _ St) by done. by vm_compute.
  - intros b Hb. rewrite Hc by lia. by apply (st_log _ _ _ St).
  - intros b Hb. by apply (vw_bits _ _ V').
  - intros k d Hk. destruct (Hx k) as (x & HX & ->); [by eapply lookup_lt_Some|]. pose proof (st_inode _ _ _ St k x HX) as [_ W Hok _ _].
    destruct (bits_file m m' c c' X St V' Hc eq_refl x Hok) as (H1 & H2 & _). destruct (Forall2_lookup_lr _ _ _ _ _ _ Hs HX Hk) as (S1 & S2 & S3 & S4).
    split; [done|]. split; [done|]. unfold shows. by rewrite H2.
  - intros j k Hj Hk Hne. destruct (Hx j Hj) as (x & HX & ->). destruct (Hx k Hk) as (z & HZ & ->). intros a b Ha Hb.
    rewrite !(bits_slot c c' Hc) by (by eapply st_inode). by apply (st_disjoint _ _ _ St j k).
  - intros k Hk. rewrite Hd, (st_rest _ _ _ St) by lia. done.
Qed.

(** The root directory: entries for itself and for the files in their order. *)
Definition root_dir (names : list (list Z)) : list Z := dirent ROOTINO (lit ".") ++ dirent ROOTINO (lit "..") ++ entries 1 names.

Lemma length_root names : Z.of_nat (length (root_dir names)) = 16 * (Z.of_nat (length names) + 2).
Proof. unfold root_dir. rewrite !length_app, !length_dirent, length_entries. lia. Qed.

(** Where the root directory starts. *)
Lemma root_fs (r := dirent 1 (lit ".") ++ dirent 1 (lit "..")) : ∃ m1 m2 m3 c X,
  ialloc T_DIR blank_image = Some (1, m1) ∧ iappend 1 (dirent 1 (lit ".")) m1 = Some m2 ∧ iappend 1 (dirent 1 (lit "..")) m2 = Some m3 ∧ fs_image m3 c X [(T_DIR, r)].
Proof.
  destruct blank_fs as [c0 Hi0]. destruct (ialloc_fs blank_image c0 [] [] T_DIR Hi0) as (m1 & c1 & X1 & E1 & Hi1); [cbn; lia|done|].
  destruct (iappend_fs m1 c1 X1 _ 0 T_DIR [] (dirent 1 (lit ".")) Hi1 eq_refl) as (m2 & c2 & X2 & E2 & Hi2); [by vm_compute|by vm_compute|].
  destruct (iappend_fs m2 c2 X2 _ 0 T_DIR (dirent 1 (lit ".")) (dirent 1 (lit "..")) Hi2 eq_refl) as (m3 & c3 & X3 & E3 & Hi3); [by vm_compute|by vm_compute|].
  exists m1, m2, m3, c3, X3. done.
Qed.

(** C9: mkfs makes the file system that the kernel's theorems start from.  Given names
    without a slash, files that fit in an inode, in the 199 inodes behind number 0 and on
    the disk, and a root directory that does not end with a block, no assertion fails, and
    the image has the superblock, an empty log, exactly the blocks of the files and the
    metadata in use, every file with its contents, the root directory with its entries and
    zeroes up to the end of the block, all other inodes free, and no block in two files. *)
Theorem mkfs_correct files names (D := (T_DIR, pad (root_dir names)) :: (file_data <$> files)) :
  Forall2 (λ f name, shortname f.1 = Some name) files names → (length files ≤ 198)%nat →
  Forall (λ f, Z.of_nat (length (concat f.2)) ≤ MAXFILE * BSIZE) files → 46 + total D ≤ FSSIZE → (Z.of_nat (length files) + 2) mod 64 ≠ 0 →
  ∃ m, mkfs_main files = Some m ∧ freeblock m = 46 + total D ∧ formatted (img m) D (freeblock m).
Proof.
  intros Hn Hlen Hsz Htot Hmod. pose proof (Forall2_length _ _ _ Hn) as El. pose proof (length_root names) as Hr. change FSSIZE with 2000 in Htot.
  assert (Hrm : Z.of_nat (length (root_dir names)) mod 1024 ≠ 0) by (rewrite Hr, <- El; rewrite Z.mul_comm, (Z.mul_mod_distr_r _ 64 16) by lia; lia).
  assert (HD : total D = total ((T_DIR, root_dir names) :: (file_data <$> files))).
  { unfold D. rewrite !total_cons. cbn [snd]. f_equal. unfold pad. rewrite length_app, length_replicate, Nat2Z.inj_add, Z2Nat.id by (pose proof (Z.mod_pos_bound (Z.of_nat (length (root_dir names))) 1024); lia).
    destruct (round_up (Z.of_nat (length (root_dir names)))) as [<- _]; [lia|done|]. apply blocks_round; [lia|done]. }
  destruct root_fs as (m1 & m2 & m3 & c & X & E1 & E2 & E3 & Hi3).
  destruct (add_files_fs files names m3 c X _ [] Hi3 Hn) as (m4 & c4 & X4 & E4 & Hi4);
    [cbn; lia|rewrite length_app, !length_dirent; change (MAXFILE * BSIZE) with 274432; lia|done|rewrite <- app_assoc; change (dirent 1 ?a ++ dirent 1 ?b ++ entries _ names) with (root_dir names); cbn [app]; lia|].
  rewrite <- app_assoc in Hi4. change (fs_image m4 c4 X4 ((T_DIR, root_dir names) :: (file_data <$> files))) in Hi4.
  destruct (fix_root_fs m4 c4 X4 _ _ Hi4 Hrm ltac:(lia)) as (m5 & c5 & X5 & E5 & Hi5). destruct (balloc_fs m5 c5 X5 _ Hi5) as (m6 & E6 & Hfb & Hfm).
  unfold mkfs_main. rewrite E1. cbn [mbind option_bind]. change (1 =? ROOTINO) with true. cbn [negb]. rewrite E2. cbn [mbind option_bind]. rewrite E3.
  cbn [mbind option_bind]. rewrite E4. cbn [mbind option_bind]. rewrite E5. cbn [mbind option_bind]. rewrite E6. exists m6. split; [done|].
  destruct Hi5 as (_ & _ & Hf5). rewrite Hfb. done.
Qed.

Lemma mkfs_correct_witness : ∃ m, mkfs_main [(lit "user/_cat", [[127; 69]; [76; 70]]); (lit "README", [])] = Some m ∧ freeblock m = 48 ∧
  formatted (img m) [(T_DIR, pad (root_dir [lit "cat"; lit "README"])); (T_FILE, [127; 69; 76; 70]); (T_FILE, [])] (freeblock m).
Proof.
  destruct (mkfs_correct [(lit "user/_cat", [[127; 69]; [76; 70]]); (lit "README", [])] [lit "cat"; lit "README"]) as (m & E & Hf & Hm).
  - constructor; [by vm_compute|]. constructor; [by vm_compute|constructor].
  - cbn. lia.
  - constructor; [by vm_compute|]. constructor; [by vm_compute|constructor].
  - by vm_compute.
  - by vm_compute.
  - exists m. split; [exact E|]. split; [|exact Hm]. rewrite Hf. by vm_compute.
Defined.
